(* ===== verification/_CoqProject ===== *)
-Q . S2P
Prelude.v
RustStr.v
OrdMap.v
StateResult.v
Base64Url.v
UpdateModel.v
UpdateRollback.v
UpdateAdmission.v
UpdateTheorems.v
UpdateFixture.v
UpdateClaims.v
ExperimentSession.v
SessionTheorems.v
SessionProtocol.v
SessionTime.v
SessionClock.v
SessionClaims.v
MediaModel.v
MediaValidation.v
MediaSpec.v
MediaRefinement.v
MediaPlan.v
P2pRoute.v
MediaRuntime.v
MediaComposition.v
MediaLifecycle.v
ProductBinding.v
MediaFixture.v
MediaClaims.v
SignatureBase64.v
RetainedCleanup.v
CleanupTicket.v
OwnerEffect.v
CleanupServer.v
CleanupClaims.v
WireFrame.v
ProductModel.v
ProductActions.v
ProductSnapshot.v
ProductRuntime.v
ProductOrder.v
ProductInvariant.v
ProductMethods.v
ProductAdvance.v
ProductRestore.v
ProductReach.v
ProductJournal.v
ProductProgress.v
ProductFixture.v
ProductClaims.v
PackedStream.v
StereoPair.v
JsonValue.v
OwnerWire.v
DispatchJournal.v
OwnerDispatch.v
OwnerTheorems.v
ProductActivation.v
OwnerPlacement.v
OwnerFixture.v
OwnerClaims.v
StreamClaims.v
DepGraph.v
FeatureLock.v
FeatureTheorems.v
FeatureLockV2.v
FeatureV2Theorems.v
FeatureClaims.v
BleRendezvous.v
BleTheorems.v
WifiDirect.v
DeviceLink.v
DeviceLinkTheorems.v
PreparedStart.v
PreparedTheorems.v
PreparedClaims.v
RemoteCamera.v
RemoteSpec.v
RemoteTheorems.v
RemoteClaims.v
