(* ===== verification/Prelude.v ===== *)
(** * Rusty Quest: verification of the platform's decision cores

    Rusty Quest is the Meta Quest side of a family of XR tools. Around a lot of
    platform code (Vulkan, OpenXR, JNI, Java and Kotlin shells) it keeps small
    deterministic Rust cores that decide what the platform code may do. This
    library models those cores and proves what they promise.

    ** Parts and how they interact

    - The package updater (crates/rusty-quest-package-updater/src/lib.rs) admits
      a signed update manifest, returns a verified update, and commits the
      installed APK to an anti-rollback state that the caller persists.
    - The experiment session (experiment_session.rs of the native renderer)
      reduces commands to effects for the recording worker, the kiosk and the
      presentation; experiment_session_runtime.rs numbers the commands it
      forwards, session_recording_clock.rs relates the clocks and names sessions.
    - The media stream (crates/rusty-quest-media-stream) validates a session plan
      (model.rs, validation.rs), the runtime composition selected for it
      (runtime.rs, with the owner rules of product_runtime.rs and the direct
      peer-to-peer routes of crates/rusty-quest-device-link), runs the lifecycle
      of the session (runtime.rs) and the failure drill (failure_recovery.rs).
    - The product runtime of the same crate (product_runtime.rs) joins an accepted
      Manifold session with the lifecycle: it prepares a Start or Stop, calls the
      owner of every resource in order, records what providers read back, applies
      or rolls back, and journals each step so that a process that dies can clean
      up after itself.
    - The retained cleanup of an Android media owner (retained_cleanup.rs,
      retained_cleanup_server.rs and remote_cleanup_proof.rs of
      crates/rusty-quest-media-stream-android) verifies a signed request to stop a
      retained target, keeps the write-ahead journal that makes its effect
      at-most-once, enters the owner registry and signs the response, which the
      source keeps as its proof.
    - The owner dispatch of the same crate (owner_dispatch.rs) carries an effect
      that the media authority decided to the peer whose device owns the
      resource: placements are derived from the packaged runtime binding, the
      composite executor routes a ticket to the local registry or over the wire,
      the dispatch server enters the remote registry behind a write-ahead
      journal, the executor authenticates the answer, and the activation server
      switches the staged receiver graph on. lib.rs pairs stereo frames.
    - The prepared start of the same crate (prepared_start.rs) readies both halves
      of a duplex stream behind a closed gate before anything is sent: the peers
      exchange signed frames, the owner enters the SDK once for its sender and once
      for its decoder, and an abort accounts for every provider.
    - The remote camera (crates/rusty-quest-remote-camera) validates the plan of a
      two-way camera session (model.rs, validation.rs) and projects it onto a media
      stream and its runtime composition (media_stream.rs); its packed stereo
      stream (packed_stream.rs) carries both eyes in one video stream.
    - Feature activation (crates/rusty-quest-feature-activation/src/lib.rs) lets
      an adapter run only when the project's feature lock, the policy of the
      module and the runtime input agree, and inspects locks of the second
      generation for the effects that a selected feature may have.
    - The device link (crates/rusty-quest-device-link) keeps the evidence of how a
      Quest is reached: reports of tools, tunnels, brokers and command results
      (model.rs, validation.rs), Wi-Fi Direct runs (wifi_direct_lifecycle.rs,
      product_wifi_direct.rs), and the BLE rendezvous of two Quests
      (ble_rendezvous.rs).

    ** Files

    Foundations: [Prelude] (this file: [Result], machine integers, tactics, hint
    databases, orders, stable sorting), [RustStr] (byte strings and the [str]
    methods used), [OrdMap] (ordered maps that the code iterates
    over), [StateResult] (fallible [&mut self] methods as a monad, with a rule per
    statement for both outcomes).

    Updater: [Base64Url] (encode_base64url, decode_base64url_canonical);
    [UpdateModel] (the structs and receipts, the text validators,
    canonical_https_origin); [UpdateRollback]
    (PackageUpdateRollbackState); [UpdateAdmission] (registry, policy,
    verify_manifest, commit_installed_apk). Ed25519, SHA-256, RFC 8785
    canonicalization and JSON parsing are other crates: the class [ReleaseCrypto]
    has their operations and [ReleaseCryptoLaws] what the code relies on (a key
    keeps its bytes, a digest is 32 bytes). [UpdateTheorems] has the declarative
    specification of admission and commit, [UpdateFixture] the repository's
    fixture with a concrete instance of the interface, [UpdateClaims] the
    properties.

    Session: [ExperimentSession] (the controller as a record, one definition per
    command arm, [reduce], [apply] with its operation history, the adapter);
    [SessionTheorems] (reachability, the invariant, fencing); [SessionProtocol]
    (the recorder automaton and the simulation); [SessionTime] (experiment time
    and deadlines); [SessionClock] (anchors, keys and decimal texts); [SessionClaims].

    Media: [MediaModel] and [MediaValidation] (the plan and every validator, with
    the errors in the order in which the code pushes them); [MediaSpec] (what a
    well-formed plan is), [MediaRefinement] and [MediaPlan] (the validators decide
    it); [P2pRoute]; [MediaRuntime] (runtime specification and owner selections)
    and [MediaComposition] (what it accepts); [MediaLifecycle] (the lifecycle
    state machine, restoration, the recovery harness); [MediaFixture],
    [MediaClaims].

    Product runtime: [ProductBinding] (MediaStreamRuntimeProductBinding);
    [ProductModel] (actions, receipts, snapshots; the classes of Manifold's types,
    of the JSON codec, of providers and of the recovery journal, with
    [RecoveryJournalLaws] for its documented durability); [ProductActions] (order
    of owners, completions, the accepted session); [ProductSnapshot]
    (validate_product_recovery_snapshot); [ProductRuntime]
    (MediaStreamSessionProductRuntime: a method that calls a provider is split at
    the call, since the process can die there); [ProductOrder] (order of owners);
    [ProductInvariant], [ProductMethods] and [ProductAdvance] (the invariant,
    kept by every method on every outcome); [ProductRestore] (recovery);
    [ProductReach] (reachable runtimes as a step relation with readbacks and
    restarts); [ProductJournal] (what is durable); [ProductProgress] (application
    and rollback succeed; the fuel of [roll_back] is one call per owner and one
    for the uncertain attempt, and so do calls cut short);
    [ProductFixture] (a concrete product and its runs), [ProductClaims].

    Retained cleanup: [SignatureBase64] (encode_signature_base64,
    decode_signature_base64 of owner_dispatch.rs); [RetainedCleanup]
    (RetainedCleanupReplaySnapshot with classify, reserve and complete over the
    trait RetainedCleanupReplayStore, whose durability is the class
    [ReplayStoreLaws], and runs of calls with crashes); [CleanupTicket] (request
    signing and verification and their declarative contract); [OwnerEffect]
    (readbacks, effects, responses and remote proofs, which validate one another:
    the recursion carries the length of the nested response as its bound, and
    [validate_effect_unfold] shows that the bound is enough); [CleanupServer]
    (RetainedCleanupDispatchServer, a step relation with deaths and restarts, and
    its invariant); [CleanupClaims] (concrete collaborators and the properties).

    Owner dispatch: [WireFrame] (the framed envelope); [JsonValue]
    (serde_json::Value as far as the code takes it apart, UTF-8, and JSON text, which
    is read back in one way); [OwnerWire]
    (requests, responses and activations, their split into metadata and payload,
    signing bytes and shape tests, over the class [OwnerDispatchEncoding] of what
    serde_json does for these types); [DispatchJournal] (the two replay snapshots
    as one record, the marker and terminal commits, and the abstract journal that
    both servers refine); [OwnerDispatch] (OwnerDispatchServer,
    RemoteOwnerDispatchExecutor) and [OwnerTheorems] (its runs with deaths and
    restarts, the refinement and the end-to-end lemmas); [ProductActivation]
    (ProductActivationServer, likewise); [OwnerPlacement]
    (MediaStreamRuntimeProductBinding, derive_embedded_duplex_owner_placements,
    CompositeAndroidMediaOwnerExecutor); [OwnerFixture] (concrete collaborators
    that satisfy every law), [OwnerClaims].

    Streams: [PackedStream] (packed_stream.rs), [StereoPair]
    (AndroidMediaPairRuntime), [StreamClaims].

    Prepared starts: [PreparedStart] (frames, canonical documents and digests, the
    request, readbacks, AndroidPreparedStartOwner, aborts; the escapes of JSON
    strings are the class [JsonStrings], the envelope's parser [PreparedFrameJson],
    the SDK [AndroidPreparedResourceExecutor], which may answer anything);
    [PreparedTheorems] (canonical texts determine documents, runs of the owner);
    [PreparedClaims] (the crate's test request and the properties).

    Remote camera: [RemoteCamera] (the plan, every validator, the projection);
    [RemoteSpec] (what a well-formed plan is, and that the validators decide it);
    [RemoteTheorems] (when the projection is a media stream); [RemoteClaims] (the
    runtime composition, the repository's fixtures and the properties).

    Feature activation: [DepGraph] (the recursive search for cycles, which both
    generations have, over positions and over names); [FeatureLock] (the first
    generation: validators, closure, resolve_lock_bound_activation) with
    [FeatureTheorems] (the closure and the agreement, declaratively);
    [FeatureLockV2] (inspect_feature_lock_v2, its validators, the canonical text)
    with [FeatureV2Theorems] (the closure of such a lock, and that its canonical
    text is read back in one way); [FeatureClaims] (a lock of each
    generation and the properties). serde_json at the lock types is the classes
    [FeatureLockJson] and [FeatureLockV2Json].

    Device link: [BleRendezvous] (messages, signing input, sidecar and pair
    receipts) with [BleTheorems]; [WifiDirect] (lifecycle artifacts, product
    runs); [DeviceLink] (reports); [DeviceLinkTheorems] (what each of them
    accepts, the repository's fixtures and the properties).
    The size of a message on the wire is that of the class [BleMessageJson].

    ** Conventions

    Unsigned integers are [N]; where a width matters the bound is written out
    ([checked_sub], [saturating_add64], [shl32]) and reachable states are proved
    to stay inside it. Strings are byte strings. A [&mut self] method takes the
    state and returns it. [?] is the bind of [result]. A [Vec] of errors that a
    validator fills is the list it returns. A [BTreeSet] is a [gset], a
    [BTreeMap] a [gmap], or a sorted list where the code iterates over it.
    Recursion is structural except for the 20 digits of [fmt_decimal], which
    suffice for 64-bit numbers, the nesting bound of [validate_effect], and the
    search [visit], whose fuel is one more than the number of features: an open
    feature is never entered again, so the recursion is no deeper.

    ** What the theorems show

    - Updater: admission and commit are equivalent to their declarative
      specifications, on every branch; the rollback state refines a finite map,
      never loses or lowers a checkpoint, and an update commits at most once; an
      admitted URL has exactly the configured origin and the content-addressed
      path; base64url is a bijection with its canonical texts.
    - Session: an invariant of all reachable controllers; the effects refine the
      recorder protocol, hence each recording is prepared, completed and
      finalized at most once; operation tokens are at-most-once with idempotent
      replay; experiment time and completion deadlines are exact; session keys
      sort as time and round-trip.
    - Media: plan and composition validators decide their specifications; in an
      accepted plan every lane is wired to a receiving port, in an accepted
      composition every resource has exactly one owner; the lifecycle only arms,
      starts, confirms and stops in order, each at most once; reachable states
      restore to themselves and journals are never replayed; the recovery harness
      is exactly-once.
    - Product runtime: every reachable runtime is well-formed; owners are called
      in the order of their families; a call is durable before its provider is
      entered and, after a restart, compensated before anything else; recovery
      accepts exactly the well-formed snapshots without repeated receipts; a
      restored runtime only cleans up; what is durable is always a state the
      runtime has been in; recorded completions apply and rollbacks end. A
      provider that reuses a receipt can make a journal unrecoverable, and a
      stopped runtime can prepare a Stop that never applies.
    - Retained cleanup: over any requests, deaths, restarts and store failures,
      the owner registry is entered at most once per dispatch and a completed one
      is answered with its exact response; the coordinator accepts the response of
      every handled request, and the proof it becomes validates at the
      source; a request is accepted exactly under the two-principal Stop contract,
      and a signed valid request is accepted; the signature decoder accepts
      exactly the canonical texts of 64 bytes; validation of nested effects
      terminates.
    - Owner dispatch: over any frames, deaths, restarts and store failures, the
      owner registry is entered at most once per dispatch, and the receiver graph
      is activated at most once per activation; an answered frame is answered with
      the same bytes ever after; what the executor concludes is the verdict on
      what the remote registry returned; derived placements cover every owner and
      the composite uses evidence once; a retried activation can leave a journal
      that the next start refuses.
    - Streams: frames and pair extensions have exactly one encoding; the sequence
      validator equals the loop without its sets; frame handles are conserved, and
      expiry always drains the pairing runtime.
    - Prepared starts: whatever the SDK answers, it is entered at most once per
      half and only for the reserved request; an owner that is ready has both
      halves behind a closed gate; a decoded frame is one that the peer signed, and
      an encoded one arrives as it was sent; a receipt is of one request; a terminal
      abort accounts for exactly the providers of the request.
    - Remote camera: the validator decides its specification; an accepted plan
      projects exactly under four named conditions and keeps its lanes and routes;
      the runtime composition around a projection is always accepted.
    - Feature activation: activation and inspection succeed exactly under their
      declarative conditions; what an activated feature needs is enabled and
      nothing enabled conflicts; the dependency search always answers and decides
      acyclicity; the effect union is exactly the effects of the selected
      features; equal canonical texts are texts of equal locks.
    - Device link: the signing input of an accepted rendezvous message determines
      all of it but its tag; reports, pair artifacts, lifecycle artifacts and
      product runs are accepted exactly under their declarative contracts.

    ** Not modelled

    ExperimentControlGesture (floating-point grip thresholds); the effect
    processing of experiment_session_runtime.rs and the recording writer (file
    system); the profile crate (floating-point property texts) and the remote
    camera's profile emission, which ends in its validator; the broker, peer and
    fleet crates and the evidence adapter for QCL runs, which project authorities
    and types of other repositories; the breath contract, projection settings, hand
    and particle adapters (floating point); rendering, JNI, Java, Kotlin and
    PowerShell (platform I/O). *)

From stdpp Require Export base list strings gmap relations.
From Stdlib Require Export NArith Lia.
From Stdlib Require Import Sorting.Sorted.

(** ** Fallible code: [Result<A, E>]

    Rust's [?] is the monadic bind of stdpp, [x ← m; k]. *)

Inductive result (E A : Type) : Type :=
  | Ok (a : A)
  | Err (e : E).
Arguments Ok {E A} a.
Arguments Err {E A} e.

#[global] Instance result_eq_dec {E A} `{EqDecision E, EqDecision A} : EqDecision (result E A).
Proof. solve_decision. Defined.

#[global] Instance result_ret {E} : MRet (result E) := fun _ a => Ok a.
#[global] Instance result_bind {E} : MBind (result E) := fun _ _ f m =>
  match m with Ok a => f a | Err e => Err e end.

(** [if cond { return Err(e) }] followed by the rest of the function. *)
Definition fail_if {E : Type} (cond : bool) (e : E) : result E unit :=
  if cond then Err e else Ok tt.

(** [option.ok_or_else(|| e)]. *)
Definition ok_or {E A : Type} (o : option A) (e : E) : result E A :=
  match o with Some a => Ok a | None => Err e end.

Definition is_ok {E A : Type} (r : result E A) : bool :=
  match r with Ok _ => true | Err _ => false end.

(** ** Notations *)

Declare Scope quest_scope.
Delimit Scope quest_scope with quest.

(** Successive field assignments on one value, in program order. *)
Notation "x |> f" := (f x) (at level 50, left associativity, only parsing) : quest_scope.

(** ** Machine integers

    [u8], [u16], [u32], [u64] and [usize] values are [N]; the upper bound of
    the width is written out where an operation depends on it. *)

Definition u32_max : N := 4294967295.
Definition u64_max : N := 18446744073709551615.

Definition checked_sub (a b : N) : option N :=
  if (b <=? a)%N then Some (a - b)%N else None.
Definition saturating_sub (a b : N) : N := (a - b)%N.
Definition saturating_add64 (a b : N) : N := N.min (a + b) u64_max.
Definition checked_add64 (a b : N) : option N :=
  if (a + b <=? u64_max)%N then Some (a + b)%N else None.

(** Length of a [Vec] or slice as a machine integer. *)
Definition len {A : Type} (l : list A) : N := N.of_nat (length l).

(** ** Tactics and hint databases of the development *)

Create HintDb quest discriminated.
Create HintDb quest_rw.

(** Turns the boolean tests of the code into the propositions they decide. *)
Ltac bool_to_prop :=
  repeat match goal with
  | H : _ && _ = true |- _ => apply andb_true_iff in H; destruct H
  | H : _ || _ = false |- _ => apply orb_false_iff in H; destruct H
  | H : negb _ = true |- _ => apply negb_true_iff in H
  | H : negb _ = false |- _ => apply negb_false_iff in H
  | H : (_ =? _)%N = true |- _ => apply N.eqb_eq in H
  | H : (_ =? _)%N = false |- _ => apply N.eqb_neq in H
  | H : (_ <=? _)%N = true |- _ => apply N.leb_le in H
  | H : (_ <=? _)%N = false |- _ => apply N.leb_gt in H
  | H : (_ <? _)%N = true |- _ => apply N.ltb_lt in H
  | H : (_ <? _)%N = false |- _ => apply N.ltb_ge in H
  | H : (_ =? _)%string = true |- _ => apply String.eqb_eq in H
  | H : (_ =? _)%string = false |- _ => apply String.eqb_neq in H
  | H : bool_decide _ = true |- _ => apply bool_decide_eq_true_1 in H
  | H : bool_decide _ = false |- _ => apply bool_decide_eq_false_1 in H
  end.

(** Arithmetic goals stated with the boolean comparisons of the code. *)
Ltac bool_lia :=
  repeat rewrite ?orb_true_iff, ?andb_true_iff, ?orb_false_iff, ?andb_false_iff,
    ?negb_true_iff, ?negb_false_iff, ?N.leb_le, ?N.ltb_lt, ?N.eqb_eq,
    ?N.leb_gt, ?N.ltb_ge, ?N.eqb_neq in *; lia.

(** Splits [Forall] over an explicit list into its elements. *)
Ltac forall_cons :=
  repeat match goal with
  | H : Forall _ (_ :: _) |- _ => apply Forall_cons in H; destruct H
  | H : Forall _ [] |- _ => clear H
  end.

(** Splits a successful run of [?]-style code into its successful steps. *)
Ltac inv_ok :=
  repeat match goal with
  | H : Ok _ = Ok _ |- _ => injection H as H
  | H : Err _ = Ok _ |- _ => discriminate H
  | H : Ok _ = Err _ |- _ => discriminate H
  | H : mret _ = Ok _ |- _ => injection H as H
  | H : mbind _ ?m = Ok _ |- _ =>
      let E := fresh "E" in
      destruct m eqn:E; cbn [mbind result_bind] in H; [|discriminate H]
  | H : fail_if ?b _ = Ok _ |- _ =>
      let E := fresh "E" in
      unfold fail_if in H; destruct b eqn:E; [discriminate H|clear H]
  | H : ok_or ?o _ = Ok _ |- _ =>
      let E := fresh "E" in
      unfold ok_or in H; destruct o eqn:E; [injection H as H|discriminate H]
  | u : unit |- _ => destruct u
  end.

(** ** Results *)

Lemma bind_ok {E A B} (m : result E A) (f : A → result E B) b :
  mbind f m = Ok b ↔ ∃ a, m = Ok a ∧ f a = Ok b.
Proof. destruct m; cbn; naive_solver. Qed.

Lemma fail_if_ok {E} (c : bool) (e : E) u : fail_if c e = Ok u ↔ c = false.
Proof. destruct c, u; cbn; split; congruence. Qed.

Lemma fail_if_bind_ok {E A} (c : bool) (e : E) (k : unit → result E A) a :
  mbind k (fail_if c e) = Ok a ↔ c = false ∧ k tt = Ok a.
Proof. destruct c; cbn; naive_solver. Qed.

Lemma then_ok {E A} (m : result E unit) (k : result E A) a :
  mbind (fun _ => k) m = Ok a ↔ m = Ok tt ∧ k = Ok a.
Proof. destruct m as [[]|]; cbn; naive_solver. Qed.

Lemma ok_or_bind_ok {E A B} (o : option A) (e : E) (k : A → result E B) b :
  mbind k (ok_or o e) = Ok b ↔ ∃ a, o = Some a ∧ k a = Ok b.
Proof. destruct o; cbn; naive_solver. Qed.

Lemma bind_err {E A B} (m : result E A) (f : A → result E B) e :
  mbind f m = Err e ↔ m = Err e ∨ ∃ a, m = Ok a ∧ f a = Err e.
Proof. destruct m; cbn; naive_solver. Qed.

Lemma fail_if_bind_err {E A} (c : bool) (e' e : E) (k : unit → result E A) :
  mbind k (fail_if c e') = Err e ↔ c = true ∧ e' = e ∨ c = false ∧ k tt = Err e.
Proof. destruct c; cbn; naive_solver. Qed.

Lemma is_ok_true {E A} (r : result E A) : is_ok r = true ↔ ∃ a, r = Ok a.
Proof. destruct r; cbn; naive_solver. Qed.

Lemma is_ok_false {E A} (r : result E A) : is_ok r = false ↔ ∃ e, r = Err e.
Proof. destruct r; cbn; naive_solver. Qed.

(** ** Lists with distinct keys *)

Lemma fmap_NoDup_inj {A B} (f : A → B) l x y : NoDup (f <$> l) → x ∈ l → y ∈ l → f x = f y → x = y.
Proof.
  induction l as [|a l IH]; [set_solver|]. cbn. intros [Ha Hl]%NoDup_cons.
  intros [->|Hx]%elem_of_cons [->|Hy]%elem_of_cons E; [done| | |by apply IH];
    destruct Ha; apply list_elem_of_fmap; eauto.
Qed.

(** [iter().find(|x| x.key == k)] finds the element with that key. *)
Lemma find_key_iff {A} (key : A → string) k l x :
  NoDup (key <$> l) → List.find (fun x => key x =? k)%string l = Some x ↔ x ∈ l ∧ key x = k.
Proof.
  intros Hnd. split.
  - intros [Hin%list_elem_of_In ->%String.eqb_eq]%find_some. done.
  - intros [Hin <-]. destruct (List.find _ l) as [y|] eqn:E.
    + apply find_some in E as [Hy%list_elem_of_In Ey%String.eqb_eq]. f_equal. by eapply (fmap_NoDup_inj key).
    + apply list_elem_of_In in Hin. eapply find_none in E; [|exact Hin]. by rewrite String.eqb_refl in E.
Qed.

(** ** Integers *)

Lemma checked_sub_Some a b c : checked_sub a b = Some c ↔ (b <= a)%N ∧ c = (a - b)%N.
Proof. unfold checked_sub. destruct (N.leb_spec b a); split; intros; try lia; naive_solver lia. Qed.

Lemma checked_sub_None a b : checked_sub a b = None ↔ (a < b)%N.
Proof. unfold checked_sub. destruct (N.leb_spec b a); split; intros; (lia || congruence). Qed.

Lemma saturating_add64_small a b :
  (a + b <= u64_max)%N → saturating_add64 a b = (a + b)%N.
Proof. unfold saturating_add64. lia. Qed.

Lemma saturating_add64_le a b : (a <= u64_max)%N → (a <= saturating_add64 a b <= u64_max)%N.
Proof. unfold saturating_add64. lia. Qed.

Lemma saturating_add64_max a b : (saturating_add64 a b <= u64_max)%N.
Proof. unfold saturating_add64. lia. Qed.
#[export] Hint Resolve saturating_add64_max : quest.

(** ** Ordering

    Rust orders [String] by its bytes and tuples lexicographically. A tuple of
    strings is written as the list of its components. *)

Fixpoint lex_compare (xs ys : list string) : comparison :=
  match xs, ys with
  | [], [] => Eq
  | [], _ :: _ => Lt
  | _ :: _, [] => Gt
  | x :: xs', y :: ys' =>
      match String.compare x y with
      | Eq => lex_compare xs' ys'
      | c => c
      end
  end.

Lemma ascii_compare_N (a b : Ascii.ascii) :
  Ascii.compare a b = N.compare (Ascii.N_of_ascii a) (Ascii.N_of_ascii b).
Proof. reflexivity. Qed.

Lemma string_compare_refl s : String.compare s s = Eq.
Proof.
  induction s as [|a s IH]; cbn; [done|].
  by rewrite ascii_compare_N, N.compare_refl.
Qed.

Lemma string_compare_eq s t : String.compare s t = Eq ↔ s = t.
Proof. split; [apply String.compare_eq_iff|]. intros ->. apply string_compare_refl. Qed.

Lemma string_compare_lt_trans s t u :
  String.compare s t = Lt → String.compare t u = Lt → String.compare s u = Lt.
Proof.
  revert t u. induction s as [|a s IH]; intros [|b t] [|c u]; cbn; try done.
  rewrite !ascii_compare_N.
  destruct (N.compare_spec (Ascii.N_of_ascii a) (Ascii.N_of_ascii b)) as [Hab|Hab|Hab];
    destruct (N.compare_spec (Ascii.N_of_ascii b) (Ascii.N_of_ascii c)) as [Hbc|Hbc|Hbc];
    destruct (N.compare_spec (Ascii.N_of_ascii a) (Ascii.N_of_ascii c)) as [Hac|Hac|Hac];
    try done; try (intros; lia). apply IH.
Qed.

Lemma lex_compare_eq xs ys : lex_compare xs ys = Eq ↔ xs = ys.
Proof.
  revert ys. induction xs as [|x xs IH]; intros [|y ys]; cbn; try (split; congruence).
  destruct (String.compare x y) eqn:C.
  - apply string_compare_eq in C as ->. rewrite IH. split; congruence.
  - split; [done|]. intros [= -> ->]. by rewrite string_compare_refl in C.
  - split; [done|]. intros [= -> ->]. by rewrite string_compare_refl in C.
Qed.

Lemma lex_compare_refl xs : lex_compare xs xs = Eq.
Proof. by apply lex_compare_eq. Qed.

Lemma lex_compare_antisym xs ys : lex_compare xs ys = CompOpp (lex_compare ys xs).
Proof.
  revert ys. induction xs as [|x xs IH]; intros [|y ys]; cbn; try done.
  rewrite (String.compare_antisym x y). destruct (String.compare y x); cbn; auto.
Qed.

Lemma lex_compare_lt_trans xs ys zs :
  lex_compare xs ys = Lt → lex_compare ys zs = Lt → lex_compare xs zs = Lt.
Proof.
  revert ys zs. induction xs as [|x xs IH]; intros [|y ys] [|z zs]; cbn; try done.
  destruct (String.compare x y) eqn:Cxy; try done.
  - apply string_compare_eq in Cxy as ->. destruct (String.compare y z); try done. apply IH.
  - intros _. destruct (String.compare y z) eqn:Cyz; try done.
    + apply string_compare_eq in Cyz as ->. by rewrite Cxy.
    + by rewrite (string_compare_lt_trans _ _ _ Cxy Cyz).
Qed.

Definition lex_lt (xs ys : list string) : Prop := lex_compare xs ys = Lt.

#[global] Instance lex_lt_strict : StrictOrder lex_lt.
Proof.
  split.
  - intros xs H. unfold lex_lt in H. by rewrite lex_compare_refl in H.
  - intros xs ys zs. apply lex_compare_lt_trans.
Qed.

Lemma lex_lt_irrefl xs : ¬ lex_lt xs xs.
Proof. unfold lex_lt. by rewrite lex_compare_refl. Qed.

Lemma lex_lt_trans xs ys zs : lex_lt xs ys → lex_lt ys zs → lex_lt xs zs.
Proof. apply lex_compare_lt_trans. Qed.

Lemma lex_compare_gt xs ys : lex_compare xs ys = Gt ↔ lex_lt ys xs.
Proof.
  unfold lex_lt. rewrite (lex_compare_antisym xs ys).
  destruct (lex_compare ys xs); cbn; split; congruence.
Qed.
#[export] Hint Resolve lex_compare_refl lex_lt_trans : quest.

(** ** [slice::sort_by]

    A stable sort: elements that compare equal keep their order. *)

Section sort_by.
Context {A : Type} (cmp : A → A → comparison).

Fixpoint sorted_insert (x : A) (l : list A) : list A :=
  match l with
  | [] => [x]
  | y :: l' =>
      match cmp x y with
      | Gt => y :: sorted_insert x l'
      | _ => x :: l
      end
  end.

Definition sort_by (l : list A) : list A := foldr sorted_insert [] l.

Lemma sorted_insert_perm x l : sorted_insert x l ≡ₚ x :: l.
Proof.
  induction l as [|y l IH]; cbn; [done|].
  destruct (cmp x y); [done..|]. rewrite IH. apply Permutation_swap.
Qed.

Lemma sort_by_perm l : sort_by l ≡ₚ l.
Proof.
  unfold sort_by. induction l as [|x l IH]; cbn; [done|]. by rewrite sorted_insert_perm, IH.
Qed.

(** Sorting a list that is already strictly increasing does not move anything. *)
Lemma sort_by_sorted l :
  StronglySorted (fun x y => cmp x y = Lt) l → sort_by l = l.
Proof.
  unfold sort_by. induction 1 as [|x l Hl IH Hx]; cbn; [done|]. rewrite IH.
  destruct l as [|y l]; [done|]. cbn.
  by rewrite (Forall_inv Hx).
Qed.

End sort_by.
