(* ===== verification/RustStr.v ===== *)
(** * Rust strings and bytes

    A [String] or [&str] is its UTF-8 bytes, a Stdlib [string]; a byte ([u8])
    is an [N]. This file holds the [str], [u8] and slice operations the
    modelled crates use, with the lemmas their clients need. *)

From S2P Require Import Prelude.

Local Open Scope N_scope.

(** ** Bytes *)

Abbreviation byte_of := Ascii.N_of_ascii (only parsing).
#[global] Arguments String.append : simpl nomatch.

Fixpoint str_bytes (s : string) : list N :=
  match s with
  | EmptyString => []
  | String a s' => byte_of a :: str_bytes s'
  end.

Fixpoint str_of_bytes (bs : list N) : string :=
  match bs with
  | [] => EmptyString
  | b :: bs' => String (Ascii.ascii_of_N b) (str_of_bytes bs')
  end.

Definition is_u8 (b : N) : Prop := b < 256.

(** [u8::is_ascii_digit] and the other ASCII classes. *)
Definition is_ascii_digit (b : N) : bool := (48 <=? b) && (b <=? 57).
Definition is_ascii_uppercase (b : N) : bool := (65 <=? b) && (b <=? 90).
Definition is_ascii_lowercase (b : N) : bool := (97 <=? b) && (b <=? 122).
Definition is_ascii_alphanumeric (b : N) : bool :=
  is_ascii_digit b || is_ascii_uppercase b || is_ascii_lowercase b.
Definition is_ascii_control (b : N) : bool := (b <? 32) || (b =? 127).
Definition is_ascii_hexdigit (b : N) : bool :=
  is_ascii_digit b || ((65 <=? b) && (b <=? 70)) || ((97 <=? b) && (b <=? 102)).
(** [byte.is_ascii_digit() || (b'a'..=b'f').contains(&byte)]. *)
Definition is_lower_hex (b : N) : bool := is_ascii_digit b || ((97 <=? b) && (b <=? 102)).
(** [byte.is_ascii_alphanumeric() || matches!(byte, b'.' | b'_' | b'-')]. *)
Definition is_token_byte (b : N) : bool :=
  is_ascii_alphanumeric b || (b =? 46) || (b =? 95) || (b =? 45).

(** ** [str] methods *)

(** [s.len()]: bytes, not characters. *)
Definition str_len (s : string) : N := N.of_nat (String.length s).

Definition str_is_empty (s : string) : bool :=
  match s with EmptyString => true | _ => false end.

(** [s.bytes().all(p)] and [s.bytes().any(p)]. *)
Fixpoint all_bytes (p : N → bool) (s : string) : bool :=
  match s with
  | EmptyString => true
  | String a s' => p (byte_of a) && all_bytes p s'
  end.

Fixpoint any_byte (p : N → bool) (s : string) : bool :=
  match s with
  | EmptyString => false
  | String a s' => p (byte_of a) || any_byte p s'
  end.

(** [s.contains(c)] for an ASCII character [c]. *)
Definition contains_byte (c : N) (s : string) : bool := any_byte (N.eqb c) s.

Definition is_ascii (s : string) : bool := all_bytes (fun b => b <? 128) s.

Definition starts_with (p s : string) : bool := String.prefix p s.

Definition starts_with_byte (c : N) (s : string) : bool :=
  match s with EmptyString => false | String a _ => byte_of a =? c end.

Fixpoint ends_with_byte (c : N) (s : string) : bool :=
  match s with
  | EmptyString => false
  | String a EmptyString => byte_of a =? c
  | String _ s' => ends_with_byte c s'
  end.

Fixpoint strip_prefix (p s : string) : option string :=
  match p, s with
  | EmptyString, _ => Some s
  | String a p', String b s' => if Ascii.eqb a b then strip_prefix p' s' else None
  | String _ _, EmptyString => None
  end.

(** [&s[..n]] and [&s[n..]]. *)
Fixpoint str_take (n : nat) (s : string) : string :=
  match n, s with
  | O, _ | _, EmptyString => EmptyString
  | S n', String a s' => String a (str_take n' s')
  end.

Fixpoint str_drop (n : nat) (s : string) : string :=
  match n, s with
  | O, _ => s
  | _, EmptyString => EmptyString
  | S n', String _ s' => str_drop n' s'
  end.

(** [s.find(p)]: byte index of the first character accepted by [p]. *)
Fixpoint find_byte (p : N → bool) (s : string) : option nat :=
  match s with
  | EmptyString => None
  | String a s' => if p (byte_of a) then Some O else S <$> find_byte p s'
  end.

(** [s.split(c)]: never empty. *)
Fixpoint split_on (c : N) (s : string) : list string :=
  match s with
  | EmptyString => [EmptyString]
  | String a s' =>
      if byte_of a =? c then EmptyString :: split_on c s'
      else match split_on c s' with
           | [] => [String a EmptyString]
           | w :: ws => String a w :: ws
           end
  end.

(** [s.rsplit_once(c)]: split at the last [c]. *)
Fixpoint rsplit_once (c : N) (s : string) : option (string * string) :=
  match s with
  | EmptyString => None
  | String a s' =>
      match rsplit_once c s' with
      | Some (l, r) => Some (String a l, r)
      | None => if byte_of a =? c then Some (EmptyString, s') else None
      end
  end.

(** [s.contains(p)] for a string pattern. *)
Fixpoint contains_str (p s : string) : bool :=
  starts_with p s ||
  match s with EmptyString => false | String _ s' => contains_str p s' end.

Definition lower_byte (b : N) : N := if is_ascii_uppercase b then b + 32 else b.

Fixpoint to_ascii_lowercase (s : string) : string :=
  match s with
  | EmptyString => EmptyString
  | String a s' => String (Ascii.ascii_of_N (lower_byte (byte_of a))) (to_ascii_lowercase s')
  end.

(** ** [str::trim]

    Unicode [White_Space] in UTF-8: one, two or three bytes per character. *)

Definition ws1 (a : N) : bool := ((9 <=? a) && (a <=? 13)) || (a =? 32).
Definition ws2 (a b : N) : bool := (a =? 194) && ((b =? 133) || (b =? 160)).
Definition ws3 (a b c : N) : bool :=
  ((a =? 225) && (b =? 154) && (c =? 128))
  || ((a =? 226) && (b =? 128) && (((128 <=? c) && (c <=? 138)) || (c =? 168) || (c =? 169) || (c =? 175)))
  || ((a =? 226) && (b =? 129) && (c =? 159))
  || ((a =? 227) && (b =? 128) && (c =? 128)).

Fixpoint trim_front (l : list N) : list N :=
  match l with
  | [] => []
  | a :: l1 =>
      if ws1 a then trim_front l1
      else match l1 with
           | [] => l
           | b :: l2 =>
               if ws2 a b then trim_front l2
               else match l2 with
                    | [] => l
                    | c :: l3 => if ws3 a b c then trim_front l3 else l
                    end
           end
  end.

(** The same on reversed bytes: the last byte of a character comes first. *)
Fixpoint trim_back (l : list N) : list N :=
  match l with
  | [] => []
  | c :: l1 =>
      if ws1 c then trim_back l1
      else match l1 with
           | [] => l
           | b :: l2 =>
               if ws2 b c then trim_back l2
               else match l2 with
                    | [] => l
                    | a :: l3 => if ws3 a b c then trim_back l3 else l
                    end
           end
  end.

Definition trim (s : string) : string :=
  str_of_bytes (rev (trim_back (rev (trim_front (str_bytes s))))).

(** [s.trim().is_empty()]. *)
Definition is_blank (s : string) : bool := str_is_empty (trim s).

(** ** Decimal text of an unsigned integer *)

(** The digits of [n], most significant first; [fuel] bounds their number and
    20 is enough for a [u64]. *)
Fixpoint decimal_bytes (fuel : nat) (n : N) : list N :=
  match fuel with
  | O => []
  | S f => if n <? 10 then [48 + n] else decimal_bytes f (n / 10) ++ [48 + n mod 10]
  end.

(** [format!("{}", n)] for an unsigned integer of at most 64 bits. *)
Definition fmt_decimal (n : N) : string := str_of_bytes (decimal_bytes 20 n).

(** ** Formatting *)

Definition lower_hex_digit (n : N) : string :=
  String (Ascii.ascii_of_N (if n <? 10 then 48 + n else 87 + n)) EmptyString.

(** [format!("{:x}", digest)] of a byte array. *)
Fixpoint hex_of_bytes (bs : list N) : string :=
  match bs with
  | [] => EmptyString
  | b :: bs' => (lower_hex_digit (b / 16) ++ lower_hex_digit (b mod 16) ++ hex_of_bytes bs')%string
  end.

(** ** Lemmas *)

Lemma byte_of_ascii_u8 a : is_u8 (byte_of a).
Proof. apply Ascii.N_ascii_bounded. Qed.

Lemma byte_of_ascii_of_N n : is_u8 n → byte_of (Ascii.ascii_of_N n) = n.
Proof. apply Ascii.N_ascii_embedding. Qed.

Lemma byte_of_inj a b : byte_of a = byte_of b → a = b.
Proof. intros H. rewrite <- (Ascii.ascii_N_embedding a), <- (Ascii.ascii_N_embedding b). by f_equal. Qed.

#[export] Hint Resolve byte_of_ascii_u8 : quest.

Lemma str_is_empty_false s : str_is_empty s = false ↔ s ≠ EmptyString.
Proof. by destruct s. Qed.

Lemma str_app_nil_r s : (s ++ "")%string = s.
Proof. induction s as [|a s IH]; cbn; congruence. Qed.

Lemma str_app_assoc s t u : ((s ++ t) ++ u)%string = (s ++ t ++ u)%string.
Proof. induction s as [|a s IH]; cbn; congruence. Qed.

Lemma str_length_app s t : String.length (s ++ t) = (String.length s + String.length t)%nat.
Proof. induction s as [|a s IH]; cbn; congruence. Qed.

Lemma str_len_app s t : str_len (s ++ t) = str_len s + str_len t.
Proof. unfold str_len. rewrite str_length_app. lia. Qed.

Lemma str_app_inj_l s t u : (s ++ t)%string = (s ++ u)%string → t = u.
Proof. induction s as [|a s IH]; cbn; [done|]. intros [=]. auto. Qed.

Lemma str_bytes_u8 s : Forall is_u8 (str_bytes s).
Proof. induction s; cbn; constructor; auto using byte_of_ascii_u8. Qed.

Lemma str_of_str_bytes s : str_of_bytes (str_bytes s) = s.
Proof. induction s as [|a s IH]; cbn; [done|]. by rewrite IH, Ascii.ascii_N_embedding. Qed.

Lemma str_bytes_of_bytes bs : Forall is_u8 bs → str_bytes (str_of_bytes bs) = bs.
Proof.
  induction 1 as [|b bs Hb _ IH]; cbn; [done|]. by rewrite IH, byte_of_ascii_of_N.
Qed.

Lemma str_bytes_inj s t : str_bytes s = str_bytes t → s = t.
Proof. intros H. by rewrite <- (str_of_str_bytes s), H, str_of_str_bytes. Qed.

Lemma str_bytes_app s t : str_bytes (s ++ t) = str_bytes s ++ str_bytes t.
Proof. induction s as [|a s IH]; cbn; [done|]. by rewrite IH. Qed.

Lemma length_str_bytes s : length (str_bytes s) = String.length s.
Proof. induction s; cbn; congruence. Qed.

Lemma all_bytes_forallb p s : all_bytes p s = forallb p (str_bytes s).
Proof. induction s as [|a s IH]; cbn; [done|]. by rewrite IH. Qed.

Lemma all_bytes_app p s t : all_bytes p (s ++ t) = all_bytes p s && all_bytes p t.
Proof. induction s as [|a s IH]; cbn; [done|]. by rewrite IH, andb_assoc. Qed.

Lemma any_byte_app p s t : any_byte p (s ++ t) = any_byte p s || any_byte p t.
Proof. induction s as [|a s IH]; cbn; [done|]. by rewrite IH, orb_assoc. Qed.

Lemma all_bytes_impl (p q : N → bool) s :
  (∀ b, p b = true → q b = true) → all_bytes p s = true → all_bytes q s = true.
Proof.
  intros Hpq. induction s as [|a s IH]; cbn; [done|].
  intros [H1 H2]%andb_true_iff. by rewrite (Hpq _ H1), IH.
Qed.

Lemma any_byte_false p s : any_byte p s = false ↔ all_bytes (fun b => negb (p b)) s = true.
Proof.
  induction s as [|a s IH]; cbn; [done|].
  rewrite orb_false_iff, andb_true_iff, IH, negb_true_iff. done.
Qed.

Lemma all_not_any (p q : N → bool) s :
  (∀ b, p b = true → q b = false) → all_bytes p s = true → any_byte q s = false.
Proof.
  intros Hpq H. apply any_byte_false. revert H. apply all_bytes_impl.
  intros b Hb. by rewrite (Hpq b Hb).
Qed.

Lemma strip_prefix_Some p s r : strip_prefix p s = Some r ↔ s = (p ++ r)%string.
Proof.
  revert s. induction p as [|a p IH]; intros s; cbn.
  - split; congruence.
  - destruct s as [|b s]; [split; congruence|].
    destruct (Ascii.eqb_spec a b) as [->|Hne].
    + rewrite IH. split; [by intros ->|by intros [=]].
    + split; [done|]. intros [=]; congruence.
Qed.

Lemma starts_with_strip p s : starts_with p s = true ↔ ∃ r, s = (p ++ r)%string.
Proof.
  unfold starts_with. revert s. induction p as [|a p IH]; intros s; cbn.
  - split; [eauto|]. by destruct s.
  - destruct s as [|b s]; [split; [done|by intros [r Hr]]|].
    cbn. destruct (Ascii.ascii_dec a b) as [->|Hne].
    + rewrite IH. split; intros [r Hr]; exists r; congruence.
    + split; [done|]. intros [r Hr]. congruence.
Qed.

Lemma take_drop_str n s : (str_take n s ++ str_drop n s)%string = s.
Proof. revert s. induction n as [|n IH]; intros [|a s]; cbn; try done. by rewrite IH. Qed.

Lemma str_take_ge n s : (String.length s <= n)%nat → str_take n s = s.
Proof.
  revert s. induction n as [|n IH]; intros [|a s]; cbn; try done; [lia|].
  intros. rewrite IH; [done|lia].
Qed.

Lemma str_take_app n s t : n = String.length s → str_take n (s ++ t) = s.
Proof.
  intros ->. induction s as [|a s IH]; cbn; [by destruct t|]. by rewrite IH.
Qed.

Lemma str_drop_app n s t : n = String.length s → str_drop n (s ++ t) = t.
Proof. intros ->. induction s as [|a s IH]; cbn; [by destruct t|]. by rewrite IH. Qed.

(** [find] splits the string at the first accepted byte. *)
Lemma find_byte_Some p s n :
  find_byte p s = Some n →
  any_byte p (str_take n s) = false ∧
  (∃ a r, str_drop n s = String a r ∧ p (byte_of a) = true).
Proof.
  revert n. induction s as [|a s IH]; cbn; [done|]. intros n.
  destruct (p (byte_of a)) eqn:Ha.
  - intros [= <-]. cbn. eauto.
  - destruct (find_byte p s) as [m|] eqn:Hm; cbn; [|done].
    intros [= <-]. cbn. rewrite Ha. cbn. by apply IH.
Qed.

Lemma find_byte_None p s : find_byte p s = None ↔ any_byte p s = false.
Proof.
  induction s as [|a s IH]; cbn; [done|].
  destruct (p (byte_of a)); cbn; [done|]. rewrite <- IH.
  destruct (find_byte p s); cbn; done.
Qed.

Lemma find_byte_app_l p s t : any_byte p s = false →
  find_byte p (s ++ t) = (Nat.add (String.length s)) <$> find_byte p t.
Proof.
  induction s as [|a s IH]; cbn.
  - intros _. by destruct (find_byte p t).
  - intros [Ha Hs]%orb_false_iff. rewrite Ha, (IH Hs). by destruct (find_byte p t).
Qed.

Lemma rsplit_once_None c s : rsplit_once c s = None ↔ contains_byte c s = false.
Proof.
  unfold contains_byte. induction s as [|a s IH]; cbn; [done|].
  rewrite orb_false_iff, (N.eqb_sym c). destruct (rsplit_once c s) as [[l r]|].
  - split; [done|]. intros [_ Hs]. by apply IH in Hs.
  - destruct (byte_of a =? c).
    + split; [done|]. by intros [? _].
    + split; [|done]. intros _. split; [done|]. by apply IH.
Qed.

Lemma lower_byte_id b : is_ascii_uppercase b = false → lower_byte b = b.
Proof. unfold lower_byte. by intros ->. Qed.

Lemma to_ascii_lowercase_id s :
  to_ascii_lowercase s = s ↔ any_byte is_ascii_uppercase s = false.
Proof.
  induction s as [|a s IH]; cbn; [done|]. rewrite orb_false_iff, <- IH. split.
  - intros [= Ha Hs]. split; [|done].
    destruct (is_ascii_uppercase (byte_of a)) eqn:U; [|done].
    apply (f_equal byte_of) in Ha. unfold lower_byte in Ha. rewrite U in Ha.
    unfold is_ascii_uppercase in U. apply andb_true_iff in U as [U1 U2].
    apply N.leb_le in U1, U2. rewrite byte_of_ascii_of_N in Ha by (unfold is_u8; lia). lia.
  - intros [Ha Hs]. by rewrite lower_byte_id, Ascii.ascii_N_embedding, Hs.
Qed.

Lemma lower_hex_digit_ok n : n < 16 →
  String.length (lower_hex_digit n) = 1%nat ∧ all_bytes is_lower_hex (lower_hex_digit n) = true.
Proof.
  intros Hn. split; [done|]. unfold lower_hex_digit. cbn [all_bytes].
  rewrite andb_true_r. unfold is_lower_hex, is_ascii_digit.
  destruct (N.ltb_spec n 10); rewrite byte_of_ascii_of_N by (unfold is_u8; lia); bool_lia.
Qed.

Lemma hex_of_bytes_ok bs : Forall is_u8 bs →
  String.length (hex_of_bytes bs) = (2 * length bs)%nat ∧
  all_bytes is_lower_hex (hex_of_bytes bs) = true.
Proof.
  induction 1 as [|b bs Hb _ [IHl IHa]]; cbn [hex_of_bytes length]; [done|].
  unfold is_u8 in Hb.
  destruct (lower_hex_digit_ok (b / 16)) as [L1 A1].
  { apply N.Div0.div_lt_upper_bound. lia. }
  destruct (lower_hex_digit_ok (b mod 16)) as [L2 A2].
  { apply N.mod_lt. lia. }
  rewrite !str_length_app, !all_bytes_app, L1, L2, IHl, A1, A2, IHa. split; [lia|done].
Qed.

(** ** Text that is not blank *)

(** A graphic character does not belong to any white-space character. *)
Lemma graphic_not_ws d : 33 <= d < 127 →
  ws1 d = false ∧ (∀ b, ws2 d b = false) ∧ (∀ b c, ws3 d b c = false).
Proof.
  intros [H1 H2].
  assert ((d =? 194) = false ∧ (d =? 225) = false ∧ (d =? 226) = false ∧ (d =? 227) = false)
    as (E1 & E2 & E3 & E4) by (rewrite !N.eqb_neq; lia).
  split; [unfold ws1; bool_lia|]. split; intros; unfold ws2, ws3; by rewrite ?E1, ?E2, ?E3, ?E4.
Qed.

Lemma trim_back_graphic n l d : (length l <= n)%nat → 33 <= d < 127 → trim_back (l ++ [d]) ≠ [].
Proof.
  intros Hn Hd. destruct (graphic_not_ws d Hd) as (W1 & W2 & W3).
  revert l Hn. induction n as [|n IH]; intros [|c l1] Hn; cbn in Hn; try lia.
  - cbn. by rewrite W1.
  - cbn. by rewrite W1.
  - cbn. destruct (ws1 c); [apply IH; lia|].
    destruct l1 as [|b l2]; cbn; [by rewrite W2|].
    destruct (ws2 b c); [apply IH; cbn in Hn; lia|].
    destruct l2 as [|a l3]; cbn; [by rewrite W3|].
    destruct (ws3 a b c); [apply IH; cbn in Hn; lia|done].
Qed.

Lemma graphic_first_nonblank x s : 33 <= byte_of x < 127 → is_blank (String x s) = false.
Proof.
  intros Hd. destruct (graphic_not_ws _ Hd) as (W1 & W2 & W3). unfold is_blank, trim. cbn [str_bytes].
  assert (trim_front (byte_of x :: str_bytes s) = byte_of x :: str_bytes s) as ->.
  { cbn. rewrite W1. destruct (str_bytes s) as [|b [|c l]]; [done|..]; rewrite W2; [done|]. by rewrite W3. }
  cbn [rev]. pose proof (trim_back_graphic _ (rev (str_bytes s)) _ (le_n _) Hd) as H.
  destruct (trim_back (rev (str_bytes s) ++ [byte_of x])) as [|y l]; [done|].
  cbn [rev]. destruct (rev l); done.
Qed.

Lemma trim_front_graphic n l d : (length l <= n)%nat → 33 <= d < 127 → ∃ l', trim_front (l ++ [d]) = l' ++ [d].
Proof.
  intros Hn Hd. destruct (graphic_not_ws d Hd) as (W1 & _).
  assert (∀ b, ws2 b d = false) as W2.
  { intros b. unfold ws2. destruct (N.eqb_spec d 133), (N.eqb_spec d 160); lia. }
  assert (∀ a b, ws3 a b d = false) as W3.
  { intros a b. unfold ws3. destruct (N.eqb_spec d 128), (N.leb_spec 128 d), (N.eqb_spec d 168), (N.eqb_spec d 169),
      (N.eqb_spec d 175), (N.eqb_spec d 159); lia. }
  revert l Hn. induction n as [|n IH]; intros [|a l1] Hn; cbn in Hn; try lia.
  1, 2: exists []; cbn; by rewrite W1.
  cbn. destruct (ws1 a); [apply IH; lia|].
  destruct l1 as [|b l2]; cbn; [rewrite W2; by exists [a]|].
  destruct (ws2 a b); [apply IH; cbn in Hn; lia|].
  destruct l2 as [|c l3]; cbn; [rewrite W3; by exists [a; b]|].
  destruct (ws3 a b c); [apply IH; cbn in Hn; lia|]. by exists (a :: b :: c :: l3).
Qed.

Lemma graphic_last_nonblank s x d : last (str_bytes x) = Some d → 33 <= d < 127 → is_blank (s ++ x) = false.
Proof.
  intros [l Hl]%last_Some Hd. unfold is_blank, trim. rewrite str_bytes_app, Hl, app_assoc.
  destruct (trim_front_graphic _ (str_bytes s ++ l) d (le_n _) Hd) as [l' ->]. rewrite rev_unit.
  assert (trim_back (d :: rev l') ≠ []) as H.
  { destruct (graphic_not_ws d Hd) as (W1 & _). cbn. rewrite W1. destruct (rev l') as [|b [|c l2]]; [done|..].
    - destruct (ws2 b d) eqn:E; [|done]. exfalso. revert E. unfold ws2. rewrite andb_true_iff, orb_true_iff, !N.eqb_eq. lia.
    - destruct (ws2 b d) eqn:E; [exfalso; revert E; unfold ws2; rewrite andb_true_iff, orb_true_iff, !N.eqb_eq; lia|].
      destruct (ws3 c b d) eqn:E'; [|done]. exfalso. revert E'. unfold ws3. rewrite !orb_true_iff, !andb_true_iff, !orb_true_iff, !andb_true_iff, !N.leb_le, !N.eqb_eq. lia. }
  destruct (trim_back (d :: rev l')) as [|y l0]; [done|]. cbn [rev]. by destruct (rev l0).
Qed.

(** Texts with different last bytes differ. *)
Lemma str_app_last s t x y d e :
  last (str_bytes x) = Some d → last (str_bytes y) = Some e → (s ++ x)%string = (t ++ y)%string → d = e.
Proof.
  intros [l Hl]%last_Some [l' Hl']%last_Some H. apply (f_equal str_bytes) in H.
  rewrite !str_bytes_app, Hl, Hl', !app_assoc in H. by apply app_inj_tail in H as [_ ->].
Qed.

Lemma digit_graphic d : is_ascii_digit d = true → 33 <= d < 127.
Proof. unfold is_ascii_digit. rewrite andb_true_iff, !N.leb_le. lia. Qed.
