(* ===== verification/OrdMap.v ===== *)
(** * [BTreeMap<K, V>] and [BTreeSet<K>]

    Ordered maps over any key type whose [Ord] is total: a list of entries with
    strictly increasing keys, which is the order in which the code iterates over
    them. A set maps its elements to [tt]. *)

From S2P Require Import Prelude.
From stdpp Require Import sorting.
From Stdlib Require Import Sorting.Sorted.

(** What Rust requires of [Ord]. *)
Class TotalOrd {K : Type} (cmp : K → K → comparison) := {
  cmp_eq a b : cmp a b = Eq ↔ a = b;
  cmp_antisym a b : cmp a b = CompOpp (cmp b a);
  cmp_lt_trans a b c : cmp a b = Lt → cmp b c = Lt → cmp a c = Lt;
}.

#[global] Instance string_total_ord : TotalOrd String.compare.
Proof.
  split; [apply string_compare_eq|apply String.compare_antisym|apply string_compare_lt_trans].
Qed.

Section OrdMap.
Context {K V : Type} (cmp : K → K → comparison) {TO : TotalOrd cmp}.

Lemma cmp_refl k : cmp k k = Eq.
Proof. by apply cmp_eq. Qed.

Lemma cmp_gt a b : cmp a b = Gt → cmp b a = Lt.
Proof. rewrite cmp_antisym. by destruct (cmp b a). Qed.

(** [insert] without its result. *)
Fixpoint om_insert (k : K) (v : V) (m : list (K * V)) : list (K * V) :=
  match m with
  | [] => [(k, v)]
  | (k', v') :: m' =>
      match cmp k k' with
      | Lt => (k, v) :: m
      | Eq => (k, v) :: m'
      | Gt => (k', v') :: om_insert k v m'
      end
  end.

Fixpoint om_get (k : K) (m : list (K * V)) : option V :=
  match m with
  | [] => None
  | (k', v) :: m' => match cmp k k' with Eq => Some v | _ => om_get k m' end
  end.

(** [into_iter().collect::<BTreeMap<_, _>>()]. *)
Definition om_collect (l : list (K * V)) : list (K * V) :=
  fold_left (fun m e => om_insert e.1 e.2 m) l [].

Definition keys_sorted (l : list K) : Prop := StronglySorted (fun a b => cmp a b = Lt) l.
Definition om_sorted (m : list (K * V)) : Prop := keys_sorted m.*1.

Lemma om_get_insert k k' v m :
  om_get k (om_insert k' v m) = match cmp k k' with Eq => Some v | _ => om_get k m end.
Proof.
  induction m as [|[k0 v0] m IH]; cbn; [done|].
  destruct (cmp k' k0) eqn:C; cbn; [|done|].
  - apply cmp_eq in C as ->. by destruct (cmp k k0).
  - rewrite IH. destruct (cmp k k0) eqn:C'; [|done|done].
    apply cmp_eq in C' as ->. apply cmp_gt in C. by rewrite C.
Qed.

Lemma om_insert_keys k v m x : x ∈ (om_insert k v m).*1 ↔ x = k ∨ x ∈ m.*1.
Proof.
  induction m as [|[k0 v0] m IH]; cbn; [set_solver|].
  destruct (cmp k k0) eqn:C; cbn; rewrite ?fmap_cons; cbn; [|set_solver|].
  - apply cmp_eq in C as ->. set_solver.
  - rewrite !elem_of_cons, IH. naive_solver.
Qed.

Lemma om_insert_sorted k v m : om_sorted m → om_sorted (om_insert k v m).
Proof.
  unfold om_sorted, keys_sorted. induction m as [|[k0 v0] m IH]; cbn; intros Hs.
  { repeat constructor. }
  apply StronglySorted_inv in Hs as [Hs Hk]. destruct (cmp k k0) eqn:C; cbn.
  - apply cmp_eq in C as ->. by constructor.
  - constructor; [by constructor|]. constructor; [done|].
    eapply Forall_impl; [exact Hk|]. intros x Hx. by eapply cmp_lt_trans.
  - constructor; [by apply IH|]. apply Forall_forall. intros x Hx. apply om_insert_keys in Hx as [->|Hx].
    + by apply cmp_gt.
    + by eapply Forall_forall in Hk.
Qed.

Lemma om_get_None k m : om_get k m = None ↔ k ∉ m.*1.
Proof.
  induction m as [|[k0 v0] m IH]; cbn; [set_solver|].
  rewrite not_elem_of_cons, <- IH. destruct (cmp k k0) eqn:C.
  - apply cmp_eq in C. naive_solver.
  - split; [|naive_solver]. intros H. split; [|done]. intros ->. by rewrite cmp_refl in C.
  - split; [|naive_solver]. intros H. split; [|done]. intros ->. by rewrite cmp_refl in C.
Qed.

Lemma om_get_key k v m : om_get k m = Some v → k ∈ m.*1.
Proof.
  induction m as [|[k0 v0] m IH]; cbn; [done|]. rewrite elem_of_cons.
  destruct (cmp k k0) eqn:C; [apply cmp_eq in C; by left|intros H; right; auto..].
Qed.

Lemma om_get_Some k v m : om_sorted m → om_get k m = Some v ↔ (k, v) ∈ m.
Proof.
  unfold om_sorted, keys_sorted. induction m as [|[k0 v0] m IH]; cbn; intros Hs; [set_solver|].
  apply StronglySorted_inv in Hs as [Hs Hk]. specialize (IH Hs). rewrite elem_of_cons.
  rewrite Forall_forall in Hk.
  destruct (cmp k k0) eqn:C; [apply cmp_eq in C as ->|rewrite IH|rewrite IH].
  - split; [naive_solver|]. intros [[=]|H]; [by subst|].
    assert (k0 ∈ m.*1) as H0 by (apply list_elem_of_fmap; by exists (k0, v)).
    apply Hk in H0. by rewrite cmp_refl in H0.
  - split; [by right|]. intros [[= -> ->]|]; [by rewrite cmp_refl in C|done].
  - split; [by right|]. intros [[= -> ->]|]; [by rewrite cmp_refl in C|done].
Qed.

(** A sorted map is determined by its lookups. *)
Lemma om_ext m m' : om_sorted m → om_sorted m' → (∀ k, om_get k m = om_get k m') → m = m'.
Proof.
  unfold om_sorted, keys_sorted.
  revert m'. induction m as [|[k v] m IH]; intros [|[k' v'] m'] Hs Hs' He; [done| | |].
  - specialize (He k'). cbn in He. by rewrite cmp_refl in He.
  - specialize (He k). cbn in He. by rewrite cmp_refl in He.
  - cbn in Hs, Hs'. apply StronglySorted_inv in Hs as [Hs Hk], Hs' as [Hs' Hk'].
    rewrite Forall_forall in Hk, Hk'.
    assert (k = k') as ->.
    { pose proof (He k) as H1. pose proof (He k') as H2. cbn in H1, H2. rewrite cmp_refl in H1, H2.
      destruct (cmp k k') eqn:C; [by apply cmp_eq| |].
      - symmetry in H1. apply om_get_key, Hk' in H1 as Hn. pose proof (cmp_lt_trans _ _ _ C Hn) as Hx. by rewrite cmp_refl in Hx.
      - apply cmp_gt in C. rewrite C in H2.
        apply om_get_key, Hk in H2 as Hn. pose proof (cmp_lt_trans _ _ _ C Hn) as Hx. by rewrite cmp_refl in Hx. }
    assert (v = v') as ->. { specialize (He k'). cbn in He. rewrite cmp_refl in He. congruence. }
    f_equal. apply IH; [done|done|]. intros k. specialize (He k). cbn in He.
    destruct (cmp k k') eqn:C; [|done|done]. apply cmp_eq in C as ->.
    assert (om_get k' m = None) as ->. { apply om_get_None. intros H. apply Hk in H. by rewrite cmp_refl in H. }
    symmetry. apply om_get_None. intros H. apply Hk' in H. by rewrite cmp_refl in H.
Qed.

Lemma om_fold_sorted l m : om_sorted m → om_sorted (fold_left (fun m e => om_insert e.1 e.2 m) l m).
Proof. revert m. induction l as [|e l IH]; cbn; intros m H; [done|]. by apply IH, om_insert_sorted. Qed.

Lemma om_collect_sorted l : om_sorted (om_collect l).
Proof. apply om_fold_sorted. constructor. Qed.

Lemma om_insert_last k v m : keys_sorted (m.*1 ++ [k]) → om_insert k v m = m ++ [(k, v)].
Proof.
  unfold keys_sorted. induction m as [|[k0 v0] m IH]; cbn; intros Hs; [done|].
  apply StronglySorted_inv in Hs as [Hs Hk]. rewrite (IH Hs).
  assert (cmp k0 k = Lt) as C by (rewrite Forall_forall in Hk; apply Hk; set_solver).
  by rewrite (cmp_antisym k k0), C.
Qed.

(** Entries in key order are collected as they are. *)
Lemma om_collect_id l : om_sorted l → om_collect l = l.
Proof.
  unfold om_collect. enough (∀ m, om_sorted (m ++ l) → fold_left (fun m e => om_insert e.1 e.2 m) l m = m ++ l) as H
    by (intros Hs; by apply (H [])).
  induction l as [|[k v] l IH]; cbn; intros m Hs; [by rewrite app_nil_r|].
  replace (m ++ (k, v) :: l) with ((m ++ [(k, v)]) ++ l) in Hs |- * by by rewrite <- app_assoc.
  rewrite om_insert_last; [by apply IH|].
  unfold om_sorted, keys_sorted in *. rewrite !fmap_app in Hs. by apply StronglySorted_app_1_l in Hs.
Qed.
End OrdMap.

(** ** Maps with text keys

    [BTreeMap<&str, T>] as the validators use it: [get] refines lookup in a finite
    map. *)

Section BTree.
Context {A : Type}.

Definition btree : Type := list (string * A).

(** [insert] without its result. *)
Fixpoint bt_insert (k : string) (v : A) (m : btree) : btree :=
  match m with
  | [] => [(k, v)]
  | (k', v') :: m' =>
      match String.compare k k' with
      | Lt => (k, v) :: m
      | Eq => (k, v) :: m'
      | Gt => (k', v') :: bt_insert k v m'
      end
  end.

Fixpoint bt_get (k : string) (m : btree) : option A :=
  match m with
  | [] => None
  | (k', v') :: m' => if String.eqb k k' then Some v' else bt_get k m'
  end.

Definition bt_contains (k : string) (m : btree) : bool :=
  match bt_get k m with Some _ => true | None => false end.

Definition bt_values (m : btree) : list A := snd <$> m.

Definition bt_sorted (m : btree) : Prop :=
  StronglySorted (fun x y => String.compare x.1 y.1 = Lt) m.

(** [iter().map(|x| (key(x), x)).collect::<BTreeMap<_, _>>()]: later entries win. *)
Definition bt_collect (key : A → string) (l : list A) : btree :=
  fold_left (fun m x => bt_insert (key x) x m) l [].

Lemma bt_get_insert k k' v m :
  bt_get k (bt_insert k' v m) = if String.eqb k k' then Some v else bt_get k m.
Proof.
  induction m as [|[k0 v0] m IH]; cbn; [done|].
  destruct (String.compare k' k0) eqn:C; cbn.
  - apply string_compare_eq in C as ->. by destruct (String.eqb k k0).
  - done.
  - destruct (String.eqb_spec k k0) as [->|E]; [|done].
    destruct (String.eqb_spec k0 k') as [->|]; [|done]. by rewrite string_compare_refl in C.
Qed.

Lemma bt_insert_keys k v m x : x ∈ bt_insert k v m → x = (k, v) ∨ x ∈ m.
Proof.
  induction m as [|[k0 v0] m IH]; cbn; [set_solver|].
  destruct (String.compare k k0); set_solver.
Qed.

Lemma bt_insert_sorted k v m : bt_sorted m → bt_sorted (bt_insert k v m).
Proof.
  unfold bt_sorted. induction 1 as [|[k0 v0] m Hm IH Hx]; cbn; [repeat constructor|].
  destruct (String.compare k k0) eqn:C.
  - apply string_compare_eq in C as ->. by constructor.
  - constructor; [by constructor|]. constructor; [done|]. cbn in *.
    eapply Forall_impl; [exact Hx|]. cbn. intros y Hy. by eapply string_compare_lt_trans.
  - constructor; [done|]. apply Forall_forall. intros y Hy. cbn.
    apply bt_insert_keys in Hy as [->|Hy]; cbn.
    + rewrite String.compare_antisym, C. done.
    + rewrite Forall_forall in Hx. by apply Hx.
Qed.

Lemma bt_get_elem k v m : bt_get k m = Some v → (k, v) ∈ m.
Proof.
  induction m as [|[k0 v0] m IH]; cbn; [done|].
  destruct (String.eqb_spec k k0) as [->|]; [intros [= ->]; set_solver|set_solver].
Qed.

Lemma bt_elem_get k v m : bt_sorted m → (k, v) ∈ m → bt_get k m = Some v.
Proof.
  unfold bt_sorted. induction 1 as [|[k0 v0] m Hm IH Hx]; cbn; [set_solver|].
  rewrite elem_of_cons. intros [[= <- <-]|Hin]; [by rewrite String.eqb_refl|].
  destruct (String.eqb_spec k k0) as [->|]; [|auto].
  rewrite Forall_forall in Hx. specialize (Hx _ Hin). cbn in Hx. by rewrite string_compare_refl in Hx.
Qed.

(** ** Collecting a list *)

Section collect.
Context (key : A → string).

Lemma bt_collect_sorted_from l m : bt_sorted m →
  bt_sorted (fold_left (fun m x => bt_insert (key x) x m) l m).
Proof. revert m. induction l; cbn; auto using bt_insert_sorted. Qed.

Lemma bt_collect_sorted l : bt_sorted (bt_collect key l).
Proof. apply bt_collect_sorted_from. constructor. Qed.

Lemma bt_collect_get_from l m k : NoDup (key <$> l) →
  bt_get k (fold_left (fun m x => bt_insert (key x) x m) l m) =
  match List.find (fun x => String.eqb k (key x)) l with Some x => Some x | None => bt_get k m end.
Proof.
  revert m. induction l as [|y l IH]; intros m Hd; cbn; [done|].
  apply NoDup_cons in Hd as [Hy Hd]. rewrite IH, bt_get_insert by done.
  destruct (String.eqb_spec k (key y)) as [->|]; [|done].
  destruct (List.find _ l) as [x|] eqn:F; [|done].
  apply List.find_some in F as [F1 F2]. apply String.eqb_eq in F2.
  destruct Hy. rewrite F2. apply list_elem_of_fmap. exists x. split; [done|]. by apply list_elem_of_In.
Qed.

(** With distinct keys, [get] finds exactly the elements of the list. *)
Lemma bt_collect_get l k x : NoDup (key <$> l) →
  bt_get k (bt_collect key l) = Some x ↔ x ∈ l ∧ key x = k.
Proof.
  intros Hd. unfold bt_collect. rewrite bt_collect_get_from by done. cbn. split.
  - destruct (List.find _ l) as [y|] eqn:F; [|done]. intros [= ->].
    apply List.find_some in F as [F1 F2]. apply String.eqb_eq in F2.
    split; [by apply list_elem_of_In|done].
  - intros [Hx <-]. destruct (List.find _ l) as [y|] eqn:F.
    + apply List.find_some in F as [F1 F2]. apply String.eqb_eq in F2. f_equal.
      apply list_elem_of_In in F1.
      apply list_elem_of_lookup in F1 as [i Hi]. apply list_elem_of_lookup in Hx as [j Hj].
      assert (i = j) as ->; [|congruence].
      apply (NoDup_lookup (key <$> l) i j (key x)); [done|..]; rewrite list_lookup_fmap, ?Hi, ?Hj; cbn; congruence.
    + apply list_elem_of_In in Hx. pose proof (List.find_none _ _ F x Hx) as Hf. cbn in Hf.
      by rewrite String.eqb_refl in Hf.
Qed.

Lemma bt_collect_contains l k : NoDup (key <$> l) →
  bt_contains k (bt_collect key l) = true ↔ k ∈ key <$> l.
Proof.
  intros Hd. unfold bt_contains. rewrite list_elem_of_fmap.
  destruct (bt_get k (bt_collect key l)) as [x|] eqn:E.
  - apply bt_collect_get in E as [Hx <-]; [|done]. split; eauto.
  - split; [done|]. intros (x & -> & Hx).
    assert (bt_get (key x) (bt_collect key l) = Some x) as E' by (by apply bt_collect_get).
    congruence.
Qed.

Lemma bt_collect_values l x : NoDup (key <$> l) → x ∈ bt_values (bt_collect key l) ↔ x ∈ l.
Proof.
  intros Hd. unfold bt_values. rewrite list_elem_of_fmap. split.
  - intros ([k y] & -> & Hin). apply bt_elem_get in Hin; [|apply bt_collect_sorted].
    by apply bt_collect_get in Hin as [? _].
  - intros Hx. exists (key x, x). split; [done|]. apply bt_get_elem. by apply bt_collect_get.
Qed.

End collect.
End BTree.

Arguments btree A : clear implicits.
