(* ===== verification/StateResult.v ===== *)
(** * [&mut self] methods that return a [Result]

    A method is a function from the object to the object and its result: an
    error keeps every assignment made before it. [x ← m; k] is [let x = m?; k]. *)

From S2P Require Import Prelude.

Definition state_result (S E A : Type) : Type := S → S * result E A.

#[global] Instance state_result_ret {S E} : MRet (state_result S E) := fun _ a s => (s, Ok a).
#[global] Instance state_result_bind {S E} : MBind (state_result S E) := fun _ _ f m s =>
  match m s with
  | (s', Ok a) => f a s'
  | (s', Err e) => (s', Err e)
  end.

Section Operations.
Context {S E A : Type}.

(** A pure computation, [r?]. *)
Definition lift (r : result E A) : state_result S E A := fun s => (s, r).

(** A [&self] call whose result is propagated. *)
Definition asks (f : S → result E A) : state_result S E A := fun s => (s, f s).

(** Reads [self]. *)
Definition gets (f : S → A) : state_result S E A := fun s => (s, Ok (f s)).

(** [if cond(self) { return Err(e) }]. *)
Definition reject_if (cond : S → bool) (e : E) : state_result S E unit := fun s => (s, fail_if (cond s) e).

(** Assignments to fields of [self]. *)
Definition modify (f : S → S) : state_result S E unit := fun s => (f s, Ok tt).
End Operations.

(** Both outcomes of a method: [post] relates the final object and the result. *)
Definition wp {S E A} (m : state_result S E A) (post : S → result E A → Prop) (s : S) : Prop :=
  let '(s', r) := m s in post s' r.

Section Rules.
Context {S E : Type}.
Implicit Types s : S.

Lemma wp_mono {A} (m : state_result S E A) (P Q : S → result E A → Prop) s :
  (∀ s' r, P s' r → Q s' r) → wp m P s → wp m Q s.
Proof. unfold wp. destruct (m s). auto. Qed.

Lemma wp_and {A} (m : state_result S E A) (P Q : S → result E A → Prop) s :
  wp m P s → wp m Q s → wp m (fun s' r => P s' r ∧ Q s' r) s.
Proof. unfold wp. destruct (m s). auto. Qed.

Lemma wp_ret {A} (a : A) (P : S → result E A → Prop) s : P s (Ok a) → wp (mret a) P s.
Proof. done. Qed.

Lemma wp_bind {A B} (m : state_result S E A) (f : A → state_result S E B) P s :
  wp m (fun s' r => match r with Ok a => wp (f a) P s' | Err e => P s' (Err e) end) s →
  wp (mbind f m) P s.
Proof. unfold wp, mbind, state_result_bind. by destruct (m s) as [s' [a|e]]. Qed.

Lemma wp_lift {A} (r : result E A) (P : S → result E A → Prop) s : P s r → wp (lift r) P s.
Proof. done. Qed.

Lemma wp_asks {A} (f : S → result E A) (P : S → result E A → Prop) s : P s (f s) → wp (asks f) P s.
Proof. done. Qed.

Lemma wp_gets {A} (f : S → A) (P : S → result E A → Prop) s : P s (Ok (f s)) → wp (gets f) P s.
Proof. done. Qed.

Lemma wp_reject_if (cond : S → bool) (e : E) P s :
  (cond s = true → P s (Err e)) → (cond s = false → P s (Ok tt)) → wp (reject_if cond e) P s.
Proof. unfold wp, reject_if, fail_if. destruct (cond s); auto. Qed.

Lemma wp_modify (f : S → S) (P : S → result E unit → Prop) s : P (f s) (Ok tt) → wp (modify f) P s.
Proof. done. Qed.

(** What [wp] says of a run. *)
Lemma wp_run {A} (m : state_result S E A) P s s' r : m s = (s', r) → wp m P s → P s' r.
Proof. unfold wp. by intros ->. Qed.

Lemma run_wp {A} (m : state_result S E A) (P : S → result E A → Prop) s :
  (∀ s' r, m s = (s', r) → P s' r) → wp m P s.
Proof. unfold wp. destruct (m s) as [s' r]. auto. Qed.

Lemma bind_run {A B} (m : state_result S E A) (f : A → state_result S E B) s s' b :
  mbind f m s = (s', Ok b) ↔ ∃ s1 a, m s = (s1, Ok a) ∧ f a s1 = (s', Ok b).
Proof. unfold mbind, state_result_bind. destruct (m s) as [s1 [a|e]]; naive_solver. Qed.
End Rules.

(** Splits a successful run into the runs of its steps. *)
Ltac inv_run :=
  repeat match goal with
  | H : mbind _ _ _ = (_, Ok _) |- _ => apply bind_run in H; destruct H as (? & ? & ? & H)
  | H : lift _ _ = (_, Ok _) |- _ => unfold lift in H; injection H as <- H
  | H : asks _ _ = (_, Ok _) |- _ => unfold asks in H; injection H as <- H
  | H : gets _ _ = (_, Ok _) |- _ => unfold gets in H; injection H as <- <-
  | H : modify _ _ = (_, Ok _) |- _ => unfold modify in H; injection H as <- <-
  | H : reject_if _ _ _ = (_, Ok _) |- _ =>
      unfold reject_if in H; injection H as <- H; apply fail_if_ok in H
  | H : mret _ _ = (_, Ok _) |- _ => injection H as <- <-
  end.

(** Symbolic execution of a method up to the next call that is not a primitive. *)
Ltac wp_step :=
  match goal with
  | |- wp (mbind _ _) _ _ => apply wp_bind
  | |- wp (mret _) _ _ => apply wp_ret
  | |- wp (lift _) _ _ => apply wp_lift
  | |- wp (asks _) _ _ => apply wp_asks
  | |- wp (gets _) _ _ => apply wp_gets
  | |- wp (modify _) _ _ => apply wp_modify
  | |- wp (reject_if _ _) _ _ => apply wp_reject_if; [|let H := fresh "Hok" in intros H]
  end.
