(* ===== verification/Base64Url.v ===== *)
(** * Canonical unpadded base64url (package updater)

    [encode_base64url] and [decode_base64url_canonical] of the package-updater
    crate: the chunked encoder, the bit-accumulating decoder on its [u32]
    accumulator, and its three canonicality checks. *)

From S2P Require Import Prelude RustStr.
From Stdlib Require Import ZArith.

Local Open Scope N_scope.

(** ** Errors of the crate *)

Record PackageUpdateError := mkPackageUpdateError {
  err_code : string;
  err_message : string;
}.

#[global] Instance package_update_error_eq_dec : EqDecision PackageUpdateError.
Proof. solve_decision. Defined.

(** ** Encoder *)

Definition ALPHABET : string :=
  "ABCDEFGHIJKLMNOPQRSTUVWXYZabcdefghijklmnopqrstuvwxyz0123456789-_".

(** [ALPHABET[index] as char]; every index is masked to six bits. *)
Definition alphabet_char (index : N) : Ascii.ascii :=
  default Ascii.zero (String.get (N.to_nat index) ALPHABET).

(** [bytes.chunks(3)]. *)
Fixpoint chunks3 (bytes : list N) : list (list N) :=
  match bytes with
  | [] => []
  | b0 :: b1 :: b2 :: rest => [b0; b1; b2] :: chunks3 rest
  | short => [short]
  end.

Definition encode_chunk (chunk : list N) : string :=
  let first := default 0 (chunk !! 0%nat) in
  let second := default 0 (chunk !! 1%nat) in
  let third := default 0 (chunk !! 2%nat) in
  let word := N.lor (N.lor (N.shiftl first 16) (N.shiftl second 8)) third in
  String (alphabet_char (N.land (N.shiftr word 18) 63))
    (String (alphabet_char (N.land (N.shiftr word 12) 63))
      ((if (2 <=? length chunk)%nat
        then String (alphabet_char (N.land (N.shiftr word 6) 63)) EmptyString
        else EmptyString) ++
       (if (length chunk =? 3)%nat
        then String (alphabet_char (N.land word 63)) EmptyString
        else EmptyString))).

Definition encode_base64url (bytes : list N) : string :=
  foldr (fun chunk out => encode_chunk chunk ++ out)%string EmptyString (chunks3 bytes).

(** ** Decoder *)

Definition is_base64url_byte (b : N) : bool :=
  is_ascii_alphanumeric b || (b =? 45) || (b =? 95).

(** The [match byte] of the loop; the last arm of the code is [unreachable!]
    because the alphabet was checked before the loop. *)
Definition sextet (b : N) : N :=
  if is_ascii_uppercase b then b - 65
  else if is_ascii_lowercase b then b - 97 + 26
  else if is_ascii_digit b then b - 48 + 52
  else if b =? 45 then 62
  else if b =? 95 then 63
  else 0.

(** [u32 << k] drops the bits shifted out. *)
Definition shl32 (a k : N) : N := N.land (N.shiftl a k) u32_max.

Definition decode_step (state : N * N * list N) (b : N) : N * N * list N :=
  let '(accumulator, bits, output) := state in
  let accumulator := N.lor (shl32 accumulator 6) (sextet b) in
  let bits := bits + 6 in
  if 8 <=? bits
  then (accumulator, bits - 8,
        output ++ [N.land (N.shiftr accumulator (bits - 8)) 255])
  else (accumulator, bits, output).

Definition noncanonical_base64url (message : string) : PackageUpdateError :=
  mkPackageUpdateError "noncanonical_base64url" message.

Definition decode_base64url_canonical (value : string) : result PackageUpdateError (list N) :=
  fail_if (str_is_empty value || contains_byte 61 value ||
           negb (all_bytes is_base64url_byte value) || (str_len value mod 4 =? 1))
    (noncanonical_base64url "value must be canonical unpadded base64url") ;;
  let '(accumulator, bits, output) := fold_left decode_step (str_bytes value) (0, 0, []) in
  fail_if ((0 <? bits) && negb (N.land accumulator (N.shiftl 1 bits - 1) =? 0))
    (noncanonical_base64url "unused base64url bits must be zero") ;;
  fail_if (negb (encode_base64url output =? value)%string)
    (noncanonical_base64url "value must use the unique unpadded base64url encoding") ;;
  Ok output.

#[local] Arguments alphabet_char : simpl never.
#[local] Arguments sextet : simpl never.

(** ** Bit arithmetic *)

Lemma land_ones_mod a k : N.land a (2 ^ k - 1) = a mod 2 ^ k.
Proof. rewrite <- N.pred_sub, <- N.ones_equiv. apply N.land_ones. Qed.

Lemma shiftl_lor_add a b k : b < 2 ^ k → N.lor (N.shiftl a k) b = a * 2 ^ k + b.
Proof.
  intros Hb.
  assert (Hd : N.land (N.shiftl a k) b = 0).
  { apply N.bits_inj. intros i. rewrite N.land_spec, N.bits_0.
    destruct (N.lt_ge_cases i k) as [Hi|Hi].
    - by rewrite N.shiftl_spec_low.
    - rewrite <- (N.mod_small b (2 ^ k)) by done.
      rewrite N.mod_pow2_bits_high by done. apply andb_false_r. }
  rewrite <- N.lxor_lor by done. rewrite <- N.add_nocarry_lxor by done.
  by rewrite N.shiftl_mul_pow2.
Qed.

Lemma shl32_6 a : shl32 a 6 = N.shiftl (a mod 2 ^ 26) 6.
Proof.
  unfold shl32. change u32_max with (2 ^ 32 - 1).
  rewrite land_ones_mod, !N.shiftl_mul_pow2. change (2 ^ 32) with (2 ^ 26 * 2 ^ 6).
  apply N.Div0.mul_mod_distr_r.
Qed.

(** One loop iteration on the accumulator, as arithmetic. *)
Lemma accumulate a s : s < 64 → N.lor (shl32 a 6) s = a mod 2 ^ 26 * 64 + s.
Proof. intros Hs. rewrite shl32_6. by apply (shiftl_lor_add _ s 6). Qed.

Lemma low_byte a k : N.land (N.shiftr a k) 255 = (a / 2 ^ k) mod 256.
Proof. change 255 with (2 ^ 8 - 1). by rewrite land_ones_mod, N.shiftr_div_pow2. Qed.

Lemma low_sextet a k : N.land (N.shiftr a k) 63 = (a / 2 ^ k) mod 64.
Proof. change 63 with (2 ^ 6 - 1). by rewrite land_ones_mod, N.shiftr_div_pow2. Qed.

Lemma chunk_word b0 b1 b2 : b1 < 256 → b2 < 256 →
  N.lor (N.lor (N.shiftl b0 16) (N.shiftl b1 8)) b2 = b0 * 65536 + b1 * 256 + b2.
Proof.
  intros H1 H2.
  replace (N.shiftl b0 16) with (N.shiftl (N.shiftl b0 8) 8) by by rewrite N.shiftl_shiftl.
  rewrite <- N.shiftl_lor, shiftl_lor_add by done.
  rewrite shiftl_lor_add by done. change (2 ^ 8) with 256. lia.
Qed.

(** ** The alphabet is a bijection with the six-bit values *)

Lemma forall_below (p : N → bool) (n : nat) :
  forallb (fun i => p (N.of_nat i)) (seq 0 n) = true → ∀ i, i < N.of_nat n → p i = true.
Proof.
  intros H i Hi. rewrite forallb_forall in H.
  rewrite <- (N2Nat.id i). apply H. apply in_seq. lia.
Qed.

Lemma sextet_alphabet i : i < 64 → sextet (byte_of (alphabet_char i)) = i.
Proof.
  intros Hi. apply N.eqb_eq.
  by apply (forall_below (fun i => sextet (byte_of (alphabet_char i)) =? i) 64).
Qed.

Lemma alphabet_is_base64url i : i < 64 → is_base64url_byte (byte_of (alphabet_char i)) = true.
Proof.
  by apply (forall_below (fun i => is_base64url_byte (byte_of (alphabet_char i))) 64).
Qed.

Lemma alphabet_sextet b : is_u8 b → is_base64url_byte b = true →
  sextet b < 64 ∧ byte_of (alphabet_char (sextet b)) = b.
Proof.
  intros Hb Hok.
  pose proof (forall_below (fun b => implb (is_base64url_byte b)
    ((sextet b <? 64) && (byte_of (alphabet_char (sextet b)) =? b))) 256 eq_refl b Hb) as H.
  cbv beta in H. rewrite Hok in H. cbn [implb] in H. by bool_to_prop.
Qed.

(** ** The decoder loop computes the grouping of sextets into bytes *)

Lemma list_ind4 {A} (P : list A → Prop) :
  P [] → (∀ a, P [a]) → (∀ a b, P [a; b]) → (∀ a b c, P [a; b; c]) →
  (∀ a b c d l, P l → P (a :: b :: c :: d :: l)) → ∀ l, P l.
Proof.
  intros H0 H1 H2 H3 H4. fix IH 1.
  intros [|a [|b [|c [|d l]]]];
    [exact H0|apply H1|apply H2|apply H3|apply H4, IH].
Qed.

Lemma list_ind3 {A} (P : list A → Prop) :
  P [] → (∀ a, P [a]) → (∀ a b, P [a; b]) →
  (∀ a b c l, P l → P (a :: b :: c :: l)) → ∀ l, P l.
Proof.
  intros H0 H1 H2 H3. fix IH 1.
  intros [|a [|b [|c l]]]; [exact H0|apply H1|apply H2|apply H3, IH].
Qed.

Lemma length_plus4_mod n : (S (S (S (S n))) mod 4 = n mod 4)%nat.
Proof.
  replace (S (S (S (S n)))) with (n + 1 * 4)%nat by lia. apply Nat.Div0.mod_add.
Qed.

(** Reference decoder: groups of four sextets, the whole bytes of the last
    group, and the number and value of the bits left over. *)
Fixpoint group_bytes (ss : list N) : list N :=
  match ss with
  | s0 :: s1 :: s2 :: s3 :: rest =>
      (s0 * 4 + s1 / 16) :: (s1 mod 16 * 16 + s2 / 4) :: (s2 mod 4 * 64 + s3) :: group_bytes rest
  | [s0; s1; s2] => [s0 * 4 + s1 / 16; s1 mod 16 * 16 + s2 / 4]
  | [s0; s1] => [s0 * 4 + s1 / 16]
  | _ => []
  end.

Fixpoint group_rest (ss : list N) : N * N :=
  match ss with
  | _ :: _ :: _ :: _ :: rest => group_rest rest
  | [_; _; s2] => (2, s2 mod 4)
  | [_; s1] => (4, s1 mod 16)
  | [s0] => (6, s0)
  | [] => (0, 0)
  end.

(** The accumulator enters every extracted byte only through its low bits. *)
Definition push (a s : N) : N := a mod 67108864 * 64 + s.

Local Ltac Zify.zify_post_hook ::= Z.to_euclidean_division_equations.

Lemma push_first_byte a s0 s1 : s0 < 64 → s1 < 64 →
  (push (push a s0) s1 / 16) mod 256 = s0 * 4 + s1 / 16.
Proof. unfold push. lia. Qed.

Lemma push_second_byte a s1 s2 : s1 < 64 → s2 < 64 →
  (push (push a s1) s2 / 4) mod 256 = s1 mod 16 * 16 + s2 / 4.
Proof. unfold push. lia. Qed.

Lemma push_third_byte a s2 s3 : s2 < 64 → s3 < 64 →
  push (push a s2) s3 mod 256 = s2 mod 4 * 64 + s3.
Proof. unfold push. lia. Qed.

Lemma push_rest a s : s < 64 →
  push a s mod 64 = s ∧ push a s mod 16 = s mod 16 ∧ push a s mod 4 = s mod 4.
Proof. unfold push. lia. Qed.

Local Ltac Zify.zify_post_hook ::= idtac.

Lemma decode_step_arith a bits out b : sextet b < 64 → bits < 8 →
  decode_step (a, bits, out) b =
  if 2 <=? bits
  then (push a (sextet b), bits - 2, out ++ [(push a (sextet b) / 2 ^ (bits - 2)) mod 256])
  else (push a (sextet b), bits + 6, out).
Proof.
  intros Hs Hb. unfold decode_step. rewrite accumulate, low_byte by done.
  change (a mod 2 ^ 26 * 64 + sextet b) with (push a (sextet b)).
  replace (8 <=? bits + 6) with (2 <=? bits)
    by (destruct (N.leb_spec 2 bits), (N.leb_spec 8 (bits + 6)); lia).
  by replace (bits + 6 - 8) with (bits - 2) by lia.
Qed.

Lemma decode_step0 a out b : sextet b < 64 →
  decode_step (a, 0, out) b = (push a (sextet b), 6, out).
Proof. intros. by rewrite decode_step_arith. Qed.

Lemma decode_step6 a out b : sextet b < 64 →
  decode_step (a, 6, out) b = (push a (sextet b), 4, out ++ [(push a (sextet b) / 16) mod 256]).
Proof. intros. by rewrite decode_step_arith. Qed.

Lemma decode_step4 a out b : sextet b < 64 →
  decode_step (a, 4, out) b = (push a (sextet b), 2, out ++ [(push a (sextet b) / 4) mod 256]).
Proof. intros. by rewrite decode_step_arith. Qed.

Lemma decode_step2 a out b : sextet b < 64 →
  decode_step (a, 2, out) b = (push a (sextet b), 0, out ++ [push a (sextet b) mod 256]).
Proof. intros. rewrite decode_step_arith by done. cbn. by rewrite N.div_1_r. Qed.

#[local] Arguments decode_step : simpl never.

(** The loop of the code agrees with the reference decoder. *)
Lemma decode_loop bs a out :
  Forall (fun b => sextet b < 64) bs →
  ∃ a', fold_left decode_step bs (a, 0, out) =
          (a', (group_rest (sextet <$> bs)).1, out ++ group_bytes (sextet <$> bs)) ∧
        a' mod 2 ^ (group_rest (sextet <$> bs)).1 = (group_rest (sextet <$> bs)).2.
Proof.
  revert a out. induction bs as [|b0|b0 b1|b0 b1 b2|b0 b1 b2 b3 bs IH] using list_ind4;
    intros a out Hs; forall_cons; cbn [fold_left];
    rewrite ?decode_step0, ?decode_step6, ?decode_step4, ?decode_step2 by done;
    rewrite ?push_first_byte, ?push_second_byte, ?push_third_byte by done;
    rewrite <- ?app_assoc; cbn [app].
  - exists a. rewrite app_nil_r. split; [done|]. apply N.mod_1_r.
  - eexists. rewrite app_nil_r. split; [done|]. by apply push_rest.
  - eexists. split; [done|]. by apply push_rest.
  - eexists. split; [done|]. by apply push_rest.
  - edestruct IH as (a' & Ha & Hr); [done|]. exists a'. split; [|exact Hr].
    by rewrite Ha, <- app_assoc.
Qed.

(** ** The encoder computes the split of bytes into sextets *)

Fixpoint byte_sextets (bs : list N) : list N :=
  match bs with
  | b0 :: b1 :: b2 :: rest =>
      (b0 / 4) :: (b0 mod 4 * 16 + b1 / 16) :: (b1 mod 16 * 4 + b2 / 64) :: (b2 mod 64) ::
      byte_sextets rest
  | [b0; b1] => [b0 / 4; b0 mod 4 * 16 + b1 / 16; b1 mod 16 * 4]
  | [b0] => [b0 / 4; b0 mod 4 * 16]
  | [] => []
  end.

Definition alphabet_string (ss : list N) : string :=
  foldr (fun s t => String (alphabet_char s) t) EmptyString ss.

Lemma alphabet_string_app ss ts :
  alphabet_string (ss ++ ts) = (alphabet_string ss ++ alphabet_string ts)%string.
Proof.
  unfold alphabet_string. induction ss as [|x ss IH]; [done|].
  cbn [app foldr]. rewrite IH. done.
Qed.

Local Ltac Zify.zify_post_hook ::= Z.to_euclidean_division_equations.

Lemma word_first b0 r : b0 < 256 → r < 65536 → ((b0 * 65536 + r) / 262144) mod 64 = b0 / 4.
Proof. intros. rewrite N.mod_small; lia. Qed.

Lemma word_second b0 b1 b2 : b0 < 256 → b1 < 256 → b2 < 256 →
  ((b0 * 65536 + b1 * 256 + b2) / 4096) mod 64 = b0 mod 4 * 16 + b1 / 16.
Proof.
  intros. transitivity ((b0 * 16 + b1 / 16) mod 64); [f_equal|]; lia.
Qed.

Lemma word_third b0 b1 b2 : b0 < 256 → b1 < 256 → b2 < 256 →
  ((b0 * 65536 + b1 * 256 + b2) / 64) mod 64 = b1 mod 16 * 4 + b2 / 64.
Proof.
  intros. transitivity ((b0 * 1024 + b1 * 4 + b2 / 64) mod 64); [f_equal|]; lia.
Qed.

Lemma word_fourth b0 b1 b2 : b0 < 256 → b1 < 256 → b2 < 256 →
  (b0 * 65536 + b1 * 256 + b2) mod 64 = b2 mod 64.
Proof. lia. Qed.

Lemma byte_sextets_lt bs : Forall is_u8 bs → Forall (fun s => s < 64) (byte_sextets bs).
Proof.
  induction bs as [|b0|b0 b1|b0 b1 b2 bs IH] using list_ind3; intros H; forall_cons;
    unfold is_u8 in *; cbn; repeat constructor; try lia. by apply IH.
Qed.

Lemma group_byte_sextets bs : Forall is_u8 bs →
  group_bytes (byte_sextets bs) = bs ∧ (group_rest (byte_sextets bs)).2 = 0 ∧
  (length (byte_sextets bs) mod 4 ≠ 1)%nat.
Proof.
  induction bs as [|b0|b0 b1|b0 b1 b2 bs IH] using list_ind3; intros H; forall_cons;
    unfold is_u8 in *; cbn [byte_sextets group_bytes group_rest fst snd].
  - done.
  - split; [|split; [lia|done]]. f_equal. lia.
  - split; [|split; [lia|done]]. f_equal; [lia|]. f_equal. lia.
  - destruct IH as (IH1 & IH2 & IH3); [done|]. split; [|split; [done|]].
    + rewrite IH1. f_equal; [lia|]. f_equal; [lia|]. f_equal. lia.
    + cbn [length]. by rewrite length_plus4_mod.
Qed.

Lemma byte_sextets_group ss : Forall (fun s => s < 64) ss →
  (group_rest ss).2 = 0 → (length ss mod 4 ≠ 1)%nat → byte_sextets (group_bytes ss) = ss.
Proof.
  induction ss as [|s0|s0 s1|s0 s1 s2|s0 s1 s2 s3 ss IH] using list_ind4;
    intros H Hr Hl; forall_cons; cbn [byte_sextets group_bytes group_rest fst snd] in *.
  - done.
  - by destruct Hl.
  - f_equal; [lia|]. f_equal. lia.
  - f_equal; [lia|]. f_equal; [lia|]. f_equal. lia.
  - rewrite IH; [|done|done|].
    + f_equal; [lia|]. f_equal; [lia|]. f_equal; [lia|]. f_equal. lia.
    + cbn [length] in Hl. by rewrite length_plus4_mod in Hl.
Qed.

Lemma group_bytes_u8 ss : Forall (fun s => s < 64) ss → Forall is_u8 (group_bytes ss).
Proof.
  induction ss as [|s0|s0 s1|s0 s1 s2|s0 s1 s2 s3 ss IH] using list_ind4;
    intros H; forall_cons; cbn [group_bytes]; unfold is_u8 in *;
    repeat constructor; try lia. by apply IH.
Qed.

Local Ltac Zify.zify_post_hook ::= idtac.

Lemma encode_chunk_sextets chunk :
  Forall is_u8 chunk → (1 <= length chunk <= 3)%nat →
  encode_chunk chunk = alphabet_string (byte_sextets chunk).
Proof.
  intros Hu Hl. unfold encode_chunk.
  assert (∀ w, N.land w 63 = w mod 64) as E63.
  { intros w. change 63 with (2 ^ 6 - 1). apply land_ones_mod. }
  destruct chunk as [|b0 [|b1 [|b2 [|]]]]; cbn [length] in Hl; try lia;
    forall_cons; unfold is_u8 in *;
    cbn [lookup list_lookup default from_option id length Nat.leb Nat.eqb String.append];
    rewrite chunk_word, !low_sextet, ?E63 by lia;
    change (2 ^ 18) with 262144; change (2 ^ 12) with 4096; change (2 ^ 6) with 64;
    rewrite <- ?N.add_assoc, word_first, ?N.add_assoc by lia;
    rewrite word_second, ?word_third, ?word_fourth by lia; cbn [byte_sextets alphabet_string foldr].
  - rewrite N.add_0_r. done.
  - rewrite N.add_0_r. done.
  - done.
Qed.

Lemma encode_sextets bs : Forall is_u8 bs →
  encode_base64url bs = alphabet_string (byte_sextets bs).
Proof.
  unfold encode_base64url.
  induction bs as [|b0|b0 b1|b0 b1 b2 bs IH] using list_ind3; intros H; cbn [chunks3 foldr].
  - done.
  - rewrite str_app_nil_r. apply encode_chunk_sextets; [done|cbn; lia].
  - rewrite str_app_nil_r. apply encode_chunk_sextets; [done|cbn; lia].
  - change (b0 :: b1 :: b2 :: bs) with ([b0; b1; b2] ++ bs) in H.
    apply Forall_app in H as [H3 Hbs]. rewrite IH by done.
    rewrite encode_chunk_sextets by (done || cbn; lia). by rewrite <- alphabet_string_app.
Qed.

Lemma str_bytes_alphabet ss : str_bytes (alphabet_string ss) = (fun s => byte_of (alphabet_char s)) <$> ss.
Proof. induction ss as [|s ss IH]; [done|]. cbn. f_equal. exact IH. Qed.

Lemma sextets_alphabet ss : Forall (fun s => s < 64) ss →
  sextet <$> str_bytes (alphabet_string ss) = ss.
Proof.
  rewrite str_bytes_alphabet.
  induction 1 as [|s ss Hs _ IH]; [done|].
  rewrite !fmap_cons, IH. f_equal. by apply sextet_alphabet.
Qed.

(** Every base64url string is the alphabet image of its sextets. *)
Lemma base64url_sextets v : all_bytes is_base64url_byte v = true →
  Forall (fun b => sextet b < 64) (str_bytes v) ∧
  alphabet_string (sextet <$> str_bytes v) = v.
Proof.
  induction v as [|a v IH]; [done|]. cbn. intros [Ha Hv]%andb_true_iff.
  destruct (alphabet_sextet (byte_of a)) as [Hs He]; [apply byte_of_ascii_u8|done|].
  apply byte_of_inj in He. destruct (IH Hv) as [IH1 IH2]. split; [by constructor|].
  rewrite He. f_equal. exact IH2.
Qed.

(** ** Acceptance *)

(** What the decoder accepts, and what it returns, in terms of sextets. *)
Definition canonical_base64url (value : string) : Prop :=
  value ≠ EmptyString ∧ all_bytes is_base64url_byte value = true ∧
  (length (str_bytes value) mod 4 ≠ 1)%nat ∧ (group_rest (sextet <$> str_bytes value)).2 = 0.

Lemma base64url_no_padding v : all_bytes is_base64url_byte v = true → contains_byte 61 v = false.
Proof.
  apply all_not_any. intros b. unfold is_base64url_byte, is_ascii_alphanumeric,
    is_ascii_digit, is_ascii_uppercase, is_ascii_lowercase.
  intros H. apply N.eqb_neq. intros <-. done.
Qed.

Lemma str_len_mod4 v : (str_len v mod 4 =? 1) = false ↔ (length (str_bytes v) mod 4 ≠ 1)%nat.
Proof.
  unfold str_len. rewrite length_str_bytes, N.eqb_neq.
  change 4 with (N.of_nat 4). rewrite <- Nat2N.inj_mod. lia.
Qed.

Lemma first_check v :
  str_is_empty v || contains_byte 61 v || negb (all_bytes is_base64url_byte v) ||
    (str_len v mod 4 =? 1) = false ↔
  v ≠ EmptyString ∧ all_bytes is_base64url_byte v = true ∧ (length (str_bytes v) mod 4 ≠ 1)%nat.
Proof.
  rewrite !orb_false_iff, negb_false_iff, str_len_mod4. split.
  - intros [[[H1 H2] H3] H4]. split; [by intros ->|done].
  - intros (H1 & H2 & H3). split_and!; try done; [by destruct v|by apply base64url_no_padding].
Qed.

(** The decoder loop on a string of the alphabet: result, unused bits, and the
    re-encoding test, which always succeeds when the unused bits are zero. *)
Lemma decode_run v :
  all_bytes is_base64url_byte v = true → (length (str_bytes v) mod 4 ≠ 1)%nat →
  let ss := sextet <$> str_bytes v in
  ∃ a, fold_left decode_step (str_bytes v) (0, 0, []) = (a, (group_rest ss).1, group_bytes ss) ∧
       N.land a (N.shiftl 1 (group_rest ss).1 - 1) = (group_rest ss).2 ∧
       ((group_rest ss).2 = 0 → encode_base64url (group_bytes ss) = v).
Proof.
  intros Ha Hl ss. destruct (base64url_sextets v Ha) as [Hs He].
  destruct (decode_loop (str_bytes v) 0 [] Hs) as (a & Hf & Hr). exists a.
  split; [done|]. split.
  - by rewrite N.shiftl_1_l, land_ones_mod.
  - intros Hz. assert (Forall (fun s => s < 64) ss) by by apply Forall_fmap.
    rewrite encode_sextets by by apply group_bytes_u8.
    rewrite byte_sextets_group; [done|done|done|]. subst ss. by rewrite length_fmap.
Qed.

Lemma decode_ok_iff v bs :
  decode_base64url_canonical v = Ok bs ↔
  canonical_base64url v ∧ bs = group_bytes (sextet <$> str_bytes v).
Proof.
  unfold decode_base64url_canonical, canonical_base64url.
  rewrite fail_if_bind_ok, first_check.
  split.
  - intros [(Hne & Ha & Hl) H]. destruct (decode_run v Ha Hl) as (a & Hf & Hr & He).
    rewrite Hf in H. rewrite !fail_if_bind_ok, Hr in H. destruct H as (E & _ & [= <-]).
    split; [|done]. split_and!; try done.
    apply andb_false_iff in E as [E|E]; bool_to_prop; [|done].
    destruct (group_rest _) as [bits rest] eqn:G in *. cbn in *.
    assert (bits = 0) as -> by lia. rewrite <- Hr. cbn. apply N.land_0_r.
  - intros [(Hne & Ha & Hl & Hz) ->]. split; [done|].
    destruct (decode_run v Ha Hl) as (a & Hf & Hr & He). rewrite Hf.
    rewrite Hr, Hz, andb_false_r. cbn [fail_if mbind result_bind].
    by rewrite He, String.eqb_refl.
Qed.

Lemma decode_encode bs : Forall is_u8 bs → bs ≠ [] →
  decode_base64url_canonical (encode_base64url bs) = Ok bs.
Proof.
  intros Hu Hne. rewrite encode_sextets by done. apply decode_ok_iff.
  destruct (group_byte_sextets bs Hu) as (Hg & Hr & Hl).
  pose proof (byte_sextets_lt bs Hu) as Hlt.
  unfold canonical_base64url. rewrite sextets_alphabet by done. split_and!; try done.
  - by destruct bs as [|b0 [|b1 [|b2 bs]]].
  - rewrite all_bytes_forallb, str_bytes_alphabet. apply forallb_forall.
    intros x Hx. apply list_elem_of_In, list_elem_of_fmap in Hx as (s & -> & Hs).
    apply alphabet_is_base64url. by rewrite Forall_forall in Hlt; apply Hlt.
  - by rewrite str_bytes_alphabet, length_fmap.
Qed.

Lemma encode_decode v bs : decode_base64url_canonical v = Ok bs → encode_base64url bs = v.
Proof.
  rewrite decode_ok_iff. intros [(_ & Ha & Hl & Hz) ->].
  destruct (decode_run v Ha Hl) as (_ & _ & _ & He). auto.
Qed.

Lemma decode_u8 v bs : decode_base64url_canonical v = Ok bs → Forall is_u8 bs.
Proof.
  rewrite decode_ok_iff. intros [(_ & Ha & _) ->]. apply group_bytes_u8, Forall_fmap.
  by destruct (base64url_sextets v Ha).
Qed.
