(* ===== verification/UpdateModel.v ===== *)
(** * Package updater: data model

    The structs, enums and constants of the package-updater crate. Field names
    are those of the source with a prefix per struct. *)

From S2P Require Import Prelude RustStr Base64Url.

Local Open Scope N_scope.

Definition ENVELOPE_SCHEMA : string := "rusty.quest.package_update_manifest_envelope.v1".
Definition MANIFEST_SCHEMA : string := "rusty.quest.package_update_manifest.v1".
Definition RECEIPT_SCHEMA : string := "rusty.quest.package_update_receipt.v1".
Definition ROLLBACK_STATE_SCHEMA : string := "rusty.quest.package_update_rollback_state.v1".
Definition SIGNATURE_ALGORITHM : string := "Ed25519".
(** [b"rusty.quest.package_update_manifest.v1\0"]. *)
Definition SIGNATURE_DOMAIN : list N := str_bytes "rusty.quest.package_update_manifest.v1" ++ [0].
Definition PACKAGE_UPDATE_LABS_SITE_BASE_PATH : string := "rusty-quest".
Definition MAX_JCS_SAFE_INTEGER : N := 9007199254740991.

Record PackageUpdateArtifact := mkArtifact {
  art_package_name : string;
  art_version_code : N;
  art_version_name : string;
  art_apk_url : string;
  art_apk_sha256 : string;
  art_apk_size_bytes : N;
  art_signer_sha256 : string;
}.

Record PackageUpdateManifest := mkManifest {
  man_schema : string;
  man_manifest_id : string;
  man_sequence : N;
  man_issued_at_ms : N;
  man_expires_at_ms : N;
  man_channel : string;
  man_rollout_ring : string;
  man_artifact : PackageUpdateArtifact;
}.

Record PackageUpdateManifestEnvelope := mkEnvelope {
  env_schema : string;
  env_key_id : string;
  env_algorithm : string;
  env_signature : string;
  env_signed : PackageUpdateManifest;
}.

Record ReleaseKeyRecord := mkReleaseKeyRecord {
  rec_key_id : string;
  rec_public_key : string;
}.

Record PackageUpdatePolicy := mkPolicy {
  pol_expected_channel : string;
  pol_expected_https_origin : string;
  pol_expected_site_base_path : string;
  pol_expected_package_name : string;
  pol_expected_rollout_ring : string;
  pol_expected_signer_sha256 : string;
  pol_expected_key_id : string;
  pol_expected_public_key : string;
  pol_installed_version_code : N;
  pol_minimum_target_version_code : N;
  pol_maximum_target_version_code : N;
  pol_maximum_apk_size_bytes : N;
  pol_maximum_manifest_validity_ms : N;
  pol_maximum_future_issue_skew_ms : N;
}.

Record PackageUpdateCheckpoint := mkCheckpoint {
  cp_channel : string;
  cp_package_name : string;
  cp_rollout_ring : string;
  cp_signer_sha256 : string;
  cp_key_id : string;
  cp_public_key : string;
  cp_https_origin : string;
  cp_sequence : N;
  cp_version_code : N;
  cp_signed_manifest_sha256 : string;
}.

Record PackageUpdateRollbackState := mkRollbackState {
  rs_schema : string;
  rs_checkpoints : list PackageUpdateCheckpoint;
}.

(** [impl Default for PackageUpdateRollbackState]. *)
Definition rollback_state_default : PackageUpdateRollbackState :=
  mkRollbackState ROLLBACK_STATE_SCHEMA [].

Record ObservedApk := mkObservedApk {
  obs_package_name : string;
  obs_version_code : N;
  obs_signer_sha256 : string;
  obs_apk_sha256 : string;
  obs_apk_size_bytes : N;
}.

Inductive PackageUpdateDecision := Accepted | Rejected.

Inductive PackageUpdateReceiptStage := StageManifestAdmission | StageInstallCommit.

Record PackageUpdateReceipt := mkReceipt {
  rc_schema : string;
  rc_stage : PackageUpdateReceiptStage;
  rc_decision : PackageUpdateDecision;
  rc_code : string;
  rc_observed_at_ms : N;
  rc_envelope_sha256 : option string;
  rc_signed_manifest_sha256 : option string;
  rc_key_id : option string;
  rc_manifest_id : option string;
  rc_channel : option string;
  rc_package_name : option string;
  rc_rollout_ring : option string;
  rc_sequence : option N;
  rc_version_code : option N;
  rc_prior_checkpoint : option PackageUpdateCheckpoint;
  rc_accepted_checkpoint : option PackageUpdateCheckpoint;
  rc_state_changed : bool;
}.

Record VerifiedPackageUpdate := mkVerified {
  ver_key_id : string;
  ver_public_key : string;
  ver_https_origin : string;
  ver_signed_manifest_sha256 : string;
  ver_manifest : PackageUpdateManifest;
}.

Record ManifestAdmission := mkAdmission {
  adm_receipt : PackageUpdateReceipt;
  adm_verified : option VerifiedPackageUpdate;
}.

#[global] Instance checkpoint_eq_dec : EqDecision PackageUpdateCheckpoint.
Proof. solve_decision. Defined.

(** ** Receipts *)

Definition receipt_base (stage : PackageUpdateReceiptStage) (observed_at_ms : N)
    (envelope_sha256 signed_manifest_sha256 key_id : option string)
    (manifest : option PackageUpdateManifest)
    (prior_checkpoint : option PackageUpdateCheckpoint) : PackageUpdateReceipt := {|
  rc_schema := RECEIPT_SCHEMA;
  rc_stage := stage;
  rc_decision := Rejected;
  rc_code := "unresolved";
  rc_observed_at_ms := observed_at_ms;
  rc_envelope_sha256 := envelope_sha256;
  rc_signed_manifest_sha256 := signed_manifest_sha256;
  rc_key_id := key_id;
  rc_manifest_id := man_manifest_id <$> manifest;
  rc_channel := man_channel <$> manifest;
  rc_package_name := (fun m => art_package_name (man_artifact m)) <$> manifest;
  rc_rollout_ring := man_rollout_ring <$> manifest;
  rc_sequence := man_sequence <$> manifest;
  rc_version_code := (fun m => art_version_code (man_artifact m)) <$> manifest;
  rc_prior_checkpoint := prior_checkpoint;
  rc_accepted_checkpoint := None;
  rc_state_changed := false;
|}.

(** Assignment of the four fields the receipt finalisers write. *)
Definition set_receipt_outcome (r : PackageUpdateReceipt) (decision : PackageUpdateDecision)
    (code : string) (accepted : option PackageUpdateCheckpoint) (changed : bool)
    : PackageUpdateReceipt := {|
  rc_schema := rc_schema r;
  rc_stage := rc_stage r;
  rc_decision := decision;
  rc_code := code;
  rc_observed_at_ms := rc_observed_at_ms r;
  rc_envelope_sha256 := rc_envelope_sha256 r;
  rc_signed_manifest_sha256 := rc_signed_manifest_sha256 r;
  rc_key_id := rc_key_id r;
  rc_manifest_id := rc_manifest_id r;
  rc_channel := rc_channel r;
  rc_package_name := rc_package_name r;
  rc_rollout_ring := rc_rollout_ring r;
  rc_sequence := rc_sequence r;
  rc_version_code := rc_version_code r;
  rc_prior_checkpoint := rc_prior_checkpoint r;
  rc_accepted_checkpoint := accepted;
  rc_state_changed := changed;
|}.

Definition rejected_receipt (receipt : PackageUpdateReceipt) (code : string) : PackageUpdateReceipt :=
  set_receipt_outcome receipt Rejected code (rc_accepted_checkpoint receipt) (rc_state_changed receipt).

Definition accepted_receipt (receipt : PackageUpdateReceipt) (code : string)
    (checkpoint : option PackageUpdateCheckpoint) : PackageUpdateReceipt :=
  set_receipt_outcome receipt Accepted code checkpoint
    (match checkpoint with Some _ => true | None => false end).

Definition rejected_admission (code : string) (observed_at_ms : N) (envelope_sha256 : string)
    (signed_manifest_sha256 key_id : option string) : PackageUpdateReceipt :=
  rejected_receipt
    (receipt_base StageManifestAdmission observed_at_ms (Some envelope_sha256)
       signed_manifest_sha256 key_id None None)
    code.

(** ** Field syntax

    Validation of tokens, package names, digests, integers, HTTPS origins and
    URLs, in the order and with the error codes of the source. *)

Definition new_error (code message : string) : PackageUpdateError :=
  mkPackageUpdateError code message.

Definition validate_jcs_integers (values : list N) : result PackageUpdateError unit :=
  fail_if (existsb (fun value => MAX_JCS_SAFE_INTEGER <? value) values)
    (new_error "integer_out_of_jcs_range"
       "signed and receipt integers must fit the RFC 8785 I-JSON safe range").

Definition token_error (field : string) : PackageUpdateError :=
  if (field =? "key_id")%string
  then new_error "invalid_key_id" "key id is not a bounded canonical token"
  else if (field =? "manifest_id")%string
  then new_error "invalid_manifest_id" "manifest id is not a bounded canonical token"
  else if (field =? "rollout_ring")%string
  then new_error "invalid_rollout_ring" "rollout ring is not a bounded canonical token"
  else if (field =? "version_name")%string
  then new_error "invalid_version_name" "version name is not a bounded canonical token"
  else new_error "invalid_token" "value is not a bounded canonical token".

Definition validate_token (field value : string) (minimum maximum : N)
    : result PackageUpdateError unit :=
  fail_if ((str_len value <? minimum) || (maximum <? str_len value) ||
           negb (all_bytes is_token_byte value))
    (token_error field).

(** [part.bytes().next().is_some_and(|byte| byte.is_ascii_lowercase())]. *)
Definition starts_lowercase (part : string) : bool :=
  match part with EmptyString => false | String a _ => is_ascii_lowercase (byte_of a) end.

Definition bad_package_part (part : string) : bool :=
  str_is_empty part || negb (starts_lowercase part) ||
  negb (all_bytes (fun b => is_ascii_lowercase b || is_ascii_digit b || (b =? 95)) part).

Definition validate_package_name (value : string) : result PackageUpdateError unit :=
  fail_if ((255 <? str_len value) || (str_len value <? 3) || negb (contains_byte 46 value) ||
           existsb bad_package_part (split_on 46 value))
    (new_error "invalid_package_name" "package name is not a canonical Android application id").

Definition validate_sha256_identity (value : string) : result PackageUpdateError unit :=
  hex ← ok_or (strip_prefix "sha256:" value)
          (new_error "invalid_sha256"
             "SHA-256 identity must use the sha256: lowercase hexadecimal form");
  fail_if (negb (str_len hex =? 64) || negb (all_bytes is_lower_hex hex))
    (new_error "invalid_sha256"
       "SHA-256 identity must contain exactly 64 lowercase hexadecimal digits").

(** ** HTTPS origins and URLs *)

(** [find(['/', '?', '#'])]. *)
Definition is_authority_end (b : N) : bool := (b =? 47) || (b =? 63) || (b =? 35).

Definition bad_host_label (label : string) : bool :=
  str_is_empty label || starts_with_byte 45 label || ends_with_byte 45 label ||
  negb (all_bytes (fun b => is_ascii_alphanumeric b || (b =? 45)) label).

(** The host and optional port of an authority; [None] is the early return. *)
Definition split_authority (authority : string) : option (string * option string) :=
  if starts_with_byte 91 authority then
    close ← find_byte (N.eqb 93) authority;
    let host := str_take (S close) authority in
    let suffix := str_drop (S close) authority in
    if str_is_empty suffix then Some (host, None)
    else port ← strip_prefix ":" suffix; Some (host, Some port)
  else match rsplit_once 58 authority with
       | Some (host, port) => if contains_byte 58 host then None else Some (host, Some port)
       | None => Some (authority, None)
       end.

Definition bad_host (host : string) : bool :=
  str_is_empty host || negb (host =? to_ascii_lowercase host)%string ||
  (negb (starts_with_byte 91 host) && existsb bad_host_label (split_on 46 host)).

Definition canonical_https_origin (url : string) : option string :=
  if negb (is_ascii url) || negb (starts_with "https://" url) || contains_byte 92 url then None
  else
    let rest := str_drop 8 url in
    let stop := default (String.length rest) (find_byte is_authority_end rest) in
    let authority := str_take stop rest in
    if str_is_empty authority || contains_byte 64 authority then None
    else
      '(host, port) ← split_authority authority;
      if bad_host host then None
      else match port with
           | Some _ => None
           | None => Some ("https://" ++ host)%string
           end.

Definition url_has_exact_origin (url expected_origin : string) : bool :=
  bool_decide (canonical_https_origin url = Some expected_origin).

Definition validate_https_origin (origin : string) : result PackageUpdateError unit :=
  fail_if (negb (bool_decide (canonical_https_origin origin = Some origin)))
    (new_error "invalid_https_origin"
       "origin must be canonical HTTPS scheme and host without an explicit port").

Definition validate_https_url (url : string) : result PackageUpdateError unit :=
  fail_if ((2048 <? str_len url) || negb (is_ascii url) || contains_byte 92 url ||
           contains_byte 35 url || contains_byte 63 url || contains_byte 37 url ||
           any_byte (fun b => is_ascii_control b || (b =? 32)) url ||
           negb (starts_with "https://" url) ||
           match canonical_https_origin url with None => true | Some _ => false end)
    (new_error "invalid_apk_url"
       "APK URL must be a bounded absolute HTTPS URL without fragment or userinfo") ;;
  let after_scheme := str_drop 8 url in
  path_start ← ok_or (find_byte is_authority_end after_scheme)
    (new_error "invalid_apk_url" "APK URL must contain an absolute nonempty path");
  fail_if (negb (starts_with_byte 47 (str_drop path_start after_scheme)))
    (new_error "invalid_apk_url" "APK URL must contain an absolute path before any query") ;;
  let path := str_drop path_start after_scheme in
  fail_if ((path =? "/")%string || starts_with "//" path || contains_str "//" path ||
           existsb (fun segment => (segment =? ".")%string || (segment =? "..")%string)
             (split_on 47 path))
    (new_error "invalid_apk_url" "APK URL path must be canonical, nonempty, and must not traverse").

(** ** Characterisation of origins *)

(** What follows the authority: nothing, or a path, query or fragment. *)
Definition after_authority (tail : string) : Prop :=
  tail = EmptyString ∨ ∃ a t, tail = String a t ∧ is_authority_end (byte_of a) = true.

Definition origin_host (host : string) : Prop :=
  host ≠ EmptyString ∧ any_byte is_authority_end host = false ∧ contains_byte 64 host = false ∧
  split_authority host = Some (host, None) ∧ bad_host host = false.

Lemma find_byte_length p s n : find_byte p s = Some n → String.length (str_take n s) = n.
Proof.
  revert n. induction s as [|a s IH]; cbn; [done|]. intros n.
  destruct (p (byte_of a)); [by intros [= <-]|].
  destruct (find_byte p s) as [m|]; cbn; [|done]. intros [= <-]. cbn. by rewrite IH.
Qed.

Lemma split_authority_no_port a h : split_authority a = Some (h, None) → h = a.
Proof.
  unfold split_authority. destruct (starts_with_byte 91 a).
  - destruct (find_byte (N.eqb 93) a) as [close|]; cbn [mbind option_bind]; [|done].
    destruct (str_is_empty (str_drop (S close) a)) eqn:Es.
    + intros [= <-]. destruct (str_drop (S close) a) eqn:Ed; [|done].
      pose proof (take_drop_str (S close) a) as Ht. rewrite Ed, str_app_nil_r in Ht. exact Ht.
    + by destruct (strip_prefix ":" _).
  - destruct (rsplit_once 58 a) as [[hh pp]|]; [|congruence]. by destruct (contains_byte 58 hh).
Qed.

Lemma cut_authority rest :
  let stop := default (String.length rest) (find_byte is_authority_end rest) in
  any_byte is_authority_end (str_take stop rest) = false ∧
  after_authority (str_drop stop rest).
Proof.
  cbv zeta. destruct (find_byte is_authority_end rest) as [n|] eqn:F; cbn [default from_option id].
  - apply find_byte_Some in F as [H1 (a & r & H2 & H3)]. split; [done|]. right. eauto.
  - apply find_byte_None in F. rewrite str_take_ge by done. split; [done|]. left.
    pose proof (take_drop_str (String.length rest) rest) as Ht. rewrite str_take_ge in Ht by done.
    apply (str_app_inj_l rest). by rewrite Ht, str_app_nil_r.
Qed.

Lemma cut_authority_app host tail :
  any_byte is_authority_end host = false → after_authority tail →
  let stop := default (String.length (host ++ tail)) (find_byte is_authority_end (host ++ tail)) in
  str_take stop (host ++ tail) = host.
Proof.
  intros Hh Ht. cbv zeta. rewrite find_byte_app_l by done.
  destruct Ht as [->|(a & t & -> & Ha)]; cbn [find_byte fmap option_fmap option_map].
  - cbn [default from_option id]. rewrite str_app_nil_r. by apply str_take_ge.
  - rewrite Ha. cbn. rewrite Nat.add_0_r. by apply str_take_app.
Qed.

Lemma https_prefix_bytes host tail :
  is_ascii ("https://" ++ host ++ tail) = is_ascii host && is_ascii tail ∧
  contains_byte 92 ("https://" ++ host ++ tail) = contains_byte 92 host || contains_byte 92 tail.
Proof.
  unfold is_ascii, contains_byte. rewrite !all_bytes_app, !any_byte_app. split; reflexivity.
Qed.

(** An accepted URL is [https://], a host, and a tail that cannot extend the
    host; the origin is exactly the scheme and that host. *)
Lemma canonical_https_origin_iff url o :
  canonical_https_origin url = Some o ↔
  ∃ host tail, url = ("https://" ++ host ++ tail)%string ∧ o = ("https://" ++ host)%string ∧
    is_ascii url = true ∧ contains_byte 92 url = false ∧ origin_host host ∧ after_authority tail.
Proof.
  unfold canonical_https_origin. split.
  - destruct (negb (is_ascii url) || negb (starts_with "https://" url) || contains_byte 92 url) eqn:G;
      [done|]. apply orb_false_iff in G as [[G1 G2]%orb_false_iff G3].
    apply negb_false_iff in G1, G2. apply starts_with_strip in G2 as [rest ->].
    rewrite (str_drop_app 8 "https://" rest) by done.
    pose proof (cut_authority rest) as [C1 C2].
    set (stop := default (String.length rest) (find_byte is_authority_end rest)) in *. clearbody stop.
    pose proof (take_drop_str stop rest) as Ht.
    set (auth := str_take stop rest) in *. set (tail := str_drop stop rest) in *.
    clearbody auth tail. subst rest.
    destruct (str_is_empty auth || contains_byte 64 auth) eqn:E; [done|].
    apply orb_false_iff in E as [E1 E2].
    destruct (split_authority auth) as [[host port]|] eqn:S; cbn; [|done].
    destruct (bad_host host) eqn:B; [done|]. destruct port; [done|]. intros [= <-].
    pose proof (split_authority_no_port _ _ S) as ->.
    exists auth, tail. split_and!; try done. split_and!; try done. by intros ->.
  - intros (host & tail & -> & -> & H1 & H2 & (Hne & Hend & Hat & Hs & Hb) & Ht).
    rewrite H1, H2. replace (starts_with "https://" ("https://" ++ host ++ tail)) with true
      by (symmetry; apply starts_with_strip; eauto).
    cbn [negb orb]. rewrite (str_drop_app 8 "https://" (host ++ tail)) by done.
    rewrite cut_authority_app by done. rewrite Hat, Hs, orb_false_r.
    destruct host; [done|]. cbn [str_is_empty]. cbn. by rewrite Hb.
Qed.

Lemma origin_host_ascii url host tail :
  url = ("https://" ++ host ++ tail)%string → is_ascii url = true → contains_byte 92 url = false →
  is_ascii host = true ∧ contains_byte 92 host = false.
Proof.
  intros -> H1 H2. destruct (https_prefix_bytes host tail) as [E1 E2].
  rewrite E1 in H1. rewrite E2 in H2. by apply andb_true_iff in H1 as [? _]; apply orb_false_iff in H2 as [? _].
Qed.

(** The canonical origin of a URL is its own canonical origin. *)
Lemma canonical_https_origin_idem url o :
  canonical_https_origin url = Some o → canonical_https_origin o = Some o.
Proof.
  rewrite !canonical_https_origin_iff. intros (host & tail & -> & -> & H1 & H2 & Hh & Ht).
  destruct (origin_host_ascii _ host tail eq_refl H1 H2) as [A1 A2].
  exists host, EmptyString. rewrite str_app_nil_r. split; [done|]. split; [done|].
  split; [|split; [|split; [done|by left]]].
  all: by unfold is_ascii, contains_byte in *; rewrite ?all_bytes_app, ?any_byte_app, ?A1, ?A2.
Qed.

(** Appending a path to a canonical origin keeps that origin. *)
Lemma canonical_https_origin_path o path :
  canonical_https_origin o = Some o → is_ascii path = true → contains_byte 92 path = false →
  starts_with_byte 47 path = true → canonical_https_origin (o ++ path) = Some o.
Proof.
  rewrite !canonical_https_origin_iff. intros (host & tail & -> & Ho & H1 & H2 & Hh & _) P1 P2 P3.
  apply str_app_inj_l in Ho.
  assert (tail = EmptyString) as -> by (apply (str_app_inj_l host); by rewrite Ho, str_app_nil_r).
  rewrite str_app_nil_r in *. destruct path as [|a path]; [done|].
  exists host, (String a path). rewrite str_app_assoc. split; [done|]. split; [done|].
  split; [|split; [|split; [done|]]].
  - unfold is_ascii in *. rewrite all_bytes_app in H1 |- *. rewrite all_bytes_app.
    apply andb_true_iff in H1 as [-> ->]. by rewrite P1.
  - unfold contains_byte in *. rewrite any_byte_app in H2 |- *. rewrite any_byte_app.
    apply orb_false_iff in H2 as [-> ->]. by rewrite P2.
  - right. exists a, path. split; [done|]. cbn in P3. unfold is_authority_end. by rewrite P3.
Qed.


(** A bracketed host is only lowercased: its contents are not inspected. *)
Example bracketed_origin_accepted :
  validate_https_origin "https://[ not an address! ]" = Ok tt.
Proof. vm_compute. reflexivity. Qed.
