(* ===== verification/UpdateRollback.v ===== *)
(** * Package updater: anti-rollback state

    [PackageUpdateRollbackState]: validation, lookup and update of the
    checkpoint list; the list refines a finite map from the closed tuple
    (channel, package, ring, signer, key id, public key, origin) to its
    checkpoint. *)

From S2P Require Import Prelude RustStr Base64Url UpdateModel.
From Stdlib Require Import Sorting.Sorted.

Local Open Scope N_scope.

(** ** Operations *)

(** The seven components of the closed tuple, in the order the code compares
    them. *)
Definition checkpoint_key (checkpoint : PackageUpdateCheckpoint) : list string :=
  [cp_channel checkpoint; cp_package_name checkpoint; cp_rollout_ring checkpoint;
   cp_signer_sha256 checkpoint; cp_key_id checkpoint; cp_public_key checkpoint;
   cp_https_origin checkpoint].

(** The per-checkpoint part of the loop body of [validate]. *)
Definition validate_checkpoint (checkpoint : PackageUpdateCheckpoint) : result PackageUpdateError unit :=
  validate_package_name (cp_package_name checkpoint) ;;
  validate_token "channel" (cp_channel checkpoint) 1 32 ;;
  validate_token "rollout_ring" (cp_rollout_ring checkpoint) 1 32 ;;
  validate_sha256_identity (cp_signer_sha256 checkpoint) ;;
  validate_token "key_id" (cp_key_id checkpoint) 1 96 ;;
  public_key ← decode_base64url_canonical (cp_public_key checkpoint);
  fail_if (negb (len public_key =? 32))
    (new_error "invalid_rollback_checkpoint" "rollback public key must contain exactly 32 bytes") ;;
  validate_https_origin (cp_https_origin checkpoint) ;;
  validate_sha256_identity (cp_signed_manifest_sha256 checkpoint) ;;
  fail_if ((cp_sequence checkpoint =? 0) || (cp_version_code checkpoint =? 0))
    (new_error "invalid_rollback_checkpoint" "rollback sequence and version must be positive") ;;
  validate_jcs_integers [cp_sequence checkpoint; cp_version_code checkpoint].

(** [prior_key.as_ref().is_some_and(|prior| prior >= &key)]. *)
Definition not_after (prior_key : option (list string)) (key : list string) : bool :=
  match prior_key with
  | None => false
  | Some prior => match lex_compare prior key with Lt => false | _ => true end
  end.

(** The loop of [validate] over the remaining checkpoints. *)
Fixpoint validate_loop (prior_key : option (list string)) (seen : gset (list string))
    (checkpoints : list PackageUpdateCheckpoint) : result PackageUpdateError unit :=
  match checkpoints with
  | [] => Ok tt
  | checkpoint :: rest =>
      validate_checkpoint checkpoint ;;
      let key := checkpoint_key checkpoint in
      fail_if (not_after prior_key key || bool_decide (key ∈ seen))
        (new_error "noncanonical_rollback_state"
           "rollback checkpoints must be a strict full-tuple sorted set") ;;
      validate_loop (Some key) ({[ key ]} ∪ seen) rest
  end.

Definition rollback_validate (state : PackageUpdateRollbackState) : result PackageUpdateError unit :=
  fail_if (negb (rs_schema state =? ROLLBACK_STATE_SCHEMA)%string)
    (new_error "wrong_rollback_state_schema" "rollback state schema is not supported") ;;
  validate_loop None ∅ (rs_checkpoints state).

(** The seven equalities of the [find] closures of [checkpoint] and [apply]. *)
Definition matches_tuple (channel package_name rollout_ring signer_sha256 key_id public_key
    https_origin : string) (checkpoint : PackageUpdateCheckpoint) : bool :=
  (cp_channel checkpoint =? channel)%string &&
  (cp_package_name checkpoint =? package_name)%string &&
  (cp_rollout_ring checkpoint =? rollout_ring)%string &&
  (cp_signer_sha256 checkpoint =? signer_sha256)%string &&
  (cp_key_id checkpoint =? key_id)%string &&
  (cp_public_key checkpoint =? public_key)%string &&
  (cp_https_origin checkpoint =? https_origin)%string.

Definition rollback_checkpoint (state : PackageUpdateRollbackState)
    (channel package_name rollout_ring signer_sha256 key_id public_key https_origin : string)
    : option PackageUpdateCheckpoint :=
  List.find (matches_tuple channel package_name rollout_ring signer_sha256 key_id public_key
               https_origin) (rs_checkpoints state).

(** [iter_mut().find(p)] followed by [*existing = x]: replaces the first match,
    [None] when there is none. *)
Fixpoint replace_first {A} (p : A → bool) (x : A) (l : list A) : option (list A) :=
  match l with
  | [] => None
  | y :: l' => if p y then Some (x :: l') else cons y <$> replace_first p x l'
  end.

Definition compare_checkpoints (left right : PackageUpdateCheckpoint) : comparison :=
  lex_compare (checkpoint_key left) (checkpoint_key right).

Definition rollback_apply (checkpoint : PackageUpdateCheckpoint) (state : PackageUpdateRollbackState)
    : PackageUpdateRollbackState :=
  mkRollbackState (rs_schema state)
    (match replace_first
             (matches_tuple (cp_channel checkpoint) (cp_package_name checkpoint)
                (cp_rollout_ring checkpoint) (cp_signer_sha256 checkpoint) (cp_key_id checkpoint)
                (cp_public_key checkpoint) (cp_https_origin checkpoint))
             checkpoint (rs_checkpoints state) with
     | Some replaced => replaced
     | None => sort_by compare_checkpoints (rs_checkpoints state ++ [checkpoint])
     end).

(** ** Abstract view: a finite map from the closed tuple to its checkpoint *)

Definition rollback_map (state : PackageUpdateRollbackState) : gmap (list string) PackageUpdateCheckpoint :=
  list_to_map ((fun c => (checkpoint_key c, c)) <$> rs_checkpoints state).

(** Strictly increasing keys and well-formed checkpoints. *)
Definition checkpoints_sorted (l : list PackageUpdateCheckpoint) : Prop :=
  StronglySorted (fun a b => lex_lt (checkpoint_key a) (checkpoint_key b)) l.

Definition rollback_valid (state : PackageUpdateRollbackState) : Prop :=
  rs_schema state = ROLLBACK_STATE_SCHEMA ∧
  Forall (fun c => validate_checkpoint c = Ok tt) (rs_checkpoints state) ∧
  checkpoints_sorted (rs_checkpoints state).

(** ** Lemmas *)

Lemma matches_tuple_key c d :
  matches_tuple (cp_channel c) (cp_package_name c) (cp_rollout_ring c) (cp_signer_sha256 c)
    (cp_key_id c) (cp_public_key c) (cp_https_origin c) d = true ↔
  checkpoint_key d = checkpoint_key c.
Proof.
  unfold matches_tuple, checkpoint_key. rewrite !andb_true_iff, !String.eqb_eq.
  split; [by intros [[[[[[-> ->] ->] ->] ->] ->] ->]|by intros [=]].
Qed.

Lemma matches_tuple_iff ch pk rr sg ki pu ho d :
  matches_tuple ch pk rr sg ki pu ho d = true ↔ checkpoint_key d = [ch; pk; rr; sg; ki; pu; ho].
Proof.
  apply (matches_tuple_key (mkCheckpoint ch pk rr sg ki pu ho 0 0 "") d).
Qed.

Lemma not_after_iff prior key :
  not_after prior key = false ↔ match prior with None => True | Some p => lex_lt p key end.
Proof.
  destruct prior as [p|]; cbn; [|done]. unfold lex_lt. by destruct (lex_compare p key).
Qed.

(** The [seen] set never rejects anything the order test accepts: the keys seen
    so far are below the prior key. *)
Lemma validate_loop_iff prior seen l :
  (∀ k, k ∈ seen → ∃ p, prior = Some p ∧ (k = p ∨ lex_lt k p)) →
  validate_loop prior seen l = Ok tt ↔
  Forall (fun c => validate_checkpoint c = Ok tt) l ∧ checkpoints_sorted l ∧
  Forall (fun c => match prior with None => True | Some p => lex_lt p (checkpoint_key c) end) l.
Proof.
  revert prior seen. induction l as [|c l IH]; intros prior seen Hseen; cbn [validate_loop].
  { split; [|done]. intros _. split_and!; constructor. }
  rewrite bind_ok, !Forall_cons. split.
  - intros ([] & Hc & [Hg Hl]%fail_if_bind_ok). apply orb_false_iff in Hg as [Hp _].
    apply not_after_iff in Hp. apply IH in Hl.
    + destruct Hl as (H1 & H2 & H3). split_and!; try done.
      * by constructor.
      * eapply Forall_impl; [exact H3|]. cbn. intros d Hd. destruct prior; [|done]. by etrans.
    + intros k [->%elem_of_singleton|Hk]%elem_of_union; [eauto|].
      destruct (Hseen k Hk) as (p & -> & Hkp). eexists; split; [done|]. right.
      destruct Hkp as [->|Hkp]; [done|by etrans].
  - intros ([Hc Hcs] & Hs & [Hp Hps]). inversion Hs as [|? ? Hsl Hcl]; subst.
    exists tt. split; [done|]. apply fail_if_bind_ok. split.
    + apply orb_false_iff. split; [by apply not_after_iff|].
      apply bool_decide_eq_false. intros Hk. destruct (Hseen _ Hk) as (p & -> & Hkp).
      destruct Hkp as [Heq|Hkp].
      * rewrite Heq in Hp. by eapply lex_lt_irrefl.
      * eapply lex_lt_irrefl, lex_lt_trans; done.
    + apply IH.
      * intros k [->%elem_of_singleton|Hk]%elem_of_union; [eauto|].
        destruct (Hseen k Hk) as (p & -> & Hkp). eexists; split; [done|]. right.
        destruct Hkp as [->|Hkp]; [done|by etrans].
      * split_and!; done.
Qed.

Lemma rollback_validate_iff state : rollback_validate state = Ok tt ↔ rollback_valid state.
Proof.
  unfold rollback_validate, rollback_valid. rewrite fail_if_bind_ok, negb_false_iff, String.eqb_eq.
  rewrite validate_loop_iff by (intros k []%not_elem_of_empty).
  split; [naive_solver|]. intros (-> & H1 & H2). split_and!; try done. by apply Forall_true.
Qed.

(** *** Lookup, update and the finite map *)

Lemma sorted_keys_NoDup l : checkpoints_sorted l → NoDup (checkpoint_key <$> l).
Proof.
  induction 1 as [|c l _ IH Hc]; [constructor|]. rewrite fmap_cons. constructor; [|done].
  intros (d & Hd & Hin)%list_elem_of_fmap. rewrite Forall_forall in Hc.
  specialize (Hc d Hin). rewrite Hd in Hc. by eapply lex_lt_irrefl.
Qed.

Lemma rollback_map_keys l :
  ((fun c => (checkpoint_key c, c)) <$> l).*1 = checkpoint_key <$> l.
Proof. by rewrite <- list_fmap_compose. Qed.

(** The linear search of the code is the map lookup. *)
Lemma find_map_lookup (l : list PackageUpdateCheckpoint) ch pk rr sg ki pu ho :
  List.find (matches_tuple ch pk rr sg ki pu ho) l =
  (list_to_map ((fun c => (checkpoint_key c, c)) <$> l) : gmap (list string) _)
    !! [ch; pk; rr; sg; ki; pu; ho].
Proof.
  induction l as [|c l IH]; [done|]. rewrite fmap_cons, list_to_map_cons. cbn [List.find].
  destruct (matches_tuple ch pk rr sg ki pu ho c) eqn:M.
  - apply matches_tuple_iff in M. rewrite M. by rewrite lookup_insert_eq.
  - rewrite IH. symmetry. apply lookup_insert_ne. intros Hk.
    apply (matches_tuple_iff ch pk rr sg ki pu ho) in Hk. congruence.
Qed.

Lemma replace_first_None {A} (p : A → bool) x l :
  replace_first p x l = None ↔ Forall (fun y => p y = false) l.
Proof.
  induction l as [|y l IH]; cbn; [split; [constructor|done]|]. rewrite Forall_cons.
  destruct (p y); [split; [done|by intros [? _]]|].
  rewrite fmap_None, IH. naive_solver.
Qed.

Lemma replace_first_Some {A} (p : A → bool) x l l' :
  replace_first p x l = Some l' →
  ∃ l1 y l2, l = l1 ++ y :: l2 ∧ l' = l1 ++ x :: l2 ∧ p y = true ∧ Forall (fun z => p z = false) l1.
Proof.
  revert l'. induction l as [|y l IH]; cbn; [done|]. intros l'. destruct (p y) eqn:Py.
  - intros [= <-]. exists [], y, l. by split_and!.
  - intros (l'' & Hl & ->)%fmap_Some. destruct (IH _ Hl) as (l1 & z & l2 & -> & -> & Hz & Hf).
    exists (y :: l1), z, l2. split_and!; try done; by constructor.
Qed.

Lemma sorted_insert_sorted c l :
  checkpoints_sorted l → Forall (fun d => checkpoint_key d ≠ checkpoint_key c) l →
  checkpoints_sorted (sorted_insert compare_checkpoints c l).
Proof.
  unfold checkpoints_sorted.
  induction 1 as [|d l Hs IH Hd]; intros Hne; cbn [sorted_insert].
  { repeat constructor. }
  apply Forall_cons in Hne as [Hdc Hne]. destruct (compare_checkpoints c d) eqn:C.
  - apply lex_compare_eq in C. congruence.
  - constructor; [by constructor|]. constructor; [done|].
    eapply Forall_impl; [exact Hd|]. cbn. intros e He. by eapply lex_lt_trans.
  - apply lex_compare_gt in C. constructor; [by apply IH|].
    rewrite sorted_insert_perm. by constructor.
Qed.

Lemma sort_append_sorted c l :
  checkpoints_sorted l → Forall (fun d => checkpoint_key d ≠ checkpoint_key c) l →
  checkpoints_sorted (sort_by compare_checkpoints (l ++ [c])).
Proof.
  unfold checkpoints_sorted, sort_by.
  induction 1 as [|d l Hs IH Hd]; intros Hne; cbn [app foldr].
  { repeat constructor. }
  apply Forall_cons in Hne as [Hdc Hne]. apply sorted_insert_sorted; [by apply IH|].
  fold (sort_by compare_checkpoints (l ++ [c])). rewrite sort_by_perm.
  apply Forall_app. split; [|by constructor].
  eapply Forall_impl; [exact Hd|]. cbn. intros e He Heq. rewrite Heq in He. by eapply lex_lt_irrefl.
Qed.

Lemma replace_sorted l1 c d l2 :
  checkpoint_key c = checkpoint_key d →
  checkpoints_sorted (l1 ++ d :: l2) → checkpoints_sorted (l1 ++ c :: l2).
Proof.
  intros Hk. unfold checkpoints_sorted. induction l1 as [|e l1 IH]; cbn.
  - intros [Hs Hd]%StronglySorted_inv. constructor; [done|]. by rewrite Hk.
  - intros [Hs He]%StronglySorted_inv. constructor; [by apply IH|].
    apply Forall_app in He as [H1 H2]. apply Forall_app. split; [done|].
    apply Forall_cons in H2 as [H2 H3]. constructor; [by rewrite Hk|done].
Qed.

(** [apply] keeps the persisted state valid. *)
Lemma rollback_apply_valid c state :
  validate_checkpoint c = Ok tt → rollback_valid state → rollback_valid (rollback_apply c state).
Proof.
  intros Hc (Hsch & Hwf & Hs). unfold rollback_apply.
  destruct (replace_first _ c (rs_checkpoints state)) as [l'|] eqn:R.
  - apply replace_first_Some in R as (l1 & d & l2 & Hl & -> & Hd & _).
    apply matches_tuple_key in Hd. split_and!; [done|..]; cbn.
    + rewrite Hl in Hwf. apply Forall_app in Hwf as [H1 H2]. apply Forall_cons in H2 as [_ H2].
      apply Forall_app. split; [done|by constructor].
    + rewrite Hl in Hs. by eapply replace_sorted.
  - apply replace_first_None in R. split_and!; [done|..]; cbn.
    + rewrite sort_by_perm. apply Forall_app. split; [done|by constructor].
    + apply sort_append_sorted; [done|]. eapply Forall_impl; [exact R|]. cbn.
      intros d Hd Hk. apply matches_tuple_key in Hk. congruence.
Qed.

(** [apply] refines map insertion at the checkpoint's tuple. *)
Lemma rollback_apply_map c state :
  rollback_valid state →
  rollback_map (rollback_apply c state) = <[checkpoint_key c := c]> (rollback_map state).
Proof.
  intros (_ & _ & Hs). unfold rollback_map, rollback_apply. cbn.
  destruct (replace_first _ c (rs_checkpoints state)) as [l'|] eqn:R.
  - apply replace_first_Some in R as (l1 & d & l2 & Hl & -> & Hd & Hf).
    apply matches_tuple_key in Hd. rewrite Hl in Hs |- *. clear Hl.
    induction l1 as [|e l1 IH]; cbn.
    + rewrite Hd. by rewrite insert_insert_eq.
    + apply StronglySorted_inv in Hs as [Hs He]. apply Forall_cons in Hf as [_ Hf].
      rewrite IH by done. apply insert_insert_ne. intros Hk.
      apply Forall_app in He as [_ He]. apply Forall_cons in He as [He _].
      rewrite Hd, Hk in He. by eapply lex_lt_irrefl.
  - apply replace_first_None in R.
    assert (Hnd : NoDup (checkpoint_key <$> sort_by compare_checkpoints (rs_checkpoints state ++ [c]))).
    { apply sorted_keys_NoDup, sort_append_sorted; [done|].
      eapply Forall_impl; [exact R|]. cbn. intros d Hd Hk. apply matches_tuple_key in Hk. congruence. }
    rewrite (list_to_map_proper _ ((fun c => (checkpoint_key c, c)) <$> (c :: rs_checkpoints state))).
    + done.
    + by rewrite rollback_map_keys.
    + apply fmap_Permutation. rewrite sort_by_perm. by rewrite Permutation_app_comm.
Qed.

Lemma rollback_checkpoint_map state ch pk rr sg ki pu ho :
  rollback_checkpoint state ch pk rr sg ki pu ho = rollback_map state !! [ch; pk; rr; sg; ki; pu; ho].
Proof. apply find_map_lookup. Qed.

Lemma rollback_default_valid : rollback_valid rollback_state_default.
Proof. split_and!; [done|constructor..]. Qed.

Lemma rollback_map_valid state k c :
  rollback_valid state → rollback_map state !! k = Some c →
  checkpoint_key c = k ∧ validate_checkpoint c = Ok tt.
Proof.
  intros (_ & Hwf & _) Hk. apply elem_of_list_to_map_2 in Hk.
  apply list_elem_of_fmap in Hk as (d & [= -> ->] & Hd). split; [done|].
  rewrite Forall_forall in Hwf. by apply Hwf.
Qed.
