(* ===== verification/UpdateAdmission.v ===== *)
(** * Package updater: registry, policy, admission and install commit

    The whole decision path of the package-updater crate: the release-key
    registry, the policy, [verify_manifest], [authenticate_manifest] and
    [commit_installed_apk]. Ed25519, SHA-256, JCS and the JSON parser are other
    crates: they are the operations of the class [ReleaseCrypto], and the
    documented behaviour the theorems rely on is the class
    [ReleaseCryptoLaws]. *)

From S2P Require Import Prelude RustStr Base64Url UpdateModel UpdateRollback.

Local Open Scope N_scope.

(** ** External code *)

Class ReleaseCrypto := {
  VerifyingKey : Type;
  (** [VerifyingKey::from_bytes], [to_bytes] and [verify_strict] of ed25519-dalek. *)
  vk_from_bytes : list N → option VerifyingKey;
  vk_to_bytes : VerifyingKey → list N;
  verify_strict : VerifyingKey → list N → list N → bool;
  (** [Sha256::digest]. *)
  sha256_digest : list N → list N;
  (** [serde_jcs::to_vec] on a manifest. *)
  jcs_to_vec : PackageUpdateManifest → option (list N);
  (** [serde_json::from_slice] at the envelope type. *)
  envelope_from_slice : list N → option PackageUpdateManifestEnvelope;
}.

Class ReleaseCryptoLaws {RC : ReleaseCrypto} : Prop := {
  (** A verifying key keeps the 32 bytes it was decoded from. *)
  vk_to_from bs k : vk_from_bytes bs = Some k → vk_to_bytes k = bs;
  (** A SHA-256 digest is 32 bytes. *)
  sha256_length bs : length (sha256_digest bs) = 32%nat;
  sha256_bytes bs : Forall is_u8 (sha256_digest bs);
}.

Section Updater.
Context {RC : ReleaseCrypto}.

(** ** Release-key registry *)

Record ReleaseKeyRegistry := mkRegistry {
  reg_keys : gmap string VerifyingKey;
}.

Definition registry_get (registry : ReleaseKeyRegistry) (key_id : string) : option VerifyingKey :=
  reg_keys registry !! key_id.

(** One iteration of the loop of [from_records] on [keys] and [key_material]. *)
Definition registry_step (keys : gmap string VerifyingKey) (key_material : gset (list N))
    (record : ReleaseKeyRecord)
    : result PackageUpdateError (gmap string VerifyingKey * gset (list N)) :=
  validate_token "key_id" (rec_key_id record) 1 96 ;;
  key_bytes ← decode_base64url_canonical (rec_public_key record);
  fail_if (negb (len key_bytes =? 32))
    (new_error "invalid_release_key" "release public key must contain exactly 32 bytes") ;;
  key ← ok_or (vk_from_bytes key_bytes)
          (new_error "invalid_release_key" "release public key is not a valid Ed25519 key");
  fail_if (bool_decide (is_Some (keys !! rec_key_id record)))
    (new_error "duplicate_release_key" "release key identifiers must be unique") ;;
  fail_if (bool_decide (key_bytes ∈ key_material))
    (new_error "duplicate_release_key_material"
       "one release public key must not be registered under multiple identifiers") ;;
  Ok (<[rec_key_id record := key]> keys, {[ key_bytes ]} ∪ key_material).

Fixpoint registry_loop (keys : gmap string VerifyingKey) (key_material : gset (list N))
    (records : list ReleaseKeyRecord) : result PackageUpdateError (gmap string VerifyingKey) :=
  match records with
  | [] => Ok keys
  | record :: rest =>
      '(keys', key_material') ← registry_step keys key_material record;
      registry_loop keys' key_material' rest
  end.

Definition from_records (records : list ReleaseKeyRecord) : result PackageUpdateError ReleaseKeyRegistry :=
  keys ← registry_loop ∅ ∅ records;
  fail_if (bool_decide (keys = ∅))
    (new_error "empty_release_key_registry" "at least one known release key is required") ;;
  Ok (mkRegistry keys).

(** ** Policy *)

Definition policy_validate (policy : PackageUpdatePolicy) : result PackageUpdateError unit :=
  validate_https_origin (pol_expected_https_origin policy) ;;
  fail_if (negb (pol_expected_site_base_path policy =? PACKAGE_UPDATE_LABS_SITE_BASE_PATH)%string)
    (new_error "invalid_site_base_path"
       "policy site base path must be the exact canonical rusty-quest project path") ;;
  validate_token "channel" (pol_expected_channel policy) 1 32 ;;
  validate_package_name (pol_expected_package_name policy) ;;
  validate_token "rollout_ring" (pol_expected_rollout_ring policy) 1 32 ;;
  validate_sha256_identity (pol_expected_signer_sha256 policy) ;;
  validate_token "key_id" (pol_expected_key_id policy) 1 96 ;;
  public_key ← decode_base64url_canonical (pol_expected_public_key policy);
  fail_if (negb (len public_key =? 32))
    (new_error "invalid_release_key" "policy release public key must contain exactly 32 bytes") ;;
  fail_if ((pol_minimum_target_version_code policy =? 0) ||
           (pol_maximum_target_version_code policy <? pol_minimum_target_version_code policy) ||
           (pol_maximum_apk_size_bytes policy =? 0) ||
           (pol_maximum_manifest_validity_ms policy =? 0) ||
           existsb (fun value => MAX_JCS_SAFE_INTEGER <? value)
             [pol_installed_version_code policy; pol_minimum_target_version_code policy;
              pol_maximum_target_version_code policy; pol_maximum_apk_size_bytes policy;
              pol_maximum_manifest_validity_ms policy; pol_maximum_future_issue_skew_ms policy])
    (new_error "invalid_policy"
       "version, size, and validity policy bounds must be positive and ordered").

(** ** Signed manifest *)

(** [format!("sha256:{:x}", Sha256::digest(bytes))]. *)
Definition sha256_identity (bytes : list N) : string :=
  ("sha256:" ++ hex_of_bytes (sha256_digest bytes))%string.

Definition canonicalization_failed : PackageUpdateError :=
  new_error "canonicalization_failed" "signed manifest could not be JCS canonicalized".

Definition canonical_signed_manifest (manifest : PackageUpdateManifest)
    : result PackageUpdateError (list N) :=
  ok_or (jcs_to_vec manifest) canonicalization_failed.

Definition manifest_signing_bytes (manifest : PackageUpdateManifest)
    : result PackageUpdateError (list N) :=
  canonical ← canonical_signed_manifest manifest;
  Ok (SIGNATURE_DOMAIN ++ canonical).

Definition validate_manifest_fields (manifest : PackageUpdateManifest)
    : result PackageUpdateError unit :=
  let artifact := man_artifact manifest in
  validate_token "manifest_id" (man_manifest_id manifest) 1 128 ;;
  validate_token "channel" (man_channel manifest) 1 32 ;;
  validate_token "rollout_ring" (man_rollout_ring manifest) 1 32 ;;
  fail_if (man_sequence manifest =? 0)
    (new_error "invalid_sequence" "manifest sequence must be positive") ;;
  validate_package_name (art_package_name artifact) ;;
  validate_token "version_name" (art_version_name artifact) 1 64 ;;
  fail_if (art_version_code artifact =? 0)
    (new_error "invalid_version" "target version code must be positive") ;;
  validate_sha256_identity (art_apk_sha256 artifact) ;;
  validate_sha256_identity (art_signer_sha256 artifact) ;;
  fail_if (art_apk_size_bytes artifact =? 0)
    (new_error "invalid_apk_size" "APK size must be positive") ;;
  validate_jcs_integers [man_sequence manifest; man_issued_at_ms manifest;
    man_expires_at_ms manifest; art_version_code artifact; art_apk_size_bytes artifact] ;;
  validate_https_url (art_apk_url artifact).

Definition unknown_release_key : PackageUpdateError :=
  new_error "unknown_release_key" "manifest key id is absent from the known-key registry".

Definition authenticate_parsed_envelope (envelope : PackageUpdateManifestEnvelope)
    (canonical : list N) (keys : ReleaseKeyRegistry) : result PackageUpdateError unit :=
  fail_if (negb (env_schema envelope =? ENVELOPE_SCHEMA)%string ||
           negb (man_schema (env_signed envelope) =? MANIFEST_SCHEMA)%string)
    (new_error "wrong_schema" "envelope or signed manifest schema is not supported") ;;
  fail_if (negb (env_algorithm envelope =? SIGNATURE_ALGORITHM)%string)
    (new_error "unsupported_algorithm" "only exact Ed25519 signatures are supported") ;;
  validate_token "key_id" (env_key_id envelope) 1 96 ;;
  validate_manifest_fields (env_signed envelope) ;;
  key ← ok_or (registry_get keys (env_key_id envelope)) unknown_release_key;
  signature ← decode_base64url_canonical (env_signature envelope);
  fail_if (negb (len signature =? 64))
    (new_error "invalid_signature_encoding" "Ed25519 signature must contain exactly 64 bytes") ;;
  fail_if (negb (verify_strict key (SIGNATURE_DOMAIN ++ canonical) signature))
    (new_error "signature_verification_failed"
       "manifest signature does not verify under the selected release key").

Definition validate_time (manifest : PackageUpdateManifest) (policy : PackageUpdatePolicy)
    (now_ms : N) : result PackageUpdateError unit :=
  validity ← ok_or (checked_sub (man_expires_at_ms manifest) (man_issued_at_ms manifest))
    (new_error "invalid_validity_window" "manifest expiry must be later than issue time");
  fail_if ((validity =? 0) || (pol_maximum_manifest_validity_ms policy <? validity))
    (new_error "invalid_validity_window" "manifest validity exceeds the policy maximum") ;;
  fail_if (man_expires_at_ms manifest <=? now_ms)
    (new_error "manifest_expired" "manifest has expired") ;;
  let latest_issue := saturating_add64 now_ms (pol_maximum_future_issue_skew_ms policy) in
  fail_if (latest_issue <? man_issued_at_ms manifest)
    (new_error "manifest_from_future" "manifest issue time exceeds allowed clock skew").

(** The content-addressed Labs artifact URL. *)
Definition expected_apk_url (policy : PackageUpdatePolicy) (apk_digest version_name : string) : string :=
  (pol_expected_https_origin policy ++ "/" ++ pol_expected_site_base_path policy ++
   "/package-updates/rusty-kiosk/labs/artifacts/sha256/" ++ apk_digest ++
   "/rusty-kiosk-" ++ version_name ++ ".apk")%string.

Definition validate_policy (manifest : PackageUpdateManifest) (policy : PackageUpdatePolicy)
    : result PackageUpdateError unit :=
  let artifact := man_artifact manifest in
  fail_if (negb (man_channel manifest =? pol_expected_channel policy)%string)
    (new_error "channel_mismatch" "manifest channel does not match the closed channel tuple") ;;
  fail_if (negb (art_package_name artifact =? pol_expected_package_name policy)%string)
    (new_error "package_mismatch" "manifest package does not match the exact policy package") ;;
  fail_if (negb (man_rollout_ring manifest =? pol_expected_rollout_ring policy)%string)
    (new_error "rollout_ring_mismatch" "manifest rollout ring does not match the exact policy ring") ;;
  fail_if (negb (art_signer_sha256 artifact =? pol_expected_signer_sha256 policy)%string)
    (new_error "signer_mismatch" "APK signer does not match the exact policy signer") ;;
  fail_if ((art_version_code artifact <=? pol_installed_version_code policy) ||
           (art_version_code artifact <? pol_minimum_target_version_code policy) ||
           (pol_maximum_target_version_code policy <? art_version_code artifact))
    (new_error "version_policy_rejected"
       "target version is not a strictly newer version inside policy bounds") ;;
  fail_if (pol_maximum_apk_size_bytes policy <? art_apk_size_bytes artifact)
    (new_error "apk_size_policy_rejected" "APK exceeds the policy size limit") ;;
  fail_if (negb (url_has_exact_origin (art_apk_url artifact) (pol_expected_https_origin policy)))
    (new_error "origin_mismatch" "APK URL does not use the exact configured HTTPS origin") ;;
  apk_digest ← ok_or (strip_prefix "sha256:" (art_apk_sha256 artifact))
    (new_error "invalid_sha256" "APK SHA-256 identity is not canonical");
  fail_if (negb (art_apk_url artifact =?
                 expected_apk_url policy apk_digest (art_version_name artifact))%string)
    (new_error "apk_url_mismatch"
       "APK URL does not match the exact content-addressed Labs artifact path").

Definition validate_sequence (manifest : PackageUpdateManifest)
    (prior : option PackageUpdateCheckpoint) : result PackageUpdateError unit :=
  match prior with
  | None => Ok tt
  | Some prior =>
      fail_if (man_sequence manifest <=? cp_sequence prior)
        (new_error "sequence_rollback"
           "manifest sequence does not advance the persisted checkpoint") ;;
      fail_if (art_version_code (man_artifact manifest) <=? cp_version_code prior)
        (new_error "version_rollback" "target version does not advance the persisted checkpoint")
  end.

Definition validate_observed_apk (expected : PackageUpdateArtifact) (observed : ObservedApk)
    : result PackageUpdateError unit :=
  validate_package_name (obs_package_name observed) ;;
  validate_sha256_identity (obs_signer_sha256 observed) ;;
  validate_sha256_identity (obs_apk_sha256 observed) ;;
  validate_jcs_integers [obs_version_code observed; obs_apk_size_bytes observed] ;;
  fail_if (negb (obs_package_name observed =? art_package_name expected)%string)
    (new_error "observed_package_mismatch" "observed APK package differs from the signed manifest") ;;
  fail_if (negb (obs_version_code observed =? art_version_code expected))
    (new_error "observed_version_mismatch" "observed APK version differs from the signed manifest") ;;
  fail_if (negb (obs_signer_sha256 observed =? art_signer_sha256 expected)%string)
    (new_error "observed_signer_mismatch" "observed APK signer differs from the signed manifest") ;;
  fail_if (negb (obs_apk_sha256 observed =? art_apk_sha256 expected)%string)
    (new_error "observed_hash_mismatch" "observed APK hash differs from the signed manifest") ;;
  fail_if (negb (obs_apk_size_bytes observed =? art_apk_size_bytes expected))
    (new_error "observed_size_mismatch" "observed APK size differs from the signed manifest").

(** ** Admission *)

Definition verify_parsed_envelope (envelope : PackageUpdateManifestEnvelope)
    (canonical : option (list N)) (keys : ReleaseKeyRegistry) (policy : PackageUpdatePolicy)
    (rollback_state : PackageUpdateRollbackState) (now_ms : N) : result PackageUpdateError unit :=
  policy_validate policy ;;
  rollback_validate rollback_state ;;
  canonical ← ok_or canonical canonicalization_failed;
  authenticate_parsed_envelope envelope canonical keys ;;
  fail_if (negb (env_key_id envelope =? pol_expected_key_id policy)%string)
    (new_error "key_id_mismatch" "manifest key id does not match the closed channel tuple") ;;
  key ← ok_or (registry_get keys (env_key_id envelope)) unknown_release_key;
  fail_if (negb (encode_base64url (vk_to_bytes key) =? pol_expected_public_key policy)%string)
    (new_error "public_key_mismatch"
       "manifest verification key does not match the closed channel tuple") ;;
  validate_time (env_signed envelope) policy now_ms ;;
  validate_policy (env_signed envelope) policy ;;
  validate_sequence (env_signed envelope)
    (rollback_checkpoint rollback_state (man_channel (env_signed envelope))
       (art_package_name (man_artifact (env_signed envelope)))
       (man_rollout_ring (env_signed envelope))
       (art_signer_sha256 (man_artifact (env_signed envelope))) (env_key_id envelope)
       (pol_expected_public_key policy) (pol_expected_https_origin policy)).

Definition authenticate_manifest (envelope_json : list N) (keys : ReleaseKeyRegistry)
    : result PackageUpdateError PackageUpdateManifestEnvelope :=
  envelope ← ok_or (envelope_from_slice envelope_json)
    (new_error "malformed_envelope" "manifest envelope is malformed");
  canonical ← canonical_signed_manifest (env_signed envelope);
  authenticate_parsed_envelope envelope canonical keys ;;
  Ok envelope.

Definition verify_manifest (envelope_json : list N) (keys : ReleaseKeyRegistry)
    (policy : PackageUpdatePolicy) (rollback_state : PackageUpdateRollbackState) (now_ms : N)
    : ManifestAdmission :=
  let envelope_sha256 := sha256_identity envelope_json in
  if MAX_JCS_SAFE_INTEGER <? now_ms then
    mkAdmission (rejected_admission "observation_time_out_of_range" 0 envelope_sha256 None None) None
  else match envelope_from_slice envelope_json with
  | None => mkAdmission (rejected_admission "malformed_envelope" now_ms envelope_sha256 None None) None
  | Some envelope =>
      let canonical := jcs_to_vec (env_signed envelope) in
      let signed_digest := sha256_identity <$> canonical in
      let prior :=
        rollback_checkpoint rollback_state (man_channel (env_signed envelope))
          (art_package_name (man_artifact (env_signed envelope)))
          (man_rollout_ring (env_signed envelope))
          (art_signer_sha256 (man_artifact (env_signed envelope))) (env_key_id envelope)
          (pol_expected_public_key policy) (pol_expected_https_origin policy) in
      let base :=
        receipt_base StageManifestAdmission now_ms (Some envelope_sha256) signed_digest
          (Some (env_key_id envelope)) (Some (env_signed envelope)) prior in
      match verify_parsed_envelope envelope canonical keys policy rollback_state now_ms with
      | Ok _ =>
          mkAdmission (accepted_receipt base "manifest_accepted" None)
            (Some (mkVerified (env_key_id envelope) (pol_expected_public_key policy)
                     (pol_expected_https_origin policy)
                     (* [expect]: a verified envelope was canonicalized *)
                     (default EmptyString signed_digest) (env_signed envelope)))
      | Err error => mkAdmission (rejected_receipt base (err_code error)) None
      end
  end.

(** ** Install commit *)

(** [and_then] of the expiry closure. *)
Definition check_not_expired (manifest : PackageUpdateManifest) (observed_at_ms : N)
    : result PackageUpdateError unit :=
  fail_if (man_expires_at_ms manifest <=? observed_at_ms)
    (new_error "manifest_expired" "manifest expired before the installed APK was committed").

Definition verified_checkpoint (verified : VerifiedPackageUpdate) : PackageUpdateCheckpoint :=
  let manifest := ver_manifest verified in {|
    cp_channel := man_channel manifest;
    cp_package_name := art_package_name (man_artifact manifest);
    cp_rollout_ring := man_rollout_ring manifest;
    cp_signer_sha256 := art_signer_sha256 (man_artifact manifest);
    cp_key_id := ver_key_id verified;
    cp_public_key := ver_public_key verified;
    cp_https_origin := ver_https_origin verified;
    cp_sequence := man_sequence manifest;
    cp_version_code := art_version_code (man_artifact manifest);
    cp_signed_manifest_sha256 := ver_signed_manifest_sha256 verified;
  |}.

(** Returns the receipt and the rollback state after the call ([&mut]). *)
Definition commit_installed_apk (verified : VerifiedPackageUpdate) (observed : ObservedApk)
    (rollback_state : PackageUpdateRollbackState) (observed_at_ms : N)
    : PackageUpdateReceipt * PackageUpdateRollbackState :=
  let manifest := ver_manifest verified in
  let prior :=
    rollback_checkpoint rollback_state (man_channel manifest)
      (art_package_name (man_artifact manifest)) (man_rollout_ring manifest)
      (art_signer_sha256 (man_artifact manifest)) (ver_key_id verified)
      (ver_public_key verified) (ver_https_origin verified) in
  if MAX_JCS_SAFE_INTEGER <? observed_at_ms then
    (rejected_receipt
       (receipt_base StageInstallCommit 0 None (Some (ver_signed_manifest_sha256 verified))
          (Some (ver_key_id verified)) (Some manifest) prior)
       "observation_time_out_of_range", rollback_state)
  else
    let base :=
      receipt_base StageInstallCommit observed_at_ms None
        (Some (ver_signed_manifest_sha256 verified)) (Some (ver_key_id verified)) (Some manifest)
        prior in
    match
      rollback_validate rollback_state ;;
      check_not_expired manifest observed_at_ms ;;
      validate_observed_apk (man_artifact manifest) observed ;;
      validate_sequence manifest prior
    with
    | Err error => (rejected_receipt base (err_code error), rollback_state)
    | Ok _ =>
        let checkpoint := verified_checkpoint verified in
        (accepted_receipt base "install_committed" (Some checkpoint),
         rollback_apply checkpoint rollback_state)
    end.

End Updater.
