(* ===== verification/UpdateTheorems.v ===== *)
(** * Package updater: theorems

    Declarative specifications of admission and install commit, the proofs that
    the code implements them, and the anti-rollback property over every
    sequence of commits. *)

From S2P Require Import Prelude RustStr Base64Url UpdateModel UpdateRollback UpdateAdmission.

Local Open Scope N_scope.

(** ** Specifications *)

(** The time conditions of admission on exact integers. *)
Definition time_admissible (m : PackageUpdateManifest) (p : PackageUpdatePolicy) (now : N) : Prop :=
  man_issued_at_ms m < man_expires_at_ms m ∧
  man_expires_at_ms m - man_issued_at_ms m <= pol_maximum_manifest_validity_ms p ∧
  now < man_expires_at_ms m ∧
  man_issued_at_ms m <= now + pol_maximum_future_issue_skew_ms p.

(** The closed tuple of a manifest under a policy. *)
Definition manifest_key (m : PackageUpdateManifest) (key_id public_key origin : string) : list string :=
  [man_channel m; art_package_name (man_artifact m); man_rollout_ring m;
   art_signer_sha256 (man_artifact m); key_id; public_key; origin].

(** The exact-policy conditions: identity, version window, size and the
    content-addressed URL. *)
Definition policy_admissible (m : PackageUpdateManifest) (p : PackageUpdatePolicy) : Prop :=
  man_channel m = pol_expected_channel p ∧
  art_package_name (man_artifact m) = pol_expected_package_name p ∧
  man_rollout_ring m = pol_expected_rollout_ring p ∧
  art_signer_sha256 (man_artifact m) = pol_expected_signer_sha256 p ∧
  pol_installed_version_code p < art_version_code (man_artifact m) ∧
  pol_minimum_target_version_code p <= art_version_code (man_artifact m)
    <= pol_maximum_target_version_code p ∧
  art_apk_size_bytes (man_artifact m) <= pol_maximum_apk_size_bytes p ∧
  ∃ digest, art_apk_sha256 (man_artifact m) = ("sha256:" ++ digest)%string ∧
    art_apk_url (man_artifact m) = expected_apk_url p digest (art_version_name (man_artifact m)).

(** The manifest advances the checkpoint of its tuple, if there is one. *)
Definition advances (m : PackageUpdateManifest) (prior : option PackageUpdateCheckpoint) : Prop :=
  ∀ c, prior = Some c →
    cp_sequence c < man_sequence m ∧ cp_version_code c < art_version_code (man_artifact m).

Section Specs.
Context {RC : ReleaseCrypto}.

(** The signature covers the domain separator followed by the canonical
    manifest, under the registered key that the policy pins. *)
Definition signature_admissible (env : PackageUpdateManifestEnvelope) (keys : ReleaseKeyRegistry)
    (p : PackageUpdatePolicy) : Prop :=
  ∃ canonical key signature,
    jcs_to_vec (env_signed env) = Some canonical ∧
    registry_get keys (env_key_id env) = Some key ∧
    decode_base64url_canonical (env_signature env) = Ok signature ∧
    length signature = 64%nat ∧
    verify_strict key (SIGNATURE_DOMAIN ++ canonical) signature = true ∧
    encode_base64url (vk_to_bytes key) = pol_expected_public_key p.

Record admissible (env : PackageUpdateManifestEnvelope) (keys : ReleaseKeyRegistry)
    (p : PackageUpdatePolicy) (state : PackageUpdateRollbackState) (now : N) : Prop := {
  adm_policy_ok : policy_validate p = Ok tt;
  adm_state_ok : rollback_valid state;
  adm_schemas : env_schema env = ENVELOPE_SCHEMA ∧ man_schema (env_signed env) = MANIFEST_SCHEMA;
  adm_algorithm : env_algorithm env = SIGNATURE_ALGORITHM;
  adm_key_id : env_key_id env = pol_expected_key_id p;
  adm_fields : validate_manifest_fields (env_signed env) = Ok tt;
  adm_signature : signature_admissible env keys p;
  adm_time : time_admissible (env_signed env) p now;
  adm_identity : policy_admissible (env_signed env) p;
  adm_advances : advances (env_signed env)
    (rollback_map state !! manifest_key (env_signed env) (env_key_id env)
                             (pol_expected_public_key p) (pol_expected_https_origin p));
}.

End Specs.

(** ** Validators against their specifications *)

Lemma validate_sequence_iff m prior : validate_sequence m prior = Ok tt ↔ advances m prior.
Proof.
  unfold validate_sequence, advances. destruct prior as [c|]; [|naive_solver].
  rewrite fail_if_bind_ok, fail_if_ok, !N.leb_gt.
  split; [by intros ? ? [= <-]|]. intros H. by apply H.
Qed.

Lemma policy_bounds p : policy_validate p = Ok tt →
  canonical_https_origin (pol_expected_https_origin p) = Some (pol_expected_https_origin p) ∧
  pol_expected_site_base_path p = PACKAGE_UPDATE_LABS_SITE_BASE_PATH ∧
  validate_token "key_id" (pol_expected_key_id p) 1 96 = Ok tt ∧
  (∃ bs, decode_base64url_canonical (pol_expected_public_key p) = Ok bs ∧ length bs = 32%nat) ∧
  pol_maximum_future_issue_skew_ms p <= MAX_JCS_SAFE_INTEGER.
Proof.
  unfold policy_validate. intros H.
  apply then_ok in H as [Ho H]. apply fail_if_bind_ok in H as [Hs H].
  apply then_ok in H as [_ H]. apply then_ok in H as [_ H]. apply then_ok in H as [_ H].
  apply then_ok in H as [_ H]. apply then_ok in H as [Hk H].
  apply bind_ok in H as (bs & Hbs & H). apply fail_if_bind_ok in H as [Hlen H].
  apply fail_if_ok in H. unfold validate_https_origin in Ho. apply fail_if_ok in Ho.
  apply negb_false_iff, bool_decide_eq_true_1 in Ho. bool_to_prop.
  split_and!; try done.
  - exists bs. split; [done|]. unfold len in *. lia.
  - cbn in *. bool_to_prop. lia.
Qed.

Lemma validate_time_iff m p now :
  now <= MAX_JCS_SAFE_INTEGER → pol_maximum_future_issue_skew_ms p <= MAX_JCS_SAFE_INTEGER →
  validate_time m p now = Ok tt ↔ time_admissible m p now.
Proof.
  intros Hn Hs. unfold validate_time, time_admissible. rewrite ok_or_bind_ok.
  rewrite saturating_add64_small by (unfold MAX_JCS_SAFE_INTEGER, u64_max in *; lia).
  split.
  - intros (v & [Hle ->]%checked_sub_Some & H). rewrite !fail_if_bind_ok, fail_if_ok in H.
    destruct H as (H1 & H2 & H3). bool_to_prop. lia.
  - intros (H1 & H2 & H3 & H4). exists (man_expires_at_ms m - man_issued_at_ms m).
    rewrite checked_sub_Some, !fail_if_bind_ok, fail_if_ok. bool_lia.
Qed.

(** Facts every accepted URL has that the policy check needs. *)
Lemma validate_https_url_bytes url : validate_https_url url = Ok tt →
  is_ascii url = true ∧ contains_byte 92 url = false.
Proof.
  unfold validate_https_url. rewrite fail_if_bind_ok. intros [H _]. bool_to_prop. done.
Qed.

Lemma expected_url_path p digest name : ∃ path,
  expected_apk_url p digest name = (pol_expected_https_origin p ++ path)%string ∧
  starts_with_byte 47 path = true.
Proof. eexists. split; [reflexivity|]. done. Qed.

Lemma is_ascii_app s t : is_ascii (s ++ t) = is_ascii s && is_ascii t.
Proof. apply all_bytes_app. Qed.

Lemma contains_byte_app c s t : contains_byte c (s ++ t) = contains_byte c s || contains_byte c t.
Proof. apply any_byte_app. Qed.

(** The content-addressed URL test subsumes the origin test. *)
Lemma expected_url_origin p digest name url :
  canonical_https_origin (pol_expected_https_origin p) = Some (pol_expected_https_origin p) →
  is_ascii url = true → contains_byte 92 url = false →
  url = expected_apk_url p digest name →
  url_has_exact_origin url (pol_expected_https_origin p) = true.
Proof.
  intros Ho Ha Hb ->. destruct (expected_url_path p digest name) as (path & E & Hp).
  rewrite E, is_ascii_app in Ha. rewrite E, contains_byte_app in Hb.
  apply andb_true_iff in Ha as [_ Ha]. apply orb_false_iff in Hb as [_ Hb].
  rewrite E. unfold url_has_exact_origin. apply bool_decide_eq_true_2.
  by apply canonical_https_origin_path.
Qed.

Lemma validate_policy_iff m p :
  canonical_https_origin (pol_expected_https_origin p) = Some (pol_expected_https_origin p) →
  validate_https_url (art_apk_url (man_artifact m)) = Ok tt →
  validate_policy m p = Ok tt ↔ policy_admissible m p.
Proof.
  intros Ho [Ha Hb]%validate_https_url_bytes. unfold validate_policy, policy_admissible.
  rewrite !fail_if_bind_ok, ok_or_bind_ok, !negb_false_iff, !orb_false_iff, !String.eqb_eq,
    N.leb_gt, !N.ltb_ge.
  split.
  - intros (-> & -> & -> & -> & Hv & Hz & _ & digest & Hd & Hu).
    apply strip_prefix_Some in Hd. apply fail_if_ok in Hu.
    apply negb_false_iff, String.eqb_eq in Hu. split_and!; try done; try lia. eauto.
  - intros (-> & -> & -> & -> & Hv & Hr & Hz & digest & Hd & Hu).
    split_and!; try done; try lia.
    + by eapply expected_url_origin.
    + exists digest. split; [by apply strip_prefix_Some|].
      apply fail_if_ok, negb_false_iff. by apply String.eqb_eq.
Qed.

Section Admission.
Context {RC : ReleaseCrypto}.

Lemma manifest_fields_url m : validate_manifest_fields m = Ok tt →
  validate_https_url (art_apk_url (man_artifact m)) = Ok tt.
Proof. unfold validate_manifest_fields. intros H.
  do 11 (apply then_ok in H; destruct H as [_ H]). done.
Qed.

Lemma len_eqb {A} (l : list A) (n : nat) : negb (len l =? N.of_nat n) = false ↔ length l = n.
Proof. unfold len. rewrite negb_false_iff, N.eqb_eq. lia. Qed.

Lemma authenticate_iff env canonical keys :
  authenticate_parsed_envelope env canonical keys = Ok tt ↔
  (env_schema env = ENVELOPE_SCHEMA ∧ man_schema (env_signed env) = MANIFEST_SCHEMA) ∧
  env_algorithm env = SIGNATURE_ALGORITHM ∧
  validate_token "key_id" (env_key_id env) 1 96 = Ok tt ∧
  validate_manifest_fields (env_signed env) = Ok tt ∧
  ∃ key signature, registry_get keys (env_key_id env) = Some key ∧
    decode_base64url_canonical (env_signature env) = Ok signature ∧
    length signature = 64%nat ∧
    verify_strict key (SIGNATURE_DOMAIN ++ canonical) signature = true.
Proof.
  unfold authenticate_parsed_envelope.
  rewrite !fail_if_bind_ok, !then_ok, ok_or_bind_ok, orb_false_iff, !negb_false_iff, !String.eqb_eq.
  do 4 (apply and_iff_compat_l). split.
  - intros (key & Hk & (signature & Hs & H)%bind_ok). apply fail_if_bind_ok in H as [Hl H].
    apply (len_eqb signature 64) in Hl. apply fail_if_ok, negb_false_iff in H. by exists key, signature.
  - intros (key & signature & Hk & Hs & Hl & H). exists key. split; [done|].
    apply bind_ok. exists signature. split; [done|]. apply fail_if_bind_ok. split; [by apply (len_eqb signature 64)|].
    by apply fail_if_ok, negb_false_iff.
Qed.

(** The decision procedure of the code is the specification. *)
Lemma verify_parsed_envelope_iff env keys p state now :
  now <= MAX_JCS_SAFE_INTEGER →
  verify_parsed_envelope env (jcs_to_vec (env_signed env)) keys p state now = Ok tt ↔
  admissible env keys p state now.
Proof.
  intros Hnow. unfold verify_parsed_envelope. rewrite !then_ok, rollback_validate_iff, ok_or_bind_ok.
  split.
  - intros (Hp & Hst & canonical & Hj & H).
    rewrite then_ok, authenticate_iff, fail_if_bind_ok, ok_or_bind_ok, negb_false_iff, String.eqb_eq in H.
    destruct H as ((Hsch & Halg & _ & Hf & key & sig & Hk & Hsig & Hlen & Hver) & Hid & key' & Hk' & H).
    rewrite fail_if_bind_ok, !then_ok, negb_false_iff, String.eqb_eq in H.
    destruct H as (Hpk & Ht & Hpol & Hseq). rewrite Hk in Hk'. injection Hk' as <-.
    destruct (policy_bounds p Hp) as (Ho & _ & _ & _ & Hskew).
    constructor; try done.
    + by exists canonical, key, sig.
    + by apply validate_time_iff.
    + apply validate_policy_iff; [done| |done]. by apply manifest_fields_url.
    + by rewrite rollback_checkpoint_map, validate_sequence_iff in Hseq.
  - intros [Hp Hst Hsch Halg Hid Hf (canonical & key & sig & Hj & Hk & Hsig & Hlen & Hver & Hpk) Ht Hpol Hadv].
    split; [done|]. split; [done|]. exists canonical. split; [done|].
    destruct (policy_bounds p Hp) as (Ho & _ & Hkid & _ & Hskew).
    rewrite then_ok, authenticate_iff, fail_if_bind_ok, ok_or_bind_ok, negb_false_iff, String.eqb_eq.
    split; [|split; [done|]].
    + split; [done|]. split; [done|]. rewrite Hid in *. split; [done|]. split; [done|].
      by exists key, sig.
    + exists key. split; [done|]. rewrite fail_if_bind_ok, !then_ok, negb_false_iff, String.eqb_eq.
      split; [done|]. split; [by apply validate_time_iff|]. split.
      * apply validate_policy_iff; [done| |done]. by apply manifest_fields_url.
      * by rewrite rollback_checkpoint_map, validate_sequence_iff.
Qed.

(** The value of [verify_manifest] once the envelope has been parsed. *)
Lemma verify_manifest_eq json keys p state now :
  now <= MAX_JCS_SAFE_INTEGER →
  verify_manifest json keys p state now =
  match envelope_from_slice json with
  | None => mkAdmission (rejected_admission "malformed_envelope" now (sha256_identity json) None None) None
  | Some env =>
      let base := receipt_base StageManifestAdmission now (Some (sha256_identity json))
        (sha256_identity <$> jcs_to_vec (env_signed env)) (Some (env_key_id env))
        (Some (env_signed env))
        (rollback_map state !! manifest_key (env_signed env) (env_key_id env)
                                 (pol_expected_public_key p) (pol_expected_https_origin p)) in
      match verify_parsed_envelope env (jcs_to_vec (env_signed env)) keys p state now with
      | Ok _ => mkAdmission (accepted_receipt base "manifest_accepted" None)
          (Some (mkVerified (env_key_id env) (pol_expected_public_key p) (pol_expected_https_origin p)
                   (default EmptyString (sha256_identity <$> jcs_to_vec (env_signed env)))
                   (env_signed env)))
      | Err e => mkAdmission (rejected_receipt base (err_code e)) None
      end
  end.
Proof.
  intros Hn. unfold verify_manifest. rewrite (proj2 (N.ltb_ge _ _) Hn).
  destruct (envelope_from_slice json); [|done]. by rewrite rollback_checkpoint_map.
Qed.

(** What an admission returns when it verifies. *)
Lemma verify_manifest_iff json keys p state now v :
  adm_verified (verify_manifest json keys p state now) = Some v ↔
  now <= MAX_JCS_SAFE_INTEGER ∧
  ∃ env canonical, envelope_from_slice json = Some env ∧
    jcs_to_vec (env_signed env) = Some canonical ∧ admissible env keys p state now ∧
    v = mkVerified (env_key_id env) (pol_expected_public_key p) (pol_expected_https_origin p)
          (sha256_identity canonical) (env_signed env).
Proof.
  split.
  - intros H. destruct (N.lt_ge_cases MAX_JCS_SAFE_INTEGER now) as [Hn|Hn].
    { unfold verify_manifest in H. by rewrite (proj2 (N.ltb_lt _ _) Hn) in H. }
    split; [done|]. rewrite verify_manifest_eq in H by done.
    destruct (envelope_from_slice json) as [env|]; [|done]. cbv zeta in H.
    destruct (verify_parsed_envelope _ _ _ _ _ _) as [[]|] eqn:E; [|done].
    apply verify_parsed_envelope_iff in E; [|done]. injection H as <-.
    destruct (adm_signature _ _ _ _ _ E) as (canonical & _ & _ & Hc & _).
    exists env, canonical. by rewrite Hc.
  - intros (Hn & env & canonical & Henv & Hc & Hadm & ->).
    rewrite verify_manifest_eq, Henv by done. cbv zeta.
    apply verify_parsed_envelope_iff in Hadm as ->; [|done]. by rewrite Hc.
Qed.

(** Nothing is reported as accepted without a verified manifest, and admission
    never claims a state change. *)
Lemma verify_manifest_receipt json keys p state now :
  let adm := verify_manifest json keys p state now in
  (rc_decision (adm_receipt adm) = Accepted ↔ is_Some (adm_verified adm)) ∧
  rc_state_changed (adm_receipt adm) = false ∧ rc_accepted_checkpoint (adm_receipt adm) = None ∧
  rc_stage (adm_receipt adm) = StageManifestAdmission.
Proof.
  cbv zeta. unfold verify_manifest. destruct (MAX_JCS_SAFE_INTEGER <? now).
  { split; [|done]. split; [done|]. by intros [? ?]. }
  destruct (envelope_from_slice json); [|split; [|done]; split; [done|by intros [? ?]]].
  destruct (verify_parsed_envelope _ _ _ _ _ _); (split; [|done]); split; try done.
  by intros [? ?].
Qed.

End Admission.

(** ** Install commit *)

Definition apk_matches (a : PackageUpdateArtifact) (o : ObservedApk) : Prop :=
  obs_package_name o = art_package_name a ∧ obs_version_code o = art_version_code a ∧
  obs_signer_sha256 o = art_signer_sha256 a ∧ obs_apk_sha256 o = art_apk_sha256 a ∧
  obs_apk_size_bytes o = art_apk_size_bytes a.

(** The closed tuple a verified update is committed under. *)
Definition verified_key (v : VerifiedPackageUpdate) : list string := checkpoint_key (verified_checkpoint v).

(** The conditions of an accepted commit. *)
Definition committable (v : VerifiedPackageUpdate) (o : ObservedApk)
    (state : PackageUpdateRollbackState) (at_ms : N) : Prop :=
  at_ms <= MAX_JCS_SAFE_INTEGER ∧ rollback_valid state ∧
  at_ms < man_expires_at_ms (ver_manifest v) ∧
  apk_matches (man_artifact (ver_manifest v)) o ∧
  advances (ver_manifest v) (rollback_map state !! verified_key v).

(** Fields of a manifest that went through [validate_manifest_fields]. *)
Record fields_valid (m : PackageUpdateManifest) : Prop := {
  fv_channel : validate_token "channel" (man_channel m) 1 32 = Ok tt;
  fv_ring : validate_token "rollout_ring" (man_rollout_ring m) 1 32 = Ok tt;
  fv_package : validate_package_name (art_package_name (man_artifact m)) = Ok tt;
  fv_apk : validate_sha256_identity (art_apk_sha256 (man_artifact m)) = Ok tt;
  fv_signer : validate_sha256_identity (art_signer_sha256 (man_artifact m)) = Ok tt;
  fv_positive : man_sequence m ≠ 0 ∧ art_version_code (man_artifact m) ≠ 0;
  fv_range : man_sequence m <= MAX_JCS_SAFE_INTEGER ∧
    art_version_code (man_artifact m) <= MAX_JCS_SAFE_INTEGER ∧
    art_apk_size_bytes (man_artifact m) <= MAX_JCS_SAFE_INTEGER;
}.

Lemma validate_jcs_integers_iff l :
  validate_jcs_integers l = Ok tt ↔ Forall (fun v => v <= MAX_JCS_SAFE_INTEGER) l.
Proof.
  unfold validate_jcs_integers. rewrite fail_if_ok.
  induction l as [|v l IH]; cbn; [split; [constructor|done]|].
  rewrite Forall_cons, orb_false_iff, N.ltb_ge, IH. done.
Qed.

Lemma manifest_fields_valid m : validate_manifest_fields m = Ok tt → fields_valid m.
Proof.
  unfold validate_manifest_fields. cbv zeta. intros H.
  apply then_ok in H as [_ H]. apply then_ok in H as [Hch H]. apply then_ok in H as [Hr H].
  apply fail_if_bind_ok in H as [Hseq H]. apply then_ok in H as [Hpkg H].
  apply then_ok in H as [_ H]. apply fail_if_bind_ok in H as [Hv H].
  apply then_ok in H as [Hapk H]. apply then_ok in H as [Hsig H].
  apply fail_if_bind_ok in H as [_ H]. apply then_ok in H as [Hint _].
  apply validate_jcs_integers_iff in Hint. forall_cons. bool_to_prop. by constructor.
Qed.

Lemma validate_observed_apk_iff m o : fields_valid m →
  validate_observed_apk (man_artifact m) o = Ok tt ↔ apk_matches (man_artifact m) o.
Proof.
  intros [_ _ Hp Ha Hs _ Hr]. unfold validate_observed_apk, apk_matches.
  rewrite !then_ok, validate_jcs_integers_iff, !fail_if_ok, !negb_false_iff, !String.eqb_eq, !N.eqb_eq.
  split; [tauto|]. intros (-> & -> & -> & -> & ->). split_and!; try done.
  repeat constructor; apply Hr.
Qed.

Section Commit.
Context {RC : ReleaseCrypto}.

Lemma commit_cases v o state t :
  fields_valid (ver_manifest v) →
  (committable v o state t ∧
     ∃ r, commit_installed_apk v o state t = (r, rollback_apply (verified_checkpoint v) state) ∧
       rc_decision r = Accepted ∧ rc_state_changed r = true ∧
       rc_accepted_checkpoint r = Some (verified_checkpoint v)) ∨
  (¬ committable v o state t ∧
     ∃ r, commit_installed_apk v o state t = (r, state) ∧
       rc_decision r = Rejected ∧ rc_state_changed r = false ∧ rc_accepted_checkpoint r = None).
Proof.
  intros Hf. unfold commit_installed_apk, committable. cbv zeta. rewrite rollback_checkpoint_map.
  change [_; _; _; _; _; _; _] with (verified_key v).
  destruct (N.ltb_spec MAX_JCS_SAFE_INTEGER t) as [Ht|Ht].
  { right. split; [intros [? _]; lia|]. by eexists. }
  destruct (rollback_validate state ≫= _) as [[]|e] eqn:E.
  - left. rewrite !then_ok, rollback_validate_iff, validate_observed_apk_iff, validate_sequence_iff in E
      by done. unfold check_not_expired in E. rewrite fail_if_ok, N.leb_gt in E.
    split; [done|]. by eexists.
  - right. split; [|by eexists]. intros (_ & H). rewrite <- N.leb_gt, <- (fail_if_ok _
      (new_error "manifest_expired" "manifest expired before the installed APK was committed") tt) in H.
    rewrite <- rollback_validate_iff, <- validate_observed_apk_iff, <- validate_sequence_iff, <- !then_ok in H
      by done. unfold check_not_expired in E. rewrite H in E. done.
Qed.

Context {RCL : ReleaseCryptoLaws}.

Lemma sha256_identity_valid bs : validate_sha256_identity (sha256_identity bs) = Ok tt.
Proof.
  unfold validate_sha256_identity, sha256_identity. apply ok_or_bind_ok.
  exists (hex_of_bytes (sha256_digest bs)). split; [by apply strip_prefix_Some|].
  destruct (hex_of_bytes_ok (sha256_digest bs) (sha256_bytes bs)) as [Hl Ha].
  rewrite fail_if_ok, Ha. unfold str_len. by rewrite Hl, sha256_length.
Qed.

(** Every verified update comes from a successful admission. *)
Definition verified_by_admission (v : VerifiedPackageUpdate) : Prop :=
  ∃ json keys p state now, adm_verified (verify_manifest json keys p state now) = Some v.

Lemma verified_fields v : verified_by_admission v → fields_valid (ver_manifest v).
Proof.
  intros (json & keys & p & state & now & H).
  apply verify_manifest_iff in H as (_ & env & c & _ & _ & Hadm & ->).
  apply manifest_fields_valid, Hadm.
Qed.

Lemma verified_checkpoint_valid v :
  verified_by_admission v → validate_checkpoint (verified_checkpoint v) = Ok tt.
Proof.
  intros Hv. pose proof (verified_fields v Hv) as [Hch Hr Hp Ha Hs [Hsq Hvc] Hrg].
  destruct Hv as (json & keys & p & state & now & H).
  apply verify_manifest_iff in H as (_ & env & c & _ & _ & Hadm & ->).
  destruct (policy_bounds p) as (Ho & _ & Hk & (bs & Hbs & Hlen) & _); [apply Hadm|].
  pose proof (adm_key_id _ _ _ _ _ Hadm) as Hid.
  unfold validate_checkpoint. cbn in Hch, Hr, Hp, Hs, Hsq, Hvc, Hrg. rewrite !then_ok.
  cbn [verified_checkpoint cp_package_name cp_channel cp_rollout_ring cp_signer_sha256 cp_key_id
       ver_manifest ver_key_id]. rewrite Hid.
  do 5 (split; [done|]). apply bind_ok. exists bs. split; [done|].
  apply fail_if_bind_ok. split; [by apply (len_eqb bs 32)|].
  rewrite !then_ok, fail_if_ok, validate_jcs_integers_iff. split_and!.
  - unfold validate_https_origin. by apply fail_if_ok, negb_false_iff, bool_decide_eq_true_2.
  - apply sha256_identity_valid.
  - apply orb_false_iff. split; by apply N.eqb_neq.
  - repeat constructor; apply Hrg.
Qed.

(** ** Sequences of commits

    One step is any commit of any verified update, whatever state its
    admission saw, with any observed APK and clock. *)
Definition commit_step (s s' : PackageUpdateRollbackState) : Prop :=
  ∃ v o t, verified_by_admission v ∧ (commit_installed_apk v o s t).2 = s'.

(** The checkpoint of a tuple is kept or strictly advanced. *)
Definition no_rollback (s s' : PackageUpdateRollbackState) : Prop :=
  ∀ k c, rollback_map s !! k = Some c →
  ∃ c', rollback_map s' !! k = Some c' ∧
    (c' = c ∨ (cp_sequence c < cp_sequence c' ∧ cp_version_code c < cp_version_code c')).

Lemma commit_step_inv s s' : rollback_valid s → commit_step s s' →
  s' = s ∨ ∃ v o t, verified_by_admission v ∧ committable v o s t ∧
    s' = rollback_apply (verified_checkpoint v) s.
Proof.
  intros Hs (v & o & t & Hv & <-).
  destruct (commit_cases v o s t (verified_fields v Hv)) as [[Hc (r & -> & _)]|[_ (r & -> & _)]];
    cbn; [right|by left]. by exists v, o, t.
Qed.

Lemma commit_step_valid s s' : rollback_valid s → commit_step s s' → rollback_valid s'.
Proof.
  intros Hs H. destruct (commit_step_inv s s' Hs H) as [->|(v & o & t & Hv & Hc & ->)]; [done|].
  apply rollback_apply_valid; [by apply verified_checkpoint_valid|done].
Qed.

Lemma commit_steps_valid s s' : rtc commit_step s s' → rollback_valid s → rollback_valid s'.
Proof. induction 1; eauto using commit_step_valid. Qed.

Lemma no_rollback_refl s : no_rollback s s.
Proof. intros k c Hc. eauto. Qed.

Lemma no_rollback_trans s1 s2 s3 : no_rollback s1 s2 → no_rollback s2 s3 → no_rollback s1 s3.
Proof.
  intros H12 H23 k c Hc. destruct (H12 k c Hc) as (c2 & Hc2 & H2).
  destruct (H23 k c2 Hc2) as (c3 & Hc3 & H3). exists c3. split; [done|].
  destruct H2 as [->|H2]; [done|]. destruct H3 as [->|H3]; [by right|]. right. lia.
Qed.

Lemma commit_step_no_rollback s s' : rollback_valid s → commit_step s s' → no_rollback s s'.
Proof.
  intros Hs H. destruct (commit_step_inv s s' Hs H) as [->|(v & o & t & Hv & Hc & ->)];
    [apply no_rollback_refl|].
  intros k c Hk. rewrite rollback_apply_map by done.
  destruct (decide (checkpoint_key (verified_checkpoint v) = k)) as [<-|Hne].
  - exists (verified_checkpoint v). rewrite lookup_insert_eq. split; [done|]. right.
    destruct Hc as (_ & _ & _ & _ & Hadv). exact (Hadv c Hk).
  - exists c. rewrite lookup_insert_ne by done. auto.
Qed.

Lemma commit_steps_no_rollback s s' :
  rtc commit_step s s' → rollback_valid s → rollback_valid s' ∧ no_rollback s s'.
Proof.
  induction 1 as [s|s1 s2 s3 H12 H23 IH]; intros Hs; [eauto using no_rollback_refl|].
  destruct IH as [Hv Hn]; [by eapply commit_step_valid|]. split; [done|].
  eapply no_rollback_trans; [by apply commit_step_no_rollback|done].
Qed.

(** A committed update can never be committed again. *)
Lemma committed_not_committable v o s t s' :
  verified_by_admission v → committable v o s t →
  rtc commit_step (rollback_apply (verified_checkpoint v) s) s' →
  ∀ o' t', ¬ committable v o' s' t'.
Proof.
  intros Hv (_ & Hs & _) Hsteps o' t' (_ & _ & _ & _ & Hadv).
  destruct (commit_steps_no_rollback _ _ Hsteps) as [_ Hn].
  { apply rollback_apply_valid; [by apply verified_checkpoint_valid|done]. }
  destruct (Hn (verified_key v) (verified_checkpoint v)) as (c' & Hc' & H).
  { rewrite rollback_apply_map by done. apply lookup_insert_eq. }
  destruct (Hadv c' Hc') as [H1 _]. destruct H as [->|[H _]]; cbn in *; lia.
Qed.

End Commit.
