(* ===== verification/UpdateFixture.v ===== *)
(** * Package updater: the repository fixture

    The policy, rollback state, envelope and observed APK of
    fixtures/package-updater, with a concrete instance of the external
    cryptography that verifies exactly the fixture's signature. *)

From S2P Require Import Prelude RustStr Base64Url UpdateModel UpdateRollback UpdateAdmission.

Local Open Scope N_scope.

Definition fx_public_key : string := "6kpsY-KcUgq-9VB7Ey7F-ZVHdq6-vnuSQh7qaRRG0iw".
Definition fx_signature : string :=
  "XrvNKlR6O5Akpv28OYtyKVwW5u2cd70y4k4_5Vsi_dSVB6fXxrlfDdUJDBubnhDgdLFIcTaRMBIpPMEAp3nTCw".
Definition fx_signer : string :=
  "sha256:23bb7bb81143a81f216118af35960aaee2468e9880b94e07574cac0a9239dcf6".
Definition fx_ones : string := "1111111111111111111111111111111111111111111111111111111111111111".
Definition fx_origin : string := "https://updates.mesmerprism.com".
Definition fx_package : string := "io.github.mesmerprism.rustykiosk".
Definition fx_now : N := 2000000000000.

Definition fx_artifact : PackageUpdateArtifact := {|
  art_package_name := fx_package; art_version_code := 101; art_version_name := "0.1.1";
  art_apk_url := (fx_origin ++ "/rusty-quest/package-updates/rusty-kiosk/labs/artifacts/sha256/" ++
                  fx_ones ++ "/rusty-kiosk-0.1.1.apk")%string;
  art_apk_sha256 := ("sha256:" ++ fx_ones)%string; art_apk_size_bytes := 123456;
  art_signer_sha256 := fx_signer;
|}.

Definition fx_manifest : PackageUpdateManifest := {|
  man_schema := MANIFEST_SCHEMA; man_manifest_id := "rusty-kiosk.alpha.101"; man_sequence := 41;
  man_issued_at_ms := 1999999900000; man_expires_at_ms := 2000000500000;
  man_channel := "alpha"; man_rollout_ring := "alpha"; man_artifact := fx_artifact;
|}.

Definition fx_envelope : PackageUpdateManifestEnvelope := {|
  env_schema := ENVELOPE_SCHEMA; env_key_id := "release-test-2026-a";
  env_algorithm := SIGNATURE_ALGORITHM; env_signature := fx_signature; env_signed := fx_manifest;
|}.

Definition fx_policy : PackageUpdatePolicy := {|
  pol_expected_channel := "alpha"; pol_expected_https_origin := fx_origin;
  pol_expected_site_base_path := "rusty-quest"; pol_expected_package_name := fx_package;
  pol_expected_rollout_ring := "alpha"; pol_expected_signer_sha256 := fx_signer;
  pol_expected_key_id := "release-test-2026-a"; pol_expected_public_key := fx_public_key;
  pol_installed_version_code := 100; pol_minimum_target_version_code := 101;
  pol_maximum_target_version_code := 199; pol_maximum_apk_size_bytes := 104857600;
  pol_maximum_manifest_validity_ms := 86400000; pol_maximum_future_issue_skew_ms := 300000;
|}.

Definition fx_checkpoint : PackageUpdateCheckpoint := {|
  cp_channel := "alpha"; cp_package_name := fx_package; cp_rollout_ring := "alpha";
  cp_signer_sha256 := fx_signer; cp_key_id := "release-test-2026-a";
  cp_public_key := fx_public_key; cp_https_origin := fx_origin;
  cp_sequence := 40; cp_version_code := 100;
  cp_signed_manifest_sha256 := "sha256:0000000000000000000000000000000000000000000000000000000000000000";
|}.

Definition fx_state : PackageUpdateRollbackState := mkRollbackState ROLLBACK_STATE_SCHEMA [fx_checkpoint].

Definition fx_observed : ObservedApk := {|
  obs_package_name := fx_package; obs_version_code := 101; obs_signer_sha256 := fx_signer;
  obs_apk_sha256 := ("sha256:" ++ fx_ones)%string; obs_apk_size_bytes := 123456;
|}.

(** The envelope file is represented by the one-byte input [[1]]. *)
Definition fx_json : list N := [1].

#[global] Instance fx_crypto : ReleaseCrypto := {|
  VerifyingKey := list N;
  vk_from_bytes := fun bs => if bool_decide (length bs = 32%nat) then Some bs else None;
  vk_to_bytes := fun bs => bs;
  verify_strict := fun _ _ signature =>
    bool_decide (decode_base64url_canonical fx_signature = Ok signature);
  sha256_digest := fun _ => replicate 32 0;
  jcs_to_vec := fun m => Some (str_bytes (man_manifest_id m));
  envelope_from_slice := fun bs => if bool_decide (bs = fx_json) then Some fx_envelope else None;
|}.

#[global] Instance fx_crypto_laws : ReleaseCryptoLaws (RC := fx_crypto).
Proof.
  constructor; cbn.
  - intros bs k. by case_bool_decide; intros [= <-].
  - reflexivity.
  - intros _. repeat constructor.
Qed.

Definition fx_record : ReleaseKeyRecord := mkReleaseKeyRecord "release-test-2026-a" fx_public_key.

Definition fx_registry : ReleaseKeyRegistry :=
  match from_records [fx_record] with Ok r => r | Err _ => mkRegistry ∅ end.

Definition fx_verified : VerifiedPackageUpdate := {|
  ver_key_id := "release-test-2026-a"; ver_public_key := fx_public_key;
  ver_https_origin := fx_origin;
  ver_signed_manifest_sha256 := "sha256:0000000000000000000000000000000000000000000000000000000000000000";
  ver_manifest := fx_manifest;
|}.

Example fx_admission :
  adm_verified (verify_manifest fx_json fx_registry fx_policy fx_state fx_now) = Some fx_verified.
Proof. vm_compute. reflexivity. Qed.

Example fx_state_valid : rollback_valid fx_state.
Proof. apply rollback_validate_iff. vm_compute. reflexivity. Qed.
