(* ===== verification/UpdateClaims.v ===== *)
(** * Package updater: properties

    The properties of the package updater, each with a witness on the
    repository's own fixture (fixtures/package-updater) where it has
    hypotheses. The fixture's cryptography is a concrete instance of
    [ReleaseCrypto] that satisfies [ReleaseCryptoLaws]. *)

From S2P Require Import Prelude RustStr Base64Url UpdateModel UpdateRollback UpdateAdmission.
From S2P Require Import UpdateTheorems UpdateFixture.

Local Open Scope N_scope.

(** ** Registry lemmas *)

Section Registry.
Context {RC : ReleaseCrypto}.

(** A record that [from_records] can accept: a canonical id and a canonical
    32-byte public key that is a valid point. *)
Definition record_key (r : ReleaseKeyRecord) (bs : list N) (k : VerifyingKey) : Prop :=
  validate_token "key_id" (rec_key_id r) 1 96 = Ok tt ∧
  decode_base64url_canonical (rec_public_key r) = Ok bs ∧ length bs = 32%nat ∧
  vk_from_bytes bs = Some k.

Lemma registry_step_ok keys material r keys' material' :
  registry_step keys material r = Ok (keys', material') ↔
  ∃ bs k, record_key r bs k ∧ keys !! rec_key_id r = None ∧ bs ∉ material ∧
    keys' = <[rec_key_id r := k]> keys ∧ material' = {[ bs ]} ∪ material.
Proof.
  unfold registry_step, record_key. rewrite then_ok, bind_ok. split.
  - intros (Ht & bs & Hd & H). apply fail_if_bind_ok in H as [Hl H].
    apply (len_eqb bs 32) in Hl. apply ok_or_bind_ok in H as (k & Hk & H).
    apply fail_if_bind_ok in H as [Hid H]. apply fail_if_bind_ok in H as [Hm H].
    apply bool_decide_eq_false_1 in Hid, Hm. injection H as <- <-.
    apply eq_None_not_Some in Hid. by exists bs, k.
  - intros (bs & k & (Ht & Hd & Hl & Hk) & Hid & Hm & -> & ->). split; [done|].
    exists bs. split; [done|]. apply fail_if_bind_ok. split; [by apply (len_eqb bs 32)|].
    apply ok_or_bind_ok. exists k. split; [done|]. rewrite !fail_if_bind_ok.
    split; [by apply bool_decide_eq_false_2, eq_None_not_Some|].
    split; [by apply bool_decide_eq_false_2|done].
Qed.

Context {RCL : ReleaseCryptoLaws}.

(** Distinct ids hold distinct key material, all of it recorded. *)
Definition registry_inv (keys : gmap string VerifyingKey) (material : gset (list N)) : Prop :=
  (∀ i k, keys !! i = Some k → vk_to_bytes k ∈ material) ∧
  (∀ i j k k', keys !! i = Some k → keys !! j = Some k' → vk_to_bytes k = vk_to_bytes k' → i = j).

Lemma registry_inv_insert keys material r bs k :
  registry_inv keys material → record_key r bs k → keys !! rec_key_id r = None → bs ∉ material →
  registry_inv (<[rec_key_id r := k]> keys) ({[ bs ]} ∪ material).
Proof.
  intros [Hin Hinj] (_ & _ & _ & Hk) Hid Hm. apply vk_to_from in Hk. split.
  - intros i k'. rewrite lookup_insert_Some. intros [[_ <-]|[_ H]]; [set_solver|].
    apply Hin in H. set_solver.
  - intros i j k1 k2. rewrite !lookup_insert_Some.
    intros [[<- <-]|[_ Hi]] [[<- <-]|[_ Hj]] Heq; [done| | |by eapply Hinj].
    + apply Hin in Hj. rewrite <- Heq, Hk in Hj. done.
    + apply Hin in Hi. rewrite Heq, Hk in Hi. done.
Qed.

Lemma registry_loop_ok keys material l out :
  registry_inv keys material → registry_loop keys material l = Ok out →
  (∃ material', registry_inv out material') ∧ keys ⊆ out ∧
  Forall (fun r => keys !! rec_key_id r = None) l ∧ NoDup (rec_key_id <$> l) ∧
  Forall (fun r => ∃ bs k, record_key r bs k ∧ out !! rec_key_id r = Some k) l ∧
  (∀ i, is_Some (out !! i) → is_Some (keys !! i) ∨ i ∈ rec_key_id <$> l).
Proof.
  revert keys material. induction l as [|r l IH]; intros keys material Hinv; cbn [registry_loop].
  - intros [= <-]. split; [eauto|]. repeat split; auto; constructor.
  - rewrite bind_ok. intros ([keys' material'] & Hstep & Hloop).
    apply registry_step_ok in Hstep as (bs & k & Hr & Hid & Hm & -> & ->).
    destruct (IH _ _ (registry_inv_insert _ _ _ _ _ Hinv Hr Hid Hm) Hloop)
      as (Hex & Hsub & Hnone & Hnd & Hall & Hdom).
    rewrite fmap_cons, NoDup_cons, !Forall_cons. split; [done|].
    split; [|split; [|split; [|split; [split|]]]].
    + etrans; [|exact Hsub]. by apply insert_subseteq.
    + split; [done|]. eapply Forall_impl; [exact Hnone|]. cbn. intros r' H.
      by apply lookup_insert_None in H as [? _].
    + split; [|done]. intros (r' & Heq & Hin)%list_elem_of_fmap. rewrite Forall_forall in Hnone.
      specialize (Hnone r' Hin). by rewrite <- Heq, lookup_insert_eq in Hnone.
    + exists bs, k. split; [done|]. eapply lookup_weaken; [apply lookup_insert_eq|done].
    + done.
    + intros i Hi. rewrite elem_of_cons. destruct (Hdom i Hi) as [Hk|]; [|auto].
      destruct (decide (i = rec_key_id r)) as [->|Hne]; [auto|].
      rewrite lookup_insert_ne in Hk by done. auto.
Qed.

Lemma from_records_ok records registry :
  from_records records = Ok registry →
  NoDup (rec_key_id <$> records) ∧ records ≠ [] ∧
  Forall (fun r => ∃ bs k, record_key r bs k ∧ registry_get registry (rec_key_id r) = Some k) records ∧
  (∀ i, is_Some (registry_get registry i) → i ∈ rec_key_id <$> records) ∧
  (∀ i j k k', registry_get registry i = Some k → registry_get registry j = Some k' →
     vk_to_bytes k = vk_to_bytes k' → i = j).
Proof.
  unfold from_records. rewrite bind_ok. intros (out & Hloop & H).
  apply fail_if_bind_ok in H as [He [= <-]]. apply bool_decide_eq_false_1 in He.
  destruct (registry_loop_ok ∅ ∅ records out) as ((m & _ & Hinj) & _ & _ & Hnd & Hall & Hdom); [|done|].
  { split; intros *; by rewrite lookup_empty. }
  split; [done|]. split; [|split; [done|split; [|done]]].
  - intros ->. cbn in Hloop. by injection Hloop as <-.
  - intros i Hi. destruct (Hdom i Hi) as [[? H]|]; [by rewrite lookup_empty in H|done].
Qed.

End Registry.

(** ** Fixture facts shared by the witnesses *)

Lemma fx_by_admission : verified_by_admission fx_verified.
Proof. exists fx_json, fx_registry, fx_policy, fx_state, fx_now. exact fx_admission. Qed.

Lemma fx_committable : committable fx_verified fx_observed fx_state fx_now.
Proof.
  split; [done|]. split; [exact fx_state_valid|]. split; [done|]. split; [by split_and!|].
  intros c Hc. assert (c = fx_checkpoint) as ->; [|done].
  enough (Some fx_checkpoint = Some c) by congruence. rewrite <- Hc. vm_compute. reflexivity.
Qed.

Section Properties.
Context {RC : ReleaseCrypto}.

(** C1: [verify_manifest] verifies an update exactly when the observation time
    is in range, the envelope parses and the declarative specification
    [admissible] holds (policy, rollback state, schemas, algorithm, pinned key,
    strict signature over the domain-separated canonical manifest, validity
    window, exact tuple, version window, content-addressed URL, checkpoint
    advanced); the verified value is then determined by the envelope and the
    policy. *)
Theorem verify_manifest_spec json keys p state now v :
  adm_verified (verify_manifest json keys p state now) = Some v ↔
  now <= MAX_JCS_SAFE_INTEGER ∧
  ∃ env canonical, envelope_from_slice json = Some env ∧
    jcs_to_vec (env_signed env) = Some canonical ∧ admissible env keys p state now ∧
    v = mkVerified (env_key_id env) (pol_expected_public_key p) (pol_expected_https_origin p)
          (sha256_identity canonical) (env_signed env).
Proof. apply verify_manifest_iff. Qed.

(** an admission receipt is truthful: it says accepted exactly when a
    verified update is returned, its code then is [manifest_accepted], and it
    never claims a state change or an accepted checkpoint. *)
Theorem verify_manifest_receipt_truthful json keys p state now :
  let adm := verify_manifest json keys p state now in
  (rc_decision (adm_receipt adm) = Accepted ↔ is_Some (adm_verified adm)) ∧
  (rc_decision (adm_receipt adm) = Accepted → rc_code (adm_receipt adm) = "manifest_accepted") ∧
  rc_state_changed (adm_receipt adm) = false ∧ rc_accepted_checkpoint (adm_receipt adm) = None ∧
  rc_stage (adm_receipt adm) = StageManifestAdmission.
Proof.
  cbv zeta. destruct (verify_manifest_receipt json keys p state now) as (H & ? & ? & ?).
  split_and!; try done. clear. unfold verify_manifest.
  destruct (MAX_JCS_SAFE_INTEGER <? now); [done|]. destruct (envelope_from_slice json); [|done].
  by destruct (verify_parsed_envelope _ _ _ _ _ _).
Qed.

Context {RCL : ReleaseCryptoLaws}.

(** C2: [commit_installed_apk] on an admitted update commits exactly when
    [committable] holds (clock in range, rollback state valid, manifest not
    expired, the observed APK is the signed one, the checkpoint advances); then
    the new state is the old one with the checkpoint of the closed tuple
    replaced, and otherwise the state is untouched and the receipt says so. *)
Theorem commit_installed_apk_spec v o state t :
  verified_by_admission v →
  let '(r, state') := commit_installed_apk v o state t in
  (committable v o state t ∧ rc_decision r = Accepted ∧ rc_state_changed r = true ∧
     rc_accepted_checkpoint r = Some (verified_checkpoint v) ∧ rollback_valid state' ∧
     rollback_map state' = <[verified_key v := verified_checkpoint v]> (rollback_map state)) ∨
  (¬ committable v o state t ∧ rc_decision r = Rejected ∧ rc_state_changed r = false ∧
     rc_accepted_checkpoint r = None ∧ state' = state).
Proof.
  intros Hv. destruct (commit_cases v o state t (verified_fields v Hv))
    as [[Hc (r & -> & Hd)]|[Hc (r & -> & Hd)]]; [left|right; naive_solver].
  destruct Hd as (? & ? & ?). destruct Hc as (? & Hs & ?). split_and!; try done.
  - by apply rollback_apply_valid; [apply verified_checkpoint_valid|].
  - by apply rollback_apply_map.
Qed.

(** C3: anti-rollback over every sequence of commits: from a valid state, in
    whatever order and with whatever APKs and clocks admitted updates are
    committed, the state stays valid, no tuple's checkpoint disappears, and a
    checkpoint that changes has a strictly larger sequence and version. *)
Theorem rollback_never_regresses s s' :
  rtc commit_step s s' → rollback_valid s → rollback_valid s' ∧ no_rollback s s'.
Proof. apply commit_steps_no_rollback. Qed.

(** An update commits at most once: after a successful commit and any
    further commits, committing the same update again is rejected without a
    state change. *)
Theorem commit_at_most_once v o s t s' :
  verified_by_admission v →
  rc_decision (commit_installed_apk v o s t).1 = Accepted →
  rtc commit_step (commit_installed_apk v o s t).2 s' →
  ∀ o' t', rc_decision (commit_installed_apk v o' s' t').1 = Rejected ∧
    (commit_installed_apk v o' s' t').2 = s'.
Proof.
  intros Hv Ha Hs o' t'. pose proof (verified_fields v Hv) as Hf.
  destruct (commit_cases v o s t Hf) as [[Hc (r & E & _)]|[_ (r & E & Hd & _)]];
    rewrite E in Ha, Hs; cbn in *; [|congruence].
  destruct (commit_cases v o' s' t' Hf) as [[Hc' _]|[_ (r' & -> & Hd & _)]]; [|done].
  by destruct (committed_not_committable v o s t s' Hv Hc Hs o' t').
Qed.

(** a registry built by [from_records] has one entry per record, under
    pairwise distinct ids with pairwise distinct key material, each entry the
    decoded public key of its record; it is never empty and has no other
    entries. *)
Theorem from_records_registry records registry :
  from_records records = Ok registry →
  NoDup (rec_key_id <$> records) ∧ records ≠ [] ∧
  Forall (fun r => ∃ bs k, record_key r bs k ∧ registry_get registry (rec_key_id r) = Some k) records ∧
  (∀ i, is_Some (registry_get registry i) → i ∈ rec_key_id <$> records) ∧
  (∀ i j k k', registry_get registry i = Some k → registry_get registry j = Some k' →
     vk_to_bytes k = vk_to_bytes k' → i = j).
Proof. apply from_records_ok. Qed.

(** The APK URL of an admitted update is the configured origin followed by
    the content-addressed path of its own digest and version, and its origin is
    exactly the configured one: a longer host, userinfo or a port cannot be
    smuggled in. *)
Theorem admitted_url json keys p state now v :
  adm_verified (verify_manifest json keys p state now) = Some v →
  canonical_https_origin (art_apk_url (man_artifact (ver_manifest v))) = Some (ver_https_origin v) ∧
  ∃ digest, art_apk_sha256 (man_artifact (ver_manifest v)) = ("sha256:" ++ digest)%string ∧
    art_apk_url (man_artifact (ver_manifest v)) =
      (ver_https_origin v ++ "/rusty-quest/package-updates/rusty-kiosk/labs/artifacts/sha256/" ++
       digest ++ "/rusty-kiosk-" ++ art_version_name (man_artifact (ver_manifest v)) ++ ".apk")%string.
Proof.
  intros (_ & env & c & _ & _ & Hadm & ->)%verify_manifest_iff. cbn.
  destruct (policy_bounds p (adm_policy_ok _ _ _ _ _ Hadm)) as (Ho & Hsite & _).
  destruct (validate_https_url_bytes _ (manifest_fields_url _ (adm_fields _ _ _ _ _ Hadm))) as [Ha Hb].
  destruct (adm_identity _ _ _ _ _ Hadm) as (_ & _ & _ & _ & _ & _ & _ & digest & Hd & Hu).
  split.
  - pose proof (expected_url_origin p digest _ _ Ho Ha Hb Hu) as H.
    unfold url_has_exact_origin in H. by apply bool_decide_eq_true_1 in H.
  - exists digest. split; [done|]. rewrite Hu. unfold expected_apk_url. by rewrite Hsite.
Qed.

End Properties.

(** [PackageUpdateRollbackState::validate] accepts exactly the states with
    the right schema, well-formed checkpoints and strictly increasing tuples
    (hence no duplicate tuple). *)
Theorem rollback_validate_spec state : rollback_validate state = Ok tt ↔ rollback_valid state.
Proof. apply rollback_validate_iff. Qed.

(** [apply] refines insertion into the finite map from closed tuples to
    checkpoints, [checkpoint] refines its lookup, and [apply] keeps the state
    valid. *)
Theorem rollback_apply_refines c state :
  rollback_valid state → validate_checkpoint c = Ok tt →
  rollback_valid (rollback_apply c state) ∧
  rollback_map (rollback_apply c state) = <[checkpoint_key c := c]> (rollback_map state) ∧
  ∀ ch pk rr sg ki pu ho,
    rollback_checkpoint (rollback_apply c state) ch pk rr sg ki pu ho =
    <[checkpoint_key c := c]> (rollback_map state) !! [ch; pk; rr; sg; ki; pu; ho].
Proof.
  intros Hs Hc. split; [by apply rollback_apply_valid|]. split; [by apply rollback_apply_map|].
  intros *. by rewrite rollback_checkpoint_map, rollback_apply_map.
Qed.

(** Base64url: decoding what was encoded gives the bytes back, and what
    decodes is the unique encoding of its bytes, so no two texts decode to the
    same key or signature. *)
Theorem base64url_roundtrip bs : Forall is_u8 bs → bs ≠ [] →
  decode_base64url_canonical (encode_base64url bs) = Ok bs ∧
  ∀ text, decode_base64url_canonical text = Ok bs → text = encode_base64url bs.
Proof.
  intros Hu Hne. split; [by apply decode_encode|]. intros text H. symmetry. by apply encode_decode.
Qed.

(** [canonical_https_origin] accepts exactly [https://], a lowercase host
    with no userinfo or port, and a tail that starts with a path, query or
    fragment delimiter; the origin it returns is a fixed point. *)
Theorem canonical_https_origin_spec url o :
  (canonical_https_origin url = Some o ↔
   ∃ host tail, url = ("https://" ++ host ++ tail)%string ∧ o = ("https://" ++ host)%string ∧
     is_ascii url = true ∧ contains_byte 92 url = false ∧ origin_host host ∧ after_authority tail) ∧
  (canonical_https_origin url = Some o → canonical_https_origin o = Some o).
Proof. split; [apply canonical_https_origin_iff|apply canonical_https_origin_idem]. Qed.

(** ** Witnesses *)

Lemma commit_installed_apk_spec_witness :
  rc_decision (commit_installed_apk fx_verified fx_observed fx_state fx_now).1 = Accepted ∧
  rollback_valid (commit_installed_apk fx_verified fx_observed fx_state fx_now).2.
Proof.
  pose proof (commit_installed_apk_spec fx_verified fx_observed fx_state fx_now fx_by_admission) as H.
  destruct (commit_installed_apk _ _ _ _) as [r s]. destruct H as [(_ & ? & _ & _ & ? & _)|[H _]]; [done|].
  destruct (H fx_committable).
Defined.

Definition fx_state' : PackageUpdateRollbackState :=
  (commit_installed_apk fx_verified fx_observed fx_state fx_now).2.

Lemma rollback_never_regresses_witness : rollback_valid fx_state' ∧ no_rollback fx_state fx_state'.
Proof.
  apply rollback_never_regresses; [|exact fx_state_valid]. apply rtc_once.
  exists fx_verified, fx_observed, fx_now. split; [exact fx_by_admission|reflexivity].
Defined.

Lemma commit_at_most_once_witness :
  rc_decision (commit_installed_apk fx_verified fx_observed fx_state' fx_now).1 = Rejected.
Proof.
  apply (commit_at_most_once fx_verified fx_observed fx_state fx_now fx_state' fx_by_admission);
    [vm_compute; reflexivity|apply rtc_refl].
Defined.

Lemma from_records_registry_witness : NoDup (rec_key_id <$> [fx_record]).
Proof.
  apply (from_records_registry [fx_record] fx_registry). vm_compute. reflexivity.
Defined.

Lemma admitted_url_witness :
  canonical_https_origin (art_apk_url (man_artifact (ver_manifest fx_verified))) = Some fx_origin.
Proof.
  exact (proj1 (admitted_url fx_json fx_registry fx_policy fx_state fx_now fx_verified fx_admission)).
Defined.

Lemma rollback_apply_refines_witness : rollback_valid (rollback_apply fx_checkpoint fx_state).
Proof.
  apply (rollback_apply_refines fx_checkpoint fx_state fx_state_valid). vm_compute. reflexivity.
Defined.

Lemma base64url_roundtrip_witness :
  decode_base64url_canonical (encode_base64url [0; 255; 16; 7]) = Ok [0; 255; 16; 7].
Proof. apply base64url_roundtrip; [repeat constructor|done]. Defined.
