(* ===== verification/ExperimentSession.v ===== *)
(** * Experiment session reducer

    The pure session state machine of the native renderer
    (apps/native-renderer-android/native/src/experiment_session.rs) and the
    clock types it uses (session_recording_clock.rs). [&mut self] is explicit
    state passing: a handler returns the controller after the call together
    with its result, also when it fails. *)

From S2P Require Import Prelude RustStr.

Local Open Scope N_scope.
Local Open Scope quest_scope.

(** ** Clock domain *)

(** [struct MonotonicNanos(u64)]. *)
Definition MonotonicNanos : Type := N.

Definition checked_duration_since (self earlier : MonotonicNanos) : option N := checked_sub self earlier.

(** [struct UtcEpochNanos(u64)]. *)
Definition UtcEpochNanos : Type := N.

Record ClockAnchor := mkClockAnchor {
  ca_monotonic : MonotonicNanos;
  ca_utc : UtcEpochNanos;
}.

Definition utc_at (self : ClockAnchor) (monotonic : MonotonicNanos) : option UtcEpochNanos :=
  if ca_monotonic self <=? monotonic
  then checked_add64 (ca_utc self) (monotonic - ca_monotonic self)
  else checked_sub (ca_utc self) (ca_monotonic self - monotonic).

(** ** Recording contract types *)

(** [struct ConditionKey(String)]. *)
Definition ConditionKey : Type := string.

Definition is_condition_byte (b : N) : bool :=
  is_ascii_alphanumeric b || (b =? 46) || (b =? 95) || (b =? 45).

Definition condition_key_parse (value : string) : result string ConditionKey :=
  let value := trim value in
  fail_if (str_is_empty value || (64 <? str_len value) || negb (all_bytes is_condition_byte value))
    "condition-key-invalid" ;;
  Ok value.

Inductive SessionEventKind :=
  | EvBiasChanged | EvArmed | EvOfficialStart | EvExperimentPaused | EvExperimentResumed | EvStarted
  | EvImmersiveActive | EvImmersivePaused | EvDeveloperOpened | EvDeveloperClosed | EvAudioStarted
  | EvAudioEnded | EvAudioError | EvCompletionReached | EvRestartRequested | EvExitRequested
  | EvSourceGap.

Inductive FinalizationReason := FinRestartToExperimenter | FinSaveAndExit | FinInterruptedRecovery.

(** ** Session types *)

Inductive PreparationMode := LocalPanel | RemoteVr.

Definition preparation_mode_from_packaged (value : option string) : PreparationMode :=
  if bool_decide (value = Some "remote-vr"%string) then RemoteVr else LocalPanel.

Definition preparation_mode_as_str (self : PreparationMode) : string :=
  match self with LocalPanel => "local-panel" | RemoteVr => "remote-vr" end.

(** [struct OperationToken(u64)]: a positive integer. *)
Definition OperationToken : Type := N.

Definition operation_token_new (value : N) : option OperationToken :=
  if value =? 0 then None else Some value.

Inductive SessionPhase := Idle | Preparing | Active | FinalizingRestart | Exiting | Closed.

Inductive ExperimentControlState := CtlIdle | Arming | Armed | Running | Paused | Finalizing.

Inductive PresentationState := Experimenter | Transition | ImmersiveActive | Developer | Unfocused.

Inductive CompletionProgress := NotReached | PersistencePending | Durable.

Inductive RecordingFailure := FailPrepare | FailFinalize | FailDataLoss.

Inductive RecordingResult :=
  | RecNone
  | Saved (completed : bool)
  | Unsaved (completed : bool) (error : RecordingFailure).

Inductive SessionCommand :=
  | Arm (cond : ConditionKey) (threshold_ns : N)
  | AudioPrepared
  | OfficialStart
  | Pause
  | Resume
  | Start (cond : ConditionKey) (threshold_ns : N)
  | RecordingPrepared
  | RecordingPrepareFailed (error : RecordingFailure)
  | PresentationChanged (p : PresentationState)
  | Tick
  | AudioStarted
  | AudioEnded
  | AudioError
  | CompletionDurable
  | RestartToExperimenter
  | SaveAndExit
  | ImmersiveOwnerDestroyed
  | RecordingFinalized (durable_completion saved : bool)
  | RecordingFinalizationFailed (durable_completion : bool) (error : RecordingFailure).

Record CommandEnvelope := mkCommand {
  cmd_operation : OperationToken;
  cmd_expected_generation : N;
  cmd_at : MonotonicNanos;
  cmd_command : SessionCommand;
}.

Inductive SessionEffect :=
  | ReturnToPreparation
  | RecordControl (event : SessionEventKind)
  | PrepareRecording (gen : N) (cond : ConditionKey) (threshold_ns : N)
  | RecordPresentation (p : PresentationState)
  | RecordAudioStarted
  | RecordAudioEnded
  | RecordAudioError
  | PersistCompletion (gen time_ns : N)
  | FinalizeRecording (gen : N) (reason : FinalizationReason) (threshold_reached : bool)
  | DisarmKiosk
  | ResetRuntimeDefaults
  | ShowExperimenter
  | ShutdownApp.

Inductive CommandRejection :=
  | OperationConflict | OperationRetired | StaleGeneration | MonotonicTimeRegression | InvalidPhase
  | InvalidThreshold | CompletionNotPending | FinalizationCompletionMismatch.

Record CommandOutcome := mkOutcome {
  out_accepted : bool;
  out_duplicate : bool;
  out_revision : N;
  out_generation : N;
  out_phase : SessionPhase;
  out_recording_result : RecordingResult;
  out_effects : list SessionEffect;
  out_rejection : option CommandRejection;
}.

Record AppliedOperation := mkApplied {
  ap_envelope : CommandEnvelope;
  ap_outcome : CommandOutcome;
}.

#[global] Instance preparation_mode_eq_dec : EqDecision PreparationMode.
Proof. solve_decision. Defined.
#[global] Instance session_phase_eq_dec : EqDecision SessionPhase.
Proof. solve_decision. Defined.
#[global] Instance control_state_eq_dec : EqDecision ExperimentControlState.
Proof. solve_decision. Defined.
#[global] Instance presentation_eq_dec : EqDecision PresentationState.
Proof. solve_decision. Defined.
#[global] Instance completion_eq_dec : EqDecision CompletionProgress.
Proof. solve_decision. Defined.
#[global] Instance recording_failure_eq_dec : EqDecision RecordingFailure.
Proof. solve_decision. Defined.
#[global] Instance session_command_eq_dec : EqDecision SessionCommand.
Proof. solve_decision. Defined.
#[global] Instance command_envelope_eq_dec : EqDecision CommandEnvelope.
Proof. solve_decision. Defined.

(** Boolean tests of the code. *)
Notation "x == y" := (bool_decide (x = y)) (at level 70, no associativity) : quest_scope.
Notation "x != y" := (negb (bool_decide (x = y))) (at level 70, no associativity) : quest_scope.

Definition OPERATION_HISTORY_CAPACITY : N := 64.

Record ExperimentSessionController := mkController {
  preparation_mode : PreparationMode;
  phase : SessionPhase;
  control_state : ExperimentControlState;
  explicit_start : bool;
  audio_prepared : bool;
  presentation : PresentationState;
  generation : N;
  revision : N;
  last_monotonic : option MonotonicNanos;
  active_since : option MonotonicNanos;
  active_time_ns : N;
  completion_threshold_ns : N;
  completion : CompletionProgress;
  condition : option ConditionKey;
  audio_started : bool;
  audio_ended : bool;
  audio_error : bool;
  recording_result : RecordingResult;
  operations : list AppliedOperation;
  retired_operation_floor : N;
}.

(** Field assignments [self.field = value]. *)

Definition set_phase (v : SessionPhase) (c : ExperimentSessionController) : ExperimentSessionController :=
  mkController (preparation_mode c) v (control_state c) (explicit_start c) (audio_prepared c)
    (presentation c) (generation c) (revision c) (last_monotonic c) (active_since c)
    (active_time_ns c) (completion_threshold_ns c) (completion c) (condition c) (audio_started c)
    (audio_ended c) (audio_error c) (recording_result c) (operations c)
    (retired_operation_floor c).

Definition set_control_state (v : ExperimentControlState) (c : ExperimentSessionController) : ExperimentSessionController :=
  mkController (preparation_mode c) (phase c) v (explicit_start c) (audio_prepared c)
    (presentation c) (generation c) (revision c) (last_monotonic c) (active_since c)
    (active_time_ns c) (completion_threshold_ns c) (completion c) (condition c) (audio_started c)
    (audio_ended c) (audio_error c) (recording_result c) (operations c)
    (retired_operation_floor c).

Definition set_explicit_start (v : bool) (c : ExperimentSessionController) : ExperimentSessionController :=
  mkController (preparation_mode c) (phase c) (control_state c) v (audio_prepared c)
    (presentation c) (generation c) (revision c) (last_monotonic c) (active_since c)
    (active_time_ns c) (completion_threshold_ns c) (completion c) (condition c) (audio_started c)
    (audio_ended c) (audio_error c) (recording_result c) (operations c)
    (retired_operation_floor c).

Definition set_audio_prepared (v : bool) (c : ExperimentSessionController) : ExperimentSessionController :=
  mkController (preparation_mode c) (phase c) (control_state c) (explicit_start c) v
    (presentation c) (generation c) (revision c) (last_monotonic c) (active_since c)
    (active_time_ns c) (completion_threshold_ns c) (completion c) (condition c) (audio_started c)
    (audio_ended c) (audio_error c) (recording_result c) (operations c)
    (retired_operation_floor c).

Definition set_presentation (v : PresentationState) (c : ExperimentSessionController) : ExperimentSessionController :=
  mkController (preparation_mode c) (phase c) (control_state c) (explicit_start c)
    (audio_prepared c) v (generation c) (revision c) (last_monotonic c) (active_since c)
    (active_time_ns c) (completion_threshold_ns c) (completion c) (condition c) (audio_started c)
    (audio_ended c) (audio_error c) (recording_result c) (operations c)
    (retired_operation_floor c).

Definition set_generation (v : N) (c : ExperimentSessionController) : ExperimentSessionController :=
  mkController (preparation_mode c) (phase c) (control_state c) (explicit_start c)
    (audio_prepared c) (presentation c) v (revision c) (last_monotonic c) (active_since c)
    (active_time_ns c) (completion_threshold_ns c) (completion c) (condition c) (audio_started c)
    (audio_ended c) (audio_error c) (recording_result c) (operations c)
    (retired_operation_floor c).

Definition set_revision (v : N) (c : ExperimentSessionController) : ExperimentSessionController :=
  mkController (preparation_mode c) (phase c) (control_state c) (explicit_start c)
    (audio_prepared c) (presentation c) (generation c) v (last_monotonic c) (active_since c)
    (active_time_ns c) (completion_threshold_ns c) (completion c) (condition c) (audio_started c)
    (audio_ended c) (audio_error c) (recording_result c) (operations c)
    (retired_operation_floor c).

Definition set_last_monotonic (v : option MonotonicNanos) (c : ExperimentSessionController) : ExperimentSessionController :=
  mkController (preparation_mode c) (phase c) (control_state c) (explicit_start c)
    (audio_prepared c) (presentation c) (generation c) (revision c) v (active_since c)
    (active_time_ns c) (completion_threshold_ns c) (completion c) (condition c) (audio_started c)
    (audio_ended c) (audio_error c) (recording_result c) (operations c)
    (retired_operation_floor c).

Definition set_active_since (v : option MonotonicNanos) (c : ExperimentSessionController) : ExperimentSessionController :=
  mkController (preparation_mode c) (phase c) (control_state c) (explicit_start c)
    (audio_prepared c) (presentation c) (generation c) (revision c) (last_monotonic c) v
    (active_time_ns c) (completion_threshold_ns c) (completion c) (condition c) (audio_started c)
    (audio_ended c) (audio_error c) (recording_result c) (operations c)
    (retired_operation_floor c).

Definition set_active_time_ns (v : N) (c : ExperimentSessionController) : ExperimentSessionController :=
  mkController (preparation_mode c) (phase c) (control_state c) (explicit_start c)
    (audio_prepared c) (presentation c) (generation c) (revision c) (last_monotonic c)
    (active_since c) v (completion_threshold_ns c) (completion c) (condition c) (audio_started c)
    (audio_ended c) (audio_error c) (recording_result c) (operations c)
    (retired_operation_floor c).

Definition set_completion_threshold_ns (v : N) (c : ExperimentSessionController) : ExperimentSessionController :=
  mkController (preparation_mode c) (phase c) (control_state c) (explicit_start c)
    (audio_prepared c) (presentation c) (generation c) (revision c) (last_monotonic c)
    (active_since c) (active_time_ns c) v (completion c) (condition c) (audio_started c)
    (audio_ended c) (audio_error c) (recording_result c) (operations c)
    (retired_operation_floor c).

Definition set_completion (v : CompletionProgress) (c : ExperimentSessionController) : ExperimentSessionController :=
  mkController (preparation_mode c) (phase c) (control_state c) (explicit_start c)
    (audio_prepared c) (presentation c) (generation c) (revision c) (last_monotonic c)
    (active_since c) (active_time_ns c) (completion_threshold_ns c) v (condition c)
    (audio_started c) (audio_ended c) (audio_error c) (recording_result c) (operations c)
    (retired_operation_floor c).

Definition set_condition (v : option ConditionKey) (c : ExperimentSessionController) : ExperimentSessionController :=
  mkController (preparation_mode c) (phase c) (control_state c) (explicit_start c)
    (audio_prepared c) (presentation c) (generation c) (revision c) (last_monotonic c)
    (active_since c) (active_time_ns c) (completion_threshold_ns c) (completion c) v
    (audio_started c) (audio_ended c) (audio_error c) (recording_result c) (operations c)
    (retired_operation_floor c).

Definition set_audio_started (v : bool) (c : ExperimentSessionController) : ExperimentSessionController :=
  mkController (preparation_mode c) (phase c) (control_state c) (explicit_start c)
    (audio_prepared c) (presentation c) (generation c) (revision c) (last_monotonic c)
    (active_since c) (active_time_ns c) (completion_threshold_ns c) (completion c) (condition c) v
    (audio_ended c) (audio_error c) (recording_result c) (operations c)
    (retired_operation_floor c).

Definition set_audio_ended (v : bool) (c : ExperimentSessionController) : ExperimentSessionController :=
  mkController (preparation_mode c) (phase c) (control_state c) (explicit_start c)
    (audio_prepared c) (presentation c) (generation c) (revision c) (last_monotonic c)
    (active_since c) (active_time_ns c) (completion_threshold_ns c) (completion c) (condition c)
    (audio_started c) v (audio_error c) (recording_result c) (operations c)
    (retired_operation_floor c).

Definition set_audio_error (v : bool) (c : ExperimentSessionController) : ExperimentSessionController :=
  mkController (preparation_mode c) (phase c) (control_state c) (explicit_start c)
    (audio_prepared c) (presentation c) (generation c) (revision c) (last_monotonic c)
    (active_since c) (active_time_ns c) (completion_threshold_ns c) (completion c) (condition c)
    (audio_started c) (audio_ended c) v (recording_result c) (operations c)
    (retired_operation_floor c).

Definition set_recording_result (v : RecordingResult) (c : ExperimentSessionController) : ExperimentSessionController :=
  mkController (preparation_mode c) (phase c) (control_state c) (explicit_start c)
    (audio_prepared c) (presentation c) (generation c) (revision c) (last_monotonic c)
    (active_since c) (active_time_ns c) (completion_threshold_ns c) (completion c) (condition c)
    (audio_started c) (audio_ended c) (audio_error c) v (operations c) (retired_operation_floor c).

Definition set_operations (v : list AppliedOperation) (c : ExperimentSessionController) : ExperimentSessionController :=
  mkController (preparation_mode c) (phase c) (control_state c) (explicit_start c)
    (audio_prepared c) (presentation c) (generation c) (revision c) (last_monotonic c)
    (active_since c) (active_time_ns c) (completion_threshold_ns c) (completion c) (condition c)
    (audio_started c) (audio_ended c) (audio_error c) (recording_result c) v
    (retired_operation_floor c).

Definition set_retired_operation_floor (v : N) (c : ExperimentSessionController) : ExperimentSessionController :=
  mkController (preparation_mode c) (phase c) (control_state c) (explicit_start c)
    (audio_prepared c) (presentation c) (generation c) (revision c) (last_monotonic c)
    (active_since c) (active_time_ns c) (completion_threshold_ns c) (completion c) (condition c)
    (audio_started c) (audio_ended c) (audio_error c) (recording_result c) (operations c) v.

(** [ExperimentSessionController::default()]. *)
Definition controller_default : ExperimentSessionController := {|
  preparation_mode := LocalPanel; phase := Idle; control_state := CtlIdle;
  explicit_start := false; audio_prepared := false; presentation := Experimenter;
  generation := 0; revision := 0; last_monotonic := None; active_since := None;
  active_time_ns := 0; completion_threshold_ns := 0; completion := NotReached;
  condition := None; audio_started := false; audio_ended := false; audio_error := false;
  recording_result := RecNone; operations := []; retired_operation_floor := 0;
|}.

Definition with_preparation_mode (mode : PreparationMode) : ExperimentSessionController := {|
  preparation_mode := mode; phase := Idle; control_state := CtlIdle;
  explicit_start := false; audio_prepared := false;
  presentation := if mode == RemoteVr then Unfocused else Experimenter;
  generation := 0; revision := 0; last_monotonic := None; active_since := None;
  active_time_ns := 0; completion_threshold_ns := 0; completion := NotReached;
  condition := None; audio_started := false; audio_ended := false; audio_error := false;
  recording_result := RecNone; operations := []; retired_operation_floor := 0;
|}.

Definition observe_preparation_presentation (p : PresentationState) (c : ExperimentSessionController)
    : ExperimentSessionController * bool :=
  if (phase c != Idle) || (preparation_mode c != RemoteVr) || (presentation c == p)
  then (c, false)
  else (c |> set_presentation p |> set_revision (saturating_add64 (revision c) 1), true).

Definition completion_deadline (c : ExperimentSessionController) : option MonotonicNanos :=
  if (phase c != Active) || (control_state c != Running) ||
     (presentation c != ImmersiveActive) || (completion c != NotReached)
  then None
  else
    active_since ← active_since c;
    Some (saturating_add64 active_since
            (saturating_sub (completion_threshold_ns c) (active_time_ns c))).

(** ** Reducer *)

(** A handler's controller after the call and its [Result]. *)
Definition reduction : Type := ExperimentSessionController * result CommandRejection (list SessionEffect).

Definition advance_active_time (at_ : MonotonicNanos) (c : ExperimentSessionController)
    : ExperimentSessionController * list SessionEffect :=
  if (presentation c != ImmersiveActive) || (control_state c != Running) then
    (c |> set_active_since None, [])
  else match active_since c with
  | None => (c |> set_active_since (Some at_), [])
  | Some started =>
      let c := c |> set_active_since (Some at_) in
      match checked_duration_since at_ started with
      | None => (c, [])
      | Some delta =>
          let c := c |> set_active_time_ns (saturating_add64 (active_time_ns c) delta) in
          if (completion c == NotReached) && (completion_threshold_ns c <=? active_time_ns c) then
            (c |> set_completion PersistencePending,
             [PersistCompletion (generation c) (active_time_ns c)])
          else (c, [])
      end
  end.

Definition finish_terminal_transition (c : ExperimentSessionController)
    : ExperimentSessionController * list SessionEffect :=
  let c := c |> set_control_state CtlIdle in
  if phase c == FinalizingRestart then
    let c := c |> set_phase Idle in
    let c := if preparation_mode c == LocalPanel then c |> set_presentation Experimenter else c in
    (c |> set_condition None |> set_completion NotReached |> set_completion_threshold_ns 0
       |> set_active_time_ns 0 |> set_audio_started false |> set_audio_ended false
       |> set_audio_error false,
     [ResetRuntimeDefaults;
      if preparation_mode c == RemoteVr then ReturnToPreparation else ShowExperimenter])
  else (c |> set_phase Closed, [ShutdownApp]).

Definition reduce_audio_prepared (c : ExperimentSessionController) : reduction :=
  if (phase c != Active) || (control_state c != Arming) then (c, Err InvalidPhase)
  else (c |> set_audio_prepared true |> set_control_state Armed, Ok [RecordControl EvArmed]).

(** The arm of [OfficialStart | Pause | Resume]: the state it requires, the
    state it moves to and the event it records. *)
Definition control_transition (command : SessionCommand)
    : ExperimentControlState * ExperimentControlState * SessionEventKind :=
  match command with
  | OfficialStart => (Armed, Running, EvOfficialStart)
  | Pause => (Running, Paused, EvExperimentPaused)
  | _ => (Paused, Running, EvExperimentResumed)
  end.

Definition reduce_control (command : SessionCommand) (at_ : MonotonicNanos)
    (c : ExperimentSessionController) : reduction :=
  let '(required, next, event) := control_transition command in
  if (phase c != Active) || (control_state c != required) then (c, Err InvalidPhase)
  else if (command == Resume) && audio_error c then (c, Err InvalidPhase)
  else if (next == Running) && (presentation c != ImmersiveActive) then (c, Err InvalidPhase)
  else
    let '(c, effects) := advance_active_time at_ c in
    let c := c |> set_control_state next in
    let c := if next == Running then c |> set_audio_error false else c in
    (c |> set_active_since (if next == Running then Some at_ else None),
     Ok (effects ++ [RecordControl event])).

(** The arm of [Arm | Start]. *)
Definition reduce_start (explicit : bool) (cond : ConditionKey) (threshold_ns : N)
    (c : ExperimentSessionController) : reduction :=
  if phase c != Idle then (c, Err InvalidPhase)
  else if threshold_ns =? 0 then (c, Err InvalidThreshold)
  else
    let c :=
      c |> set_generation (N.max (saturating_add64 (generation c) 1) 1) |> set_phase Preparing
        |> set_explicit_start explicit |> set_control_state Arming |> set_audio_prepared false
        |> set_presentation Transition |> set_active_since None |> set_active_time_ns 0
        |> set_completion_threshold_ns threshold_ns |> set_completion NotReached
        |> set_condition (Some cond) |> set_audio_started false |> set_audio_ended false
        |> set_audio_error false |> set_recording_result RecNone in
    (c, Ok [PrepareRecording (generation c) cond threshold_ns]).

Definition reduce_recording_prepared (c : ExperimentSessionController) : reduction :=
  if phase c != Preparing then (c, Err InvalidPhase)
  else (c |> set_phase Active
          |> set_control_state (if explicit_start c then Arming else Running), Ok []).

Definition reduce_prepare_failed (error : RecordingFailure) (c : ExperimentSessionController) : reduction :=
  if negb ((phase c == Preparing) || (phase c == Exiting)) then (c, Err InvalidPhase)
  else
    let c := c |> set_recording_result (Unsaved false error) in
    if phase c == Exiting then
      (c |> set_phase Closed |> set_control_state CtlIdle |> set_presentation Unfocused,
       Ok [ShutdownApp])
    else
      (c |> set_phase Idle |> set_control_state CtlIdle
         |> set_presentation (if preparation_mode c == RemoteVr then Unfocused else Experimenter)
         |> set_condition None,
       Ok [ResetRuntimeDefaults;
           if preparation_mode c == RemoteVr then ReturnToPreparation else ShowExperimenter]).

Definition reduce_presentation_changed (p : PresentationState) (at_ : MonotonicNanos)
    (c : ExperimentSessionController) : reduction :=
  if (phase c == Idle) && (preparation_mode c == RemoteVr) then (c |> set_presentation p, Ok [])
  else if phase c != Active then (c, Err InvalidPhase)
  else
    let '(c, effects) := advance_active_time at_ c in
    let c := c |> set_presentation p in
    (c |> set_active_since
            (if (p == ImmersiveActive) && (control_state c == Running) then Some at_ else None),
     Ok (effects ++ [RecordPresentation p])).

Definition reduce_tick (at_ : MonotonicNanos) (c : ExperimentSessionController) : reduction :=
  if phase c != Active then (c, Err InvalidPhase)
  else let '(c, effects) := advance_active_time at_ c in (c, Ok effects).

Definition reduce_audio_started (at_ : MonotonicNanos) (c : ExperimentSessionController) : reduction :=
  if phase c != Active then (c, Err InvalidPhase)
  else
    let '(c, effects) := advance_active_time at_ c in
    if negb (audio_started c)
    then (c |> set_audio_started true, Ok (effects ++ [RecordAudioStarted]))
    else (c, Ok effects).

Definition reduce_audio_ended (at_ : MonotonicNanos) (c : ExperimentSessionController) : reduction :=
  if phase c != Active then (c, Err InvalidPhase)
  else
    let '(c, effects) := advance_active_time at_ c in
    if negb (audio_ended c)
    then (c |> set_audio_ended true, Ok (effects ++ [RecordAudioEnded]))
    else (c, Ok effects).

Definition reduce_audio_error (at_ : MonotonicNanos) (c : ExperimentSessionController) : reduction :=
  if phase c != Active then (c, Err InvalidPhase)
  else
    let '(c, effects) := advance_active_time at_ c in
    let '(c, effects) :=
      if negb (audio_error c)
      then (c |> set_audio_error true, effects ++ [RecordAudioError])
      else (c, effects) in
    if explicit_start c && (control_state c == Running)
    then (c |> set_control_state Paused |> set_active_since None,
          Ok (effects ++ [RecordControl EvExperimentPaused]))
    else (c, Ok effects).

Definition reduce_completion_durable (c : ExperimentSessionController) : reduction :=
  if negb ((phase c == Active) || (phase c == FinalizingRestart) || (phase c == Exiting)) ||
     (completion c != PersistencePending)
  then (c, Err CompletionNotPending)
  else (c |> set_completion Durable, Ok []).

Definition reduce_restart (at_ : MonotonicNanos) (c : ExperimentSessionController) : reduction :=
  if negb ((phase c == Preparing) || (phase c == Active)) then (c, Err InvalidPhase)
  else
    let '(c, effects) := if phase c == Active then advance_active_time at_ c else (c, []) in
    let c := c |> set_active_since None |> set_phase FinalizingRestart
               |> set_control_state Finalizing in
    let c := if preparation_mode c == LocalPanel then c |> set_presentation Experimenter else c in
    (c, Ok (effects ++ [FinalizeRecording (generation c) FinRestartToExperimenter
                          (completion c != NotReached)])).

(** The arms of [SaveAndExit] and [ImmersiveOwnerDestroyed], which differ in the
    reason they record. *)
Definition reduce_exit (reason : FinalizationReason) (at_ : MonotonicNanos)
    (c : ExperimentSessionController) : reduction :=
  let effects := [DisarmKiosk] in
  if (phase c == Closed) || (phase c == Exiting) then (c, Ok effects)
  else if phase c == FinalizingRestart then
    (c |> set_phase Exiting |> set_presentation Unfocused, Ok effects)
  else
    let '(c, effects) :=
      if phase c == Active
      then let '(c, more) := advance_active_time at_ c in (c, effects ++ more)
      else (c, effects) in
    let c := c |> set_active_since None |> set_presentation Unfocused in
    if (phase c == Preparing) || (phase c == Active) then
      let c := c |> set_phase Exiting |> set_control_state Finalizing in
      (c, Ok (effects ++ [FinalizeRecording (generation c) reason (completion c != NotReached)]))
    else if phase c == Idle then (c |> set_phase Closed, Ok (effects ++ [ShutdownApp]))
    else (c, Err InvalidPhase).

Definition reduce_finalized (durable_completion saved : bool) (c : ExperimentSessionController) : reduction :=
  if negb ((phase c == FinalizingRestart) || (phase c == Exiting)) then (c, Err InvalidPhase)
  else
    let threshold_reached := completion c != NotReached in
    if negb (Bool.eqb threshold_reached durable_completion)
    then (c, Err FinalizationCompletionMismatch)
    else
      let c := c |> set_recording_result
                      (if saved then Saved durable_completion
                       else Unsaved durable_completion FailDataLoss) in
      let '(c, effects) := finish_terminal_transition c in (c, Ok effects).

Definition reduce_finalization_failed (durable_completion : bool) (error : RecordingFailure)
    (c : ExperimentSessionController) : reduction :=
  if negb ((phase c == FinalizingRestart) || (phase c == Exiting)) then (c, Err InvalidPhase)
  else
    let actually_durable := completion c == Durable in
    if negb (Bool.eqb actually_durable durable_completion)
    then (c, Err FinalizationCompletionMismatch)
    else
      let c := c |> set_recording_result (Unsaved durable_completion error) in
      let '(c, effects) := finish_terminal_transition c in (c, Ok effects).

Definition reduce (envelope : CommandEnvelope) (c : ExperimentSessionController) : reduction :=
  let at_ := cmd_at envelope in
  match cmd_command envelope with
  | AudioPrepared => reduce_audio_prepared c
  | OfficialStart | Pause | Resume => reduce_control (cmd_command envelope) at_ c
  | Arm cond threshold_ns => reduce_start true cond threshold_ns c
  | Start cond threshold_ns => reduce_start false cond threshold_ns c
  | RecordingPrepared => reduce_recording_prepared c
  | RecordingPrepareFailed error => reduce_prepare_failed error c
  | PresentationChanged p => reduce_presentation_changed p at_ c
  | Tick => reduce_tick at_ c
  | AudioStarted => reduce_audio_started at_ c
  | AudioEnded => reduce_audio_ended at_ c
  | AudioError => reduce_audio_error at_ c
  | CompletionDurable => reduce_completion_durable c
  | RestartToExperimenter => reduce_restart at_ c
  | SaveAndExit => reduce_exit FinSaveAndExit at_ c
  | ImmersiveOwnerDestroyed => reduce_exit FinInterruptedRecovery at_ c
  | RecordingFinalized durable_completion saved => reduce_finalized durable_completion saved c
  | RecordingFinalizationFailed durable_completion error =>
      reduce_finalization_failed durable_completion error c
  end.

(** ** Operation fencing *)

Definition rejected (rejection : CommandRejection) (c : ExperimentSessionController) : CommandOutcome := {|
  out_accepted := false; out_duplicate := false; out_revision := revision c;
  out_generation := generation c; out_phase := phase c;
  out_recording_result := recording_result c; out_effects := [];
  out_rejection := Some rejection;
|}.

Definition remember (envelope : CommandEnvelope) (outcome : CommandOutcome)
    (c : ExperimentSessionController) : ExperimentSessionController :=
  let c :=
    if len (operations c) =? OPERATION_HISTORY_CAPACITY then
      match operations c with
      | retired :: rest =>
          c |> set_operations rest
            |> set_retired_operation_floor
                 (N.max (retired_operation_floor c) (cmd_operation (ap_envelope retired)))
      | [] => c
      end
    else c in
  c |> set_operations (operations c ++ [mkApplied envelope outcome]).

Definition record_rejection (envelope : CommandEnvelope) (rejection : CommandRejection)
    (c : ExperimentSessionController) : ExperimentSessionController * CommandOutcome :=
  let outcome := rejected rejection c in (remember envelope outcome c, outcome).

Definition set_out_duplicate (v : bool) (o : CommandOutcome) : CommandOutcome :=
  mkOutcome (out_accepted o) v (out_revision o) (out_generation o) (out_phase o)
    (out_recording_result o) (out_effects o) (out_rejection o).

(** [envelope.at < previous] for a recorded last time. *)
Definition regresses (c : ExperimentSessionController) (at_ : MonotonicNanos) : bool :=
  match last_monotonic c with Some previous => at_ <? previous | None => false end.

Definition find_operation (token : OperationToken) (l : list AppliedOperation) : option AppliedOperation :=
  List.find (fun entry => cmd_operation (ap_envelope entry) =? token) l.

Definition apply (envelope : CommandEnvelope) (c : ExperimentSessionController)
    : ExperimentSessionController * CommandOutcome :=
  match find_operation (cmd_operation envelope) (operations c) with
  | Some previous =>
      if ap_envelope previous == envelope
      then (c, set_out_duplicate true (ap_outcome previous))
      else (c, rejected OperationConflict c)
  | None =>
      if cmd_operation envelope <=? retired_operation_floor c then (c, rejected OperationRetired c)
      else if cmd_expected_generation envelope != generation c
      then record_rejection envelope StaleGeneration c
      else if regresses c (cmd_at envelope)
      then record_rejection envelope MonotonicTimeRegression c
      else
        let '(c, result) := reduce envelope c in
        let '(c, outcome) :=
          match result with
          | Ok effects =>
              let c := c |> set_last_monotonic (Some (cmd_at envelope))
                         |> set_revision (saturating_add64 (revision c) 1) in
              (c, mkOutcome true false (revision c) (generation c) (phase c)
                    (recording_result c) effects None)
          | Err rejection => (c, rejected rejection c)
          end in
        (remember envelope outcome c, outcome)
  end.

(** ** The adapter's entry points

    [ExperimentSessionRuntime] numbers its commands itself; only the counter
    and the controller of that struct take part here. *)
Record ReducerAdapter := mkAdapter {
  ad_controller : ExperimentSessionController;
  ad_next_reducer_operation : N;
}.

Definition apply_controller (expected_generation : N) (at_ : MonotonicNanos)
    (command : SessionCommand) (a : ReducerAdapter) : ReducerAdapter * CommandOutcome :=
  let next := N.max (saturating_add64 (ad_next_reducer_operation a) 1) 1 in
  let '(c, outcome) := apply (mkCommand next expected_generation at_ command) (ad_controller a) in
  (mkAdapter c next, outcome).

(** The error of the code formats the rejection; it is kept as the value. *)
Definition apply_internal (at_ : MonotonicNanos) (command : SessionCommand) (a : ReducerAdapter)
    : ReducerAdapter * result (option CommandRejection) CommandOutcome :=
  let '(a, outcome) := apply_controller (generation (ad_controller a)) at_ command a in
  (a, if out_accepted outcome then Ok outcome else Err (out_rejection outcome)).
