(* ===== verification/SessionTheorems.v ===== *)
(** * Experiment session: invariant and lemmas

    The state invariant of the session reducer, preserved by every operation,
    and the frame and fencing lemmas the properties are proved from. *)

From S2P Require Import Prelude RustStr ExperimentSession.

Local Open Scope N_scope.
Local Open Scope quest_scope.

(** ** Steps and reachability *)

(** Machine-width inputs: every integer of a command is a [u64]. *)
Definition command_u64 (command : SessionCommand) : Prop :=
  match command with Arm _ t | Start _ t => t <= u64_max | _ => True end.

Definition envelope_u64 (e : CommandEnvelope) : Prop :=
  cmd_operation e <= u64_max ∧ cmd_expected_generation e <= u64_max ∧ cmd_at e <= u64_max ∧
  command_u64 (cmd_command e).

(** One call of a mutating method of the controller. *)
Inductive session_step : ExperimentSessionController → ExperimentSessionController → Prop :=
  | step_apply c e : envelope_u64 e → session_step c (apply e c).1
  | step_observe c p : session_step c (observe_preparation_presentation p c).1.

Definition session_reachable (c : ExperimentSessionController) : Prop :=
  ∃ mode, rtc session_step (with_preparation_mode mode) c.

(** ** Invariant *)

(** Experiment time is being counted. *)
Definition counting (c : ExperimentSessionController) : Prop :=
  control_state c = Running ∧ presentation c = ImmersiveActive.

(** What each phase fixes of the other fields. *)
Definition phase_inv (c : ExperimentSessionController) : Prop :=
  match phase c with
  | Idle => control_state c = CtlIdle ∧ active_since c = None ∧ completion c = NotReached
  | Preparing => control_state c = Arming ∧ active_since c = None ∧ completion c = NotReached ∧
      active_time_ns c = 0 ∧ is_Some (condition c) ∧ 0 < completion_threshold_ns c ∧
      presentation c = Transition
  | Active => control_state c ∈ [Arming; Armed; Running; Paused] ∧
      (is_Some (active_since c) ↔ counting c) ∧ is_Some (condition c) ∧
      0 < completion_threshold_ns c ∧
      (completion c = NotReached ↔ active_time_ns c < completion_threshold_ns c)
  | FinalizingRestart | Exiting => control_state c = Finalizing ∧ active_since c = None ∧
      is_Some (condition c)
  | Closed => control_state c = CtlIdle ∧ active_since c = None
  end.

(** The instant up to which active time has been accounted for. *)
Definition accounted (c : ExperimentSessionController) : N :=
  default (default 0 (last_monotonic c)) (active_since c).

Record session_inv (c : ExperimentSessionController) : Prop := {
  si_phase : phase_inv c;
  si_time : active_time_ns c <= accounted c ∧ accounted c <= default 0 (last_monotonic c);
  si_width : generation c <= u64_max ∧ revision c <= u64_max ∧ completion_threshold_ns c <= u64_max ∧
    default 0 (last_monotonic c) <= u64_max;
  si_started : phase c ∉ [Idle; Closed] → 0 < generation c;
  si_history : (length (operations c) <= 64)%nat ∧
    NoDup ((fun a => cmd_operation (ap_envelope a)) <$> operations c);
}.

(** ** [advance_active_time] *)

(** The outcome of adding an interval to the active time. *)
Definition advanced (at_ delta : N) (c : ExperimentSessionController)
    : ExperimentSessionController * list SessionEffect :=
  let c' := c |> set_active_since (Some at_) |> set_active_time_ns (active_time_ns c + delta) in
  if (completion c == NotReached) && (completion_threshold_ns c <=? active_time_ns c + delta)
  then (c' |> set_completion PersistencePending,
        [PersistCompletion (generation c) (active_time_ns c + delta)])
  else (c', []).

(** In a state with the invariant no saturation and no time regression occur. *)
Lemma advance_eq at_ c :
  phase c = Active → session_inv c → default 0 (last_monotonic c) <= at_ → at_ <= u64_max →
  (¬ counting c ∧ active_since c = None ∧
     advance_active_time at_ c = (c |> set_active_since None, [])) ∨
  (∃ s, counting c ∧ active_since c = Some s ∧ s <= at_ ∧ active_time_ns c + (at_ - s) <= at_ ∧
     advance_active_time at_ c = advanced at_ (at_ - s) c).
Proof.
  intros Hp [Hph Ht _ _ _] Hat Hw. unfold phase_inv in Hph. rewrite Hp in Hph.
  destruct Hph as (_ & Hs & _). unfold advance_active_time. unfold counting in *.
  destruct (active_since c) as [s|] eqn:Es.
  - right. exists s. destruct Hs as [Hs _]. destruct Hs as [H1 H2]; [eauto|].
    unfold accounted in Ht. rewrite Es in Ht. cbn in Ht.
    split; [done|]. split; [done|]. split; [lia|]. split; [lia|].
    rewrite H1, H2. rewrite !bool_decide_eq_true_2 by done. cbn [negb orb].
    unfold checked_duration_since, checked_sub. rewrite (proj2 (N.leb_le _ _)) by lia.
    cbn [active_time_ns set_active_since]. rewrite saturating_add64_small by lia. done.
  - left. assert (¬ (control_state c = Running ∧ presentation c = ImmersiveActive)) as Hn.
    { intros H. apply Hs in H as [? H]. done. }
    split; [done|]. split; [done|].
    destruct (decide (presentation c = ImmersiveActive)) as [E|E];
      [rewrite (bool_decide_eq_true_2 _ E)|by rewrite (bool_decide_eq_false_2 _ E)].
    rewrite (bool_decide_eq_false_2 (control_state c = Running)) by tauto. done.
Qed.

(** ** Case analysis of the reducer *)

(** Splits the tests of a handler that ran to [Ok]. *)
Ltac handler_cases H :=
  repeat match type of H with
  | (_, Err _) = (_, Ok _) => discriminate H
  | (_, Ok _) = (_, Err _) => discriminate H
  | (?c, Ok ?es) = (_, Ok _) => injection H as <- <-
  | (?c, Err ?es) = (_, Err _) => injection H as <- <-
  | context [if ?b then _ else _] => let E := fresh "E" in destruct b eqn:E
  end; bool_to_prop.

(** The fields [advance_active_time] may write. *)
Lemma advance_frame at_ c c1 es : advance_active_time at_ c = (c1, es) →
  ∃ s t p, c1 = c |> set_active_since s |> set_active_time_ns t |> set_completion p.
Proof.
  unfold advance_active_time. destruct c. cbn. intros H.
  repeat match type of H with
  | (_, _) = _ => injection H as <- <-; do 3 eexists;
      cbv [set_completion set_active_time_ns set_active_since]; cbn; reflexivity
  | context [if ?b then _ else _] => destruct b
  | context [match ?o with Some _ => _ | None => _ end] => destruct o
  end.
Qed.

Lemma reduce_exit_err reason at_ c c' r : reduce_exit reason at_ c = (c', Err r) → c' = c.
Proof.
  unfold reduce_exit. intros H.
  destruct (advance_active_time at_ c) as [c1 es] eqn:A.
  apply advance_frame in A as (s & t & p & ->).
  destruct c as [? []]; cbn in H; discriminate H.
Qed.

(** A failing command has not changed the controller. *)
Lemma reduce_err e c c' r : reduce e c = (c', Err r) → c' = c.
Proof.
  unfold reduce. destruct (cmd_command e); intros H; try (by eapply reduce_exit_err).
  all: cbv [reduce_audio_prepared reduce_control reduce_start reduce_recording_prepared
    reduce_prepare_failed reduce_presentation_changed reduce_tick reduce_audio_started
    reduce_audio_ended reduce_audio_error reduce_completion_durable reduce_restart
    reduce_finalized reduce_finalization_failed control_transition] in H.
  all: repeat match type of H with
  | (_, Ok _) = (_, Err _) => discriminate H
  | (_, Err _) = (_, Err _) => injection H as <- <-; reflexivity
  | context [finish_terminal_transition ?x] => destruct (finish_terminal_transition x)
  | context [advance_active_time ?x ?y] => destruct (advance_active_time x y)
  | context [if ?b then _ else _] => destruct b
  end.
Qed.

(** What [apply] does after a successful reduction, before it is remembered. *)
Definition stamp (at_ : MonotonicNanos) (c : ExperimentSessionController) : ExperimentSessionController :=
  c |> set_last_monotonic (Some at_) |> set_revision (saturating_add64 (revision c) 1).

(** The time conditions under which [apply] calls [reduce]. *)
Definition timely (at_ : MonotonicNanos) (c : ExperimentSessionController) : Prop :=
  default 0 (last_monotonic c) <= at_ ∧ at_ <= u64_max.

(** Splits the invariant of an updated controller; the width and history parts
    are closed here. *)
Ltac inv_build :=
  constructor;
  [ unfold phase_inv, counting; cbn
  | unfold accounted; cbn
  | cbn; split_and!; auto with quest; try done; try lia
  | cbn; auto
  | cbn; try done ].

(** Active time never overtakes the accounted instant. *)
Lemma advance_inv at_ c c1 es :
  phase c = Active → session_inv c → timely at_ c → advance_active_time at_ c = (c1, es) →
  session_inv (stamp at_ c1) ∧ active_time_ns c1 <= at_ ∧ phase c1 = Active ∧
  (completion c1 = NotReached ↔ active_time_ns c1 < completion_threshold_ns c1) ∧
  (∃ s t p, c1 = c |> set_active_since s |> set_active_time_ns t |> set_completion p).
Proof.
  intros Hp Hi [Ht Hw] A. pose proof (advance_frame _ _ _ _ A) as Hf.
  destruct (advance_eq at_ c Hp Hi Ht Hw) as [(Hn & Hs & E)|(s & Hc & Hs & Hle & Hb & E)];
    rewrite E in A; clear E; destruct Hi as [Hph Htm Hwd Hst Hhs];
    unfold phase_inv in Hph; rewrite Hp in Hph; destruct Hph as (H1 & H2 & H3 & H4 & H5);
    unfold accounted in Htm; rewrite Hs in Htm; cbn in Htm.
  - injection A as <- <-. split; [|cbn; split_and!; try done; try lia; tauto].
    inv_build; rewrite ?Hp; [|lia].
    split_and!; try done; tauto.
  - unfold advanced in A.
    destruct ((completion c == NotReached) && _) eqn:B.
    + apply andb_true_iff in B as [B1 B2]. bool_to_prop. injection A as <- <-. cbn.
      split; [|split_and!; try done; split; [done|lia]].
      inv_build; rewrite ?Hp; [|lia].
      split_and!; try done; eauto. split; [done|lia].
    + apply andb_false_iff in B.
      assert (completion c = NotReached ↔ active_time_ns c + (at_ - s) < completion_threshold_ns c) as Hx.
      { destruct B as [B|B]; bool_to_prop; (split; [|intros; apply H5; lia]); done || lia. }
      injection A as <- <-. cbn. split; [|by split_and!].
      inv_build; rewrite ?Hp; [|lia]. split_and!; try done; eauto.
Qed.

(** ** Preservation *)

(** The part of the invariant an Active controller has after
    [advance_active_time]. *)
Record advanced_inv (at_ : MonotonicNanos) (c c1 : ExperimentSessionController) : Prop := {
  ai_inv : session_inv (stamp at_ c1);
  ai_time : active_time_ns c1 <= at_;
  ai_phase : phase c1 = Active;
  ai_completion : completion c1 = NotReached ↔ active_time_ns c1 < completion_threshold_ns c1;
  ai_frame : ∃ s t p, c1 = c |> set_active_since s |> set_active_time_ns t |> set_completion p;
}.

Lemma advanced_inv_intro at_ c c1 es :
  phase c = Active → session_inv c → timely at_ c → advance_active_time at_ c = (c1, es) →
  advanced_inv at_ c c1.
Proof. intros Hp Hi Ht A. destruct (advance_inv at_ c c1 es Hp Hi Ht A) as (?&?&?&?&?). by constructor. Qed.

(** After [advance_active_time], changing only presentation, control state,
    audio flags and the interval start keeps the invariant as long as the
    interval is open exactly when time counts. *)
Lemma advanced_update at_ c c1 c2 :
  advanced_inv at_ c c1 →
  phase c2 = Active → generation c2 = generation c1 → revision c2 = revision c1 →
  active_time_ns c2 = active_time_ns c1 → completion c2 = completion c1 →
  completion_threshold_ns c2 = completion_threshold_ns c1 → condition c2 = condition c1 →
  operations c2 = operations c1 →
  control_state c2 ∈ [Arming; Armed; Running; Paused] →
  (active_since c2 = None ∧ ¬ counting c2 ∨ active_since c2 = Some at_ ∧ counting c2) →
  session_inv (stamp at_ c2).
Proof.
  intros [[Hph Htm Hwd Hst Hhs] Ht Hp1 Hc _] Hp Hg Hr Ha Hco Hth Hcd Hop Hctl Hs.
  unfold phase_inv in Hph. cbn in *. rewrite Hp1 in *. destruct Hph as (_ & _ & H3 & H4 & H5).
  inv_build; rewrite ?Hp, ?Hg, ?Hr, ?Ha, ?Hco, ?Hth, ?Hcd, ?Hop in *; auto with quest; try apply Hwd.
  - split; [done|]. split; [|done]. unfold counting in Hs.
    destruct Hs as [[-> Hs]|[-> Hs]]; [split; [by intros [? ?]|by intros ?]|split; [done|eauto]].
  - destruct Hs as [[-> Hs]|[-> Hs]]; cbn; lia.
Qed.

(** Runs the guards of a handler on a hypothesis [H : handler = (c', Ok es)]. *)
Ltac run_guards H :=
  repeat match type of H with
  | (_, Err _) = (_, Ok _) => discriminate H
  | (_, Ok _) = (_, Ok _) => injection H as <- <-
  | (if ?b then (_, Err _) else _) = _ => let E := fresh "G" in destruct b eqn:E
  | (if ?b then _ else _) = (_, Ok _) => let E := fresh "G" in destruct b eqn:E
  end; bool_to_prop.

(** Evaluates the equality tests of [H] that the context decides. *)
Ltac bd_eval H :=
  repeat match type of H with context [bool_decide ?P] =>
    first [rewrite (bool_decide_eq_true_2 P) in H by congruence
          |rewrite (bool_decide_eq_false_2 P) in H by congruence]
  end; cbn in H.

Ltac phase_rw := match goal with P : phase _ = _ |- _ => rewrite P end.

Section Preservation.
Context (at_ : MonotonicNanos) (c : ExperimentSessionController).
Context (Hi : session_inv c) (Ht : timely at_ c).

(** The state of the invariant a phase gives. *)
Lemma phase_facts p : phase c = p → phase_inv c → match p with
  | Preparing => active_since c = None ∧ completion c = NotReached ∧ active_time_ns c = 0 ∧
      is_Some (condition c) ∧ 0 < completion_threshold_ns c ∧ presentation c = Transition
  | Active => is_Some (condition c) ∧ 0 < completion_threshold_ns c
  | FinalizingRestart | Exiting => control_state c = Finalizing ∧ active_since c = None ∧ is_Some (condition c)
  | _ => active_since c = None ∧ control_state c = CtlIdle
  end.
Proof. intros <- H. unfold phase_inv in H. destruct (phase c); naive_solver. Qed.

(** A state in which no interval is open keeps its accounting when the clock
    moves on. *)
Lemma quiet_inv c2 :
  phase_inv c2 → active_since c2 = None → active_time_ns c2 <= at_ →
  generation c2 <= u64_max → completion_threshold_ns c2 <= u64_max →
  (phase c2 ∉ [Idle; Closed] → 0 < generation c2) → operations c2 = operations c →
  session_inv (stamp at_ c2).
Proof.
  intros Hp Hs Ha Hg Hth Hst Hop. destruct Hi as [_ _ _ _ Hhs]. constructor; cbn; auto.
  - unfold accounted. cbn. rewrite Hs. cbn. lia.
  - split_and!; auto with quest. apply Ht.
  - by rewrite Hop.
Qed.

Lemma time_le : active_time_ns c <= at_.
Proof. destruct Hi as [_ [H1 H2] _ _ _]. destruct Ht. lia. Qed.

Lemma audio_prepared_inv c' es : reduce_audio_prepared c = (c', Ok es) → session_inv (stamp at_ c').
Proof.
  unfold reduce_audio_prepared. intros H. run_guards H. destruct Hi as [Hph Htm Hwd Hst Hhs].
  unfold phase_inv in Hph. rewrite H in Hph. destruct Hph as (_ & Hs & H3 & H4 & H5).
  assert (active_since c = None) as Hn.
  { apply eq_None_not_Some. intros [? _]%Hs. congruence. }
  apply quiet_inv; cbn; auto; try apply Hwd; try apply time_le.
  unfold phase_inv, counting. cbn. rewrite H, Hn. split_and!; try done; [set_solver|].
  split; [by intros [? ?]|by intros [? ?]].
Qed.

Lemma control_inv command c' es :
  reduce_control command at_ c = (c', Ok es) → session_inv (stamp at_ c').
Proof.
  unfold reduce_control. destruct (control_transition command) as [[required next] event] eqn:T.
  destruct (advance_active_time at_ c) as [c1 es1] eqn:A. intros H. run_guards H.
  pose proof (advanced_inv_intro at_ c c1 es1 ltac:(assumption) Hi Ht A) as Ha.
  pose proof (ai_frame _ _ _ Ha) as (s & t & p & Hf).
  assert (next = Running ∧ presentation c = ImmersiveActive ∨ next = Paused) as Hn.
  { destruct command; cbn in T; injection T as <- <- <-;
      match goal with G : _ && _ = false |- _ => idtac end;
      repeat match goal with G : _ && _ = false |- _ => apply andb_false_iff in G; destruct G end;
      bool_to_prop; auto; try congruence. }
  eapply (advanced_update at_ c c1); [done|..]; subst c1; destruct (next == Running) eqn:E;
    bool_to_prop; cbn; auto.
  all: try (destruct Hn as [[-> _]| ->]; set_solver).
  - right. destruct Hn as [[-> Hn]|Hn]; [done|congruence].
  - left. split; [done|]. unfold counting. cbn. tauto.
Qed.

Lemma start_inv explicit cond threshold c' es :
  threshold <= u64_max → reduce_start explicit cond threshold c = (c', Ok es) →
  session_inv (stamp at_ c').
Proof.
  intros Hth. unfold reduce_start. intros H. run_guards H. apply quiet_inv; cbn; try done.
  - unfold phase_inv. cbn. split_and!; try done. lia.
  - lia.
  - pose proof (saturating_add64_max (generation c) 1). unfold u64_max in *. lia.
  - intros _. lia.
Qed.

Lemma recording_prepared_inv c' es :
  reduce_recording_prepared c = (c', Ok es) → session_inv (stamp at_ c').
Proof.
  unfold reduce_recording_prepared. intros H. run_guards H.
  destruct (phase_facts _ ltac:(eassumption) (si_phase _ Hi)) as (Hs & Hc & Ha & Hcd & Hth & Hpr).
  destruct Hi as [_ _ Hwd Hst _].
  apply quiet_inv; cbn; auto; try apply Hwd; try lia.
  - unfold phase_inv, counting. cbn. rewrite Hs, Hc, Ha, Hpr. split_and!; try done.
    + destruct (explicit_start c); set_solver.
    + split; [by intros [? ?]|by intros [? ?]].
  - intros _. apply Hst. phase_rw. set_solver.
Qed.

Lemma prepare_failed_inv error c' es :
  reduce_prepare_failed error c = (c', Ok es) → session_inv (stamp at_ c').
Proof.
  unfold reduce_prepare_failed. intros H. cbn in H. pose proof time_le as Hle.
  destruct (phase c) eqn:P; cbn in H; try discriminate H; injection H as <- <-;
    pose proof (phase_facts _ P (si_phase _ Hi)) as F; cbn in F; destruct Hi as [_ _ Hwd Hst _];
    apply quiet_inv; cbn; try apply Hwd; try set_solver; try tauto;
    unfold phase_inv; cbn; tauto.
Qed.

Lemma presentation_changed_inv p c' es :
  reduce_presentation_changed p at_ c = (c', Ok es) → session_inv (stamp at_ c').
Proof.
  unfold reduce_presentation_changed. destruct (advance_active_time at_ c) as [c1 es1] eqn:A.
  intros H. pose proof time_le as Hle. run_guards H.
  - pose proof (si_phase _ Hi) as F. unfold phase_inv in F.
    match goal with P : phase c = Idle |- _ => rewrite P in F end.
    destruct Hi as [_ _ Hwd Hst _].
    apply quiet_inv; cbn; auto; try apply Hwd; try tauto. unfold phase_inv. cbn.
    by phase_rw.
  - assert (phase c = Active) as P by assumption.
    pose proof (advanced_inv_intro at_ c c1 es1 P Hi Ht A) as Ha.
    pose proof (ai_frame _ _ _ Ha) as (s & t & q & Hf).
    pose proof (si_phase _ Hi) as F. unfold phase_inv in F. rewrite P in F. destruct F as (F & _).
    eapply (advanced_update at_ c c1); [done|..]; subst c1; cbn; auto. unfold counting. cbn.
    destruct (decide (p = ImmersiveActive)) as [E|E];
      destruct (decide (control_state c = Running)) as [E'|E'];
      rewrite ?(bool_decide_eq_true_2 _ E), ?(bool_decide_eq_true_2 _ E'),
        ?(bool_decide_eq_false_2 _ E), ?(bool_decide_eq_false_2 _ E'); cbn; tauto.
Qed.

Lemma durable_inv c' es : reduce_completion_durable c = (c', Ok es) → session_inv (stamp at_ c').
Proof.
  unfold reduce_completion_durable. intros H. pose proof time_le as Hle. run_guards H.
  destruct Hi as [F Htm Hwd Hst Hhs]. unfold phase_inv in F.
  constructor; cbn; auto.
  - unfold phase_inv, counting in *. cbn. destruct (phase c); try tauto; try (exfalso; cbn in *; intuition congruence).
    split_and!; try tauto. split; [done|]. intros Hlt. apply F in Hlt. congruence.
  - unfold accounted in *. cbn. destruct Ht as [Ht1 Ht2].
    destruct (active_since c); cbn in *; lia.
  - split_and!; auto with quest; try apply Hwd. apply Ht.
Qed.

(** The handlers that only advance the clock and set audio flags. *)
Lemma active_control_state : phase c = Active → control_state c ∈ [Arming; Armed; Running; Paused].
Proof. intros P. pose proof (si_phase _ Hi) as F. unfold phase_inv in F. rewrite P in F. apply F. Qed.

(** [advance_active_time] opens an interval exactly when time counts. *)
Lemma advanced_since c1 es :
  phase c = Active → advance_active_time at_ c = (c1, es) →
  active_since c1 = None ∧ ¬ counting c1 ∨ active_since c1 = Some at_ ∧ counting c1.
Proof.
  intros P A. destruct (advance_eq at_ c P Hi (proj1 Ht) (proj2 Ht))
    as [(Hn & _ & E)|(s & Hc & _ & _ & _ & E)]; rewrite E in A.
  - injection A as <- <-. by left.
  - right. unfold advanced in A. destruct (_ && _); injection A as <- <-; done.
Qed.

Lemma audio_flag_inv c1 c2 es :
  phase c = Active → advance_active_time at_ c = (c1, es) →
  c2 = c1 ∨ c2 = set_audio_started true c1 ∨ c2 = set_audio_ended true c1 ∨
    c2 = set_audio_error true c1 ∨
    (c2 = c1 |> set_control_state Paused |> set_active_since None) ∨
    (c2 = c1 |> set_audio_error true |> set_control_state Paused |> set_active_since None) →
  session_inv (stamp at_ c2).
Proof.
  intros P A Hc2. pose proof (advanced_inv_intro at_ c c1 es P Hi Ht A) as Ha.
  pose proof (advanced_since c1 es P A) as Hs. pose proof (ai_phase _ _ _ Ha) as P1.
  assert (control_state c1 ∈ [Arming; Armed; Running; Paused]) as Hctl.
  { destruct (ai_frame _ _ _ Ha) as (s & t & p & ->). by apply active_control_state. }
  eapply (advanced_update at_ c c1); [done|..];
    destruct Hc2 as [->|[->|[->|[->|[->| ->]]]]]; try done; try set_solver;
    (left; split; [done|]; by intros [? ?]).
Qed.

Lemma tick_inv c' es : reduce_tick at_ c = (c', Ok es) → session_inv (stamp at_ c').
Proof.
  unfold reduce_tick. destruct (advance_active_time at_ c) eqn:A. intros H. run_guards H.
  eapply audio_flag_inv; eauto.
Qed.

Lemma audio_started_inv c' es : reduce_audio_started at_ c = (c', Ok es) → session_inv (stamp at_ c').
Proof.
  unfold reduce_audio_started. destruct (advance_active_time at_ c) eqn:A. intros H. run_guards H;
  eapply audio_flag_inv; eauto.
Qed.

Lemma audio_ended_inv c' es : reduce_audio_ended at_ c = (c', Ok es) → session_inv (stamp at_ c').
Proof.
  unfold reduce_audio_ended. destruct (advance_active_time at_ c) eqn:A. intros H. run_guards H;
  eapply audio_flag_inv; eauto 6.
Qed.

Lemma audio_error_inv c' es : reduce_audio_error at_ c = (c', Ok es) → session_inv (stamp at_ c').
Proof.
  unfold reduce_audio_error. destruct (advance_active_time at_ c) as [c1 es1] eqn:A.
  destruct (negb (audio_error c1)); intros H; run_guards H; eapply audio_flag_inv; eauto 10.
Qed.

(** Facts about a session that is being prepared or active. *)
Lemma open_facts : phase c = Preparing ∨ phase c = Active → is_Some (condition c) ∧ 0 < generation c.
Proof.
  intros P. pose proof (si_phase _ Hi) as F. pose proof (si_started _ Hi) as G. unfold phase_inv in F.
  destruct P as [P|P]; rewrite P in F, G; (split; [apply F|apply G; set_solver]).
Qed.

(** Leaving the preparing or active phase. *)
Lemma leave_inv c2 :
  phase c = Preparing ∨ phase c = Active → generation c2 = generation c →
  completion_threshold_ns c2 = completion_threshold_ns c → condition c2 = condition c →
  operations c2 = operations c → active_time_ns c2 <= at_ →
  phase c2 ∈ [FinalizingRestart; Exiting] → control_state c2 = Finalizing →
  active_since c2 = None → session_inv (stamp at_ c2).
Proof.
  intros P Hg Hth Hcd Hop Hle Hp Hctl Hs. destruct (open_facts P) as [Hc Hg0].
  destruct (si_width _ Hi) as (Hw1 & _ & Hw2 & _).
  apply quiet_inv; rewrite ?Hg, ?Hth; auto.
  unfold phase_inv. rewrite Hcd. set_unfold. by destruct Hp as [->|[->|[]]].
Qed.

Lemma restart_inv c' es : reduce_restart at_ c = (c', Ok es) → session_inv (stamp at_ c').
Proof.
  unfold reduce_restart. pose proof time_le as Hle. intros H.
  destruct (negb _) eqn:G in H; [discriminate H|]. bool_to_prop.
  assert (phase c = Preparing ∨ phase c = Active) as P.
  { apply orb_true_iff in G as [G|G]; bool_to_prop; auto. }
  destruct (advance_active_time at_ c) as [c1 es1] eqn:A.
  destruct (phase c == Active) eqn:B; bool_to_prop; cbn in H.
  - pose proof (advanced_inv_intro at_ c c1 es1 ltac:(assumption) Hi Ht A) as Ha.
    pose proof (ai_time _ _ _ Ha) as Hle1. destruct (ai_frame _ _ _ Ha) as (s & t & p & ->).
    injection H as <- <-. apply leave_inv; try done; destruct (_ == LocalPanel); try done; set_solver.
  - injection H as <- <-. apply leave_inv; try done; destruct (_ == LocalPanel); try done; set_solver.
Qed.

Lemma exit_inv reason c' es : reduce_exit reason at_ c = (c', Ok es) → session_inv (stamp at_ c').
Proof.
  unfold reduce_exit. pose proof time_le as Hle. intros H.
  destruct (advance_active_time at_ c) as [c1 es1] eqn:A.
  destruct (si_width _ Hi) as (Hw1 & _ & Hw2 & _). pose proof (si_phase _ Hi) as F.
  pose proof (si_started _ Hi) as G. unfold phase_inv in F.
  destruct (phase c) eqn:P; cbn in H.
  all: bd_eval H.
  - injection H as <- <-. apply quiet_inv; cbn; try tauto; set_solver.
  - injection H as <- <-. apply leave_inv; try done; [auto|set_solver].
  - pose proof (advanced_inv_intro at_ c c1 es1 P Hi Ht A) as Ha.
    pose proof (ai_time _ _ _ Ha) as Hle1. pose proof (ai_phase _ _ _ Ha) as P1. bd_eval H.
    destruct (ai_frame _ _ _ Ha) as (s & t & p & ->).
    injection H as <- <-. apply leave_inv; try done; [auto|set_solver].
  - injection H as <- <-. apply quiet_inv; cbn; try tauto; try (unfold phase_inv; cbn; tauto).
    intros _. apply G. set_solver.
  - injection H as <- <-. apply quiet_inv; try tauto; unfold phase_inv; by rewrite P.
  - injection H as <- <-. apply quiet_inv; try tauto; unfold phase_inv; by rewrite P.
Qed.

Lemma terminal_inv result :
  phase c = FinalizingRestart ∨ phase c = Exiting →
  session_inv (stamp at_ (finish_terminal_transition (set_recording_result result c)).1).
Proof.
  intros P. pose proof time_le as Hle. destruct (si_width _ Hi) as (Hw1 & _ & Hw2 & _).
  pose proof (si_phase _ Hi) as F. unfold phase_inv in F.
  unfold finish_terminal_transition. cbn.
  destruct P as [P|P]; rewrite P in F;
    [rewrite (bool_decide_eq_true_2 _ P)|rewrite bool_decide_eq_false_2 by congruence];
    destruct (preparation_mode c == LocalPanel); cbn;
    apply quiet_inv; cbn; try lia; try tauto; try set_solver;
    unfold phase_inv; cbn; tauto.
Qed.

Lemma finalized_inv durable saved c' es :
  reduce_finalized durable saved c = (c', Ok es) → session_inv (stamp at_ c').
Proof.
  unfold reduce_finalized. intros H. destruct (negb _) eqn:G in H; [discriminate H|].
  destruct (negb _) in H; [discriminate H|]. bool_to_prop.
  pose proof (terminal_inv (if saved then Saved durable else Unsaved durable FailDataLoss)) as T.
  destruct (finish_terminal_transition _) as [c2 es2]. injection H as <- <-. apply T.
  apply orb_true_iff in G as [G|G]; bool_to_prop; auto.
Qed.

Lemma finalization_failed_inv durable error c' es :
  reduce_finalization_failed durable error c = (c', Ok es) → session_inv (stamp at_ c').
Proof.
  unfold reduce_finalization_failed. intros H. destruct (negb _) eqn:G in H; [discriminate H|].
  destruct (negb _) in H; [discriminate H|]. bool_to_prop.
  pose proof (terminal_inv (Unsaved durable error)) as T.
  destruct (finish_terminal_transition _) as [c2 es2]. injection H as <- <-. apply T.
  apply orb_true_iff in G as [G|G]; bool_to_prop; auto.
Qed.

End Preservation.

Lemma reduce_inv e c c' es :
  session_inv c → timely (cmd_at e) c → command_u64 (cmd_command e) →
  reduce e c = (c', Ok es) → session_inv (stamp (cmd_at e) c').
Proof.
  intros Hi Ht Hu. unfold reduce. destruct (cmd_command e) eqn:E; intros H.
  all: first
    [ by eapply audio_prepared_inv | by eapply control_inv | by eapply start_inv
    | by eapply recording_prepared_inv | by eapply prepare_failed_inv
    | by eapply presentation_changed_inv | by eapply tick_inv | by eapply audio_started_inv
    | by eapply audio_ended_inv | by eapply audio_error_inv | by eapply durable_inv
    | by eapply restart_inv | by eapply exit_inv | by eapply finalized_inv
    | by eapply finalization_failed_inv ].
Qed.

(** ** Operation history *)

Definition tokens (c : ExperimentSessionController) : list N :=
  (fun a => cmd_operation (ap_envelope a)) <$> operations c.

(** A token the controller will never execute again. *)
Definition spent (token : N) (c : ExperimentSessionController) : Prop :=
  token <= retired_operation_floor c ∨ token ∈ tokens c.

(** Everything but the operation history. *)
Definition core (c : ExperimentSessionController) : ExperimentSessionController :=
  c |> set_operations [] |> set_retired_operation_floor 0.

Lemma remember_cases e o c :
  (∃ a rest, operations c = a :: rest ∧ length (operations c) = 64%nat ∧
     remember e o c = c |> set_operations (rest ++ [mkApplied e o])
       |> set_retired_operation_floor
            (N.max (retired_operation_floor c) (cmd_operation (ap_envelope a)))) ∨
  (length (operations c) ≠ 64%nat ∧
     remember e o c = c |> set_operations (operations c ++ [mkApplied e o])).
Proof.
  unfold remember, len, OPERATION_HISTORY_CAPACITY. destruct (N.eqb_spec (N.of_nat (length (operations c))) 64).
  - left. destruct (operations c) as [|a rest] eqn:E; [done|]. exists a, rest.
    split; [done|]. split; [cbn in *; lia|done].
  - right. split; [lia|done].
Qed.

Lemma remember_core e o c : core (remember e o c) = core c.
Proof. destruct (remember_cases e o c) as [(a & rest & _ & _ & ->)|[_ ->]]; done. Qed.

Lemma remember_spent e o c k : spent k c ∨ k = cmd_operation e → spent k (remember e o c).
Proof.
  unfold spent, tokens.
  destruct (remember_cases e o c) as [(a & rest & E & _ & ->)|[_ ->]]; cbn; rewrite ?E; cbn;
    rewrite fmap_app, elem_of_app; cbn; rewrite list_elem_of_singleton, ?elem_of_cons; [|tauto].
  intros [[H|[->|H]]| ->]; [left; lia|left; lia|auto..].
Qed.

Lemma remember_history e o c :
  cmd_operation e ∉ tokens c → (length (operations c) <= 64)%nat ∧ NoDup (tokens c) →
  (length (operations (remember e o c)) <= 64)%nat ∧ NoDup (tokens (remember e o c)).
Proof.
  unfold tokens. intros Hn [Hl Hd].
  destruct (remember_cases e o c) as [(a & rest & E & Hlen & ->)|[Hlen ->]]; cbn;
    rewrite ?E in *; rewrite ?fmap_app, length_app; cbn in *.
  - split; [lia|]. apply NoDup_cons in Hd as [_ Hd]. rewrite elem_of_cons in Hn.
    apply NoDup_app. split; [done|]. split; [|apply NoDup_singleton].
    intros k Hk ->%list_elem_of_singleton. tauto.
  - split; [lia|]. apply NoDup_app. split; [done|]. split; [|apply NoDup_singleton].
    intros k Hk ->%list_elem_of_singleton. tauto.
Qed.

(** The invariant looks at the history only through its length and tokens. *)
Lemma inv_of_core c c' :
  core c' = core c → session_inv c →
  (length (operations c') <= 64)%nat ∧ NoDup (tokens c') → session_inv c'.
Proof.
  destruct c, c'. intros [=]; subst. intros [? ? ? ? _] ?. by constructor.
Qed.

Lemma find_operation_spec token l :
  match find_operation token l with
  | Some a => a ∈ l ∧ cmd_operation (ap_envelope a) = token
  | None => token ∉ (fun a => cmd_operation (ap_envelope a)) <$> l
  end.
Proof.
  unfold find_operation. destruct (List.find _ l) as [a|] eqn:F.
  - apply List.find_some in F as [F1 F2]. bool_to_prop. split; [by apply list_elem_of_In|done].
  - intros (a & -> & Ha)%list_elem_of_fmap. apply list_elem_of_In in Ha.
    pose proof (List.find_none _ _ F a Ha) as Hf. cbn in Hf. by rewrite N.eqb_refl in Hf.
Qed.

(** ** The three outcomes of [apply] *)

(** The token was spent: nothing changes. *)
Definition answered (e : CommandEnvelope) (c : ExperimentSessionController) (o : CommandOutcome) : Prop :=
  (∃ a, a ∈ operations c ∧ ap_envelope a = e ∧ o = set_out_duplicate true (ap_outcome a)) ∨
  o = rejected OperationConflict c ∨ o = rejected OperationRetired c.

(** The command runs: fresh token, current generation, no time regression. *)
Definition admitted (e : CommandEnvelope) (c : ExperimentSessionController) : Prop :=
  ¬ spent (cmd_operation e) c ∧ cmd_expected_generation e = generation c ∧
  default 0 (last_monotonic c) <= cmd_at e.

Definition accepted_outcome (c : ExperimentSessionController) (es : list SessionEffect) : CommandOutcome :=
  mkOutcome true false (revision c) (generation c) (phase c) (recording_result c) es None.

Inductive apply_result (e : CommandEnvelope) (c : ExperimentSessionController)
    : ExperimentSessionController → CommandOutcome → Prop :=
  | apply_spent o : spent (cmd_operation e) c → answered e c o → apply_result e c c o
  | apply_rejected r : ¬ spent (cmd_operation e) c →
      (r = StaleGeneration ∧ cmd_expected_generation e ≠ generation c ∨
       r = MonotonicTimeRegression ∧ cmd_at e < default 0 (last_monotonic c) ∨
       admitted e c ∧ reduce e c = (c, Err r)) →
      apply_result e c (remember e (rejected r c) c) (rejected r c)
  | apply_accepted c1 es : admitted e c → reduce e c = (c1, Ok es) →
      apply_result e c
        (remember e (accepted_outcome (stamp (cmd_at e) c1) es) (stamp (cmd_at e) c1))
        (accepted_outcome (stamp (cmd_at e) c1) es).

Lemma regresses_spec c t : regresses c t = true ↔ t < default 0 (last_monotonic c).
Proof. unfold regresses. destruct (last_monotonic c); cbn; [apply N.ltb_lt|]. split; [done|lia]. Qed.

Lemma apply_spec e c : apply_result e c (apply e c).1 (apply e c).2.
Proof.
  unfold apply. pose proof (find_operation_spec (cmd_operation e) (operations c)) as F.
  destruct (find_operation _ _) as [a|].
  - destruct F as [F1 F2].
    assert (spent (cmd_operation e) c) as Hs by (right; apply list_elem_of_fmap; eauto).
    case_bool_decide as E; cbn; apply apply_spent; try done; [left; eauto|right; auto].
  - destruct (N.leb_spec (cmd_operation e) (retired_operation_floor c)) as [L|L].
    { cbn. apply apply_spent; [by left|right; auto]. }
    assert (¬ spent (cmd_operation e) c) as Hs by (intros [?|?]; [lia|done]).
    case_bool_decide as G; cbn [negb].
    2: { cbn. apply apply_rejected; [done|]. auto. }
    destruct (regresses c (cmd_at e)) eqn:R.
    { apply regresses_spec in R. cbn. apply apply_rejected; [done|]. auto. }
    assert (admitted e c) as Ha.
    { split; [done|]. split; [done|]. apply not_true_iff_false in R. rewrite regresses_spec in R. lia. }
    destruct (reduce e c) as [c1 [es|r]] eqn:E; cbn.
    + by apply apply_accepted.
    + pose proof (reduce_err _ _ _ _ E) as ->. apply apply_rejected; [done|]. auto.
Qed.

Lemma apply_cases e c c' o : apply e c = (c', o) → apply_result e c c' o.
Proof. intros H. pose proof (apply_spec e c) as S. by rewrite H in S. Qed.

(** ** Reachable states *)

(** The reducer never touches the history, nor does it lower the generation. *)
Lemma reduce_frame e c c' r : reduce e c = (c', r) →
  operations c' = operations c ∧ retired_operation_floor c' = retired_operation_floor c ∧
  preparation_mode c' = preparation_mode c ∧ last_monotonic c' = last_monotonic c ∧
  (generation c' = generation c ∨ generation c' = N.max (saturating_add64 (generation c) 1) 1).
Proof.
  unfold reduce. destruct (cmd_command e); intros H.
  all: cbv [reduce_audio_prepared reduce_control reduce_start reduce_recording_prepared
    reduce_prepare_failed reduce_presentation_changed reduce_tick reduce_audio_started
    reduce_audio_ended reduce_audio_error reduce_completion_durable reduce_restart reduce_exit
    reduce_finalized reduce_finalization_failed control_transition finish_terminal_transition] in H.
  all: destruct (advance_active_time (cmd_at e) c) as [c1 es1] eqn:A;
    apply advance_frame in A as (? & ? & ? & ->).
  all: repeat match type of H with
  | (_, _) = (_, _) => injection H as <- <-
  | context [if ?b then _ else _] => destruct b
  end; cbn; repeat match goal with |- context [if ?b then _ else _] => destruct b end; cbn; split_and!; auto.
Qed.

Lemma apply_inv e c : session_inv c → envelope_u64 e → session_inv (apply e c).1.
Proof.
  intros Hi (Hop & _ & Hat & Hcmd). pose proof (apply_spec e c) as S.
  destruct (apply e c) as [c' o]. cbn in *. destruct S as [o _ _|r Hs _|c1 es [Hs Ha] E]; [done|..].
  - eapply inv_of_core; [apply remember_core|done|].
    apply remember_history; [|apply Hi]. intros Ht. apply Hs. by right.
  - assert (timely (cmd_at e) c) as Ht by (split; [apply Ha|done]).
    pose proof (reduce_inv e c c1 es Hi Ht Hcmd E) as Hi1.
    eapply inv_of_core; [apply remember_core|done|]. apply remember_history; [|apply Hi1].
    apply reduce_frame in E as (E & _). intros Ht'. apply Hs. right. unfold tokens in *.
    cbn in Ht'. by rewrite E in Ht'.
Qed.

Lemma observe_inv p c : session_inv c → session_inv (observe_preparation_presentation p c).1.
Proof.
  intros Hi. unfold observe_preparation_presentation.
  destruct (_ || _) eqn:G; [done|]. bool_to_prop. cbn.
  destruct Hi as [F Htm Hwd Hst Hhs]. unfold phase_inv in F. rewrite H in F.
  inv_build; rewrite ?H; auto; apply Hwd.
Qed.

Lemma with_preparation_mode_inv mode : session_inv (with_preparation_mode mode).
Proof. constructor; cbn; try done; [set_solver|]. split; [lia|constructor]. Qed.

Lemma reachable_inv c : session_reachable c → session_inv c.
Proof.
  intros [mode H]. pose proof (with_preparation_mode_inv mode) as Hi.
  induction H as [c|c1 c2 c3 Hstep _ IH]; [done|]. apply IH.
  destruct Hstep; auto using apply_inv, observe_inv.
Qed.
