(* ===== verification/SessionProtocol.v ===== *)
(** * Experiment session: the recorder protocol

    The abstract contract between the session reducer and the recording
    worker: a recorder automaton over the emitted effects, and the proof that
    the effect stream of every session is a run of it. *)

From S2P Require Import Prelude RustStr ExperimentSession SessionTheorems.

Local Open Scope N_scope.
Local Open Scope quest_scope.

(** ** The recorder's view of a session

    [RecIdle g]: no recording, [g] sessions started so far. [RecOpen g r t]:
    recording number [g] is open, [r] says whether its completion threshold [t]
    was reported. [RecFinal g]: finalization of [g] was requested. [RecShut]:
    the app was told to shut down. *)
Inductive RecorderState :=
  | RecIdle (g : N)
  | RecOpen (g : N) (reached : bool) (threshold : N)
  | RecFinal (g : N)
  | RecShut.

Definition recorder_step (st : RecorderState) (e : SessionEffect) : option RecorderState :=
  match e, st with
  | PrepareRecording g _ t, RecIdle g0 => if (g =? g0 + 1) && (0 <? t) then Some (RecOpen g false t) else None
  | PersistCompletion g time, RecOpen g0 false t =>
      if (g =? g0) && (t <=? time) then Some (RecOpen g0 true t) else None
  | FinalizeRecording g _ r, RecOpen g0 reached _ =>
      if (g =? g0) && Bool.eqb r reached then Some (RecFinal g0) else None
  | (RecordControl _ | RecordPresentation _ | RecordAudioStarted | RecordAudioEnded
    | RecordAudioError), RecOpen _ _ _ => Some st
  | ResetRuntimeDefaults, (RecFinal g | RecOpen g false _) => Some (RecIdle g)
  | (ShowExperimenter | ReturnToPreparation), RecIdle _ => Some st
  | ShutdownApp, (RecIdle _ | RecFinal _) => Some RecShut
  | DisarmKiosk, _ => Some st
  | _, _ => None
  end.

Definition recorder_run (st : RecorderState) (es : list SessionEffect) : option RecorderState :=
  foldl (fun o e => st ← o; recorder_step st e) (Some st) es.

(** The abstraction function. *)
Definition recorder_view (c : ExperimentSessionController) : RecorderState :=
  match phase c with
  | Idle => RecIdle (generation c)
  | Preparing | Active =>
      RecOpen (generation c) (completion c != NotReached) (completion_threshold_ns c)
  | FinalizingRestart | Exiting => RecFinal (generation c)
  | Closed => RecShut
  end.

Lemma recorder_run_none es : foldl (fun o e => st ← o; recorder_step st e) None es = None.
Proof. by induction es. Qed.

Lemma recorder_run_cons st e es :
  recorder_run st (e :: es) = st' ← recorder_step st e; recorder_run st' es.
Proof.
  unfold recorder_run. cbn. destruct (recorder_step st e); cbn; [done|apply recorder_run_none].
Qed.

Lemma recorder_run_app st es fs :
  recorder_run st (es ++ fs) = st' ← recorder_run st es; recorder_run st' fs.
Proof.
  unfold recorder_run. rewrite foldl_app.
  destruct (foldl _ (Some st) es); [done|apply recorder_run_none].
Qed.

Lemma recorder_run_snoc st st' e es : recorder_run st es = Some st' →
  recorder_run st (es ++ [e]) = recorder_step st' e.
Proof. intros H. by rewrite recorder_run_app, H. Qed.

(** ** Simulation *)

Section Simulation.
Context (at_ : MonotonicNanos) (c : ExperimentSessionController).
Context (Hi : session_inv c) (Ht : timely at_ c).

Lemma advance_view c1 es :
  phase c = Active → advance_active_time at_ c = (c1, es) →
  recorder_run (recorder_view c) es = Some (recorder_view c1).
Proof.
  intros P A. destruct (advance_eq at_ c P Hi (proj1 Ht) (proj2 Ht))
    as [(_ & _ & E)|(s & _ & _ & _ & _ & E)]; rewrite E in A.
  { injection A as <- <-. done. }
  unfold advanced in A. destruct (_ && _) eqn:B; injection A as <- <-;
    unfold recorder_view; cbn; rewrite P; [|done].
  apply andb_true_iff in B as [B1 B2]. bool_to_prop. rewrite B1. cbn.
  by rewrite N.eqb_refl, (proj2 (N.leb_le _ _) B2).
Qed.

(** Effects recorded while the recording is open. *)
Lemma record_view c1 c2 es e :
  phase c = Active → advance_active_time at_ c = (c1, es) →
  recorder_view c2 = recorder_view c1 →
  (∀ g r t, recorder_step (RecOpen g r t) e = Some (RecOpen g r t)) →
  recorder_run (recorder_view c) (es ++ [e]) = Some (recorder_view c2).
Proof.
  intros P A Hv He. rewrite (recorder_run_snoc _ _ _ _ (advance_view c1 es P A)), Hv.
  apply advance_frame in A as (s & t & p & ->). unfold recorder_view. cbn. rewrite P. apply He.
Qed.

Lemma control_view command c' es :
  reduce_control command at_ c = (c', Ok es) →
  recorder_run (recorder_view c) es = Some (recorder_view c').
Proof.
  unfold reduce_control. destruct (control_transition command) as [[required next] event].
  destruct (advance_active_time at_ c) as [c1 es1] eqn:A. intros H. run_guards H.
  eapply record_view; try done. by destruct (next == Running).
Qed.

Lemma audio_view c' es :
  reduce_tick at_ c = (c', Ok es) ∨ reduce_audio_started at_ c = (c', Ok es) ∨
  reduce_audio_ended at_ c = (c', Ok es) ∨ reduce_audio_error at_ c = (c', Ok es) →
  recorder_run (recorder_view c) es = Some (recorder_view c').
Proof.
  cbv [reduce_tick reduce_audio_started reduce_audio_ended reduce_audio_error].
  destruct (advance_active_time at_ c) as [c1 es1] eqn:A.
  intros [H|[H|[H|H]]]; run_guards H; try (by eapply record_view); try (by eapply advance_view).
  destruct (negb (audio_error c1)); run_guards H; try (by eapply record_view); try (by eapply advance_view).
  rewrite (recorder_run_snoc _ (recorder_view (set_audio_error true c1))); [|by eapply record_view].
  unfold recorder_view. cbn. apply advance_frame in A as (s & t & p & ->). cbn. by phase_rw.
Qed.

Lemma presentation_view p c' es :
  reduce_presentation_changed p at_ c = (c', Ok es) →
  recorder_run (recorder_view c) es = Some (recorder_view c').
Proof.
  unfold reduce_presentation_changed. destruct (advance_active_time at_ c) as [c1 es1] eqn:A.
  intros H. run_guards H; [done|]. by eapply record_view.
Qed.

(** [FinalizeRecording] closes the open recording. *)
Lemma finalize_view reason (open : ExperimentSessionController) :
  phase open = Preparing ∨ phase open = Active →
  recorder_step (recorder_view open)
    (FinalizeRecording (generation open) reason (completion open != NotReached)) =
  Some (RecFinal (generation open)).
Proof.
  intros [P|P]; unfold recorder_view; rewrite P; cbn; by rewrite N.eqb_refl, Bool.eqb_reflx.
Qed.

Lemma restart_view c' es :
  reduce_restart at_ c = (c', Ok es) → recorder_run (recorder_view c) es = Some (recorder_view c').
Proof.
  unfold reduce_restart. destruct (advance_active_time at_ c) as [c1 es1] eqn:A. intros H.
  destruct (phase c) eqn:P; cbn in H; try discriminate H; injection H as <- <-.
  - pose proof (finalize_view FinRestartToExperimenter c (or_introl P)) as F.
    destruct (_ == LocalPanel); exact F.
  - rewrite (recorder_run_snoc _ _ _ _ (advance_view c1 es1 P A)).
    assert (phase c1 = Active) as P1 by (by apply advance_frame in A as (? & ? & ? & ->)).
    pose proof (finalize_view FinRestartToExperimenter c1 (or_intror P1)) as F.
    destruct (_ == LocalPanel); exact F.
Qed.

Lemma exit_view reason c' es :
  reduce_exit reason at_ c = (c', Ok es) → recorder_run (recorder_view c) es = Some (recorder_view c').
Proof.
  unfold reduce_exit. destruct (advance_active_time at_ c) as [c1 es1] eqn:A. intros H.
  destruct (phase c) eqn:P; cbn in H; bd_eval H.
  - injection H as <- <-. unfold recorder_view. cbn. by rewrite P.
  - injection H as <- <-. rewrite recorder_run_cons. cbn. exact (finalize_view reason c (or_introl P)).
  - assert (phase c1 = Active) as P1 by (by apply advance_frame in A as (? & ? & ? & ->)).
    bd_eval H. injection H as <- <-. rewrite recorder_run_cons. cbn [recorder_step mbind option_bind].
    rewrite (recorder_run_snoc _ _ _ _ (advance_view c1 es1 P A)).
    exact (finalize_view reason c1 (or_intror P1)).
  - injection H as <- <-. unfold recorder_view. cbn. by rewrite P.
  - injection H as <- <-. unfold recorder_view. cbn. by rewrite P.
  - injection H as <- <-. unfold recorder_view. cbn. by rewrite P.
Qed.

Lemma terminal_view result c' es :
  phase c = FinalizingRestart ∨ phase c = Exiting →
  finish_terminal_transition (set_recording_result result c) = (c', es) →
  recorder_run (recorder_view c) es = Some (recorder_view c').
Proof.
  intros P. unfold finish_terminal_transition. cbn. intros H.
  destruct P as [P|P]; rewrite ?(bool_decide_eq_true_2 _ P) in H;
    [|rewrite (bool_decide_eq_false_2 (phase c = FinalizingRestart)) in H by congruence];
    injection H as <- <-; unfold recorder_view; rewrite P; [|done].
  destruct (preparation_mode c == LocalPanel); cbn; by destruct (preparation_mode c == RemoteVr).
Qed.

End Simulation.

Lemma start_view explicit cond threshold c c' es :
  generation c < u64_max → reduce_start explicit cond threshold c = (c', Ok es) →
  recorder_run (recorder_view c) es = Some (recorder_view c').
Proof.
  unfold reduce_start. intros Hg H. run_guards H. unfold recorder_view. cbn. phase_rw.
  rewrite saturating_add64_small, N.max_l by lia.
  by rewrite N.eqb_refl, (proj2 (N.ltb_lt _ _)) by lia.
Qed.

Lemma prepare_failed_view error c c' es :
  session_inv c → reduce_prepare_failed error c = (c', Ok es) →
  recorder_run (recorder_view c) es = Some (recorder_view c').
Proof.
  unfold reduce_prepare_failed. intros Hi H. cbn in H.
  pose proof (si_phase _ Hi) as F. unfold phase_inv in F. unfold recorder_view.
  destruct (phase c) eqn:P; cbn in H; try discriminate H; injection H as <- <-; [|done].
  destruct F as (_ & _ & F & _). rewrite F. cbn. by destruct (preparation_mode c == RemoteVr).
Qed.

(** Handlers that only move between states the recorder cannot tell apart. *)
Lemma silent_view c c' es :
  session_inv c →
  reduce_audio_prepared c = (c', Ok es) ∨ reduce_recording_prepared c = (c', Ok es) ∨
  reduce_completion_durable c = (c', Ok es) →
  recorder_run (recorder_view c) es = Some (recorder_view c').
Proof.
  cbv [reduce_audio_prepared reduce_recording_prepared reduce_completion_durable].
  intros Hi [H|[H|H]]; run_guards H; unfold recorder_view; cbn; try (by phase_rw).
  match goal with C : completion c = _ |- _ => rewrite C end.
  by destruct (phase c).
Qed.

Lemma finalized_view durable saved error c c' es :
  reduce_finalized durable saved c = (c', Ok es) ∨
  reduce_finalization_failed durable error c = (c', Ok es) →
  recorder_run (recorder_view c) es = Some (recorder_view c').
Proof.
  cbv [reduce_finalized reduce_finalization_failed].
  intros [H|H]; (destruct (negb _) eqn:G in H; [discriminate H|]); (destruct (negb _) in H; [discriminate H|]);
    bool_to_prop; (destruct (finish_terminal_transition _) as [c2 es2] eqn:T); injection H as <- <-;
    (eapply terminal_view; [|done]); apply orb_true_iff in G as [G|G]; bool_to_prop; auto.
Qed.

(** The reducer simulates the recorder automaton. *)
Lemma reduce_view e c c' es :
  session_inv c → timely (cmd_at e) c → generation c < u64_max →
  reduce e c = (c', Ok es) → recorder_run (recorder_view c) es = Some (recorder_view c').
Proof.
  intros Hi Ht Hg. unfold reduce. destruct (cmd_command e); intros H.
  - by eapply start_view.
  - eapply silent_view; eauto.
  - by eapply control_view.
  - by eapply control_view.
  - by eapply control_view.
  - by eapply start_view.
  - eapply silent_view; eauto.
  - by eapply prepare_failed_view.
  - by eapply presentation_view.
  - eapply audio_view; eauto.
  - eapply audio_view; eauto.
  - eapply audio_view; eauto.
  - eapply audio_view; eauto.
  - eapply silent_view; eauto.
  - by eapply restart_view.
  - by eapply exit_view.
  - by eapply exit_view.
  - eapply (finalized_view _ _ FailPrepare); eauto.
  - eapply (finalized_view _ true); eauto.
Qed.

(** ** Runs *)

#[local] Arguments recorder_run : simpl never.

(** The effects an outcome asks for: a duplicate repeats an earlier answer. *)
Definition fresh_effects (o : CommandOutcome) : list SessionEffect :=
  if out_duplicate o then [] else out_effects o.

(** The effects of a sequence of commands, in order. *)
Fixpoint session_run (es : list CommandEnvelope) (c : ExperimentSessionController)
    : ExperimentSessionController * list SessionEffect :=
  match es with
  | [] => (c, [])
  | e :: es' =>
      let '(c1, o) := apply e c in
      let '(c2, effects) := session_run es' c1 in (c2, fresh_effects o ++ effects)
  end.

Lemma view_of_core c c' : core c' = core c → recorder_view c' = recorder_view c ∧ generation c' = generation c.
Proof. destruct c, c'. intros [=]; subst. done. Qed.

Lemma reduce_generation e c c' r : reduce e c = (c', r) → generation c <= u64_max →
  generation c <= generation c'.
Proof.
  intros (_ & _ & _ & _ & H)%reduce_frame Hg. destruct H as [->| ->]; [lia|].
  pose proof (saturating_add64_le (generation c) 1 Hg). lia.
Qed.

Lemma apply_view e c :
  session_inv c → envelope_u64 e → generation (apply e c).1 < u64_max →
  generation c <= generation (apply e c).1 ∧
  recorder_run (recorder_view c) (fresh_effects (apply e c).2) = Some (recorder_view (apply e c).1).
Proof.
  intros Hi (_ & _ & Hat & _) Hg. pose proof (apply_spec e c) as S.
  destruct (apply e c) as [c' o]. cbn in *. destruct S as [o _ Ha|r _ _|c1 es Ha E].
  - split; [lia|]. destruct Ha as [(a & _ & _ & ->)|[->| ->]]; done.
  - destruct (view_of_core _ _ (remember_core e (rejected r c) c)) as [-> ->]. split; [lia|done].
  - destruct (view_of_core _ _ (remember_core e (accepted_outcome (stamp (cmd_at e) c1) es)
      (stamp (cmd_at e) c1))) as [-> Hgen]. rewrite Hgen in *. cbn in *.
    destruct (si_width _ Hi) as [Hw _]. pose proof (reduce_generation _ _ _ _ E Hw).
    split; [done|]. destruct Ha as (_ & _ & Ha).
    by apply (reduce_view e c c1 es Hi (conj Ha Hat)); [lia|].
Qed.

Lemma run_inv es c : session_inv c → Forall envelope_u64 es → session_inv (session_run es c).1.
Proof.
  revert c. induction es as [|e es IH]; intros c Hi Hes; [done|]. forall_cons. cbn.
  pose proof (apply_inv e c Hi ltac:(assumption)) as Hi1. destruct (apply e c) as [c1 o]. cbn in *.
  specialize (IH c1 Hi1 ltac:(assumption)). by destruct (session_run es c1).
Qed.

Lemma run_reachable es c : session_reachable c → Forall envelope_u64 es →
  session_reachable (session_run es c).1.
Proof.
  revert c. induction es as [|e es IH]; intros c Hr Hes; [done|]. forall_cons. cbn.
  assert (session_reachable (apply e c).1) as Hr1.
  { destruct Hr as [mode Hr]. exists mode. eapply rtc_r; [exact Hr|]. by apply step_apply. }
  destruct (apply e c) as [c1 o]. cbn in *.
  specialize (IH c1 Hr1 ltac:(assumption)). by destruct (session_run es c1).
Qed.

Lemma apply_generation e c : session_inv c → generation c <= generation (apply e c).1.
Proof.
  intros Hi. pose proof (apply_spec e c) as S.
  destruct (apply e c) as [c' o]. cbn in *. destruct S as [o _ Ha|r _ _|c1 es Ha E]; [lia|..].
  - destruct (view_of_core _ _ (remember_core e (rejected r c) c)) as [_ ->]. lia.
  - destruct (view_of_core _ _ (remember_core e (accepted_outcome (stamp (cmd_at e) c1) es)
      (stamp (cmd_at e) c1))) as [_ ->]. cbn.
    destruct (si_width _ Hi) as [Hw _]. by eapply reduce_generation.
Qed.

Lemma run_generation es c : session_inv c → Forall envelope_u64 es →
  generation c <= generation (session_run es c).1.
Proof.
  revert c. induction es as [|e es IH]; intros c Hi Hes; cbn; [lia|]. forall_cons.
  pose proof (apply_generation e c Hi) as Hg. pose proof (apply_inv e c Hi ltac:(assumption)) as Hi1.
  destruct (apply e c) as [c1 o]. cbn in *. specialize (IH c1 Hi1 ltac:(assumption)).
  destruct (session_run es c1). cbn in *. lia.
Qed.

(** The effect stream of a sequence of commands is a run of the recorder. *)
Lemma run_view es c :
  session_inv c → Forall envelope_u64 es → generation (session_run es c).1 < u64_max →
  recorder_run (recorder_view c) (session_run es c).2 = Some (recorder_view (session_run es c).1).
Proof.
  revert c. induction es as [|e es IH]; intros c Hi Hes Hg; [done|]. forall_cons. cbn in *.
  assert (envelope_u64 e) as He by assumption. pose proof (apply_inv e c Hi He) as Hi1.
  pose proof (run_generation es _ Hi1 ltac:(assumption)) as Hmono.
  pose proof (apply_view e c Hi He) as Hv.
  destruct (apply e c) as [c1 o]. cbn in *.
  specialize (IH c1 Hi1 ltac:(assumption)). destruct (session_run es c1) as [c2 fx]. cbn in *.
  rewrite recorder_run_app. destruct Hv as [_ ->]; [lia|]. cbn. by apply IH.
Qed.

(** ** Counting on the automaton *)

Definition is_finalize (g : N) (e : SessionEffect) : bool :=
  match e with FinalizeRecording g' _ _ => g' =? g | _ => false end.
Definition is_persist (g : N) (e : SessionEffect) : bool :=
  match e with PersistCompletion g' _ => g' =? g | _ => false end.
Definition is_prepare (g : N) (e : SessionEffect) : bool :=
  match e with PrepareRecording g' _ _ => g' =? g | _ => false end.

Definition count_effects (p : SessionEffect → bool) (es : list SessionEffect) : nat :=
  length (List.filter p es).

(** How many more [PrepareRecording], [PersistCompletion] and
    [FinalizeRecording] of recording [g] a recorder state allows. *)
Definition allowed (g : N) (st : RecorderState) : nat * nat * nat :=
  match st with
  | RecIdle g0 => if g0 <? g then (1, 1, 1)%nat else (0, 0, 0)%nat
  | RecOpen g0 reached _ =>
      if g0 <? g then (1, 1, 1)%nat
      else if g0 =? g then (0, if reached then 0 else 1, 1)%nat else (0, 0, 0)%nat
  | RecFinal g0 => if g0 <? g then (1, 1, 1)%nat else (0, 0, 0)%nat
  | RecShut => (0, 0, 0)%nat
  end.

Definition within (n m : nat * nat * nat) : Prop :=
  (n.1.1 <= m.1.1 ∧ n.1.2 <= m.1.2 ∧ n.2 <= m.2)%nat.

Definition effect_counts (g : N) (es : list SessionEffect) : nat * nat * nat :=
  (count_effects (is_prepare g) es, count_effects (is_persist g) es, count_effects (is_finalize g) es).

Lemma recorder_step_allowed g st e st' : recorder_step st e = Some st' →
  within ((effect_counts g [e]).1.1 + (allowed g st').1.1, (effect_counts g [e]).1.2 + (allowed g st').1.2,
          (effect_counts g [e]).2 + (allowed g st').2)%nat (allowed g st).
Proof.
  unfold within, effect_counts, count_effects.
  destruct e, st as [g0|g0 [|] t0|g0|]; cbn; intros H; try discriminate H;
    repeat match type of H with
    | (if ?b then _ else _) = _ => let E := fresh "E" in destruct b eqn:E; [|discriminate H]
    end; injection H as <-; bool_to_prop; subst; cbn;
    repeat match goal with |- context [(?a <? ?b)%N] => destruct (N.ltb_spec a b) end;
    repeat match goal with |- context [(?a =? ?b)%N] => destruct (N.eqb_spec a b) end;
    cbn; try lia.
Qed.

Lemma recorder_run_allowed g es st st' : recorder_run st es = Some st' →
  within (effect_counts g es) (allowed g st).
Proof.
  revert st. induction es as [|e es IH]; intros st; [unfold within; cbn; lia|].
  rewrite recorder_run_cons. destruct (recorder_step st e) as [st1|] eqn:E; cbn; [|done].
  intros H. apply IH in H. apply (recorder_step_allowed g) in E.
  assert (∀ p, count_effects p (e :: es) = (count_effects p [e] + count_effects p es)%nat) as Hc.
  { intros p. unfold count_effects. cbn. by destruct (p e). }
  unfold within, effect_counts in *. cbn [fst snd] in *. rewrite !Hc. lia.
Qed.
