(* ===== verification/SessionTime.v ===== *)
(** * Experiment session: time accounting, replay and the adapter

    Lemmas for the remaining session properties: experiment time is exactly the
    time spent running in the immersive presentation, the completion deadline is
    exact, recorded operations replay, and the adapter's tokens are fresh. *)

From S2P Require Import Prelude RustStr ExperimentSession SessionTheorems SessionProtocol.

Local Open Scope N_scope.
Local Open Scope quest_scope.

(** ** Time accounting *)

(** Active time including the interval that is still open. *)
Definition experiment_time (c : ExperimentSessionController) : N :=
  active_time_ns c +
  match active_since c with Some s => default 0 (last_monotonic c) - s | None => 0 end.

Definition counts_time (c : ExperimentSessionController) : bool :=
  (phase c == Active) && (control_state c == Running) && (presentation c == ImmersiveActive).

(** What the interval up to a command at [at_] adds. *)
Definition elapsed (at_ : MonotonicNanos) (c : ExperimentSessionController) : N :=
  if counts_time c then at_ - default 0 (last_monotonic c) else 0.

Lemma counts_time_spec c : phase c = Active → counts_time c = true ↔ counting c.
Proof.
  intros P. unfold counts_time, counting. rewrite P, bool_decide_eq_true_2 by done. cbn.
  rewrite andb_true_iff, !bool_decide_eq_true. done.
Qed.

Section Accounting.
Context (at_ : MonotonicNanos) (c : ExperimentSessionController).
Context (Hi : session_inv c) (Ht : timely at_ c) (P : phase c = Active).

Lemma since_counts s : active_since c = Some s →
  counts_time c = true ∧ s <= default 0 (last_monotonic c).
Proof.
  intros Hs. pose proof (si_phase _ Hi) as F. unfold phase_inv in F. rewrite P in F.
  split; [apply counts_time_spec, F; eauto|].
  destruct (si_time _ Hi) as [_ H]. unfold accounted in H. by rewrite Hs in H.
Qed.

Lemma no_since_counts : active_since c = None → counts_time c = false.
Proof.
  intros Hs. apply not_true_iff_false. rewrite counts_time_spec by done. intros Hc.
  pose proof (si_phase _ Hi) as F. unfold phase_inv in F. rewrite P in F.
  apply F in Hc. rewrite Hs in Hc. by destruct Hc.
Qed.

(** The active time after [advance_active_time] accounts for everything. *)
Lemma advance_time c1 es : advance_active_time at_ c = (c1, es) →
  active_time_ns c1 = experiment_time c + elapsed at_ c.
Proof.
  intros A. destruct (advance_eq at_ c P Hi (proj1 Ht) (proj2 Ht))
    as [(_ & Hs & E)|(s & _ & Hs & Hle & _ & E)]; rewrite E in A; unfold experiment_time, elapsed; rewrite Hs.
  - injection A as <- <-. rewrite (no_since_counts Hs). cbn. lia.
  - destruct (since_counts s Hs) as [-> Hl]. destruct Ht.
    unfold advanced in A. destruct (_ && _); injection A as <- <-; cbn; lia.
Qed.

(** A handler that advanced the clock and left no older interval open. *)
Lemma accounted_time c1 c2 es :
  advance_active_time at_ c = (c1, es) → active_time_ns c2 = active_time_ns c1 →
  active_since c2 = None ∨ active_since c2 = Some at_ →
  experiment_time (stamp at_ c2) = experiment_time c + elapsed at_ c.
Proof.
  intros A Ha Hs. apply advance_time in A. rewrite <- A, <- Ha. unfold experiment_time. cbn.
  destruct Hs as [->| ->]; lia.
Qed.

Lemma advanced_since' c1 es : advance_active_time at_ c = (c1, es) →
  active_since c1 = None ∨ active_since c1 = Some at_.
Proof. intros A. destruct (advanced_since at_ c Hi Ht c1 es P A) as [[? _]|[? _]]; auto. Qed.

(** Handlers that do not call [advance_active_time]. *)
Lemma still_time c2 :
  active_time_ns c2 = active_time_ns c → active_since c2 = active_since c →
  experiment_time (stamp at_ c2) = experiment_time c + elapsed at_ c.
Proof.
  intros Ha Hs. unfold experiment_time, elapsed. cbn. rewrite Ha, Hs.
  destruct (active_since c) as [s|] eqn:E.
  - destruct (since_counts s E) as [-> Hl]. destruct Ht. lia.
  - rewrite (no_since_counts E). lia.
Qed.

Lemma control_time command c' es :
  reduce_control command at_ c = (c', Ok es) →
  experiment_time (stamp at_ c') = experiment_time c + elapsed at_ c.
Proof.
  unfold reduce_control. destruct (control_transition command) as [[required next] event].
  destruct (advance_active_time at_ c) as [c1 es1] eqn:A. intros H. run_guards H.
  eapply accounted_time; [done|by destruct (next == Running)|]. cbn. destruct (next == Running); auto.
Qed.

Lemma presentation_time p c' es :
  reduce_presentation_changed p at_ c = (c', Ok es) →
  experiment_time (stamp at_ c') = experiment_time c + elapsed at_ c.
Proof.
  unfold reduce_presentation_changed. destruct (advance_active_time at_ c) as [c1 es1] eqn:A.
  intros H. run_guards H; [congruence|].
  eapply accounted_time; [done|done|]. cbn.
  match goal with |- context [if ?b then _ else _] => destruct b end; auto.
Qed.

Lemma audio_time c' es :
  reduce_tick at_ c = (c', Ok es) ∨ reduce_audio_started at_ c = (c', Ok es) ∨
  reduce_audio_ended at_ c = (c', Ok es) ∨ reduce_audio_error at_ c = (c', Ok es) →
  experiment_time (stamp at_ c') = experiment_time c + elapsed at_ c.
Proof.
  cbv [reduce_tick reduce_audio_started reduce_audio_ended reduce_audio_error].
  destruct (advance_active_time at_ c) as [c1 es1] eqn:A. pose proof (advanced_since' c1 es1 A) as Hs.
  intros [H|[H|[H|H]]]; run_guards H; try (by eapply accounted_time).
  destruct (negb (audio_error c1)); run_guards H; eapply accounted_time; eauto.
Qed.

Lemma still_handlers_time c' es :
  reduce_audio_prepared c = (c', Ok es) ∨ reduce_completion_durable c = (c', Ok es) →
  experiment_time (stamp at_ c') = experiment_time c + elapsed at_ c.
Proof.
  cbv [reduce_audio_prepared reduce_completion_durable].
  intros [H|H]; run_guards H; by apply still_time.
Qed.

(** Handlers that fail in the Active phase, and handlers that leave it. *)
Lemma not_from_active explicit cond threshold durable saved error c' es :
  reduce_start explicit cond threshold c = (c', Ok es) ∨ reduce_recording_prepared c = (c', Ok es) ∨
  reduce_prepare_failed error c = (c', Ok es) ∨ reduce_finalized durable saved c = (c', Ok es) ∨
  reduce_finalization_failed durable error c = (c', Ok es) → False.
Proof.
  cbv [reduce_start reduce_recording_prepared reduce_prepare_failed reduce_finalized
    reduce_finalization_failed]. rewrite P. intros [H|[H|[H|[H|H]]]]; discriminate H.
Qed.

Lemma leaves_active reason c' es :
  reduce_restart at_ c = (c', Ok es) ∨ reduce_exit reason at_ c = (c', Ok es) → phase c' ≠ Active.
Proof.
  cbv [reduce_restart reduce_exit]. rewrite P. destruct (advance_active_time at_ c) as [c1 es1] eqn:A.
  apply advance_frame in A as (s & t & p & ->). intros [H|H]; bd_eval H.
  - injection H as <- <-. by destruct (_ == LocalPanel).
  - cbn in H. bd_eval H. injection H as <- <-. done.
Qed.

Lemma reduce_time e c' es :
  cmd_at e = at_ → reduce e c = (c', Ok es) → phase c' = Active →
  experiment_time (stamp at_ c') = experiment_time c + elapsed at_ c.
Proof.
  intros Hat. unfold reduce. rewrite Hat. intros H P'.
  destruct (cmd_command e) as [cond th| | | | |cond th| |err|p| | | | | | | | |d s|d err].
  - destruct (not_from_active true cond th false false FailPrepare c' es); auto.
  - by eapply still_handlers_time; eauto.
  - by eapply control_time.
  - by eapply control_time.
  - by eapply control_time.
  - destruct (not_from_active false cond th false false FailPrepare c' es); auto.
  - destruct (not_from_active false EmptyString 0 false false FailPrepare c' es); auto.
  - destruct (not_from_active false EmptyString 0 false false err c' es); auto.
  - by eapply presentation_time.
  - eapply audio_time; eauto.
  - eapply audio_time; eauto.
  - eapply audio_time; eauto.
  - eapply audio_time; eauto.
  - eapply still_handlers_time; eauto.
  - destruct (leaves_active FinSaveAndExit c' es); auto.
  - destruct (leaves_active FinSaveAndExit c' es); auto.
  - destruct (leaves_active FinInterruptedRecovery c' es); auto.
  - destruct (not_from_active false EmptyString 0 d s FailPrepare c' es); auto.
  - destruct (not_from_active false EmptyString 0 d false err c' es); auto 6.
Qed.

End Accounting.

(** The total of the intervals that count in a run. *)
Fixpoint counted (es : list CommandEnvelope) (c : ExperimentSessionController) : N :=
  match es with
  | [] => 0
  | e :: es' =>
      let '(c1, o) := apply e c in
      (if out_accepted o && negb (out_duplicate o) then elapsed (cmd_at e) c else 0) + counted es' c1
  end.

(** The session is active before and after every command of a run. *)
Fixpoint stays_active (es : list CommandEnvelope) (c : ExperimentSessionController) : Prop :=
  phase c = Active ∧
  match es with [] => True | e :: es' => stays_active es' (apply e c).1 end.

Lemma experiment_time_core c c' : core c' = core c → experiment_time c' = experiment_time c.
Proof. destruct c, c'. intros [=]; subst. done. Qed.

Lemma phase_core c c' : core c' = core c → phase c' = phase c.
Proof. destruct c, c'. intros [=]; subst. done. Qed.

Lemma apply_time e c :
  session_inv c → envelope_u64 e → phase c = Active → phase (apply e c).1 = Active →
  experiment_time (apply e c).1 = experiment_time c +
    (if out_accepted (apply e c).2 && negb (out_duplicate (apply e c).2) then elapsed (cmd_at e) c else 0).
Proof.
  intros Hi (_ & _ & Hat & _) P P'. pose proof (apply_spec e c) as S.
  destruct (apply e c) as [c' o]. cbn in *. destruct S as [o _ Ha|r _ _|c1 es Ha E].
  - destruct Ha as [(a & _ & _ & ->)|[->| ->]]; cbn; rewrite ?andb_false_r; lia.
  - rewrite (experiment_time_core c) by apply remember_core. cbn. lia.
  - rewrite (experiment_time_core _ _ (remember_core _ _ _)). cbn.
    rewrite (phase_core _ _ (remember_core _ _ _)) in P'. destruct Ha as (_ & _ & Ha).
    by eapply reduce_time.
Qed.

Lemma run_time es c :
  session_inv c → Forall envelope_u64 es → stays_active es c →
  experiment_time (session_run es c).1 = experiment_time c + counted es c.
Proof.
  revert c. induction es as [|e es IH]; intros c Hi Hes Ha; cbn; [lia|]. forall_cons.
  destruct Ha as [P Ha]. assert (envelope_u64 e) as He by assumption.
  assert (phase (apply e c).1 = Active) as P1 by (destruct es; apply Ha).
  pose proof (apply_inv e c Hi He) as Hi1. pose proof (apply_time e c Hi He P P1) as Ht.
  specialize (IH (apply e c).1 Hi1 ltac:(assumption) Ha).
  destruct (apply e c) as [c1 o]. cbn in *. destruct (session_run es c1). cbn in *. lia.
Qed.

(** ** Deadline *)

Lemma deadline_spec c d :
  session_inv c → completion_deadline c = Some d →
  ∃ s, phase c = Active ∧ active_since c = Some s ∧ completion c = NotReached ∧ counting c ∧
    active_time_ns c < completion_threshold_ns c ∧
    d = saturating_add64 s (completion_threshold_ns c - active_time_ns c).
Proof.
  intros Hi. unfold completion_deadline. destruct (_ || _) eqn:G; [done|]. bool_to_prop.
  destruct (active_since c) as [s|] eqn:E; cbn; [|done]. intros [= <-]. exists s.
  pose proof (si_phase _ Hi) as F. unfold phase_inv in F.
  match goal with P : phase c = Active |- _ => rewrite P in F end.
  split_and!; try done. by apply F.
Qed.

Lemma apply_admitted e c c1 es :
  admitted e c → reduce e c = (c1, Ok es) →
  apply e c = (remember e (accepted_outcome (stamp (cmd_at e) c1) es) (stamp (cmd_at e) c1),
               accepted_outcome (stamp (cmd_at e) c1) es).
Proof.
  intros Ha E. pose proof (apply_spec e c) as S. destruct (apply e c) as [c' o]. cbn in S.
  destruct S as [o Hs _|r Hs Hr|c2 es2 _ E2].
  - by destruct Ha as [? _].
  - destruct Ha as (_ & Hg & Ht). destruct Hr as [[_ ?]|[[_ ?]|[_ E2]]]; [done|lia|].
    rewrite E in E2. discriminate E2.
  - rewrite E in E2. by injection E2 as <- <-.
Qed.

(** A tick reaches the threshold exactly from the deadline on. *)
Lemma tick_at_deadline c d e :
  session_inv c → completion_deadline c = Some d → admitted e c → cmd_command e = Tick →
  cmd_at e < u64_max →
  out_accepted (apply e c).2 = true ∧
  out_effects (apply e c).2 =
    (if d <=? cmd_at e then [PersistCompletion (generation c) (experiment_time c + elapsed (cmd_at e) c)]
     else []) ∧
  completion (apply e c).1 = (if d <=? cmd_at e then PersistencePending else NotReached).
Proof.
  intros Hi Hd Ha Hc Hmax. destruct (deadline_spec c d Hi Hd) as (s & P & Hs & Hn & Hcnt & Hlt & ->).
  pose proof Ha as (_ & _ & Ht). assert (timely (cmd_at e) c) as Ht' by (split; [done|lia]).
  destruct (advance_active_time (cmd_at e) c) as [c1 es] eqn:A.
  pose proof (advance_time (cmd_at e) c Hi Ht' P c1 es A) as Htime.
  assert (reduce e c = (c1, Ok es)) as E.
  { unfold reduce, reduce_tick. rewrite Hc, A, P. done. }
  destruct (advance_eq (cmd_at e) c P Hi Ht ltac:(lia)) as [(H & _)|(s' & _ & Hs' & Hle & Hb & Eq)];
    [done|]. rewrite Hs in Hs'. injection Hs' as <-.
  rewrite (apply_admitted e c c1 es Ha E). cbn [fst snd accepted_outcome out_accepted out_effects].
  assert (∀ o, completion (remember e o (stamp (cmd_at e) c1)) = completion c1) as Hrem.
  { intros o. by destruct (remember_cases e o (stamp (cmd_at e) c1)) as [(? & ? & _ & _ & ->)|[_ ->]]. }
  rewrite Hrem. rewrite Eq in A. unfold advanced in A. rewrite Hn in A.
  replace (completion_threshold_ns c <=? active_time_ns c + (cmd_at e - s))
    with (saturating_add64 s (completion_threshold_ns c - active_time_ns c) <=? cmd_at e) in A.
  2: { apply Bool.eq_iff_eq_true. rewrite !N.leb_le. unfold saturating_add64. lia. }
  destruct (_ <=? cmd_at e); injection A as <- <-; cbn in *; rewrite ?Htime; auto.
Qed.

(** ** Replay *)

Lemma find_operation_mid pre a post :
  NoDup ((fun a => cmd_operation (ap_envelope a)) <$> pre ++ a :: post) →
  find_operation (cmd_operation (ap_envelope a)) (pre ++ a :: post) = Some a.
Proof.
  intros Hd. pose proof (find_operation_spec (cmd_operation (ap_envelope a)) (pre ++ a :: post)) as F.
  unfold find_operation in *. induction pre as [|b pre IH]; cbn in *; [by rewrite N.eqb_refl|].
  apply NoDup_cons in Hd as [Hb Hd].
  destruct (N.eqb_spec (cmd_operation (ap_envelope b)) (cmd_operation (ap_envelope a))) as [E|E].
  - destruct Hb. rewrite E. apply list_elem_of_fmap. exists a. set_solver.
  - apply IH; [done|]. destruct (List.find _ _) as [x|] eqn:Fx.
    + destruct F as [_ F]. split; [|done]. apply List.find_some in Fx as [Fx _]. by apply list_elem_of_In.
    + set_solver.
Qed.

(** An entry is in the history with at most [n] newer ones. *)
Definition recorded (a : AppliedOperation) (n : nat) (c : ExperimentSessionController) : Prop :=
  ∃ pre post, operations c = pre ++ a :: post ∧ (length post <= n)%nat.

Lemma remember_recorded e o a n c :
  recorded a n c → (n < 63)%nat → (length (operations c) <= 64)%nat → recorded a (S n) (remember e o c).
Proof.
  intros (pre & post & E & Hp) Hn Hl.
  destruct (remember_cases e o c) as [(b & rest & E' & Hlen & ->)|[_ ->]]; cbn.
  - rewrite E in E', Hlen. rewrite length_app in Hlen. cbn in Hlen.
    destruct pre as [|b' pre]; [cbn in *; lia|]. injection E' as <- <-.
    exists pre, (post ++ [mkApplied e o]). cbn. rewrite <- app_assoc, length_app. cbn. split; [done|lia].
  - exists pre, (post ++ [mkApplied e o]). cbn. rewrite E, <- app_assoc, length_app. cbn. split; [done|lia].
Qed.

Lemma apply_recorded e a n c :
  session_inv c → recorded a n c → (n < 63)%nat → recorded a (S n) (apply e c).1.
Proof.
  intros Hi Hr Hn. pose proof (apply_spec e c) as S. destruct (apply e c) as [c' o]. cbn in *.
  assert (∀ c1, operations c1 = operations c → recorded a n c1) as Hw.
  { intros c1 E. destruct Hr as (pre & post & ? & ?). exists pre, post. by rewrite E. }
  destruct S as [o _ _|r _ _|c1 es _ E].
  - destruct Hr as (pre & post & ? & ?). exists pre, post. split; [done|lia].
  - by apply remember_recorded; [|..|apply Hi].
  - apply reduce_frame in E as (E & _). apply remember_recorded; [by apply Hw|done|]. cbn. rewrite E. apply Hi.
Qed.

Lemma run_recorded es a n c :
  session_inv c → Forall envelope_u64 es → recorded a n c → (n + length es <= 63)%nat →
  recorded a (n + length es) (session_run es c).1.
Proof.
  revert n c. induction es as [|e es IH]; intros n c Hi Hes Hr Hn; cbn in *.
  { destruct Hr as (pre & post & ? & ?). exists pre, post. split; [done|lia]. }
  forall_cons. pose proof (apply_recorded e a n c Hi Hr ltac:(lia)) as Hr1.
  pose proof (apply_inv e c Hi ltac:(assumption)) as Hi1.
  destruct (apply e c) as [c1 o]. cbn in *.
  specialize (IH (S n) c1 Hi1 ltac:(assumption) Hr1 ltac:(lia)).
  destruct (session_run es c1). cbn in *. by rewrite <- Nat.add_succ_comm.
Qed.

(** The answer of a fresh command is recorded as the newest entry. *)
Lemma apply_records e c :
  ¬ spent (cmd_operation e) c → recorded (mkApplied e (apply e c).2) 0 (apply e c).1.
Proof.
  intros Hs. pose proof (apply_spec e c) as S. destruct (apply e c) as [c' o]. cbn in *.
  assert (∀ o c1, recorded (mkApplied e o) 0 (remember e o c1)) as Hr.
  { intros o1 c1. destruct (remember_cases e o1 c1) as [(b & rest & _ & _ & ->)|[_ ->]]; cbn;
      [exists rest, []|exists (operations c1), []]; done. }
  destruct S; [done|apply Hr..].
Qed.

Lemma replay_recorded e o n c :
  session_inv c → recorded (mkApplied e o) n c → apply e c = (c, set_out_duplicate true o).
Proof.
  intros Hi (pre & post & E & _). destruct (si_history _ Hi) as [_ Hd]. rewrite E in Hd.
  unfold apply. rewrite E. pose proof (find_operation_mid pre (mkApplied e o) post Hd) as F.
  cbn [ap_envelope] in F. rewrite F.
  cbn. by rewrite bool_decide_eq_true_2.
Qed.

(** ** At most once *)

Lemma apply_spent_mono e c k : spent k c → spent k (apply e c).1.
Proof.
  intros Hs. pose proof (apply_spec e c) as S. destruct (apply e c) as [c' o]. cbn in *.
  destruct S as [o _ _|r _ _|c1 es _ E]; [done|by apply remember_spent; left|].
  apply remember_spent. left. apply reduce_frame in E as (E1 & E2 & _).
  unfold spent, tokens in *. cbn. by rewrite E1, E2.
Qed.

Lemma apply_spends e c : spent (cmd_operation e) (apply e c).1.
Proof.
  pose proof (apply_spec e c) as S. destruct (apply e c) as [c' o]. cbn in *.
  destruct S; [done|apply remember_spent; auto..].
Qed.

Lemma step_spent c c' k : session_step c c' → spent k c → spent k c'.
Proof.
  intros [c1 e _|c1 p]; [apply apply_spent_mono|].
  unfold observe_preparation_presentation. by destruct (_ || _).
Qed.

Lemma steps_spent c c' k : rtc session_step c c' → spent k c → spent k c'.
Proof. induction 1; eauto using step_spent. Qed.

Lemma apply_when_spent e c :
  spent (cmd_operation e) c → (apply e c).1 = c ∧ answered e c (apply e c).2.
Proof.
  intros Hs. pose proof (apply_spec e c) as S. destruct (apply e c) as [c' o]. cbn in *.
  destruct S as [o _ Ha|r Hn _|c1 es [Hn _] _]; done.
Qed.

(** ** Adapter *)

(** Every token the controller has seen is below the adapter's counter. *)
Definition adapter_inv (a : ReducerAdapter) : Prop :=
  retired_operation_floor (ad_controller a) <= ad_next_reducer_operation a ∧
  Forall (fun k => k <= ad_next_reducer_operation a) (tokens (ad_controller a)).

Inductive adapter_step : ReducerAdapter → ReducerAdapter → Prop :=
  | adapter_apply a g t command : adapter_step a (apply_controller g t command a).1
  | adapter_internal a t command : adapter_step a (apply_internal t command a).1
  | adapter_observe a p : adapter_step a
      (mkAdapter (observe_preparation_presentation p (ad_controller a)).1 (ad_next_reducer_operation a)).

Lemma adapter_fresh a : adapter_inv a → ad_next_reducer_operation a < u64_max →
  ¬ spent (N.max (saturating_add64 (ad_next_reducer_operation a) 1) 1) (ad_controller a).
Proof.
  intros [Hf Hk] Hn. rewrite saturating_add64_small, N.max_l by lia.
  intros [H|H]; [lia|]. rewrite Forall_forall in Hk. apply Hk in H. lia.
Qed.

Lemma remember_adapter e o c n :
  retired_operation_floor c <= n → Forall (fun k => k <= n) (tokens c) → cmd_operation e <= n →
  retired_operation_floor (remember e o c) <= n ∧ Forall (fun k => k <= n) (tokens (remember e o c)).
Proof.
  unfold tokens. intros Hf Hk He.
  destruct (remember_cases e o c) as [(a & rest & E & _ & ->)|[_ ->]]; cbn; rewrite ?E in Hk;
    rewrite fmap_app, Forall_app; cbn in *; forall_cons;
    (split; [lia|]); (split; [done|]); by repeat constructor.
Qed.

Lemma apply_controller_inv g t command a :
  adapter_inv a → ad_next_reducer_operation a <= u64_max →
  adapter_inv (apply_controller g t command a).1 ∧
  ad_next_reducer_operation (apply_controller g t command a).1 <= u64_max ∧
  ad_next_reducer_operation a <= ad_next_reducer_operation (apply_controller g t command a).1.
Proof.
  intros [Hf Hk] Hw. unfold apply_controller.
  set (n := N.max (saturating_add64 (ad_next_reducer_operation a) 1) 1).
  assert (ad_next_reducer_operation a <= n <= u64_max) as Hn.
  { unfold n, saturating_add64, u64_max in *. lia. }
  pose proof (apply_spec (mkCommand n g t command) (ad_controller a)) as S.
  destruct (apply _ _) as [c' o]. cbn in *. split; [|lia]. unfold adapter_inv. cbn.
  assert (Forall (fun k => k <= n) (tokens (ad_controller a))) as Hk'.
  { eapply Forall_impl; [exact Hk|]. cbn. lia. }
  destruct S as [o _ _|r _ _|c1 es _ E].
  - split; [lia|done].
  - apply remember_adapter; [lia|done|done].
  - apply reduce_frame in E as (E1 & E2 & _). apply remember_adapter; [cbn; rewrite E2; lia| |done].
    unfold tokens in *. cbn. by rewrite E1.
Qed.

(** The reducer itself never answers with a fencing rejection. *)
Lemma reduce_rejections e c c' r : reduce e c = (c', Err r) →
  Some r ≠ Some OperationConflict ∧ Some r ≠ Some OperationRetired.
Proof.
  unfold reduce. destruct (cmd_command e); intros H.
  all: cbv [reduce_audio_prepared reduce_control reduce_start reduce_recording_prepared
    reduce_prepare_failed reduce_presentation_changed reduce_tick reduce_audio_started
    reduce_audio_ended reduce_audio_error reduce_completion_durable reduce_restart reduce_exit
    reduce_finalized reduce_finalization_failed control_transition] in H.
  all: repeat match type of H with
  | (_, Ok _) = (_, Err _) => discriminate H
  | (_, Err _) = (_, Err _) => injection H as <- <-
  | context [finish_terminal_transition ?x] => destruct (finish_terminal_transition x)
  | context [advance_active_time ?x ?y] => destruct (advance_active_time x y)
  | context [if ?b then _ else _] => destruct b
  end; done.
Qed.

Lemma apply_internal_adapter t command a :
  (apply_internal t command a).1 = (apply_controller (generation (ad_controller a)) t command a).1.
Proof. unfold apply_internal. by destruct (apply_controller _ _ _ _). Qed.

Lemma adapter_reachable_inv mode a :
  rtc adapter_step (mkAdapter (with_preparation_mode mode) 0) a →
  adapter_inv a ∧ ad_next_reducer_operation a <= u64_max.
Proof.
  set (a0 := mkAdapter (with_preparation_mode mode) 0). intros Hr.
  assert (adapter_inv a0 ∧ ad_next_reducer_operation a0 <= u64_max) as H0.
  { split; [|done]. split; [done|constructor]. }
  induction Hr as [|a1 a2 a3 Hstep _ IH]; [done|]. apply IH. destruct H0 as [Hi Hw].
  destruct Hstep as [a g t command|a t command|a p].
  - by destruct (apply_controller_inv g t command a Hi Hw) as (? & ? & _).
  - rewrite apply_internal_adapter.
    by destruct (apply_controller_inv (generation (ad_controller a)) t command a Hi Hw) as (? & ? & _).
  - split; [|done]. unfold observe_preparation_presentation. by destruct (_ || _).
Qed.
