(* ===== verification/SessionClock.v ===== *)
(** * Session timestamps

    [SessionTimestampKey] of session_recording_clock.rs: the name of a session
    directory, whose text order must be the order of time. Decimal formatting
    and parsing of [u64] are the language's. *)

From S2P Require Import Prelude RustStr ExperimentSession.
From Stdlib Require Import ZArith.

Local Open Scope N_scope.

Definition SESSION_KEY_PREFIX : string := "utc-ns-".
Definition SESSION_KEY_DIGITS : nat := 20.

(** ** Decimal text of an unsigned integer *)

(** [format!("{:0width$}", n)]: zero padding on the left up to [width]. *)
Definition format_padded (width : nat) (n : N) : string :=
  let digits := decimal_bytes 20 n in
  str_of_bytes (replicate (width - length digits) 48 ++ digits).

(** [digits.parse::<u64>()] on a text of ASCII digits: overflow is an error. *)
Fixpoint parse_u64_bytes (acc : N) (digits : list N) : option N :=
  match digits with
  | [] => Some acc
  | d :: rest =>
      let acc := acc * 10 + (d - 48) in
      if u64_max <? acc then None else parse_u64_bytes acc rest
  end.

Definition parse_u64 (digits : string) : option N :=
  if str_is_empty digits || negb (all_bytes is_ascii_digit digits) then None
  else parse_u64_bytes 0 (str_bytes digits).

(** ** Session keys *)

Definition from_utc (utc : UtcEpochNanos) : string :=
  (SESSION_KEY_PREFIX ++ format_padded SESSION_KEY_DIGITS utc)%string.

Definition session_key_parse (value : string) : result string string :=
  digits ← ok_or (strip_prefix SESSION_KEY_PREFIX value) "session-key-prefix-invalid"%string;
  fail_if (negb (str_len digits =? N.of_nat SESSION_KEY_DIGITS) ||
           negb (all_bytes is_ascii_digit digits) ||
           match parse_u64 digits with None => true | Some _ => false end)
    "session-key-timestamp-invalid"%string ;;
  Ok value.

(** ** Fixed-width decimals *)

(** Exactly [k] digits. *)
Fixpoint fixed_bytes (k : nat) (n : N) : list N :=
  match k with
  | O => []
  | S k' => fixed_bytes k' (n / 10) ++ [48 + n mod 10]
  end.

Lemma fixed_zero k : fixed_bytes k 0 = replicate k 48.
Proof.
  induction k as [|k IH]; [done|]. cbn [fixed_bytes]. change (0 / 10) with 0. rewrite IH.
  change [48 + 0 mod 10] with (replicate 1 48). rewrite <- replicate_add. f_equal. lia.
Qed.

Lemma fixed_length k n : length (fixed_bytes k n) = k.
Proof. revert n. induction k as [|k IH]; intros n; cbn; [done|]. rewrite length_app, IH. cbn. lia. Qed.

Lemma pow_succ k : 10 ^ N.of_nat (S k) = 10 ^ N.of_nat k * 10.
Proof. rewrite Nat2N.inj_succ, N.pow_succ_r by lia. lia. Qed.

Lemma decimal_fixed k f n : (1 <= k <= f)%nat → n < 10 ^ N.of_nat k →
  replicate (k - length (decimal_bytes f n)) 48 ++ decimal_bytes f n = fixed_bytes k n.
Proof.
  revert f n. induction k as [|k IH]; intros f n Hk Hn; [lia|].
  destruct f as [|f]; [lia|]. cbn [decimal_bytes fixed_bytes].
  destruct (N.ltb_spec n 10) as [Hs|Hs].
  - rewrite N.div_small, N.mod_small, fixed_zero by done. cbn [length].
    by replace (S k - 1)%nat with k by lia.
  - rewrite pow_succ in Hn.
    assert (1 <= k)%nat as Hk1 by (destruct k; [cbn in Hn; lia|lia]).
    rewrite <- (IH f (n / 10)); [|lia|by apply N.Div0.div_lt_upper_bound; lia].
    rewrite length_app. cbn [length]. rewrite app_assoc. f_equal. f_equal. f_equal. lia.
Qed.

Lemma format_padded_fixed n : n <= u64_max → format_padded 20 n = str_of_bytes (fixed_bytes 20 n).
Proof.
  intros Hn. unfold format_padded. f_equal. apply decimal_fixed; [lia|].
  change (10 ^ N.of_nat 20) with 100000000000000000000. unfold u64_max in Hn. lia.
Qed.

Lemma fixed_digits k n : Forall (fun b => is_ascii_digit b = true ∧ is_u8 b) (fixed_bytes k n).
Proof.
  revert n. induction k as [|k IH]; intros n; cbn [fixed_bytes]; [constructor|].
  apply Forall_app. split; [apply IH|]. apply Forall_singleton.
  pose proof (N.mod_lt n 10 ltac:(done)) as H. revert H. generalize (n mod 10). intros r H.
  split; [|unfold is_u8; lia].
  unfold is_ascii_digit. rewrite andb_true_iff, !N.leb_le. lia.
Qed.

(** ** Order *)

Fixpoint compare_bytes (l r : list N) : comparison :=
  match l, r with
  | [], [] => Eq
  | [], _ => Lt
  | _, [] => Gt
  | a :: l', b :: r' => match N.compare a b with Eq => compare_bytes l' r' | c => c end
  end.

Lemma compare_str_bytes s t : String.compare s t = compare_bytes (str_bytes s) (str_bytes t).
Proof.
  revert t. induction s as [|a s IH]; intros [|b t]; cbn; try done.
  rewrite ascii_compare_N, IH. done.
Qed.

Lemma compare_bytes_snoc l r a b : length l = length r →
  compare_bytes (l ++ [a]) (r ++ [b]) =
  match compare_bytes l r with Eq => N.compare a b | c => c end.
Proof.
  revert r. induction l as [|x l IH]; intros [|y r] H; cbn in *; try lia.
  - by destruct (N.compare a b).
  - destruct (N.compare x y); [|done..]. apply IH. lia.
Qed.

Local Ltac Zify.zify_post_hook ::= Z.to_euclidean_division_equations.

Lemma compare_div_mod a b : N.compare a b =
  match N.compare (a / 10) (b / 10) with Eq => N.compare (48 + a mod 10) (48 + b mod 10) | c => c end.
Proof.
  destruct (N.compare_spec (a / 10) (b / 10)), (N.compare_spec (48 + a mod 10) (48 + b mod 10)),
    (N.compare_spec a b); try done; exfalso; lia.
Qed.

Lemma snoc_div_mod v d : 48 <= d <= 57 →
  (v * 10 + (d - 48)) / 10 = v ∧ 48 + (v * 10 + (d - 48)) mod 10 = d.
Proof. intros. split; lia. Qed.

Lemma div_mod_snoc n : n / 10 * 10 + (48 + n mod 10 - 48) = n.
Proof. lia. Qed.

Local Ltac Zify.zify_post_hook ::= idtac.

Lemma fixed_compare k a b : a < 10 ^ N.of_nat k → b < 10 ^ N.of_nat k →
  compare_bytes (fixed_bytes k a) (fixed_bytes k b) = N.compare a b.
Proof.
  revert a b. induction k as [|k IH]; intros a b Ha Hb.
  { cbn in *. replace a with 0 by lia. by replace b with 0 by lia. }
  rewrite pow_succ in Ha, Hb. cbn [fixed_bytes].
  rewrite compare_bytes_snoc by (by rewrite !fixed_length).
  rewrite IH by (apply N.Div0.div_lt_upper_bound; lia). by rewrite (compare_div_mod a b).
Qed.

Lemma compare_prefix p s t : String.compare (p ++ s) (p ++ t) = String.compare s t.
Proof. induction p as [|a p IH]; cbn; [done|]. by rewrite ascii_compare_N, N.compare_refl. Qed.

Lemma str_bytes_fixed n : n <= u64_max →
  str_bytes (format_padded 20 n) = fixed_bytes 20 n.
Proof.
  intros Hn. rewrite format_padded_fixed by done. apply str_bytes_of_bytes.
  eapply Forall_impl; [apply fixed_digits|]. by intros b [_ ?].
Qed.

Lemma from_utc_compare a b : a <= u64_max → b <= u64_max →
  String.compare (from_utc a) (from_utc b) = N.compare a b.
Proof.
  intros Ha Hb. unfold from_utc. rewrite compare_prefix, compare_str_bytes.
  unfold SESSION_KEY_DIGITS. rewrite !str_bytes_fixed by done.
  apply fixed_compare; change (10 ^ N.of_nat 20) with 100000000000000000000; unfold u64_max in *; lia.
Qed.

(** ** Parsing *)

(** The number a list of digits denotes. *)
Definition digits_value (acc : N) (l : list N) : N := fold_left (fun acc d => acc * 10 + (d - 48)) l acc.

Lemma digits_value_ge l acc : acc <= digits_value acc l.
Proof.
  unfold digits_value. revert acc. induction l as [|d l IH]; intros acc; cbn; [lia|].
  specialize (IH (acc * 10 + (d - 48))). lia.
Qed.

Lemma parse_u64_bytes_spec l acc n : acc <= u64_max →
  parse_u64_bytes acc l = Some n ↔ n = digits_value acc l ∧ n <= u64_max.
Proof.
  revert acc. induction l as [|d l IH]; intros acc Ha; cbn.
  - split; [intros [= <-]; done|by intros [-> _]].
  - pose proof (digits_value_ge l (acc * 10 + (d - 48))) as Hge.
    destruct (N.ltb_spec u64_max (acc * 10 + (d - 48))) as [H|H].
    + split; [done|]. unfold digits_value in Hge. intros [-> Hn]. lia.
    + by rewrite IH.
Qed.

Lemma digits_value_snoc l d : digits_value 0 (l ++ [d]) = digits_value 0 l * 10 + (d - 48).
Proof. unfold digits_value. by rewrite fold_left_app. Qed.

Lemma fixed_of_value l : Forall (fun b => is_ascii_digit b = true) l →
  fixed_bytes (length l) (digits_value 0 l) = l.
Proof.
  induction l as [|d l IH] using rev_ind; intros H; [done|].
  apply Forall_app in H as [H Hd]. apply Forall_cons in Hd as [Hd _].
  unfold is_ascii_digit in Hd. bool_to_prop.
  rewrite length_app, digits_value_snoc. cbn [length]. rewrite Nat.add_comm. cbn [plus fixed_bytes].
  destruct (snoc_div_mod (digits_value 0 l) d) as [-> ->]; [lia|]. by rewrite IH.
Qed.

Lemma value_of_fixed k n : n < 10 ^ N.of_nat k → digits_value 0 (fixed_bytes k n) = n.
Proof.
  revert n. induction k as [|k IH]; intros n Hn; [cbn in *; lia|].
  rewrite pow_succ in Hn. cbn [fixed_bytes]. rewrite digits_value_snoc, IH
    by (apply N.Div0.div_lt_upper_bound; lia).
  apply div_mod_snoc.
Qed.

Lemma all_digits_bytes s : all_bytes is_ascii_digit s = true ↔
  Forall (fun b => is_ascii_digit b = true) (str_bytes s).
Proof.
  rewrite all_bytes_forallb, forallb_forall, Forall_forall.
  split; intros H x Hx; apply H; by apply list_elem_of_In.
Qed.

(** A key parses exactly when it is the key of a [u64] instant. *)
Lemma session_key_parse_iff value key :
  session_key_parse value = Ok key ↔ key = value ∧ ∃ n, n <= u64_max ∧ value = from_utc n.
Proof.
  unfold session_key_parse. rewrite ok_or_bind_ok. split.
  - intros (digits & Hp & H). apply fail_if_bind_ok in H as [H [= <-]].
    apply strip_prefix_Some in Hp. apply orb_false_iff in H as [H H3]. bool_to_prop.
    split; [done|]. unfold parse_u64 in H3.
    match goal with Hx : all_bytes _ _ = true |- _ => rename Hx into Hd end.
    rewrite Hd in H3. destruct (str_is_empty digits); [done|]. cbn in H3.
    destruct (parse_u64_bytes 0 (str_bytes digits)) as [n|] eqn:E; [|done].
    apply parse_u64_bytes_spec in E as [E Hn]; [|done]. exists n. split; [done|].
    unfold from_utc, SESSION_KEY_DIGITS. rewrite Hp. f_equal. apply str_bytes_inj.
    rewrite str_bytes_fixed by done. subst n.
    assert (length (str_bytes digits) = 20%nat) as Hl.
    { rewrite length_str_bytes. unfold str_len, SESSION_KEY_DIGITS in *. lia. }
    rewrite <- Hl at 1. symmetry. apply fixed_of_value. by apply all_digits_bytes.
  - intros (-> & n & Hn & ->). unfold from_utc.
    exists (format_padded SESSION_KEY_DIGITS n). split; [by apply strip_prefix_Some|].
    apply fail_if_bind_ok. split; [|done].
    pose proof (str_bytes_fixed n Hn) as Hb.
    assert (all_bytes is_ascii_digit (format_padded SESSION_KEY_DIGITS n) = true) as Hd.
    { apply all_digits_bytes. unfold SESSION_KEY_DIGITS. rewrite Hb.
      eapply Forall_impl; [apply fixed_digits|]. by intros b [? _]. }
    assert (String.length (format_padded SESSION_KEY_DIGITS n) = 20%nat) as Hl.
    { unfold SESSION_KEY_DIGITS. by rewrite <- length_str_bytes, Hb, fixed_length. }
    assert (str_is_empty (format_padded SESSION_KEY_DIGITS n) = false) as He.
    { by destruct (format_padded SESSION_KEY_DIGITS n). }
    unfold str_len, parse_u64. rewrite Hl, Hd, He. cbn [negb orb].
    unfold SESSION_KEY_DIGITS. rewrite Hb.
    destruct (parse_u64_bytes 0 (fixed_bytes 20 n)) eqn:E; [done|].
    assert (parse_u64_bytes 0 (fixed_bytes 20 n) = Some n) as E2; [|congruence].
    apply parse_u64_bytes_spec; [done|]. split; [|done]. symmetry. apply value_of_fixed.
    change (10 ^ N.of_nat 20) with 100000000000000000000. unfold u64_max in *. lia.
Qed.

(** ** Clock anchors *)

Lemma utc_at_iff a m u : utc_at a m = Some u ↔
  (Z.of_N u - Z.of_N (ca_utc a) = Z.of_N m - Z.of_N (ca_monotonic a))%Z ∧
  (ca_monotonic a <= m → u <= u64_max).
Proof.
  unfold utc_at, checked_add64. destruct (N.leb_spec (ca_monotonic a) m) as [H|H].
  - destruct (N.leb_spec (ca_utc a + (m - ca_monotonic a)) u64_max) as [H1|H1].
    + split; [intros [= <-]; lia|]. intros [? _]. f_equal. lia.
    + split; [done|]. intros [? ?]. lia.
  - rewrite checked_sub_Some. split; intros; lia.
Qed.

(** ** Decimal texts *)

Lemma decimal_value f n : n < 10 ^ N.of_nat f → digits_value 0 (decimal_bytes f n) = n.
Proof.
  revert n. induction f as [|f IH]; intros n Hn.
  { change (10 ^ N.of_nat 0) with 1 in Hn. replace n with 0 by lia. done. }
  cbn [decimal_bytes]. rewrite pow_succ in Hn. destruct (N.ltb_spec n 10) as [Hs|Hs].
  - unfold digits_value. cbn. lia.
  - rewrite digits_value_snoc, IH by (apply N.Div0.div_lt_upper_bound; lia). apply div_mod_snoc.
Qed.

Lemma decimal_digits f n : Forall (fun b => is_ascii_digit b = true ∧ is_u8 b) (decimal_bytes f n).
Proof.
  revert n. induction f as [|f IH]; intros n; cbn [decimal_bytes]; [constructor|]. unfold is_ascii_digit, is_u8.
  destruct (N.ltb_spec n 10) as [Hs|Hs].
  - apply Forall_singleton. rewrite andb_true_iff, !N.leb_le. lia.
  - apply Forall_app. split; [apply IH|]. apply Forall_singleton.
    pose proof (N.mod_lt n 10 ltac:(done)) as Hm. revert Hm. generalize (n mod 10). intros r Hm.
    rewrite andb_true_iff, !N.leb_le. lia.
Qed.

Lemma fmt_decimal_value n : n <= u64_max → digits_value 0 (str_bytes (fmt_decimal n)) = n.
Proof.
  intros Hn. unfold fmt_decimal. rewrite str_bytes_of_bytes.
  - apply decimal_value. change (10 ^ N.of_nat 20) with 100000000000000000000. unfold u64_max in Hn. lia.
  - eapply Forall_impl; [apply decimal_digits|]. by intros b [_ ?].
Qed.

Lemma fmt_decimal_inj a b : a <= u64_max → b <= u64_max → fmt_decimal a = fmt_decimal b → a = b.
Proof. intros Ha Hb E. rewrite <- (fmt_decimal_value a), <- (fmt_decimal_value b) by done. by rewrite E. Qed.

Lemma all_bytes_of_bytes p bs : Forall is_u8 bs → Forall (fun b => p b = true) bs → all_bytes p (str_of_bytes bs) = true.
Proof.
  intros Hu. induction Hu as [|b bs Hb _ IH]; intros Hp; cbn; [done|]. apply Forall_cons in Hp as [Hp Hps].
  by rewrite byte_of_ascii_of_N, Hp, IH.
Qed.

Lemma fmt_decimal_digits n : all_bytes is_ascii_digit (fmt_decimal n) = true.
Proof. apply all_bytes_of_bytes; (eapply Forall_impl; [apply decimal_digits|]); by intros b [? ?]. Qed.
