(* ===== verification/SessionClaims.v ===== *)
(** * Experiment session: properties

    The properties of the session reducer, its adapter and the session clock,
    with witnesses on concrete command sequences. *)

From S2P Require Import Prelude RustStr ExperimentSession SessionTheorems SessionProtocol SessionTime.
From S2P Require Import SessionClock.

Local Open Scope N_scope.
Local Open Scope quest_scope.

(** ** A concrete session: started, run to its threshold, saved and closed *)

Definition demo_start : list CommandEnvelope :=
  [mkCommand 1 0 100 (Start "condition-a" 1000);
   mkCommand 2 1 100 RecordingPrepared;
   mkCommand 3 1 200 (PresentationChanged ImmersiveActive)].

Definition demo_finish : list CommandEnvelope :=
  [mkCommand 4 1 700 (PresentationChanged Developer);
   mkCommand 5 1 900 (PresentationChanged ImmersiveActive);
   mkCommand 6 1 1400 Tick;
   mkCommand 7 1 1500 CompletionDurable;
   mkCommand 8 1 1600 SaveAndExit;
   mkCommand 9 1 1700 (RecordingFinalized true true)].

Definition demo_initial : ExperimentSessionController := with_preparation_mode LocalPanel.
Definition demo_active : ExperimentSessionController := (session_run demo_start demo_initial).1.

Example demo_effects : (session_run (demo_start ++ demo_finish) demo_initial).2 =
  [PrepareRecording 1 "condition-a" 1000; RecordPresentation ImmersiveActive;
   RecordPresentation Developer; RecordPresentation ImmersiveActive; PersistCompletion 1 1000;
   DisarmKiosk; FinalizeRecording 1 FinSaveAndExit true; ShutdownApp].
Proof. vm_compute. reflexivity. Qed.

Lemma demo_u64 : Forall envelope_u64 (demo_start ++ demo_finish).
Proof. repeat (apply Forall_cons_2; [vm_compute; split_and!; discriminate || done|]). constructor. Qed.

Lemma demo_start_u64 : Forall envelope_u64 demo_start.
Proof. repeat (apply Forall_cons_2; [vm_compute; split_and!; discriminate || done|]). constructor. Qed.

Lemma demo_reachable : session_reachable demo_active.
Proof.
  apply run_reachable; [|exact demo_start_u64]. exists LocalPanel. apply rtc_refl.
Qed.

(** ** Properties *)

(** C5: every reachable controller satisfies the session invariant: the phase
    determines the control state, an interval is open exactly while the session
    runs in the immersive presentation, the threshold is reported exactly when
    the active time has reached it, active time never exceeds the clock (so no
    addition saturates), integers keep their width, and the history has at most
    64 entries with distinct tokens. *)
Theorem session_invariant c : session_reachable c → session_inv c.
Proof. apply reachable_inv. Qed.

(** C4: refinement of the recorder protocol: the effects of any sequence of
    commands are a run of the recorder automaton and end in the automaton state
    that the controller's phase stands for, as long as fewer than 2^64-1
    sessions were started. *)
Theorem effects_refine_recorder mode es :
  Forall envelope_u64 es →
  generation (session_run es (with_preparation_mode mode)).1 < u64_max →
  recorder_run (RecIdle 0) (session_run es (with_preparation_mode mode)).2 =
  Some (recorder_view (session_run es (with_preparation_mode mode)).1).
Proof.
  intros Hes Hg. exact (run_view es _ (with_preparation_mode_inv mode) Hes Hg).
Qed.

(** Per session number, recording is prepared at most once, completion is
    persisted at most once and the recording is finalized at most once, over
    any sequence of commands. *)
Theorem recording_effects_at_most_once mode es g :
  Forall envelope_u64 es →
  generation (session_run es (with_preparation_mode mode)).1 < u64_max →
  within (effect_counts g (session_run es (with_preparation_mode mode)).2) (1, 1, 1)%nat.
Proof.
  intros Hes Hg.
  pose proof (run_view es _ (with_preparation_mode_inv mode) Hes Hg) as H.
  apply (recorder_run_allowed g) in H. unfold within, recorder_view in *. cbn in *.
  destruct (0 <? g); cbn in *; lia.
Qed.

(** Generation and operation fencing: an accepted command that is not a
    replay had a fresh token, named the current generation and did not go back
    in time; every other command leaves everything but the operation history
    unchanged and asks for no effect. *)
Theorem apply_fenced e c :
  let '(c', o) := apply e c in
  (out_accepted o = true ∧ out_duplicate o = false ∧ admitted e c) ∨
  (core c' = core c ∧ fresh_effects o = [] ∧
   (out_duplicate o = true ∨ is_Some (out_rejection o))).
Proof.
  pose proof (apply_spec e c) as S. destruct (apply e c) as [c' o]. cbn in S.
  destruct S as [o _ Ha|r _ _|c1 es Ha E].
  - right. split; [done|]. destruct Ha as [(a & _ & _ & ->)|[->| ->]]; eauto.
  - right. split; [apply remember_core|]. eauto.
  - by left.
Qed.

(** C9: an operation token executes at most once: after a command with that
    token, in every later state a command with the same token changes nothing
    and is answered by the recorded outcome or by a conflict or retired
    rejection. *)
Theorem operation_at_most_once e c c' e' :
  rtc session_step (apply e c).1 c' → cmd_operation e' = cmd_operation e →
  (apply e' c').1 = c' ∧ answered e' c' (apply e' c').2.
Proof.
  intros Hs He. apply apply_when_spent. rewrite He.
  eapply steps_spent; [exact Hs|]. apply apply_spends.
Qed.

(** Idempotent replay: the outcome of a fresh command is returned again,
    marked as duplicate and without a state change, for any retry within the
    next 63 commands. *)
Theorem replay_within_history e es c :
  session_reachable c → envelope_u64 e → Forall envelope_u64 es → ¬ spent (cmd_operation e) c →
  (length es <= 63)%nat →
  let c' := (session_run es (apply e c).1).1 in
  apply e c' = (c', set_out_duplicate true (apply e c).2).
Proof.
  intros Hr He Hes Hs Hl. cbv zeta. apply reachable_inv in Hr. pose proof (apply_inv e c Hr He) as Hi.
  eapply (replay_recorded e _ (0 + length es)); [by apply run_inv|].
  apply run_recorded; [done|done|by apply apply_records|done].
Qed.

(** C8: experiment time is exact: over any run in which the session stays
    active, the experiment time grows by exactly the sum of the intervals spent
    running in the immersive presentation. *)
Theorem experiment_time_exact es c :
  session_reachable c → Forall envelope_u64 es → stays_active es c →
  experiment_time (session_run es c).1 = experiment_time c + counted es c.
Proof. intros Hr. apply run_time. by apply reachable_inv. Qed.

(** the completion deadline is exact: a tick admitted at time [t] reports
    completion, with the exact experiment time, if and only if [t] has reached
    [completion_deadline]. *)
Theorem completion_deadline_exact c d e :
  session_reachable c → completion_deadline c = Some d → admitted e c → cmd_command e = Tick →
  cmd_at e < u64_max →
  out_accepted (apply e c).2 = true ∧
  out_effects (apply e c).2 =
    (if d <=? cmd_at e then [PersistCompletion (generation c) (experiment_time c + elapsed (cmd_at e) c)]
     else []) ∧
  completion (apply e c).1 = (if d <=? cmd_at e then PersistencePending else NotReached).
Proof. intros Hr. apply tick_at_deadline. by apply reachable_inv. Qed.

(** [Closed] is terminal: no command leaves it, and the only effect it can
    still ask for is disarming the kiosk. *)
Theorem closed_terminal e c :
  phase c = Closed →
  phase (apply e c).1 = Closed ∧ Forall (eq DisarmKiosk) (fresh_effects (apply e c).2).
Proof.
  intros P. pose proof (apply_spec e c) as S. destruct (apply e c) as [c' o]. cbn in *.
  destruct S as [o _ Ha|r _ _|c1 es _ E].
  - split; [done|]. destruct Ha as [(a & _ & _ & ->)|[->| ->]]; constructor.
  - by rewrite (phase_core _ _ (remember_core _ _ _)).
  - rewrite (phase_core _ _ (remember_core _ _ _)). cbn. unfold fresh_effects. cbn.
    unfold reduce in E.
    destruct (cmd_command e);
      cbv [reduce_audio_prepared reduce_control reduce_start reduce_recording_prepared
        reduce_prepare_failed reduce_presentation_changed reduce_tick reduce_audio_started
        reduce_audio_ended reduce_audio_error reduce_completion_durable reduce_restart reduce_exit
        reduce_finalized reduce_finalization_failed control_transition] in E;
      rewrite P in E; try discriminate E; injection E as <- <-; by repeat constructor.
Qed.

(** The adapter's own numbering never collides: from a fresh adapter,
    whatever commands it forwards, the next command is never answered as a
    duplicate, a conflict or a retired operation, until the 64-bit counter is
    exhausted. *)
Theorem adapter_tokens_fresh mode a g t command :
  rtc adapter_step (mkAdapter (with_preparation_mode mode) 0) a →
  ad_next_reducer_operation a < u64_max →
  let o := (apply_controller g t command a).2 in
  out_duplicate o = false ∧ out_rejection o ≠ Some OperationConflict ∧
  out_rejection o ≠ Some OperationRetired.
Proof.
  intros Hr Hn. apply adapter_reachable_inv in Hr as [Hi _].
  pose proof (adapter_fresh a Hi Hn) as Hf. unfold apply_controller. cbv zeta.
  set (e := mkCommand (N.max (saturating_add64 (ad_next_reducer_operation a) 1) 1) g t command).
  pose proof (apply_spec e (ad_controller a)) as S. destruct (apply e _) as [c' o]. cbn in *.
  destruct S as [o Hs _|r _ Hr|c1 es _ _]; [done| |done].
  split; [done|]. cbn. destruct Hr as [[-> _]|[[-> _]|[_ E]]]; [done..|].
  by apply reduce_rejections in E.
Qed.

(** session keys sort as time: for 64-bit instants the text order of the
    keys is the order of the instants, so equal keys are equal instants. *)
Theorem session_key_order a b : a <= u64_max → b <= u64_max →
  String.compare (from_utc a) (from_utc b) = N.compare a b ∧
  (from_utc a = from_utc b → a = b).
Proof.
  intros Ha Hb. pose proof (from_utc_compare a b Ha Hb) as H. split; [done|]. intros E.
  rewrite E, string_compare_refl in H. symmetry in H. by apply N.compare_eq_iff in H.
Qed.

(** [SessionTimestampKey::parse] accepts exactly the keys of 64-bit
    instants, and returns its input. *)
Theorem session_key_roundtrip value key :
  session_key_parse value = Ok key ↔ key = value ∧ ∃ n, n <= u64_max ∧ value = from_utc n.
Proof. apply session_key_parse_iff. Qed.

(** [ClockAnchor::utc_at] is the exact affine map between the two clocks
    on both sides of the anchor, and fails only outside the 64-bit range. *)
Theorem utc_at_exact a m u : utc_at a m = Some u ↔
  (Z.of_N u - Z.of_N (ca_utc a) = Z.of_N m - Z.of_N (ca_monotonic a))%Z ∧
  (ca_monotonic a <= m → u <= u64_max).
Proof. apply utc_at_iff. Qed.

(** ** Witnesses *)

Lemma session_invariant_witness : session_inv demo_active.
Proof. exact (session_invariant demo_active demo_reachable). Defined.

Lemma effects_refine_recorder_witness :
  recorder_run (RecIdle 0) (session_run (demo_start ++ demo_finish) demo_initial).2 = Some RecShut.
Proof.
  exact (effects_refine_recorder LocalPanel (demo_start ++ demo_finish) demo_u64 eq_refl).
Defined.

Lemma recording_effects_at_most_once_witness :
  within (effect_counts 1 (session_run (demo_start ++ demo_finish) demo_initial).2) (1, 1, 1)%nat.
Proof.
  exact (recording_effects_at_most_once LocalPanel (demo_start ++ demo_finish) 1 demo_u64 eq_refl).
Defined.

Lemma operation_at_most_once_witness :
  (apply (mkCommand 1 0 100 Tick) (apply (mkCommand 1 0 100 (Start "a" 5)) demo_initial).1).1 =
  (apply (mkCommand 1 0 100 (Start "a" 5)) demo_initial).1.
Proof.
  apply (operation_at_most_once (mkCommand 1 0 100 (Start "a" 5)) demo_initial); [apply rtc_refl|reflexivity].
Defined.

Definition demo_tick : CommandEnvelope := mkCommand 10 1 1000 Tick.

Lemma demo_tick_fresh : ¬ spent (cmd_operation demo_tick) demo_active.
Proof.
  intros [H|H]; [vm_compute in H; by apply H|].
  assert (tokens demo_active = [1; 2; 3]) as E by (vm_compute; reflexivity). rewrite E in H. set_solver.
Qed.

Lemma demo_tick_u64 : envelope_u64 demo_tick.
Proof. unfold envelope_u64, u64_max. cbn. lia. Qed.

Lemma replay_within_history_witness :
  apply demo_tick (apply demo_tick demo_active).1 =
  ((apply demo_tick demo_active).1, set_out_duplicate true (apply demo_tick demo_active).2).
Proof.
  apply (replay_within_history demo_tick [] demo_active demo_reachable demo_tick_u64
           (List.Forall_nil _) demo_tick_fresh). cbn. lia.
Defined.

Lemma experiment_time_exact_witness :
  experiment_time (session_run [demo_tick] demo_active).1 = 800.
Proof.
  rewrite (experiment_time_exact [demo_tick] demo_active demo_reachable); [vm_compute; reflexivity|..].
  - apply Forall_singleton, demo_tick_u64.
  - vm_compute. auto.
Defined.

Lemma completion_deadline_exact_witness :
  completion_deadline demo_active = Some 1200 ∧ completion (apply demo_tick demo_active).1 = NotReached.
Proof.
  split; [vm_compute; reflexivity|].
  destruct (completion_deadline_exact demo_active 1200 demo_tick demo_reachable) as (_ & _ & H);
    [vm_compute; reflexivity| |reflexivity|vm_compute; reflexivity|exact H].
  split; [apply demo_tick_fresh|]. split; [vm_compute; reflexivity|]. vm_compute. discriminate.
Defined.

Lemma closed_terminal_witness :
  phase (apply demo_tick (session_run (demo_start ++ demo_finish) demo_initial).1).1 = Closed.
Proof. apply closed_terminal. vm_compute. reflexivity. Defined.

Lemma adapter_tokens_fresh_witness :
  out_duplicate (apply_controller 0 5 Tick (mkAdapter demo_initial 0)).2 = false.
Proof.
  apply (adapter_tokens_fresh LocalPanel (mkAdapter demo_initial 0) 0 5 Tick); [apply rtc_refl|].
  vm_compute. reflexivity.
Defined.

Lemma session_key_order_witness : String.compare (from_utc 9) (from_utc 10) = Lt.
Proof. apply (session_key_order 9 10); vm_compute; discriminate. Defined.
