(* ===== verification/MediaModel.v ===== *)
(** * Media stream: session plan data model

    The structs and constants of
    crates/rusty-quest-media-stream/src/model.rs. [ValidationError] is its
    message; a validator that pushes errors onto a vector returns the list of
    messages it pushes, in order. *)

From S2P Require Import Prelude RustStr.

Definition MEDIA_STREAM_SESSION_SCHEMA : string := "rusty.quest.media_stream_session.v1".
Definition PRIVACY_LOCAL_LAN_DIAGNOSTIC : string := "local_lan_diagnostic".
Definition PRIVACY_TRUSTED_RELAY_ENCRYPTED : string := "trusted_relay_transport_encrypted".
Definition PRIVACY_E2EE_CANDIDATE : string := "untrusted_relay_end_to_end_encrypted_candidate".
Definition PAYLOAD_PLANE_BINARY_MEDIA : string := "binary-media".
Definition VIDEO_CODEC_H264 : string := "h264".
Definition STREAM_FRAMING_DIAGNOSTIC_H264 : string := "diagnostic-h264-packet-stream".
Definition STREAM_FRAMING_RMANVID_V4_PACKED_STEREO : string := "rmanvid-v4-packed-stereo".
Definition SOURCE_KIND_EXTERNAL_H264_SOCKET : string := "external_h264_socket".
Definition SOURCE_KIND_CAMERA2_MEDIACODEC_SURFACE : string := "camera2_mediacodec_surface".
Definition SOURCE_KIND_DISPLAY_COMPOSITE_MEDIAPROJECTION_SURFACE : string := "display_composite_mediaprojection_mediacodec_surface".
Definition SOURCE_KIND_SHELL_DISPLAY_MIRROR_SURFACE : string := "shell_display_mirror_mediacodec_surface".
Definition SOURCE_KIND_DIAGNOSTIC_SYNTHETIC_SURFACE : string := "diagnostic_synthetic_mediacodec_surface".
Definition CAPTURE_AUTHORITY_ANDROID_MEDIAPROJECTION : string := "android_mediaprojection_consent".
Definition CAPTURE_AUTHORITY_ADB_SHELL_HIDDEN_API : string := "adb_shell_hidden_api_developer_only".
Definition CAPTURE_AUTHORITY_ANDROID_CAMERA_PERMISSION : string := "android_camera_permission".
Definition CAPTURE_AUTHORITY_EXTERNAL_H264_ADAPTER : string := "external_h264_adapter".
Definition CAPTURE_AUTHORITY_DIAGNOSTIC_SYNTHETIC : string := "diagnostic_synthetic_source".
Definition DEPLOYMENT_PRODUCTION_CANDIDATE : string := "production_candidate".
Definition DEPLOYMENT_DIAGNOSTIC_ONLY : string := "diagnostic_only".
Definition DEPLOYMENT_LAB_DEVELOPER_ONLY : string := "lab_developer_only".
Definition CAMERA_PERMISSION_NOT_REQUIRED : string := "no_camera_permission_required".
Definition CAMERA_PERMISSION_REQUIRED : string := "camera_permission_required".

Record MediaStreamDevice := mkDevice {
  dev_device_id : string;
  dev_device_kind : string;
  dev_role : string;
}.

Record DisplayContentCrop := mkDisplayContentCrop {
  crop_left : N;
  crop_top : N;
  crop_width : N;
  crop_height : N;
}.

Record DisplayCaptureDescriptor := mkDisplayCaptureDescriptor {
  dsp_display_id : string;
  dsp_rotation : string;
  dsp_density_dpi : N;
  dsp_content_crop : DisplayContentCrop;
  dsp_protected_content_policy : string;
  dsp_consent_state : string;
  dsp_privacy_indicator : string;
  dsp_foreground_package_reporting : string;
}.

Record CameraTrackBinding := mkCameraTrackBinding {
  ctb_track_role : string;
  ctb_camera_id : string;
}.

Record CameraCaptureDescriptor := mkCameraCaptureDescriptor {
  cam_camera_id : string;
  cam_camera_ids : list CameraTrackBinding;
  cam_camera_facing : string;
  cam_permission_policy : string;
}.

Record MediaStreamSource := mkSource {
  src_source_id : string;
  src_device_id : string;
  src_source_family : string;
  src_source_kind : string;
  src_capture_route : string;
  src_capture_authority : string;
  src_deployment_classification : string;
  src_track_role : string;
  src_developer_shell_required : bool;
  src_consent_required : bool;
  src_display : option DisplayCaptureDescriptor;
  src_camera : option CameraCaptureDescriptor;
}.

Record MediaStreamMediaConfig := mkMediaConfig {
  med_track_id : string;
  med_track_role : string;
  med_track_kind : string;
  med_codec : string;
  med_stream_framing : string;
  med_width : N;
  med_height : N;
  med_frame_rate_hz : N;
  med_bitrate_bps : N;
  med_max_packet_bytes : N;
  med_metadata_transport : string;
  med_timestamp_domain : string;
  med_high_rate_payload_plane : string;
}.

Record MediaStreamTransportConfig := mkTransportConfig {
  tr_transport_kind : string;
  tr_relay_required : bool;
  tr_encryption_required : bool;
  tr_relay_session_id : option string;
}.

Record MediaStreamQueuePolicy := mkQueuePolicy {
  q_max_buffered_packets : N;
  q_max_buffered_bytes : N;
  q_drop_policy : string;
  q_slow_peer_close : bool;
}.

Record MediaStreamLane := mkLane {
  lane_lane_id : string;
  lane_direction : string;
  lane_source_id : string;
  lane_source_device_id : string;
  lane_sink_device_id : string;
  lane_media : MediaStreamMediaConfig;
  lane_transport : MediaStreamTransportConfig;
  lane_queue : MediaStreamQueuePolicy;
  lane_receiver_first_required : bool;
}.

Record MediaStreamSourceBinding := mkSourceBinding {
  sb_source_id : string;
  sb_track_role : string;
  sb_source_host : string;
  sb_source_port : N;
}.

Record MediaStreamPortBinding := mkPortBinding {
  pb_track_role : string;
  pb_port : N;
}.

Record MediaStreamRuntimeEndpoint := mkRuntimeEndpoint {
  ep_device_id : string;
  ep_adapter_kind : string;
  ep_source_bindings : list MediaStreamSourceBinding;
  ep_receiver_bind_host : string;
  ep_receiver_ports : list MediaStreamPortBinding;
  ep_transport_bind_host : string;
  ep_transport_receive_ports : list MediaStreamPortBinding;
}.

Record MediaStreamTransportRoute := mkTransportRoute {
  rt_lane_id : string;
  rt_source_device_id : string;
  rt_sink_device_id : string;
  rt_track_role : string;
  rt_route_kind : string;
  rt_connect_host : string;
  rt_connect_port : N;
  rt_relay_channel : option string;
  rt_relay_token_ref : option string;
  rt_tls_server_name : option string;
}.

Record MediaStreamSecurityPolicy := mkSecurityPolicy {
  sec_visible_streaming_indicator : bool;
  sec_explicit_pairing_required : bool;
  sec_immediate_stop_command : string;
  sec_raw_media_logging : bool;
}.

Record MediaStreamObservabilityPolicy := mkObservabilityPolicy {
  obsv_required_markers : list string;
  obsv_required_counters : list string;
}.

Record MediaStreamSessionPlan := mkSessionPlan {
  pl_schema : string;
  pl_session_id : string;
  pl_topology_id : string;
  pl_privacy_tier : string;
  pl_devices : list MediaStreamDevice;
  pl_sources : list MediaStreamSource;
  pl_lanes : list MediaStreamLane;
  pl_runtime_endpoints : list MediaStreamRuntimeEndpoint;
  pl_transport_routes : list MediaStreamTransportRoute;
  pl_security : MediaStreamSecurityPolicy;
  pl_observability : MediaStreamObservabilityPolicy;
}.

(** ** Error accumulation *)

(** [struct ValidationError { message }]. *)
Definition ValidationError : Type := string.

(** [if cond { errors.push(ValidationError::new(message)) }]. *)
Definition push_if (cond : bool) (message : string) : list ValidationError :=
  if cond then [message] else [].

(** [matches!(value, "a" | "b" | ...)]. *)
Definition one_of (value : string) (options : list string) : bool :=
  existsb (String.eqb value) options.

Lemma push_if_nil c m : push_if c m = [] ↔ c = false.
Proof. by destruct c. Qed.

Lemma one_of_true v l : one_of v l = true ↔ v ∈ l.
Proof.
  unfold one_of. rewrite existsb_exists. setoid_rewrite String.eqb_eq. rewrite list_elem_of_In.
  naive_solver.
Qed.

Lemma not_one_of v l : negb (one_of v l) = false ↔ v ∈ l.
Proof. by rewrite negb_false_iff, one_of_true. Qed.

Lemma app_nil_iff {A} (l k : list A) : l ++ k = [] ↔ l = [] ∧ k = [].
Proof. split; [apply app_eq_nil|by intros [-> ->]]. Qed.

Lemma concat_nil {A B} (f : A → list B) l : mjoin (f <$> l) = [] ↔ Forall (fun x => f x = []) l.
Proof.
  induction l as [|x l IH]; cbn; [by split|]. rewrite app_nil_iff, Forall_cons. by rewrite <- IH.
Qed.
