(* ===== verification/MediaValidation.v ===== *)
(** * Media stream: session plan validation

    crates/rusty-quest-media-stream/src/validation.rs: every validator, with its
    messages in the order the code pushes them. *)

From S2P Require Import Prelude RustStr OrdMap MediaModel.

Local Open Scope N_scope.
Local Open Scope string_scope.

(** Lists of errors are concatenated with [+++], strings with [++]. *)
Local Notation "l +++ k" := (app l k) (at level 60, right associativity).

(** ** Loops over a slice that build an index or a set *)

Section Loops.
Context {A : Type}.

(** [for x in l { before; if seen.insert(key(x), x).is_some() { push dup } after }]. *)
Fixpoint index_by (key : A → string) (before : A → list ValidationError)
    (dup : A → ValidationError) (after : A → list ValidationError) (seen : btree A) (l : list A)
    : list ValidationError * btree A :=
  match l with
  | [] => ([], seen)
  | x :: rest =>
      let errors := before x +++ push_if (bt_contains (key x) seen) (dup x) +++ after x in
      let '(errors', seen') := index_by key before dup after (bt_insert (key x) x seen) rest in
      (errors +++ errors', seen')
  end.

(** [for x in l { before; if !seen.insert(key(x)) { push dup } after }]. *)
Fixpoint unique_by (key : A → string) (before : A → list ValidationError)
    (dup : A → ValidationError) (after : A → list ValidationError) (seen : gset string) (l : list A)
    : list ValidationError :=
  match l with
  | [] => []
  | x :: rest =>
      before x +++ push_if (bool_decide (key x ∈ seen)) (dup x) +++ after x +++
      unique_by key before dup after ({[ key x ]} ∪ seen) rest
  end.

End Loops.

(** ** Text checks *)

Definition validate_track_role (label value : string) : list ValidationError :=
  push_if (negb (one_of value ["left"; "right"; "mono"; "display"; "camera"; "stereo"]))
    (label ++ " has unsupported track role " ++ value).

Definition validate_route_token (label value : string) : list ValidationError :=
  push_if (contains_byte 124 value || contains_byte 59 value)
    (label ++ " must not contain transport route delimiters").

Definition validate_required_text (label value : string) : list ValidationError :=
  push_if (is_blank value) (label ++ " must not be empty").

(** ** Devices *)

Definition validate_device (device : MediaStreamDevice) : list ValidationError :=
  validate_required_text "device_id" (dev_device_id device) +++
  validate_required_text "device_kind" (dev_device_kind device) +++
  validate_required_text "role" (dev_role device) +++
  push_if (negb (one_of (dev_device_kind device) ["quest"; "android_phone"; "windows_pc"; "relay"]))
    ("unsupported device_kind " ++ dev_device_kind device) +++
  validate_route_token "device.device_id" (dev_device_id device).

Definition validate_devices (devices : list MediaStreamDevice)
    : list ValidationError * btree MediaStreamDevice :=
  let '(errors, seen) :=
    index_by dev_device_id validate_device
      (fun device => "duplicate device_id " ++ dev_device_id device) (fun _ => []) [] devices in
  (push_if (bool_decide (devices = [])) "devices must not be empty" +++ errors, seen).

(** ** Sources *)

Definition require_capture_authority (source : MediaStreamSource) (expected : string)
    : list ValidationError :=
  push_if (negb (src_capture_authority source =? expected))
    ("source " ++ src_source_id source ++ " with kind " ++ src_source_kind source ++
     " requires capture_authority " ++ expected).

Definition validate_camera_source (source : MediaStreamSource) : list ValidationError :=
  require_capture_authority source CAPTURE_AUTHORITY_ANDROID_CAMERA_PERMISSION +++
  push_if (src_developer_shell_required source)
    ("camera2 source " ++ src_source_id source ++ " must not require developer shell") +++
  push_if (src_consent_required source || bool_decide (is_Some (src_display source)))
    ("camera2 source " ++ src_source_id source ++
     " must not inherit display consent or display metadata") +++
  match src_camera source with
  | None =>
      ["camera2_mediacodec_surface source " ++ src_source_id source ++
       " requires camera capture metadata"]
  | Some camera =>
      validate_required_text "camera.camera_id" (cam_camera_id camera) +++
      (if (src_track_role source =? "stereo") then
         let roles : gset string := list_to_set (ctb_track_role <$> cam_camera_ids camera) in
         let ids : gset string := list_to_set (ctb_camera_id <$> cam_camera_ids camera) in
         push_if (negb (bool_decide (roles = {[ "left"; "right" ]})) || negb (bool_decide (size ids = 2%nat)))
           ("stereo camera source " ++ src_source_id source ++
            " requires distinct left and right camera bindings")
       else []) +++
      validate_required_text "camera.camera_facing" (cam_camera_facing camera) +++
      validate_required_text "camera.permission_policy" (cam_permission_policy camera) +++
      push_if (negb (cam_permission_policy camera =? CAMERA_PERMISSION_REQUIRED))
        ("camera2 source " ++ src_source_id source ++ " requires camera_permission_required")
  end.

Definition validate_display_descriptor (source_id : string) (display : DisplayCaptureDescriptor)
    : list ValidationError :=
  validate_required_text "display.display_id" (dsp_display_id display) +++
  validate_required_text "display.rotation" (dsp_rotation display) +++
  validate_required_text "display.protected_content_policy" (dsp_protected_content_policy display) +++
  validate_required_text "display.consent_state" (dsp_consent_state display) +++
  validate_required_text "display.privacy_indicator" (dsp_privacy_indicator display) +++
  validate_required_text "display.foreground_package_reporting"
    (dsp_foreground_package_reporting display) +++
  push_if (dsp_density_dpi display =? 0)%N
    ("display source " ++ source_id ++ " density_dpi must be nonzero") +++
  push_if ((crop_width (dsp_content_crop display) =? 0)%N || (crop_height (dsp_content_crop display) =? 0)%N)
    ("display source " ++ source_id ++ " content crop dimensions must be nonzero") +++
  push_if (negb (one_of (dsp_protected_content_policy display)
             ["omit-protected-content"; "black-frame-protected-content"; "unknown-lab-observe-only"]))
    ("display source " ++ source_id ++ " has unsupported protected_content_policy " ++
     dsp_protected_content_policy display) +++
  push_if (negb (one_of (dsp_privacy_indicator display)
             ["system-capture-indicator-required"; "developer-lab-indicator-required"]))
    ("display source " ++ source_id ++ " has unsupported privacy_indicator " ++
     dsp_privacy_indicator display) +++
  push_if (negb (one_of (dsp_foreground_package_reporting display) ["not-collected"; "low-rate-debug-only"]))
    ("display source " ++ source_id ++ " has unsupported foreground_package_reporting " ++
     dsp_foreground_package_reporting display).

Definition validate_display_composite_source (source : MediaStreamSource) : list ValidationError :=
  require_capture_authority source CAPTURE_AUTHORITY_ANDROID_MEDIAPROJECTION +++
  push_if (src_developer_shell_required source)
    ("display-composite source " ++ src_source_id source ++ " must not require developer shell") +++
  push_if (negb (src_consent_required source))
    ("display-composite source " ++ src_source_id source ++ " requires consent_required=true") +++
  push_if (bool_decide (is_Some (src_camera source)))
    ("display-composite source " ++ src_source_id source ++
     " must not inherit camera metadata or permission policy") +++
  match src_display source with
  | None =>
      ["display_composite_mediaprojection_mediacodec_surface source " ++ src_source_id source ++
       " requires display capture metadata"]
  | Some display =>
      validate_display_descriptor (src_source_id source) display +++
      push_if (negb (dsp_consent_state display =? "android-mediaprojection-consent-required"))
        ("display-composite source " ++ src_source_id source ++
         " requires android-mediaprojection-consent-required consent_state")
  end.

Definition validate_shell_display_source (source : MediaStreamSource) : list ValidationError :=
  require_capture_authority source CAPTURE_AUTHORITY_ADB_SHELL_HIDDEN_API +++
  push_if (negb (src_deployment_classification source =? DEPLOYMENT_LAB_DEVELOPER_ONLY))
    ("shell display mirror sources must be lab_developer_only: " ++ src_source_id source) +++
  push_if (negb (src_developer_shell_required source))
    ("shell display mirror source " ++ src_source_id source ++
     " requires developer_shell_required=true") +++
  push_if (src_consent_required source)
    ("shell display mirror source " ++ src_source_id source ++
     " must not claim MediaProjection consent") +++
  match src_display source with
  | None =>
      ["shell_display_mirror_mediacodec_surface source " ++ src_source_id source ++
       " requires display capture metadata"]
  | Some display =>
      validate_display_descriptor (src_source_id source) display +++
      push_if (negb (dsp_consent_state display =? "developer-shell-only-no-mediaprojection-consent"))
        ("shell display mirror source " ++ src_source_id source ++
         " requires developer-shell-only consent_state")
  end.

Definition validate_source_policy (source : MediaStreamSource) : list ValidationError :=
  let kind := src_source_kind source in
  if kind =? SOURCE_KIND_EXTERNAL_H264_SOCKET
  then require_capture_authority source CAPTURE_AUTHORITY_EXTERNAL_H264_ADAPTER
  else if kind =? SOURCE_KIND_CAMERA2_MEDIACODEC_SURFACE then validate_camera_source source
  else if kind =? SOURCE_KIND_DISPLAY_COMPOSITE_MEDIAPROJECTION_SURFACE
  then validate_display_composite_source source
  else if kind =? SOURCE_KIND_SHELL_DISPLAY_MIRROR_SURFACE then validate_shell_display_source source
  else if kind =? SOURCE_KIND_DIAGNOSTIC_SYNTHETIC_SURFACE
  then require_capture_authority source CAPTURE_AUTHORITY_DIAGNOSTIC_SYNTHETIC
  else ["source " ++ src_source_id source ++ " has unsupported source_kind " ++ src_source_kind source].

Definition validate_source (devices : btree MediaStreamDevice) (source : MediaStreamSource)
    : list ValidationError :=
  validate_required_text "source_id" (src_source_id source) +++
  validate_required_text "source.device_id" (src_device_id source) +++
  validate_required_text "source_family" (src_source_family source) +++
  validate_required_text "source_kind" (src_source_kind source) +++
  validate_required_text "capture_route" (src_capture_route source) +++
  validate_required_text "capture_authority" (src_capture_authority source) +++
  validate_required_text "deployment_classification" (src_deployment_classification source) +++
  validate_required_text "source.track_role" (src_track_role source) +++
  validate_route_token "source.source_id" (src_source_id source) +++
  validate_route_token "source.source_family" (src_source_family source) +++
  validate_route_token "source.source_kind" (src_source_kind source) +++
  validate_track_role "source.track_role" (src_track_role source) +++
  push_if (negb (one_of (src_deployment_classification source)
             [DEPLOYMENT_PRODUCTION_CANDIDATE; DEPLOYMENT_DIAGNOSTIC_ONLY;
              DEPLOYMENT_LAB_DEVELOPER_ONLY]))
    ("source " ++ src_source_id source ++ " has unsupported deployment_classification " ++
     src_deployment_classification source) +++
  match bt_get (src_device_id source) devices with
  | Some device =>
      push_if (dev_device_kind device =? "relay")
        ("source " ++ src_source_id source ++ " must target a media endpoint, not a relay")
  | None =>
      ["source " ++ src_source_id source ++ " references unknown device_id " ++ src_device_id source]
  end +++
  validate_source_policy source.

Definition validate_sources (sources : list MediaStreamSource) (devices : btree MediaStreamDevice)
    : list ValidationError * btree MediaStreamSource :=
  let '(errors, seen) :=
    index_by src_source_id (validate_source devices)
      (fun source => "duplicate source_id " ++ src_source_id source) (fun _ => []) [] sources in
  (push_if (bool_decide (sources = [])) "sources must not be empty" +++ errors, seen).

(** ** Lanes *)

Definition validate_media (lane_id : string) (media : MediaStreamMediaConfig) : list ValidationError :=
  validate_required_text "track_id" (med_track_id media) +++
  validate_required_text "track_role" (med_track_role media) +++
  validate_required_text "track_kind" (med_track_kind media) +++
  validate_required_text "codec" (med_codec media) +++
  validate_required_text "stream_framing" (med_stream_framing media) +++
  validate_required_text "metadata_transport" (med_metadata_transport media) +++
  validate_required_text "timestamp_domain" (med_timestamp_domain media) +++
  validate_required_text "high_rate_payload_plane" (med_high_rate_payload_plane media) +++
  validate_track_role "media.track_role" (med_track_role media) +++
  validate_route_token "media.track_role" (med_track_role media) +++
  validate_route_token "media.stream_framing" (med_stream_framing media) +++
  push_if (negb (med_track_kind media =? "video"))
    ("lane " ++ lane_id ++ " must use video track_kind") +++
  push_if (negb (med_codec media =? VIDEO_CODEC_H264))
    ("lane " ++ lane_id ++ " must use H.264 as the first reusable media stream codec") +++
  push_if (negb (one_of (med_stream_framing media)
             [STREAM_FRAMING_DIAGNOSTIC_H264; STREAM_FRAMING_RMANVID_V4_PACKED_STEREO]))
    ("lane " ++ lane_id ++ " has unsupported reusable H.264 framing") +++
  push_if (negb (Bool.eqb (med_stream_framing media =? STREAM_FRAMING_RMANVID_V4_PACKED_STEREO)
                          (med_track_role media =? "stereo")))
    ("lane " ++ lane_id ++ " packed RMANVID framing and stereo role must be selected together") +++
  push_if (negb (med_high_rate_payload_plane media =? PAYLOAD_PLANE_BINARY_MEDIA))
    ("lane " ++ lane_id ++ " high-rate media must use binary-media payload plane") +++
  push_if (med_metadata_transport media =? "inline-json-frame-payload")
    ("lane " ++ lane_id ++ " must not carry high-rate metadata inside JSON frame payloads") +++
  push_if ((med_width media =? 0)%N || (med_height media =? 0)%N)
    ("lane " ++ lane_id ++ " media dimensions must be nonzero") +++
  push_if ((4096 <? med_width media)%N || (4096 <? med_height media)%N)
    ("lane " ++ lane_id ++
     " first media-stream slice must stay at or below 4096 pixels per axis") +++
  push_if ((med_frame_rate_hz media =? 0)%N || (120 <? med_frame_rate_hz media)%N)
    ("lane " ++ lane_id ++ " frame_rate_hz must be 1..=120") +++
  push_if (med_bitrate_bps media =? 0)%N
    ("lane " ++ lane_id ++ " bitrate_bps must be nonzero") +++
  push_if (negb ((64 * 1024 <=? med_max_packet_bytes media)%N &&
                 (med_max_packet_bytes media <=? 8 * 1024 * 1024)%N))
    ("lane " ++ lane_id ++ " max_packet_bytes must be 65536..=8388608").

Definition validate_transport (lane_id : string) (transport : MediaStreamTransportConfig)
    : list ValidationError :=
  validate_required_text "transport_kind" (tr_transport_kind transport) +++
  push_if (negb (one_of (tr_transport_kind transport) ["lan_tcp"; "relay_tls"]))
    ("lane " ++ lane_id ++ " unsupported transport_kind " ++ tr_transport_kind transport) +++
  push_if (tr_relay_required transport && str_is_empty (default EmptyString (tr_relay_session_id transport)))
    ("lane " ++ lane_id ++ " relay lanes must declare relay_session_id") +++
  push_if ((tr_transport_kind transport =? "relay_tls") && negb (tr_encryption_required transport))
    ("lane " ++ lane_id ++ " relay_tls requires encryption_required=true").

Definition validate_queue (lane_id : string) (queue : MediaStreamQueuePolicy) : list ValidationError :=
  validate_required_text "drop_policy" (q_drop_policy queue) +++
  push_if ((q_max_buffered_packets queue =? 0)%N || (256 <? q_max_buffered_packets queue)%N)
    ("lane " ++ lane_id ++ " max_buffered_packets must be 1..=256") +++
  push_if ((q_max_buffered_bytes queue =? 0)%N || (32 * 1024 * 1024 <? q_max_buffered_bytes queue)%N)
    ("lane " ++ lane_id ++ " max_buffered_bytes must be 1..=33554432") +++
  push_if (negb (q_slow_peer_close queue))
    ("lane " ++ lane_id ++ " must close slow peers instead of buffering forever").

(** The part of the lane loop before the duplicate test. *)
Definition validate_lane_text (lane : MediaStreamLane) : list ValidationError :=
  validate_required_text "lane_id" (lane_lane_id lane) +++
  validate_required_text "direction" (lane_direction lane) +++
  validate_required_text "source_id" (lane_source_id lane) +++
  validate_required_text "source_device_id" (lane_source_device_id lane) +++
  validate_required_text "sink_device_id" (lane_sink_device_id lane) +++
  validate_route_token "lane.lane_id" (lane_lane_id lane) +++
  validate_route_token "lane.source_id" (lane_source_id lane).

(** The part of the lane loop after the duplicate test. *)
Definition validate_lane (devices : btree MediaStreamDevice) (sources : btree MediaStreamSource)
    (lane : MediaStreamLane) : list ValidationError :=
  let lane_id := lane_lane_id lane in
  let source := bt_get (lane_source_id lane) sources in
  push_if (negb (one_of (lane_direction lane) ["outgoing"; "incoming"; "bidirectional"]))
    ("unsupported lane direction " ++ lane_direction lane) +++
  push_if (bool_decide (source = None))
    ("lane " ++ lane_id ++ " references unknown source_id " ++ lane_source_id lane) +++
  push_if (negb (bt_contains (lane_source_device_id lane) devices))
    ("lane " ++ lane_id ++ " references unknown source_device_id " ++ lane_source_device_id lane) +++
  push_if (negb (bt_contains (lane_sink_device_id lane) devices))
    ("lane " ++ lane_id ++ " references unknown sink_device_id " ++ lane_sink_device_id lane) +++
  push_if (lane_source_device_id lane =? lane_sink_device_id lane)
    ("lane " ++ lane_id ++ " source and sink must differ") +++
  match source with
  | Some source =>
      push_if (negb (src_device_id source =? lane_source_device_id lane))
        ("lane " ++ lane_id ++ " source_device_id must match source " ++ lane_source_id lane ++
         " device_id") +++
      push_if (negb (src_track_role source =? med_track_role (lane_media lane)))
        ("lane " ++ lane_id ++ " media track_role must match source " ++ lane_source_id lane ++
         " track_role")
  | None => []
  end +++
  push_if (negb (lane_receiver_first_required lane))
    ("lane " ++ lane_id ++ " must require receiver-first start") +++
  validate_media lane_id (lane_media lane) +++
  validate_transport lane_id (lane_transport lane) +++
  validate_queue lane_id (lane_queue lane).

Definition validate_lanes (lanes : list MediaStreamLane) (devices : btree MediaStreamDevice)
    (sources : btree MediaStreamSource) : list ValidationError :=
  push_if (bool_decide (lanes = [])) "lanes must not be empty" +++
  unique_by lane_lane_id validate_lane_text (fun lane => "duplicate lane_id " ++ lane_lane_id lane)
    (validate_lane devices sources) ∅ lanes.

(** ** Runtime endpoints *)

Definition validate_source_binding (endpoint : MediaStreamRuntimeEndpoint)
    (sources : btree MediaStreamSource) (binding : MediaStreamSourceBinding) : list ValidationError :=
  let device_id := ep_device_id endpoint in
  validate_required_text "source_binding.source_id" (sb_source_id binding) +++
  validate_required_text "source_binding.track_role" (sb_track_role binding) +++
  validate_required_text "source_binding.source_host" (sb_source_host binding) +++
  validate_track_role "source_binding.track_role" (sb_track_role binding) +++
  validate_route_token "source_binding.source_id" (sb_source_id binding) +++
  push_if (sb_source_port binding =? 0)%N
    ("runtime endpoint " ++ device_id ++ " source_binding port for " ++ sb_track_role binding ++
     " must be nonzero") +++
  match bt_get (sb_source_id binding) sources with
  | Some source =>
      push_if (negb (src_device_id source =? device_id))
        ("runtime endpoint " ++ device_id ++ " source_binding " ++ sb_source_id binding ++
         " must belong to same device") +++
      push_if (negb (src_track_role source =? sb_track_role binding))
        ("runtime endpoint " ++ device_id ++ " source_binding " ++ sb_source_id binding ++
         " track_role must match source")
  | None =>
      ["runtime endpoint " ++ device_id ++ " source_binding references unknown source_id " ++
       sb_source_id binding]
  end.

Definition validate_source_bindings (endpoint : MediaStreamRuntimeEndpoint)
    (sources : btree MediaStreamSource) : list ValidationError :=
  unique_by sb_source_id (validate_source_binding endpoint sources)
    (fun binding => "runtime endpoint " ++ ep_device_id endpoint ++ " repeats source_binding " ++
                    sb_source_id binding)
    (fun _ => []) ∅ (ep_source_bindings endpoint).

(** The loop of [validate_port_bindings] with its two seen-sets. *)
Fixpoint validate_ports_loop (device_id field : string) (seen_roles : gset string) (seen_ports : gset N)
    (bindings : list MediaStreamPortBinding) : list ValidationError :=
  match bindings with
  | [] => []
  | binding :: rest =>
      validate_required_text "runtime_endpoint.port.track_role" (pb_track_role binding) +++
      validate_track_role "runtime_endpoint.port.track_role" (pb_track_role binding) +++
      push_if (pb_port binding =? 0)%N
        ("runtime endpoint " ++ device_id ++ " " ++ field ++ " port for " ++
         pb_track_role binding ++ " must be nonzero") +++
      push_if (bool_decide (pb_track_role binding ∈ seen_roles))
        ("runtime endpoint " ++ device_id ++ " " ++ field ++ " repeats track_role " ++
         pb_track_role binding) +++
      push_if (bool_decide (pb_port binding ∈ seen_ports))
        ("runtime endpoint " ++ device_id ++ " " ++ field ++ " repeats port " ++
         fmt_decimal (pb_port binding)) +++
      validate_ports_loop device_id field ({[ pb_track_role binding ]} ∪ seen_roles)
        ({[ pb_port binding ]} ∪ seen_ports) rest
  end.

Definition validate_port_bindings (device_id field : string) (bindings : list MediaStreamPortBinding)
    (required : bool) : list ValidationError :=
  push_if (required && bool_decide (bindings = []))
    ("runtime endpoint " ++ device_id ++ " " ++ field ++ " must not be empty") +++
  validate_ports_loop device_id field ∅ ∅ bindings.

(** The part of the endpoint loop before the duplicate test. *)
Definition validate_endpoint_text (devices : btree MediaStreamDevice)
    (endpoint : MediaStreamRuntimeEndpoint) : list ValidationError :=
  validate_required_text "runtime_endpoint.device_id" (ep_device_id endpoint) +++
  validate_required_text "runtime_endpoint.adapter_kind" (ep_adapter_kind endpoint) +++
  validate_required_text "runtime_endpoint.receiver_bind_host" (ep_receiver_bind_host endpoint) +++
  validate_required_text "runtime_endpoint.transport_bind_host" (ep_transport_bind_host endpoint) +++
  push_if (negb (one_of (ep_adapter_kind endpoint)
             ["quest_manifold_broker_android"; "android_companion"; "windows_hostess";
              "termux_sidecar"; "pc_viewer"; "quest_native_openxr_renderer";
              "quest_meta_spatial_sdk_renderer"]))
    ("runtime endpoint " ++ ep_device_id endpoint ++ " has unsupported adapter_kind " ++
     ep_adapter_kind endpoint) +++
  match bt_get (ep_device_id endpoint) devices with
  | Some device =>
      push_if (dev_device_kind device =? "relay")
        ("runtime endpoint " ++ ep_device_id endpoint ++
         " must target a media endpoint, not a relay")
  | None => ["runtime endpoint references unknown device_id " ++ ep_device_id endpoint]
  end.

(** The part of the endpoint loop after the duplicate test. *)
Definition validate_endpoint (sources : btree MediaStreamSource) (lanes : list MediaStreamLane)
    (endpoint : MediaStreamRuntimeEndpoint) : list ValidationError :=
  let device_id := ep_device_id endpoint in
  let sources_required := existsb (fun lane => lane_source_device_id lane =? device_id) lanes in
  let sinks_required := existsb (fun lane => lane_sink_device_id lane =? device_id) lanes in
  validate_source_bindings endpoint sources +++
  push_if (sources_required && bool_decide (ep_source_bindings endpoint = []))
    ("runtime endpoint " ++ device_id ++ " source_bindings must not be empty") +++
  validate_port_bindings device_id "receiver_ports" (ep_receiver_ports endpoint) sinks_required +++
  validate_port_bindings device_id "transport_receive_ports" (ep_transport_receive_ports endpoint)
    sinks_required.

Definition validate_runtime_endpoints (runtime_endpoints : list MediaStreamRuntimeEndpoint)
    (devices : btree MediaStreamDevice) (sources : btree MediaStreamSource)
    (lanes : list MediaStreamLane) : list ValidationError * btree MediaStreamRuntimeEndpoint :=
  index_by ep_device_id (validate_endpoint_text devices)
    (fun endpoint => "duplicate runtime endpoint for device_id " ++ ep_device_id endpoint)
    (validate_endpoint sources lanes) [] runtime_endpoints.

Definition validate_runtime_endpoint_coverage (devices : btree MediaStreamDevice)
    (runtime_endpoints : btree MediaStreamRuntimeEndpoint) : list ValidationError :=
  mjoin ((fun device =>
    push_if (negb (dev_device_kind device =? "relay") &&
             negb (bt_contains (dev_device_id device) runtime_endpoints))
      ("device " ++ dev_device_id device ++ " requires a runtime endpoint")) <$> bt_values devices).

Definition validate_source_binding_coverage (sources : btree MediaStreamSource)
    (runtime_endpoints : btree MediaStreamRuntimeEndpoint) : list ValidationError :=
  mjoin ((fun source =>
    match bt_get (src_device_id source) runtime_endpoints with
    | None => []
    | Some endpoint =>
        push_if (negb (existsb (fun binding => sb_source_id binding =? src_source_id source)
                         (ep_source_bindings endpoint)))
          ("source " ++ src_source_id source ++ " requires a source_binding on endpoint " ++
           src_device_id source)
    end) <$> bt_values sources).

(** ** Transport routes *)

Definition blank_option (value : option string) : bool := is_blank (default EmptyString value).

Definition validate_route_text (route : MediaStreamTransportRoute) : list ValidationError :=
  validate_required_text "transport_route.lane_id" (rt_lane_id route) +++
  validate_required_text "transport_route.source_device_id" (rt_source_device_id route) +++
  validate_required_text "transport_route.sink_device_id" (rt_sink_device_id route) +++
  validate_required_text "transport_route.track_role" (rt_track_role route) +++
  validate_required_text "transport_route.route_kind" (rt_route_kind route) +++
  validate_required_text "transport_route.connect_host" (rt_connect_host route) +++
  validate_route_token "transport_route.lane_id" (rt_lane_id route) +++
  validate_track_role "transport_route.track_role" (rt_track_role route) +++
  push_if (rt_connect_port route =? 0)%N
    ("transport route " ++ rt_lane_id route ++ " connect_port must be nonzero").

(** The arm [direct_tcp_connect | direct_p2p_tcp]. *)
Definition validate_direct_route (route : MediaStreamTransportRoute) (lane : MediaStreamLane)
    (runtime_endpoints : btree MediaStreamRuntimeEndpoint) : list ValidationError :=
  push_if (negb (tr_transport_kind (lane_transport lane) =? "lan_tcp") ||
           tr_relay_required (lane_transport lane))
    ("transport route " ++ rt_lane_id route ++
     " direct TCP/P2P requires a non-relay lan_tcp lane") +++
  match bt_get (rt_sink_device_id route) runtime_endpoints with
  | Some endpoint =>
      push_if (negb (existsb (fun binding =>
                 (pb_track_role binding =? rt_track_role route) &&
                 (pb_port binding =? rt_connect_port route)%N) (ep_transport_receive_ports endpoint)))
        ("transport route " ++ rt_lane_id route ++
         " connect_port must match sink transport_receive_ports for " ++ rt_track_role route)
  | None =>
      ["transport route " ++ rt_lane_id route ++ " sink " ++ rt_sink_device_id route ++
       " has no runtime endpoint"]
  end.

(** The arm [relay_tls_client]. *)
Definition validate_relay_route (route : MediaStreamTransportRoute) (lane : MediaStreamLane)
    : list ValidationError :=
  push_if (negb (tr_transport_kind (lane_transport lane) =? "relay_tls") ||
           negb (tr_relay_required (lane_transport lane)) ||
           negb (tr_encryption_required (lane_transport lane)))
    ("transport route " ++ rt_lane_id route ++
     " relay_tls_client requires relay_tls with encryption") +++
  push_if (blank_option (rt_relay_channel route))
    ("transport route " ++ rt_lane_id route ++ " relay_tls_client requires relay_channel") +++
  push_if (blank_option (rt_relay_token_ref route))
    ("transport route " ++ rt_lane_id route ++ " relay_tls_client requires relay_token_ref").

(** The part of the route loop after the duplicate test. *)
Definition validate_route (lanes_by_id : btree MediaStreamLane)
    (runtime_endpoints : btree MediaStreamRuntimeEndpoint) (route : MediaStreamTransportRoute)
    : list ValidationError :=
  push_if (negb (one_of (rt_route_kind route) ["direct_tcp_connect"; "direct_p2p_tcp"; "relay_tls_client"]))
    ("transport route " ++ rt_lane_id route ++ " has unsupported route_kind " ++ rt_route_kind route) +++
  match bt_get (rt_lane_id route) lanes_by_id with
  | None => ["transport route references unknown lane " ++ rt_lane_id route]
  | Some lane =>
      push_if (negb (rt_source_device_id route =? lane_source_device_id lane) ||
               negb (rt_sink_device_id route =? lane_sink_device_id lane) ||
               negb (rt_track_role route =? med_track_role (lane_media lane)))
        ("transport route " ++ rt_lane_id route ++ " must match lane source, sink, and track_role") +++
      (if one_of (rt_route_kind route) ["direct_tcp_connect"; "direct_p2p_tcp"]
       then validate_direct_route route lane runtime_endpoints
       else if rt_route_kind route =? "relay_tls_client" then validate_relay_route route lane
       else [])
  end.

Definition validate_transport_routes (routes : list MediaStreamTransportRoute)
    (lanes : list MediaStreamLane) (runtime_endpoints : btree MediaStreamRuntimeEndpoint)
    : list ValidationError :=
  let lanes_by_id := bt_collect lane_lane_id lanes in
  let seen : gset string := list_to_set (rt_lane_id <$> routes) in
  push_if (bool_decide (routes = []) && negb (bool_decide (lanes = [])))
    "transport_routes must not be empty" +++
  unique_by rt_lane_id validate_route_text
    (fun route => "duplicate transport route for lane " ++ rt_lane_id route)
    (validate_route lanes_by_id runtime_endpoints) ∅ routes +++
  mjoin ((fun lane =>
    push_if (negb (bool_decide (lane_lane_id lane ∈ seen)))
      ("lane " ++ lane_lane_id lane ++ " requires a transport route")) <$> lanes).

(** ** Privacy, security, observability *)

Definition validate_privacy_tier (plan : MediaStreamSessionPlan) : list ValidationError :=
  push_if (negb (one_of (pl_privacy_tier plan)
             [PRIVACY_LOCAL_LAN_DIAGNOSTIC; PRIVACY_TRUSTED_RELAY_ENCRYPTED; PRIVACY_E2EE_CANDIDATE]))
    ("unsupported privacy_tier " ++ pl_privacy_tier plan) +++
  push_if (negb (pl_privacy_tier plan =? PRIVACY_LOCAL_LAN_DIAGNOSTIC) &&
           existsb (fun lane => negb (tr_encryption_required (lane_transport lane))) (pl_lanes plan))
    "non-local media stream sessions require encrypted transport on every lane".

Definition validate_security (security : MediaStreamSecurityPolicy) (privacy_tier : string)
    : list ValidationError :=
  push_if (negb (sec_visible_streaming_indicator security))
    "media stream sessions require visible_streaming_indicator=true" +++
  push_if (negb (sec_explicit_pairing_required security))
    "media stream sessions require explicit_pairing_required=true" +++
  validate_required_text "immediate_stop_command" (sec_immediate_stop_command security) +++
  push_if (negb (privacy_tier =? PRIVACY_LOCAL_LAN_DIAGNOSTIC) && sec_raw_media_logging security)
    "raw media logging is allowed only for local diagnostic sessions".

Definition observability_counters : list string :=
  ["bytes_sent"; "bytes_received"; "media_packets"; "codec_config_packets"; "keyframes";
   "queue_drops"; "close_reason"; "capture_to_encode_ms"; "encode_to_receive_ms"].

Definition validate_observability (observability : MediaStreamObservabilityPolicy) : list ValidationError :=
  mjoin ((fun required =>
    push_if (negb (existsb (fun counter => counter =? required) (obsv_required_counters observability)))
      ("observability must require counter " ++ required)) <$> observability_counters).

(** ** Topology *)

Definition kind_is (kind : string) (device : option MediaStreamDevice) : bool :=
  match device with Some device => dev_device_kind device =? kind | None => false end.

Definition has_lane_between (plan : MediaStreamSessionPlan) (source sink : string) : bool :=
  existsb (fun lane =>
    (lane_source_device_id lane =? source) && (lane_sink_device_id lane =? sink) &&
    (med_high_rate_payload_plane (lane_media lane) =? PAYLOAD_PLANE_BINARY_MEDIA)) (pl_lanes plan).

(** [devices.values().filter(kind).map(device_id)]: in key order. *)
Definition device_ids_of_kind (kind : string) (devices : btree MediaStreamDevice) : list string :=
  dev_device_id <$> List.filter (fun device => dev_device_kind device =? kind) (bt_values devices).

Definition validate_quest_display_to_pc (plan : MediaStreamSessionPlan)
    (devices : btree MediaStreamDevice) (sources : btree MediaStreamSource) : list ValidationError :=
  push_if (negb (existsb (fun lane =>
      kind_is "quest" (bt_get (lane_source_device_id lane) devices) &&
      kind_is "windows_pc" (bt_get (lane_sink_device_id lane) devices) &&
      match bt_get (lane_source_id lane) sources with
      | Some source => one_of (src_source_kind source)
          [SOURCE_KIND_DISPLAY_COMPOSITE_MEDIAPROJECTION_SURFACE; SOURCE_KIND_SHELL_DISPLAY_MIRROR_SURFACE]
      | None => false
      end) (pl_lanes plan)))
    "quest_display_to_pc requires a Quest display source lane to a windows_pc sink".

Definition validate_quest_camera_to_pc (plan : MediaStreamSessionPlan)
    (devices : btree MediaStreamDevice) (sources : btree MediaStreamSource) : list ValidationError :=
  push_if (negb (existsb (fun lane =>
      kind_is "quest" (bt_get (lane_source_device_id lane) devices) &&
      kind_is "windows_pc" (bt_get (lane_sink_device_id lane) devices) &&
      match bt_get (lane_source_id lane) sources with
      | Some source => src_source_kind source =? SOURCE_KIND_CAMERA2_MEDIACODEC_SURFACE
      | None => false
      end) (pl_lanes plan)))
    "quest_camera_to_pc requires a Quest Camera2 source lane to a windows_pc sink".

Definition renderer_lane (devices : btree MediaStreamDevice) (sources : btree MediaStreamSource)
    (lane : MediaStreamLane) : bool :=
  match bt_get (lane_source_id lane) sources with
  | Some source => one_of (src_capture_route source) ["display-composite"; "camera2-mediacodec-surface"]
  | None => false
  end &&
  kind_is "quest" (bt_get (lane_source_device_id lane) devices) &&
  kind_is "quest" (bt_get (lane_sink_device_id lane) devices) &&
  negb (lane_source_device_id lane =? lane_sink_device_id lane).

Definition validate_quest_app_renderer (plan : MediaStreamSessionPlan)
    (devices : btree MediaStreamDevice) (sources : btree MediaStreamSource) : list ValidationError :=
  let valid_lanes := len (List.filter (renderer_lane devices sources) (pl_lanes plan)) in
  push_if (negb (valid_lanes =? len (pl_lanes plan))%N || (valid_lanes =? 0)%N)
    "Quest app-renderer topology requires distinct Quest source and render-sink devices".

Definition validate_quest_to_quest_two_way (plan : MediaStreamSessionPlan)
    (devices : btree MediaStreamDevice) : list ValidationError :=
  match device_ids_of_kind "quest" devices with
  | first :: second :: _ =>
      push_if (negb (has_lane_between plan first second) || negb (has_lane_between plan second first))
        "quest_to_quest_two_way requires lanes in both Quest directions"
  | _ => ["quest_to_quest_two_way requires at least two Quest devices"]
  end.

Definition validate_quest_android_phone_duplex (plan : MediaStreamSessionPlan)
    (devices : btree MediaStreamDevice) : list ValidationError :=
  match device_ids_of_kind "quest" devices, device_ids_of_kind "android_phone" devices with
  | quest :: _, phone :: _ =>
      push_if (negb (has_lane_between plan quest phone))
        "quest_android_phone_duplex requires a Quest-to-phone media lane" +++
      push_if (negb (has_lane_between plan phone quest))
        "quest_android_phone_duplex requires a phone-to-Quest media lane"
  | _, _ => ["quest_android_phone_duplex requires a Quest and an Android phone"]
  end.

Definition validate_topology (plan : MediaStreamSessionPlan) (devices : btree MediaStreamDevice)
    (sources : btree MediaStreamSource) : list ValidationError :=
  let topology := pl_topology_id plan in
  if topology =? "quest_display_to_pc" then validate_quest_display_to_pc plan devices sources
  else if topology =? "quest_camera_to_pc" then validate_quest_camera_to_pc plan devices sources
  else if topology =? "quest_to_quest_two_way" then validate_quest_to_quest_two_way plan devices
  else if one_of topology ["quest_display_to_native_renderer"; "quest_display_to_spatial_camera_panel";
                           "quest_camera_to_spatial_camera_panel"]
  then validate_quest_app_renderer plan devices sources
  else if topology =? "quest_android_phone_duplex" then validate_quest_android_phone_duplex plan devices
  else if topology =? "diagnostic_loopback" then []
  else ["unsupported topology_id " ++ topology].

(** ** The whole plan *)

Definition media_stream_session_errors (plan : MediaStreamSessionPlan) : list ValidationError :=
  let '(device_errors, devices) := validate_devices (pl_devices plan) in
  let '(source_errors, sources) := validate_sources (pl_sources plan) devices in
  let '(endpoint_errors, runtime_endpoints) :=
    validate_runtime_endpoints (pl_runtime_endpoints plan) devices sources (pl_lanes plan) in
  validate_required_text "schema" (pl_schema plan) +++
  validate_required_text "session_id" (pl_session_id plan) +++
  validate_required_text "topology_id" (pl_topology_id plan) +++
  push_if (negb (pl_schema plan =? MEDIA_STREAM_SESSION_SCHEMA))
    ("unsupported media stream session schema " ++ pl_schema plan) +++
  validate_privacy_tier plan +++
  validate_security (pl_security plan) (pl_privacy_tier plan) +++
  device_errors +++
  source_errors +++
  validate_lanes (pl_lanes plan) devices sources +++
  endpoint_errors +++
  validate_runtime_endpoint_coverage devices runtime_endpoints +++
  validate_source_binding_coverage sources runtime_endpoints +++
  validate_transport_routes (pl_transport_routes plan) (pl_lanes plan) runtime_endpoints +++
  validate_topology plan devices sources +++
  validate_observability (pl_observability plan).

Definition validate_media_stream_session (plan : MediaStreamSessionPlan)
    : result (list ValidationError) unit :=
  match media_stream_session_errors plan with [] => Ok tt | errors => Err errors end.
