(* ===== verification/MediaSpec.v ===== *)
(** * Media stream: what a validated plan is

    A declarative well-formedness predicate on session plans, stated on the
    plan's lists (existence, uniqueness and matching of references), and the
    proof that [validate_media_stream_session] accepts exactly the well-formed
    plans. *)

From S2P Require Import Prelude RustStr OrdMap MediaModel MediaValidation.
From Stdlib Require Import Sorting.Sorted.

Local Open Scope N_scope.

(** ** Well-formedness *)

Definition nonblank (s : string) : Prop := is_blank s = false.
Definition route_token (s : string) : Prop := contains_byte 124 s = false ∧ contains_byte 59 s = false.
Definition track_role (s : string) : Prop :=
  s ∈ ["left"; "right"; "mono"; "display"; "camera"; "stereo"]%string.

Definition device_wf (d : MediaStreamDevice) : Prop :=
  nonblank (dev_device_id d) ∧ nonblank (dev_role d) ∧
  dev_device_kind d ∈ ["quest"; "android_phone"; "windows_pc"; "relay"]%string ∧
  route_token (dev_device_id d).

Definition display_wf (d : DisplayCaptureDescriptor) : Prop :=
  nonblank (dsp_display_id d) ∧ nonblank (dsp_rotation d) ∧ dsp_density_dpi d ≠ 0 ∧
  crop_width (dsp_content_crop d) ≠ 0 ∧ crop_height (dsp_content_crop d) ≠ 0 ∧
  dsp_protected_content_policy d ∈
    ["omit-protected-content"; "black-frame-protected-content"; "unknown-lab-observe-only"]%string ∧
  dsp_privacy_indicator d ∈
    ["system-capture-indicator-required"; "developer-lab-indicator-required"]%string ∧
  dsp_foreground_package_reporting d ∈ ["not-collected"; "low-rate-debug-only"]%string.

Definition camera_wf (stereo : bool) (c : CameraCaptureDescriptor) : Prop :=
  nonblank (cam_camera_id c) ∧ nonblank (cam_camera_facing c) ∧
  cam_permission_policy c = CAMERA_PERMISSION_REQUIRED ∧
  (stereo = true →
    (list_to_set (ctb_track_role <$> cam_camera_ids c) : gset string) = {[ "left"; "right" ]}%string ∧
    size (list_to_set (ctb_camera_id <$> cam_camera_ids c) : gset string) = 2%nat).

(** Capture authority, consent and metadata per source kind: no source
    inherits another kind's permission or consent. *)
Definition source_policy_wf (s : MediaStreamSource) : Prop :=
  (src_source_kind s = SOURCE_KIND_EXTERNAL_H264_SOCKET ∧
     src_capture_authority s = CAPTURE_AUTHORITY_EXTERNAL_H264_ADAPTER) ∨
  (src_source_kind s = SOURCE_KIND_CAMERA2_MEDIACODEC_SURFACE ∧
     src_capture_authority s = CAPTURE_AUTHORITY_ANDROID_CAMERA_PERMISSION ∧
     src_developer_shell_required s = false ∧ src_consent_required s = false ∧ src_display s = None ∧
     ∃ camera, src_camera s = Some camera ∧ camera_wf (src_track_role s =? "stereo")%string camera) ∨
  (src_source_kind s = SOURCE_KIND_DISPLAY_COMPOSITE_MEDIAPROJECTION_SURFACE ∧
     src_capture_authority s = CAPTURE_AUTHORITY_ANDROID_MEDIAPROJECTION ∧
     src_developer_shell_required s = false ∧ src_consent_required s = true ∧ src_camera s = None ∧
     ∃ display, src_display s = Some display ∧ display_wf display ∧
       dsp_consent_state display = "android-mediaprojection-consent-required"%string) ∨
  (src_source_kind s = SOURCE_KIND_SHELL_DISPLAY_MIRROR_SURFACE ∧
     src_capture_authority s = CAPTURE_AUTHORITY_ADB_SHELL_HIDDEN_API ∧
     src_deployment_classification s = DEPLOYMENT_LAB_DEVELOPER_ONLY ∧
     src_developer_shell_required s = true ∧ src_consent_required s = false ∧
     ∃ display, src_display s = Some display ∧ display_wf display ∧
       dsp_consent_state display = "developer-shell-only-no-mediaprojection-consent"%string) ∨
  (src_source_kind s = SOURCE_KIND_DIAGNOSTIC_SYNTHETIC_SURFACE ∧
     src_capture_authority s = CAPTURE_AUTHORITY_DIAGNOSTIC_SYNTHETIC).

Definition media_device (devices : list MediaStreamDevice) (id : string) : Prop :=
  ∃ d, d ∈ devices ∧ dev_device_id d = id ∧ dev_device_kind d ≠ "relay"%string.

Definition source_wf (devices : list MediaStreamDevice) (s : MediaStreamSource) : Prop :=
  nonblank (src_source_id s) ∧ nonblank (src_device_id s) ∧ nonblank (src_source_family s) ∧
  nonblank (src_capture_route s) ∧ route_token (src_source_id s) ∧ route_token (src_source_family s) ∧
  track_role (src_track_role s) ∧
  src_deployment_classification s ∈
    [DEPLOYMENT_PRODUCTION_CANDIDATE; DEPLOYMENT_DIAGNOSTIC_ONLY; DEPLOYMENT_LAB_DEVELOPER_ONLY] ∧
  media_device devices (src_device_id s) ∧ source_policy_wf s.

Definition media_wf (m : MediaStreamMediaConfig) : Prop :=
  nonblank (med_track_id m) ∧ nonblank (med_metadata_transport m) ∧ nonblank (med_timestamp_domain m) ∧
  track_role (med_track_role m) ∧ med_track_kind m = "video"%string ∧ med_codec m = VIDEO_CODEC_H264 ∧
  med_stream_framing m ∈ [STREAM_FRAMING_DIAGNOSTIC_H264; STREAM_FRAMING_RMANVID_V4_PACKED_STEREO] ∧
  (med_stream_framing m = STREAM_FRAMING_RMANVID_V4_PACKED_STEREO ↔ med_track_role m = "stereo"%string) ∧
  med_high_rate_payload_plane m = PAYLOAD_PLANE_BINARY_MEDIA ∧
  med_metadata_transport m ≠ "inline-json-frame-payload"%string ∧
  1 <= med_width m <= 4096 ∧ 1 <= med_height m <= 4096 ∧ 1 <= med_frame_rate_hz m <= 120 ∧
  med_bitrate_bps m ≠ 0 ∧ 65536 <= med_max_packet_bytes m <= 8388608.

Definition transport_wf (t : MediaStreamTransportConfig) : Prop :=
  tr_transport_kind t ∈ ["lan_tcp"; "relay_tls"]%string ∧
  (tr_relay_required t = true → default EmptyString (tr_relay_session_id t) ≠ EmptyString) ∧
  (tr_transport_kind t = "relay_tls"%string → tr_encryption_required t = true).

Definition queue_wf (q : MediaStreamQueuePolicy) : Prop :=
  nonblank (q_drop_policy q) ∧ 1 <= q_max_buffered_packets q <= 256 ∧
  1 <= q_max_buffered_bytes q <= 33554432 ∧ q_slow_peer_close q = true.

Definition lane_wf (devices : list MediaStreamDevice) (sources : list MediaStreamSource)
    (l : MediaStreamLane) : Prop :=
  nonblank (lane_lane_id l) ∧ nonblank (lane_source_id l) ∧ nonblank (lane_source_device_id l) ∧
  nonblank (lane_sink_device_id l) ∧ route_token (lane_lane_id l) ∧ route_token (lane_source_id l) ∧
  lane_direction l ∈ ["outgoing"; "incoming"; "bidirectional"]%string ∧
  (∃ s, s ∈ sources ∧ src_source_id s = lane_source_id l ∧
     src_device_id s = lane_source_device_id l ∧ src_track_role s = med_track_role (lane_media l)) ∧
  lane_source_device_id l ∈ dev_device_id <$> devices ∧ lane_sink_device_id l ∈ dev_device_id <$> devices ∧
  lane_source_device_id l ≠ lane_sink_device_id l ∧ lane_receiver_first_required l = true ∧
  media_wf (lane_media l) ∧ transport_wf (lane_transport l) ∧ queue_wf (lane_queue l).

Definition ports_wf (required : bool) (l : list MediaStreamPortBinding) : Prop :=
  (required = true → l ≠ []) ∧ Forall (fun b => track_role (pb_track_role b) ∧ pb_port b ≠ 0) l ∧
  NoDup (pb_track_role <$> l) ∧ NoDup (pb_port <$> l).

Definition binding_wf (e : MediaStreamRuntimeEndpoint) (sources : list MediaStreamSource)
    (b : MediaStreamSourceBinding) : Prop :=
  nonblank (sb_source_id b) ∧ nonblank (sb_source_host b) ∧ track_role (sb_track_role b) ∧
  route_token (sb_source_id b) ∧ sb_source_port b ≠ 0 ∧
  ∃ s, s ∈ sources ∧ src_source_id s = sb_source_id b ∧ src_device_id s = ep_device_id e ∧
    src_track_role s = sb_track_role b.

Definition endpoint_wf (devices : list MediaStreamDevice) (sources : list MediaStreamSource)
    (lanes : list MediaStreamLane) (e : MediaStreamRuntimeEndpoint) : Prop :=
  nonblank (ep_device_id e) ∧ nonblank (ep_receiver_bind_host e) ∧ nonblank (ep_transport_bind_host e) ∧
  ep_adapter_kind e ∈ ["quest_manifold_broker_android"; "android_companion"; "windows_hostess";
    "termux_sidecar"; "pc_viewer"; "quest_native_openxr_renderer"; "quest_meta_spatial_sdk_renderer"]%string ∧
  media_device devices (ep_device_id e) ∧
  Forall (binding_wf e sources) (ep_source_bindings e) ∧ NoDup (sb_source_id <$> ep_source_bindings e) ∧
  (ep_device_id e ∈ lane_source_device_id <$> lanes → ep_source_bindings e ≠ []) ∧
  ports_wf (bool_decide (ep_device_id e ∈ lane_sink_device_id <$> lanes)) (ep_receiver_ports e) ∧
  ports_wf (bool_decide (ep_device_id e ∈ lane_sink_device_id <$> lanes)) (ep_transport_receive_ports e).

(** A route serves exactly its lane, and a direct route ends at a port the sink
    receives that track on. *)
Definition route_wf (lanes : list MediaStreamLane) (endpoints : list MediaStreamRuntimeEndpoint)
    (r : MediaStreamTransportRoute) : Prop :=
  nonblank (rt_lane_id r) ∧ nonblank (rt_source_device_id r) ∧ nonblank (rt_sink_device_id r) ∧
  nonblank (rt_connect_host r) ∧ route_token (rt_lane_id r) ∧ track_role (rt_track_role r) ∧
  rt_connect_port r ≠ 0 ∧
  ∃ l, l ∈ lanes ∧ lane_lane_id l = rt_lane_id r ∧ rt_source_device_id r = lane_source_device_id l ∧
    rt_sink_device_id r = lane_sink_device_id l ∧ rt_track_role r = med_track_role (lane_media l) ∧
    ((rt_route_kind r ∈ ["direct_tcp_connect"; "direct_p2p_tcp"]%string ∧
        tr_transport_kind (lane_transport l) = "lan_tcp"%string ∧
        tr_relay_required (lane_transport l) = false ∧
        ∃ e b, e ∈ endpoints ∧ ep_device_id e = rt_sink_device_id r ∧
          b ∈ ep_transport_receive_ports e ∧ pb_track_role b = rt_track_role r ∧
          pb_port b = rt_connect_port r) ∨
     (rt_route_kind r = "relay_tls_client"%string ∧
        tr_transport_kind (lane_transport l) = "relay_tls"%string ∧
        tr_relay_required (lane_transport l) = true ∧ tr_encryption_required (lane_transport l) = true ∧
        nonblank (default EmptyString (rt_relay_channel r)) ∧
        nonblank (default EmptyString (rt_relay_token_ref r)))).

Definition security_wf (s : MediaStreamSecurityPolicy) (tier : string) : Prop :=
  sec_visible_streaming_indicator s = true ∧ sec_explicit_pairing_required s = true ∧
  nonblank (sec_immediate_stop_command s) ∧
  (sec_raw_media_logging s = true → tier = PRIVACY_LOCAL_LAN_DIAGNOSTIC).

(** ** Topologies *)

Definition device_kind_of (plan : MediaStreamSessionPlan) (id kind : string) : Prop :=
  ∃ d, d ∈ pl_devices plan ∧ dev_device_id d = id ∧ dev_device_kind d = kind.

(** A binary media lane from one device to another. *)
Definition lane_between (plan : MediaStreamSessionPlan) (source sink : string) : Prop :=
  ∃ l, l ∈ pl_lanes plan ∧ lane_source_device_id l = source ∧ lane_sink_device_id l = sink ∧
    med_high_rate_payload_plane (lane_media l) = PAYLOAD_PLANE_BINARY_MEDIA.

(** The lane goes from a device of one kind to a device of another and its
    source satisfies [ok]. *)
Definition lane_kinds (plan : MediaStreamSessionPlan) (from to : string) (ok : MediaStreamSource → Prop)
    (l : MediaStreamLane) : Prop :=
  device_kind_of plan (lane_source_device_id l) from ∧ device_kind_of plan (lane_sink_device_id l) to ∧
  ∃ s, s ∈ pl_sources plan ∧ src_source_id s = lane_source_id l ∧ ok s.

Definition str_lt (a b : string) : Prop := String.compare a b = Lt.

(** [a] is the smallest id of its kind. *)
Definition lowest (plan : MediaStreamSessionPlan) (kind a : string) : Prop :=
  device_kind_of plan a kind ∧ ∀ x, device_kind_of plan x kind → x = a ∨ str_lt a x.

(** [a] and [b] are the two smallest ids of a kind. *)
Definition lowest_two (plan : MediaStreamSessionPlan) (kind a b : string) : Prop :=
  device_kind_of plan a kind ∧ device_kind_of plan b kind ∧ str_lt a b ∧
  ∀ x, device_kind_of plan x kind → x = a ∨ x = b ∨ str_lt b x.

Definition topology_wf (plan : MediaStreamSessionPlan) : Prop :=
  (pl_topology_id plan = "quest_display_to_pc"%string ∧
     ∃ l, l ∈ pl_lanes plan ∧ lane_kinds plan "quest" "windows_pc" (fun s => src_source_kind s ∈
       [SOURCE_KIND_DISPLAY_COMPOSITE_MEDIAPROJECTION_SURFACE; SOURCE_KIND_SHELL_DISPLAY_MIRROR_SURFACE]) l) ∨
  (pl_topology_id plan = "quest_camera_to_pc"%string ∧
     ∃ l, l ∈ pl_lanes plan ∧ lane_kinds plan "quest" "windows_pc"
       (fun s => src_source_kind s = SOURCE_KIND_CAMERA2_MEDIACODEC_SURFACE) l) ∨
  (pl_topology_id plan = "quest_to_quest_two_way"%string ∧
     ∃ a b, lowest_two plan "quest" a b ∧ lane_between plan a b ∧ lane_between plan b a) ∨
  (pl_topology_id plan ∈ ["quest_display_to_native_renderer"; "quest_display_to_spatial_camera_panel";
                          "quest_camera_to_spatial_camera_panel"]%string ∧
     pl_lanes plan ≠ [] ∧
     Forall (fun l => lane_kinds plan "quest" "quest" (fun s => src_capture_route s ∈
         ["display-composite"; "camera2-mediacodec-surface"]%string) l ∧
       lane_source_device_id l ≠ lane_sink_device_id l) (pl_lanes plan)) ∨
  (pl_topology_id plan = "quest_android_phone_duplex"%string ∧
     ∃ q p, lowest plan "quest" q ∧ lowest plan "android_phone" p ∧
       lane_between plan q p ∧ lane_between plan p q) ∨
  pl_topology_id plan = "diagnostic_loopback"%string.

(** ** A well-formed plan *)

Record plan_wf (plan : MediaStreamSessionPlan) : Prop := {
  pw_schema : pl_schema plan = MEDIA_STREAM_SESSION_SCHEMA ∧ nonblank (pl_session_id plan);
  pw_privacy : pl_privacy_tier plan ∈
      [PRIVACY_LOCAL_LAN_DIAGNOSTIC; PRIVACY_TRUSTED_RELAY_ENCRYPTED; PRIVACY_E2EE_CANDIDATE] ∧
    (pl_privacy_tier plan ≠ PRIVACY_LOCAL_LAN_DIAGNOSTIC →
       Forall (fun l => tr_encryption_required (lane_transport l) = true) (pl_lanes plan));
  pw_security : security_wf (pl_security plan) (pl_privacy_tier plan);
  pw_devices : pl_devices plan ≠ [] ∧ NoDup (dev_device_id <$> pl_devices plan) ∧
    Forall device_wf (pl_devices plan);
  pw_sources : pl_sources plan ≠ [] ∧ NoDup (src_source_id <$> pl_sources plan) ∧
    Forall (source_wf (pl_devices plan)) (pl_sources plan);
  pw_lanes : pl_lanes plan ≠ [] ∧ NoDup (lane_lane_id <$> pl_lanes plan) ∧
    Forall (lane_wf (pl_devices plan) (pl_sources plan)) (pl_lanes plan);
  pw_endpoints : NoDup (ep_device_id <$> pl_runtime_endpoints plan) ∧
    Forall (endpoint_wf (pl_devices plan) (pl_sources plan) (pl_lanes plan)) (pl_runtime_endpoints plan);
  (** Every media device has an endpoint, every source a binding on it. *)
  pw_coverage : (∀ id, media_device (pl_devices plan) id → id ∈ ep_device_id <$> pl_runtime_endpoints plan) ∧
    (∀ s e, s ∈ pl_sources plan → e ∈ pl_runtime_endpoints plan → ep_device_id e = src_device_id s →
       src_source_id s ∈ sb_source_id <$> ep_source_bindings e);
  (** One route per lane. *)
  pw_routes : NoDup (rt_lane_id <$> pl_transport_routes plan) ∧
    Forall (route_wf (pl_lanes plan) (pl_runtime_endpoints plan)) (pl_transport_routes plan) ∧
    (∀ l, l ∈ pl_lanes plan → lane_lane_id l ∈ rt_lane_id <$> pl_transport_routes plan);
  pw_topology : topology_wf plan;
  pw_observability :
    Forall (fun c => c ∈ obsv_required_counters (pl_observability plan)) observability_counters;
}.

(** ** Loops *)

Lemma index_by_index {A} (key : A → string) before dup after seen l :
  (index_by key before dup after seen l).2 = fold_left (fun m x => bt_insert (key x) x m) l seen.
Proof.
  revert seen. induction l as [|x l IH]; intros seen; cbn; [done|]. rewrite <- IH.
  by destruct (index_by key before dup after _ l).
Qed.

Lemma bt_contains_insert {A} k k' (v : A) m :
  bt_contains k (bt_insert k' v m) = (k =? k')%string || bt_contains k m.
Proof. unfold bt_contains. rewrite bt_get_insert. by destruct (k =? k')%string. Qed.

Lemma index_by_nil {A} (key : A → string) before dup after seen l :
  (index_by key before dup after seen l).1 = [] ↔
  Forall (fun x => before x = [] ∧ after x = []) l ∧ NoDup (key <$> l) ∧
  Forall (fun x => bt_contains (key x) seen = false) l.
Proof.
  revert seen. induction l as [|x l IH]; intros seen; cbn.
  { split; [repeat constructor|done]. }
  specialize (IH (bt_insert (key x) x seen)).
  destruct (index_by key before dup after (bt_insert (key x) x seen) l) as [es m]. cbn in *.
  rewrite !app_nil_iff, push_if_nil, IH, !Forall_cons, NoDup_cons.
  setoid_rewrite bt_contains_insert. setoid_rewrite orb_false_iff. setoid_rewrite String.eqb_neq.
  rewrite list_elem_of_fmap, !Forall_forall. naive_solver.
Qed.

Lemma unique_by_nil {A} (key : A → string) before dup after seen l :
  unique_by key before dup after seen l = [] ↔
  Forall (fun x => before x = [] ∧ after x = []) l ∧ NoDup (key <$> l) ∧
  Forall (fun x => key x ∉ seen) l.
Proof.
  revert seen. induction l as [|x l IH]; intros seen; cbn.
  { split; [repeat constructor|done]. }
  rewrite !app_nil_iff, push_if_nil, IH, !Forall_cons, NoDup_cons, bool_decide_eq_false.
  setoid_rewrite not_elem_of_union. setoid_rewrite not_elem_of_singleton.
  rewrite list_elem_of_fmap, !Forall_forall. naive_solver.
Qed.

Lemma ports_loop_nil device field roles ports l :
  validate_ports_loop device field roles ports l = [] ↔
  Forall (fun b => nonblank (pb_track_role b) ∧ track_role (pb_track_role b) ∧ pb_port b ≠ 0) l ∧
  NoDup (pb_track_role <$> l) ∧ NoDup (pb_port <$> l) ∧
  Forall (fun b => pb_track_role b ∉ roles ∧ pb_port b ∉ ports) l.
Proof.
  revert roles ports. induction l as [|b l IH]; intros roles ports; cbn [validate_ports_loop].
  { split; [repeat constructor|done]. }
  unfold validate_required_text, validate_track_role, nonblank, track_role.
  rewrite !app_nil_iff, !push_if_nil, IH, !fmap_cons, !Forall_cons, !NoDup_cons, !bool_decide_eq_false,
    not_one_of, N.eqb_neq.
  setoid_rewrite not_elem_of_union. setoid_rewrite not_elem_of_singleton.
  rewrite !list_elem_of_fmap, !Forall_forall. naive_solver.
Qed.

(** ** Records without references *)

Lemma nonblank_in v l : v ∈ l → forallb (fun x => negb (is_blank x)) l = true → nonblank v.
Proof.
  intros Hv Hl. rewrite forallb_forall in Hl. apply list_elem_of_In in Hv. apply Hl in Hv.
  by apply negb_true_iff.
Qed.

Lemma required_nil label v : validate_required_text label v = [] ↔ nonblank v.
Proof. apply push_if_nil. Qed.

Lemma token_nil label v : validate_route_token label v = [] ↔ route_token v.
Proof. unfold validate_route_token. by rewrite push_if_nil, orb_false_iff. Qed.

Lemma role_nil label v : validate_track_role label v = [] ↔ track_role v.
Proof. unfold validate_track_role. by rewrite push_if_nil, not_one_of. Qed.

(** A text that must equal a constant, or be one of some constants, is not
    blank. *)
Lemma blank_or_in v l : forallb (fun x => negb (is_blank x)) l = true → (nonblank v ∧ v ∈ l) ↔ v ∈ l.
Proof. intros Hl. split; [tauto|]. eauto using nonblank_in. Qed.

Lemma role_nonblank v : track_role v → nonblank v.
Proof. intros H. by eapply nonblank_in. Qed.

(** Turns an empty list of pushed errors into the conditions it stands for. *)
Ltac errors_to_prop :=
  rewrite ?app_nil_iff, ?required_nil, ?token_nil, ?role_nil, ?push_if_nil, ?not_one_of,
    ?orb_false_iff, ?negb_false_iff, ?String.eqb_eq, ?String.eqb_neq, ?N.eqb_neq, ?N.ltb_ge,
    ?andb_true_iff, ?N.leb_le, ?bool_decide_eq_true, ?bool_decide_eq_false.

(** Notes that a text tested against constants in the goal is not blank. *)
Ltac note_nonblank v :=
  match goal with |- context [v ∈ ?l] =>
    assert (v ∈ l → nonblank v) by (intros ?; by eapply (nonblank_in v l))
  end.

Lemma device_nil d : validate_device d = [] ↔ device_wf d.
Proof.
  unfold validate_device, device_wf. errors_to_prop.
  note_nonblank (dev_device_kind d). naive_solver.
Qed.

Lemma display_nil id d : validate_display_descriptor id d = [] ∧ nonblank (dsp_consent_state d) ↔
  display_wf d ∧ nonblank (dsp_consent_state d).
Proof.
  unfold validate_display_descriptor, display_wf. errors_to_prop.
  note_nonblank (dsp_protected_content_policy d).
  note_nonblank (dsp_privacy_indicator d).
  note_nonblank (dsp_foreground_package_reporting d).
  tauto.
Qed.

Lemma media_nil id m : validate_media id m = [] ↔ media_wf m.
Proof.
  unfold validate_media, media_wf. errors_to_prop. rewrite Bool.eqb_true_iff.
  assert ((med_stream_framing m =? STREAM_FRAMING_RMANVID_V4_PACKED_STEREO)%string =
          (med_track_role m =? "stereo")%string ↔
          (med_stream_framing m = STREAM_FRAMING_RMANVID_V4_PACKED_STEREO ↔
           med_track_role m = "stereo"%string)) as ->.
  { rewrite Bool.eq_iff_eq_true, !String.eqb_eq. done. }
  pose proof (role_nonblank (med_track_role m)) as H1.
  note_nonblank (med_stream_framing m).
  assert (med_track_kind m = "video"%string → nonblank (med_track_kind m)) as H3 by (by intros ->).
  assert (med_codec m = VIDEO_CODEC_H264 → nonblank (med_codec m)) as H4 by (by intros ->).
  assert (med_high_rate_payload_plane m = PAYLOAD_PLANE_BINARY_MEDIA →
          nonblank (med_high_rate_payload_plane m)) as H5 by (by intros ->).
  assert (track_role (med_track_role m) → route_token (med_track_role m)) as H6.
  { unfold track_role. set_unfold. intros [->|[->|[->|[->|[->|[->|[]]]]]]]; done. }
  assert (med_stream_framing m ∈ [STREAM_FRAMING_DIAGNOSTIC_H264; STREAM_FRAMING_RMANVID_V4_PACKED_STEREO] →
          route_token (med_stream_framing m)) as H7.
  { set_unfold. intros [->|[->|[]]]; done. }
  set (P := (med_stream_framing m = _ ↔ _)). clearbody P.
  split; intros ?; destruct_and!; split_and!; auto; lia.
Qed.

Lemma transport_nil id t : validate_transport id t = [] ↔ transport_wf t.
Proof.
  unfold validate_transport, transport_wf. errors_to_prop.
  note_nonblank (tr_transport_kind t).
  rewrite !andb_false_iff, negb_false_iff, String.eqb_neq.
  assert (∀ s, str_is_empty s = false ↔ s ≠ EmptyString) as E by (by intros []).
  rewrite E. destruct (tr_relay_required t), (tr_encryption_required t); intuition congruence.
Qed.

Lemma queue_nil id q : validate_queue id q = [] ↔ queue_wf q.
Proof. unfold validate_queue, queue_wf. errors_to_prop. intuition lia. Qed.

Lemma security_nil s tier : validate_security s tier = [] ↔ security_wf s tier.
Proof.
  unfold validate_security, security_wf. errors_to_prop. rewrite andb_false_iff, negb_false_iff, String.eqb_eq.
  destruct (sec_raw_media_logging s); intuition congruence.
Qed.

Lemma observability_nil o :
  validate_observability o = [] ↔ Forall (fun c => c ∈ obsv_required_counters o) observability_counters.
Proof.
  unfold validate_observability. rewrite concat_nil. apply Forall_iff. intros c.
  rewrite push_if_nil, negb_false_iff, existsb_exists. setoid_rewrite String.eqb_eq.
  rewrite list_elem_of_In. naive_solver.
Qed.
