(* ===== verification/MediaRefinement.v ===== *)
(** * Media stream: the validator refines the specification

    Every validator of MediaValidation.v is empty of errors exactly when the
    declarative predicate of MediaSpec.v holds, up to the whole plan. *)

From S2P Require Import Prelude RustStr OrdMap MediaModel MediaValidation MediaSpec.
From Stdlib Require Import Sorting.Sorted.

Local Open Scope N_scope.

(** ** Sources *)

Lemma authority_nil s expected :
  require_capture_authority s expected = [] ↔ src_capture_authority s = expected.
Proof. unfold require_capture_authority. by errors_to_prop. Qed.

Lemma not_is_Some {A} (o : option A) : ¬ is_Some o ↔ o = None.
Proof. by rewrite eq_None_not_Some. Qed.

Lemma ex_Some {A} (x : A) (P : A → Prop) : (∃ y, Some x = Some y ∧ P y) ↔ P x.
Proof. split; [by intros (y & [= <-] & ?)|eauto]. Qed.

Lemma ex_None {A} (P : A → Prop) : (∃ y, None = Some y ∧ P y) ↔ False.
Proof. split; [by intros (y & ? & _)|done]. Qed.

Lemma camera_nil s : validate_camera_source s = [] ↔
  src_capture_authority s = CAPTURE_AUTHORITY_ANDROID_CAMERA_PERMISSION ∧
  src_developer_shell_required s = false ∧ src_consent_required s = false ∧ src_display s = None ∧
  ∃ camera, src_camera s = Some camera ∧ camera_wf (src_track_role s =? "stereo")%string camera.
Proof.
  unfold validate_camera_source. rewrite !app_nil_iff, authority_nil. errors_to_prop.
  rewrite not_is_Some. destruct (src_camera s) as [camera|]; [|rewrite ex_None; intuition discriminate].
  rewrite ex_Some.
  unfold camera_wf. errors_to_prop.
  assert (cam_permission_policy camera = CAMERA_PERMISSION_REQUIRED →
          nonblank (cam_permission_policy camera)) as Hb by (by intros ->).
  destruct (String.eqb_spec (src_track_role s) "stereo"); [errors_to_prop|]; naive_solver.
Qed.

Lemma display_composite_nil s : validate_display_composite_source s = [] ↔
  src_capture_authority s = CAPTURE_AUTHORITY_ANDROID_MEDIAPROJECTION ∧
  src_developer_shell_required s = false ∧ src_consent_required s = true ∧ src_camera s = None ∧
  ∃ display, src_display s = Some display ∧ display_wf display ∧
    dsp_consent_state display = "android-mediaprojection-consent-required"%string.
Proof.
  unfold validate_display_composite_source. rewrite !app_nil_iff, authority_nil. errors_to_prop.
  rewrite not_is_Some. destruct (src_display s) as [display|]; [|rewrite ex_None; intuition discriminate].
  errors_to_prop. pose proof (display_nil (src_source_id s) display) as Hd.
  assert (dsp_consent_state display = "android-mediaprojection-consent-required"%string →
          nonblank (dsp_consent_state display)) as Hb by (by intros ->).
  rewrite (ex_Some display (fun d => display_wf d ∧ dsp_consent_state d = _)). tauto.
Qed.

Lemma shell_display_nil s : validate_shell_display_source s = [] ↔
  src_capture_authority s = CAPTURE_AUTHORITY_ADB_SHELL_HIDDEN_API ∧
  src_deployment_classification s = DEPLOYMENT_LAB_DEVELOPER_ONLY ∧
  src_developer_shell_required s = true ∧ src_consent_required s = false ∧
  ∃ display, src_display s = Some display ∧ display_wf display ∧
    dsp_consent_state display = "developer-shell-only-no-mediaprojection-consent"%string.
Proof.
  unfold validate_shell_display_source. rewrite !app_nil_iff, authority_nil. errors_to_prop.
  destruct (src_display s) as [display|]; [|rewrite ex_None; intuition discriminate].
  errors_to_prop. pose proof (display_nil (src_source_id s) display) as Hd.
  assert (dsp_consent_state display = "developer-shell-only-no-mediaprojection-consent"%string →
          nonblank (dsp_consent_state display)) as Hb by (by intros ->).
  rewrite (ex_Some display (fun d => display_wf d ∧ dsp_consent_state d = _)). tauto.
Qed.

Lemma source_policy_nil s : validate_source_policy s = [] ↔ source_policy_wf s.
Proof.
  unfold validate_source_policy, source_policy_wf.
  repeat match goal with |- context [if (?a =? ?b)%string then _ else _] =>
    destruct (String.eqb_spec a b) as [->|?]
  end; rewrite ?authority_nil, ?camera_nil, ?display_composite_nil, ?shell_display_nil;
  split; intros H;
    repeat match goal with H : _ ∨ _ |- _ => destruct H as [H|H] end;
    repeat match goal with H : _ ∧ _ |- _ => destruct H end;
    try done; try discriminate; auto 10.
Qed.

Section References.
Context (devices : list MediaStreamDevice) (Hdev : NoDup (dev_device_id <$> devices)).

Lemma media_device_nil id (relay unknown : string) :
  match bt_get id (bt_collect dev_device_id devices) with
  | Some device => push_if (dev_device_kind device =? "relay")%string relay
  | None => [unknown]
  end = [] ↔ media_device devices id.
Proof.
  unfold media_device. destruct (bt_get id _) as [d|] eqn:E.
  - apply bt_collect_get in E as [Hd <-]; [|done]. errors_to_prop. split; [eauto|].
    intros (d' & Hd' & Hid & Hk). assert (d' = d) as ->; [|done].
    assert (bt_get (dev_device_id d) (bt_collect dev_device_id devices) = Some d') as E1 by (by apply bt_collect_get).
    assert (bt_get (dev_device_id d) (bt_collect dev_device_id devices) = Some d) as E2 by (by apply bt_collect_get).
    congruence.
  - split; [done|]. intros (d & Hd & <- & _).
    assert (bt_get (dev_device_id d) (bt_collect dev_device_id devices) = Some d) as E2 by (by apply bt_collect_get).
    congruence.
Qed.

Lemma source_nil s :
  validate_source (bt_collect dev_device_id devices) s = [] ↔ source_wf devices s.
Proof.
  unfold validate_source, source_wf. rewrite !app_nil_iff, media_device_nil, source_policy_nil. errors_to_prop.
  pose proof (role_nonblank (src_track_role s)). note_nonblank (src_deployment_classification s).
  assert (source_policy_wf s → nonblank (src_capture_authority s) ∧ nonblank (src_source_kind s) ∧
          route_token (src_source_kind s)) as Hp.
  { unfold source_policy_wf. intros Hw.
    repeat match goal with H : _ ∨ _ |- _ => destruct H as [H|H] end;
    destruct_and?;
    match goal with E : src_source_kind s = _, E' : src_capture_authority s = _ |- _ => rewrite E, E' end;
    by split_and!. }
  tauto.
Qed.

Lemma find_collect {A} (key : A → string) (l : list A) k (P : A → Prop) (errors : A → list ValidationError)
    (unknown : list ValidationError) :
  NoDup (key <$> l) → unknown ≠ [] → (∀ x, errors x = [] ↔ P x) →
  match bt_get k (bt_collect key l) with Some x => errors x | None => unknown end = [] ↔
  ∃ x, x ∈ l ∧ key x = k ∧ P x.
Proof.
  intros Hd Hu He. destruct (bt_get k (bt_collect key l)) as [x|] eqn:E.
  - rewrite He. pose proof E as [Hx Hk]%bt_collect_get; [|done]. split; [eauto|].
    intros (y & Hy & Hky & Hp). assert (bt_get k (bt_collect key l) = Some y) as E2 by (by apply bt_collect_get).
    congruence.
  - split; [done|]. intros (y & Hy & Hky & Hp).
    assert (bt_get k (bt_collect key l) = Some y) as E2 by (by apply bt_collect_get). congruence.
Qed.

Context (sources : list MediaStreamSource) (Hsrc : NoDup (src_source_id <$> sources)).

(** The source tests of a lane: known, on the same device, with the same role. *)
Lemma lane_source_nil l (e0 e1 e2 : string) :
  let source := bt_get (lane_source_id l) (bt_collect src_source_id sources) in
  push_if (bool_decide (source = None)) e0 = [] ∧
  match source with
  | Some source =>
      push_if (negb (src_device_id source =? lane_source_device_id l)%string) e1 ++
      push_if (negb (src_track_role source =? med_track_role (lane_media l))%string) e2
  | None => []
  end = [] ↔
  ∃ s, s ∈ sources ∧ src_source_id s = lane_source_id l ∧ src_device_id s = lane_source_device_id l ∧
    src_track_role s = med_track_role (lane_media l).
Proof.
  cbv zeta. rewrite <- (find_collect src_source_id sources (lane_source_id l)
    (fun s => src_device_id s = lane_source_device_id l ∧ src_track_role s = med_track_role (lane_media l))
    (fun s => push_if (negb (src_device_id s =? lane_source_device_id l)%string) e1 ++
       push_if (negb (src_track_role s =? med_track_role (lane_media l))%string) e2) [e0]); [|done..|].
  - destruct (bt_get _ _); cbn; [tauto|]. split; [by intros [? _]|done].
  - intros s. by errors_to_prop.
Qed.

Lemma lane_nil l :
  validate_lane_text l = [] ∧
  validate_lane (bt_collect dev_device_id devices) (bt_collect src_source_id sources) l = [] ↔
  lane_wf devices sources l.
Proof.
  unfold validate_lane_text, validate_lane, lane_wf. cbv zeta.
  rewrite !app_nil_iff, media_nil, transport_nil, queue_nil, !token_nil, !required_nil.
  rewrite <- (lane_source_nil l ("lane " ++ lane_lane_id l ++ " references unknown source_id " ++ lane_source_id l)
    ("lane " ++ lane_lane_id l ++ " source_device_id must match source " ++ lane_source_id l ++ " device_id")
    ("lane " ++ lane_lane_id l ++ " media track_role must match source " ++ lane_source_id l ++ " track_role")).
  cbv zeta. rewrite <- !(bt_collect_contains dev_device_id devices) by done.
  set (src := bt_get _ (bt_collect src_source_id sources)).
  set (M := match src with Some _ => _ | None => _ end). set (U := push_if (bool_decide (src = None)) _).
  clearbody M U. rewrite !push_if_nil, not_one_of, !negb_false_iff, String.eqb_neq.
  note_nonblank (lane_direction l). tauto.
Qed.

(** ** Endpoints *)

Lemma binding_nil e b :
  validate_source_binding e (bt_collect src_source_id sources) b = [] ↔ binding_wf e sources b.
Proof.
  unfold validate_source_binding, binding_wf. cbv zeta. rewrite !app_nil_iff.
  rewrite (find_collect src_source_id sources (sb_source_id b)
    (fun s => src_device_id s = ep_device_id e ∧ src_track_role s = sb_track_role b)); [|done..|].
  - errors_to_prop. pose proof (role_nonblank (sb_track_role b)). tauto.
  - intros s. by errors_to_prop.
Qed.

Lemma ports_nil device field l required :
  validate_port_bindings device field l required = [] ↔ ports_wf required l.
Proof.
  unfold validate_port_bindings, ports_wf. rewrite app_nil_iff, push_if_nil, ports_loop_nil, andb_false_iff,
    bool_decide_eq_false.
  assert (Forall (fun b => pb_track_role b ∉ (∅ : gset string) ∧ pb_port b ∉ (∅ : gset N)) l) as He.
  { apply Forall_true. intros b. set_solver. }
  assert (Forall (fun b => nonblank (pb_track_role b) ∧ track_role (pb_track_role b) ∧ pb_port b ≠ 0) l ↔
          Forall (fun b => track_role (pb_track_role b) ∧ pb_port b ≠ 0) l) as ->.
  { apply Forall_iff. intros b. pose proof (role_nonblank (pb_track_role b)). tauto. }
  destruct required; intuition congruence.
Qed.

Lemma existsb_fmap {A} (f : A → string) k l :
  existsb (fun x => (f x =? k)%string) l = bool_decide (k ∈ f <$> l).
Proof.
  apply Bool.eq_iff_eq_true. rewrite existsb_exists, bool_decide_eq_true, list_elem_of_fmap.
  setoid_rewrite String.eqb_eq. setoid_rewrite list_elem_of_In. naive_solver.
Qed.

Lemma endpoint_nil lanes e :
  validate_endpoint_text (bt_collect dev_device_id devices) e = [] ∧
  validate_endpoint (bt_collect src_source_id sources) lanes e = [] ↔
  endpoint_wf devices sources lanes e.
Proof.
  unfold validate_endpoint_text, validate_endpoint, validate_source_bindings, endpoint_wf. cbv zeta.
  rewrite !app_nil_iff, media_device_nil, unique_by_nil, !ports_nil, !existsb_fmap.
  assert (Forall (fun b => sb_source_id b ∉ (∅ : gset string)) (ep_source_bindings e)) as He.
  { apply Forall_true. intros b. set_solver. }
  assert (Forall (fun b => validate_source_binding e (bt_collect src_source_id sources) b = [] ∧
            @nil ValidationError = []) (ep_source_bindings e) ↔
          Forall (binding_wf e sources) (ep_source_bindings e)) as ->.
  { apply Forall_iff. intros b. rewrite binding_nil. tauto. }
  rewrite !required_nil, !push_if_nil, not_one_of, andb_false_iff, !bool_decide_eq_false.
  note_nonblank (ep_adapter_kind e).
  set (P := ep_device_id e ∈ lane_source_device_id <$> lanes).
  assert (P ∨ ¬ P) by (unfold P; destruct (decide (ep_device_id e ∈ lane_source_device_id <$> lanes)); auto).
  clearbody P. tauto.
Qed.

End References.

(** ** Routes *)

Section Routes.
Context (lanes : list MediaStreamLane) (Hlane : NoDup (lane_lane_id <$> lanes)).
Context (endpoints : list MediaStreamRuntimeEndpoint) (Hep : NoDup (ep_device_id <$> endpoints)).

Definition direct_ok (r : MediaStreamTransportRoute) (l : MediaStreamLane) : Prop :=
  tr_transport_kind (lane_transport l) = "lan_tcp"%string ∧ tr_relay_required (lane_transport l) = false ∧
  ∃ e b, e ∈ endpoints ∧ ep_device_id e = rt_sink_device_id r ∧ b ∈ ep_transport_receive_ports e ∧
    pb_track_role b = rt_track_role r ∧ pb_port b = rt_connect_port r.

Definition relay_ok (r : MediaStreamTransportRoute) (l : MediaStreamLane) : Prop :=
  tr_transport_kind (lane_transport l) = "relay_tls"%string ∧ tr_relay_required (lane_transport l) = true ∧
  tr_encryption_required (lane_transport l) = true ∧ nonblank (default EmptyString (rt_relay_channel r)) ∧
  nonblank (default EmptyString (rt_relay_token_ref r)).

Lemma direct_route_nil r l :
  validate_direct_route r l (bt_collect ep_device_id endpoints) = [] ↔ direct_ok r l.
Proof.
  unfold validate_direct_route, direct_ok. rewrite app_nil_iff.
  rewrite (find_collect ep_device_id endpoints (rt_sink_device_id r)
    (fun e => ∃ b, b ∈ ep_transport_receive_ports e ∧ pb_track_role b = rt_track_role r ∧
                   pb_port b = rt_connect_port r)); [|done..|].
  - errors_to_prop. naive_solver.
  - intros e. rewrite push_if_nil, negb_false_iff, existsb_exists.
    setoid_rewrite andb_true_iff. setoid_rewrite String.eqb_eq. setoid_rewrite N.eqb_eq.
    setoid_rewrite list_elem_of_In. naive_solver.
Qed.

Lemma relay_route_nil r l : validate_relay_route r l = [] ↔ relay_ok r l.
Proof.
  unfold validate_relay_route, relay_ok, blank_option, nonblank. rewrite !app_nil_iff, !push_if_nil,
    !orb_false_iff, !negb_false_iff, String.eqb_eq. tauto.
Qed.

Lemma route_nil r :
  validate_route_text r = [] ∧
  validate_route (bt_collect lane_lane_id lanes) (bt_collect ep_device_id endpoints) r = [] ↔
  route_wf lanes endpoints r.
Proof.
  unfold validate_route_text, validate_route, route_wf. rewrite !app_nil_iff, !push_if_nil, not_one_of, N.eqb_neq.
  rewrite (find_collect lane_lane_id lanes (rt_lane_id r)
    (fun l => rt_source_device_id r = lane_source_device_id l ∧
       rt_sink_device_id r = lane_sink_device_id l ∧ rt_track_role r = med_track_role (lane_media l) ∧
       (rt_route_kind r ∈ ["direct_tcp_connect"; "direct_p2p_tcp"; "relay_tls_client"]%string →
        rt_route_kind r ∈ ["direct_tcp_connect"; "direct_p2p_tcp"]%string ∧ direct_ok r l ∨
        rt_route_kind r = "relay_tls_client"%string ∧ relay_ok r l))); [|done..|].
  - rewrite !required_nil, token_nil, role_nil.
    note_nonblank (rt_route_kind r). pose proof (role_nonblank (rt_track_role r)) as Hr.
    split.
    + intros ((H1 & H2 & H3 & H4 & H5 & H6 & H7 & H8 & H9) & Hk & l & Hl & Hid & Hs & Hd & Ht & Hx).
      split_and!; try done. exists l. specialize (Hx Hk). unfold direct_ok, relay_ok in Hx. split_and!; auto.
    + intros (H1 & H2 & H3 & H4 & H5 & H6 & H7 & l & Hl & Hid & Hs & Hd & Ht & Hx).
      assert (rt_route_kind r ∈ ["direct_tcp_connect"; "direct_p2p_tcp"; "relay_tls_client"]%string) as Hk.
      { destruct Hx as [[Hk _]|[-> _]]; set_solver. }
      split_and!; auto. exists l. unfold direct_ok, relay_ok. split_and!; auto.
  - intros l. rewrite app_nil_iff, push_if_nil, !orb_false_iff, !negb_false_iff, !String.eqb_eq.
    destruct (one_of (rt_route_kind r) ["direct_tcp_connect"; "direct_p2p_tcp"]) eqn:K.
    + apply one_of_true in K. rewrite direct_route_nil.
      assert (rt_route_kind r ≠ "relay_tls_client"%string) by (intros E; rewrite E in K; set_solver).
      assert (rt_route_kind r ∈ ["direct_tcp_connect"; "direct_p2p_tcp"; "relay_tls_client"]%string) by set_solver.
      tauto.
    + apply not_true_iff_false in K. rewrite one_of_true in K.
      destruct (String.eqb_spec (rt_route_kind r) "relay_tls_client") as [E|E].
      * rewrite relay_route_nil.
        assert (rt_route_kind r ∈ ["direct_tcp_connect"; "direct_p2p_tcp"; "relay_tls_client"]%string) by set_solver.
        tauto.
      * assert (rt_route_kind r ∉ ["direct_tcp_connect"; "direct_p2p_tcp"; "relay_tls_client"]%string) by set_solver.
        tauto.
Qed.

Lemma routes_nil routes : lanes ≠ [] →
  validate_transport_routes routes lanes (bt_collect ep_device_id endpoints) = [] ↔
  NoDup (rt_lane_id <$> routes) ∧ Forall (route_wf lanes endpoints) routes ∧
  (∀ l, l ∈ lanes → lane_lane_id l ∈ rt_lane_id <$> routes).
Proof.
  intros Hne. unfold validate_transport_routes. cbv zeta.
  rewrite !app_nil_iff, push_if_nil, unique_by_nil, concat_nil, andb_false_iff, bool_decide_eq_false,
    negb_false_iff, bool_decide_eq_true.
  assert (Forall (fun r => validate_route_text r = [] ∧
            validate_route (bt_collect lane_lane_id lanes) (bt_collect ep_device_id endpoints) r = []) routes ↔
          Forall (route_wf lanes endpoints) routes) as ->.
  { apply Forall_iff. intros r. apply route_nil. }
  assert (Forall (fun r => rt_lane_id r ∉ (∅ : gset string)) routes) as He.
  { apply Forall_true. intros b. set_solver. }
  setoid_rewrite push_if_nil. setoid_rewrite negb_false_iff. setoid_rewrite bool_decide_eq_true.
  setoid_rewrite elem_of_list_to_set. rewrite (Forall_forall _ lanes).
  split; [tauto|]. intros (H1 & H2 & H3). split_and!; auto. left. intros ->.
  destruct lanes as [|l ls]; [done|]. specialize (H3 l ltac:(set_solver)). set_solver.
Qed.

End Routes.
