(* ===== verification/MediaPlan.v ===== *)
(** * Media stream: topologies and the whole plan

    The topology rules, which read devices in key order, and the refinement
    theorem for [validate_media_stream_session]. *)

From S2P Require Import Prelude RustStr OrdMap MediaModel MediaValidation MediaSpec MediaRefinement.
From Stdlib Require Import Sorting.Sorted.

Local Open Scope N_scope.

(** ** Iteration in key order *)

Section Order.
Context {A : Type} (key : A → string).

Lemma bt_insert_keyed k v (m : btree A) : key v = k → Forall (fun kv => key kv.2 = kv.1) m →
  Forall (fun kv => key kv.2 = kv.1) (bt_insert k v m).
Proof.
  intros Hk Hm. apply Forall_forall. intros x [->|Hx]%bt_insert_keys; [done|].
  rewrite Forall_forall in Hm. auto.
Qed.

Lemma bt_collect_keyed l : Forall (fun kv => key kv.2 = kv.1) (bt_collect key l).
Proof.
  unfold bt_collect. assert (Forall (fun kv => key kv.2 = kv.1) ([] : btree A)) as H by constructor.
  revert H. generalize ([] : btree A). induction l as [|x l IH]; cbn; auto using bt_insert_keyed.
Qed.

Lemma values_sorted (m : btree A) : bt_sorted m → Forall (fun kv => key kv.2 = kv.1) m →
  StronglySorted (fun x y => str_lt (key x) (key y)) (bt_values m).
Proof.
  unfold bt_sorted, bt_values. induction 1 as [|[k v] m Hm IH Hx]; intros Hk; cbn; [constructor|].
  apply Forall_cons in Hk as [Hv Hk]. constructor; [auto|].
  rewrite Forall_fmap. apply Forall_forall. intros [k' v'] Hin. rewrite Forall_forall in Hx, Hk.
  specialize (Hx _ Hin). specialize (Hk _ Hin). cbn in *. unfold str_lt. by rewrite Hv, Hk.
Qed.

Lemma filter_sorted (R : A → A → Prop) p l : StronglySorted R l → StronglySorted R (List.filter p l).
Proof.
  induction 1 as [|x l Hl IH Hx]; cbn; [constructor|]. destruct (p x); [|done].
  constructor; [done|]. rewrite Forall_forall in *. intros y Hy. apply Hx.
  apply list_elem_of_In in Hy. apply List.filter_In in Hy as [Hy _]. by apply list_elem_of_In.
Qed.

Lemma fmap_sorted l : StronglySorted (fun x y => str_lt (key x) (key y)) l → StronglySorted str_lt (key <$> l).
Proof.
  induction 1 as [|x l Hl IH Hx]; cbn; constructor; [done|]. by rewrite Forall_fmap.
Qed.

End Order.

Lemma str_lt_irrefl a : ¬ str_lt a a.
Proof. unfold str_lt. by rewrite string_compare_refl. Qed.

Lemma str_lt_asym a b : str_lt a b → ¬ str_lt b a.
Proof. unfold str_lt. rewrite String.compare_antisym. intros H1 H2. by rewrite H2 in H1. Qed.

(** The first and the first two elements of a strictly sorted list. *)
Lemma sorted_first l a : StronglySorted str_lt l →
  (∃ rest, l = a :: rest) ↔ a ∈ l ∧ ∀ x, x ∈ l → x = a ∨ str_lt a x.
Proof.
  intros Hs. destruct Hs as [|x l Hl Hx]; [set_solver|]. rewrite Forall_forall in Hx. split.
  - intros [rest [= -> ->]]. split; [set_solver|]. intros y Hy. set_unfold. destruct Hy; auto.
  - intros [Ha Hmin]. exists l. f_equal. destruct (Hmin x) as [->|Hlt]; [set_solver|done|].
    set_unfold. destruct Ha as [->|Ha]; [done|]. destruct (str_lt_asym a x); auto.
Qed.

Lemma sorted_first_two l a b : StronglySorted str_lt l →
  (∃ rest, l = a :: b :: rest) ↔
  a ∈ l ∧ b ∈ l ∧ str_lt a b ∧ ∀ x, x ∈ l → x = a ∨ x = b ∨ str_lt b x.
Proof.
  intros Hs. split.
  - intros [rest ->]. apply StronglySorted_inv in Hs as [Hs Ha]. rewrite Forall_forall in Ha.
    apply StronglySorted_inv in Hs as [_ Hb]. rewrite Forall_forall in Hb.
    split; [set_solver|]. split; [set_solver|]. split; [apply Ha; set_solver|].
    intros x Hx. set_unfold. destruct Hx as [|[|]]; auto.
  - intros (Ha & Hb & Hab & Hmin).
    assert (∃ rest, l = a :: rest) as [rest ->].
    { apply sorted_first; [done|]. split; [done|]. intros x Hx.
      destruct (Hmin x Hx) as [->|[->|H]]; auto. right.
      unfold str_lt in *. by eapply string_compare_lt_trans. }
    apply StronglySorted_inv in Hs as [Hs Hx]. rewrite Forall_forall in Hx.
    destruct (proj2 (sorted_first rest b Hs)) as [rest' ->]; [|eauto].
    split; [set_unfold; destruct Hb as [->|]; [by destruct (str_lt_irrefl a)|done]|].
    intros x Hin. destruct (Hmin x) as [->|[->|H]]; [set_solver| |auto..].
    destruct (str_lt_irrefl a). by apply Hx.
Qed.

(** ** Topologies *)

Section Topology.
Context (plan : MediaStreamSessionPlan).
Context (Hdev : NoDup (dev_device_id <$> pl_devices plan)).
Context (Hsrc : NoDup (src_source_id <$> pl_sources plan)).
Let devices := bt_collect dev_device_id (pl_devices plan).
Let sources := bt_collect src_source_id (pl_sources plan).

Lemma ids_sorted kind : StronglySorted str_lt (device_ids_of_kind kind devices).
Proof.
  unfold device_ids_of_kind. apply (fmap_sorted dev_device_id), filter_sorted, values_sorted.
  - apply bt_collect_sorted.
  - apply bt_collect_keyed.
Qed.

Lemma ids_elem kind id : id ∈ device_ids_of_kind kind devices ↔ device_kind_of plan id kind.
Proof.
  unfold device_ids_of_kind, device_kind_of. rewrite list_elem_of_fmap.
  split.
  - intros (d & -> & Hd). apply list_elem_of_In, List.filter_In in Hd as [Hd Hk].
    apply list_elem_of_In, (bt_collect_values dev_device_id _ _ Hdev) in Hd. apply String.eqb_eq in Hk. eauto.
  - intros (d & Hd & <- & Hk). exists d. split; [done|]. apply list_elem_of_In, List.filter_In.
    split; [|by apply String.eqb_eq]. by apply list_elem_of_In, (bt_collect_values dev_device_id _ _ Hdev).
Qed.

Lemma kind_is_iff kind id : kind_is kind (bt_get id devices) = true ↔ device_kind_of plan id kind.
Proof.
  unfold kind_is, device_kind_of. destruct (bt_get id devices) as [d|] eqn:E.
  - pose proof E as [Hd Hid]%bt_collect_get; [|done]. rewrite String.eqb_eq. split; [eauto|].
    intros (d' & Hd' & Hid' & Hk). assert (bt_get id devices = Some d') as E2 by (by apply bt_collect_get).
    congruence.
  - split; [done|]. intros (d' & Hd' & Hid' & Hk).
    assert (bt_get id devices = Some d') as E2 by (by apply bt_collect_get). congruence.
Qed.

Lemma source_test_iff id (p : MediaStreamSource → bool) (P : MediaStreamSource → Prop) :
  (∀ s, p s = true ↔ P s) →
  match bt_get id sources with Some s => p s | None => false end = true ↔
  ∃ s, s ∈ pl_sources plan ∧ src_source_id s = id ∧ P s.
Proof.
  intros Hp. destruct (bt_get id sources) as [s|] eqn:E.
  - pose proof E as [Hs Hid]%bt_collect_get; [|done]. rewrite Hp. split; [eauto|].
    intros (s' & Hs' & Hid' & Hk). assert (bt_get id sources = Some s') as E2 by (by apply bt_collect_get).
    congruence.
  - split; [done|]. intros (s' & Hs' & Hid' & Hk).
    assert (bt_get id sources = Some s') as E2 by (by apply bt_collect_get). congruence.
Qed.

Lemma existsb_lanes (p : MediaStreamLane → bool) (P : MediaStreamLane → Prop) m :
  (∀ l, p l = true ↔ P l) →
  push_if (negb (existsb p (pl_lanes plan))) m = [] ↔ ∃ l, l ∈ pl_lanes plan ∧ P l.
Proof.
  intros Hp. rewrite push_if_nil, negb_false_iff, existsb_exists. setoid_rewrite Hp.
  by setoid_rewrite list_elem_of_In.
Qed.

Lemma lane_between_iff a b : has_lane_between plan a b = true ↔ lane_between plan a b.
Proof.
  unfold has_lane_between, lane_between. rewrite existsb_exists. setoid_rewrite andb_true_iff.
  setoid_rewrite andb_true_iff. setoid_rewrite String.eqb_eq. setoid_rewrite list_elem_of_In. naive_solver.
Qed.

Lemma to_pc_nil (p : MediaStreamSource → bool) (P : MediaStreamSource → Prop) m :
  (∀ s, p s = true ↔ P s) →
  push_if (negb (existsb (fun lane =>
      kind_is "quest" (bt_get (lane_source_device_id lane) devices) &&
      kind_is "windows_pc" (bt_get (lane_sink_device_id lane) devices) &&
      match bt_get (lane_source_id lane) sources with Some source => p source | None => false end)
    (pl_lanes plan))) m = [] ↔
  ∃ l, l ∈ pl_lanes plan ∧ lane_kinds plan "quest" "windows_pc" P l.
Proof.
  intros Hp. apply existsb_lanes. intros l. unfold lane_kinds.
  rewrite !andb_true_iff, !kind_is_iff, (source_test_iff _ p P Hp). tauto.
Qed.

Lemma filter_all {A} (p : A → bool) l : length (List.filter p l) = length l ↔ Forall (fun x => p x = true) l.
Proof.
  induction l as [|x l IH]; cbn; [by split|]. rewrite Forall_cons. pose proof (List.filter_length_le p l).
  destruct (p x); cbn; [rewrite <- IH; intuition lia|]. split; [lia|by intros [? _]].
Qed.

Lemma renderer_nil : validate_quest_app_renderer plan devices sources = [] ↔
  pl_lanes plan ≠ [] ∧
  Forall (fun l => lane_kinds plan "quest" "quest" (fun s => src_capture_route s ∈
      ["display-composite"; "camera2-mediacodec-surface"]%string) l ∧
    lane_source_device_id l ≠ lane_sink_device_id l) (pl_lanes plan).
Proof.
  unfold validate_quest_app_renderer. cbv zeta.
  rewrite push_if_nil, orb_false_iff, negb_false_iff, N.eqb_eq, N.eqb_neq. unfold len.
  rewrite Nat2N.inj_iff, filter_all.
  assert (∀ l, renderer_lane devices sources l = true ↔
    lane_kinds plan "quest" "quest" (fun s => src_capture_route s ∈
      ["display-composite"; "camera2-mediacodec-surface"]%string) l ∧
    lane_source_device_id l ≠ lane_sink_device_id l) as Hl.
  { intros l. unfold renderer_lane, lane_kinds. rewrite !andb_true_iff, !kind_is_iff, negb_true_iff, String.eqb_neq.
    rewrite (source_test_iff _ (fun s => one_of (src_capture_route s) _)
      (fun s => src_capture_route s ∈ ["display-composite"; "camera2-mediacodec-surface"]%string));
      [tauto|]. intros s. apply one_of_true. }
  rewrite (Forall_iff (fun l => renderer_lane devices sources l = true) _ _ Hl).
  split; intros [H1 H2]; [split; [|done]|].
  - intros E. rewrite E in H2. by cbn in H2.
  - split; [done|]. destruct (pl_lanes plan) as [|l ls]; [done|].
    assert (length (List.filter (renderer_lane devices sources) (l :: ls)) = length (l :: ls)) as ->; [|cbn; lia].
    apply filter_all. eapply Forall_impl; [exact H2|]. intros x. apply Hl.
Qed.

Lemma two_way_nil : validate_quest_to_quest_two_way plan devices = [] ↔
  ∃ a b, lowest_two plan "quest" a b ∧ lane_between plan a b ∧ lane_between plan b a.
Proof.
  unfold validate_quest_to_quest_two_way, lowest_two. setoid_rewrite <- ids_elem.
  pose proof (ids_sorted "quest") as Hs.
  set (ids := device_ids_of_kind "quest" devices) in *. clearbody ids.
  assert (∀ a b, (a ∈ ids ∧ b ∈ ids ∧ str_lt a b ∧ (∀ x, x ∈ ids → x = a ∨ x = b ∨ str_lt b x)) ↔
    ∃ rest, ids = a :: b :: rest) as E by (intros a b; symmetry; by apply sorted_first_two).
  setoid_rewrite E. clear E Hs. destruct ids as [|a [|b rest]]; [naive_solver..|].
  rewrite push_if_nil, orb_false_iff, !negb_false_iff, !lane_between_iff. naive_solver.
Qed.

Lemma duplex_nil : validate_quest_android_phone_duplex plan devices = [] ↔
  ∃ q p, lowest plan "quest" q ∧ lowest plan "android_phone" p ∧ lane_between plan q p ∧ lane_between plan p q.
Proof.
  unfold validate_quest_android_phone_duplex, lowest. setoid_rewrite <- ids_elem.
  pose proof (ids_sorted "quest") as Hq. pose proof (ids_sorted "android_phone") as Hp.
  set (qs := device_ids_of_kind "quest" devices) in *.
  set (ps := device_ids_of_kind "android_phone" devices) in *. clearbody qs ps.
  assert (∀ a, (a ∈ qs ∧ ∀ x, x ∈ qs → x = a ∨ str_lt a x) ↔ ∃ rest, qs = a :: rest) as E1
    by (intros a; symmetry; by apply sorted_first).
  assert (∀ a, (a ∈ ps ∧ ∀ x, x ∈ ps → x = a ∨ str_lt a x) ↔ ∃ rest, ps = a :: rest) as E2
    by (intros a; symmetry; by apply sorted_first).
  setoid_rewrite E1. setoid_rewrite E2. clear E1 E2 Hq Hp.
  destruct qs as [|q qs], ps as [|p ps]; [naive_solver..|].
  rewrite app_nil_iff, !push_if_nil, !negb_false_iff, !lane_between_iff. naive_solver.
Qed.

(** The topology rules are selected by pairwise different names. *)
Lemma topology_nil : validate_topology plan devices sources = [] ↔ topology_wf plan.
Proof.
  unfold validate_topology, topology_wf. cbv zeta.
  unfold validate_quest_display_to_pc, validate_quest_camera_to_pc.
  set (renderers := ["quest_display_to_native_renderer"; "quest_display_to_spatial_camera_panel";
                     "quest_camera_to_spatial_camera_panel"]%string).
  assert ("quest_display_to_pc"%string ∉ renderers ∧ "quest_camera_to_pc"%string ∉ renderers ∧
    "quest_to_quest_two_way"%string ∉ renderers ∧ "quest_android_phone_duplex"%string ∉ renderers ∧
    "diagnostic_loopback"%string ∉ renderers) as (N1 & N2 & N3 & N4 & N5) by (unfold renderers; set_solver).
  destruct (String.eqb_spec (pl_topology_id plan) "quest_display_to_pc") as [->|E1].
  { rewrite (to_pc_nil _ _ _ (fun s => one_of_true (src_source_kind s) _)). intuition discriminate. }
  destruct (String.eqb_spec (pl_topology_id plan) "quest_camera_to_pc") as [->|E2].
  { rewrite (to_pc_nil _ _ _ (fun s => String.eqb_eq (src_source_kind s) _)). intuition discriminate. }
  destruct (String.eqb_spec (pl_topology_id plan) "quest_to_quest_two_way") as [->|E3].
  { rewrite two_way_nil. intuition discriminate. }
  destruct (one_of (pl_topology_id plan) renderers) eqn:E4.
  { apply one_of_true in E4. rewrite renderer_nil.
    assert (pl_topology_id plan ≠ "quest_android_phone_duplex"%string) by congruence.
    assert (pl_topology_id plan ≠ "diagnostic_loopback"%string) by congruence. tauto. }
  apply not_true_iff_false in E4. rewrite one_of_true in E4.
  destruct (String.eqb_spec (pl_topology_id plan) "quest_android_phone_duplex") as [->|E5].
  { rewrite duplex_nil. intuition discriminate. }
  destruct (String.eqb_spec (pl_topology_id plan) "diagnostic_loopback") as [E|E6]; [tauto|].
  split; [done|tauto].
Qed.

End Topology.

(** ** The whole plan *)

Lemma no_contains {A} (key : A → string) (l : list A) :
  Forall (fun x => bt_contains (key x) ([] : btree A) = false) l.
Proof. by apply Forall_true. Qed.

Lemma devices_nil devices :
  (validate_devices devices).2 = bt_collect dev_device_id devices ∧
  ((validate_devices devices).1 = [] ↔
   devices ≠ [] ∧ NoDup (dev_device_id <$> devices) ∧ Forall device_wf devices).
Proof.
  unfold validate_devices.
  pose proof (index_by_index dev_device_id validate_device
    (fun device => "duplicate device_id " ++ dev_device_id device)%string (fun _ => []) [] devices) as Hm.
  pose proof (index_by_nil dev_device_id validate_device
    (fun device => "duplicate device_id " ++ dev_device_id device)%string (fun _ => []) [] devices) as He.
  destruct (index_by _ _ _ _ _ devices) as [es m]. cbn in *. split; [done|].
  rewrite app_nil_iff, push_if_nil, bool_decide_eq_false, He.
  pose proof (no_contains dev_device_id devices).
  assert (Forall (fun x => validate_device x = [] ∧ @nil ValidationError = []) devices ↔
          Forall device_wf devices) as ->.
  { apply Forall_iff. intros d. rewrite device_nil. tauto. }
  tauto.
Qed.

Lemma sources_nil devices sources : NoDup (dev_device_id <$> devices) →
  (validate_sources sources (bt_collect dev_device_id devices)).2 = bt_collect src_source_id sources ∧
  ((validate_sources sources (bt_collect dev_device_id devices)).1 = [] ↔
   sources ≠ [] ∧ NoDup (src_source_id <$> sources) ∧ Forall (source_wf devices) sources).
Proof.
  intros Hd. unfold validate_sources.
  pose proof (index_by_index src_source_id (validate_source (bt_collect dev_device_id devices))
    (fun source => "duplicate source_id " ++ src_source_id source)%string (fun _ => []) [] sources) as Hm.
  pose proof (index_by_nil src_source_id (validate_source (bt_collect dev_device_id devices))
    (fun source => "duplicate source_id " ++ src_source_id source)%string (fun _ => []) [] sources) as He.
  destruct (index_by _ _ _ _ _ sources) as [es m]. cbn in *. split; [done|].
  rewrite app_nil_iff, push_if_nil, bool_decide_eq_false, He.
  pose proof (no_contains src_source_id sources).
  assert (Forall (fun x => validate_source (bt_collect dev_device_id devices) x = [] ∧
            @nil ValidationError = []) sources ↔ Forall (source_wf devices) sources) as ->.
  { apply Forall_iff. intros s. rewrite source_nil by done. tauto. }
  tauto.
Qed.

Lemma endpoints_nil devices sources lanes endpoints :
  NoDup (dev_device_id <$> devices) → NoDup (src_source_id <$> sources) →
  (validate_runtime_endpoints endpoints (bt_collect dev_device_id devices)
     (bt_collect src_source_id sources) lanes).2 = bt_collect ep_device_id endpoints ∧
  ((validate_runtime_endpoints endpoints (bt_collect dev_device_id devices)
      (bt_collect src_source_id sources) lanes).1 = [] ↔
   NoDup (ep_device_id <$> endpoints) ∧ Forall (endpoint_wf devices sources lanes) endpoints).
Proof.
  intros Hd Hs. unfold validate_runtime_endpoints. split; [apply index_by_index|].
  rewrite index_by_nil. pose proof (no_contains ep_device_id endpoints).
  rewrite <- (Forall_iff _ _ _ (endpoint_nil devices Hd sources Hs lanes)). tauto.
Qed.

Lemma lanes_nil devices sources lanes :
  NoDup (dev_device_id <$> devices) → NoDup (src_source_id <$> sources) →
  validate_lanes lanes (bt_collect dev_device_id devices) (bt_collect src_source_id sources) = [] ↔
  lanes ≠ [] ∧ NoDup (lane_lane_id <$> lanes) ∧ Forall (lane_wf devices sources) lanes.
Proof.
  intros Hd Hs. unfold validate_lanes. rewrite app_nil_iff, push_if_nil, bool_decide_eq_false, unique_by_nil.
  assert (Forall (fun l => lane_lane_id l ∉ (∅ : gset string)) lanes).
  { apply Forall_true. intros l. set_solver. }
  rewrite <- (Forall_iff _ _ _ (lane_nil devices Hd sources Hs)). tauto.
Qed.

Lemma coverage_nil devices endpoints :
  NoDup (dev_device_id <$> devices) → NoDup (ep_device_id <$> endpoints) →
  validate_runtime_endpoint_coverage (bt_collect dev_device_id devices) (bt_collect ep_device_id endpoints) = [] ↔
  ∀ id, media_device devices id → id ∈ ep_device_id <$> endpoints.
Proof.
  intros Hd He. unfold validate_runtime_endpoint_coverage, media_device. rewrite concat_nil, Forall_forall.
  setoid_rewrite (bt_collect_values dev_device_id _ _ Hd). setoid_rewrite push_if_nil.
  setoid_rewrite andb_false_iff. setoid_rewrite negb_false_iff. setoid_rewrite String.eqb_eq.
  setoid_rewrite (bt_collect_contains ep_device_id _ _ He). split.
  - intros H id (d & Hin & <- & Hk). destruct (H d Hin); [done|done].
  - intros H d Hin. destruct (decide (dev_device_kind d = "relay"%string)); [auto|]. right. apply H. eauto.
Qed.

Lemma binding_coverage_nil sources endpoints :
  NoDup (src_source_id <$> sources) → NoDup (ep_device_id <$> endpoints) →
  validate_source_binding_coverage (bt_collect src_source_id sources) (bt_collect ep_device_id endpoints) = [] ↔
  ∀ s e, s ∈ sources → e ∈ endpoints → ep_device_id e = src_device_id s →
    src_source_id s ∈ sb_source_id <$> ep_source_bindings e.
Proof.
  intros Hs He. unfold validate_source_binding_coverage. rewrite concat_nil, Forall_forall.
  setoid_rewrite (bt_collect_values src_source_id _ _ Hs). split.
  - intros H s e Hin Hep Hid. specialize (H s Hin).
    assert (bt_get (src_device_id s) (bt_collect ep_device_id endpoints) = Some e) as E by (by apply bt_collect_get).
    rewrite E in H. by rewrite push_if_nil, negb_false_iff, existsb_fmap, bool_decide_eq_true in H.
  - intros H s Hin. destruct (bt_get _ _) as [e|] eqn:E; [|done].
    apply bt_collect_get in E as [Hep Hid]; [|done].
    rewrite push_if_nil, negb_false_iff, existsb_fmap, bool_decide_eq_true. by eapply H.
Qed.

Lemma privacy_nil plan : validate_privacy_tier plan = [] ↔
  pl_privacy_tier plan ∈
      [PRIVACY_LOCAL_LAN_DIAGNOSTIC; PRIVACY_TRUSTED_RELAY_ENCRYPTED; PRIVACY_E2EE_CANDIDATE] ∧
    (pl_privacy_tier plan ≠ PRIVACY_LOCAL_LAN_DIAGNOSTIC →
       Forall (fun l => tr_encryption_required (lane_transport l) = true) (pl_lanes plan)).
Proof.
  unfold validate_privacy_tier. rewrite app_nil_iff, !push_if_nil, not_one_of, andb_false_iff, negb_false_iff,
    String.eqb_eq.
  assert (existsb (fun lane => negb (tr_encryption_required (lane_transport lane))) (pl_lanes plan) = false ↔
          Forall (fun l => tr_encryption_required (lane_transport l) = true) (pl_lanes plan)) as ->.
  { induction (pl_lanes plan) as [|l ls IH]; cbn; [by split|].
    by rewrite orb_false_iff, negb_false_iff, Forall_cons, IH. }
  destruct (decide (pl_privacy_tier plan = PRIVACY_LOCAL_LAN_DIAGNOSTIC)); tauto.
Qed.

(** The validator accepts exactly the well-formed plans. *)
Lemma session_errors_nil plan : media_stream_session_errors plan = [] ↔ plan_wf plan.
Proof.
  unfold media_stream_session_errors.
  destruct (devices_nil (pl_devices plan)) as [Edev Hdev].
  destruct (validate_devices (pl_devices plan)) as [des dm]. cbn in Edev, Hdev. subst dm.
  destruct (decide (NoDup (dev_device_id <$> pl_devices plan))) as [Nd|Nd].
  2: { destruct (validate_sources _ _), (validate_runtime_endpoints _ _ _ _).
       rewrite !app_nil_iff. split; [tauto|]. intros W. destruct (pw_devices _ W) as (_ & ? & _). done. }
  destruct (sources_nil (pl_devices plan) (pl_sources plan) Nd) as [Esrc Hsrc].
  destruct (validate_sources _ _) as [ses sm]. cbn in Esrc, Hsrc. subst sm.
  destruct (decide (NoDup (src_source_id <$> pl_sources plan))) as [Ns|Ns].
  2: { destruct (validate_runtime_endpoints _ _ _ _).
       rewrite !app_nil_iff. split; [tauto|]. intros W. destruct (pw_sources _ W) as (_ & ? & _). done. }
  destruct (endpoints_nil (pl_devices plan) (pl_sources plan) (pl_lanes plan) (pl_runtime_endpoints plan) Nd Ns)
    as [Eep Hep].
  destruct (validate_runtime_endpoints _ _ _ _) as [ees em]. cbn in Eep, Hep. subst em.
  rewrite !app_nil_iff, !required_nil, push_if_nil, negb_false_iff, String.eqb_eq, privacy_nil, security_nil,
    Hdev, Hsrc, Hep, (lanes_nil _ _ _ Nd Ns), observability_nil, (topology_nil plan Nd Ns).
  split.
  - intros (_ & Hsid & _ & Hsch & Hpr & Hsec & Hd & Hs & Hl & He & Hcov & Hbc & Hr & Ht & Ho).
    destruct He as [Ne He]. pose proof Hl as (Hne & Nl & _).
    rewrite coverage_nil in Hcov by done. rewrite binding_coverage_nil in Hbc by done.
    rewrite routes_nil in Hr by done. by constructor.
  - intros [[Hsch Hsid] Hpr Hsec Hd Hs Hl [Ne He] [Hcov Hbc] Hr Ht Ho]. pose proof Hl as (Hne & Nl & _).
    rewrite coverage_nil, binding_coverage_nil, routes_nil by done.
    assert (nonblank (pl_topology_id plan)) as Hblank.
    { unfold topology_wf in Ht.
      repeat match type of Ht with _ ∨ _ => destruct Ht as [Ht|Ht] end;
        lazymatch type of Ht with _ ∧ _ => destruct Ht as [Ht _] | _ => idtac end;
        first [by rewrite Ht | by eapply nonblank_in]. }
    assert (nonblank (pl_schema plan)) by (by rewrite Hsch). tauto.
Qed.
