(* ===== verification/P2pRoute.v ===== *)
(** * Direct-P2P socket routes

    crates/rusty-quest-device-link/src/direct_p2p_socket_authority.rs: the
    contract of a Rusty-owned direct TCP route over Wi-Fi Direct. *)

From S2P Require Import Prelude RustStr MediaModel MediaSpec.

Local Open Scope N_scope.

Definition DIRECT_P2P_SOCKET_ROUTE_SCHEMA : string := "rusty.quest.direct_p2p_socket_route.v1".
Definition DIRECT_P2P_ROUTE_KIND : string := "direct_p2p_tcp".
Definition RUSTY_DIRECT_P2P_SOCKET_AUTHORITY : string := "rusty_direct_p2p_socket_authority".
Definition RUSTY_OWNED_SOCKET_SCOPE : string := "rusty_owned_sockets_only".
Definition QUEST_DIRECT_P2P_INTERFACE : string := "p2p0".

Record DirectP2pSocketRoute := mkP2pRoute {
  p2p_schema : string;
  p2p_route_id : string;
  p2p_route_kind : string;
  p2p_socket_authority : string;
  p2p_socket_scope : string;
  p2p_expected_interface : string;
  p2p_local_bind_host : string;
  p2p_peer_host : string;
  p2p_peer_port : N;
  p2p_android_network_required : bool;
}.

(** [Ipv4Addr] as its four octets. *)
Record Ipv4Addr := mkIpv4 { oct0 : N; oct1 : N; oct2 : N; oct3 : N }.

#[global] Instance ipv4_eq_dec : EqDecision Ipv4Addr.
Proof. solve_decision. Defined.

Record ValidatedDirectP2pSocketRoute := mkValidatedP2p {
  vp_local_bind_ipv4 : Ipv4Addr;
  vp_peer_ipv4 : Ipv4Addr;
  vp_peer_port : N;
}.

(** ** [str::parse::<Ipv4Addr>()]

    Four decimal numbers of one to three digits without a superfluous leading
    zero, each at most 255, separated by dots. *)
Definition parse_octet (s : string) : option N :=
  if str_is_empty s || (3 <? str_len s) || negb (all_bytes is_ascii_digit s) ||
     ((1 <? str_len s) && starts_with_byte 48 s)
  then None
  else
    let value := fold_left (fun acc d => acc * 10 + (d - 48)) (str_bytes s) 0 in
    if value <=? 255 then Some value else None.

Definition parse_ipv4 (s : string) : option Ipv4Addr :=
  match split_on 46 s with
  | [a; b; c; d] =>
      a ← parse_octet a; b ← parse_octet b; c ← parse_octet c; d ← parse_octet d;
      Some (mkIpv4 a b c d)
  | _ => None
  end.

(** ** The contract *)

Definition is_supported_direct_p2p_ipv4 (address : Ipv4Addr) : bool :=
  (oct0 address =? 192) && (oct1 address =? 168) &&
  ((oct2 address =? 49) || (oct2 address =? 137)) &&
  negb ((oct3 address =? 0) || (oct3 address =? 255)).

Definition parse_supported_p2p_ipv4 (route_id field value : string)
    : list ValidationError * option Ipv4Addr :=
  if is_blank value then ([("direct P2P route " ++ route_id ++ " requires " ++ field)%string], None)
  else match parse_ipv4 value with
  | None =>
      ([("direct P2P route " ++ route_id ++ " " ++ field ++ " must be a concrete IPv4 address")%string], None)
  | Some address =>
      if negb (is_supported_direct_p2p_ipv4 address)
      then ([("direct P2P route " ++ route_id ++ " " ++ field ++
              " must be a supported P2P IPv4 address")%string], None)
      else ([], Some address)
  end.

Definition is_safe_route_id (value : string) : bool :=
  (1 <=? str_len value) && (str_len value <=? 64) &&
  all_bytes (fun b => is_ascii_alphanumeric b || (b =? 46) || (b =? 95) || (b =? 45)) value.

Definition p2p_pair_errors (route_id : string) (local peer : option Ipv4Addr) : list ValidationError :=
  match local, peer with
  | Some local, Some peer =>
      push_if (negb ((oct0 local =? oct0 peer) && (oct1 local =? oct1 peer) && (oct2 local =? oct2 peer)))
        ("direct P2P route " ++ route_id ++ " local and peer addresses must share an IPv4 /24") ++
      push_if (bool_decide (local = peer))
        ("direct P2P route " ++ route_id ++ " local and peer addresses must differ")
  | _, _ => []
  end.

Definition validate_direct_p2p_socket_route (route : DirectP2pSocketRoute)
    : result (list ValidationError) ValidatedDirectP2pSocketRoute :=
  let id := p2p_route_id route in
  let '(local_errors, local) := parse_supported_p2p_ipv4 id "local_bind_host" (p2p_local_bind_host route) in
  let '(peer_errors, peer) := parse_supported_p2p_ipv4 id "peer_host" (p2p_peer_host route) in
  let errors :=
    push_if (negb (p2p_schema route =? DIRECT_P2P_SOCKET_ROUTE_SCHEMA)%string)
      "direct P2P socket route schema is unsupported" ++
    push_if (negb (is_safe_route_id id))
      "direct P2P socket route_id must be a 1..=64 character safe token" ++
    push_if (negb (p2p_route_kind route =? DIRECT_P2P_ROUTE_KIND)%string)
      ("direct P2P route " ++ id ++ " route_kind must be " ++ DIRECT_P2P_ROUTE_KIND) ++
    push_if (negb (p2p_socket_authority route =? RUSTY_DIRECT_P2P_SOCKET_AUTHORITY)%string)
      ("direct P2P route " ++ id ++ " requires socket_authority " ++ RUSTY_DIRECT_P2P_SOCKET_AUTHORITY) ++
    push_if (negb (p2p_socket_scope route =? RUSTY_OWNED_SOCKET_SCOPE)%string)
      ("direct P2P route " ++ id ++ " socket authority must remain scoped to Rusty-owned sockets") ++
    push_if (negb (p2p_expected_interface route =? QUEST_DIRECT_P2P_INTERFACE)%string)
      ("direct P2P route " ++ id ++ " expected_interface must be " ++ QUEST_DIRECT_P2P_INTERFACE) ++
    push_if (p2p_android_network_required route)
      ("direct P2P route " ++ id ++ " must not require or claim an Android Network substitution") ++
    push_if (p2p_peer_port route =? 0)
      ("direct P2P route " ++ id ++ " peer_port must be nonzero") ++
    local_errors ++ peer_errors ++ p2p_pair_errors id local peer in
  match errors with
  | _ :: _ => Err errors
  | [] =>
      match local, peer with
      | Some local_bind_ipv4, Some peer_ipv4 =>
          Ok (mkValidatedP2p local_bind_ipv4 peer_ipv4 (p2p_peer_port route))
      | _, _ => Err ["direct P2P route address validation did not produce parsed addresses"%string]
      end
  end.

(** ** Specification *)

(** An address of a supported Wi-Fi Direct subnet that is neither its network
    nor its broadcast address. *)
Definition p2p_address (a : Ipv4Addr) : Prop :=
  oct0 a = 192 ∧ oct1 a = 168 ∧ (oct2 a = 49 ∨ oct2 a = 137) ∧ oct3 a ≠ 0 ∧ oct3 a ≠ 255.

Record p2p_route_valid (r : DirectP2pSocketRoute) (v : ValidatedDirectP2pSocketRoute) : Prop := {
  pv_identity : p2p_schema r = DIRECT_P2P_SOCKET_ROUTE_SCHEMA ∧ is_safe_route_id (p2p_route_id r) = true ∧
    p2p_route_kind r = DIRECT_P2P_ROUTE_KIND;
  pv_authority : p2p_socket_authority r = RUSTY_DIRECT_P2P_SOCKET_AUTHORITY ∧
    p2p_socket_scope r = RUSTY_OWNED_SOCKET_SCOPE ∧ p2p_expected_interface r = QUEST_DIRECT_P2P_INTERFACE ∧
    p2p_android_network_required r = false;
  pv_local : parse_ipv4 (p2p_local_bind_host r) = Some (vp_local_bind_ipv4 v) ∧ p2p_address (vp_local_bind_ipv4 v);
  pv_peer : parse_ipv4 (p2p_peer_host r) = Some (vp_peer_ipv4 v) ∧ p2p_address (vp_peer_ipv4 v);
  pv_subnet : oct2 (vp_local_bind_ipv4 v) = oct2 (vp_peer_ipv4 v) ∧
    oct3 (vp_local_bind_ipv4 v) ≠ oct3 (vp_peer_ipv4 v);
  pv_port : vp_peer_port v = p2p_peer_port r ∧ p2p_peer_port r ≠ 0;
}.

Lemma supported_iff a : is_supported_direct_p2p_ipv4 a = true ↔ p2p_address a.
Proof.
  unfold is_supported_direct_p2p_ipv4, p2p_address.
  rewrite !andb_true_iff, negb_true_iff, orb_true_iff, orb_false_iff, !N.eqb_eq, !N.eqb_neq. tauto.
Qed.

(** ** A text that parses as an address is not blank *)

Lemma parse_ipv4_nonblank s a : parse_ipv4 s = Some a → is_blank s = false.
Proof.
  unfold parse_ipv4. intros H.
  assert (∃ o0 l v, split_on 46 s = o0 :: l ∧ parse_octet o0 = Some v) as (o0 & l & v & E & Hv).
  { destruct (split_on 46 s) as [|o0 [|o1 [|o2 [|o3 [|]]]]]; try done.
    destruct (parse_octet o0) eqn:Eo; [by do 3 eexists|done]. }
  unfold parse_octet in Hv. destruct o0 as [|x o0]; [done|].
  destruct (_ || _) eqn:G in Hv; [done|]. apply orb_false_iff in G as [G _].
  apply orb_false_iff in G as [_ G]. apply negb_false_iff in G. cbn in G. apply andb_true_iff in G as [G _].
  destruct s as [|y s]; [done|]. cbn in E. destruct (byte_of y =? 46); [done|].
  destruct (split_on 46 s); injection E as -> ?; by apply graphic_first_nonblank, digit_graphic.
Qed.

(** ** The validator against the specification *)

Lemma parse_supported_iff id field value a :
  parse_supported_p2p_ipv4 id field value = ([], Some a) ↔ parse_ipv4 value = Some a ∧ p2p_address a.
Proof.
  unfold parse_supported_p2p_ipv4. split.
  - destruct (is_blank value); [done|]. destruct (parse_ipv4 value) as [b|]; [|done].
    destruct (is_supported_direct_p2p_ipv4 b) eqn:S; [|done]. cbn. intros [= ->].
    split; [done|by apply supported_iff].
  - intros [Hp Ha]. rewrite (parse_ipv4_nonblank _ _ Hp), Hp. apply supported_iff in Ha as ->. done.
Qed.

Lemma parse_supported_cases id field value :
  (∃ a, parse_supported_p2p_ipv4 id field value = ([], Some a)) ∨
  (∃ e, parse_supported_p2p_ipv4 id field value = ([e], None)).
Proof.
  unfold parse_supported_p2p_ipv4. destruct (is_blank value); [eauto|].
  destruct (parse_ipv4 value) as [b|]; [|eauto]. destruct (is_supported_direct_p2p_ipv4 b); eauto.
Qed.

Lemma pair_nil id a b : p2p_address a → p2p_address b →
  p2p_pair_errors id (Some a) (Some b) = [] ↔ oct2 a = oct2 b ∧ oct3 a ≠ oct3 b.
Proof.
  intros (Ha0 & Ha1 & _) (Hb0 & Hb1 & _). unfold p2p_pair_errors.
  rewrite app_nil_iff, !push_if_nil, negb_false_iff, !andb_true_iff, !N.eqb_eq, bool_decide_eq_false.
  destruct a as [a0 a1 a2 a3], b as [b0 b1 b2 b3]. cbn in *. subst. split.
  - intros [[_ ->] Hne]. split; [done|]. congruence.
  - intros [-> Hne]. split; [done|]. congruence.
Qed.

Lemma p2p_route_iff r v : validate_direct_p2p_socket_route r = Ok v ↔ p2p_route_valid r v.
Proof.
  unfold validate_direct_p2p_socket_route. cbv zeta.
  set (id := p2p_route_id r).
  destruct (parse_supported_cases id "local_bind_host" (p2p_local_bind_host r)) as [[a Ea]|[e Ee]].
  2: { rewrite Ee. destruct (parse_supported_p2p_ipv4 id "peer_host" _) as [pe pa].
       split.
       - match goal with |- match ?l with _ => _ end = _ → _ => destruct l eqn:El; [|done] end.
         exfalso. rewrite !app_nil_iff in El. naive_solver.
       - intros W. destruct (pv_local _ _ W) as [H1 H2].
         assert (parse_supported_p2p_ipv4 id "local_bind_host" (p2p_local_bind_host r) = ([], Some _))
           as E2 by (apply parse_supported_iff; split; [exact H1|exact H2]). rewrite Ee in E2. done. }
  destruct (parse_supported_cases id "peer_host" (p2p_peer_host r)) as [[b Eb]|[e Ee]].
  2: { rewrite Ea, Ee. split.
       - match goal with |- match ?l with _ => _ end = _ → _ => destruct l eqn:El; [|done] end.
         exfalso. rewrite !app_nil_iff in El. naive_solver.
       - intros W. destruct (pv_peer _ _ W) as [H1 H2].
         assert (parse_supported_p2p_ipv4 id "peer_host" (p2p_peer_host r) = ([], Some _))
           as E2 by (apply parse_supported_iff; split; [exact H1|exact H2]). rewrite Ee in E2. done. }
  rewrite Ea, Eb. apply parse_supported_iff in Ea as [Pa Sa]. apply parse_supported_iff in Eb as [Pb Sb].
  pose proof (pair_nil id a b Sa Sb) as Hpair.
  match goal with |- match ?l with _ => _ end = _ ↔ _ =>
    assert (l = [] ↔ (p2p_schema r = DIRECT_P2P_SOCKET_ROUTE_SCHEMA ∧ is_safe_route_id id = true ∧
      p2p_route_kind r = DIRECT_P2P_ROUTE_KIND) ∧ (p2p_socket_authority r = RUSTY_DIRECT_P2P_SOCKET_AUTHORITY ∧
      p2p_socket_scope r = RUSTY_OWNED_SOCKET_SCOPE ∧ p2p_expected_interface r = QUEST_DIRECT_P2P_INTERFACE ∧
      p2p_android_network_required r = false) ∧ p2p_peer_port r ≠ 0 ∧ oct2 a = oct2 b ∧ oct3 a ≠ oct3 b) as Hl;
    [|destruct l eqn:El] end.
  - rewrite !app_nil_iff, Hpair, !push_if_nil, !negb_false_iff, !String.eqb_eq, N.eqb_neq. tauto.
  - destruct (proj1 Hl eq_refl) as (H1 & H2 & H3 & H4). split.
    + intros [= <-]. by constructor.
    + intros W. destruct v as [va vb vp]. destruct (pv_local _ _ W) as [L1 _], (pv_peer _ _ W) as [L2 _],
        (pv_port _ _ W) as [L3 _]. cbn in *. congruence.
  - split; [done|]. intros W. destruct v as [va vb vp]. destruct W as [W1 W2 [W3 _] [W4 _] W5 [W6 W7]]. cbn in *.
    assert (va = a ∧ vb = b) as [-> ->] by (split; congruence).
    assert (v0 :: l = []) as E0 by (apply Hl; auto). done.
Qed.

(** A rejected route always reports at least one error. *)
Lemma p2p_err_nonempty r : validate_direct_p2p_socket_route r ≠ Err [].
Proof.
  unfold validate_direct_p2p_socket_route. cbv zeta.
  destruct (parse_supported_p2p_ipv4 _ _ (p2p_local_bind_host r)) as [le la].
  destruct (parse_supported_p2p_ipv4 _ _ (p2p_peer_host r)) as [pe pa].
  match goal with |- match ?l with _ => _ end ≠ _ => destruct l; [|done] end.
  by destruct la, pa.
Qed.
