(* ===== verification/MediaRuntime.v ===== *)
(** * Media stream: runtime composition and lifecycle

    crates/rusty-quest-media-stream/src/runtime.rs, the owner selection rules
    of product_runtime.rs and the recovery harness of failure_recovery.rs. *)

From S2P Require Import Prelude RustStr OrdMap MediaModel MediaValidation P2pRoute.

Local Open Scope N_scope.
Local Open Scope string_scope.
Local Notation "l +++ k" := (app l k) (at level 60, right associativity).

Definition MEDIA_STREAM_RUNTIME_SPEC_SCHEMA : string := "rusty.quest.media_stream_runtime_spec.v1".
Definition MEDIA_STREAM_RUNTIME_STATE_SCHEMA : string := "rusty.quest.media_stream_runtime_state.v1".
Definition MEDIA_STREAM_RUNTIME_DECISION_SCHEMA : string := "rusty.quest.media_stream_runtime_decision.v1".
Definition MEDIA_STREAM_RUNTIME_AUTHORITY : string := "rusty_quest_media_stream_session_runtime".
Definition REMOTE_CAMERA_COMPATIBILITY_ADAPTER : string := "remote_camera_compatibility".

(** ** Composition *)

Record MediaStreamProcessorDescriptor := mkProcessor {
  prc_processor_id : string;
  prc_processor_kind : string;
  prc_input_track_roles : list string;
  prc_output_track_roles : list string;
  prc_owns_codec : bool;
  prc_cpu_pixel_copy : bool;
  prc_application_policy_fields : list string;
}.

Record MediaStreamSinkDescriptor := mkSink {
  snk_sink_id : string;
  snk_device_id : string;
  snk_sink_kind : string;
  snk_required_permissions : list string;
  snk_application_policy_fields : list string;
}.

Record MediaStreamLaneRuntimeBinding := mkLaneBinding {
  lb_lane_id : string;
  lb_processor_ids : list string;
  lb_sink_id : string;
}.

Record MediaStreamDirectP2pRouteBinding := mkP2pBinding {
  db_lane_id : string;
  db_route : DirectP2pSocketRoute;
}.

Inductive MediaStreamOwnerKind :=
  | OwnSource | OwnProcessor | OwnRoute | OwnSocket | OwnCodec | OwnSink | OwnCleanup.

#[global] Instance owner_kind_eq_dec : EqDecision MediaStreamOwnerKind.
Proof. solve_decision. Defined.

(** The derived order is the order of declaration. *)
Definition owner_kind_index (k : MediaStreamOwnerKind) : N :=
  match k with
  | OwnSource => 0 | OwnProcessor => 1 | OwnRoute => 2 | OwnSocket => 3 | OwnCodec => 4
  | OwnSink => 5 | OwnCleanup => 6
  end.

Definition owner_kind_of_index (n : N) : MediaStreamOwnerKind :=
  match n with
  | 0 => OwnSource | 1 => OwnProcessor | 2 => OwnRoute | 3 => OwnSocket | 4 => OwnCodec
  | 5 => OwnSink | _ => OwnCleanup
  end.

#[global] Instance owner_kind_countable : Countable MediaStreamOwnerKind.
Proof. apply (inj_countable' owner_kind_index owner_kind_of_index). by intros []. Defined.

(** [{kind:?}]. *)
Definition owner_kind_debug (k : MediaStreamOwnerKind) : string :=
  match k with
  | OwnSource => "Source" | OwnProcessor => "Processor" | OwnRoute => "Route" | OwnSocket => "Socket"
  | OwnCodec => "Codec" | OwnSink => "Sink" | OwnCleanup => "Cleanup"
  end.

Record MediaStreamOwnerSelection := mkOwner {
  own_owner_kind : MediaStreamOwnerKind;
  own_owner_id : string;
  own_resource_id : string;
  own_lane_id : option string;
  own_provider_kind : string;
}.

(** Derived [Ord] on the fields in order; [None] sorts before [Some]. *)
Definition lane_key (lane : option string) : list string :=
  match lane with None => ["0"] | Some lane => ["1"; lane] end.

Definition compare_selection (a b : MediaStreamOwnerSelection) : comparison :=
  match N.compare (owner_kind_index (own_owner_kind a)) (owner_kind_index (own_owner_kind b)) with
  | Eq =>
      match String.compare (own_owner_id a) (own_owner_id b) with
      | Eq =>
          match String.compare (own_resource_id a) (own_resource_id b) with
          | Eq =>
              match lex_compare (lane_key (own_lane_id a)) (lane_key (own_lane_id b)) with
              | Eq => String.compare (own_provider_kind a) (own_provider_kind b)
              | c => c
              end
          | c => c
          end
      | c => c
      end
  | c => c
  end.

Record MediaStreamRuntimeSpec := mkRuntimeSpec {
  rsp_schema : string;
  rsp_runtime_spec_id : string;
  rsp_manifold_session_revision : N;
  rsp_plan : MediaStreamSessionPlan;
  rsp_processors : list MediaStreamProcessorDescriptor;
  rsp_sinks : list MediaStreamSinkDescriptor;
  rsp_lane_bindings : list MediaStreamLaneRuntimeBinding;
  rsp_direct_p2p_routes : list MediaStreamDirectP2pRouteBinding;
  rsp_owner_selections : list MediaStreamOwnerSelection;
  rsp_compatibility_adapter_id : option string;
}.

(** ** Processors *)

Record MediaStreamProcessorConformanceReceipt := mkProcessorReceipt {
  pcr_processor_id : string;
  pcr_processor_kind : string;
  pcr_role_shape_valid : bool;
  pcr_codec_owner_external : bool;
  pcr_application_policy_absent : bool;
}.

Definition role_shape_valid (processor : MediaStreamProcessorDescriptor) : bool :=
  let kind := prc_processor_kind processor in
  let input := prc_input_track_roles processor in
  let output := prc_output_track_roles processor in
  if kind =? "passthrough_h264" then bool_decide (input = output) && (len input =? 1)%N
  else if kind =? "dual_lane_independent"
  then bool_decide (input = ["left"; "right"]) && bool_decide (output = ["left"; "right"])
  else if kind =? "packed_sbs_left_right"
  then bool_decide (input = ["left"; "right"]) && bool_decide (output = ["stereo"]) &&
       negb (prc_cpu_pixel_copy processor)
  else false.

Definition validate_media_stream_processor (processor : MediaStreamProcessorDescriptor)
    : result ValidationError MediaStreamProcessorConformanceReceipt :=
  let shape := role_shape_valid processor in
  fail_if (negb shape || prc_owns_codec processor ||
           negb (bool_decide (prc_application_policy_fields processor = [])))
    "processor ownership or role shape is invalid" ;;
  Ok (mkProcessorReceipt (prc_processor_id processor) (prc_processor_kind processor) shape true true).

(** ** Owner selections *)

(** [windows(2).all(|pair| pair[0] < pair[1])]. *)
Fixpoint strictly_sorted (l : list MediaStreamOwnerSelection) : bool :=
  match l with
  | a :: (b :: _) as rest => match compare_selection a b with Lt => true | _ => false end && strictly_sorted rest
  | _ => true
  end.

Definition names_remote_camera (value : string) : bool :=
  contains_str "remote_camera" value || contains_str "remote-camera" value.

Definition validate_owner_selection (spec : MediaStreamRuntimeSpec)
    (selected_resources : gset (MediaStreamOwnerKind * string)) (selection : MediaStreamOwnerSelection)
    : list ValidationError :=
  push_if (is_blank (own_owner_id selection) || is_blank (own_resource_id selection) ||
           is_blank (own_provider_kind selection))
    "owner selections require owner, resource, and provider identities" +++
  push_if (bool_decide ((own_owner_kind selection, own_resource_id selection) ∈ selected_resources))
    "each owner kind may select a product resource exactly once" +++
  push_if (bool_decide (own_owner_kind selection = OwnCleanup) &&
           (negb (own_resource_id selection =? rsp_runtime_spec_id spec) ||
            bool_decide (is_Some (own_lane_id selection))))
    "cleanup owner must bind the runtime spec and no lane" +++
  push_if (negb (bool_decide (own_owner_kind selection = OwnCleanup)) &&
           match own_lane_id selection with Some lane => str_is_empty lane | None => false end)
    "owner lane id must not be empty" +++
  push_if (bool_decide (rsp_compatibility_adapter_id spec = None) &&
           (names_remote_camera (own_owner_id selection) || names_remote_camera (own_provider_kind selection)))
    "generic media owner selections must not inherit remote-camera identities".

Definition select_resource (selection : MediaStreamOwnerSelection)
    (selected : gmap MediaStreamOwnerKind (gset string)) : gmap MediaStreamOwnerKind (gset string) :=
  <[own_owner_kind selection :=
      {[ own_resource_id selection ]} ∪ default ∅ (selected !! own_owner_kind selection)]> selected.

(** The loop over the selections: errors and the map [selected]. *)
Fixpoint owner_loop (spec : MediaStreamRuntimeSpec) (selected : gmap MediaStreamOwnerKind (gset string))
    (selected_resources : gset (MediaStreamOwnerKind * string)) (l : list MediaStreamOwnerSelection)
    : list ValidationError * gmap MediaStreamOwnerKind (gset string) :=
  match l with
  | [] => ([], selected)
  | selection :: rest =>
      let '(errors, selected') :=
        owner_loop spec (select_resource selection selected)
          ({[ (own_owner_kind selection, own_resource_id selection) ]} ∪ selected_resources) rest in
      (validate_owner_selection spec selected_resources selection +++ errors, selected')
  end.

Definition expected_resources (spec : MediaStreamRuntimeSpec) (k : MediaStreamOwnerKind) : gset string :=
  match k with
  | OwnSource => list_to_set (src_source_id <$> pl_sources (rsp_plan spec))
  | OwnProcessor => list_to_set (prc_processor_id <$> rsp_processors spec)
  | OwnRoute | OwnSocket => list_to_set (rt_lane_id <$> pl_transport_routes (rsp_plan spec))
  | OwnCodec => list_to_set (lane_lane_id <$> pl_lanes (rsp_plan spec))
  | OwnSink => list_to_set (snk_sink_id <$> rsp_sinks spec)
  | OwnCleanup => {[ rsp_runtime_spec_id spec ]}
  end.

Definition owner_kinds : list MediaStreamOwnerKind :=
  [OwnSource; OwnProcessor; OwnRoute; OwnSocket; OwnCodec; OwnSink; OwnCleanup].

(** The seven entries of the map, in key order. *)
Definition expected_owner_resources (spec : MediaStreamRuntimeSpec)
    : list (MediaStreamOwnerKind * gset string) :=
  (fun k => (k, expected_resources spec k)) <$> owner_kinds.

Definition validate_media_stream_owner_selections (spec : MediaStreamRuntimeSpec) : list ValidationError :=
  let '(errors, selected) := owner_loop spec ∅ ∅ (rsp_owner_selections spec) in
  push_if (negb (strictly_sorted (rsp_owner_selections spec)))
    "owner selections must be a strict canonical sorted set" +++
  errors +++
  mjoin ((fun '(kind, resources) =>
    push_if (negb (bool_decide (selected !! kind = Some resources)))
      (owner_kind_debug kind ++ " owner resources do not exactly cover the selected product"))
    <$> expected_owner_resources spec) +++
  push_if (negb (bool_decide (size selected = 7%nat)))
    "source, processor, route, socket, codec, sink, and cleanup owners are required" +++
  match rsp_compatibility_adapter_id spec with
  | Some adapter =>
      push_if (negb (adapter =? REMOTE_CAMERA_COMPATIBILITY_ADAPTER))
        "unknown media compatibility adapter identity"
  | None => []
  end.


(** ** The runtime specification *)

(** Errors and the set [seen]; a blank value is reported and not inserted. *)
Fixpoint collect_unique (label : string) (seen : gset string) (values : list string)
    : list ValidationError * gset string :=
  match values with
  | [] => ([], seen)
  | value :: rest =>
      let message := label ++ " must be nonempty and unique" in
      if is_blank value then
        let '(errors, seen') := collect_unique label seen rest in (message :: errors, seen')
      else
        let '(errors, seen') := collect_unique label ({[ value ]} ∪ seen) rest in
        (push_if (bool_decide (value ∈ seen)) message +++ errors, seen')
  end.

Definition validate_sink (plan_devices : gset string) (sink : MediaStreamSinkDescriptor)
    : list ValidationError :=
  push_if (is_blank (snk_sink_kind sink) || negb (bool_decide (snk_device_id sink ∈ plan_devices)))
    ("sink " ++ snk_sink_id sink ++ " must name a plan device and sink kind") +++
  push_if (negb (bool_decide (snk_application_policy_fields sink = [])))
    ("sink " ++ snk_sink_id sink ++ " contains application policy").

(** The loop over [lane_bindings]: errors and the set [bound_lanes]. *)
Fixpoint lane_binding_loop (lane_ids sinks processors bound : gset string)
    (l : list MediaStreamLaneRuntimeBinding) : list ValidationError * gset string :=
  match l with
  | [] => ([], bound)
  | binding :: rest =>
      let '(errors, bound') :=
        lane_binding_loop lane_ids sinks processors ({[ lb_lane_id binding ]} ∪ bound) rest in
      (push_if (bool_decide (lb_lane_id binding ∈ bound) ||
                negb (bool_decide (lb_lane_id binding ∈ lane_ids)))
         ("lane runtime binding " ++ lb_lane_id binding ++ " is duplicate or unknown") +++
       push_if (negb (bool_decide (lb_sink_id binding ∈ sinks)))
         ("lane " ++ lb_lane_id binding ++ " references unknown sink") +++
       mjoin ((fun processor_id =>
         push_if (negb (bool_decide (processor_id ∈ processors)))
           ("lane " ++ lb_lane_id binding ++ " references unknown processor"))
         <$> lb_processor_ids binding) +++ errors, bound')
  end.

(** The arm guard on the plan route of the lane. *)
Definition route_matches (route_map : btree MediaStreamTransportRoute)
    (binding : MediaStreamDirectP2pRouteBinding) : bool :=
  match bt_get (db_lane_id binding) route_map with
  | Some plan_route =>
      (rt_connect_host plan_route =? p2p_peer_host (db_route binding)) &&
      (rt_connect_port plan_route =? p2p_peer_port (db_route binding))%N
  | None => false
  end.

Definition validate_p2p_binding (route_map : btree MediaStreamTransportRoute) (direct_lanes : gset string)
    (binding : MediaStreamDirectP2pRouteBinding) : list ValidationError :=
  push_if (bool_decide (db_lane_id binding ∈ direct_lanes)) "direct-P2P lane binding is duplicated" +++
  push_if (negb (route_matches route_map binding))
    ("direct-P2P route for lane " ++ db_lane_id binding ++ " must match the plan peer endpoint") +++
  match validate_direct_p2p_socket_route (db_route binding) with
  | Ok _ => []
  | Err route_errors => route_errors
  end.

Fixpoint p2p_binding_loop (route_map : btree MediaStreamTransportRoute) (direct_lanes : gset string)
    (l : list MediaStreamDirectP2pRouteBinding) : list ValidationError :=
  match l with
  | [] => []
  | binding :: rest =>
      validate_p2p_binding route_map direct_lanes binding +++
      p2p_binding_loop route_map ({[ db_lane_id binding ]} ∪ direct_lanes) rest
  end.

Definition runtime_spec_errors (spec : MediaStreamRuntimeSpec) : list ValidationError :=
  let plan := rsp_plan spec in
  let '(processor_errors, processor_map) :=
    collect_unique "processor_id" ∅ (prc_processor_id <$> rsp_processors spec) in
  let '(sink_errors, sink_map) := collect_unique "sink_id" ∅ (snk_sink_id <$> rsp_sinks spec) in
  let plan_devices : gset string := list_to_set (dev_device_id <$> pl_devices plan) in
  let lane_ids : gset string := list_to_set (lane_lane_id <$> pl_lanes plan) in
  let '(binding_errors, bound_lanes) :=
    lane_binding_loop lane_ids sink_map processor_map ∅ (rsp_lane_bindings spec) in
  let route_map := bt_collect rt_lane_id (pl_transport_routes plan) in
  push_if (negb (rsp_schema spec =? MEDIA_STREAM_RUNTIME_SPEC_SCHEMA))
    "unsupported media runtime spec schema" +++
  push_if (is_blank (rsp_runtime_spec_id spec) || (rsp_manifold_session_revision spec =? 0)%N)
    "runtime spec requires identity and an accepted Manifold decision revision" +++
  match validate_media_stream_session plan with Ok _ => [] | Err plan_errors => plan_errors end +++
  processor_errors +++
  mjoin ((fun processor =>
    push_if (negb (is_ok (validate_media_stream_processor processor)))
      ("processor " ++ prc_processor_id processor ++ " failed conformance")) <$> rsp_processors spec) +++
  sink_errors +++
  mjoin (validate_sink plan_devices <$> rsp_sinks spec) +++
  binding_errors +++
  push_if (negb (bool_decide (size bound_lanes = size lane_ids)))
    "every media lane requires exactly one runtime binding" +++
  p2p_binding_loop route_map ∅ (rsp_direct_p2p_routes spec) +++
  validate_media_stream_owner_selections spec.

Definition validate_media_stream_runtime_spec (spec : MediaStreamRuntimeSpec)
    : result (list ValidationError) unit :=
  match runtime_spec_errors spec with [] => Ok tt | errors => Err errors end.

(** ** Source conformance *)

Record MediaStreamSourceConformanceReceipt := mkSourceReceipt {
  scr_source_id : string;
  scr_source_kind : string;
  scr_capture_authority : string;
  scr_camera_permission_required : bool;
  scr_consent_required : bool;
  scr_permission_or_profile_bleed : bool;
}.

Definition validate_media_stream_source_conformance (plan : MediaStreamSessionPlan) (source_id : string)
    : result (list ValidationError) MediaStreamSourceConformanceReceipt :=
  validate_media_stream_session plan ;;
  source ← ok_or (List.find (fun source => src_source_id source =? source_id) (pl_sources plan))
             ["source conformance id is unknown"] ;
  Ok (mkSourceReceipt (src_source_id source) (src_source_kind source) (src_capture_authority source)
        (bool_decide (is_Some (src_camera source))) (src_consent_required source) false).
