(* ===== verification/MediaComposition.v ===== *)
(** * Media stream: what an accepted runtime specification guarantees

    A declarative contract for [validate_media_stream_runtime_spec] and the
    proof that the validator decides it. *)

From S2P Require Import Prelude RustStr OrdMap MediaModel MediaValidation MediaSpec MediaPlan P2pRoute.
From S2P Require Import MediaRuntime.
From Stdlib Require Import Sorting.Sorted.

Local Open Scope N_scope.

(** ** Contract *)

Definition selection_lt (a b : MediaStreamOwnerSelection) : Prop := compare_selection a b = Lt.

(** The resources a product has for each kind of owner. *)
Definition resource_ids (spec : MediaStreamRuntimeSpec) (k : MediaStreamOwnerKind) : list string :=
  match k with
  | OwnSource => src_source_id <$> pl_sources (rsp_plan spec)
  | OwnProcessor => prc_processor_id <$> rsp_processors spec
  | OwnRoute | OwnSocket => rt_lane_id <$> pl_transport_routes (rsp_plan spec)
  | OwnCodec => lane_lane_id <$> pl_lanes (rsp_plan spec)
  | OwnSink => snk_sink_id <$> rsp_sinks spec
  | OwnCleanup => [rsp_runtime_spec_id spec]
  end.

(** The resources the selections of one kind name. *)
Definition selected_ids (k : MediaStreamOwnerKind) (l : list MediaStreamOwnerSelection) : list string :=
  own_resource_id <$> filter (fun s => own_owner_kind s = k) l.

Definition selection_wf (spec : MediaStreamRuntimeSpec) (s : MediaStreamOwnerSelection) : Prop :=
  nonblank (own_owner_id s) ∧ nonblank (own_resource_id s) ∧ nonblank (own_provider_kind s) ∧
  (own_owner_kind s = OwnCleanup → own_lane_id s = None) ∧
  (own_owner_kind s ≠ OwnCleanup → own_lane_id s ≠ Some EmptyString) ∧
  (rsp_compatibility_adapter_id spec = None →
     names_remote_camera (own_owner_id s) = false ∧ names_remote_camera (own_provider_kind s) = false).

(** Every resource of the product has exactly one owner of its kind. *)
Record owners_wf (spec : MediaStreamRuntimeSpec) : Prop := {
  ow_sorted : StronglySorted selection_lt (rsp_owner_selections spec);
  ow_each : Forall (selection_wf spec) (rsp_owner_selections spec);
  ow_cover : ∀ k, resource_ids spec k ≠ [] ∧ selected_ids k (rsp_owner_selections spec) ≡ₚ resource_ids spec k;
  ow_adapter : ∀ a, rsp_compatibility_adapter_id spec = Some a → a = REMOTE_CAMERA_COMPATIBILITY_ADAPTER;
}.

Definition processor_wf (p : MediaStreamProcessorDescriptor) : Prop :=
  prc_owns_codec p = false ∧ prc_application_policy_fields p = [] ∧
  ((prc_processor_kind p = "passthrough_h264"%string ∧
      ∃ role, prc_input_track_roles p = [role] ∧ prc_output_track_roles p = [role]) ∨
   (prc_processor_kind p = "dual_lane_independent"%string ∧
      prc_input_track_roles p = ["left"; "right"]%string ∧
      prc_output_track_roles p = ["left"; "right"]%string) ∨
   (prc_processor_kind p = "packed_sbs_left_right"%string ∧
      prc_input_track_roles p = ["left"; "right"]%string ∧
      prc_output_track_roles p = ["stereo"]%string ∧ prc_cpu_pixel_copy p = false)).

Definition p2p_binding_wf (plan : MediaStreamSessionPlan) (b : MediaStreamDirectP2pRouteBinding) : Prop :=
  (∃ r, r ∈ pl_transport_routes plan ∧ rt_lane_id r = db_lane_id b ∧
     rt_connect_host r = p2p_peer_host (db_route b) ∧ rt_connect_port r = p2p_peer_port (db_route b)) ∧
  ∃ v, p2p_route_valid (db_route b) v.

Record runtime_spec_wf (spec : MediaStreamRuntimeSpec) : Prop := {
  rw_head : rsp_schema spec = MEDIA_STREAM_RUNTIME_SPEC_SCHEMA ∧ nonblank (rsp_runtime_spec_id spec) ∧
    rsp_manifold_session_revision spec ≠ 0;
  rw_plan : plan_wf (rsp_plan spec);
  rw_processors : NoDup (prc_processor_id <$> rsp_processors spec) ∧
    Forall (fun p => nonblank (prc_processor_id p) ∧ processor_wf p) (rsp_processors spec);
  rw_sinks : NoDup (snk_sink_id <$> rsp_sinks spec) ∧
    Forall (fun s => nonblank (snk_sink_id s) ∧ nonblank (snk_sink_kind s) ∧
      snk_device_id s ∈ dev_device_id <$> pl_devices (rsp_plan spec) ∧
      snk_application_policy_fields s = []) (rsp_sinks spec);
  (** Exactly one binding per lane. *)
  rw_bindings : (lb_lane_id <$> rsp_lane_bindings spec) ≡ₚ (lane_lane_id <$> pl_lanes (rsp_plan spec)) ∧
    Forall (fun b => lb_sink_id b ∈ snk_sink_id <$> rsp_sinks spec ∧
      Forall (fun p => p ∈ prc_processor_id <$> rsp_processors spec) (lb_processor_ids b))
      (rsp_lane_bindings spec);
  rw_direct : NoDup (db_lane_id <$> rsp_direct_p2p_routes spec) ∧
    Forall (p2p_binding_wf (rsp_plan spec)) (rsp_direct_p2p_routes spec);
  rw_owners : owners_wf spec;
}.

(** ** The order on selections *)

Definition kind_key (k : MediaStreamOwnerKind) : string :=
  match k with
  | OwnSource => "0" | OwnProcessor => "1" | OwnRoute => "2" | OwnSocket => "3" | OwnCodec => "4"
  | OwnSink => "5" | OwnCleanup => "6"
  end%string.

Definition selection_key (s : MediaStreamOwnerSelection) : list string :=
  [kind_key (own_owner_kind s); own_owner_id s; own_resource_id s] ++
  lane_key (own_lane_id s) ++ [own_provider_kind s].

Lemma compare_selection_lex a b : compare_selection a b = lex_compare (selection_key a) (selection_key b).
Proof.
  unfold compare_selection, selection_key. cbn [lex_compare app].
  assert (String.compare (kind_key (own_owner_kind a)) (kind_key (own_owner_kind b)) =
          N.compare (owner_kind_index (own_owner_kind a)) (owner_kind_index (own_owner_kind b))) as ->.
  { by destruct (own_owner_kind a), (own_owner_kind b). }
  destruct (N.compare _ _); [|done..].
  destruct (String.compare (own_owner_id a) _); [|done..].
  destruct (String.compare (own_resource_id a) _); [|done..].
  destruct (own_lane_id a) as [la|], (own_lane_id b) as [lb|]; cbn; try done.
  - destruct (String.compare la lb); [|done..]. by destruct (String.compare _ _).
  - by destruct (String.compare _ _).
Qed.

Lemma selection_lt_trans : Relations_1.Transitive selection_lt.
Proof.
  intros a b c. unfold selection_lt. rewrite !compare_selection_lex. apply lex_compare_lt_trans.
Qed.

Lemma strictly_sorted_iff l : strictly_sorted l = true ↔ StronglySorted selection_lt l.
Proof.
  trans (Sorted selection_lt l).
  - induction l as [|a [|b l] IH]; [split; [by constructor|done]|split; [by repeat constructor|done]|].
    change (strictly_sorted (a :: b :: l)) with
      (match compare_selection a b with Lt => true | _ => false end && strictly_sorted (b :: l)).
    rewrite andb_true_iff, IH. split.
    + intros [Hab Hl]. constructor; [done|]. constructor. unfold selection_lt.
      by destruct (compare_selection a b).
    + intros Hs. apply Sorted_inv in Hs as [Hl Hab]. split; [|done].
      apply HdRel_inv in Hab. unfold selection_lt in Hab. by rewrite Hab.
  - split; [|apply StronglySorted_Sorted]. apply Sorted_StronglySorted, selection_lt_trans.
Qed.

(** ** Owner coverage *)

Lemma owner_loop_selected spec sel res l k :
  (owner_loop spec sel res l).2 !! k =
  match selected_ids k l with
  | [] => sel !! k
  | ids => Some (list_to_set ids ∪ default ∅ (sel !! k))
  end.
Proof.
  revert sel res. induction l as [|s l IH]; intros sel res; [done|]. cbn [owner_loop].
  specialize (IH (select_resource s sel) ({[ (own_owner_kind s, own_resource_id s) ]} ∪ res)).
  destruct (owner_loop _ _ _ l) as [es m]. cbn [snd] in *. rewrite IH. clear IH.
  unfold selected_ids, select_resource. rewrite filter_cons.
  destruct (decide (own_owner_kind s = k)) as [<-|Hk].
  - rewrite lookup_insert_eq. cbn [fmap list_fmap].
    destruct (own_resource_id <$> filter _ l) as [|i ids] eqn:E; cbn [list_to_set default]; f_equal; set_solver.
  - rewrite lookup_insert_ne by done. done.
Qed.

Lemma selection_nil spec res s :
  validate_owner_selection spec res s = [] ↔
  (selection_wf spec s ∧ (own_owner_kind s = OwnCleanup → own_resource_id s = rsp_runtime_spec_id spec)) ∧
  (own_owner_kind s, own_resource_id s) ∉ res.
Proof.
  unfold validate_owner_selection, selection_wf, nonblank.
  rewrite !app_nil_iff, !push_if_nil, !orb_false_iff, !andb_false_iff, !orb_false_iff, !negb_false_iff,
    !bool_decide_eq_false, bool_decide_eq_true, String.eqb_eq.
  assert (match own_lane_id s with Some lane => str_is_empty lane | None => false end = false ↔
          own_lane_id s ≠ Some EmptyString) as ->.
  { destruct (own_lane_id s) as [[]|]; cbn; split; congruence. }
  assert (¬ is_Some (own_lane_id s) ↔ own_lane_id s = None) as -> by (rewrite <- eq_None_not_Some; done).
  destruct (decide (own_owner_kind s = OwnCleanup)), (decide (rsp_compatibility_adapter_id spec = None)); tauto.
Qed.

Definition selection_pair (s : MediaStreamOwnerSelection) : MediaStreamOwnerKind * string :=
  (own_owner_kind s, own_resource_id s).

Lemma owner_loop_nil spec sel res l :
  (owner_loop spec sel res l).1 = [] ↔
  Forall (fun s => selection_wf spec s ∧
    (own_owner_kind s = OwnCleanup → own_resource_id s = rsp_runtime_spec_id spec)) l ∧
  NoDup (selection_pair <$> l) ∧ Forall (fun s => selection_pair s ∉ res) l.
Proof.
  revert sel res. induction l as [|s l IH]; intros sel res; cbn.
  { split; [repeat constructor|done]. }
  specialize (IH (select_resource s sel) ({[ selection_pair s ]} ∪ res)). unfold selection_pair at 1 in IH.
  destruct (owner_loop _ _ _ l) as [es m]. cbn [fst] in *.
  rewrite app_nil_iff, selection_nil, IH, !Forall_cons, NoDup_cons.
  setoid_rewrite not_elem_of_union. setoid_rewrite not_elem_of_singleton.
  fold (selection_pair s). generalize (selection_wf spec). intros P.
  rewrite list_elem_of_fmap, !Forall_forall. clear IH. split.
  - intros [[[Hs Hs'] Hn] (Hl & Hd & Hf)]. split_and!; auto.
    + intros (y & E & Hy). by destruct (Hf y Hy).
    + intros y Hy. by apply Hf.
  - intros ([[Hs Hs'] Hl] & [Hy Hd] & Hn & Hf). split_and!; auto. intros y Hin. split; [|auto].
    intros E. apply Hy. by exists y.
Qed.

Lemma selected_ids_elem k l r : r ∈ selected_ids k l ↔ (k, r) ∈ selection_pair <$> l.
Proof.
  unfold selected_ids, selection_pair. rewrite !list_elem_of_fmap. setoid_rewrite list_elem_of_filter.
  split; [intros (s & -> & <- & Hs); by exists s|]. intros (s & [= -> ->] & Hs). by exists s.
Qed.

Lemma selected_ids_NoDup k l : NoDup (selection_pair <$> l) → NoDup (selected_ids k l).
Proof.
  induction l as [|s l IH]; [constructor|]. rewrite fmap_cons, NoDup_cons. intros [Hs Hd].
  unfold selected_ids. rewrite filter_cons. destruct (decide _) as [<-|]; [|by apply IH].
  cbn. apply NoDup_cons. split; [|by apply IH].
  change (own_resource_id s ∉ selected_ids (own_owner_kind s) l). by rewrite selected_ids_elem.
Qed.

Lemma selected_pairs_NoDup l : (∀ k, NoDup (selected_ids k l)) → NoDup (selection_pair <$> l).
Proof.
  induction l as [|s l IH]; [constructor|]. intros H. rewrite fmap_cons. apply NoDup_cons. split.
  - specialize (H (own_owner_kind s)). unfold selected_ids in H. rewrite filter_cons_True in H by done.
    cbn in H. apply NoDup_cons in H as [H _].
    change (own_resource_id s ∉ selected_ids (own_owner_kind s) l) in H. by rewrite selected_ids_elem in H.
  - apply IH. intros k. specialize (H k). unfold selected_ids in *. rewrite filter_cons in H.
    destruct (decide _); [|done]. cbn in H. by apply NoDup_cons in H as [_ H].
Qed.

Lemma expected_resources_ids spec k : expected_resources spec k = list_to_set (resource_ids spec k).
Proof. destruct k; cbn; set_solver. Qed.

(** With distinct resources, covering them as a set by distinct selections is
    selecting each exactly once. *)
Lemma covers_iff spec l k : NoDup (resource_ids spec k) → NoDup (selected_ids k l) →
  (owner_loop spec ∅ ∅ l).2 !! k = Some (expected_resources spec k) ↔
  resource_ids spec k ≠ [] ∧ selected_ids k l ≡ₚ resource_ids spec k.
Proof.
  intros Hr Hs. rewrite owner_loop_selected, expected_resources_ids, lookup_empty. cbn [default].
  destruct (selected_ids k l) as [|i ids] eqn:E.
  - split; [done|]. intros [H1 H2]. by apply Permutation_nil_l in H2.
  - split.
    + intros [= H]. assert (i :: ids ≡ₚ resource_ids spec k) as Hp.
      { apply NoDup_Permutation; [done..|]. intros x. set_solver. }
      split; [|done]. intros E'. rewrite E' in Hp. by apply Permutation_nil_r in Hp.
    + intros [_ Hp]. f_equal. apply leibniz_equiv. rewrite <- Hp. set_solver.
Qed.

Lemma owner_kinds_all k : k ∈ owner_kinds.
Proof. unfold owner_kinds. destruct k; set_solver. Qed.

Lemma owner_kinds_NoDup : NoDup owner_kinds.
Proof. by apply (bool_decide_unpack (NoDup owner_kinds)). Qed.

Lemma size_all_kinds {A} (m : gmap MediaStreamOwnerKind A) : (∀ k, is_Some (m !! k)) → size m = 7%nat.
Proof.
  intros H. rewrite <- size_dom. change 7%nat with (length owner_kinds).
  rewrite <- (size_list_to_set (C := gset MediaStreamOwnerKind)) by apply owner_kinds_NoDup.
  f_equal. apply leibniz_equiv. intros k. rewrite elem_of_dom, elem_of_list_to_set.
  split; intros; [apply owner_kinds_all|apply H].
Qed.

Lemma adapter_nil o m :
  match o with Some adapter => push_if (negb (adapter =? REMOTE_CAMERA_COMPATIBILITY_ADAPTER)%string) m
  | None => [] end = [] ↔ ∀ a, o = Some a → a = REMOTE_CAMERA_COMPATIBILITY_ADAPTER.
Proof.
  destruct o as [a|]; [|split; [by intros _ a [=]|done]].
  rewrite push_if_nil, negb_false_iff, String.eqb_eq. split; [by intros -> a' [= <-]|auto].
Qed.

Lemma owner_coverage_nil spec (m : gmap MediaStreamOwnerKind (gset string)) (message : _ → string) :
  mjoin ((fun '(kind, resources) =>
    push_if (negb (bool_decide (m !! kind = Some resources))) (message kind))
    <$> expected_owner_resources spec) = [] ↔ ∀ k, m !! k = Some (expected_resources spec k).
Proof.
  rewrite concat_nil. unfold expected_owner_resources. rewrite Forall_fmap, Forall_forall. split.
  - intros H k. specialize (H k (owner_kinds_all k)). unfold compose in H.
    by rewrite push_if_nil, negb_false_iff, bool_decide_eq_true in H.
  - intros H k _. unfold compose. by rewrite push_if_nil, negb_false_iff, bool_decide_eq_true.
Qed.

Lemma owner_selections_nil spec : (∀ k, NoDup (resource_ids spec k)) →
  validate_media_stream_owner_selections spec = [] ↔ owners_wf spec.
Proof.
  intros Hr. unfold validate_media_stream_owner_selections.
  pose proof (owner_loop_nil spec ∅ ∅ (rsp_owner_selections spec)) as Hn.
  pose proof (fun k => covers_iff spec (rsp_owner_selections spec) k (Hr k)) as Hc.
  destruct (owner_loop spec ∅ ∅ (rsp_owner_selections spec)) as [es m]. cbn [fst snd] in *.
  rewrite !app_nil_iff, Hn, !push_if_nil, !negb_false_iff, strictly_sorted_iff, adapter_nil,
    owner_coverage_nil, bool_decide_eq_true.
  split.
  - intros (Hs & (Hw & Hd & _) & Hk & _ & Ha). constructor; [done| |intros k|done].
    + eapply Forall_impl; [exact Hw|]. cbn. by intros x [? _].
    + apply Hc; [by apply selected_ids_NoDup|]. apply Hk.
  - intros [Hs Hw Hcov Ha].
    assert (∀ k, NoDup (selected_ids k (rsp_owner_selections spec))) as Hd.
    { intros k. destruct (Hcov k) as [_ ->]. apply Hr. }
    assert (∀ k, m !! k = Some (expected_resources spec k)) as Hm by (intros k; by apply Hc).
    split_and!; auto.
    + apply Forall_forall. intros s Hin. rewrite Forall_forall in Hw. split; [auto|]. intros Ek.
      assert (own_resource_id s ∈ selected_ids OwnCleanup (rsp_owner_selections spec)) as Hx.
      { apply selected_ids_elem, list_elem_of_fmap. exists s. by rewrite <- Ek. }
      destruct (Hcov OwnCleanup) as [_ E]. rewrite E in Hx. cbn in Hx. set_solver.
    + by apply selected_pairs_NoDup.
    + apply Forall_forall. set_solver.
    + apply size_all_kinds. eauto.
Qed.

(** ** The other loops *)

Lemma collect_unique_nil label seen l :
  (collect_unique label seen l).1 = [] ↔
  Forall nonblank l ∧ NoDup l ∧ Forall (fun v => v ∉ seen) l.
Proof.
  revert seen. induction l as [|v l IH]; intros seen; cbn [collect_unique].
  { split; [repeat constructor|done]. }
  rewrite !Forall_cons, NoDup_cons. unfold nonblank at 1. destruct (is_blank v).
  - destruct (collect_unique label seen l). cbn. split; [done|naive_solver].
  - specialize (IH ({[ v ]} ∪ seen)). destruct (collect_unique label ({[ v ]} ∪ seen) l) as [es s]. cbn [fst] in *.
    rewrite app_nil_iff, push_if_nil, bool_decide_eq_false, IH, !Forall_forall. set_solver.
Qed.

Lemma collect_unique_seen label seen l : Forall nonblank l →
  (collect_unique label seen l).2 = list_to_set l ∪ seen.
Proof.
  intros H. revert seen. induction H as [|v l Hv Hl IH]; intros seen; cbn; [set_solver|].
  unfold nonblank in Hv. rewrite Hv. specialize (IH ({[ v ]} ∪ seen)).
  destruct (collect_unique label ({[ v ]} ∪ seen) l). cbn [snd] in *. set_solver.
Qed.

Lemma role_shape_iff p : role_shape_valid p = true ↔
  (prc_processor_kind p = "passthrough_h264"%string ∧
     ∃ role, prc_input_track_roles p = [role] ∧ prc_output_track_roles p = [role]) ∨
  (prc_processor_kind p = "dual_lane_independent"%string ∧
     prc_input_track_roles p = ["left"; "right"]%string ∧
     prc_output_track_roles p = ["left"; "right"]%string) ∨
  (prc_processor_kind p = "packed_sbs_left_right"%string ∧
     prc_input_track_roles p = ["left"; "right"]%string ∧
     prc_output_track_roles p = ["stereo"]%string ∧ prc_cpu_pixel_copy p = false).
Proof.
  unfold role_shape_valid.
  destruct (String.eqb_spec (prc_processor_kind p) "passthrough_h264") as [->|N1].
  { rewrite andb_true_iff, bool_decide_eq_true. unfold len. rewrite N.eqb_eq. split.
    - intros [E L]. left. split; [done|]. rewrite <- E.
      destruct (prc_input_track_roles p) as [|r [|]]; [cbn in L; lia|eauto|cbn in L; lia].
    - intros [(_ & r & -> & ->)|[[[=] _]|[[=] _]]]. done. }
  destruct (String.eqb_spec (prc_processor_kind p) "dual_lane_independent") as [->|N2].
  { rewrite andb_true_iff, !bool_decide_eq_true. split; [tauto|].
    intros [[[=] _]|[(_ & ? & ?)|[[=] _]]]; done. }
  destruct (String.eqb_spec (prc_processor_kind p) "packed_sbs_left_right") as [->|N3].
  { rewrite !andb_true_iff, !bool_decide_eq_true, negb_true_iff. split; [tauto|].
    intros [[[=] _]|[[[=] _]|?]]; tauto. }
  split; [done|tauto].
Qed.

Lemma processor_ok p : is_ok (validate_media_stream_processor p) = true ↔ processor_wf p.
Proof.
  unfold validate_media_stream_processor, processor_wf. rewrite <- role_shape_iff, is_ok_true.
  transitivity ((negb (role_shape_valid p) || prc_owns_codec p ||
    negb (bool_decide (prc_application_policy_fields p = []))) = false).
  - split; [intros [a H]; by apply fail_if_bind_ok in H as [H _]|].
    intros H. eexists. apply fail_if_bind_ok. by split.
  - rewrite !orb_false_iff, !negb_false_iff, bool_decide_eq_true. tauto.
Qed.

Lemma sink_nil devices s : validate_sink (list_to_set devices) s = [] ↔
  nonblank (snk_sink_kind s) ∧ snk_device_id s ∈ devices ∧ snk_application_policy_fields s = [].
Proof.
  unfold validate_sink, nonblank.
  rewrite app_nil_iff, !push_if_nil, orb_false_iff, !negb_false_iff, !bool_decide_eq_true,
    elem_of_list_to_set. tauto.
Qed.

Lemma binding_loop_bound lanes sinks procs bound l :
  (lane_binding_loop lanes sinks procs bound l).2 = list_to_set (lb_lane_id <$> l) ∪ bound.
Proof.
  revert bound. induction l as [|b l IH]; intros bound; cbn; [set_solver|].
  specialize (IH ({[ lb_lane_id b ]} ∪ bound)).
  destruct (lane_binding_loop _ _ _ _ l). cbn [snd] in *. set_solver.
Qed.

Lemma binding_loop_nil lanes sinks procs bound l :
  (lane_binding_loop lanes sinks procs bound l).1 = [] ↔
  Forall (fun b => lb_sink_id b ∈ sinks ∧ Forall (fun p => p ∈ procs) (lb_processor_ids b)) l ∧
  NoDup (lb_lane_id <$> l) ∧ Forall (fun b => lb_lane_id b ∉ bound ∧ lb_lane_id b ∈ lanes) l.
Proof.
  revert bound. induction l as [|b l IH]; intros bound; cbn [lane_binding_loop].
  { split; [repeat constructor|done]. }
  specialize (IH ({[ lb_lane_id b ]} ∪ bound)).
  destruct (lane_binding_loop _ _ _ ({[ lb_lane_id b ]} ∪ bound) l) as [es m]. cbn [fst] in *.
  rewrite !app_nil_iff, IH, !push_if_nil, orb_false_iff, !negb_false_iff, bool_decide_eq_false,
    !bool_decide_eq_true, concat_nil, fmap_cons, !Forall_cons, NoDup_cons. clear IH.
  assert (Forall (fun p => push_if (negb (bool_decide (p ∈ procs)))
    ("lane " ++ lb_lane_id b ++ " references unknown processor")%string = []) (lb_processor_ids b) ↔
    Forall (fun p => p ∈ procs) (lb_processor_ids b)) as ->.
  { apply Forall_iff. intros p. by rewrite push_if_nil, negb_false_iff, bool_decide_eq_true. }
  assert (lb_lane_id b ∉ lb_lane_id <$> l ∧ Forall (fun c => lb_lane_id c ∉ bound ∧ lb_lane_id c ∈ lanes) l ↔
    Forall (fun c => lb_lane_id c ∉ {[ lb_lane_id b ]} ∪ bound ∧ lb_lane_id c ∈ lanes) l) as E.
  { rewrite !Forall_forall, list_elem_of_fmap. set_solver. }
  tauto.
Qed.

(** Binding lanes of the plan without repetition, as many as the plan has,
    binds each exactly once. *)
Lemma bound_all (bound lanes : list string) : NoDup lanes →
  (NoDup bound ∧ Forall (fun x => x ∈ lanes) bound) ∧
    size (list_to_set (C := gset string) bound) = size (list_to_set (C := gset string) lanes) ↔
  bound ≡ₚ lanes.
Proof.
  intros Hl. split.
  - intros [[Hb Hin] Hs]. rewrite !size_list_to_set in Hs by done. apply submseteq_length_Permutation; [|lia].
    apply NoDup_submseteq; [done|]. by apply Forall_forall.
  - intros Hp. split_and!; [by rewrite Hp|by apply Forall_forall; intros x; rewrite Hp|].
    f_equal. apply leibniz_equiv. by rewrite Hp.
Qed.

Lemma p2p_binding_nil plan lanes b : NoDup (rt_lane_id <$> pl_transport_routes plan) →
  validate_p2p_binding (bt_collect rt_lane_id (pl_transport_routes plan)) lanes b = [] ↔
  p2p_binding_wf plan b ∧ db_lane_id b ∉ lanes.
Proof.
  intros Hd. unfold validate_p2p_binding, p2p_binding_wf.
  rewrite !app_nil_iff, !push_if_nil, bool_decide_eq_false, negb_false_iff.
  assert (route_matches (bt_collect rt_lane_id (pl_transport_routes plan)) b = true ↔
    ∃ r, r ∈ pl_transport_routes plan ∧ rt_lane_id r = db_lane_id b ∧
      rt_connect_host r = p2p_peer_host (db_route b) ∧ rt_connect_port r = p2p_peer_port (db_route b)) as ->.
  { unfold route_matches. destruct (bt_get _ _) as [r|] eqn:E.
    - rewrite andb_true_iff, String.eqb_eq, N.eqb_eq.
      pose proof E as E'. apply bt_collect_get in E' as [Hr Hk]; [|done].
      split; [intros []; by exists r|]. intros (r' & Hr' & Hk' & ? & ?).
      assert (bt_get (db_lane_id b) (bt_collect rt_lane_id (pl_transport_routes plan)) = Some r') as E2
        by (by apply bt_collect_get). rewrite E in E2. by injection E2 as ->.
    - split; [done|]. intros (r' & Hr' & Hk' & _).
      assert (bt_get (db_lane_id b) (bt_collect rt_lane_id (pl_transport_routes plan)) = Some r') as E2
        by (by apply bt_collect_get). congruence. }
  assert (match validate_direct_p2p_socket_route (db_route b) with Ok _ => [] | Err es => es end = [] ↔
    ∃ v, p2p_route_valid (db_route b) v) as ->; [|tauto].
  setoid_rewrite <- p2p_route_iff. destruct (validate_direct_p2p_socket_route (db_route b)) as [v|es] eqn:E.
  - split; eauto.
  - split; [|by intros [v [=]]]. intros ->. by apply p2p_err_nonempty in E.
Qed.

Lemma p2p_loop_nil plan lanes l : NoDup (rt_lane_id <$> pl_transport_routes plan) →
  p2p_binding_loop (bt_collect rt_lane_id (pl_transport_routes plan)) lanes l = [] ↔
  NoDup (db_lane_id <$> l) ∧ Forall (p2p_binding_wf plan) l ∧ Forall (fun b => db_lane_id b ∉ lanes) l.
Proof.
  intros Hd. revert lanes. induction l as [|b l IH]; intros lanes; cbn [p2p_binding_loop].
  { split; [repeat constructor|done]. }
  rewrite app_nil_iff, p2p_binding_nil, IH, fmap_cons, !Forall_cons, NoDup_cons by done. clear IH.
  assert (db_lane_id b ∉ db_lane_id <$> l ∧ Forall (fun c => db_lane_id c ∉ lanes) l ↔
    Forall (fun c => db_lane_id c ∉ {[ db_lane_id b ]} ∪ lanes) l) as E.
  { rewrite !Forall_forall, list_elem_of_fmap. set_solver. }
  tauto.
Qed.

(** ** Refinement *)

Lemma session_ok plan : validate_media_stream_session plan = Ok tt ↔ plan_wf plan.
Proof.
  rewrite <- session_errors_nil. unfold validate_media_stream_session.
  by destruct (media_stream_session_errors plan).
Qed.

Lemma session_nil plan :
  match validate_media_stream_session plan with Ok _ => [] | Err es => es end = [] ↔ plan_wf plan.
Proof.
  rewrite <- session_errors_nil. unfold validate_media_stream_session.
  by destruct (media_stream_session_errors plan).
Qed.

Lemma processors_nil (l : list MediaStreamProcessorDescriptor) (message : _ → string) :
  mjoin ((fun p => push_if (negb (is_ok (validate_media_stream_processor p))) (message p)) <$> l) = [] ↔
  Forall processor_wf l.
Proof.
  rewrite concat_nil. apply Forall_iff. intros p. by rewrite push_if_nil, negb_false_iff, processor_ok.
Qed.

Lemma resource_ids_NoDup spec : plan_wf (rsp_plan spec) → NoDup (prc_processor_id <$> rsp_processors spec) →
  NoDup (snk_sink_id <$> rsp_sinks spec) → ∀ k, NoDup (resource_ids spec k).
Proof.
  intros W Hp Hs k. pose proof (pw_sources _ W) as (_ & ? & _). pose proof (pw_lanes _ W) as (_ & ? & _).
  pose proof (pw_routes _ W) as (? & _). destruct k; cbn; auto using NoDup_singleton.
Qed.

(** Collecting the identities of a list of descriptors. *)
Lemma collect_ids {A} (key : A → string) label l :
  ((collect_unique label ∅ (key <$> l)).1 = [] ↔ NoDup (key <$> l) ∧ Forall (fun x => nonblank (key x)) l) ∧
  (Forall (fun x => nonblank (key x)) l → (collect_unique label ∅ (key <$> l)).2 = list_to_set (key <$> l)).
Proof.
  rewrite collect_unique_nil, Forall_fmap. split.
  - split; [tauto|]. intros [? ?]. split_and!; [done..|]. apply Forall_forall. set_solver.
  - intros H. rewrite collect_unique_seen by (by rewrite Forall_fmap). apply union_empty_r_L.
Qed.

(** The binding loop followed by the count. *)
Lemma bindings_nil lanes sinks procs l : NoDup lanes →
  (lane_binding_loop (list_to_set lanes) (list_to_set sinks) (list_to_set procs) ∅ l).1 = [] ∧
    size (lane_binding_loop (list_to_set lanes) (list_to_set sinks) (list_to_set procs) ∅ l).2 =
    size (list_to_set (C := gset string) lanes) ↔
  (lb_lane_id <$> l) ≡ₚ lanes ∧
  Forall (fun b => lb_sink_id b ∈ sinks ∧ Forall (fun p => p ∈ procs) (lb_processor_ids b)) l.
Proof.
  intros Hd. rewrite binding_loop_nil, binding_loop_bound, union_empty_r_L, <- (bound_all _ lanes Hd), Forall_fmap.
  assert (Forall (fun b => lb_sink_id b ∈ (list_to_set sinks : gset string) ∧
    Forall (fun p => p ∈ (list_to_set procs : gset string)) (lb_processor_ids b)) l ↔
    Forall (fun b => lb_sink_id b ∈ sinks ∧ Forall (fun p => p ∈ procs) (lb_processor_ids b)) l) as ->.
  { apply Forall_iff. intros b. rewrite elem_of_list_to_set. setoid_rewrite elem_of_list_to_set. done. }
  assert (Forall (fun b => lb_lane_id b ∉ (∅ : gset string) ∧ lb_lane_id b ∈ (list_to_set lanes : gset string)) l ↔
    Forall ((fun x => x ∈ lanes) ∘ lb_lane_id) l) as ->; [|tauto].
  apply Forall_iff. intros b. unfold compose. rewrite elem_of_list_to_set. set_solver.
Qed.

Lemma runtime_errors_nil spec : runtime_spec_errors spec = [] ↔ runtime_spec_wf spec.
Proof.
  unfold runtime_spec_errors.
  destruct (collect_ids prc_processor_id "processor_id" (rsp_processors spec)) as [Pn Ps].
  destruct (collect_ids snk_sink_id "sink_id" (rsp_sinks spec)) as [Sn Ss].
  destruct (collect_unique _ ∅ (prc_processor_id <$> _)) as [pe ps].
  destruct (collect_unique _ ∅ (snk_sink_id <$> _)) as [se ss]. cbn [fst snd] in *.
  pose proof (fun lanes => bindings_nil lanes (snk_sink_id <$> rsp_sinks spec)
    (prc_processor_id <$> rsp_processors spec) (rsp_lane_bindings spec)) as Bn.
  destruct (lane_binding_loop _ ss ps ∅ _) as [be bb] eqn:El.
  rewrite !app_nil_iff, Pn, Sn, session_nil, processors_nil, concat_nil, !push_if_nil, !orb_false_iff,
    !negb_false_iff, String.eqb_eq, N.eqb_neq, bool_decide_eq_true.
  rewrite (Forall_iff _ (rsp_sinks spec) _ (sink_nil (dev_device_id <$> pl_devices (rsp_plan spec)))).
  split.
  - intros (H1 & [H2 H3] & W & [Dp Np] & Fp & [Ds Ns] & Fs & Eb & Sz & Hd & Ho).
    specialize (Ps Np). specialize (Ss Ns). subst ps ss.
    rewrite p2p_loop_nil in Hd by apply (pw_routes _ W). destruct Hd as (Dd & Fd & _).
    rewrite owner_selections_nil in Ho by (by apply resource_ids_NoDup).
    destruct (pw_lanes _ W) as (_ & Dl & _). specialize (Bn _ Dl). rewrite El in Bn. cbn [fst snd] in Bn.
    constructor; auto; [by rewrite Forall_and..|]. by apply Bn.
  - intros [(H1 & H2 & H3) W [Dp Fp] [Ds Fs] Hb [Dd Fd] Ho].
    apply Forall_and in Fp as [Np Fp]. apply Forall_and in Fs as [Ns Fs].
    specialize (Ps Np). specialize (Ss Ns). subst ps ss.
    rewrite p2p_loop_nil by apply (pw_routes _ W).
    rewrite owner_selections_nil by (by apply resource_ids_NoDup).
    destruct (pw_lanes _ W) as (_ & Dl & _). specialize (Bn _ Dl). rewrite El in Bn. cbn [fst snd] in Bn.
    apply Bn in Hb as [-> ->]. split_and!; auto. apply Forall_forall. set_solver.
Qed.

Lemma runtime_spec_ok spec : validate_media_stream_runtime_spec spec = Ok tt ↔ runtime_spec_wf spec.
Proof.
  rewrite <- runtime_errors_nil. unfold validate_media_stream_runtime_spec.
  by destruct (runtime_spec_errors spec).
Qed.
