(* ===== verification/MediaLifecycle.v ===== *)
(** * Media stream: lifecycle of a session runtime

    [MediaStreamSessionRuntime] of crates/rusty-quest-media-stream/src/runtime.rs
    and the recovery harness of failure_recovery.rs. *)

From S2P Require Import Prelude RustStr OrdMap MediaModel MediaValidation MediaSpec P2pRoute MediaRuntime.
From S2P Require Import MediaComposition.

Local Open Scope N_scope.

(** ** State and requests *)

Inductive MediaStreamRuntimePhase :=
  | Planned | ReceiversArmed | SourcesStarted | Streaming | Stopped.

Inductive MediaStreamRuntimeAction :=
  | ArmReceivers | StartSources | ConfirmStreaming | Stop.

#[global] Instance runtime_phase_eq_dec : EqDecision MediaStreamRuntimePhase.
Proof. solve_decision. Defined.
#[global] Instance runtime_action_eq_dec : EqDecision MediaStreamRuntimeAction.
Proof. solve_decision. Defined.

Record MediaStreamRuntimeState := mkRuntimeState {
  mrs_schema : string;
  mrs_runtime_spec_id : string;
  mrs_runtime_revision : N;
  mrs_phase : MediaStreamRuntimePhase;
  mrs_applied_request_ids : list string;
}.

Record MediaStreamRuntimeEvidence := mkEvidence {
  ev_receivers_armed : bool;
  ev_sources_started : bool;
  ev_received_media_frames : N;
  ev_cleanup_complete : bool;
}.

Record MediaStreamRuntimeRequest := mkRuntimeRequest {
  mrq_request_id : string;
  mrq_expected_runtime_revision : N;
  mrq_action : MediaStreamRuntimeAction;
  mrq_evidence : MediaStreamRuntimeEvidence;
}.

Record MediaStreamRuntimeDecision := mkDecision {
  mrd_schema : string;
  mrd_request_id : string;
  mrd_decision_owner : string;
  mrd_accepted : bool;
  mrd_applied : bool;
  mrd_rejection_reason : option string;
  mrd_prior_runtime_revision : N;
  mrd_resulting_runtime_revision : N;
  mrd_resulting_phase : MediaStreamRuntimePhase;
}.

Record MediaStreamSessionRuntime := mkSessionRuntime {
  msr_spec : MediaStreamRuntimeSpec;
  msr_state : MediaStreamRuntimeState;
}.

(** ** Construction *)

Definition runtime_new (spec : MediaStreamRuntimeSpec)
    : result (list ValidationError) MediaStreamSessionRuntime :=
  validate_media_stream_runtime_spec spec ;;
  Ok (mkSessionRuntime spec
        (mkRuntimeState MEDIA_STREAM_RUNTIME_STATE_SCHEMA (rsp_runtime_spec_id spec) 1 Planned [])).

Definition restore_cleanup_state (spec : MediaStreamRuntimeSpec) (state : MediaStreamRuntimeState)
    : result (list ValidationError) MediaStreamSessionRuntime :=
  validate_media_stream_runtime_spec spec ;;
  fail_if (negb (mrs_schema state =? MEDIA_STREAM_RUNTIME_STATE_SCHEMA)%string ||
           negb (mrs_runtime_spec_id state =? rsp_runtime_spec_id spec)%string ||
           (mrs_runtime_revision state =? 0) ||
           existsb is_blank (mrs_applied_request_ids state) ||
           negb (bool_decide (length (mrs_applied_request_ids state) =
             size (list_to_set (mrs_applied_request_ids state) : gset string))))
    ["media recovery lifecycle state is malformed"%string] ;;
  Ok (mkSessionRuntime spec state).

(** ** Review *)

(** The [match (state.phase, request.action)] of the review. *)
Definition phase_rejection (phase : MediaStreamRuntimePhase) (action : MediaStreamRuntimeAction)
    (evidence : MediaStreamRuntimeEvidence) : option string :=
  match phase, action with
  | Planned, ArmReceivers =>
      if ev_receivers_armed evidence then None else Some "invalid_phase_transition"%string
  | ReceiversArmed, StartSources =>
      if ev_sources_started evidence then None else Some "receivers_not_armed"%string
  | SourcesStarted, ConfirmStreaming =>
      if 0 <? ev_received_media_frames evidence then None else Some "media_not_observed"%string
  | phase, Stop =>
      if negb (bool_decide (phase = Stopped)) && ev_cleanup_complete evidence then None
      else Some "cleanup_incomplete"%string
  | _, StartSources => Some "receivers_not_armed"%string
  | _, ConfirmStreaming => Some "media_not_observed"%string
  | _, _ => Some "invalid_phase_transition"%string
  end.

Definition review_rejection (state : MediaStreamRuntimeState) (request : MediaStreamRuntimeRequest)
    : option string :=
  if is_blank (mrq_request_id request) then Some "missing_request_id"%string
  else if mrs_runtime_revision state =? u64_max then Some "runtime_revision_exhausted"%string
  else if negb (mrq_expected_runtime_revision request =? mrs_runtime_revision state)
  then Some "stale_runtime_revision"%string
  else if existsb (fun id => id =? mrq_request_id request)%string (mrs_applied_request_ids state)
  then Some "replayed_request"%string
  else phase_rejection (mrs_phase state) (mrq_action request) (mrq_evidence request).

Definition action_phase (action : MediaStreamRuntimeAction) : MediaStreamRuntimePhase :=
  match action with
  | ArmReceivers => ReceiversArmed
  | StartSources => SourcesStarted
  | ConfirmStreaming => Streaming
  | Stop => Stopped
  end.

Definition review_media_stream_runtime_request (state : MediaStreamRuntimeState)
    (request : MediaStreamRuntimeRequest) : MediaStreamRuntimeDecision :=
  let rejection := review_rejection state request in
  let resulting_phase :=
    match rejection with Some _ => mrs_phase state | None => action_phase (mrq_action request) end in
  mkDecision MEDIA_STREAM_RUNTIME_DECISION_SCHEMA (mrq_request_id request) MEDIA_STREAM_RUNTIME_AUTHORITY
    (bool_decide (rejection = None)) false rejection (mrs_runtime_revision state)
    (mrs_runtime_revision state + (if bool_decide (rejection = None) then 1 else 0)) resulting_phase.

(** [&mut self] is the runtime passed in and returned. *)
Definition runtime_execute (runtime : MediaStreamSessionRuntime) (request : MediaStreamRuntimeRequest)
    : MediaStreamSessionRuntime * MediaStreamRuntimeDecision :=
  let state := msr_state runtime in
  let decision := review_media_stream_runtime_request state request in
  if mrd_accepted decision then
    (mkSessionRuntime (msr_spec runtime)
       (mkRuntimeState (mrs_schema state) (mrs_runtime_spec_id state)
          (mrd_resulting_runtime_revision decision) (mrd_resulting_phase decision)
          (mrs_applied_request_ids state ++ [mrq_request_id request])),
     mkDecision (mrd_schema decision) (mrd_request_id decision) (mrd_decision_owner decision)
       (mrd_accepted decision) true (mrd_rejection_reason decision) (mrd_prior_runtime_revision decision)
       (mrd_resulting_runtime_revision decision) (mrd_resulting_phase decision))
  else (runtime, decision).

(** A sequence of requests: the final runtime and the requests applied, oldest
    first. *)
Fixpoint run_requests (runtime : MediaStreamSessionRuntime) (requests : list MediaStreamRuntimeRequest)
    : MediaStreamSessionRuntime * list MediaStreamRuntimeRequest :=
  match requests with
  | [] => (runtime, [])
  | request :: rest =>
      let '(runtime', decision) := runtime_execute runtime request in
      let '(final, applied) := run_requests runtime' rest in
      (final, if mrd_applied decision then request :: applied else applied)
  end.

(** ** Specification: the lifecycle as a step relation *)

Inductive lifecycle_step : MediaStreamRuntimePhase → MediaStreamRuntimeAction →
    MediaStreamRuntimeEvidence → MediaStreamRuntimePhase → Prop :=
  | step_arm e : ev_receivers_armed e = true → lifecycle_step Planned ArmReceivers e ReceiversArmed
  | step_start e : ev_sources_started e = true → lifecycle_step ReceiversArmed StartSources e SourcesStarted
  | step_confirm e : 0 < ev_received_media_frames e →
      lifecycle_step SourcesStarted ConfirmStreaming e Streaming
  | step_stop p e : p ≠ Stopped → ev_cleanup_complete e = true → lifecycle_step p Stop e Stopped.

(** The request is fresh, bound to the current revision, and a step. *)
Definition request_admissible (st : MediaStreamRuntimeState) (r : MediaStreamRuntimeRequest) : Prop :=
  nonblank (mrq_request_id r) ∧ mrs_runtime_revision st ≠ u64_max ∧
  mrq_expected_runtime_revision r = mrs_runtime_revision st ∧
  mrq_request_id r ∉ mrs_applied_request_ids st ∧
  ∃ p, lifecycle_step (mrs_phase st) (mrq_action r) (mrq_evidence r) p.

Definition advance (st : MediaStreamRuntimeState) (r : MediaStreamRuntimeRequest)
    (p : MediaStreamRuntimePhase) : MediaStreamRuntimeState :=
  mkRuntimeState (mrs_schema st) (mrs_runtime_spec_id st) (mrs_runtime_revision st + 1) p
    (mrs_applied_request_ids st ++ [mrq_request_id r]).

Lemma phase_rejection_iff p a e : phase_rejection p a e = None ↔ lifecycle_step p a e (action_phase a).
Proof.
  split.
  - destruct p, a; cbn; intros H; try discriminate; repeat case_match; try discriminate;
      bool_to_prop; constructor; (done || lia).
  - inversion 1; subst; cbn; rewrite ?bool_decide_eq_false_2 by done.
    + by match goal with H : _ = true |- _ => rewrite H end.
    + by match goal with H : _ = true |- _ => rewrite H end.
    + by rewrite (proj2 (N.ltb_lt _ _)).
    + destruct p; try done; cbn; by match goal with H : _ = true |- _ => rewrite H end.
Qed.

Lemma step_target p a e q : lifecycle_step p a e q → q = action_phase a.
Proof. by inversion 1. Qed.

Lemma existsb_elem x l : existsb (fun y => y =? x)%string l = false ↔ x ∉ l.
Proof.
  rewrite <- not_true_iff_false, existsb_exists. setoid_rewrite String.eqb_eq.
  rewrite list_elem_of_In. naive_solver.
Qed.

Lemma review_rejection_iff st r : review_rejection st r = None ↔ request_admissible st r.
Proof.
  unfold review_rejection, request_admissible, nonblank.
  assert ((∃ p, lifecycle_step (mrs_phase st) (mrq_action r) (mrq_evidence r) p) ↔
    phase_rejection (mrs_phase st) (mrq_action r) (mrq_evidence r) = None) as ->.
  { rewrite phase_rejection_iff. split; [intros [p H]; pose proof (step_target _ _ _ _ H); congruence|eauto]. }
  rewrite <- existsb_elem. destruct (is_blank _); [split; [done|by intros [[=] _]]|].
  destruct (N.eqb_spec (mrs_runtime_revision st) u64_max); [split; [done|tauto]|].
  destruct (N.eqb_spec (mrq_expected_runtime_revision r) (mrs_runtime_revision st)); cbn [negb];
    [|split; [done|tauto]].
  destruct (existsb _ _); [split; [done|by intros (_ & _ & _ & [=] & _)]|]. tauto.
Qed.

(** Both outcomes of [execute], with the decision it returns. *)
Lemma execute_cases rt r :
  (∃ p, request_admissible (msr_state rt) r ∧
     lifecycle_step (mrs_phase (msr_state rt)) (mrq_action r) (mrq_evidence r) p ∧
     runtime_execute rt r =
       (mkSessionRuntime (msr_spec rt) (advance (msr_state rt) r p),
        mkDecision MEDIA_STREAM_RUNTIME_DECISION_SCHEMA (mrq_request_id r) MEDIA_STREAM_RUNTIME_AUTHORITY
          true true None (mrs_runtime_revision (msr_state rt)) (mrs_runtime_revision (msr_state rt) + 1) p)) ∨
  (∃ reason, ¬ request_admissible (msr_state rt) r ∧
     runtime_execute rt r =
       (rt, mkDecision MEDIA_STREAM_RUNTIME_DECISION_SCHEMA (mrq_request_id r) MEDIA_STREAM_RUNTIME_AUTHORITY
          false false (Some reason) (mrs_runtime_revision (msr_state rt))
          (mrs_runtime_revision (msr_state rt)) (mrs_phase (msr_state rt)))).
Proof.
  destruct (review_rejection (msr_state rt) r) as [reason|] eqn:E.
  - right. exists reason. rewrite <- review_rejection_iff, E. split; [done|].
    unfold runtime_execute, review_media_stream_runtime_request. rewrite E. cbn. by rewrite N.add_0_r.
  - left. exists (action_phase (mrq_action r)).
    pose proof (proj1 (review_rejection_iff _ _) E) as Ha. split; [done|]. split.
    + destruct Ha as (_ & _ & _ & _ & p & Hp). by rewrite <- (step_target _ _ _ _ Hp).
    + unfold runtime_execute, review_media_stream_runtime_request. by rewrite E.
Qed.

(** ** Runs *)

(** The phases an applied request goes through. *)
Inductive lifecycle_path : MediaStreamRuntimePhase → list MediaStreamRuntimeRequest →
    MediaStreamRuntimePhase → Prop :=
  | path_nil p : lifecycle_path p [] p
  | path_cons p r q l z : lifecycle_step p (mrq_action r) (mrq_evidence r) q → lifecycle_path q l z →
      lifecycle_path p (r :: l) z.

Lemma run_requests_sound rt rs rt' applied :
  run_requests rt rs = (rt', applied) →
  msr_spec rt' = msr_spec rt ∧ sublist applied rs ∧
  lifecycle_path (mrs_phase (msr_state rt)) applied (mrs_phase (msr_state rt')) ∧
  mrs_schema (msr_state rt') = mrs_schema (msr_state rt) ∧
  mrs_runtime_spec_id (msr_state rt') = mrs_runtime_spec_id (msr_state rt) ∧
  mrs_runtime_revision (msr_state rt') = mrs_runtime_revision (msr_state rt) + len applied ∧
  mrs_applied_request_ids (msr_state rt') =
    mrs_applied_request_ids (msr_state rt) ++ (mrq_request_id <$> applied) ∧
  Forall (fun r => nonblank (mrq_request_id r)) applied ∧
  (NoDup (mrs_applied_request_ids (msr_state rt)) → NoDup (mrs_applied_request_ids (msr_state rt'))).
Proof.
  revert rt rt' applied. induction rs as [|r rs IH]; intros rt rt' applied; cbn [run_requests].
  { intros [= <- <-]. unfold len. cbn. rewrite app_nil_r, N.add_0_r. split_and!; auto; constructor. }
  destruct (execute_cases rt r) as [(p & Ha & Hp & ->)|(reason & Ha & ->)];
    destruct (run_requests _ rs) as [f l] eqn:E; apply IH in E as (H1 & H2 & H3 & H4 & H5 & H6 & H7 & H8 & H9);
    cbn [mrd_applied]; intros [= <- <-].
  - destruct Ha as (N1 & N2 & N3 & N4 & _). cbn in *. unfold len in *. cbn [length].
    split_and!; auto using sublist_skip.
    + by econstructor.
    + rewrite H6. lia.
    + by rewrite H7, <- app_assoc.
    + intros Hd. apply H9. apply NoDup_app. split; [done|]. split; [set_solver|apply NoDup_singleton].
  - split_and!; auto using sublist_cons.
Qed.

Lemma run_stopped rt rs : mrs_phase (msr_state rt) = Stopped → run_requests rt rs = (rt, []).
Proof.
  intros Hs. induction rs as [|r rs IH]; [done|]. cbn [run_requests].
  destruct (execute_cases rt r) as [(p & _ & Hp & _)|(reason & _ & ->)].
  - rewrite Hs in Hp. by inversion Hp.
  - by rewrite IH.
Qed.

(** From [Planned], a path arms, starts and confirms in this order, each at
    most once, and may end with one stop. *)
Lemma path_from_stopped l z : lifecycle_path Stopped l z → l = [] ∧ z = Stopped.
Proof. inversion 1 as [|p r q l' z' Hs]; subst; [done|]. by inversion Hs. Qed.

Definition startup : list MediaStreamRuntimeAction := [ArmReceivers; StartSources; ConfirmStreaming].

Lemma path_shape p l z : lifecycle_path p l z →
  ∃ n, ((mrq_action <$> l) = take n (drop (match p with Planned => 0 | ReceiversArmed => 1
            | SourcesStarted => 2 | _ => 3 end) startup) ∧ (z = Stopped ↔ p = Stopped)) ∨
       ((mrq_action <$> l) = take n (drop (match p with Planned => 0 | ReceiversArmed => 1
            | SourcesStarted => 2 | _ => 3 end) startup) ++ [Stop] ∧ z = Stopped ∧ p ≠ Stopped).
Proof.
  induction 1 as [p|p r q l z Hs Hp IH].
  - exists 0%nat. left. done.
  - inversion Hs as [e He E1 E2 E3|e He E1 E2 E3|e He E1 E2 E3|p' e Hne He E1 E2 E3]; subst;
      rewrite fmap_cons, <- E2.
    1-3: destruct IH as [n [[IH Hz]|(IH & Hz & _)]]; exists (S n); rewrite IH; [left|right];
      (split; [done|]); split; first [done|by intros ?%Hz|auto].
    apply path_from_stopped in Hp as [-> ->]. exists 0%nat. right. done.
Qed.

(** ** Restoring *)

(** The states a journal may hold for a specification. *)
Record state_wf (spec : MediaStreamRuntimeSpec) (st : MediaStreamRuntimeState) : Prop := {
  sw_schema : mrs_schema st = MEDIA_STREAM_RUNTIME_STATE_SCHEMA;
  sw_spec : mrs_runtime_spec_id st = rsp_runtime_spec_id spec;
  sw_revision : mrs_runtime_revision st ≠ 0;
  sw_ids : Forall nonblank (mrs_applied_request_ids st) ∧ NoDup (mrs_applied_request_ids st);
}.

Lemma size_set_length (l : list string) : length l = size (list_to_set l : gset string) ↔ NoDup l.
Proof.
  split; [|intros H; by rewrite size_list_to_set].
  induction l as [|x l IH]; [constructor|]. cbn. intros H.
  destruct (decide (x ∈ (list_to_set l : gset string))) as [Hx|Hx].
  - exfalso. assert ({[ x ]} ∪ list_to_set l = (list_to_set l : gset string)) as E by set_solver.
    rewrite E in H. clear - H. assert (∀ k : list string, size (list_to_set k : gset string) <= length k)%nat as L.
    { induction k as [|y k IHk]; [done|]. cbn.
      pose proof (size_union_alt (C := gset string) {[ y ]} (list_to_set k)) as ->.
      rewrite size_singleton. pose proof (subseteq_size (list_to_set k ∖ {[ y ]} : gset string) (list_to_set k)
        ltac:(set_solver)). lia. }
    specialize (L l). lia.
  - rewrite size_union, size_singleton in H by set_solver. constructor; [set_solver|]. apply IH. lia.
Qed.

Lemma restore_ok spec st rt : restore_cleanup_state spec st = Ok rt ↔
  runtime_spec_wf spec ∧ state_wf spec st ∧ rt = mkSessionRuntime spec st.
Proof.
  unfold restore_cleanup_state. rewrite then_ok, fail_if_bind_ok, runtime_spec_ok.
  rewrite !orb_false_iff, !negb_false_iff, !String.eqb_eq, N.eqb_neq, bool_decide_eq_true, size_set_length.
  assert (existsb is_blank (mrs_applied_request_ids st) = false ↔ Forall nonblank (mrs_applied_request_ids st)) as ->.
  { rewrite <- not_true_iff_false, existsb_exists, Forall_forall. unfold nonblank.
    setoid_rewrite <- not_true_iff_false. setoid_rewrite list_elem_of_In. naive_solver. }
  split.
  - intros (W & ((((A & B) & C) & D) & E) & [= <-]). by repeat (constructor; try done).
  - intros (W & [A B C [D E]] & ->). done.
Qed.

Lemma new_ok spec rt : runtime_new spec = Ok rt ↔
  runtime_spec_wf spec ∧
  rt = mkSessionRuntime spec
         (mkRuntimeState MEDIA_STREAM_RUNTIME_STATE_SCHEMA (rsp_runtime_spec_id spec) 1 Planned []).
Proof. unfold runtime_new. rewrite then_ok, runtime_spec_ok. naive_solver. Qed.

(** ** Failure recovery *)

Inductive MediaFailureCriterion :=
  | RouteLoss | SlowConsumer | QueuePressure | CodecFailure | CleanupFailure | ProviderDeath
  | NativeAppDeath | SpatialAppDeath.

Record MediaFailureSnapshot := mkSnapshot {
  mfs_observed_state : string;
  mfs_authority_revision : N;
  mfs_provider_epoch : N;
  mfs_cleanup_complete : bool;
}.

Record MediaFailureRecoveryHarness := mkHarness {
  mfh_criterion : MediaFailureCriterion;
  mfh_snapshot : MediaFailureSnapshot;
  mfh_injected : bool;
}.

Inductive MediaFailureTransitionError := InvalidPhase.

Definition harness_new (criterion : MediaFailureCriterion) : MediaFailureRecoveryHarness :=
  mkHarness criterion (mkSnapshot "ready" 1 1 true) false.

Definition injected_state (criterion : MediaFailureCriterion) : string :=
  match criterion with
  | RouteLoss => "route_unavailable"
  | SlowConsumer => "slow_consumer_observed"
  | QueuePressure => "queue_pressure_observed"
  | CodecFailure => "codec_failure_injected"
  | CleanupFailure => "cleanup_failure_injected"
  | ProviderDeath => "provider_terminated"
  | NativeAppDeath => "native_app_terminated"
  | SpatialAppDeath => "spatial_app_terminated"
  end%string.

Definition harness_inject (h : MediaFailureRecoveryHarness)
    : result MediaFailureTransitionError MediaFailureRecoveryHarness :=
  let s := mfh_snapshot h in
  fail_if (mfh_injected h || negb (mfs_observed_state s =? "ready")%string) InvalidPhase ;;
  Ok (mkHarness (mfh_criterion h)
        (mkSnapshot (injected_state (mfh_criterion h)) 2 (mfs_provider_epoch s) false) true).

Definition recovered_state (criterion : MediaFailureCriterion) : string :=
  match criterion with
  | SlowConsumer | QueuePressure => "bounded"
  | CodecFailure => "rejected"
  | ProviderDeath => "recovered_fresh_epoch"
  | RouteLoss | CleanupFailure | NativeAppDeath | SpatialAppDeath => "recovered"
  end%string.

Definition harness_recover (h : MediaFailureRecoveryHarness)
    : result MediaFailureTransitionError MediaFailureRecoveryHarness :=
  let s := mfh_snapshot h in
  fail_if (negb (mfh_injected h) || negb (mfs_authority_revision s =? 2)) InvalidPhase ;;
  let epoch := match mfh_criterion h with
               | ProviderDeath => mfs_provider_epoch s + 1
               | _ => mfs_provider_epoch s
               end in
  Ok (mkHarness (mfh_criterion h)
        (mkSnapshot (recovered_state (mfh_criterion h)) 3 epoch true) (mfh_injected h)).

Inductive HarnessCall := Inject | Recover.

(** A sequence of calls; a refused call leaves the harness as it is. The calls
    that succeeded, oldest first. *)
Fixpoint run_harness (h : MediaFailureRecoveryHarness) (calls : list HarnessCall)
    : MediaFailureRecoveryHarness * list HarnessCall :=
  match calls with
  | [] => (h, [])
  | call :: rest =>
      match match call with Inject => harness_inject h | Recover => harness_recover h end with
      | Ok h' => let '(final, done) := run_harness h' rest in (final, call :: done)
      | Err _ => run_harness h rest
      end
  end.

Definition harness_damaged (c : MediaFailureCriterion) : MediaFailureRecoveryHarness :=
  mkHarness c (mkSnapshot (injected_state c) 2 1 false) true.
Definition harness_recovered (c : MediaFailureCriterion) : MediaFailureRecoveryHarness :=
  mkHarness c (mkSnapshot (recovered_state c) 3 (match c with ProviderDeath => 2 | _ => 1 end) true) true.

Lemma run_harness_recovered c calls : run_harness (harness_recovered c) calls = (harness_recovered c, []).
Proof. induction calls as [|[] calls IH]; [done|..]; exact IH. Qed.

Lemma run_harness_damaged c calls :
  run_harness (harness_damaged c) calls =
  if existsb (fun k => match k with Recover => true | Inject => false end) calls
  then (harness_recovered c, [Recover]) else (harness_damaged c, []).
Proof.
  induction calls as [|[] calls IH]; [done|exact IH|].
  cbn [run_harness existsb]. replace (harness_recover (harness_damaged c)) with
    (Ok (E := MediaFailureTransitionError) (harness_recovered c)) by (by destruct c).
  by rewrite run_harness_recovered.
Qed.
