(* ===== verification/ProductBinding.v ===== *)
(** * The packaged product binding

    [MediaStreamRuntimeProductBinding] of
    crates/rusty-quest-media-stream/src/product_runtime.rs with its canonical
    digest, and the errors of the product runtime with their messages. *)

From S2P Require Import Prelude RustStr UpdateAdmission MediaModel MediaRuntime.

Local Open Scope N_scope.

(** The error of serde_json that [Encode] carries is never looked at. *)
Inductive MediaStreamProductRuntimeError :=
  | BindingSchemaMismatch
  | RuntimeSpecInvalid (errors : list ValidationError)
  | Encode
  | RuntimeSpecDigestMismatch
  | InvalidDescriptorDigest
  | AcceptedSessionMismatch
  | AcceptedProviderEpochMismatch
  | AcceptedSessionNotCurrent
  | AcceptedSessionSuperseded
  | MissingAuthorityEpoch
  | AuthorityProviderUnavailable
  | MissingActionId
  | MissingClientAuthority
  | ClientAuthorityMismatch
  | ReplayedAction
  | PendingActionExists
  | AbortInProgress
  | UncertainOwnerAttemptPending
  | NoUncertainOwnerAttempt
  | AbortRequiresPendingStart
  | AbortCallbacksIncomplete
  | NoPendingAction
  | TerminalRuntime
  | RecoveryStartForbidden
  | RecoveryRequiresTargetedStop
  | RecoverySnapshotInvalid
  | RecoveryReceiptsUnverified
  | RecoveryJournalUnavailable
  | InvalidOperationPhase
  | CompletionSchemaMismatch
  | CompletionBindingMismatch
  | OwnerCompletionMismatch
  | OwnerCallbackOrderMismatch
  | OwnerReadbackMismatch
  | OwnerProviderMismatch
  | OwnerProviderFailed
  | OwnerHandleLifecycleMismatch
  | OwnerCallbacksIncomplete
  | ReceiverFirstViolation
  | CleanupOrderViolation
  | LifecycleRejected.

(** [Display]. *)
Definition product_error_message (error : MediaStreamProductRuntimeError) : string :=
  match error with
  | BindingSchemaMismatch => "media runtime product binding schema mismatch"
  | RuntimeSpecInvalid _ => "media runtime spec invalid"
  | Encode => "media runtime canonical encoding failed"
  | RuntimeSpecDigestMismatch => "media runtime spec canonical digest mismatch"
  | InvalidDescriptorDigest => "Manifold descriptor digest invalid"
  | AcceptedSessionMismatch => "retained Manifold media-session acceptance does not match Quest runtime"
  | AcceptedProviderEpochMismatch => "retained Manifold media-session acceptance provider epoch is stale"
  | AcceptedSessionNotCurrent => "retained Manifold media-session subject is not current"
  | AcceptedSessionSuperseded => "retained Manifold media-session subject was superseded"
  | MissingAuthorityEpoch => "media authority epoch missing"
  | AuthorityProviderUnavailable => "media authority provider unavailable"
  | MissingActionId => "media action id missing"
  | MissingClientAuthority => "media client or lease authority missing"
  | ClientAuthorityMismatch => "media stop client/lease differs from active start authority"
  | ReplayedAction => "media action replayed"
  | PendingActionExists => "media platform action already pending"
  | AbortInProgress => "media partial-start rollback already in progress"
  | UncertainOwnerAttemptPending => "media owner attempt is uncertain and requires compensation"
  | NoUncertainOwnerAttempt => "media stop has no uncertain owner attempt"
  | AbortRequiresPendingStart => "media rollback requires one pending start action"
  | AbortCallbacksIncomplete => "media rollback lacks reverse cleanup for every observed owner"
  | NoPendingAction => "media platform completion has no pending action"
  | TerminalRuntime => "media runtime is terminal"
  | RecoveryStartForbidden => "recovered media runtime forbids start"
  | RecoveryRequiresTargetedStop => "recovered media runtime requires an authorized target-keyed stop"
  | RecoverySnapshotInvalid => "media recovery snapshot invalid"
  | RecoveryReceiptsUnverified => "media recovery receipts unverified"
  | RecoveryJournalUnavailable => "media recovery journal unavailable"
  | InvalidOperationPhase => "media operation invalid for runtime phase"
  | CompletionSchemaMismatch => "media platform completion schema mismatch"
  | CompletionBindingMismatch => "media platform completion binding mismatch"
  | OwnerCompletionMismatch => "media owner completion mismatch"
  | OwnerCallbackOrderMismatch => "media owner callback order mismatch"
  | OwnerReadbackMismatch => "media owner provider readback mismatch"
  | OwnerProviderMismatch => "media owner provider family mismatch"
  | OwnerProviderFailed => "media owner provider execution/readback failed"
  | OwnerHandleLifecycleMismatch => "media owner provider handle lifecycle mismatch"
  | OwnerCallbacksIncomplete => "media owner callbacks incomplete"
  | ReceiverFirstViolation => "media source started before every prerequisite owner"
  | CleanupOrderViolation => "media cleanup completion order violated"
  | LifecycleRejected => "media lifecycle rejected exact platform completion"
  end.

Definition MEDIA_STREAM_RUNTIME_PRODUCT_BINDING_SCHEMA : string :=
  "rusty.quest.media_stream_runtime_product_binding.v1".

Record MediaStreamRuntimeProductBinding := mkBinding {
  bnd_schema_id : string;
  bnd_spec : MediaStreamRuntimeSpec;
  bnd_runtime_spec_canonical_sha256 : string;
}.

(** [serde_json::to_vec] on a runtime specification. *)
Class SpecEncoding := { spec_to_vec : MediaStreamRuntimeSpec → option (list N) }.

(** [map_err]. *)
Definition map_err {E E' A : Type} (f : E → E') (r : result E A) : result E' A :=
  match r with Ok a => Ok a | Err e => Err (f e) end.

Lemma map_err_ok {E E' A} (f : E → E') (r : result E A) a : map_err f r = Ok a ↔ r = Ok a.
Proof. destruct r; cbn; naive_solver. Qed.

Section Binding.
Context {RC : ReleaseCrypto} {SE : SpecEncoding}.

Definition canonical_media_stream_runtime_sha256 (spec : MediaStreamRuntimeSpec)
    : result MediaStreamProductRuntimeError string :=
  canonical ← ok_or (spec_to_vec spec) Encode;
  Ok (sha256_identity canonical).

Definition binding_validate (binding : MediaStreamRuntimeProductBinding)
    : result MediaStreamProductRuntimeError unit :=
  fail_if (negb (bnd_schema_id binding =? MEDIA_STREAM_RUNTIME_PRODUCT_BINDING_SCHEMA)%string)
    BindingSchemaMismatch ;;
  map_err RuntimeSpecInvalid (validate_media_stream_runtime_spec (bnd_spec binding)) ;;
  expected ← canonical_media_stream_runtime_sha256 (bnd_spec binding);
  fail_if (negb (bnd_runtime_spec_canonical_sha256 binding =? expected)%string) RuntimeSpecDigestMismatch.

Lemma binding_validate_spec binding :
  binding_validate binding = Ok tt → validate_media_stream_runtime_spec (bnd_spec binding) = Ok tt.
Proof.
  unfold binding_validate. rewrite fail_if_bind_ok, then_ok, map_err_ok. naive_solver.
Qed.
End Binding.
