(* ===== verification/MediaFixture.v ===== *)
(** * Media stream: a concrete product

    A plan of the repository and a runtime specification for it, on which the
    definitions are evaluated. *)

From S2P Require Import Prelude RustStr OrdMap MediaModel MediaValidation MediaSpec P2pRoute MediaRuntime.
From S2P Require Import MediaComposition MediaLifecycle.

Local Open Scope N_scope.
Local Open Scope string_scope.

(** The plan of fixtures/media-stream-sessions/shell-display-mirror-h264.plan.json,
    with the host its route connects to and the source's camera descriptor as
    arguments. *)
Definition shell_mirror_plan (connect_host : string) (camera : option CameraCaptureDescriptor)
    : MediaStreamSessionPlan :=
  mkSessionPlan "rusty.quest.media_stream_session.v1" "session.media_stream.quest_shell_display_mirror_to_pc_lab"
    "quest_display_to_pc" "local_lan_diagnostic"
    [mkDevice "quest-a" "quest" "sender"; mkDevice "pc-host" "windows_pc" "receiver"]
    [mkSource "quest-a-shell-display-mirror" "quest-a" "quest-shell-display-mirror"
       "shell_display_mirror_mediacodec_surface" "shell-hidden-display-mirror" "adb_shell_hidden_api_developer_only"
       "lab_developer_only" "display" true false
       (Some (mkDisplayCaptureDescriptor "default" "runtime-reported" 320 (mkDisplayContentCrop 0 0 1920 1080)
       "unknown-lab-observe-only" "developer-shell-only-no-mediaprojection-consent"
       "developer-lab-indicator-required" "low-rate-debug-only")) camera]
    [mkLane "quest-a-shell-display-to-pc-host" "outgoing" "quest-a-shell-display-mirror" "quest-a" "pc-host"
       (mkMediaConfig "quest-a.shell-display.h264" "display" "video" "h264"
       "diagnostic-h264-packet-stream" 1920 1080 60 8000000 4194304
       "stream-header-sidecar-status" "android-display-frame-time" "binary-media")
       (mkTransportConfig "lan_tcp" false false None)
       (mkQueuePolicy 48 16777216 "drop-oldest-complete-frame" true) true]
    [mkRuntimeEndpoint "quest-a" "quest_manifold_broker_android"
       [mkSourceBinding "quest-a-shell-display-mirror" "display" "127.0.0.1" 8879]
       "127.0.0.1" [] "0.0.0.0" [];
     mkRuntimeEndpoint "pc-host" "windows_hostess"
       []
       "127.0.0.1" [mkPortBinding "display" 8979] "0.0.0.0" [mkPortBinding "display" 9079]]
    [mkTransportRoute "quest-a-shell-display-to-pc-host" "quest-a" "pc-host" "display"
       "direct_tcp_connect" connect_host 9079 None None None]
    (mkSecurityPolicy true true "media_stream.stop" false)
    (mkObservabilityPolicy
       ["media-stream-session-started"; "receiver-armed"; "shell-display-sidecar-started";
        "display-frame-state-observed"; "sender-started"; "frame-painted"; "lane-closed"]
       ["bytes_sent"; "bytes_received"; "media_packets"; "codec_config_packets";
        "keyframes"; "queue_drops"; "close_reason"; "capture_to_encode_ms"; "encode_to_receive_ms"]).

Definition mirror_plan : MediaStreamSessionPlan := shell_mirror_plan "pc-host.local" None.

(** The same plan over Wi-Fi Direct. *)
Definition p2p_plan : MediaStreamSessionPlan := shell_mirror_plan "192.168.49.17" None.

Definition p2p_route : DirectP2pSocketRoute :=
  mkP2pRoute DIRECT_P2P_SOCKET_ROUTE_SCHEMA "route.quest-a" DIRECT_P2P_ROUTE_KIND
    RUSTY_DIRECT_P2P_SOCKET_AUTHORITY RUSTY_OWNED_SOCKET_SCOPE QUEST_DIRECT_P2P_INTERFACE
    "192.168.49.1" "192.168.49.17" 9079 false.

Definition mirror_spec : MediaStreamRuntimeSpec :=
  mkRuntimeSpec MEDIA_STREAM_RUNTIME_SPEC_SCHEMA "runtime.mirror" 4 p2p_plan
    [mkProcessor "passthrough" "passthrough_h264" ["display"] ["display"] false false []]
    [mkSink "viewer" "pc-host" "windows_viewer" [] []]
    [mkLaneBinding "quest-a-shell-display-to-pc-host" ["passthrough"] "viewer"]
    [mkP2pBinding "quest-a-shell-display-to-pc-host" p2p_route]
    [mkOwner OwnSource "owner.source" "quest-a-shell-display-mirror" None "shell_display";
     mkOwner OwnProcessor "owner.processor" "passthrough" None "passthrough_h264";
     mkOwner OwnRoute "owner.route" "quest-a-shell-display-to-pc-host"
       (Some "quest-a-shell-display-to-pc-host") "direct_p2p";
     mkOwner OwnSocket "owner.socket" "quest-a-shell-display-to-pc-host"
       (Some "quest-a-shell-display-to-pc-host") "rust_socket";
     mkOwner OwnCodec "owner.codec" "quest-a-shell-display-to-pc-host" None "media_codec";
     mkOwner OwnSink "owner.sink" "viewer" None "windows_viewer";
     mkOwner OwnCleanup "owner.cleanup" "runtime.mirror" None "runtime"]
    None.

Example mirror_plan_ok : validate_media_stream_session mirror_plan = Ok tt.
Proof. vm_compute. reflexivity. Qed.

Example mirror_spec_ok : validate_media_stream_runtime_spec mirror_spec = Ok tt.
Proof. vm_compute. reflexivity. Qed.

Definition mirror_runtime : MediaStreamSessionRuntime :=
  mkSessionRuntime mirror_spec
    (mkRuntimeState MEDIA_STREAM_RUNTIME_STATE_SCHEMA "runtime.mirror" 1 Planned []).

Definition evidence : MediaStreamRuntimeEvidence := mkEvidence true true 3 true.

(** Start too early, then the whole lifecycle with one replay. *)
Definition mirror_requests : list MediaStreamRuntimeRequest :=
  [mkRuntimeRequest "r0" 1 StartSources evidence;
   mkRuntimeRequest "r1" 1 ArmReceivers evidence;
   mkRuntimeRequest "r1" 2 StartSources evidence;
   mkRuntimeRequest "r2" 2 StartSources evidence;
   mkRuntimeRequest "r3" 3 ConfirmStreaming evidence;
   mkRuntimeRequest "r4" 4 Stop evidence].

Example mirror_run :
  let '(final, applied) := run_requests mirror_runtime mirror_requests in
  (mrs_phase (msr_state final), mrs_runtime_revision (msr_state final), mrq_request_id <$> applied) =
  (Stopped, 5, ["r1"; "r2"; "r3"; "r4"]).
Proof. vm_compute. reflexivity. Qed.
