(* ===== verification/MediaClaims.v ===== *)
(** * Media stream: properties

    What the validators accept, how a session runtime evolves, and what the
    recovery harness allows, with concrete instances. *)

From S2P Require Import Prelude RustStr OrdMap MediaModel MediaValidation MediaSpec MediaPlan P2pRoute.
From S2P Require Import MediaRuntime MediaComposition MediaLifecycle MediaFixture.

Local Open Scope N_scope.

(** C6: The session validator accepts exactly the well-formed plans: unique
    identities, resolved references, bounded media and queues, one route per
    lane ending at a port the sink receives on, a permitted topology, and no
    raw media logging outside the local diagnostic tier. *)
Theorem session_plan_valid (plan : MediaStreamSessionPlan) :
  validate_media_stream_session plan = Ok tt ↔ plan_wf plan.
Proof. apply session_ok. Qed.

(** *** Wiring of an accepted plan *)

Lemma elem_by_key {A} (key : A → string) (l : list A) x y :
  NoDup (key <$> l) → x ∈ l → y ∈ l → key x = key y → x = y.
Proof.
  intros Hd [i Hi]%list_elem_of_lookup [j Hj]%list_elem_of_lookup E.
  assert (i = j) as ->; [|congruence].
  apply (NoDup_lookup (key <$> l) i j (key x)); [done|..]; rewrite list_lookup_fmap, ?Hi, ?Hj; cbn; congruence.
Qed.

Lemma source_endpoint plan l : plan_wf plan → l ∈ pl_lanes plan →
  ∃ e b, e ∈ pl_runtime_endpoints plan ∧ ep_device_id e = lane_source_device_id l ∧
    b ∈ ep_source_bindings e ∧ sb_source_id b = lane_source_id l ∧
    sb_track_role b = med_track_role (lane_media l) ∧ sb_source_port b ≠ 0.
Proof.
  intros W Hl. pose proof (pw_lanes _ W) as (_ & _ & Fl). rewrite Forall_forall in Fl.
  destruct (Fl l Hl) as (_ & _ & _ & _ & _ & _ & _ & (s & Hs & Ei & Ed & Er) & _).
  pose proof (pw_sources _ W) as (_ & Ds & Fs). rewrite Forall_forall in Fs.
  destruct (Fs s Hs) as (_ & _ & _ & _ & _ & _ & _ & _ & Hmd & _).
  destruct (pw_coverage _ W) as [Cd Cb].
  apply Cd, list_elem_of_fmap in Hmd as (e & Ee & He).
  pose proof (Cb s e Hs He (eq_sym Ee)) as Hb. apply list_elem_of_fmap in Hb as (b & Eb & Hb).
  pose proof (pw_endpoints _ W) as [_ Fe]. rewrite Forall_forall in Fe.
  destruct (Fe e He) as (_ & _ & _ & _ & _ & Fb & _). rewrite Forall_forall in Fb.
  destruct (Fb b Hb) as (_ & _ & _ & _ & Hp & s' & Hs' & Es' & _ & Er').
  assert (s' = s) as -> by (apply (elem_by_key src_source_id (pl_sources plan)); congruence).
  exists e, b. split_and!; congruence.
Qed.

(** In an accepted plan every lane is wired end to end: the source device
    has an endpoint that binds the lane's source on the lane's track, exactly one
    route serves the lane with the lane's devices and track, and without a relay
    that route connects to a port on which the sink's endpoint receives that
    track. *)
Theorem lane_wired (plan : MediaStreamSessionPlan) (l : MediaStreamLane) :
  validate_media_stream_session plan = Ok tt → l ∈ pl_lanes plan →
  (∃ e b, e ∈ pl_runtime_endpoints plan ∧ ep_device_id e = lane_source_device_id l ∧
     b ∈ ep_source_bindings e ∧ sb_source_id b = lane_source_id l ∧
     sb_track_role b = med_track_role (lane_media l) ∧ sb_source_port b ≠ 0) ∧
  ∃ r, r ∈ pl_transport_routes plan ∧ rt_lane_id r = lane_lane_id l ∧
    (∀ r', r' ∈ pl_transport_routes plan → rt_lane_id r' = lane_lane_id l → r' = r) ∧
    rt_source_device_id r = lane_source_device_id l ∧ rt_sink_device_id r = lane_sink_device_id l ∧
    rt_track_role r = med_track_role (lane_media l) ∧
    (tr_relay_required (lane_transport l) = false →
     ∃ e b, e ∈ pl_runtime_endpoints plan ∧ ep_device_id e = lane_sink_device_id l ∧
       b ∈ ep_transport_receive_ports e ∧ pb_track_role b = med_track_role (lane_media l) ∧
       pb_port b = rt_connect_port r).
Proof.
  intros W%session_ok Hl. split; [by apply source_endpoint|].
  destruct (pw_routes _ W) as (Dr & Fr & Cr). destruct (pw_lanes _ W) as (_ & Dl & _).
  pose proof (Cr l Hl) as Hr. apply list_elem_of_fmap in Hr as (r & Er & Hr).
  rewrite Forall_forall in Fr. destruct (Fr r Hr) as (_ & _ & _ & _ & _ & _ & _ & l' & Hl' & El & E1 & E2 & E3 & Hk).
  assert (l' = l) as -> by (apply (elem_by_key lane_lane_id (pl_lanes plan)); congruence).
  exists r. split_and!; try congruence.
  - intros r' Hr' E'. apply (elem_by_key rt_lane_id (pl_transport_routes plan)); congruence.
  - intros Hrelay. destruct Hk as [(_ & _ & _ & e & b & He & Ed & Hb & Eb & Ep)|(_ & _ & Hx & _)]; [|congruence].
    exists e, b. split_and!; congruence.
Qed.

Definition mirror_lane : MediaStreamLane :=
  default (mkLane "" "" "" "" "" (mkMediaConfig "" "" "" "" "" 0 0 0 0 0 "" "" "")
             (mkTransportConfig "" false false None) (mkQueuePolicy 0 0 "" false) false)
    (head (pl_lanes mirror_plan)).

(** The display lane of the mirror plan is wired to port 9079 of the host. *)
Lemma lane_wired_witness :
  ∃ r, r ∈ pl_transport_routes mirror_plan ∧ rt_lane_id r = lane_lane_id mirror_lane ∧
    ∃ e b, e ∈ pl_runtime_endpoints mirror_plan ∧ ep_device_id e = "pc-host"%string ∧
      b ∈ ep_transport_receive_ports e ∧ pb_port b = rt_connect_port r.
Proof.
  destruct (lane_wired mirror_plan mirror_lane) as [_ (r & H1 & H2 & _ & _ & _ & _ & H3)].
  - vm_compute. reflexivity.
  - apply list_elem_of_here.
  - destruct (H3 eq_refl) as (e & b & He & Ed & Hb & _ & Hp). exists r. split_and!; [done..|]. by exists e, b.
Defined.

(** The direct peer-to-peer validator accepts a route, and returns its two
    addresses and port, exactly when the route names the Rusty-owned socket
    authority on the Wi-Fi Direct interface without an Android network
    substitution, both hosts are concrete addresses of one supported subnet that
    differ and are neither its network nor its broadcast address, and the port
    is not zero. *)
Theorem p2p_route_contract (r : DirectP2pSocketRoute) (v : ValidatedDirectP2pSocketRoute) :
  validate_direct_p2p_socket_route r = Ok v ↔ p2p_route_valid r v.
Proof. apply p2p_route_iff. Qed.

(** C35: The runtime specification validator accepts exactly the well-formed
    compositions: an accepted Manifold revision, a well-formed plan, conforming
    processors that own no codec, sinks on devices of the plan, exactly one
    binding per lane, peer-to-peer routes that match the plan, and owner
    selections that cover the product. *)
Theorem runtime_spec_valid (spec : MediaStreamRuntimeSpec) :
  validate_media_stream_runtime_spec spec = Ok tt ↔ runtime_spec_wf spec.
Proof. apply runtime_spec_ok. Qed.

(** In an accepted specification every resource of the product (source,
    processor, route, socket, codec lane, sink and the runtime itself) has
    exactly one selected owner of its kind, and no owner is selected for
    anything else. *)
Theorem one_owner_per_resource (spec : MediaStreamRuntimeSpec) (k : MediaStreamOwnerKind) (id : string) :
  validate_media_stream_runtime_spec spec = Ok tt →
  (id ∈ resource_ids spec k ↔
   ∃ s, s ∈ rsp_owner_selections spec ∧ own_owner_kind s = k ∧ own_resource_id s = id) ∧
  (∀ s s', s ∈ rsp_owner_selections spec → s' ∈ rsp_owner_selections spec →
     own_owner_kind s = own_owner_kind s' → own_resource_id s = own_resource_id s' → s = s').
Proof.
  intros W%runtime_spec_ok. destruct (rw_owners _ W) as [_ _ Hc _]. split.
  - destruct (Hc k) as [_ <-]. unfold selected_ids. rewrite list_elem_of_fmap.
    setoid_rewrite list_elem_of_filter. naive_solver.
  - assert (NoDup (selection_pair <$> rsp_owner_selections spec)) as Hd.
    { apply selected_pairs_NoDup. intros j. destruct (Hc j) as [_ ->].
      destruct (rw_processors _ W), (rw_sinks _ W). apply resource_ids_NoDup; auto using rw_plan. }
    intros s s' [i Hi]%list_elem_of_lookup [j Hj]%list_elem_of_lookup E1 E2.
    assert (i = j) as ->; [|congruence].
    apply (NoDup_lookup _ i j (selection_pair s) Hd); rewrite list_lookup_fmap, ?Hi, ?Hj; cbn; [done|].
    unfold selection_pair. congruence.
Qed.

Lemma one_owner_per_resource_witness :
  ∃ s, s ∈ rsp_owner_selections mirror_spec ∧ own_owner_kind s = OwnSocket ∧
    own_resource_id s = "quest-a-shell-display-to-pc-host"%string.
Proof.
  apply (one_owner_per_resource mirror_spec OwnSocket "quest-a-shell-display-to-pc-host").
  - vm_compute. reflexivity.
  - apply list_elem_of_here.
Defined.

(** Executing a request either applies it, when it is named, fresh, bound
    to the current revision and a step of the lifecycle with its evidence, and
    then advances the revision by one and records the request; or rejects it
    with a reason and leaves the runtime exactly as it was. *)
Theorem runtime_execute_spec (rt : MediaStreamSessionRuntime) (r : MediaStreamRuntimeRequest) :
  let '(rt', d) := runtime_execute rt r in
  let st := msr_state rt in
  mrd_applied d = mrd_accepted d ∧ mrd_prior_runtime_revision d = mrs_runtime_revision st ∧
  mrd_resulting_runtime_revision d = mrs_runtime_revision (msr_state rt') ∧
  mrd_resulting_phase d = mrs_phase (msr_state rt') ∧
  (request_admissible st r ∧ mrd_accepted d = true ∧ mrd_rejection_reason d = None ∧
     lifecycle_step (mrs_phase st) (mrq_action r) (mrq_evidence r) (mrs_phase (msr_state rt')) ∧
     rt' = mkSessionRuntime (msr_spec rt) (advance st r (mrs_phase (msr_state rt')))
   ∨ ¬ request_admissible st r ∧ mrd_accepted d = false ∧ is_Some (mrd_rejection_reason d) ∧ rt' = rt).
Proof.
  destruct (execute_cases rt r) as [(p & Ha & Hp & ->)|(reason & Ha & ->)]; cbn.
  - split_and!; try done. left. done.
  - split_and!; try done. right. eauto.
Qed.

(** C7: Over any sequence of requests to a new runtime, the applied requests
    arm the receivers, start the sources and confirm streaming in this order,
    each at most once and each with its evidence, and at most one final stop
    follows, after which nothing is applied; the revision counts the applied
    requests, so it stays at most 5, and no identifier is applied twice. *)
Theorem lifecycle_order (spec : MediaStreamRuntimeSpec) (rt rt' : MediaStreamSessionRuntime)
    (requests applied : list MediaStreamRuntimeRequest) :
  runtime_new spec = Ok rt → run_requests rt requests = (rt', applied) →
  sublist applied requests ∧
  lifecycle_path Planned applied (mrs_phase (msr_state rt')) ∧
  (∃ n, (mrq_action <$> applied) = take n startup ∧ mrs_phase (msr_state rt') ≠ Stopped ∨
        (mrq_action <$> applied) = take n startup ++ [Stop] ∧ mrs_phase (msr_state rt') = Stopped) ∧
  mrs_runtime_revision (msr_state rt') = 1 + len applied ∧ mrs_runtime_revision (msr_state rt') <= 5 ∧
  mrs_applied_request_ids (msr_state rt') = (mrq_request_id <$> applied) ∧ NoDup (mrq_request_id <$> applied).
Proof.
  intros [_ ->]%new_ok Hrun. apply run_requests_sound in Hrun as (_ & H2 & H3 & _ & _ & H6 & H7 & _ & H9).
  cbn in *. rewrite <- H7. pose proof (path_shape _ _ _ H3) as [n Hn]. cbn [drop] in Hn.
  assert (length applied <= 4)%nat as L.
  { rewrite <- (length_fmap mrq_action applied).
    destruct Hn as [[-> _]|[-> _]]; rewrite ?length_app, length_take; cbn; lia. }
  split_and!; auto using NoDup_nil_2.
  - exists n. destruct Hn as [[E Hz]|(E & Hz & _)]; [left|right]; split; [exact E| |exact E|exact Hz].
    intros Hs. by apply Hz in Hs.
  - rewrite H6. unfold len. lia.
Qed.

Lemma lifecycle_order_witness :
  NoDup (mrq_request_id <$> (run_requests mirror_runtime mirror_requests).2).
Proof.
  apply (lifecycle_order mirror_spec mirror_runtime (run_requests mirror_runtime mirror_requests).1
    mirror_requests (run_requests mirror_runtime mirror_requests).2).
  - vm_compute. reflexivity.
  - vm_compute. reflexivity.
Defined.

(** Every runtime reachable from a new one is restored from its
    specification and its state to exactly itself, so a recovery journal of it
    is never refused. *)
Theorem reachable_restores (spec : MediaStreamRuntimeSpec) (rt rt' : MediaStreamSessionRuntime)
    (requests applied : list MediaStreamRuntimeRequest) :
  runtime_new spec = Ok rt → run_requests rt requests = (rt', applied) →
  restore_cleanup_state spec (msr_state rt') = Ok rt'.
Proof.
  intros [W ->]%new_ok Hrun.
  apply run_requests_sound in Hrun as (H1 & _ & _ & H4 & H5 & H6 & H7 & H8 & H9). cbn in *.
  apply restore_ok. destruct rt' as [spec' st']. cbn in *. subst spec'. split_and!; [done| |done].
  constructor; auto.
  - rewrite H6. lia.
  - rewrite H7. split; [by apply Forall_fmap|]. rewrite <- H7. apply H9, NoDup_nil_2.
Qed.

Lemma reachable_restores_witness :
  restore_cleanup_state mirror_spec (msr_state (run_requests mirror_runtime mirror_requests).1) =
  Ok (run_requests mirror_runtime mirror_requests).1.
Proof.
  apply (reachable_restores mirror_spec mirror_runtime _ mirror_requests
    (run_requests mirror_runtime mirror_requests).2).
  - vm_compute. reflexivity.
  - vm_compute. reflexivity.
Defined.

(** After restoring a journal, whatever requests follow: a request whose
    identifier the journal already holds is never applied again, no identifier
    is applied twice, and a runtime restored as stopped applies nothing. *)
Theorem restored_never_replays (spec : MediaStreamRuntimeSpec) (st : MediaStreamRuntimeState)
    (rt rt' : MediaStreamSessionRuntime) (requests applied : list MediaStreamRuntimeRequest) :
  restore_cleanup_state spec st = Ok rt → run_requests rt requests = (rt', applied) →
  NoDup (mrs_applied_request_ids st ++ (mrq_request_id <$> applied)) ∧
  (mrs_phase st = Stopped → applied = [] ∧ rt' = rt).
Proof.
  intros (W & Hst & ->)%restore_ok Hrun. split.
  - apply run_requests_sound in Hrun as (_ & _ & _ & _ & _ & _ & H7 & _ & H9). cbn in *.
    rewrite <- H7. apply H9. by destruct (sw_ids _ _ Hst).
  - intros Hs. rewrite run_stopped in Hrun by done. by injection Hrun as <- <-.
Qed.

Definition stopped_state : MediaStreamRuntimeState :=
  mkRuntimeState MEDIA_STREAM_RUNTIME_STATE_SCHEMA "runtime.mirror" 3 Stopped ["r1"; "r2"]%string.

Lemma restored_never_replays_witness :
  (run_requests (mkSessionRuntime mirror_spec stopped_state) mirror_requests).2 = [].
Proof.
  apply (restored_never_replays mirror_spec stopped_state (mkSessionRuntime mirror_spec stopped_state)
    (run_requests (mkSessionRuntime mirror_spec stopped_state) mirror_requests).1 mirror_requests
    (run_requests (mkSessionRuntime mirror_spec stopped_state) mirror_requests).2).
  - vm_compute. reflexivity.
  - vm_compute. reflexivity.
  - vm_compute. reflexivity.
Defined.

(** Source conformance succeeds exactly for a source of a well-formed plan
    and reports that source; a source of camera kind always needs the camera
    permission and never operator consent, a display composite source always
    consent and never the camera. *)
Theorem source_conformance_spec (plan : MediaStreamSessionPlan) (id : string)
    (receipt : MediaStreamSourceConformanceReceipt) :
  validate_media_stream_source_conformance plan id = Ok receipt ↔
  plan_wf plan ∧ ∃ s, s ∈ pl_sources plan ∧ src_source_id s = id ∧
    receipt = mkSourceReceipt id (src_source_kind s) (src_capture_authority s)
      (scr_camera_permission_required receipt) (scr_consent_required receipt) false ∧
    (scr_camera_permission_required receipt = true ↔ is_Some (src_camera s)) ∧
    scr_consent_required receipt = src_consent_required s ∧
    (src_source_kind s = SOURCE_KIND_CAMERA2_MEDIACODEC_SURFACE →
       scr_camera_permission_required receipt = true ∧ scr_consent_required receipt = false) ∧
    (src_source_kind s = SOURCE_KIND_DISPLAY_COMPOSITE_MEDIAPROJECTION_SURFACE →
       scr_camera_permission_required receipt = false ∧ scr_consent_required receipt = true).
Proof.
  unfold validate_media_stream_source_conformance. rewrite then_ok, session_ok, ok_or_bind_ok.
  split.
  - intros (W & s & Hf & [= <-]). split; [done|]. exists s. cbn.
    apply List.find_some in Hf as [Hs Hid]. apply String.eqb_eq in Hid. apply list_elem_of_In in Hs.
    split_and!; try done; [by rewrite Hid|apply bool_decide_eq_true|..];
      (pose proof (pw_sources _ W) as (_ & _ & Fs); rewrite Forall_forall in Fs;
       destruct (Fs s Hs) as (_ & _ & _ & _ & _ & _ & _ & _ & _ & Hp); unfold source_policy_wf in Hp; intros E;
       rewrite E in Hp; destruct Hp as [[[=] _]|[(E' & Hp)|[(E' & Hp)|[([=] & _)|[[=] _]]]]]; try discriminate E').
    + destruct Hp as (_ & _ & -> & _ & cam & -> & _). done.
    + destruct Hp as (_ & _ & -> & -> & _). done.
  - intros (W & s & Hs & Hid & E & Hc & Hn & _). split; [done|]. exists s.
    destruct (List.find _ _) as [s'|] eqn:Hf.
    + apply List.find_some in Hf as [Hs' Hid']. apply String.eqb_eq in Hid'. apply list_elem_of_In in Hs'.
      assert (s' = s) as ->.
      { pose proof (pw_sources _ W) as (_ & Ds & _). apply (elem_by_key src_source_id (pl_sources plan)); congruence. }
      split; [done|]. rewrite E, Hn, Hid'. repeat f_equal.
      apply Bool.eq_iff_eq_true. by rewrite bool_decide_eq_true.
    + apply list_elem_of_In in Hs. pose proof (List.find_none _ _ Hf s Hs) as Hx. cbn in Hx.
      by rewrite Hid, String.eqb_refl in Hx.
Qed.

(** The conformance receipt always denies permission bleed: a lab display
    mirror that carries a camera descriptor is accepted, its receipt claims the
    camera permission and still reports no unrelated permission. *)
Theorem shell_source_camera_bleed :
  ∃ plan id receipt s, validate_media_stream_source_conformance plan id = Ok receipt ∧
    s ∈ pl_sources plan ∧ src_source_id s = id ∧
    src_source_kind s = SOURCE_KIND_SHELL_DISPLAY_MIRROR_SURFACE ∧
    scr_camera_permission_required receipt = true ∧ scr_permission_or_profile_bleed receipt = false.
Proof.
  exists (shell_mirror_plan "pc-host.local" (Some (mkCameraCaptureDescriptor "50" [] "back" "")))%string.
  eexists "quest-a-shell-display-mirror"%string, _, _. split; [vm_compute; reflexivity|].
  split; [apply list_elem_of_here|]. done.
Qed.

(** Whatever the order and number of calls, the recovery harness injects
    its failure once and recovers from it once, in that order: the calls that
    succeed are a prefix of inject, recover; the revision counts them; cleanup
    is outstanding exactly between the two; and only the death of the provider
    starts a fresh epoch. *)
Theorem harness_exactly_once (c : MediaFailureCriterion) (calls : list HarnessCall) :
  let '(h, succeeded) := run_harness (harness_new c) calls in
  let s := mfh_snapshot h in
  (∃ n, succeeded = take n [Inject; Recover]) ∧
  mfs_authority_revision s = 1 + len succeeded ∧
  (mfs_cleanup_complete s = false ↔ succeeded = [Inject]) ∧
  (mfs_provider_epoch s = 2 ↔ c = ProviderDeath ∧ succeeded = [Inject; Recover]) ∧
  (mfs_provider_epoch s = 1 ∨ mfs_provider_epoch s = 2).
Proof.
  induction calls as [|[] calls IH].
  - split_and!; try done; [by exists 0%nat|naive_solver|by left].
  - cbn [run_harness]. change (harness_inject (harness_new c)) with
      (Ok (E := MediaFailureTransitionError) (harness_damaged c)). cbv iota.
    rewrite run_harness_damaged. destruct (existsb _ calls).
    + split_and!; [by exists 2%nat|done|naive_solver|destruct c; naive_solver|destruct c; naive_solver].
    + split_and!; [by exists 1%nat|done|naive_solver|naive_solver|by left].
  - exact IH.
Qed.
