(* ===== verification/SignatureBase64.v ===== *)
(** * The text of an Ed25519 signature

    [encode_signature_base64] and [decode_signature_base64] of
    crates/rusty-quest-media-stream-android/src/owner_dispatch.rs: padded
    standard base64 of exactly 64 bytes, and that the decoder accepts exactly
    the encodings of 64-byte signatures. *)

From S2P Require Import Prelude RustStr Base64Url.

Local Open Scope N_scope.

(** ** The codec *)

Definition std_alphabet_char (index : N) : Ascii.ascii :=
  default Ascii.zero (String.get (N.to_nat index)
    "ABCDEFGHIJKLMNOPQRSTUVWXYZabcdefghijklmnopqrstuvwxyz0123456789+/").

(** One iteration of the loop over [chunks(3)]. *)
Definition encode_std_chunk (chunk : list N) : string :=
  let at_ i := default 0 (chunk !! i) in
  let word := N.lor (N.lor (N.shiftl (at_ 0%nat) 16) (N.shiftl (at_ 1%nat) 8)) (at_ 2%nat) in
  let pick k := std_alphabet_char (N.land (N.shiftr word k) 63) in
  String (pick 18) (String (pick 12)
    (String (if 1 <? len chunk then pick 6 else Ascii.ascii_of_nat 61)
    (String (if 2 <? len chunk then pick 0 else Ascii.ascii_of_nat 61) EmptyString))).

Definition encode_signature_base64 (signature : list N) : string :=
  foldr (fun chunk text => (encode_std_chunk chunk ++ text)%string) EmptyString (chunks3 signature).

Definition base64_value (value : N) : result string N :=
  if (65 <=? value) && (value <=? 90) then Ok (value - 65)
  else if (97 <=? value) && (value <=? 122) then Ok (value - 97 + 26)
  else if (48 <=? value) && (value <=? 57) then Ok (value - 48 + 52)
  else if value =? 43 then Ok 62
  else if value =? 47 then Ok 63
  else Err "invalid Ed25519 signature base64"%string.

(** The loop over [chunks_exact(4)] from [index]. *)
Fixpoint decode_std_chunks (index : N) (text : list N) : result string (list N) :=
  match text with
  | x :: y :: z :: w :: rest =>
      let final_chunk := index =? 21 in
      fail_if ((negb final_chunk && existsb (N.eqb 61) [x; y; z; w]) ||
               (final_chunk && (negb (z =? 61) || negb (w =? 61))))
        "invalid Ed25519 signature base64 padding"%string ;;
      a ← base64_value x;
      b ← base64_value y;
      c ← (if z =? 61 then Ok 0 else base64_value z);
      d ← (if w =? 61 then Ok 0 else base64_value w);
      let word := N.lor (N.lor (N.lor (N.shiftl a 18) (N.shiftl b 12)) (N.shiftl c 6)) d in
      more ← decode_std_chunks (index + 1) rest;
      Ok ([N.land (N.shiftr word 16) 255] ++
          (if z =? 61 then [] else [N.land (N.shiftr word 8) 255]) ++
          (if w =? 61 then [] else [N.land word 255]) ++ more)
  | _ => Ok []
  end.

(** [text.ends_with("==")]. *)
Definition ends_with_padding (text : string) : bool :=
  match reverse (str_bytes text) with 61 :: 61 :: _ => true | _ => false end.

Definition decode_signature_base64 (text : string) : result string (list N) :=
  fail_if (negb (str_len text =? 88) || negb (ends_with_padding text))
    "invalid Ed25519 signature base64 length"%string ;;
  decoded ← decode_std_chunks 0 (str_bytes text);
  fail_if (negb (len decoded =? 64)) "invalid Ed25519 signature base64 bytes"%string ;;
  fail_if (negb (encode_signature_base64 decoded =? text)%string)
    "non-canonical Ed25519 signature base64"%string ;;
  Ok decoded.

#[local] Arguments std_alphabet_char : simpl never.
#[local] Arguments base64_value : simpl never.
#[local] Arguments N.land : simpl never.
#[local] Arguments N.lor : simpl never.
#[local] Arguments N.shiftl : simpl never.
#[local] Arguments N.shiftr : simpl never.

(** ** The alphabet *)

Lemma std_value_alphabet i : i < 64 → base64_value (byte_of (std_alphabet_char i)) = Ok i.
Proof.
  intros Hi.
  pose proof (forall_below (fun i => match base64_value (byte_of (std_alphabet_char i)) with
                                     | Ok v => v =? i | Err _ => false end) 64 eq_refl i Hi) as H.
  cbv beta in H. destruct (base64_value _) as [v|]; [|done]. by apply N.eqb_eq in H as ->.
Qed.

Lemma std_alphabet_not_padding i : i < 64 → (byte_of (std_alphabet_char i) =? 61) = false.
Proof.
  intros Hi. apply negb_true_iff.
  by apply (forall_below (fun i => negb (byte_of (std_alphabet_char i) =? 61)) 64).
Qed.

(** ** Words *)

Lemma sextet_word a b c d : b < 64 → c < 64 → d < 64 →
  N.lor (N.lor (N.lor (N.shiftl a 18) (N.shiftl b 12)) (N.shiftl c 6)) d =
  a * 262144 + b * 4096 + c * 64 + d.
Proof.
  intros Hb Hc Hd.
  replace (N.shiftl a 18) with (N.shiftl (N.shiftl (N.shiftl a 6) 6) 6) by by rewrite !N.shiftl_shiftl.
  replace (N.shiftl b 12) with (N.shiftl (N.shiftl b 6) 6) by by rewrite !N.shiftl_shiftl.
  rewrite <- !N.shiftl_lor, !shiftl_lor_add by done. change (2 ^ 6) with 64. lia.
Qed.

Local Ltac Zify.zify_post_hook ::= Z.to_euclidean_division_equations.

(** The four sextets of a 24-bit word give the word back. *)
Lemma word_sextets w : w < 16777216 →
  (w / 2 ^ 18) mod 64 * 262144 + (w / 2 ^ 12) mod 64 * 4096 + (w / 2 ^ 6) mod 64 * 64 + (w / 2 ^ 0) mod 64 = w.
Proof.
  change (2 ^ 18) with 262144. change (2 ^ 12) with 4096. change (2 ^ 6) with 64. change (2 ^ 0) with 1. lia.
Qed.

Lemma word_byte0 a b c : a < 256 → b < 256 → c < 256 → ((a * 65536 + b * 256 + c) / 2 ^ 16) mod 256 = a.
Proof. change (2 ^ 16) with 65536. lia. Qed.

Lemma word_byte1 a b c : a < 256 → b < 256 → c < 256 → ((a * 65536 + b * 256 + c) / 2 ^ 8) mod 256 = b.
Proof. change (2 ^ 8) with 256. lia. Qed.

Lemma word_byte2 a b c : c < 256 → (a * 65536 + b * 256 + c) mod 256 = c.
Proof. lia. Qed.

Lemma word_last a : a < 256 →
  ((a * 65536 / 2 ^ 18) mod 64 * 262144 + (a * 65536 / 2 ^ 12) mod 64 * 4096) / 2 ^ 16 mod 256 = a.
Proof. change (2 ^ 18) with 262144. change (2 ^ 12) with 4096. change (2 ^ 16) with 65536. lia. Qed.

Local Ltac Zify.zify_post_hook ::= idtac.

(** ** Decoding an encoding *)

Definition std_byte (i : N) : N := byte_of (std_alphabet_char i).

Lemma encode_full_bytes a b c : b < 256 → c < 256 →
  let w := a * 65536 + b * 256 + c in
  str_bytes (encode_std_chunk [a; b; c]) =
  std_byte <$> [(w / 2 ^ 18) mod 64; (w / 2 ^ 12) mod 64; (w / 2 ^ 6) mod 64; (w / 2 ^ 0) mod 64].
Proof.
  intros Hb Hc w. unfold encode_std_chunk. cbn [default lookup list_lookup].
  change (1 <? len [a; b; c]) with true. change (2 <? len [a; b; c]) with true. cbv iota.
  cbn [str_bytes from_option id]. by rewrite chunk_word, !low_sextet by done.
Qed.

Lemma encode_last_bytes a :
  str_bytes (encode_std_chunk [a]) =
  (std_byte <$> [(a * 65536 / 2 ^ 18) mod 64; (a * 65536 / 2 ^ 12) mod 64]) ++ [61; 61].
Proof.
  unfold encode_std_chunk. change (1 <? len [a]) with false. change (2 <? len [a]) with false. cbv iota.
  cbn [default lookup list_lookup str_bytes from_option id].
  rewrite chunk_word, !low_sextet by done. by rewrite !N.add_0_r.
Qed.

Lemma low_byte0 w : N.land w 255 = w mod 256.
Proof. by rewrite <- (N.shiftr_0_r w) at 1; rewrite low_byte, N.div_1_r. Qed.

(** A group of four alphabet characters is the three bytes of its word. *)
Lemma decode_group index s0 s1 s2 s3 rest :
  s0 < 64 → s1 < 64 → s2 < 64 → s3 < 64 → index ≠ 21 →
  decode_std_chunks index ((std_byte <$> [s0; s1; s2; s3]) ++ rest) =
  more ← decode_std_chunks (index + 1) rest;
  let w := s0 * 262144 + s1 * 4096 + s2 * 64 + s3 in
  Ok ([(w / 2 ^ 16) mod 256; (w / 2 ^ 8) mod 256; w mod 256] ++ more).
Proof.
  intros H0 H1 H2 H3 Hi. unfold std_byte. cbn [fmap list_fmap app decode_std_chunks existsb].
  rewrite (proj2 (N.eqb_neq index 21) Hi), !(N.eqb_sym 61), !std_alphabet_not_padding by done.
  cbn [negb andb orb]. rewrite !std_value_alphabet by done. cbn [fail_if mbind result_bind].
  by rewrite sextet_word, !low_byte, low_byte0 by done.
Qed.

(** The last group: two characters and the padding give one byte. *)
Lemma decode_padded_group s0 s1 : s0 < 64 → s1 < 64 →
  decode_std_chunks 21 ((std_byte <$> [s0; s1]) ++ [61; 61]) = Ok [((s0 * 262144 + s1 * 4096) / 2 ^ 16) mod 256].
Proof.
  intros H0 H1. unfold std_byte. cbn [fmap list_fmap app decode_std_chunks existsb].
  change (21 =? 21) with true. change (61 =? 61) with true. cbn [negb andb orb].
  rewrite !std_value_alphabet by done. cbn [fail_if mbind result_bind].
  by rewrite sextet_word, low_byte, !N.add_0_r by done.
Qed.

Lemma decode_full_chunk index a b c rest :
  is_u8 a → is_u8 b → is_u8 c → index ≠ 21 →
  decode_std_chunks index (str_bytes (encode_std_chunk [a; b; c]) ++ rest) =
  more ← decode_std_chunks (index + 1) rest; Ok ([a; b; c] ++ more).
Proof.
  unfold is_u8. intros Ha Hb Hc Hi. rewrite encode_full_bytes, decode_group by (done || by apply N.mod_lt).
  cbv zeta. rewrite word_sextets by lia. by rewrite word_byte0, word_byte1, word_byte2.
Qed.

Lemma decode_last_chunk a : is_u8 a → decode_std_chunks 21 (str_bytes (encode_std_chunk [a])) = Ok [a].
Proof.
  unfold is_u8. intros Ha. rewrite encode_last_bytes, decode_padded_group by by apply N.mod_lt.
  pose proof (word_last a Ha) as ->. done.
Qed.

Lemma decode_encode_chunks n bs a : ∀ index,
  length bs = (3 * n)%nat → index + N.of_nat n = 21 → Forall is_u8 bs → is_u8 a →
  decode_std_chunks index (str_bytes (encode_signature_base64 (bs ++ [a]))) = Ok (bs ++ [a]).
Proof.
  revert bs. induction n as [|n IH]; intros bs index Hl Hi Hb Ha.
  - destruct bs; [|done]. replace index with 21 by lia. cbn [app]. unfold encode_signature_base64.
    cbn [chunks3 foldr]. by rewrite str_bytes_app, app_nil_r, decode_last_chunk.
  - destruct bs as [|b0 [|b1 [|b2 bs]]]; cbn in Hl; try lia. forall_cons.
    cbn [app]. unfold encode_signature_base64. cbn [chunks3 foldr]. rewrite str_bytes_app.
    rewrite decode_full_chunk by (done || lia).
    change (foldr _ _ _) with (encode_signature_base64 (bs ++ [a])).
    by rewrite IH by (done || lia).
Qed.

(** ** Shape of an encoding *)

Lemma encode_split n bs a : length bs = (3 * n)%nat → Forall is_u8 bs →
  ∃ front, length front = (4 * n)%nat ∧
    str_bytes (encode_signature_base64 (bs ++ [a])) = front ++ str_bytes (encode_std_chunk [a]).
Proof.
  revert bs. induction n as [|n IH]; intros bs Hl Hb.
  - destruct bs; [|done]. exists []. split; [done|]. cbn [app]. unfold encode_signature_base64.
    cbn [chunks3 foldr]. by rewrite str_bytes_app, app_nil_r.
  - destruct bs as [|b0 [|b1 [|b2 bs]]]; cbn in Hl; try lia. forall_cons. unfold is_u8 in *.
    destruct (IH bs) as (front & Hf & E); [lia|done|].
    exists (str_bytes (encode_std_chunk [b0; b1; b2]) ++ front). split.
    + rewrite length_app, Hf, encode_full_bytes by done. cbn. lia.
    + rewrite <- app_assoc, <- E. cbn [app]. unfold encode_signature_base64. cbn [chunks3 foldr].
      by rewrite str_bytes_app.
Qed.

Lemma encode_shape bs a : length bs = 63%nat → Forall is_u8 bs →
  let text := encode_signature_base64 (bs ++ [a]) in str_len text = 88 ∧ ends_with_padding text = true.
Proof.
  intros Hl Hb text. destruct (encode_split 21 bs a) as (front & Hf & E); [done..|].
  unfold str_len, ends_with_padding, text. rewrite <- length_str_bytes, E, encode_last_bytes. split.
  - rewrite !length_app, Hf. done.
  - by rewrite !reverse_app.
Qed.

Lemma list_split_last {A} n (l : list A) : length l = S n → ∃ bs a, l = bs ++ [a] ∧ length bs = n.
Proof.
  destruct l as [|a bs _] using rev_ind; [done|]. rewrite length_app. cbn. intros. exists bs, a.
  split; [done|lia].
Qed.

Lemma land_255_u8 w : is_u8 (N.land w 255).
Proof. rewrite low_byte0. by apply N.mod_lt. Qed.

Lemma decode_std_chunks_u8 text : ∀ index bs, decode_std_chunks index text = Ok bs → Forall is_u8 bs.
Proof.
  induction text as [| | | |x y z w rest IH] using list_ind4; intros index bs; cbn [decode_std_chunks];
    [by intros [= <-]..|].
  intros E. inv_ok. subst. apply Forall_cons. split; [apply land_255_u8|].
  repeat apply Forall_app_2; [destruct (z =? 61)|destruct (w =? 61)|by eapply IH];
    repeat constructor; apply land_255_u8.
Qed.

(** The decoder accepts exactly the encodings of 64-byte signatures. *)
Lemma decode_signature_iff text bs :
  decode_signature_base64 text = Ok bs ↔
  length bs = 64%nat ∧ Forall is_u8 bs ∧ text = encode_signature_base64 bs.
Proof.
  split.
  - unfold decode_signature_base64. intros E. inv_ok. subst. bool_to_prop. unfold len in *.
    split_and!; [lia|by eapply decode_std_chunks_u8|done].
  - intros (Hl & Hu & ->). destruct (list_split_last 63 bs Hl) as (front & a & -> & Hf).
    pose proof Hu as [Hfr [Ha _]%Forall_cons]%Forall_app.
    destruct (encode_shape front a Hf Hfr) as [E1 E2]. unfold decode_signature_base64.
    rewrite E1, E2. change (negb (88 =? 88) || negb true) with false.
    cbn [fail_if mbind result_bind]. rewrite (decode_encode_chunks 21) by done.
    cbn [mbind result_bind]. unfold len. rewrite Hl. cbn [mbind result_bind].
    by rewrite String.eqb_refl.
Qed.

(** Every refusal of the decoder is one of its own messages. *)
Lemma base64_value_err v e : base64_value v = Err e → e = "invalid Ed25519 signature base64"%string.
Proof. unfold base64_value. repeat case_match; by intros [= <-]. Qed.

Lemma decode_std_chunks_err text : ∀ index e, decode_std_chunks index text = Err e →
  e = "invalid Ed25519 signature base64"%string ∨ e = "invalid Ed25519 signature base64 padding"%string.
Proof.
  induction text as [| | | |x y z w rest IH] using list_ind4; intros index e; cbn [decode_std_chunks]; try done.
  destruct (fail_if _ _) as [u|e'] eqn:F; cbn [mbind result_bind].
  2: { intros [= <-]. right. unfold fail_if in F. destruct (_ || _); [by injection F as <-|discriminate F]. }
  destruct (base64_value x) as [a|e'] eqn:Ex; cbn [mbind result_bind]; [|intros [= <-]; eauto using base64_value_err].
  destruct (base64_value y) as [b|e'] eqn:Ey; cbn [mbind result_bind]; [|intros [= <-]; eauto using base64_value_err].
  destruct (if z =? 61 then Ok 0 else base64_value z) as [c|e'] eqn:Ez; cbn [mbind result_bind].
  2: { destruct (z =? 61); [done|]. intros [= <-]. eauto using base64_value_err. }
  destruct (if w =? 61 then Ok 0 else base64_value w) as [d|e'] eqn:Ew; cbn [mbind result_bind].
  2: { destruct (w =? 61); [done|]. intros [= <-]. eauto using base64_value_err. }
  destruct (decode_std_chunks (index + 1) rest) eqn:Er; cbn [mbind result_bind]; [done|].
  intros [= <-]. by eapply IH.
Qed.

Lemma decode_signature_err text e : decode_signature_base64 text = Err e →
  e ∈ ["invalid Ed25519 signature base64"; "invalid Ed25519 signature base64 padding";
       "invalid Ed25519 signature base64 length"; "invalid Ed25519 signature base64 bytes";
       "non-canonical Ed25519 signature base64"]%string.
Proof.
  unfold decode_signature_base64, fail_if. destruct (_ || _); cbn [mbind result_bind]; [intros [= <-]; set_solver|].
  destruct (decode_std_chunks 0 (str_bytes text)) as [bs|e'] eqn:E; cbn [mbind result_bind].
  - destruct (negb (len bs =? 64)); cbn [mbind result_bind]; [intros [= <-]; set_solver|].
    destruct (negb _); cbn [mbind result_bind]; [intros [= <-]; set_solver|done].
  - intros [= <-]. apply decode_std_chunks_err in E as [->| ->]; set_solver.
Qed.
