(* ===== verification/RetainedCleanup.v ===== *)
(** * Retained cleanup: two-principal tickets and the replay journal

    crates/rusty-quest-media-stream-android/src/retained_cleanup.rs: the
    write-ahead replay state of cleanup dispatches and the verification of a
    cleanup ticket. The durable store is the trait
    [RetainedCleanupReplayStore]; JSON encoding and SHA-256 are other crates. *)

From S2P Require Import Prelude RustStr MediaRuntime.

Local Open Scope N_scope.

(** ** Replay state *)

Definition MAX_RETAINED_CLEANUP_REPLAY_BYTES : N := 16 * 1024 * 1024.
Definition MAX_RETAINED_CLEANUP_PENDING : N := 32.
Definition MAX_RETAINED_CLEANUP_TERMINAL : N := 256.

Record RetainedCleanupTerminalReplay := mkTerminalReplay {
  tr_request_sha256 : string;
  tr_response_bytes : list N;
}.

Record RetainedCleanupReplaySnapshot := mkReplay {
  rp_pending_request_sha256 : gmap string string;
  rp_terminal : gmap string RetainedCleanupTerminalReplay;
  rp_commit_uncertain : bool;
}.

Inductive RetainedCleanupReplayDecision :=
  | New
  | PendingUncertain
  | Terminal (response_bytes : list N).

#[global] Instance replay_decision_eq_dec : EqDecision RetainedCleanupReplayDecision.
Proof. solve_decision. Defined.

(** [Default::default()]. *)
Definition replay_default : RetainedCleanupReplaySnapshot := mkReplay ∅ ∅ false.

Definition digest (value : string) : bool :=
  (str_len value =? 71) && starts_with "sha256:" value && all_bytes is_lower_hex (str_drop 7 value).

(** [serde_json::to_vec] on a snapshot, [None] when encoding fails. *)
Class ReplayEncoding := {
  snapshot_to_vec : RetainedCleanupReplaySnapshot → option (list N);
}.

(** The trait, its store being the [&mut self] it updates. *)
Class RetainedCleanupReplayStore (S : Type) := {
  store_commit : S → RetainedCleanupReplaySnapshot → S * result string unit;
}.

(** What a restart reads back. [commit_uncertain] is skipped by the encoding. *)
Definition persisted (snapshot : RetainedCleanupReplaySnapshot) : RetainedCleanupReplaySnapshot :=
  mkReplay (rp_pending_request_sha256 snapshot) (rp_terminal snapshot) false.

(** The documented contract of the store: atomic replacement that is durable
    when it reports success, and either happened or not when it reports
    failure. *)
Class ReplayStoreLaws (S : Type) `{RetainedCleanupReplayStore S} := {
  durable : S → RetainedCleanupReplaySnapshot;
  commit_ok s x s' : store_commit s x = (s', Ok tt) → durable s' = persisted x;
  commit_err s x s' e : store_commit s x = (s', Err e) → durable s' = durable s ∨ durable s' = persisted x;
}.

Section Replay.
Context {RE : ReplayEncoding}.

Definition too_long (encoded : option (list N)) : bool :=
  match encoded with None => true | Some bytes => MAX_RETAINED_CLEANUP_REPLAY_BYTES <? len bytes end.

Definition replay_validate (self : RetainedCleanupReplaySnapshot) : result string unit :=
  fail_if (rp_commit_uncertain self ||
           (MAX_RETAINED_CLEANUP_PENDING <? N.of_nat (size (rp_pending_request_sha256 self))) ||
           (MAX_RETAINED_CLEANUP_TERMINAL <? N.of_nat (size (rp_terminal self))) ||
           existsb (fun '(id, _) => bool_decide (is_Some (rp_terminal self !! id)))
             (map_to_list (rp_pending_request_sha256 self)) ||
           existsb (fun '(_, value) => negb (digest value)) (map_to_list (rp_pending_request_sha256 self)) ||
           existsb (fun '(_, value) =>
             negb (digest (tr_request_sha256 value)) || bool_decide (tr_response_bytes value = []))
             (map_to_list (rp_terminal self)) ||
           too_long (snapshot_to_vec self))
    "retained cleanup replay state invalid"%string.

Definition classify (self : RetainedCleanupReplaySnapshot) (dispatch_id request_sha256 : string)
    : result string RetainedCleanupReplayDecision :=
  replay_validate self ;;
  fail_if (str_is_empty dispatch_id || negb (digest request_sha256))
    "retained cleanup replay identity invalid"%string ;;
  match rp_terminal self !! dispatch_id with
  | Some value =>
      if (tr_request_sha256 value =? request_sha256)%string then Ok (Terminal (tr_response_bytes value))
      else Err "retained cleanup replay collision"%string
  | None =>
      match rp_pending_request_sha256 self !! dispatch_id with
      | Some value =>
          if (value =? request_sha256)%string then Ok PendingUncertain
          else Err "retained cleanup replay collision"%string
      | None => Ok New
      end
  end.

Context {St : Type} `{RetainedCleanupReplayStore St}.

Definition poison (self : RetainedCleanupReplaySnapshot) : RetainedCleanupReplaySnapshot :=
  mkReplay (rp_pending_request_sha256 self) (rp_terminal self) true.

(** [next.validate()?; commit; *self = next]: the common end of [reserve] and
    [complete]. *)
Definition commit_next (self next : RetainedCleanupReplaySnapshot) (store : St)
    : RetainedCleanupReplaySnapshot * St * result string unit :=
  match replay_validate next with
  | Err e => (self, store, Err e)
  | Ok _ =>
      let '(store, committed) := store_commit store next in
      match committed with
      | Err error =>
          (poison self, store, Err ("retained cleanup replay commit uncertain: " ++ error)%string)
      | Ok _ => (next, store, Ok tt)
      end
  end.

Definition reserve (dispatch_id request_sha256 : string) (self : RetainedCleanupReplaySnapshot) (store : St)
    : RetainedCleanupReplaySnapshot * St * result string unit :=
  match classify self dispatch_id request_sha256 with
  | Err e => (self, store, Err e)
  | Ok decision =>
      if negb (bool_decide (decision = New)) ||
         (MAX_RETAINED_CLEANUP_PENDING <=? N.of_nat (size (rp_pending_request_sha256 self)))
      then (self, store, Err "retained cleanup request already reserved"%string)
      else
        commit_next self
          (mkReplay (<[dispatch_id := request_sha256]> (rp_pending_request_sha256 self))
             (rp_terminal self) (rp_commit_uncertain self)) store
  end.

Definition complete (dispatch_id request_sha256 : string) (response_bytes : list N)
    (self : RetainedCleanupReplaySnapshot) (store : St)
    : RetainedCleanupReplaySnapshot * St * result string unit :=
  match classify self dispatch_id request_sha256 with
  | Err e => (self, store, Err e)
  | Ok decision =>
      if negb (bool_decide (decision = PendingUncertain)) ||
         (MAX_RETAINED_CLEANUP_TERMINAL <=? N.of_nat (size (rp_terminal self)))
      then (self, store, Err "retained cleanup request is not pending"%string)
      else
        commit_next self
          (mkReplay (delete dispatch_id (rp_pending_request_sha256 self))
             (<[dispatch_id := mkTerminalReplay request_sha256 response_bytes]> (rp_terminal self))
             (rp_commit_uncertain self)) store
  end.

(** ** Runs with crashes

    [Restart] is a process death and reload: memory is what the store holds. *)

Context {SL : ReplayStoreLaws St}.

Inductive CleanupCall :=
  | CallReserve (dispatch_id request_sha256 : string)
  | CallComplete (dispatch_id request_sha256 : string) (response_bytes : list N)
  | Restart.

Definition cleanup_step (call : CleanupCall) (self : RetainedCleanupReplaySnapshot) (store : St)
    : RetainedCleanupReplaySnapshot * St * result string unit :=
  match call with
  | CallReserve id sha => reserve id sha self store
  | CallComplete id sha bytes => complete id sha bytes self store
  | Restart => (durable store, store, Ok tt)
  end.

(** The final state and the calls that succeeded, oldest first. *)
Fixpoint cleanup_run (calls : list CleanupCall) (self : RetainedCleanupReplaySnapshot) (store : St)
    : RetainedCleanupReplaySnapshot * St * list CleanupCall :=
  match calls with
  | [] => (self, store, [])
  | call :: rest =>
      let '(self, store, outcome) := cleanup_step call self store in
      let '(self, store, done) := cleanup_run rest self store in
      (self, store, if is_ok outcome then call :: done else done)
  end.

(** The identifiers of the reservations in a list of calls. *)
Definition reserved_ids (calls : list CleanupCall) : list string :=
  omap (fun c => match c with CallReserve id _ => Some id | _ => None end) calls.

(** ** Invariant *)

Definition known (x : RetainedCleanupReplaySnapshot) (id : string) : Prop :=
  is_Some (rp_pending_request_sha256 x !! id) ∨ is_Some (rp_terminal x !! id).

Definition answers (x : RetainedCleanupReplaySnapshot) (id sha : string) (bytes : list N) : Prop :=
  rp_terminal x !! id = Some (mkTerminalReplay sha bytes).

(** Memory is what the store holds, unless it is poisoned. *)
Definition in_sync (self : RetainedCleanupReplaySnapshot) (store : St) : Prop :=
  rp_commit_uncertain self = false → self = durable store.

(** Later journal states keep every identifier and every terminal response. *)
Definition extends (x y : RetainedCleanupReplaySnapshot) : Prop :=
  (∀ id, known x id → known y id) ∧ (∀ id sha bytes, answers x id sha bytes → answers y id sha bytes).

#[global] Instance extends_preorder : PreOrder extends.
Proof. split; [by split|]. intros x y z [] []. split; eauto. Qed.

(** What the durable journal does over time: it also stays valid. *)
Definition evolves (x y : RetainedCleanupReplaySnapshot) : Prop :=
  extends x y ∧ (replay_validate x = Ok tt → replay_validate y = Ok tt).

#[global] Instance evolves_preorder : PreOrder evolves.
Proof. split; [by split|]. intros x y z [] []. split; [by etrans|auto]. Qed.

Lemma classify_certain self id sha d : classify self id sha = Ok d → rp_commit_uncertain self = false.
Proof.
  unfold classify, replay_validate. intros E. inv_ok. by bool_to_prop.
Qed.

Lemma classify_identity self id sha d :
  classify self id sha = Ok d → str_is_empty id || negb (digest sha) = false.
Proof. unfold classify. intros E. by inv_ok. Qed.

Lemma classify_new self id sha : classify self id sha = Ok New → ¬ known self id.
Proof.
  unfold classify, known. intros E. inv_ok.
  destruct (rp_terminal self !! id); [by case_match|].
  destruct (rp_pending_request_sha256 self !! id); [by case_match|]. intros [[? [=]]|[? [=]]].
Qed.

Lemma classify_pending self id sha : classify self id sha = Ok PendingUncertain →
  rp_terminal self !! id = None ∧ rp_pending_request_sha256 self !! id = Some sha.
Proof.
  unfold classify. intros E. inv_ok.
  destruct (rp_terminal self !! id); [by case_match|].
  destruct (rp_pending_request_sha256 self !! id); [|done]. case_match; [|done].
  bool_to_prop. by subst.
Qed.

Lemma reserve_extends self id sha : ¬ known self id →
  extends self (mkReplay (<[id := sha]> (rp_pending_request_sha256 self)) (rp_terminal self) false).
Proof.
  intros Hn. split; [|done]. intros id' [Hp|Ht]; [|by right]. left. cbn.
  destruct (decide (id = id')) as [->|]; [by rewrite lookup_insert_eq|by rewrite lookup_insert_ne].
Qed.

Lemma complete_extends self id sha bytes : rp_terminal self !! id = None →
  extends self (mkReplay (delete id (rp_pending_request_sha256 self))
                  (<[id := mkTerminalReplay sha bytes]> (rp_terminal self)) false).
Proof.
  intros Hn. split.
  - intros id' Hk. destruct (decide (id = id')) as [->|]; [right; cbn; by rewrite lookup_insert_eq|].
    destruct Hk; [left|right]; cbn; [by rewrite lookup_delete_ne|by rewrite lookup_insert_ne].
  - unfold answers. intros id' sha' bytes' Ha. cbn.
    destruct (decide (id = id')) as [->|]; [congruence|by rewrite lookup_insert_ne].
Qed.

Lemma persisted_certain x : rp_commit_uncertain x = false → persisted x = x.
Proof. destruct x. cbn. by intros ->. Qed.

Lemma commit_next_spec self next store self' store' o :
  rp_commit_uncertain self = false → self = durable store → rp_commit_uncertain next = false →
  extends self next → commit_next self next store = (self', store', o) →
  in_sync self' store' ∧ evolves (durable store) (durable store') ∧
  (o = Ok tt → self' = next ∧ durable store' = next).
Proof.
  intros Hu -> Hn Hx. unfold commit_next.
  destruct (replay_validate next) as [[]|] eqn:Hv; [|intros [= <- <- <-]; done].
  assert (evolves (durable store) next) by by split.
  destruct (store_commit store next) as [s [[]|e]] eqn:E; intros [= <- <- <-].
  - apply commit_ok in E. rewrite persisted_certain in E by done. unfold in_sync. rewrite E. by split_and!.
  - apply commit_err in E. rewrite persisted_certain in E by done. split_and!; [done| |done].
    destruct E as [->| ->]; done.
Qed.

(** What one call guarantees, about the durable journal. *)
Definition step_effect (call : CleanupCall) (before after : RetainedCleanupReplaySnapshot) : Prop :=
  match call with
  | CallReserve id sha => ¬ known before id ∧ rp_pending_request_sha256 after !! id = Some sha
  | CallComplete id sha bytes =>
      (str_is_empty id || negb (digest sha) = false ∧ rp_pending_request_sha256 before !! id = Some sha) ∧
      answers after id sha bytes
  | Restart => True
  end.

Lemma step_spec call self store self' store' o :
  in_sync self store → cleanup_step call self store = (self', store', o) →
  in_sync self' store' ∧ evolves (durable store) (durable store') ∧
  (o = Ok tt → self' = durable store' ∧ step_effect call (durable store) (durable store')).
Proof.
  intros Hs. destruct call as [id sha|id sha bytes|]; cbn [cleanup_step].
  - unfold reserve. destruct (classify self id sha) as [d|e] eqn:E; [|intros [= <- <- <-]; done].
    destruct (negb _ || _) eqn:G; [intros [= <- <- <-]; done|]. bool_to_prop. subst d.
    pose proof (classify_certain _ _ _ _ E) as Hc. apply classify_new in E. specialize (Hs Hc).
    rewrite Hc. intros Hstep.
    eapply commit_next_spec in Hstep as (P1 & P2 & P3); [|done..|by apply reserve_extends].
    split_and!; [done..|]. intros Ho. destruct (P3 Ho) as [-> Hd]. split; [done|].
    rewrite Hd, <- Hs. split; [done|]. cbn. apply lookup_insert_eq.
  - unfold complete. destruct (classify self id sha) as [d|e] eqn:E; [|intros [= <- <- <-]; done].
    destruct (negb _ || _) eqn:G; [intros [= <- <- <-]; done|]. bool_to_prop. subst d.
    pose proof (classify_certain _ _ _ _ E) as Hc. pose proof (classify_identity _ _ _ _ E) as Hid.
    apply classify_pending in E as [En Ep]. specialize (Hs Hc).
    rewrite Hc. intros Hstep.
    eapply commit_next_spec in Hstep as (P1 & P2 & P3); [|done..|by apply complete_extends].
    split_and!; [done..|]. intros Ho. destruct (P3 Ho) as [-> Hd]. split; [done|].
    rewrite Hd, <- Hs. split; [done|]. apply lookup_insert_eq.
  - intros [= <- <- <-]. done.
Qed.

(** What a run guarantees about the calls that succeeded in it. *)
Record run_effect (before after : RetainedCleanupReplaySnapshot) (succeeded : list CleanupCall) : Prop := {
  re_evolves : evolves before after;
  re_distinct : NoDup (reserved_ids succeeded);
  re_fresh : Forall (fun id => ¬ known before id) (reserved_ids succeeded);
  re_durable : Forall (known after) (reserved_ids succeeded);
  re_answers : ∀ id sha bytes, CallComplete id sha bytes ∈ succeeded →
    str_is_empty id || negb (digest sha) = false ∧ answers after id sha bytes;
}.

Lemma run_effect_skip x y z succeeded : evolves x y → run_effect y z succeeded → run_effect x z succeeded.
Proof.
  intros X [E D F K A]. split; [by etrans|done| |done..].
  eapply Forall_impl; [exact F|]. cbn. intros id Hn Hk. by apply Hn, X.
Qed.

Lemma run_effect_cons call x y z succeeded :
  evolves x y → step_effect call x y → run_effect y z succeeded → run_effect x z (call :: succeeded).
Proof.
  intros X Heff R. pose proof (run_effect_skip _ _ _ _ X R) as [E D F K A]. split; [done|..].
  - destruct call as [id sha| |]; cbn; [|done..]. apply NoDup_cons. split; [|done]. intros Hin.
    destruct R as [_ _ F' _ _]. rewrite Forall_forall in F'. apply (F' id Hin). left.
    destruct Heff as [_ ->]. eauto.
  - destruct call as [id sha| |]; cbn; [|done..]. apply Forall_cons. by destruct Heff.
  - destruct call as [id sha| |]; cbn; [|done..]. apply Forall_cons. split; [|done].
    apply (re_evolves _ _ _ R). left. destruct Heff as [_ ->]. eauto.
  - intros id sha bytes [<-|Hin]%elem_of_cons; [|auto]. destruct Heff as [[Hid _] Ha].
    split; [done|]. by apply (re_evolves _ _ _ R).
Qed.

Lemma run_spec calls self store self' store' succeeded :
  in_sync self store → cleanup_run calls self store = (self', store', succeeded) →
  in_sync self' store' ∧ run_effect (durable store) (durable store') succeeded.
Proof.
  revert self store succeeded. induction calls as [|call calls IH]; intros self store succeeded Hs; cbn [cleanup_run].
  { intros [= <- <- <-]. split; [done|]. split; [done|constructor|constructor|constructor|set_solver]. }
  destruct (cleanup_step call self store) as [[s1 st1] o] eqn:E1.
  destruct (cleanup_run calls s1 st1) as [[s2 st2] l] eqn:E2. intros [= <- <- <-].
  destruct (step_spec _ _ _ _ _ _ Hs E1) as (S1 & X1 & F1).
  destruct (IH _ _ _ S1 E2) as (S2 & R2). split; [done|].
  destruct o as [[]|e]; cbn [is_ok]; [|by eapply run_effect_skip].
  destruct (F1 eq_refl) as [_ Heff]. by eapply run_effect_cons.
Qed.

Lemma classify_terminal x id sha bytes :
  replay_validate x = Ok tt → str_is_empty id || negb (digest sha) = false → answers x id sha bytes →
  classify x id sha = Ok (Terminal bytes).
Proof.
  unfold classify, answers. intros -> Hid Ha. rewrite Hid, Ha. cbn. by rewrite String.eqb_refl.
Qed.

Lemma classify_answers x id sha bytes sha' d :
  answers x id sha bytes → classify x id sha' = Ok d → sha' = sha ∧ d = Terminal bytes.
Proof.
  unfold answers, classify. intros Ha E. inv_ok. rewrite Ha in E. cbn in E.
  destruct (String.eqb_spec sha sha'); [|done]. injection E as <-. by split.
Qed.

(** The memory after a call that succeeded. *)
Lemma commit_next_ok self next store self' store' : commit_next self next store = (self', store', Ok tt) → self' = next.
Proof.
  unfold commit_next. destruct (replay_validate next); [|done].
  destruct (store_commit store next) as [s [[]|e]]; by intros [= <- _].
Qed.

Lemma reserve_ok id sha self store self' store' :
  reserve id sha self store = (self', store', Ok tt) → rp_pending_request_sha256 self' !! id = Some sha.
Proof.
  unfold reserve. destruct (classify self id sha) as [d|]; [|done]. destruct (_ || _); [done|].
  intros ->%commit_next_ok. apply lookup_insert_eq.
Qed.

Lemma complete_ok id sha bytes self store self' store' :
  complete id sha bytes self store = (self', store', Ok tt) → answers self' id sha bytes.
Proof.
  unfold complete. destruct (classify self id sha) as [d|]; [|done]. destruct (_ || _); [done|].
  intros ->%commit_next_ok. apply lookup_insert_eq.
Qed.

End Replay.
