(* ===== verification/CleanupTicket.v ===== *)
(** * Retained cleanup: verification of a signed two-principal request

    [verify_signed_retained_cleanup_request_with_lifetime] and
    [verify_retained_cleanup_ticket] of
    crates/rusty-quest-media-stream-android/src/retained_cleanup.rs, the
    signing of a request, and the contract they decide.
    Ed25519, SHA-256 and JSON encoding are other crates. *)

From S2P Require Import Prelude RustStr UpdateAdmission MediaRuntime SignatureBase64 RetainedCleanup.

Local Open Scope N_scope.

Definition RETAINED_CLEANUP_PROJECTION_SCHEMA : string :=
  "rusty.quest.android.media.retained_cleanup_projection.v2".
Definition RETAINED_CLEANUP_TICKET_SCHEMA : string :=
  "rusty.quest.android.media.retained_cleanup_ticket.v2".
Definition RETAINED_CLEANUP_DISPATCH_REQUEST_SCHEMA : string :=
  "rusty.quest.android.media.retained_cleanup_dispatch_request.v2".
Definition RETAINED_CLEANUP_DISPATCH_DOMAIN : list N :=
  str_bytes "rusty.quest.android.media.retained_cleanup_dispatch.v2" ++ [0] ++ str_bytes "request" ++ [0].
Definition OWNED_CLEANUP_PROJECTION_SCHEMA : string :=
  "rusty.quest.android.media.retained_cleanup_projection.v3".
Definition OWNED_CLEANUP_TICKET_SCHEMA : string :=
  "rusty.quest.android.media.retained_cleanup_ticket.v3".
Definition OWNED_CLEANUP_DISPATCH_REQUEST_SCHEMA : string :=
  "rusty.quest.android.media.retained_cleanup_dispatch_request.v3".
Definition OWNED_CLEANUP_DISPATCH_DOMAIN : list N :=
  str_bytes "rusty.quest.android.media.retained_cleanup_dispatch.v3" ++ [0] ++ str_bytes "request" ++ [0].
Definition OWNED_CLEANUP_AUTHENTICATION_EXPIRED : string :=
  "owned_cleanup_authentication_expired_no_effect".
Definition ANDROID_MEDIA_EXECUTION_TICKET_SCHEMA : string :=
  "rusty.quest.android.media.execution-ticket.v1".
Definition MAX_OWNER_DISPATCH_FRAME_BYTES : N := 128 * 1024.

Inductive MediaStreamPlatformOperation := OpStart | OpStop.
Inductive MediaStreamOwnerActionKind := ActArmReceiver | ActArmCleanup | ActStart | ActStop | ActCleanup.
Inductive AndroidMediaExecutionMode := Execute | CompensateUncertain.

#[global] Instance platform_operation_eq_dec : EqDecision MediaStreamPlatformOperation.
Proof. solve_decision. Defined.
#[global] Instance owner_action_kind_eq_dec : EqDecision MediaStreamOwnerActionKind.
Proof. solve_decision. Defined.

Record AndroidMediaExecutionTicket := mkTicket {
  tk_schema_id : string;
  tk_capability : string;
  tk_executor_generation : N;
  tk_action_id : string;
  tk_authority_epoch_id : string;
  tk_media_acceptance_authority_revision : N;
  tk_expected_runtime_revision : N;
  tk_client_id : string;
  tk_lease_id : string;
  tk_sequence : N;
  tk_operation : MediaStreamPlatformOperation;
  tk_owner_kind : MediaStreamOwnerKind;
  tk_action_kind : MediaStreamOwnerActionKind;
  tk_owner_id : string;
  tk_provider_kind : string;
  tk_resource_id : string;
}.

Record RetainedCleanupAuthorityProjection := mkProjection {
  cpj_schema_id : string;
  cpj_authority_peer_id : string;
  cpj_executor_peer_id : string;
  cpj_peer_session_id : string;
  cpj_route_grant_id : string;
  cpj_route_authority_revision : N;
  cpj_provider_epoch_id : string;
  cpj_platform_runtime_spec_id : string;
  cpj_target_client_id : string;
  cpj_target_runtime_lease_id : string;
  cpj_requester_id : string;
  cpj_requester_runtime_lease_id : string;
  cpj_trusted_revoker : bool;
  cpj_cleanup_target_sha256 : string;
  cpj_terminal_route_sha256 : string;
  cpj_signed_topology_sha256 : string;
  cpj_historical_topology_expires_at_ms : N;
  cpj_requester_expires_at_ms : N;
  cpj_expires_at_ms : N;
}.

#[global] Instance execution_ticket_eq_dec : EqDecision AndroidMediaExecutionTicket.
Proof. solve_decision. Defined.
#[global] Instance cleanup_projection_eq_dec : EqDecision RetainedCleanupAuthorityProjection.
Proof. solve_decision. Defined.

Record RetainedCleanupExecutionTicket := mkCleanupTicket {
  ctk_schema_id : string;
  ctk_authority : RetainedCleanupAuthorityProjection;
  ctk_target : AndroidMediaExecutionTicket;
  ctk_mode : AndroidMediaExecutionMode;
  ctk_owner_effect_sha256 : string;
}.

Record RetainedCleanupDispatchRequest := mkCleanupRequest {
  crq_schema_id : string;
  crq_dispatch_id : string;
  crq_sequence : N;
  crq_issued_at_ms : N;
  crq_target_peer_id : string;
  crq_cleanup : RetainedCleanupExecutionTicket;
  crq_signer_key_id : string;
  crq_signature_base64 : string;
}.

(** ** Verification *)

(** [serde_json::to_vec] at the two types that are hashed or signed. *)
Class CleanupEncoding := {
  request_to_vec : RetainedCleanupDispatchRequest → option (list N);
  effect_to_vec : RetainedCleanupAuthorityProjection → AndroidMediaExecutionTicket →
    AndroidMediaExecutionMode → option (list N);
}.

Section Verification.
Context {RC : ReleaseCrypto} {CE : CleanupEncoding}.

Definition clear_signature (request : RetainedCleanupDispatchRequest) : RetainedCleanupDispatchRequest :=
  mkCleanupRequest (crq_schema_id request) (crq_dispatch_id request) (crq_sequence request)
    (crq_issued_at_ms request) (crq_target_peer_id request) (crq_cleanup request)
    (crq_signer_key_id request) EmptyString.

Definition retained_cleanup_request_sha256 (request : RetainedCleanupDispatchRequest)
    : result string string :=
  bytes ← ok_or (request_to_vec request) "cleanup request encode failed"%string;
  fail_if (MAX_OWNER_DISPATCH_FRAME_BYTES <? len bytes) "cleanup request exceeds frame bound"%string ;;
  Ok (sha256_identity bytes).

Definition signing_domain (schema_id : string) : option (list N) :=
  if (schema_id =? RETAINED_CLEANUP_DISPATCH_REQUEST_SCHEMA)%string
  then Some RETAINED_CLEANUP_DISPATCH_DOMAIN
  else if (schema_id =? OWNED_CLEANUP_DISPATCH_REQUEST_SCHEMA)%string
  then Some OWNED_CLEANUP_DISPATCH_DOMAIN
  else None.

Definition retained_cleanup_request_signing_bytes (request : RetainedCleanupDispatchRequest)
    : result string (list N) :=
  payload ← ok_or (request_to_vec (clear_signature request)) "cleanup request encode failed"%string;
  fail_if (MAX_OWNER_DISPATCH_FRAME_BYTES <? len payload) "cleanup request exceeds frame bound"%string ;;
  domain ← ok_or (signing_domain (crq_schema_id request)) "cleanup request signing schema"%string;
  Ok (domain ++ payload).

(** The first rejection test of [verify_retained_cleanup_ticket]. *)
Definition authority_invalid (ticket : RetainedCleanupExecutionTicket)
    (live : RetainedCleanupAuthorityProjection) (now_ms : N) : bool :=
  let authority := ctk_authority ticket in
  let owned := (cpj_schema_id authority =? OWNED_CLEANUP_PROJECTION_SCHEMA)%string in
  (if owned then negb (ctk_schema_id ticket =? OWNED_CLEANUP_TICKET_SCHEMA)%string
   else negb (ctk_schema_id ticket =? RETAINED_CLEANUP_TICKET_SCHEMA)%string ||
        negb (cpj_schema_id authority =? RETAINED_CLEANUP_PROJECTION_SCHEMA)%string) ||
  negb (bool_decide (authority = live)) ||
  (negb owned &&
   ((cpj_expires_at_ms authority <=? now_ms) || (cpj_requester_expires_at_ms authority <=? now_ms) ||
    (cpj_requester_expires_at_ms authority <? cpj_expires_at_ms authority))) ||
  (cpj_route_authority_revision authority =? 0) || str_is_empty (cpj_provider_epoch_id authority) ||
  str_is_empty (cpj_platform_runtime_spec_id authority) || str_is_empty (cpj_route_grant_id authority) ||
  str_is_empty (cpj_peer_session_id authority) || negb (digest (cpj_cleanup_target_sha256 authority)) ||
  negb (digest (cpj_terminal_route_sha256 authority)) || negb (digest (cpj_signed_topology_sha256 authority)).

Definition parties_match (authority : RetainedCleanupAuthorityProjection) : bool :=
  if cpj_trusted_revoker authority then
    negb (cpj_requester_id authority =? cpj_target_client_id authority)%string &&
    negb (cpj_requester_runtime_lease_id authority =? cpj_target_runtime_lease_id authority)%string
  else
    (cpj_requester_id authority =? cpj_target_client_id authority)%string &&
    (cpj_requester_runtime_lease_id authority =? cpj_target_runtime_lease_id authority)%string.

(** The second rejection test. *)
Definition target_mismatch (ticket : RetainedCleanupExecutionTicket)
    (expected_target : AndroidMediaExecutionTicket) (expected_executor_generation : N) : bool :=
  let authority := ctk_authority ticket in
  let target := ctk_target ticket in
  negb (parties_match authority) ||
  negb (tk_schema_id target =? ANDROID_MEDIA_EXECUTION_TICKET_SCHEMA)%string ||
  negb (bool_decide (target = expected_target)) ||
  negb (bool_decide (tk_operation target = OpStop)) ||
  negb (bool_decide (tk_action_kind target = ActStop) || bool_decide (tk_action_kind target = ActCleanup)) ||
  negb (tk_client_id target =? cpj_target_client_id authority)%string ||
  negb (tk_lease_id target =? cpj_target_runtime_lease_id authority)%string ||
  negb (tk_authority_epoch_id target =? cpj_provider_epoch_id authority)%string ||
  (expected_executor_generation =? 0) ||
  negb (tk_executor_generation target =? expected_executor_generation) ||
  (tk_sequence target =? 0).

Definition verify_retained_cleanup_ticket (ticket : RetainedCleanupExecutionTicket)
    (live : RetainedCleanupAuthorityProjection) (expected_target : AndroidMediaExecutionTicket)
    (expected_executor_generation now_ms : N) : result string unit :=
  fail_if (authority_invalid ticket live now_ms) "retained cleanup authority invalid"%string ;;
  fail_if (target_mismatch ticket expected_target expected_executor_generation)
    "retained cleanup target/requester mismatch"%string ;;
  encoded ← ok_or (effect_to_vec (ctk_authority ticket) (ctk_target ticket) (ctk_mode ticket))
    "retained cleanup effect encode failed"%string;
  fail_if (negb (ctk_owner_effect_sha256 ticket =? sha256_identity encoded)%string)
    "retained cleanup owner effect differs"%string.

(** The identity and freshness test of the signed request. *)
Definition dispatch_identity_differs (request : RetainedCleanupDispatchRequest)
    (live : RetainedCleanupAuthorityProjection) (expected_executor_peer_id expected_signer_key_id : string)
    (now_ms : N) : bool :=
  let owned := (crq_schema_id request =? OWNED_CLEANUP_DISPATCH_REQUEST_SCHEMA)%string in
  (negb owned && negb (crq_schema_id request =? RETAINED_CLEANUP_DISPATCH_REQUEST_SCHEMA)%string) ||
  negb (Bool.eqb owned (ctk_schema_id (crq_cleanup request) =? OWNED_CLEANUP_TICKET_SCHEMA)%string) ||
  negb (Bool.eqb owned (cpj_schema_id live =? OWNED_CLEANUP_PROJECTION_SCHEMA)%string) ||
  str_is_empty (crq_dispatch_id request) || (crq_sequence request =? 0) || (crq_issued_at_ms request =? 0) ||
  (saturating_add64 now_ms 2000 <? crq_issued_at_ms request) ||
  (negb owned && (30000 <? saturating_sub now_ms (crq_issued_at_ms request))) ||
  negb (crq_target_peer_id request =? expected_executor_peer_id)%string ||
  negb (crq_target_peer_id request =? cpj_executor_peer_id live)%string ||
  negb (crq_signer_key_id request =? expected_signer_key_id)%string.

Definition verify_signed_retained_cleanup_request_with_lifetime (request : RetainedCleanupDispatchRequest)
    (live : RetainedCleanupAuthorityProjection) (expected_target : AndroidMediaExecutionTicket)
    (expected_executor_generation : N) (expected_executor_peer_id expected_signer_key_id : string)
    (enrolled_signer_key : list N) (now_ms authentication_validity_ms : N) : result string unit :=
  fail_if (authentication_validity_ms =? 0) "cleanup authentication policy invalid"%string ;;
  fail_if (dispatch_identity_differs request live expected_executor_peer_id expected_signer_key_id now_ms)
    "cleanup dispatch identity/freshness differs"%string ;;
  verify_retained_cleanup_ticket (crq_cleanup request) live expected_target expected_executor_generation
    now_ms ;;
  bytes ← retained_cleanup_request_signing_bytes request;
  signature ← decode_signature_base64 (crq_signature_base64 request);
  key ← ok_or (vk_from_bytes enrolled_signer_key) "cleanup enrolled signer key invalid"%string;
  fail_if (negb (verify_strict key bytes signature)) "cleanup dispatch signature invalid"%string ;;
  fail_if ((crq_schema_id request =? OWNED_CLEANUP_DISPATCH_REQUEST_SCHEMA)%string &&
           (authentication_validity_ms <? saturating_sub now_ms (crq_issued_at_ms request)))
    OWNED_CLEANUP_AUTHENTICATION_EXPIRED.

Definition DEFAULT_OWNED_CLEANUP_AUTHENTICATION_VALIDITY_MS : N := 30000.

Definition verify_signed_retained_cleanup_request (request : RetainedCleanupDispatchRequest)
    (live : RetainedCleanupAuthorityProjection) (expected_target : AndroidMediaExecutionTicket)
    (expected_executor_generation : N) (expected_executor_peer_id expected_signer_key_id : string)
    (enrolled_signer_key : list N) (now_ms : N) : result string unit :=
  verify_signed_retained_cleanup_request_with_lifetime request live expected_target
    expected_executor_generation expected_executor_peer_id expected_signer_key_id enrolled_signer_key
    now_ms DEFAULT_OWNED_CLEANUP_AUTHENTICATION_VALIDITY_MS.

(** ** Signing *)

(** The trait of the application's key, [sign] on exact canonical bytes. *)
Class OwnerDispatchSigner := {
  signer_key_id : string;
  signer_sign : list N → result string (list N);
}.

Definition set_signature (request : RetainedCleanupDispatchRequest) (signature : string)
    : RetainedCleanupDispatchRequest :=
  mkCleanupRequest (crq_schema_id request) (crq_dispatch_id request) (crq_sequence request)
    (crq_issued_at_ms request) (crq_target_peer_id request) (crq_cleanup request)
    (crq_signer_key_id request) signature.

(** [&mut request] is returned, unchanged when an error is. *)
Definition sign_retained_cleanup_request {SG : OwnerDispatchSigner} (request : RetainedCleanupDispatchRequest)
    : result string RetainedCleanupDispatchRequest :=
  fail_if (negb (crq_signer_key_id request =? signer_key_id)%string ||
           negb (str_is_empty (crq_signature_base64 request))) "cleanup signer identity differs"%string ;;
  bytes ← retained_cleanup_request_signing_bytes request;
  signature ← signer_sign bytes;
  Ok (set_signature request (encode_signature_base64 signature)).

(** ** The contract *)

(** The two closed schema families: one live requester, or a durably owned
    resource whose requester deadline is history. *)
Inductive CleanupFamily := Retained | Owned.

Definition projection_schema (f : CleanupFamily) : string :=
  match f with Retained => RETAINED_CLEANUP_PROJECTION_SCHEMA | Owned => OWNED_CLEANUP_PROJECTION_SCHEMA end.
Definition ticket_schema (f : CleanupFamily) : string :=
  match f with Retained => RETAINED_CLEANUP_TICKET_SCHEMA | Owned => OWNED_CLEANUP_TICKET_SCHEMA end.
Definition request_schema (f : CleanupFamily) : string :=
  match f with
  | Retained => RETAINED_CLEANUP_DISPATCH_REQUEST_SCHEMA | Owned => OWNED_CLEANUP_DISPATCH_REQUEST_SCHEMA
  end.
Definition family_domain (f : CleanupFamily) : list N :=
  match f with Retained => RETAINED_CLEANUP_DISPATCH_DOMAIN | Owned => OWNED_CLEANUP_DISPATCH_DOMAIN end.

(** A projection that is live at [now_ms]. *)
Record live_projection (f : CleanupFamily) (live : RetainedCleanupAuthorityProjection) (now_ms : N) : Prop := {
  lp_schema : cpj_schema_id live = projection_schema f;
  lp_lease : f = Retained → now_ms < cpj_expires_at_ms live ∧ cpj_expires_at_ms live ≤ cpj_requester_expires_at_ms live;
  lp_revision : cpj_route_authority_revision live ≠ 0;
  lp_names : cpj_provider_epoch_id live ≠ EmptyString ∧ cpj_platform_runtime_spec_id live ≠ EmptyString ∧
    cpj_route_grant_id live ≠ EmptyString ∧ cpj_peer_session_id live ≠ EmptyString;
  lp_digests : Forall (fun d => digest d = true)
    [cpj_cleanup_target_sha256 live; cpj_terminal_route_sha256 live; cpj_signed_topology_sha256 live];
}.

(** The requester is the holder itself, or a trusted revoker that differs from
    the holder in both identity and lease. *)
Definition requester_ok (live : RetainedCleanupAuthorityProjection) : Prop :=
  let requester := (cpj_requester_id live, cpj_requester_runtime_lease_id live) in
  let holder := (cpj_target_client_id live, cpj_target_runtime_lease_id live) in
  if cpj_trusted_revoker live then requester.1 ≠ holder.1 ∧ requester.2 ≠ holder.2 else requester = holder.

(** A native ticket that stops the projection's own target in this executor. *)
Record stop_target (live : RetainedCleanupAuthorityProjection) (target : AndroidMediaExecutionTicket)
    (generation : N) : Prop := {
  st_schema : tk_schema_id target = ANDROID_MEDIA_EXECUTION_TICKET_SCHEMA;
  st_operation : tk_operation target = OpStop;
  st_action : tk_action_kind target ∈ [ActStop; ActCleanup];
  st_holder : (tk_client_id target, tk_lease_id target, tk_authority_epoch_id target) =
    (cpj_target_client_id live, cpj_target_runtime_lease_id live, cpj_provider_epoch_id live);
  st_generation : tk_executor_generation target = generation ∧ generation ≠ 0;
  st_sequence : tk_sequence target ≠ 0;
}.

Record cleanup_ticket_contract (f : CleanupFamily) (ticket : RetainedCleanupExecutionTicket)
    (live : RetainedCleanupAuthorityProjection) (expected_target : AndroidMediaExecutionTicket)
    (generation now_ms : N) : Prop := {
  ct_schema : ctk_schema_id ticket = ticket_schema f;
  ct_authority : ctk_authority ticket = live;
  ct_live : live_projection f live now_ms;
  ct_requester : requester_ok live;
  ct_target : ctk_target ticket = expected_target;
  ct_stop : stop_target live expected_target generation;
  ct_effect : ∃ encoded, effect_to_vec live expected_target (ctk_mode ticket) = Some encoded ∧
    ctk_owner_effect_sha256 ticket = sha256_identity encoded;
}.

(** The identity and the age of a signed request. *)
Record dispatch_contract (f : CleanupFamily) (request : RetainedCleanupDispatchRequest)
    (live : RetainedCleanupAuthorityProjection) (peer key_id : string) (now_ms validity : N) : Prop := {
  dc_schema : crq_schema_id request = request_schema f;
  dc_identity : crq_dispatch_id request ≠ EmptyString ∧ crq_sequence request ≠ 0 ∧ crq_issued_at_ms request ≠ 0;
  dc_not_future : crq_issued_at_ms request ≤ now_ms + 2000;
  dc_fresh : now_ms ≤ crq_issued_at_ms request + match f with Retained => 30000 | Owned => validity end;
  dc_peer : crq_target_peer_id request = peer ∧ cpj_executor_peer_id live = peer;
  dc_key : crq_signer_key_id request = key_id;
}.

(** The text is the encoding of a signature by the enrolled key over the
    family's domain and the request without its signature. *)
Definition signed_by (f : CleanupFamily) (request : RetainedCleanupDispatchRequest) (enrolled : list N) : Prop :=
  ∃ payload signature key,
    request_to_vec (clear_signature request) = Some payload ∧
    len payload ≤ MAX_OWNER_DISPATCH_FRAME_BYTES ∧
    length signature = 64%nat ∧ Forall is_u8 signature ∧
    crq_signature_base64 request = encode_signature_base64 signature ∧
    vk_from_bytes enrolled = Some key ∧ verify_strict key (family_domain f ++ payload) signature = true.
(** ** The checks decide the contract *)

Ltac reflect_checks :=
  rewrite ?orb_false_iff, ?andb_false_iff, ?negb_false_iff, ?String.eqb_eq, ?String.eqb_neq, ?N.eqb_neq,
    ?N.eqb_eq, ?N.leb_gt, ?N.ltb_ge, ?bool_decide_eq_true, ?str_is_empty_false.

Lemma requester_ok_iff live : parties_match live = true ↔ requester_ok live.
Proof.
  unfold parties_match, requester_ok. destruct (cpj_trusted_revoker live); cbn [fst snd];
    rewrite andb_true_iff, ?negb_true_iff, ?String.eqb_neq, ?String.eqb_eq; [done|].
  split; [intros [-> ->]; done|by intros [= -> ->]].
Qed.

(** The schema pair of a ticket and its projection names one family. *)
Lemma family_of_ticket ticket_id projection_id :
  (if (projection_id =? OWNED_CLEANUP_PROJECTION_SCHEMA)%string
   then negb (ticket_id =? OWNED_CLEANUP_TICKET_SCHEMA)%string
   else negb (ticket_id =? RETAINED_CLEANUP_TICKET_SCHEMA)%string ||
        negb (projection_id =? RETAINED_CLEANUP_PROJECTION_SCHEMA)%string) = false ↔
  ∃ f, ticket_id = ticket_schema f ∧ projection_id = projection_schema f.
Proof.
  destruct (String.eqb_spec projection_id OWNED_CLEANUP_PROJECTION_SCHEMA) as [->|Hn]; reflect_checks.
  - split; [intros ->; by exists Owned|intros [[] [-> ?]]; done].
  - split; [intros [-> ->]; by exists Retained|intros [[] [-> ->]]; done].
Qed.

Definition is_owned (f : CleanupFamily) : bool := match f with Retained => false | Owned => true end.

Lemma projection_owned f : (projection_schema f =? OWNED_CLEANUP_PROJECTION_SCHEMA)%string = is_owned f.
Proof. by destruct f. Qed.
Lemma ticket_owned f : (ticket_schema f =? OWNED_CLEANUP_TICKET_SCHEMA)%string = is_owned f.
Proof. by destruct f. Qed.
Lemma request_owned f : (request_schema f =? OWNED_CLEANUP_DISPATCH_REQUEST_SCHEMA)%string = is_owned f.
Proof. by destruct f. Qed.

Lemma authority_iff ticket live now_ms :
  authority_invalid ticket live now_ms = false ↔
  ∃ f, ctk_schema_id ticket = ticket_schema f ∧ ctk_authority ticket = live ∧ live_projection f live now_ms.
Proof.
  unfold authority_invalid. rewrite !orb_false_iff, family_of_ticket. split.
  - intros H. destruct_and!. match goal with H : ∃ f, _ |- _ => destruct H as (f & Hs & Hp) end.
    rewrite Hp, projection_owned in *. bool_to_prop. subst live. exists f. split_and!; [done..|].
    destruct f; split; rewrite <- ?str_is_empty_false; try done; cbn in *; intros; bool_to_prop; auto.
  - intros (f & Hs & <- & [Hp Hl Hr Hn Hd]). forall_cons. destruct_and!. rewrite Hp, projection_owned.
    rewrite bool_decide_true by done. rewrite <- !str_is_empty_false in *.
    split_and!; eauto; reflect_checks; auto.
    destruct f; [right|by left]. destruct (Hl eq_refl). bool_lia.
Qed.

Lemma target_iff ticket expected generation :
  target_mismatch ticket expected generation = false ↔
  requester_ok (ctk_authority ticket) ∧ ctk_target ticket = expected ∧
  stop_target (ctk_authority ticket) expected generation.
Proof.
  unfold target_mismatch. rewrite !orb_false_iff, !negb_false_iff, requester_ok_iff. split.
  - intros H. destruct_and!. bool_to_prop. subst expected. split_and!; [done..|].
    split; try done; [|congruence].
    match goal with H : _ || _ = true |- _ => apply orb_true_iff in H as [H|H] end; bool_to_prop; set_solver.
  - intros (Hp & -> & [S1 S2 S3 S4 [S5 S5'] S6]). injection S4 as -> -> ->.
    rewrite S1, S2, S5. reflect_checks. split_and!; try done.
    rewrite orb_true_iff, !bool_decide_eq_true. set_solver.
Qed.

Lemma verify_ticket_iff ticket live expected generation now_ms :
  verify_retained_cleanup_ticket ticket live expected generation now_ms = Ok tt ↔
  ∃ f, cleanup_ticket_contract f ticket live expected generation now_ms.
Proof.
  unfold verify_retained_cleanup_ticket.
  rewrite !fail_if_bind_ok, authority_iff, target_iff, ok_or_bind_ok. split.
  - intros ((f & Hs & <- & Hl) & (Hr & <- & Ht) & encoded & He & Hh). exists f. split; try done.
    apply fail_if_ok in Hh. bool_to_prop. eauto.
  - intros [f [Hs Ha Hl Hr Ht Hst (encoded & He & Hh)]]. rewrite Ha, Ht. split; [by exists f|].
    split; [done|]. exists encoded. rewrite fail_if_ok. reflect_checks. done.
Qed.

(** The request names the family of the ticket it carries. *)
Lemma family_of_request f request_id :
  (negb (request_id =? OWNED_CLEANUP_DISPATCH_REQUEST_SCHEMA)%string &&
   negb (request_id =? RETAINED_CLEANUP_DISPATCH_REQUEST_SCHEMA)%string) = false ∧
  (request_id =? OWNED_CLEANUP_DISPATCH_REQUEST_SCHEMA)%string = is_owned f ↔
  request_id = request_schema f.
Proof.
  split; [|intros ->; by destruct f].
  destruct (String.eqb_spec request_id OWNED_CLEANUP_DISPATCH_REQUEST_SCHEMA) as [->|Hn]; cbn.
  - intros [_ Ho]. by destruct f.
  - intros [->%negb_false_iff%String.eqb_eq Ho]. by destruct f.
Qed.

(** The two age tests, before and after the signature, as one deadline. *)
Lemma request_age f (now_ms issued validity : N) :
  negb (is_owned f) && (30000 <? saturating_sub now_ms issued) = false ∧
  is_owned f && (validity <? saturating_sub now_ms issued) = false ↔
  now_ms ≤ issued + match f with Retained => 30000 | Owned => validity end.
Proof. unfold saturating_sub. destruct f; cbn [is_owned negb andb]; rewrite !N.ltb_ge; split; intros; lia || (split; done || lia). Qed.

Lemma not_future (now_ms issued : N) : issued ≤ u64_max →
  (saturating_add64 now_ms 2000 <? issued) = false ↔ issued ≤ now_ms + 2000.
Proof. intros. unfold saturating_add64. rewrite N.ltb_ge. lia. Qed.

Lemma dispatch_iff f request live peer key_id now_ms validity :
  crq_issued_at_ms request ≤ u64_max →
  ctk_schema_id (crq_cleanup request) = ticket_schema f → cpj_schema_id live = projection_schema f →
  dispatch_identity_differs request live peer key_id now_ms = false ∧
  (crq_schema_id request =? OWNED_CLEANUP_DISPATCH_REQUEST_SCHEMA)%string &&
    (validity <? saturating_sub now_ms (crq_issued_at_ms request)) = false ↔
  dispatch_contract f request live peer key_id now_ms validity.
Proof.
  intros Hi Ht Hl. unfold dispatch_identity_differs.
  rewrite Ht, Hl, ticket_owned, projection_owned, !orb_false_iff, !negb_false_iff, !Bool.eqb_true_iff.
  rewrite not_future by done. split.
  - intros H. destruct_and!. assert (crq_schema_id request = request_schema f) as Hs by by apply family_of_request.
    rewrite Hs, request_owned in *. bool_to_prop. rewrite str_is_empty_false in *.
    split; try done; [|split; congruence]. by apply request_age.
  - intros [Hs (Hd & Hq & Hz) Hf Ha [<- Hp] Hk]. apply family_of_request in Hs as Hs'.
    apply request_age in Ha. rewrite Hs, request_owned in *. rewrite <- str_is_empty_false in Hd.
    destruct Ha, Hs'. split_and!; rewrite ?String.eqb_eq, ?N.eqb_neq; done.
Qed.

Lemma signing_domain_family f : signing_domain (request_schema f) = Some (family_domain f).
Proof. by destruct f. Qed.

Lemma signing_bytes_iff f request bytes : crq_schema_id request = request_schema f →
  retained_cleanup_request_signing_bytes request = Ok bytes ↔
  ∃ payload, request_to_vec (clear_signature request) = Some payload ∧
    len payload ≤ MAX_OWNER_DISPATCH_FRAME_BYTES ∧ bytes = family_domain f ++ payload.
Proof.
  intros Hs. unfold retained_cleanup_request_signing_bytes. rewrite ok_or_bind_ok. f_equiv. intros payload.
  rewrite fail_if_bind_ok, Hs, signing_domain_family, N.ltb_ge. cbn. naive_solver.
Qed.

(** The signature never covers itself. *)
Lemma signing_bytes_set_signature request text :
  retained_cleanup_request_signing_bytes (set_signature request text) =
  retained_cleanup_request_signing_bytes request.
Proof. done. Qed.

Lemma verify_signed_iff request live expected generation peer key_id enrolled now_ms validity :
  crq_issued_at_ms request ≤ u64_max →
  verify_signed_retained_cleanup_request_with_lifetime request live expected generation peer key_id
    enrolled now_ms validity = Ok tt ↔
  validity ≠ 0 ∧
  ∃ f, dispatch_contract f request live peer key_id now_ms validity ∧
    cleanup_ticket_contract f (crq_cleanup request) live expected generation now_ms ∧
    signed_by f request enrolled.
Proof.
  intros Hi. unfold verify_signed_retained_cleanup_request_with_lifetime.
  rewrite !fail_if_bind_ok, N.eqb_neq, then_ok, verify_ticket_iff. split.
  - intros (Hv & Hd & (f & Hc) & E). split; [done|]. exists f. pose proof Hc as [Ht _ [Hl _ _ _ _] _ _ _ _].
    apply bind_ok in E as (bytes & Eb & E). apply bind_ok in E as (signature & Es & E).
    apply ok_or_bind_ok in E as (key & Ek & E). apply fail_if_bind_ok in E as [Ev E]. apply fail_if_ok in E.
    pose proof (proj1 (dispatch_iff f request live peer key_id now_ms validity Hi Ht Hl) (conj Hd E)) as Hdc.
    split_and!; [done..|]. apply (signing_bytes_iff f) in Eb as (payload & Ep & Hlen & ->); [|apply Hdc].
    apply decode_signature_iff in Es as (L & U & T). apply negb_false_iff in Ev.
    exists payload, signature, key. done.
  - intros (Hv & f & Hdc & Hc & payload & signature & key & Ep & Hlen & L & U & T & Ek & Ev).
    pose proof Hc as [Ht _ [Hl _ _ _ _] _ _ _ _].
    apply dispatch_iff in Hdc as Hd; [|done..]. destruct Hd as [Hd Ha]. split_and!; [done..|by exists f|].
    apply bind_ok. exists (family_domain f ++ payload). split.
    { apply (signing_bytes_iff f); [apply Hdc|eauto]. }
    apply bind_ok. exists signature. split; [by apply decode_signature_iff|].
    apply ok_or_bind_ok. exists key. split; [done|]. apply fail_if_bind_ok.
    split; [by rewrite Ev|]. by apply fail_if_ok.
Qed.

(** A key that signs: 64 bytes that verify under its own public key. *)
Class SignerLaws {SG : OwnerDispatchSigner} (public : list N) : Prop := {
  signer_signature bytes signature : signer_sign bytes = Ok signature →
    length signature = 64%nat ∧ Forall is_u8 signature ∧
    ∃ key, vk_from_bytes public = Some key ∧ verify_strict key bytes signature = true;
}.

Lemma set_signature_dispatch f request text live peer key_id now_ms validity :
  dispatch_contract f request live peer key_id now_ms validity →
  dispatch_contract f (set_signature request text) live peer key_id now_ms validity.
Proof. intros []. by split. Qed.

Lemma sign_signed_by {SG : OwnerDispatchSigner} public f request request' :
  SignerLaws public → crq_schema_id request = request_schema f →
  sign_retained_cleanup_request request = Ok request' →
  signed_by f request' public ∧ ∃ text, request' = set_signature request text.
Proof.
  intros HL Hs. unfold sign_retained_cleanup_request. rewrite fail_if_bind_ok. intros [_ E].
  apply bind_ok in E as (bytes & Eb & E). apply bind_ok in E as (signature & Es & [= <-]).
  split; [|eauto]. apply signer_signature in Es as (L & U & key & Ek & Ev).
  apply (signing_bytes_iff f) in Eb as (payload & Ep & Hlen & ->); [|done].
  exists payload, signature, key. done.
Qed.

Lemma sign_ok {SG : OwnerDispatchSigner} f request payload signature :
  crq_signer_key_id request = signer_key_id → crq_signature_base64 request = EmptyString →
  crq_schema_id request = request_schema f → request_to_vec (clear_signature request) = Some payload →
  len payload ≤ MAX_OWNER_DISPATCH_FRAME_BYTES → signer_sign (family_domain f ++ payload) = Ok signature →
  sign_retained_cleanup_request request = Ok (set_signature request (encode_signature_base64 signature)).
Proof.
  intros Hk Hempty Hs Ep Hl Hsig. unfold sign_retained_cleanup_request.
  rewrite Hk, Hempty, String.eqb_refl. cbn [negb orb str_is_empty]. apply fail_if_bind_ok. split; [done|].
  apply bind_ok. exists (family_domain f ++ payload). split; [apply (signing_bytes_iff f); eauto|].
  apply bind_ok. eauto.
Qed.

(** ** The refusal that permits a refresh *)

Lemma verify_ticket_err ticket live expected generation now_ms e :
  verify_retained_cleanup_ticket ticket live expected generation now_ms = Err e →
  e ≠ OWNED_CLEANUP_AUTHENTICATION_EXPIRED.
Proof.
  unfold verify_retained_cleanup_ticket. rewrite !fail_if_bind_err.
  intros [[_ <-]|[_ [[_ <-]|[_ E]]]]; [done..|].
  destruct (effect_to_vec _ _ _) as [encoded|]; cbn in E; [|by injection E as <-].
  unfold fail_if in E. destruct (negb _); [by injection E as <-|done].
Qed.

Lemma signing_bytes_err request e :
  retained_cleanup_request_signing_bytes request = Err e → e ≠ OWNED_CLEANUP_AUTHENTICATION_EXPIRED.
Proof.
  unfold retained_cleanup_request_signing_bytes. intros E.
  destruct (request_to_vec _); cbn in E; [|by injection E as <-].
  apply fail_if_bind_err in E as [[_ <-]|[_ E]]; [done|].
  destruct (signing_domain _); cbn in E; [done|by injection E as <-].
Qed.

(** The expiry refusal is given only to an owned request whose signature,
    projection and target were all right and whose age alone is not. *)
Lemma verify_expired request live expected generation peer key_id enrolled now_ms validity :
  verify_signed_retained_cleanup_request_with_lifetime request live expected generation peer key_id
    enrolled now_ms validity = Err OWNED_CLEANUP_AUTHENTICATION_EXPIRED →
  crq_schema_id request = request_schema Owned ∧ crq_target_peer_id request = peer ∧
  (∃ f, cleanup_ticket_contract f (crq_cleanup request) live expected generation now_ms) ∧
  signed_by Owned request enrolled ∧ validity < now_ms - crq_issued_at_ms request.
Proof.
  unfold verify_signed_retained_cleanup_request_with_lifetime. rewrite !fail_if_bind_err.
  intros [[_ ?]|[_ [[_ ?]|[Hd E]]]]; [done..|].
  apply bind_err in E as [E|([] & Hc & E)]; [by apply verify_ticket_err in E|].
  apply verify_ticket_iff in Hc.
  apply bind_err in E as [E|(bytes & Eb & E)]; [by apply signing_bytes_err in E|].
  apply bind_err in E as [E|(signature & Es & E)].
  { apply decode_signature_err in E. repeat (apply elem_of_cons in E as [E|E]; [done|]). set_solver. }
  apply bind_err in E as [E|(key & Ek & E)]; [destruct (vk_from_bytes enrolled); [done|by injection E]|].
  apply fail_if_bind_err in E as [[_ ?]|[Ev E]]; [done|].
  unfold fail_if in E. destruct (_ && _) eqn:Ha; [clear E|done]. unfold dispatch_identity_differs in Hd.
  bool_to_prop. split_and!; [done..| |done].
  apply (signing_bytes_iff Owned) in Eb as (payload & Ep & Hlen & ->); [|done].
  apply decode_signature_iff in Es as (L & U & T). destruct (vk_from_bytes enrolled) eqn:Evk; [|done].
  injection Ek as ->. exists payload, signature, key. done.
Qed.

End Verification.
