(* ===== verification/OwnerEffect.v ===== *)
(** * Retained cleanup: owner effects and the proofs that carry them

    The readback of an Android owner (validate_readback of
    crates/rusty-quest-media-stream-android/src/lib.rs), the authenticated effect
    (validate_effect of owner_dispatch.rs), the signed response of the cleanup
    server (retained_cleanup_server.rs) and the remote proof a source keeps
    (remote_cleanup_proof.rs). The four verify one another: an effect may carry
    a remote proof, whose response carries an effect. *)

From S2P Require Import Prelude RustStr UpdateAdmission MediaRuntime SignatureBase64 RetainedCleanup CleanupTicket.

Local Open Scope N_scope.

Definition ANDROID_MEDIA_READBACK_SCHEMA : string := "rusty.quest.android.media.readback.v1".
Definition VERIFIED_OWNER_EFFECT_SCHEMA : string := "rusty.quest.android.media.verified_owner_effect.v1".
Definition RETAINED_CLEANUP_DISPATCH_RESPONSE_SCHEMA : string :=
  "rusty.quest.android.media.retained_cleanup_dispatch_response.v2".
Definition RESPONSE_DOMAIN : list N :=
  str_bytes "rusty.quest.android.media.retained_cleanup_dispatch.v2" ++ [0] ++ str_bytes "response" ++ [0].
Definition OWNED_CLEANUP_DISPATCH_RESPONSE_SCHEMA : string :=
  "rusty.quest.android.media.retained_cleanup_dispatch_response.v3".
Definition OWNED_RESPONSE_DOMAIN : list N :=
  str_bytes "rusty.quest.android.media.retained_cleanup_dispatch.v3" ++ [0] ++ str_bytes "response" ++ [0].
Definition PREPARE_DOMAIN : list N :=
  str_bytes "rusty.quest.android.media.retained_cleanup_prepare.v1" ++ [0].
Definition ABORT_PREPARE_DOMAIN : list N :=
  str_bytes "rusty.quest.android.media.retained_abort_prepare.v2" ++ [0].
Definition PREPARED_STOP_SCHEMA : string := "rusty.quest.android.media.retained_cleanup_prepared_stop.v1".
Definition PREPARED_ABORT_SCHEMA : string := "rusty.quest.android.media.retained_abort_prepared_stop.v2".
Definition REMOTE_CLEANUP_SCHEMA : string := "rusty.quest.android.media.remote_retained_cleanup_effect.v1".
Definition REMOTE_ABORT_SCHEMA : string := "rusty.quest.android.media.remote_retained_abort_effect.v2".

(** ** Data *)

Inductive AndroidMediaContractError :=
  | InvalidAuthority | InvalidSequence | SchemaMismatch | TicketMismatch | InvalidProviderEvidence
  | FrameContractMismatch | PairExpired.

Record RetainedCleanupPreparedStop := mkPrepared {
  pst_schema_id : string;
  pst_prepare_request_sha256 : string;
  pst_dispatch_id : string;
  pst_target_preparation_revision : N;
  pst_source_ticket : AndroidMediaExecutionTicket;
  pst_target_ticket : AndroidMediaExecutionTicket;
  pst_authority : RetainedCleanupAuthorityProjection;
  pst_signer_key_id : string;
  pst_signature_base64 : string;
}.

Record RemoteRetainedCleanupEffect := mkRemoteEffect {
  rce_schema_id : string;
  rce_prepared : RetainedCleanupPreparedStop;
  rce_commit : RetainedCleanupDispatchRequest;
  rce_response_bytes : list N;
  rce_enrolled_target_key : list N;
}.

Record AndroidMediaOwnerReadback := mkReadback {
  rb_remote_cleanup : option RemoteRetainedCleanupEffect;
  rb_schema_id : string;
  rb_capability : string;
  rb_executor_generation : N;
  rb_action_id : string;
  rb_authority_epoch_id : string;
  rb_media_acceptance_authority_revision : N;
  rb_expected_runtime_revision : N;
  rb_client_id : string;
  rb_lease_id : string;
  rb_sequence : N;
  rb_operation : MediaStreamPlatformOperation;
  rb_owner_kind : MediaStreamOwnerKind;
  rb_action_kind : MediaStreamOwnerActionKind;
  rb_owner_id : string;
  rb_provider_kind : string;
  rb_resource_id : string;
  rb_provider_handle_id : string;
  rb_provider_state_revision : N;
  rb_observed_state : string;
  rb_receipt_id : string;
}.

Record MediaStreamOwnerProviderReadback := mkProviderReadback {
  prb_action_id : string;
  prb_authority_epoch_id : string;
  prb_media_acceptance_authority_revision : N;
  prb_client_id : string;
  prb_lease_id : string;
  prb_provider_kind : string;
  prb_resource_id : string;
  prb_provider_handle_id : string;
  prb_provider_state_revision : N;
  prb_observed_state : string;
  prb_receipt_id : string;
}.

Record VerifiedOwnerEffect := mkVerifiedEffect {
  voe_schema_id : string;
  voe_receipt_id : string;
  voe_readback_sha256 : string;
  voe_executor_generation : N;
  voe_provider_state_revision : N;
  voe_observed_state : string;
  voe_terminal : bool;
  voe_provider_handle_id : string;
  voe_detail_sha256 : string;
}.

Record AuthenticatedOwnerEffect := mkEffect {
  aoe_readback : AndroidMediaOwnerReadback;
  aoe_readback_json : string;
  aoe_verified : VerifiedOwnerEffect;
}.

Inductive OwnerDispatchStatus := Completed | Uncertain | Rejected.

Record RetainedCleanupDispatchResponse := mkCleanupResponse {
  crs_schema_id : string;
  crs_dispatch_id : string;
  crs_executor_peer_id : string;
  crs_request_sha256 : string;
  crs_status : OwnerDispatchStatus;
  crs_effect : option AuthenticatedOwnerEffect;
  crs_failure : option string;
  crs_signer_key_id : string;
  crs_signature_base64 : string;
}.

#[global] Instance execution_mode_eq_dec : EqDecision AndroidMediaExecutionMode.
Proof. solve_decision. Defined.
#[global] Instance cleanup_ticket_eq_dec : EqDecision RetainedCleanupExecutionTicket.
Proof. solve_decision. Defined.
#[global] Instance cleanup_request_eq_dec : EqDecision RetainedCleanupDispatchRequest.
Proof. solve_decision. Defined.
#[global] Instance prepared_stop_eq_dec : EqDecision RetainedCleanupPreparedStop.
Proof. solve_decision. Defined.
#[global] Instance remote_effect_eq_dec : EqDecision RemoteRetainedCleanupEffect.
Proof. solve_decision. Defined.
#[global] Instance owner_readback_eq_dec : EqDecision AndroidMediaOwnerReadback.
Proof. solve_decision. Defined.
#[global] Instance verified_effect_eq_dec : EqDecision VerifiedOwnerEffect.
Proof. solve_decision. Defined.
#[global] Instance owner_effect_eq_dec : EqDecision AuthenticatedOwnerEffect.
Proof. solve_decision. Defined.
#[global] Instance dispatch_status_eq_dec : EqDecision OwnerDispatchStatus.
Proof. solve_decision. Defined.

(** [serde_json] at the types that are parsed, hashed or signed here. *)
Class EffectEncoding := {
  readback_from_str : string → option AndroidMediaOwnerReadback;
  response_to_vec : RetainedCleanupDispatchResponse → option (list N);
  response_from_slice : list N → option RetainedCleanupDispatchResponse;
  prepared_to_vec : RetainedCleanupPreparedStop → option (list N);
}.

(** The response bytes nested in an effect, none for a local effect. *)
Definition nested_bytes (effect : AuthenticatedOwnerEffect) : list N :=
  match rb_remote_cleanup (aoe_readback effect) with Some proof => rce_response_bytes proof | None => [] end.

(** What the code relies on: a response is read back as it was written, and a
    byte vector inside a JSON document is shorter than the document. *)
Class EffectEncodingLaws {EE : EffectEncoding} : Prop := {
  response_roundtrip response bytes : response_to_vec response = Some bytes → response_from_slice bytes = Some response;
  response_nesting bytes response effect :
    response_from_slice bytes = Some response → crs_effect response = Some effect →
    (length (nested_bytes effect) < length bytes)%nat;
}.

(** ** Validation, one level *)

Section Effects.
Context {RC : ReleaseCrypto} {CE : CleanupEncoding} {EE : EffectEncoding}.

Definition sha256_prefixed (bytes : list N) : string := sha256_identity bytes.

(** [text.ends_with(".abort")]. *)
Definition is_abort_action (action_id : string) : bool :=
  let bytes := str_bytes action_id in
  bool_decide (drop (length bytes - 6) bytes = str_bytes ".abort").

Definition is_retained_start_abort_ticket (ticket : AndroidMediaExecutionTicket) : bool :=
  bool_decide (tk_operation ticket = OpStart) && is_abort_action (tk_action_id ticket) &&
  (bool_decide (tk_action_kind ticket = ActStop) || bool_decide (tk_action_kind ticket = ActCleanup)).

Definition clear_prepared_signature (value : RetainedCleanupPreparedStop) : RetainedCleanupPreparedStop :=
  mkPrepared (pst_schema_id value) (pst_prepare_request_sha256 value) (pst_dispatch_id value)
    (pst_target_preparation_revision value) (pst_source_ticket value) (pst_target_ticket value)
    (pst_authority value) (pst_signer_key_id value) EmptyString.

Definition retained_cleanup_prepared_signing_bytes (value : RetainedCleanupPreparedStop)
    : result string (list N) :=
  domain ←
    (if (pst_schema_id value =? PREPARED_STOP_SCHEMA)%string then Ok PREPARE_DOMAIN
     else if (pst_schema_id value =? PREPARED_ABORT_SCHEMA)%string then Ok ABORT_PREPARE_DOMAIN
     else Err "unknown cleanup preparation schema"%string);
  payload ← ok_or (prepared_to_vec (clear_prepared_signature value)) "prepare encode"%string;
  Ok (domain ++ payload).

Definition source_allowed (schema_id : string) (source : AndroidMediaExecutionTicket) : bool :=
  if (schema_id =? PREPARED_STOP_SCHEMA)%string then bool_decide (tk_operation source = OpStop)
  else if (schema_id =? PREPARED_ABORT_SCHEMA)%string then is_retained_start_abort_ticket source
  else false.

Definition prepared_binding_differs (value : RetainedCleanupPreparedStop)
    (source : AndroidMediaExecutionTicket) (target_peer key_id : string) : bool :=
  let target := pst_target_ticket value in
  negb (source_allowed (pst_schema_id value) source) ||
  negb (bool_decide (pst_source_ticket value = source)) ||
  negb (cpj_executor_peer_id (pst_authority value) =? target_peer)%string ||
  negb (pst_signer_key_id value =? key_id)%string ||
  str_is_empty (pst_dispatch_id value) || (pst_target_preparation_revision value =? 0) ||
  negb (str_len (pst_prepare_request_sha256 value) =? 71) ||
  negb (bool_decide (tk_operation target = OpStop)) ||
  (tk_capability target =? tk_capability source)%string || (tk_action_id target =? tk_action_id source)%string ||
  negb (tk_client_id source =? tk_client_id target)%string ||
  negb (tk_lease_id source =? tk_lease_id target)%string ||
  negb (tk_authority_epoch_id source =? tk_authority_epoch_id target)%string ||
  negb (bool_decide (tk_owner_kind source = tk_owner_kind target)) ||
  negb (tk_owner_id source =? tk_owner_id target)%string ||
  negb (tk_provider_kind source =? tk_provider_kind target)%string ||
  negb (tk_resource_id source =? tk_resource_id target)%string.

Definition verify_retained_cleanup_prepared (value : RetainedCleanupPreparedStop)
    (source : AndroidMediaExecutionTicket) (target_peer key_id : string) (key : list N) : result string unit :=
  fail_if (prepared_binding_differs value source target_peer key_id)
    "independent prepared Stop binding differs"%string ;;
  signature ← decode_signature_base64 (pst_signature_base64 value);
  vk ← ok_or (vk_from_bytes key) "prepare key"%string;
  bytes ← retained_cleanup_prepared_signing_bytes value;
  fail_if (negb (verify_strict vk bytes signature)) "prepare signature"%string.

Definition clear_response_signature (response : RetainedCleanupDispatchResponse) : RetainedCleanupDispatchResponse :=
  mkCleanupResponse (crs_schema_id response) (crs_dispatch_id response) (crs_executor_peer_id response)
    (crs_request_sha256 response) (crs_status response) (crs_effect response) (crs_failure response)
    (crs_signer_key_id response) EmptyString.

Definition retained_cleanup_response_signing_bytes (response : RetainedCleanupDispatchResponse)
    : result string (list N) :=
  payload ← ok_or (response_to_vec (clear_response_signature response)) "cleanup response encode"%string;
  domain ←
    (if (crs_schema_id response =? RETAINED_CLEANUP_DISPATCH_RESPONSE_SCHEMA)%string then Ok RESPONSE_DOMAIN
     else if (crs_schema_id response =? OWNED_CLEANUP_DISPATCH_RESPONSE_SCHEMA)%string
     then Ok OWNED_RESPONSE_DOMAIN
     else Err "cleanup response signing schema"%string);
  Ok (domain ++ payload).

(** The echo of every ticket field. *)
Definition ticket_mismatch (ticket : AndroidMediaExecutionTicket) (readback : AndroidMediaOwnerReadback) : bool :=
  negb (rb_capability readback =? tk_capability ticket)%string ||
  negb (rb_executor_generation readback =? tk_executor_generation ticket) ||
  negb (rb_action_id readback =? tk_action_id ticket)%string ||
  negb (rb_authority_epoch_id readback =? tk_authority_epoch_id ticket)%string ||
  negb (rb_media_acceptance_authority_revision readback =? tk_media_acceptance_authority_revision ticket) ||
  negb (rb_expected_runtime_revision readback =? tk_expected_runtime_revision ticket) ||
  negb (rb_client_id readback =? tk_client_id ticket)%string ||
  negb (rb_lease_id readback =? tk_lease_id ticket)%string ||
  negb (rb_sequence readback =? tk_sequence ticket) ||
  negb (bool_decide (rb_operation readback = tk_operation ticket)) ||
  negb (bool_decide (rb_owner_kind readback = tk_owner_kind ticket)) ||
  negb (bool_decide (rb_action_kind readback = tk_action_kind ticket)) ||
  negb (rb_owner_id readback =? tk_owner_id ticket)%string ||
  negb (rb_provider_kind readback =? tk_provider_kind ticket)%string ||
  negb (rb_resource_id readback =? tk_resource_id ticket)%string.

Definition provider_readback (readback : AndroidMediaOwnerReadback) : MediaStreamOwnerProviderReadback :=
  mkProviderReadback (rb_action_id readback) (rb_authority_epoch_id readback)
    (rb_media_acceptance_authority_revision readback) (rb_client_id readback) (rb_lease_id readback)
    (rb_provider_kind readback) (rb_resource_id readback) (rb_provider_handle_id readback)
    (rb_provider_state_revision readback) (rb_observed_state readback) (rb_receipt_id readback).

(** The functions below call one another around a nested response; [nested] is
    [validate_effect] on the effect inside that response. *)
Section Level.
Variable nested : AndroidMediaExecutionTicket → AndroidMediaExecutionMode → AuthenticatedOwnerEffect → result string unit.

Definition response_refresh (owned : bool) (response : RetainedCleanupDispatchResponse) : bool :=
  owned && bool_decide (crs_status response = Rejected) && bool_decide (crs_effect response = None) &&
  bool_decide (crs_failure response = Some OWNED_CLEANUP_AUTHENTICATION_EXPIRED).

(** The status, the effect and the failure fit together, and the effect fits
    the target. *)
Definition response_shape_differs (owned : bool) (response : RetainedCleanupDispatchResponse)
    (expected_target : AndroidMediaExecutionTicket) (mode : AndroidMediaExecutionMode) : bool :=
  let refresh := response_refresh owned response in
  let has_effect := bool_decide (is_Some (crs_effect response)) in
  let has_failure := bool_decide (is_Some (crs_failure response)) in
  (bool_decide (crs_status response = Rejected) && negb refresh) ||
  negb (Bool.eqb (bool_decide (crs_status response = Completed)) (has_effect && negb has_failure)) ||
  negb (Bool.eqb (bool_decide (crs_status response = Uncertain) || refresh) (negb has_effect && has_failure)) ||
  match crs_effect response with
  | Some effect => negb (is_ok (nested expected_target mode effect))
  | None => false
  end.

Definition verify_response_with (response_bytes : list N) (request : RetainedCleanupDispatchRequest)
    (expected_target : AndroidMediaExecutionTicket) (expected_executor_peer_id expected_executor_key_id : string)
    (enrolled_executor_key : list N) : result string RetainedCleanupDispatchResponse :=
  response ← ok_or (response_from_slice response_bytes) "cleanup response decode"%string;
  let owned := (crq_schema_id request =? OWNED_CLEANUP_DISPATCH_REQUEST_SCHEMA)%string in
  fail_if
    (negb (crs_schema_id response =?
           (if owned then OWNED_CLEANUP_DISPATCH_RESPONSE_SCHEMA
            else RETAINED_CLEANUP_DISPATCH_RESPONSE_SCHEMA))%string ||
     negb (crs_dispatch_id response =? crq_dispatch_id request)%string ||
     negb (crs_executor_peer_id response =? expected_executor_peer_id)%string ||
     negb (crs_executor_peer_id response =? crq_target_peer_id request)%string)
    "cleanup response binding differs"%string ;;
  request_sha256 ← retained_cleanup_request_sha256 request;
  fail_if
    (negb (crs_request_sha256 response =? request_sha256)%string ||
     negb (bool_decide (ctk_target (crq_cleanup request) = expected_target)) ||
     negb (crs_signer_key_id response =? expected_executor_key_id)%string ||
     response_shape_differs owned response expected_target (ctk_mode (crq_cleanup request)))
    "cleanup response binding differs"%string ;;
  signature ← decode_signature_base64 (crs_signature_base64 response);
  key ← ok_or (vk_from_bytes enrolled_executor_key) "cleanup executor key invalid"%string;
  bytes ← retained_cleanup_response_signing_bytes response;
  fail_if (negb (verify_strict key bytes signature)) "cleanup executor signature invalid"%string ;;
  Ok response.

Definition remote_schema_allowed (proof : RemoteRetainedCleanupEffect)
    (source : AndroidMediaExecutionTicket) : bool :=
  if (rce_schema_id proof =? REMOTE_CLEANUP_SCHEMA)%string
  then (pst_schema_id (rce_prepared proof) =? PREPARED_STOP_SCHEMA)%string
  else if (rce_schema_id proof =? REMOTE_ABORT_SCHEMA)%string
  then (pst_schema_id (rce_prepared proof) =? PREPARED_ABORT_SCHEMA)%string &&
       is_retained_start_abort_ticket source
  else false.

Definition remote_verify_with (proof : RemoteRetainedCleanupEffect) (source : AndroidMediaExecutionTicket)
    (key_id : string) (key : list N) : result string AuthenticatedOwnerEffect :=
  let prepared := rce_prepared proof in
  let commit := rce_commit proof in
  fail_if
    (negb (remote_schema_allowed proof source) ||
     negb (bool_decide (rce_enrolled_target_key proof = key)) ||
     (128 * 1024 <? len (rce_response_bytes proof)) ||
     negb (crq_dispatch_id commit =? pst_dispatch_id prepared)%string ||
     negb (bool_decide (ctk_target (crq_cleanup commit) = pst_target_ticket prepared)) ||
     negb (bool_decide (ctk_authority (crq_cleanup commit) = pst_authority prepared)))
    "remote cleanup proof differs"%string ;;
  let peer := cpj_executor_peer_id (pst_authority prepared) in
  verify_retained_cleanup_prepared prepared source peer key_id key ;;
  response ← verify_response_with (rce_response_bytes proof) commit (pst_target_ticket prepared) peer key_id key;
  fail_if (negb (bool_decide (crs_status response = Completed))) "remote cleanup remains uncertain"%string ;;
  effect ← ok_or (crs_effect response) "remote cleanup effect missing"%string;
  fail_if (bool_decide (is_Some (rb_remote_cleanup (aoe_readback effect)))) "recursive cleanup proof"%string ;;
  Ok effect.

Definition remote_receipt_id (response_bytes : list N) : string :=
  ("remote-cleanup." ++ hex_of_bytes (sha256_digest response_bytes))%string.

Definition validate_source_readback_with (proof : RemoteRetainedCleanupEffect)
    (source : AndroidMediaExecutionTicket) (wrapper : AndroidMediaOwnerReadback) : result string unit :=
  effect ← remote_verify_with proof source (pst_signer_key_id (rce_prepared proof)) (rce_enrolled_target_key proof);
  fail_if
    (negb (rb_provider_handle_id wrapper =? rb_provider_handle_id (aoe_readback effect))%string ||
     negb (rb_provider_state_revision wrapper =? rb_provider_state_revision (aoe_readback effect)) ||
     negb (rb_observed_state wrapper =? rb_observed_state (aoe_readback effect))%string ||
     negb (rb_receipt_id wrapper =? remote_receipt_id (rce_response_bytes proof))%string ||
     negb (voe_terminal (aoe_verified effect)))
    "source wrapper differs from actual remote Stop"%string.

Definition validate_readback_with (ticket : AndroidMediaExecutionTicket) (readback : AndroidMediaOwnerReadback)
    : result AndroidMediaContractError MediaStreamOwnerProviderReadback :=
  fail_if (negb (tk_schema_id ticket =? ANDROID_MEDIA_EXECUTION_TICKET_SCHEMA)%string ||
           negb (rb_schema_id readback =? ANDROID_MEDIA_READBACK_SCHEMA)%string) SchemaMismatch ;;
  fail_if (ticket_mismatch ticket readback) TicketMismatch ;;
  fail_if (is_blank (rb_provider_handle_id readback) || (rb_provider_state_revision readback =? 0) ||
           is_blank (rb_observed_state readback) || is_blank (rb_receipt_id readback)) InvalidProviderEvidence ;;
  fail_if
    match rb_remote_cleanup readback with
    | Some proof => negb (is_ok (validate_source_readback_with proof ticket readback))
    | None => false
    end InvalidProviderEvidence ;;
  Ok (provider_readback readback).

Definition validate_effect_with (ticket : AndroidMediaExecutionTicket) (mode : AndroidMediaExecutionMode)
    (effect : AuthenticatedOwnerEffect) : result string unit :=
  let verified := aoe_verified effect in
  let readback := aoe_readback effect in
  parsed ← ok_or (readback_from_str (aoe_readback_json effect)) "verified readback JSON is invalid"%string;
  let readback_digest := sha256_prefixed (str_bytes (aoe_readback_json effect)) in
  fail_if
    (negb (voe_schema_id verified =? VERIFIED_OWNER_EFFECT_SCHEMA)%string ||
     negb (bool_decide (parsed = readback)) ||
     negb (is_ok (validate_readback_with ticket readback)) ||
     negb (voe_receipt_id verified =? rb_receipt_id readback)%string ||
     negb (voe_readback_sha256 verified =? readback_digest)%string ||
     negb (voe_executor_generation verified =? tk_executor_generation ticket) ||
     negb (voe_executor_generation verified =? rb_executor_generation readback) ||
     negb (voe_provider_state_revision verified =? rb_provider_state_revision readback) ||
     negb (voe_observed_state verified =? rb_observed_state readback)%string ||
     negb (voe_provider_handle_id verified =? rb_provider_handle_id readback)%string ||
     negb (str_len (voe_detail_sha256 verified) =? 71) ||
     negb (starts_with "sha256:" (voe_detail_sha256 verified)) ||
     ((bool_decide (tk_operation ticket = OpStop) || bool_decide (mode = CompensateUncertain)) &&
      negb (voe_terminal verified)) ||
     negb (digest (voe_readback_sha256 verified)) || negb (digest (voe_detail_sha256 verified)))
    "verified owner effect mismatch"%string.
End Level.

(** ** The recursion

    Each level reads a response nested in the one above, so the length of the
    nested bytes bounds the depth. *)

Fixpoint validate_effect_fuel (fuel : nat) (ticket : AndroidMediaExecutionTicket)
    (mode : AndroidMediaExecutionMode) (effect : AuthenticatedOwnerEffect) : result string unit :=
  match fuel with
  | O => Err "nesting bound"%string
  | S fuel => validate_effect_with (validate_effect_fuel fuel) ticket mode effect
  end.

Definition validate_effect (ticket : AndroidMediaExecutionTicket) (mode : AndroidMediaExecutionMode)
    (effect : AuthenticatedOwnerEffect) : result string unit :=
  validate_effect_fuel (S (length (nested_bytes effect))) ticket mode effect.

Definition verify_retained_cleanup_response := verify_response_with validate_effect.
Definition remote_verify := remote_verify_with validate_effect.
Definition validate_source_readback := validate_source_readback_with validate_effect.
Definition validate_readback := validate_readback_with validate_effect.

(** ** Source-side operations *)

(** [effect.readback] with the identity of [source], its receipt and the proof. *)
Definition rewrap (source : AndroidMediaExecutionTicket) (readback : AndroidMediaOwnerReadback)
    (proof : RemoteRetainedCleanupEffect) : AndroidMediaOwnerReadback :=
  mkReadback (Some proof) (rb_schema_id readback) (tk_capability source) (tk_executor_generation source)
    (tk_action_id source) (tk_authority_epoch_id source) (tk_media_acceptance_authority_revision source)
    (tk_expected_runtime_revision source) (tk_client_id source) (tk_lease_id source) (tk_sequence source)
    (tk_operation source) (tk_owner_kind source) (tk_action_kind source) (tk_owner_id source)
    (tk_provider_kind source) (tk_resource_id source) (rb_provider_handle_id readback)
    (rb_provider_state_revision readback) (rb_observed_state readback)
    (remote_receipt_id (rce_response_bytes proof)).

Definition source_readback (proof : RemoteRetainedCleanupEffect) (source : AndroidMediaExecutionTicket)
    (key_id : string) (key : list N) : result string AndroidMediaOwnerReadback :=
  effect ← remote_verify proof source key_id key;
  Ok (rewrap source (aoe_readback effect) proof).

Definition set_tk_operation (ticket : AndroidMediaExecutionTicket) (operation : MediaStreamPlatformOperation)
    : AndroidMediaExecutionTicket :=
  mkTicket (tk_schema_id ticket) (tk_capability ticket) (tk_executor_generation ticket) (tk_action_id ticket)
    (tk_authority_epoch_id ticket) (tk_media_acceptance_authority_revision ticket)
    (tk_expected_runtime_revision ticket) (tk_client_id ticket) (tk_lease_id ticket) (tk_sequence ticket)
    operation (tk_owner_kind ticket) (tk_action_kind ticket) (tk_owner_id ticket) (tk_provider_kind ticket)
    (tk_resource_id ticket).

Definition set_rb_operation (readback : AndroidMediaOwnerReadback) (operation : MediaStreamPlatformOperation)
    : AndroidMediaOwnerReadback :=
  mkReadback (rb_remote_cleanup readback) (rb_schema_id readback) (rb_capability readback)
    (rb_executor_generation readback) (rb_action_id readback) (rb_authority_epoch_id readback)
    (rb_media_acceptance_authority_revision readback) (rb_expected_runtime_revision readback)
    (rb_client_id readback) (rb_lease_id readback) (rb_sequence readback) operation (rb_owner_kind readback)
    (rb_action_kind readback) (rb_owner_id readback) (rb_provider_kind readback) (rb_resource_id readback)
    (rb_provider_handle_id readback) (rb_provider_state_revision readback) (rb_observed_state readback)
    (rb_receipt_id readback).

Definition retained_local_source_readback (source target : AndroidMediaExecutionTicket)
    (effect : AuthenticatedOwnerEffect) : result string AndroidMediaOwnerReadback :=
  fail_if (negb (bool_decide (tk_operation source = OpStop) || is_retained_start_abort_ticket source) ||
           negb (bool_decide (target = set_tk_operation source OpStop)))
    "retained local original/target differs"%string ;;
  validate_effect target Execute effect ;;
  fail_if (negb (voe_terminal (aoe_verified effect))) "retained local Stop remains nonterminal"%string ;;
  Ok (set_rb_operation (aoe_readback effect) (tk_operation source)).

Definition derive_retained_target_stop (original : AndroidMediaExecutionTicket) (generation : N) (entropy : string)
    : result string AndroidMediaExecutionTicket :=
  fail_if (negb (bool_decide (tk_operation original = OpStart)) || (generation =? 0) ||
           negb (str_len entropy =? 32) || negb (all_bytes is_ascii_hexdigit entropy) ||
           (tk_sequence original =? 0) || (7 <? tk_sequence original))
    "independent original Start/entropy unavailable"%string ;;
  Ok (mkTicket (tk_schema_id original) ("cleanup.capability." ++ entropy) generation
        ("cleanup.action." ++ entropy) (tk_authority_epoch_id original)
        (tk_media_acceptance_authority_revision original) (tk_expected_runtime_revision original)
        (tk_client_id original) (tk_lease_id original) (8 - tk_sequence original) OpStop
        (tk_owner_kind original)
        (if bool_decide (tk_owner_kind original = OwnCleanup) then ActCleanup else ActStop)
        (tk_owner_id original) (tk_provider_kind original) (tk_resource_id original)).

(** ** The depth bound is enough *)

Lemma response_shape_ext n1 n2 owned response target mode :
  (∀ effect, crs_effect response = Some effect → n1 target mode effect = n2 target mode effect) →
  response_shape_differs n1 owned response target mode = response_shape_differs n2 owned response target mode.
Proof.
  intros H. unfold response_shape_differs. destruct (crs_effect response); [|done]. by rewrite H.
Qed.

(** Two interpretations that agree on every effect inside [bytes]. *)
Definition agree_inside (n1 n2 : AndroidMediaExecutionTicket → AndroidMediaExecutionMode →
    AuthenticatedOwnerEffect → result string unit) (bytes : list N) : Prop :=
  ∀ response effect ticket mode, response_from_slice bytes = Some response →
    crs_effect response = Some effect → n1 ticket mode effect = n2 ticket mode effect.

Lemma verify_response_ext n1 n2 bytes request target peer key_id key :
  agree_inside n1 n2 bytes →
  verify_response_with n1 bytes request target peer key_id key =
  verify_response_with n2 bytes request target peer key_id key.
Proof.
  intros H. unfold verify_response_with. destruct (response_from_slice bytes) as [response|] eqn:E; [|done].
  cbn [ok_or mbind result_bind].
  rewrite (response_shape_ext n1 n2); [done|]. intros effect He. by eapply H.
Qed.

Lemma validate_effect_ext n1 n2 ticket mode effect :
  agree_inside n1 n2 (nested_bytes effect) →
  validate_effect_with n1 ticket mode effect = validate_effect_with n2 ticket mode effect.
Proof.
  intros H. unfold validate_effect_with. unfold nested_bytes in H.
  assert (validate_readback_with n1 ticket (aoe_readback effect) =
          validate_readback_with n2 ticket (aoe_readback effect)) as ->; [|done].
  unfold validate_readback_with. destruct (rb_remote_cleanup (aoe_readback effect)) as [proof|]; [|done].
  unfold validate_source_readback_with, remote_verify_with. by rewrite (verify_response_ext n1 n2).
Qed.

Context {EL : EffectEncodingLaws}.

Lemma validate_effect_enough n : ∀ fuel ticket mode effect,
  (length (nested_bytes effect) < n)%nat → (length (nested_bytes effect) < fuel)%nat →
  validate_effect_fuel fuel ticket mode effect = validate_effect ticket mode effect.
Proof.
  induction n as [|n IH]; intros fuel ticket mode effect Hn Hf; [lia|].
  destruct fuel as [|fuel]; [lia|]. unfold validate_effect. cbn [validate_effect_fuel].
  apply validate_effect_ext. intros response inner t m Hr He.
  pose proof (response_nesting _ _ _ Hr He) as Hl.
  rewrite (IH fuel), (IH (length (nested_bytes effect))) by lia. done.
Qed.

(** [validate_effect] satisfies the recursive equation of the source. *)
Lemma validate_effect_unfold ticket mode effect :
  validate_effect ticket mode effect = validate_effect_with validate_effect ticket mode effect.
Proof.
  unfold validate_effect at 1. cbn [validate_effect_fuel]. apply validate_effect_ext.
  intros response inner t m Hr He. pose proof (response_nesting _ _ _ Hr He).
  by apply (validate_effect_enough (length (nested_bytes effect))).
Qed.

(** ** What an accepted effect says *)

Record effect_facts (ticket : AndroidMediaExecutionTicket) (mode : AndroidMediaExecutionMode)
    (effect : AuthenticatedOwnerEffect) : Prop := {
  ef_schema : tk_schema_id ticket = ANDROID_MEDIA_EXECUTION_TICKET_SCHEMA ∧
    rb_schema_id (aoe_readback effect) = ANDROID_MEDIA_READBACK_SCHEMA;
  ef_echo : ticket_mismatch ticket (aoe_readback effect) = false;
  ef_evidence : is_blank (rb_provider_handle_id (aoe_readback effect)) = false ∧
    rb_provider_state_revision (aoe_readback effect) ≠ 0 ∧ is_blank (rb_observed_state (aoe_readback effect)) = false;
  ef_parsed : readback_from_str (aoe_readback_json effect) = Some (aoe_readback effect);
  ef_digest : voe_readback_sha256 (aoe_verified effect) = sha256_identity (str_bytes (aoe_readback_json effect));
  ef_terminal : tk_operation ticket = OpStop ∨ mode = CompensateUncertain → voe_terminal (aoe_verified effect) = true;
}.

Lemma validate_effect_facts ticket mode effect :
  is_ok (validate_effect ticket mode effect) = true → effect_facts ticket mode effect.
Proof.
  rewrite is_ok_true, validate_effect_unfold. intros [[] E]. unfold validate_effect_with in E. inv_ok.
  bool_to_prop. subst.
  match goal with H : is_ok _ = true |- _ => apply is_ok_true in H as [prb Hr] end.
  unfold validate_readback_with in Hr. inv_ok. bool_to_prop. split; try done.
  intros Hc. match goal with H : _ && negb _ = false |- _ => rename H into Hd end.
  apply andb_false_iff in Hd as [Hd|Hd]; [|by apply negb_false_iff].
  apply orb_false_iff in Hd as [D1 D2]. bool_to_prop. naive_solver.
Qed.

(** What a verified remote proof says: its enrolled identity is the caller's,
    and the effect it returns is that of the prepared target Stop. *)
Lemma remote_verify_facts proof source key_id key effect :
  remote_verify proof source key_id key = Ok effect →
  rce_enrolled_target_key proof = key ∧ pst_signer_key_id (rce_prepared proof) = key_id ∧
  pst_source_ticket (rce_prepared proof) = source ∧
  tk_operation (pst_target_ticket (rce_prepared proof)) = OpStop ∧
  tk_capability (pst_target_ticket (rce_prepared proof)) ≠ tk_capability source ∧
  rb_remote_cleanup (aoe_readback effect) = None ∧
  effect_facts (pst_target_ticket (rce_prepared proof)) (ctk_mode (crq_cleanup (rce_commit proof))) effect.
Proof.
  unfold remote_verify, remote_verify_with, verify_retained_cleanup_prepared. intros E. inv_ok.
  match goal with H : verify_response_with _ _ _ _ _ _ _ = Ok _ |- _ => unfold verify_response_with in H end.
  inv_ok. subst. unfold prepared_binding_differs, response_shape_differs in *. bool_to_prop.
  match goal with H : crs_effect _ = Some _ |- _ => rewrite H in * end. bool_to_prop.
  split_and!; try done; [|by apply validate_effect_facts].
  match goal with H : ¬ is_Some ?o |- ?o = None => by apply eq_None_not_Some end.
Qed.

Lemma ticket_mismatch_rewrap source readback proof : ticket_mismatch source (rewrap source readback proof) = false.
Proof.
  unfold ticket_mismatch, rewrap. cbn. by rewrite !String.eqb_refl, !N.eqb_refl, !bool_decide_true by done.
Qed.

Lemma remote_receipt_nonblank bytes : is_blank (remote_receipt_id bytes) = false.
Proof. apply graphic_first_nonblank. by vm_compute. Qed.

(** The receipt built from a verified proof passes the source's own check. *)
Lemma source_readback_ok proof source key_id key effect :
  tk_schema_id source = ANDROID_MEDIA_EXECUTION_TICKET_SCHEMA →
  remote_verify proof source key_id key = Ok effect →
  source_readback proof source key_id key = Ok (rewrap source (aoe_readback effect) proof) ∧
  validate_readback source (rewrap source (aoe_readback effect) proof) =
    Ok (provider_readback (rewrap source (aoe_readback effect) proof)).
Proof.
  intros Hs E. pose proof (remote_verify_facts _ _ _ _ _ E) as (Hk & Hi & _ & Hop & _ & _ & [H1 H2 H3 _ _ H5]).
  split; [unfold source_readback; by rewrite E|].
  destruct H1 as [_ Hschema], H3 as (B1 & B2 & B3).
  unfold validate_readback, validate_readback_with. rewrite ticket_mismatch_rewrap.
  cbn [rewrap rb_schema_id rb_provider_handle_id rb_provider_state_revision rb_observed_state rb_receipt_id rb_remote_cleanup].
  unfold validate_source_readback_with. rewrite Hk, Hi.
  change (remote_verify_with validate_effect) with remote_verify. rewrite E.
  rewrite Hs, Hschema, B1, B3, remote_receipt_nonblank, (proj2 (N.eqb_neq _ _) B2).
  cbn. by rewrite !String.eqb_refl, N.eqb_refl, (H5 (or_introl Hop)).
Qed.

End Effects.
