(* ===== verification/CleanupServer.v ===== *)
(** * Retained cleanup: the target-side dispatch server

    RetainedCleanupDispatchServer of
    crates/rusty-quest-media-stream-android/src/retained_cleanup_server.rs: it
    joins the replay journal, the request verification and the owner registry.
    The authority source and the clock answer anew in every call; the registry
    and the replay store are state. *)

From S2P Require Import Prelude RustStr UpdateAdmission MediaRuntime SignatureBase64 RetainedCleanup CleanupTicket OwnerEffect.

Local Open Scope N_scope.

Record RetainedCleanupLiveSource := mkLiveSource {
  lv_projection : RetainedCleanupAuthorityProjection;
  lv_expected_target : AndroidMediaExecutionTicket;
  lv_executor_generation : N;
  lv_signer_key_id : string;
  lv_signer_key : list N;
}.

(** What the clock and the authority source answer during one call. *)
Record HandleEnv := mkHandleEnv {
  he_now_ms : result string N;
  he_current_source : RetainedCleanupDispatchRequest → N → result string RetainedCleanupLiveSource;
  he_authentication_validity_ms : result string N;
}.

Class RetainedCleanupRegistry (R : Type) := {
  execute_and_verify : R → RetainedCleanupAuthorityProjection → AndroidMediaExecutionTicket →
    AndroidMediaExecutionMode → R * result string AuthenticatedOwnerEffect;
}.

Record RetainedCleanupDispatchServer (R St : Type) := mkServer {
  sv_registry : R;
  sv_replay : RetainedCleanupReplaySnapshot;
  sv_replay_store : St;
  sv_target_peer_id : string;
  sv_executor_signer_key_id : string;
}.
Arguments mkServer {R St} _ _ _ _ _.
Arguments sv_registry {R St} _.
Arguments sv_replay {R St} _.
Arguments sv_replay_store {R St} _.
Arguments sv_target_peer_id {R St} _.
Arguments sv_executor_signer_key_id {R St} _.

(** How a call leaves its first half: with its answer, or with a durable
    reservation and the registry still to be entered. *)
Inductive Admission :=
  | Answered (outcome : result string (list N))
  | Entered (live : RetainedCleanupLiveSource) (request_sha256 : string).

Section Server.
Context {RC : ReleaseCrypto} {CE : CleanupEncoding} {EE : EffectEncoding} {RE : ReplayEncoding}.
Context {SG : OwnerDispatchSigner} {R St : Type} `{RetainedCleanupRegistry R} `{RetainedCleanupReplayStore St}.
Abbreviation server := (RetainedCleanupDispatchServer R St).

Definition set_journal (s : server) (replay : RetainedCleanupReplaySnapshot) (store : St) : server :=
  mkServer (sv_registry s) replay store (sv_target_peer_id s) (sv_executor_signer_key_id s).
Definition set_registry (s : server) (registry : R) : server :=
  mkServer registry (sv_replay s) (sv_replay_store s) (sv_target_peer_id s) (sv_executor_signer_key_id s).

Definition restore (target_peer_id executor_signer_key_id : string) (registry : R)
    (replay : RetainedCleanupReplaySnapshot) (replay_store : St) : result string server :=
  fail_if (str_is_empty target_peer_id || str_is_empty executor_signer_key_id ||
           negb (signer_key_id =? executor_signer_key_id)%string)
    "cleanup target signer binding differs"%string ;;
  replay_validate replay ;;
  Ok (mkServer registry replay replay_store target_peer_id executor_signer_key_id).

Definition set_response_signature (response : RetainedCleanupDispatchResponse) (signature : string)
    : RetainedCleanupDispatchResponse :=
  mkCleanupResponse (crs_schema_id response) (crs_dispatch_id response) (crs_executor_peer_id response)
    (crs_request_sha256 response) (crs_status response) (crs_effect response) (crs_failure response)
    (crs_signer_key_id response) signature.

Definition signed_response (s : server) (request : RetainedCleanupDispatchRequest) (request_sha256 : string)
    (status : OwnerDispatchStatus) (effect : option AuthenticatedOwnerEffect) (failure : option string)
    : result string (list N) :=
  let response := mkCleanupResponse
    (if (crq_schema_id request =? OWNED_CLEANUP_DISPATCH_REQUEST_SCHEMA)%string
     then OWNED_CLEANUP_DISPATCH_RESPONSE_SCHEMA else RETAINED_CLEANUP_DISPATCH_RESPONSE_SCHEMA)
    (crq_dispatch_id request) (sv_target_peer_id s) request_sha256 status effect failure
    (sv_executor_signer_key_id s) EmptyString in
  bytes ← retained_cleanup_response_signing_bytes response;
  signature ← signer_sign bytes;
  ok_or (response_to_vec (set_response_signature response (encode_signature_base64 signature)))
    "cleanup response encode"%string.

(** The first half of [handle], up to and including [reserve]. *)
Definition handle_admit (env : HandleEnv) (request : RetainedCleanupDispatchRequest) (s : server)
    : server * Admission :=
  match retained_cleanup_request_sha256 request with
  | Err e => (s, Answered (Err e))
  | Ok request_sha256 =>
      match classify (sv_replay s) (crq_dispatch_id request) request_sha256 with
      | Err e => (s, Answered (Err e))
      | Ok (Terminal bytes) => (s, Answered (Ok bytes))
      | Ok PendingUncertain =>
          (s, Answered (signed_response s request request_sha256 Uncertain None
                          (Some "pending_compensation_required"%string)))
      | Ok New =>
          match
            now_ms ← he_now_ms env;
            live ← he_current_source env request now_ms;
            validity ← he_authentication_validity_ms env;
            Ok (live, verify_signed_retained_cleanup_request_with_lifetime request (lv_projection live)
                        (lv_expected_target live) (lv_executor_generation live) (sv_target_peer_id s)
                        (lv_signer_key_id live) (lv_signer_key live) now_ms validity)
          with
          | Err e => (s, Answered (Err e))
          | Ok (live, Err refusal) =>
              if (crq_schema_id request =? OWNED_CLEANUP_DISPATCH_REQUEST_SCHEMA)%string &&
                 (refusal =? OWNED_CLEANUP_AUTHENTICATION_EXPIRED)%string
              then (s, Answered (signed_response s request request_sha256 Rejected None
                                   (Some OWNED_CLEANUP_AUTHENTICATION_EXPIRED)))
              else (s, Answered (Err refusal))
          | Ok (live, Ok _) =>
              let '(replay, store, reserved) :=
                reserve (crq_dispatch_id request) request_sha256 (sv_replay s) (sv_replay_store s) in
              let s := set_journal s replay store in
              match reserved with
              | Err e => (s, Answered (Err e))
              | Ok _ => (s, Entered live request_sha256)
              end
          end
      end
  end.

(** The registry call. *)
Definition enter_registry (live : RetainedCleanupLiveSource) (request : RetainedCleanupDispatchRequest) (s : server)
    : server * result string AuthenticatedOwnerEffect :=
  let '(registry, outcome) :=
    execute_and_verify (sv_registry s) (lv_projection live) (lv_expected_target live)
      (ctk_mode (crq_cleanup request)) in
  (set_registry s registry, outcome).

Definition effect_status (live : RetainedCleanupLiveSource) (request : RetainedCleanupDispatchRequest)
    (outcome : result string AuthenticatedOwnerEffect)
    : OwnerDispatchStatus * option AuthenticatedOwnerEffect * option string :=
  match outcome with
  | Ok effect =>
      if is_ok (validate_effect (lv_expected_target live) (ctk_mode (crq_cleanup request)) effect)
      then (Completed, Some effect, None)
      else (Uncertain, None, Some "platform_evidence_invalid"%string)
  | Err _ => (Uncertain, None, Some "platform_effect_uncertain"%string)
  end.

(** The rest of [handle], after the registry call. *)
Definition handle_finish (live : RetainedCleanupLiveSource) (request_sha256 : string)
    (request : RetainedCleanupDispatchRequest) (outcome : result string AuthenticatedOwnerEffect) (s : server)
    : server * result string (list N) :=
  let '(status, effect, failure) := effect_status live request outcome in
  match signed_response s request request_sha256 status effect failure with
  | Err e => (s, Err e)
  | Ok response =>
      if bool_decide (status = Completed) then
        let '(replay, store, completed) :=
          complete (crq_dispatch_id request) request_sha256 response (sv_replay s) (sv_replay_store s) in
        let s := set_journal s replay store in
        match completed with
        | Err e => (s, Err e)
        | Ok _ => (s, Ok response)
        end
      else (s, Ok response)
  end.

Definition handle (env : HandleEnv) (request : RetainedCleanupDispatchRequest) (s : server)
    : server * result string (list N) :=
  match handle_admit env request s with
  | (s, Answered outcome) => (s, outcome)
  | (s, Entered live request_sha256) =>
      let '(s, outcome) := enter_registry live request s in
      handle_finish live request_sha256 request outcome s
  end.

(** ** Runs with crashes

    A process can die before, during or after a call. A death inside a commit
    is a commit that reports failure followed by a restart. *)

Context {SL : ReplayStoreLaws St}.

(** One entry of the registry. *)
Record CleanupEntry := mkEntry {
  en_dispatch_id : string;
  en_projection : RetainedCleanupAuthorityProjection;
  en_target : AndroidMediaExecutionTicket;
  en_mode : AndroidMediaExecutionMode;
}.

Definition entry_of (live : RetainedCleanupLiveSource) (request : RetainedCleanupDispatchRequest) : CleanupEntry :=
  mkEntry (crq_dispatch_id request) (lv_projection live) (lv_expected_target live) (ctk_mode (crq_cleanup request)).

Definition entries_of (request : RetainedCleanupDispatchRequest) (admission : Admission) : list CleanupEntry :=
  match admission with Answered _ => [] | Entered live _ => [entry_of live request] end.

(** The registry after a list of entries. *)
Definition replay_entries : list CleanupEntry → R → R :=
  fun entries registry =>
    foldl (fun r e => (execute_and_verify r (en_projection e) (en_target e) (en_mode e)).1) registry entries.

(** The process restarts and reads the journal back. *)
Definition reload (s : server) : server := set_journal s (durable (sv_replay_store s)) (sv_replay_store s).

Inductive server_step : server → list CleanupEntry → server → Prop :=
  | step_handle env request s s' outcome :
      handle env request s = (s', outcome) →
      server_step s (entries_of request (handle_admit env request s).2) s'
  | step_crash_reserved env request s s' live sha :
      handle_admit env request s = (s', Entered live sha) → server_step s [] (reload s')
  | step_crash_entered env request s s' live sha :
      handle_admit env request s = (s', Entered live sha) →
      server_step s [entry_of live request] (reload (enter_registry live request s').1)
  | step_restart s : server_step s [] (reload s).

Inductive server_run : server → list CleanupEntry → server → Prop :=
  | run_done s : server_run s [] s
  | run_step s e1 s1 e2 s2 : server_step s e1 s1 → server_run s1 e2 s2 → server_run s (e1 ++ e2) s2.

(** ** Admission *)

(** A verified cleanup of one target. *)
Definition entry_authorized (e : CleanupEntry) : Prop :=
  ∃ f ticket generation now_ms, ctk_mode ticket = en_mode e ∧
    cleanup_ticket_contract f ticket (en_projection e) (en_target e) generation now_ms.

Lemma verify_lifetime_ticket request live expected generation peer key_id enrolled now_ms validity :
  verify_signed_retained_cleanup_request_with_lifetime request live expected generation peer key_id
    enrolled now_ms validity = Ok tt →
  crq_target_peer_id request = peer ∧
  ∃ f, cleanup_ticket_contract f (crq_cleanup request) live expected generation now_ms.
Proof.
  unfold verify_signed_retained_cleanup_request_with_lifetime.
  rewrite !fail_if_bind_ok, then_ok, verify_ticket_iff. intros (_ & Hd & Hc & _). split; [|done].
  unfold dispatch_identity_differs in Hd. by bool_to_prop.
Qed.

(** What entering the registry presupposes: the request verified against the
    live source, and the reservation succeeded. *)
Lemma admit_entered env request s s' live sha :
  handle_admit env request s = (s', Entered live sha) →
  retained_cleanup_request_sha256 request = Ok sha ∧
  crq_target_peer_id request = sv_target_peer_id s ∧
  entry_authorized (entry_of live request) ∧
  ctk_target (crq_cleanup request) = lv_expected_target live ∧
  ∃ replay store, s' = set_journal s replay store ∧
    cleanup_step (CallReserve (crq_dispatch_id request) sha) (sv_replay s) (sv_replay_store s) =
      (replay, store, Ok tt).
Proof.
  unfold handle_admit. destruct (retained_cleanup_request_sha256 request) as [sha'|]; [|done].
  destruct (classify _ _ _) as [[| |]|] eqn:Hc; try done.
  destruct (mbind _ (he_now_ms env)) as [[live' verdict]|] eqn:E; [|done].
  destruct verdict as [[]|]; [|by destruct (_ && _)].
  destruct (reserve _ _ _ _) as [[replay store] [[]|]] eqn:Er; [|done]. intros [= <- <- <-].
  apply bind_ok in E as (now_ms & _ & E). apply bind_ok in E as (live0 & _ & E).
  apply bind_ok in E as (validity & _ & [= -> Hv]).
  apply verify_lifetime_ticket in Hv as (Hp & f & Ht). split_and!; [done..| |by destruct Ht|by do 2 eexists].
  by exists f, (crq_cleanup request), (lv_executor_generation live'), now_ms.
Qed.

(** A call that does not enter leaves the journal unchanged or ran one failed
    reservation. *)
Lemma admit_answered env request s s' outcome :
  handle_admit env request s = (s', Answered outcome) →
  s' = s ∨ ∃ sha replay store e, s' = set_journal s replay store ∧
    cleanup_step (CallReserve (crq_dispatch_id request) sha) (sv_replay s) (sv_replay_store s) =
      (replay, store, Err e).
Proof.
  unfold handle_admit. destruct (retained_cleanup_request_sha256 request) as [sha|]; [|intros [= <-]; auto].
  destruct (classify _ _ _) as [[| |]|] eqn:Hc; try (intros [= <-]; by left).
  destruct (mbind _ (he_now_ms env)) as [[live [[]|]]|] eqn:E; try (intros [= <-]; by left).
  - destruct (reserve _ _ _ _) as [[replay store] [[]|e]] eqn:Er; [done|]. intros [= <- _]. right.
    by do 4 eexists.
  - destruct (_ && _); intros [= <-]; by left.
Qed.

(** ** One step *)

Definition server_sync (s : server) : Prop := in_sync (sv_replay s) (sv_replay_store s).

(** What a step promises about the durable journal and the registry. *)
Record step_promise (s : server) (entries : list CleanupEntry) (s' : server) : Prop := {
  sp_sync : server_sync s';
  sp_identity : sv_target_peer_id s' = sv_target_peer_id s ∧
    sv_executor_signer_key_id s' = sv_executor_signer_key_id s;
  sp_evolves : evolves (durable (sv_replay_store s)) (durable (sv_replay_store s'));
  sp_registry : sv_registry s' = replay_entries entries (sv_registry s);
  sp_distinct : NoDup (en_dispatch_id <$> entries);
  sp_fresh : Forall (fun e => ¬ known (durable (sv_replay_store s)) (en_dispatch_id e)) entries;
  sp_durable : Forall (fun e => known (durable (sv_replay_store s')) (en_dispatch_id e)) entries;
  sp_authorized : Forall entry_authorized entries;
}.

Lemma silent_promise s s' :
  server_sync s' → evolves (durable (sv_replay_store s)) (durable (sv_replay_store s')) →
  sv_registry s' = sv_registry s →
  sv_target_peer_id s' = sv_target_peer_id s ∧ sv_executor_signer_key_id s' = sv_executor_signer_key_id s →
  step_promise s [] s'.
Proof. intros H1 H2 H3 H4. split; try done; constructor. Qed.

Lemma reload_promise s entries s' : step_promise s entries s' → step_promise s entries (reload s').
Proof. intros []. by split. Qed.

Lemma finish_journal live sha request outcome s s' r :
  server_sync s → handle_finish live sha request outcome s = (s', r) →
  server_sync s' ∧ evolves (durable (sv_replay_store s)) (durable (sv_replay_store s')) ∧
  sv_registry s' = sv_registry s ∧
  sv_target_peer_id s' = sv_target_peer_id s ∧ sv_executor_signer_key_id s' = sv_executor_signer_key_id s.
Proof.
  intros Hs. unfold handle_finish. destruct (effect_status live request outcome) as [[status effect] failure].
  destruct (signed_response _ _ _ _ _ _) as [response|]; [|by intros [= <- _]].
  destruct (bool_decide (status = Completed)); [|by intros [= <- _]].
  destruct (complete _ _ _ _ _) as [[replay store] o] eqn:E.
  change (complete (crq_dispatch_id request) sha response (sv_replay s) (sv_replay_store s)) with
    (cleanup_step (CallComplete (crq_dispatch_id request) sha response) (sv_replay s) (sv_replay_store s)) in E.
  destruct (step_spec _ _ _ _ _ _ Hs E) as (S1 & X1 & _). destruct o as [[]|]; by intros [= <- _].
Qed.

(** The state right after the registry was entered. *)
Lemma entered_promise env request s s' live sha :
  server_sync s → handle_admit env request s = (s', Entered live sha) →
  step_promise s [entry_of live request] (enter_registry live request s').1.
Proof.
  intros Hs E. apply admit_entered in E as (_ & _ & Ha & _ & replay & store & -> & E).
  destruct (step_spec _ _ _ _ _ _ Hs E) as (S1 & X1 & F1). destruct (F1 eq_refl) as [_ [Hn Hp]].
  unfold enter_registry. destruct (execute_and_verify _ _ _ _) as [registry outcome] eqn:Er. cbn in Er |- *.
  split; try done; cbn.
  - by rewrite Er.
  - apply NoDup_singleton.
  - by repeat constructor.
  - apply Forall_singleton. left. cbn. rewrite Hp. eauto.
  - by repeat constructor.
Qed.

Lemma promise_extend s entries s1 s2 :
  step_promise s entries s1 → server_sync s2 →
  evolves (durable (sv_replay_store s1)) (durable (sv_replay_store s2)) → sv_registry s2 = sv_registry s1 →
  sv_target_peer_id s2 = sv_target_peer_id s1 ∧ sv_executor_signer_key_id s2 = sv_executor_signer_key_id s1 →
  step_promise s entries s2.
Proof.
  intros [P1 [I1 I2] P2 P3 P4 P5 P6 P7] H1 H2 H3 [J1 J2].
  split; try done; [split; congruence|by etrans|congruence|].
  eapply Forall_impl; [exact P6|]. intros e. apply H2.
Qed.

Lemma server_step_promise s entries s' : server_sync s → server_step s entries s' → step_promise s entries s'.
Proof.
  intros Hs Hstep.
  destruct Hstep as [env request s0 s1 outcome E|env request s0 s1 live sha E|env request s0 s1 live sha E|s0].
  - unfold handle in E. destruct (handle_admit env request s0) as [s2 [r|live sha]] eqn:Ea; cbn [snd entries_of].
    + injection E as <- _. apply admit_answered in Ea as [->|(sha & replay & store & e & -> & Er)].
      * by apply silent_promise.
      * destruct (step_spec _ _ _ _ _ _ Hs Er) as (S1 & X1 & _). by apply silent_promise.
    + pose proof (entered_promise _ _ _ _ _ _ Hs Ea) as Hp.
      destruct (enter_registry live request s2) as [s3 result] eqn:En. cbn [fst] in Hp.
      eapply finish_journal in E as (F1 & F2 & F3 & F4); [|apply Hp]. by eapply promise_extend.
  - pose proof (admit_entered _ _ _ _ _ _ E) as (_ & _ & _ & _ & replay & store & -> & Er).
    destruct (step_spec _ _ _ _ _ _ Hs Er) as (S1 & X1 & _). by apply reload_promise, silent_promise.
  - apply reload_promise. by eapply entered_promise.
  - by apply reload_promise, silent_promise.
Qed.

(** ** Runs *)

Lemma promise_trans s e1 s1 e2 s2 :
  step_promise s e1 s1 → step_promise s1 e2 s2 → step_promise s (e1 ++ e2) s2.
Proof.
  intros [_ [I1 I2] P2 P3 P4 P5 P6 P7] [Q1 [J1 J2] Q2 Q3 Q4 Q5 Q6 Q7].
  split; [done|split; congruence|by etrans|..].
  - unfold replay_entries in *. by rewrite foldl_app, <- P3.
  - rewrite fmap_app. apply NoDup_app. split_and!; [done| |done].
    intros id (e & -> & He)%list_elem_of_fmap (e' & Heq & He')%list_elem_of_fmap.
    rewrite Forall_forall in P6, Q5. apply (Q5 e' He'). rewrite <- Heq. by apply P6.
  - apply Forall_app. split; [done|]. eapply Forall_impl; [exact Q5|]. cbn. intros e Hn Hk. by apply Hn, P2.
  - apply Forall_app. split; [|done]. eapply Forall_impl; [exact P6|]. cbn. intros e. apply Q2.
  - by apply Forall_app.
Qed.

Lemma server_run_promise s entries s' : server_sync s → server_run s entries s' → step_promise s entries s'.
Proof.
  intros Hs Hr. induction Hr as [s|s e1 s1 e2 s2 Hstep _ IH]; [by apply silent_promise|].
  pose proof (server_step_promise _ _ _ Hs Hstep) as Hp.
  eapply promise_trans; [exact Hp|]. apply IH, Hp.
Qed.

(** A restart never fails: the durable journal is valid and the identity is kept. *)
Lemma server_run_restores peer key_id registry store s0 entries s :
  restore peer key_id registry (durable store) store = Ok s0 → server_run s0 entries s →
  step_promise s0 entries s ∧ sv_registry s0 = registry ∧
  restore peer key_id (sv_registry s) (durable (sv_replay_store s)) (sv_replay_store s) = Ok (reload s).
Proof.
  unfold restore. rewrite fail_if_bind_ok, then_ok. intros (Hi & Hv & [= <-]) Hr.
  assert (Hp : step_promise _ entries s) by (eapply server_run_promise; [|exact Hr]; done).
  split_and!; [done..|]. destruct Hp as [_ [I1 I2] [_ V] _ _ _ _ _]. cbn in I1, I2, V.
  rewrite Hi, V by done. unfold reload, set_journal. by rewrite I1, I2.
Qed.

(** ** Responses verify at the coordinator *)

(** The response that [signed_response] signs. *)
Definition unsigned_response (s : server) (request : RetainedCleanupDispatchRequest) (sha : string)
    (status : OwnerDispatchStatus) (effect : option AuthenticatedOwnerEffect) (failure : option string)
    : RetainedCleanupDispatchResponse :=
  mkCleanupResponse
    (if (crq_schema_id request =? OWNED_CLEANUP_DISPATCH_REQUEST_SCHEMA)%string
     then OWNED_CLEANUP_DISPATCH_RESPONSE_SCHEMA else RETAINED_CLEANUP_DISPATCH_RESPONSE_SCHEMA)
    (crq_dispatch_id request) (sv_target_peer_id s) sha status effect failure
    (sv_executor_signer_key_id s) EmptyString.

Lemma signed_response_verifies {EL : EffectEncodingLaws} public s request sha status effect failure bytes :
  SignerLaws public → retained_cleanup_request_sha256 request = Ok sha →
  crq_target_peer_id request = sv_target_peer_id s →
  response_shape_differs validate_effect
    (crq_schema_id request =? OWNED_CLEANUP_DISPATCH_REQUEST_SCHEMA)%string
    (unsigned_response s request sha status effect failure) (ctk_target (crq_cleanup request))
    (ctk_mode (crq_cleanup request)) = false →
  signed_response s request sha status effect failure = Ok bytes →
  ∃ text, verify_retained_cleanup_response bytes request (ctk_target (crq_cleanup request))
    (sv_target_peer_id s) (sv_executor_signer_key_id s) public =
    Ok (set_response_signature (unsigned_response s request sha status effect failure) text).
Proof.
  intros HS Hsha Hpeer Hshape E. unfold signed_response in E.
  fold (unsigned_response s request sha status effect failure) in E.
  apply bind_ok in E as (signing & Eb & E). apply bind_ok in E as (signature & Es & E).
  destruct (response_to_vec _) as [out|] eqn:Ev; [|done]. injection E as ->.
  exists (encode_signature_base64 signature). apply response_roundtrip in Ev.
  apply signer_signature in Es as (L & U & key & Ek & Hk).
  unfold verify_retained_cleanup_response, verify_response_with. rewrite Ev. cbn [ok_or mbind result_bind].
  change (response_shape_differs _ _ (set_response_signature ?r _) _ _) with
    (response_shape_differs validate_effect
      (crq_schema_id request =? OWNED_CLEANUP_DISPATCH_REQUEST_SCHEMA)%string r
      (ctk_target (crq_cleanup request)) (ctk_mode (crq_cleanup request))).
  change (retained_cleanup_response_signing_bytes (set_response_signature ?r _)) with
    (retained_cleanup_response_signing_bytes r).
  rewrite Hshape, Eb, Ek, Hsha, Hpeer. cbn. rewrite !String.eqb_refl, bool_decide_true by done. cbn.
  assert (decode_signature_base64 (encode_signature_base64 signature) = Ok signature) as ->
    by by apply decode_signature_iff.
  cbn. by rewrite Hk.
Qed.

(** The statuses [handle] gives to an entered effect have the required shape. *)
Lemma effect_status_shape live request s sha outcome status effect failure owned :
  effect_status live request outcome = (status, effect, failure) →
  status ≠ Rejected ∧
  response_shape_differs validate_effect owned (unsigned_response s request sha status effect failure)
    (lv_expected_target live) (ctk_mode (crq_cleanup request)) = false.
Proof.
  unfold effect_status, response_shape_differs, response_refresh.
  destruct outcome as [e|]; [destruct (is_ok (validate_effect _ _ e)) eqn:V|]; intros [= <- <- <-];
    (split; [done|]); destruct owned; cbn -[validate_effect]; rewrite ?V; done.
Qed.

Lemma refresh_shape s request sha target mode :
  response_shape_differs validate_effect true
    (unsigned_response s request sha Rejected None (Some OWNED_CLEANUP_AUTHENTICATION_EXPIRED)) target mode = false.
Proof. done. Qed.

(** What a handled request leaves behind, by the status of its response. *)
Definition left_behind (s s' : server) (id sha : string) (bytes : list N) (status : OwnerDispatchStatus) : Prop :=
  match status with
  | Completed => answers (sv_replay s') id sha bytes
  | Uncertain => rp_pending_request_sha256 (sv_replay s') !! id = Some sha
  | Rejected => s' = s
  end.

Lemma finish_response {EL : EffectEncodingLaws} public live sha request outcome s s' bytes :
  SignerLaws public → retained_cleanup_request_sha256 request = Ok sha →
  crq_target_peer_id request = sv_target_peer_id s → ctk_target (crq_cleanup request) = lv_expected_target live →
  rp_pending_request_sha256 (sv_replay s) !! crq_dispatch_id request = Some sha →
  handle_finish live sha request outcome s = (s', Ok bytes) →
  ∃ response, verify_retained_cleanup_response bytes request (ctk_target (crq_cleanup request))
      (sv_target_peer_id s) (sv_executor_signer_key_id s) public = Ok response ∧
    crs_status response ≠ Rejected ∧
    left_behind s s' (crq_dispatch_id request) sha bytes (crs_status response).
Proof.
  intros HS Hsha Hpeer Ht Hp. unfold handle_finish.
  destruct (effect_status live request outcome) as [[status effect] failure] eqn:Est.
  destruct (effect_status_shape live request s sha outcome status effect failure
    (crq_schema_id request =? OWNED_CLEANUP_DISPATCH_REQUEST_SCHEMA)%string Est) as [Hst Hshape].
  rewrite <- Ht in Hshape.
  destruct (signed_response _ _ _ _ _ _) as [out|] eqn:E; [|done].
  destruct (signed_response_verifies public s request sha status effect failure out) as [text Hv]; [done..|].
  intros Hf. assert (out = bytes ∧ left_behind s s' (crq_dispatch_id request) sha bytes status) as [-> Hl].
  { destruct (bool_decide_reflect (status = Completed)) as [->|Hc].
    - destruct (complete _ _ _ _ _) as [[replay store] [[]|]] eqn:Ec; [|done].
      injection Hf as <- <-. split; [done|]. by eapply complete_ok.
    - injection Hf as <- <-. split; [done|]. by destruct status. }
  by exists (set_response_signature (unsigned_response s request sha status effect failure) text).
Qed.

Lemma handle_response {EL : EffectEncodingLaws} public env request s s' sha bytes :
  SignerLaws public → retained_cleanup_request_sha256 request = Ok sha →
  classify (sv_replay s) (crq_dispatch_id request) sha = Ok New →
  handle env request s = (s', Ok bytes) →
  ∃ response, verify_retained_cleanup_response bytes request (ctk_target (crq_cleanup request))
      (sv_target_peer_id s) (sv_executor_signer_key_id s) public = Ok response ∧
    left_behind s s' (crq_dispatch_id request) sha bytes (crs_status response).
Proof.
  intros HS Hsha Hnew Hh. unfold handle in Hh.
  destruct (handle_admit env request s) as [s1 [r|live sha']] eqn:Ea.
  - injection Hh as -> ->. unfold handle_admit in Ea. rewrite Hsha, Hnew in Ea.
    destruct (mbind _ (he_now_ms env)) as [[live verdict]|] eqn:E; [|done].
    apply bind_ok in E as (now_ms & _ & E). apply bind_ok in E as (live0 & _ & E).
    apply bind_ok in E as (validity & _ & [= -> Hv]). destruct verdict as [[]|refusal].
    { by destruct (reserve _ _ _ _) as [[? ?] [[]|]]. }
    destruct (_ && _) eqn:Ho in Ea; [|done]. injection Ea as <- Hs. bool_to_prop. subst refusal.
    apply verify_expired in Hv as (Hschema & Hpeer & _).
    destruct (signed_response_verifies public s request sha Rejected None
      (Some OWNED_CLEANUP_AUTHENTICATION_EXPIRED) bytes) as [text Hok]; try done.
    { rewrite Hschema, request_owned. apply refresh_shape. }
    eexists. split; [exact Hok|]. done.
  - apply admit_entered in Ea as (Hsha' & Hpeer & _ & Ht & replay & store & -> & Er).
    rewrite Hsha in Hsha'. injection Hsha' as <-.
    unfold enter_registry in Hh. destruct (execute_and_verify _ _ _ _) as [registry outcome].
    eapply finish_response in Hh as (response & Hv & Hst & Hl); [|done..|by eapply reserve_ok].
    exists response. split; [exact Hv|]. destruct (crs_status response); done.
Qed.

End Server.
