(* ===== verification/CleanupClaims.v ===== *)
(** * Retained cleanup: concrete collaborators and the theorems

    A scripted store that can fail before or after its write, a toy key,
    registry and encodings on which the theorems are instantiated, and the
    properties of the replay journal, of signed cleanup requests and of the
    server. *)

From S2P Require Import Prelude RustStr UpdateAdmission MediaRuntime SignatureBase64 RetainedCleanup CleanupTicket.
From S2P Require Import OwnerEffect CleanupServer.

Local Open Scope N_scope.

(** ** Concrete collaborators *)

(** The test store of the crate, with one outcome per commit: it writes, or
    fails before the write, or fails after it. *)
Inductive StoreOutcome := Stored | Refused | StoredThenFailed.

Record MemoryReplayStore := mkMemoryStore {
  ms_saved : RetainedCleanupReplaySnapshot;
  ms_script : list StoreOutcome;
}.

#[global] Instance memory_store : RetainedCleanupReplayStore MemoryReplayStore := {|
  store_commit s x :=
    match ms_script s with
    | Refused :: rest => (mkMemoryStore (ms_saved s) rest, Err "simulated persistence failure"%string)
    | StoredThenFailed :: rest =>
        (mkMemoryStore (persisted x) rest, Err "ambiguous persistence failure after write"%string)
    | Stored :: rest => (mkMemoryStore (persisted x) rest, Ok tt)
    | [] => (mkMemoryStore (persisted x) [], Ok tt)
    end
|}.

#[global] Instance memory_store_laws : ReplayStoreLaws MemoryReplayStore.
Proof.
  refine {| durable := ms_saved |}; intros [saved [|[] script]] x s'; cbn; naive_solver.
Defined.

#[local] Instance toy_replay_encoding : ReplayEncoding := {|
  snapshot_to_vec x := Some (repeat 0 (size (rp_pending_request_sha256 x) + size (rp_terminal x)))
|}.

(** A key whose signature of a message is a fixed function of both. *)
Definition toy_public : list N := repeat 7 32.
Definition toy_signature (key bytes : list N) : list N :=
  (fun b => b mod 256) <$> take 64 (key ++ bytes ++ repeat 0 64).

#[local] Instance toy_crypto : ReleaseCrypto := {|
  VerifyingKey := list N;
  vk_from_bytes bytes := if (length bytes =? 32)%nat then Some bytes else None;
  vk_to_bytes key := key;
  verify_strict key bytes signature := bool_decide (signature = toy_signature key bytes);
  sha256_digest bytes := (fun b => b mod 256) <$> take 32 (bytes ++ repeat 0 32);
  jcs_to_vec _ := None;
  envelope_from_slice _ := None;
|}.

#[local] Instance toy_encoding : CleanupEncoding := {|
  request_to_vec request := Some (str_bytes (crq_dispatch_id request ++ crq_signature_base64 request));
  effect_to_vec authority target _ := Some (str_bytes (cpj_requester_id authority ++ tk_action_id target));
|}.

#[local] Instance toy_signer : OwnerDispatchSigner := {|
  signer_key_id := "key.peer.a.1";
  signer_sign bytes := Ok (toy_signature toy_public bytes);
|}.

#[local] Instance toy_signer_laws : SignerLaws toy_public.
Proof.
  split. intros bytes signature [= <-]. split_and!.
  - unfold toy_signature. rewrite length_fmap, length_take, !length_app, !repeat_length. lia.
  - unfold toy_signature. apply Forall_fmap, Forall_true. intros b. by apply N.mod_lt.
  - exists toy_public. split; [done|]. cbn. by apply bool_decide_eq_true.
Qed.

(** The projection, target and ticket of the crate's tests. *)
Definition sha_of (c : string) : string :=
  ("sha256:" ++ String.concat EmptyString (repeat c 64))%string.

Definition cleanup_projection : RetainedCleanupAuthorityProjection :=
  mkProjection RETAINED_CLEANUP_PROJECTION_SCHEMA "peer.a" "peer.b" "session.one" "grant.one" 7
    "epoch.original" "runtime.stereo" "client.original" "lease.original" "client.revoker" "lease.revoker"
    true (sha_of "a") (sha_of "b") (sha_of "c") 50 200 180.

Definition cleanup_stop_target : AndroidMediaExecutionTicket :=
  mkTicket ANDROID_MEDIA_EXECUTION_TICKET_SCHEMA "capability.native" 9 "action.stop.original" "epoch.original"
    3 4 "client.original" "lease.original" 1 OpStop OwnSource ActStop "owner.camera" "camera2" "camera.stereo".

Definition cleanup_ticket : RetainedCleanupExecutionTicket :=
  mkCleanupTicket RETAINED_CLEANUP_TICKET_SCHEMA cleanup_projection cleanup_stop_target Execute
    (sha256_identity (str_bytes "client.revokeraction.stop.original")).

Definition cleanup_request : RetainedCleanupDispatchRequest :=
  mkCleanupRequest RETAINED_CLEANUP_DISPATCH_REQUEST_SCHEMA "dispatch.cleanup.one" 1 100 "peer.b"
    cleanup_ticket "key.peer.a.1" EmptyString.

Definition signed_cleanup_request : RetainedCleanupDispatchRequest :=
  match sign_retained_cleanup_request cleanup_request with Ok r => r | Err _ => cleanup_request end.

Lemma cleanup_ticket_accepted : ∃ f,
  cleanup_ticket_contract f cleanup_ticket cleanup_projection cleanup_stop_target 9 100.
Proof. apply verify_ticket_iff. vm_compute. reflexivity. Qed.

(** A registry that counts its entries and stops the target of the tests. *)
Definition cleanup_readback : AndroidMediaOwnerReadback :=
  mkReadback None ANDROID_MEDIA_READBACK_SCHEMA "capability.native" 9 "action.stop.original" "epoch.original"
    3 4 "client.original" "lease.original" 1 OpStop OwnSource ActStop "owner.camera" "camera2" "camera.stereo"
    "handle.camera" 1 "stopped" "receipt.camera".

Definition cleanup_effect : AuthenticatedOwnerEffect :=
  mkEffect cleanup_readback "{}"
    (mkVerifiedEffect VERIFIED_OWNER_EFFECT_SCHEMA "receipt.camera" (sha256_identity (str_bytes "{}")) 9 1
       "stopped" true "handle.camera" (sha_of "d")).

#[local] Instance toy_registry : RetainedCleanupRegistry N := {|
  execute_and_verify count _ _ _ := (count + 1, Ok cleanup_effect);
|}.

(** Length-prefixed text for responses without an effect or with the one above. *)
Definition put_str (s : string) : list N := len (str_bytes s) :: str_bytes s.
Definition get_str (l : list N) : option (string * list N) :=
  match l with
  | n :: rest => Some (str_of_bytes (take (N.to_nat n) rest), drop (N.to_nat n) rest)
  | [] => None
  end.

Lemma get_put s rest : get_str (len (str_bytes s) :: str_bytes s ++ rest) = Some (s, rest).
Proof.
  unfold get_str, len. rewrite Nat2N.id, take_app_length, drop_app_length. by rewrite str_of_str_bytes.
Qed.

Lemma get_put_last s : get_str (put_str s) = Some (s, []).
Proof. unfold put_str. rewrite <- (app_nil_r (str_bytes s)) at 2. apply get_put. Qed.

#[local] Arguments put_str : simpl never.
#[local] Arguments get_str : simpl never.

Definition status_code (s : OwnerDispatchStatus) : N :=
  match s with Completed => 0 | Uncertain => 1 | Rejected => 2 end.
Definition code_status (n : N) : OwnerDispatchStatus :=
  if n =? 0 then Completed else if n =? 1 then Uncertain else Rejected.

Definition toy_response_to_vec (r : RetainedCleanupDispatchResponse) : option (list N) :=
  effect ← match crs_effect r with
           | None => Some 0
           | Some e => if bool_decide (e = cleanup_effect) then Some 1 else None
           end;
  Some ([effect; status_code (crs_status r)] ++
        put_str (crs_schema_id r) ++ put_str (crs_dispatch_id r) ++ put_str (crs_executor_peer_id r) ++
        put_str (crs_request_sha256 r) ++ put_str (crs_signer_key_id r) ++ put_str (crs_signature_base64 r) ++
        match crs_failure r with None => [] | Some text => put_str text end).

Definition toy_response_from_slice (bytes : list N) : option RetainedCleanupDispatchResponse :=
  match bytes with
  | effect :: status :: l =>
      '(schema, l) ← get_str l; '(dispatch, l) ← get_str l; '(peer, l) ← get_str l;
      '(sha, l) ← get_str l; '(signer, l) ← get_str l; '(signature, l) ← get_str l;
      Some (mkCleanupResponse schema dispatch peer sha (code_status status)
              (if effect =? 1 then Some cleanup_effect else None)
              (fst <$> get_str l) signer signature)
  | _ => None
  end.

#[local] Instance toy_effect_encoding : EffectEncoding := {|
  readback_from_str text := if (text =? "{}")%string then Some cleanup_readback else None;
  response_to_vec := toy_response_to_vec;
  response_from_slice := toy_response_from_slice;
  prepared_to_vec _ := Some [];
|}.

#[local] Instance toy_effect_laws : EffectEncodingLaws.
Proof.
  split.
  - intros [schema dispatch peer sha status effect failure signer signature] bytes. cbn.
    unfold toy_response_to_vec. intros E. apply bind_Some in E as (code & Hc & [= <-]).
    cbn. repeat (rewrite get_put; cbn). destruct failure as [text|].
    + rewrite get_put_last. cbn.
      destruct effect as [e|]; cbn in Hc; [case_bool_decide; simplify_eq|simplify_eq]; by destruct status.
    + destruct effect as [e|]; cbn in Hc; [case_bool_decide; simplify_eq|simplify_eq]; by destruct status.
  - cbn. intros [|code [|status l]] response effect; cbn; try done. intros E He.
    repeat match goal with H : mbind _ _ = Some _ |- _ => apply bind_Some in H as ([] & _ & H) end.
    simplify_eq/=. destruct (code =? 1); [|done]. injection He as <-. cbn. lia.
Qed.

Definition cleanup_live : RetainedCleanupLiveSource :=
  mkLiveSource cleanup_projection cleanup_stop_target 9 "key.peer.a.1" toy_public.

(** The clock and the source at one instant. *)
Definition cleanup_env : HandleEnv := mkHandleEnv (Ok 100) (fun _ _ => Ok cleanup_live) (Ok 30000).

Definition cleanup_server : RetainedCleanupDispatchServer N MemoryReplayStore :=
  mkServer 0 replay_default (mkMemoryStore replay_default []) "peer.b" "key.peer.a.1".

(** The source's own ticket for the same owner, and the proof it keeps of the
    remote Stop above. *)
Definition cleanup_source_ticket : AndroidMediaExecutionTicket :=
  mkTicket ANDROID_MEDIA_EXECUTION_TICKET_SCHEMA "capability.source" 5 "action.source" "epoch.original"
    3 4 "client.original" "lease.original" 1 OpStop OwnSource ActStop "owner.camera" "camera2" "camera.stereo".

Definition cleanup_prepared : RetainedCleanupPreparedStop :=
  mkPrepared PREPARED_STOP_SCHEMA (sha_of "e") "dispatch.cleanup.one" 1 cleanup_source_ticket cleanup_stop_target
    cleanup_projection "key.peer.a.1" (encode_signature_base64 (toy_signature toy_public PREPARE_DOMAIN)).

Definition cleanup_proof : RemoteRetainedCleanupEffect :=
  mkRemoteEffect REMOTE_CLEANUP_SCHEMA cleanup_prepared signed_cleanup_request
    match (handle cleanup_env signed_cleanup_request cleanup_server).2 with Ok b => b | Err _ => [] end
    toy_public.

(** ** Theorems *)

(** The same dispatch is tried three times: the first write is ambiguous, the
    process restarts, and the retry meets the durable marker. *)
Definition crash_calls : list CleanupCall :=
  [CallReserve "dispatch.one" (sha_of "a"); CallReserve "dispatch.one" (sha_of "a"); Restart;
   CallReserve "dispatch.one" (sha_of "a"); CallReserve "dispatch.two" (sha_of "b");
   CallComplete "dispatch.two" (sha_of "b") [1; 2; 3]; Restart].
Definition crash_store : MemoryReplayStore := mkMemoryStore replay_default [StoredThenFailed].

(** After a completion succeeds, whatever calls, store failures and restarts
    follow, a reload of the durable journal answers that dispatch with exactly
    the completed response, and no lookup in memory answers it with another
    decision or accepts it under another request hash. *)
Theorem cleanup_terminal_exact {RE : ReplayEncoding} {St} `{ReplayStoreLaws St}
    calls self store self' store' succeeded id sha bytes :
  in_sync self store → replay_validate (durable store) = Ok tt →
  cleanup_run calls self store = (self', store', succeeded) → CallComplete id sha bytes ∈ succeeded →
  classify (durable store') id sha = Ok (Terminal bytes) ∧
  (∀ sha' d, classify self' id sha' = Ok d → sha' = sha ∧ d = Terminal bytes).
Proof.
  intros Hs Hv E Hin. destruct (run_spec _ _ _ _ _ _ Hs E) as [Hs' [[_ V] _ _ _ A]].
  destruct (A _ _ _ Hin) as [Hid Ha]. split; [by apply classify_terminal; auto|].
  intros sha' d Hc. pose proof (classify_certain _ _ _ _ Hc) as Hu. rewrite (Hs' Hu) in Hc.
  by eapply classify_answers.
Qed.

Lemma cleanup_terminal_exact_witness :
  ∃ self' store' succeeded,
    cleanup_run crash_calls replay_default crash_store = (self', store', succeeded) ∧
    classify (durable store') "dispatch.two" (sha_of "b") = Ok (Terminal [1; 2; 3]).
Proof.
  destruct (cleanup_run crash_calls replay_default crash_store) as [[self' store'] succeeded] eqn:E.
  exists self', store', succeeded. split; [done|].
  refine (proj1 (cleanup_terminal_exact crash_calls replay_default crash_store self' store' succeeded
    "dispatch.two" (sha_of "b") [1; 2; 3] _ _ E _)).
  - intros _. reflexivity.
  - vm_compute. reflexivity.
  - revert E. vm_compute. intros [= _ _ <-]. do 2 apply list_elem_of_further. apply list_elem_of_here.
Defined.

(** C36: A signed cleanup request is accepted exactly when, in one of the two
    closed schema families, its identity and age are right for this executor,
    its projection is the live one and has not lapsed, its requester is the
    holder or a revoker distinct from the holder, its target is the
    independently retained Stop of this executor generation with the matching
    effect digest, and its signature text is the canonical encoding of an
    enrolled-key signature over that family's domain and the request. *)
Theorem cleanup_request_accept_iff {RC : ReleaseCrypto} {CE : CleanupEncoding}
    request live expected generation peer key_id enrolled now_ms validity :
  crq_issued_at_ms request ≤ u64_max →
  verify_signed_retained_cleanup_request_with_lifetime request live expected generation peer key_id
    enrolled now_ms validity = Ok tt ↔
  validity ≠ 0 ∧
  ∃ f, dispatch_contract f request live peer key_id now_ms validity ∧
    cleanup_ticket_contract f (crq_cleanup request) live expected generation now_ms ∧
    signed_by f request enrolled.
Proof. apply verify_signed_iff. Qed.

Lemma cleanup_request_accept_iff_witness :
  ∃ f, cleanup_ticket_contract f (crq_cleanup signed_cleanup_request) cleanup_projection cleanup_stop_target 9 100 ∧
    signed_by f signed_cleanup_request toy_public.
Proof.
  destruct (proj1 (cleanup_request_accept_iff signed_cleanup_request cleanup_projection cleanup_stop_target 9
    "peer.b" "key.peer.a.1" toy_public 100 30000 ltac:(vm_compute; discriminate))) as (_ & f & _ & H1 & H2).
  - vm_compute. reflexivity.
  - exists f. split; [exact H1|exact H2].
Defined.

(** Signing and verification round-trip: a request that meets the identity
    and ticket contracts, not yet signed and within the frame bound, is signed
    by the enrolled key and the signed request is accepted. *)
Theorem cleanup_sign_verify {RC : ReleaseCrypto} {CE : CleanupEncoding} {SG : OwnerDispatchSigner}
    public f request payload signature live expected generation peer now_ms validity :
  SignerLaws public → validity ≠ 0 → crq_issued_at_ms request ≤ u64_max →
  dispatch_contract f request live peer signer_key_id now_ms validity →
  cleanup_ticket_contract f (crq_cleanup request) live expected generation now_ms →
  crq_signature_base64 request = EmptyString →
  request_to_vec (clear_signature request) = Some payload → len payload ≤ MAX_OWNER_DISPATCH_FRAME_BYTES →
  signer_sign (family_domain f ++ payload) = Ok signature →
  ∃ signed, sign_retained_cleanup_request request = Ok signed ∧
    verify_signed_retained_cleanup_request_with_lifetime signed live expected generation peer signer_key_id
      public now_ms validity = Ok tt.
Proof.
  intros HL Hv Hi Hd Hc He Ep Hlen Hsig.
  assert (Hsign := sign_ok f request payload signature (dc_key _ _ _ _ _ _ _ Hd) He
    (dc_schema _ _ _ _ _ _ _ Hd) Ep Hlen Hsig).
  eexists. split; [exact Hsign|]. apply verify_signed_iff; [done|]. split; [done|]. exists f.
  destruct (sign_signed_by public f _ _ HL (dc_schema _ _ _ _ _ _ _ Hd) Hsign) as [Hs _].
  split_and!; [by apply set_signature_dispatch|done|done].
Qed.

Lemma cleanup_sign_verify_witness :
  ∃ signed, sign_retained_cleanup_request cleanup_request = Ok signed ∧
    verify_signed_retained_cleanup_request_with_lifetime signed cleanup_projection cleanup_stop_target 9
      "peer.b" "key.peer.a.1" toy_public 100 30000 = Ok tt.
Proof.
  refine (cleanup_sign_verify toy_public Retained cleanup_request (str_bytes "dispatch.cleanup.one") _
    cleanup_projection cleanup_stop_target 9 "peer.b" 100 30000 toy_signer_laws _ _ _ _ eq_refl eq_refl _ eq_refl).
  - discriminate.
  - vm_compute. discriminate.
  - constructor; cbn; (done || lia || (split_and!; done || lia)).
  - destruct cleanup_ticket_accepted as [[] [H1 H2 H3 H4 H5 H6 H7]]; [by constructor|discriminate].
  - vm_compute. discriminate.
Defined.

(** C17: Over any sequence of requests, process deaths (before, between or after
    the reservation, the registry call and the completion) and restarts, with a
    store that may fail before or after its write, the owner registry is entered
    at most once per dispatch identifier; the registry's state is exactly the
    result of those entries in order; each of them is an authorized Stop of the
    live target and is in the durable journal; and a restart always succeeds. *)
Theorem cleanup_effect_at_most_once {RC : ReleaseCrypto} {CE : CleanupEncoding} {EE : EffectEncoding}
    {RE : ReplayEncoding} {SG : OwnerDispatchSigner} {R St} `{RetainedCleanupRegistry R} `{ReplayStoreLaws St}
    peer key_id (registry : R) (store : St) s0 entries s :
  restore peer key_id registry (durable store) store = Ok s0 → server_run s0 entries s →
  NoDup (en_dispatch_id <$> entries) ∧
  sv_registry s = replay_entries entries registry ∧
  (∀ e, e ∈ entries → entry_authorized e ∧ tk_operation (en_target e) = OpStop ∧
    known (durable (sv_replay_store s)) (en_dispatch_id e)) ∧
  restore peer key_id (sv_registry s) (durable (sv_replay_store s)) (sv_replay_store s) = Ok (reload s).
Proof.
  intros Hr Hrun. destruct (server_run_restores _ _ _ _ _ _ _ Hr Hrun) as ([_ _ _ R1 D _ K A] & <- & Hok).
  split_and!; [done..| |done]. intros e He. rewrite Forall_forall in K, A.
  pose proof (A e He) as (f & ticket & generation & now_ms & _ & [_ _ _ _ _ [_ Hop _ _ _ _] _]).
  split_and!; auto.
Qed.

(** The process dies after the registry call; the retry answers uncertainty and
    does not enter again. *)
Lemma cleanup_effect_at_most_once_witness :
  ∃ s, server_run cleanup_server [entry_of cleanup_live signed_cleanup_request] s ∧ sv_registry s = 1 ∧
    NoDup (en_dispatch_id <$> [entry_of cleanup_live signed_cleanup_request]).
Proof.
  destruct (handle_admit cleanup_env signed_cleanup_request cleanup_server) as [s1 [o|live sha]] eqn:E1;
    [exfalso; revert E1; vm_compute; discriminate|].
  assert (live = cleanup_live) as -> by (revert E1; vm_compute; intros [= _ <-]; reflexivity).
  set (s2 := reload (enter_registry cleanup_live signed_cleanup_request s1).1).
  destruct (handle cleanup_env signed_cleanup_request s2) as [s3 outcome] eqn:E3.
  assert (Hrun : server_run cleanup_server [entry_of cleanup_live signed_cleanup_request] s3).
  { refine (run_step _ [_] s2 [] _ (step_crash_entered _ _ _ _ _ _ E1) _).
    change (@nil CleanupEntry) with (@nil CleanupEntry ++ []). refine (run_step _ [] s3 [] _ _ (run_done _)).
    assert (He : entries_of signed_cleanup_request (handle_admit cleanup_env signed_cleanup_request s2).2 = []).
    { assert (s1 = (handle_admit cleanup_env signed_cleanup_request cleanup_server).1) as -> by (rewrite E1; reflexivity).
      vm_compute. reflexivity. }
    rewrite <- He. exact (step_handle _ _ _ _ _ E3). }
  exists s3. split; [exact Hrun|].
  assert (Hres : restore "peer.b" "key.peer.a.1" 0 (durable (mkMemoryStore replay_default []))
    (mkMemoryStore replay_default []) = Ok cleanup_server) by (vm_compute; reflexivity).
  destruct (cleanup_effect_at_most_once _ _ _ _ _ _ _ Hres Hrun) as (H1 & H2 & _).
  split; [rewrite H2; reflexivity|exact H1].
Defined.

(** The answer to a request that is not yet in the journal is a signed
    response that the coordinator's verification accepts for that request and
    target; a completed one is in the journal byte for byte, an uncertain one
    leaves the write-ahead marker, and a refusal changes nothing. *)
Theorem cleanup_handle_response {RC : ReleaseCrypto} {CE : CleanupEncoding} {EE : EffectEncoding}
    {EL : EffectEncodingLaws} {RE : ReplayEncoding} {SG : OwnerDispatchSigner} {R St}
    `{RetainedCleanupRegistry R} `{ReplayStoreLaws St}
    public env request (s s' : RetainedCleanupDispatchServer R St) sha bytes :
  SignerLaws public → retained_cleanup_request_sha256 request = Ok sha →
  classify (sv_replay s) (crq_dispatch_id request) sha = Ok New →
  handle env request s = (s', Ok bytes) →
  ∃ response, verify_retained_cleanup_response bytes request (ctk_target (crq_cleanup request))
      (sv_target_peer_id s) (sv_executor_signer_key_id s) public = Ok response ∧
    left_behind s s' (crq_dispatch_id request) sha bytes (crs_status response).
Proof. apply handle_response. Qed.

Lemma cleanup_handle_response_witness :
  ∃ s' bytes response, handle cleanup_env signed_cleanup_request cleanup_server = (s', Ok bytes) ∧
    verify_retained_cleanup_response bytes signed_cleanup_request cleanup_stop_target "peer.b" "key.peer.a.1"
      toy_public = Ok response ∧ crs_status response = Completed.
Proof.
  destruct (handle cleanup_env signed_cleanup_request cleanup_server) as [s' [bytes|e]] eqn:E;
    [|exfalso; revert E; vm_compute; discriminate].
  destruct (retained_cleanup_request_sha256 signed_cleanup_request) as [sha|] eqn:Es;
    [|exfalso; revert Es; vm_compute; discriminate].
  assert (Hnew : classify (sv_replay cleanup_server) (crq_dispatch_id signed_cleanup_request) sha = Ok New).
  { revert Es. vm_compute. intros [= <-]. vm_compute. reflexivity. }
  destruct (cleanup_handle_response toy_public cleanup_env signed_cleanup_request cleanup_server s' sha bytes
    toy_signer_laws Es Hnew E) as (response & Hv & _).
  exists s', bytes, response. split; [reflexivity|]. split; [exact Hv|].
  assert (Hb : bytes = match (handle cleanup_env signed_cleanup_request cleanup_server).2 with
                       | Ok b => b | Err _ => [] end) by (rewrite E; reflexivity).
  rewrite Hb in Hv. clear -Hv. vm_compute in Hv. injection Hv as <-. reflexivity.
Defined.

(** A verified remote proof gives the source a receipt that passes the
    source's own readback check: it echoes the source ticket, carries the
    proof, and reports the handle, revision and state of the actual terminal
    Stop of the prepared target. *)
Theorem remote_proof_readback {RC : ReleaseCrypto} {CE : CleanupEncoding} {EE : EffectEncoding}
    {EL : EffectEncodingLaws} proof source key_id key effect :
  tk_schema_id source = ANDROID_MEDIA_EXECUTION_TICKET_SCHEMA →
  remote_verify proof source key_id key = Ok effect →
  ∃ wrapper, source_readback proof source key_id key = Ok wrapper ∧
    validate_readback source wrapper = Ok (provider_readback wrapper) ∧
    rb_remote_cleanup wrapper = Some proof ∧
    effect_facts (pst_target_ticket (rce_prepared proof)) (ctk_mode (crq_cleanup (rce_commit proof))) effect ∧
    voe_terminal (aoe_verified effect) = true ∧
    (rb_provider_handle_id wrapper, rb_provider_state_revision wrapper, rb_observed_state wrapper) =
    (rb_provider_handle_id (aoe_readback effect), rb_provider_state_revision (aoe_readback effect),
     rb_observed_state (aoe_readback effect)).
Proof.
  intros Hs E. destruct (source_readback_ok _ _ _ _ _ Hs E) as [H1 H2].
  pose proof (remote_verify_facts _ _ _ _ _ E) as (_ & _ & _ & Hop & _ & _ & Hf).
  eexists. split_and!; [exact H1|exact H2|done|done| |done]. apply Hf. by left.
Qed.

Lemma remote_proof_readback_witness :
  ∃ effect wrapper, remote_verify cleanup_proof cleanup_source_ticket "key.peer.a.1" toy_public = Ok effect ∧
    source_readback cleanup_proof cleanup_source_ticket "key.peer.a.1" toy_public = Ok wrapper ∧
    validate_readback cleanup_source_ticket wrapper = Ok (provider_readback wrapper).
Proof.
  assert (E : remote_verify cleanup_proof cleanup_source_ticket "key.peer.a.1" toy_public = Ok cleanup_effect)
    by (vm_compute; reflexivity).
  destruct (remote_proof_readback cleanup_proof cleanup_source_ticket "key.peer.a.1" toy_public cleanup_effect
    eq_refl E) as (wrapper & H1 & H2 & _).
  exists cleanup_effect, wrapper. split; [exact E|]. split; [exact H1|exact H2].
Defined.
