(* ===== verification/WireFrame.v ===== *)
(** * Wire frames of the owner dispatch protocols

    [encode_wire_frame], [decode_wire_frame] and [wire_signing_bytes] of
    crates/rusty-quest-media-stream-android/src/owner_dispatch.rs, over the
    standard library's big-endian integers, and that decoding is the inverse of
    encoding on both sides. *)

From S2P Require Import Prelude RustStr CleanupTicket.

Local Open Scope N_scope.

(** ** Big-endian integers: [to_be_bytes] and [from_be_bytes] *)

Fixpoint be_bytes (n : nat) (v : N) : list N :=
  match n with
  | O => []
  | S n => be_bytes n (v / 256) ++ [v mod 256]
  end.

Definition from_be (bytes : list N) : N := foldl (fun acc b => acc * 256 + b) 0 bytes.

Lemma be_bytes_length n v : length (be_bytes n v) = n.
Proof. revert v. induction n as [|n IH]; intros v; cbn; [done|]. rewrite length_app, IH. cbn. lia. Qed.

Lemma be_bytes_u8 n v : Forall is_u8 (be_bytes n v).
Proof.
  revert v. induction n as [|n IH]; intros v; cbn; [constructor|].
  apply Forall_app. split; [apply IH|]. repeat constructor. by apply N.mod_lt.
Qed.

Lemma from_be_snoc bytes b : from_be (bytes ++ [b]) = from_be bytes * 256 + b.
Proof. unfold from_be. by rewrite foldl_app. Qed.

Lemma from_be_bytes n v : from_be (be_bytes n v) = v mod 256 ^ N.of_nat n.
Proof.
  revert v. induction n as [|n IH]; intros v; cbn [be_bytes].
  - by rewrite N.mod_1_r.
  - rewrite from_be_snoc, IH, Nat2N.inj_succ, N.pow_succ_r', N.Div0.mod_mul_r. lia.
Qed.

Lemma be_from_bytes bytes : Forall is_u8 bytes → be_bytes (length bytes) (from_be bytes) = bytes.
Proof.
  induction bytes as [|b bytes IH] using rev_ind; [done|]. intros [Hb [Hl _]%Forall_cons]%Forall_app.
  unfold is_u8 in Hl. rewrite length_app, from_be_snoc. cbn [length]. rewrite Nat.add_1_r. cbn [be_bytes].
  rewrite N.div_add_l, (N.div_small b), N.add_0_r, IH by done.
  by rewrite N.add_comm, N.Div0.mod_add, N.mod_small.
Qed.

Lemma from_be_bound bytes : Forall is_u8 bytes → from_be bytes < 256 ^ N.of_nat (length bytes).
Proof.
  induction bytes as [|b bytes IH] using rev_ind; [done|]. intros [Hb [Hl _]%Forall_cons]%Forall_app.
  unfold is_u8 in Hl. specialize (IH Hb).
  rewrite length_app, from_be_snoc, Nat.add_1_r, Nat2N.inj_succ, N.pow_succ_r'. lia.
Qed.

(** ** Frames *)

Definition OWNER_DISPATCH_MAGIC : list N := str_bytes "RQOD1" ++ [10].

(** [u32::try_from(len)]; [usize] is 64 bits wide. *)
Definition u32_try_from (v : N) : option N := if v <=? u32_max then Some v else None.

Definition wire_signing_bytes (domain metadata payload : list N) : result string (list N) :=
  metadata_len ← ok_or (u32_try_from (len metadata)) "metadata bounds"%string;
  payload_len ← ok_or (u32_try_from (len payload)) "payload bounds"%string;
  Ok (domain ++ be_bytes 4 metadata_len ++ be_bytes 4 payload_len ++ metadata ++ payload).

Definition encode_wire_frame (metadata payload : list N) : result string (list N) :=
  metadata_len ← ok_or (u32_try_from (len metadata)) "metadata bounds"%string;
  payload_len ← ok_or (u32_try_from (len payload)) "payload bounds"%string;
  total ← ok_or (v ← checked_add64 (len OWNER_DISPATCH_MAGIC) 8;
                 v ← checked_add64 v (len metadata);
                 checked_add64 v (len payload)) "frame bounds"%string;
  fail_if (MAX_OWNER_DISPATCH_FRAME_BYTES <? total) "dispatch frame bounds"%string ;;
  Ok (OWNER_DISPATCH_MAGIC ++ be_bytes 4 metadata_len ++ be_bytes 4 payload_len ++ metadata ++ payload).

(** [frame[first..last]]. *)
Definition slice (first last : nat) (frame : list N) : list N := take (last - first) (drop first frame).

Definition decode_wire_frame (frame : list N) : result string (list N * list N) :=
  fail_if ((len frame <? 14) || (MAX_OWNER_DISPATCH_FRAME_BYTES <? len frame) ||
           negb (bool_decide (slice 0 6 frame = OWNER_DISPATCH_MAGIC)))
    "dispatch frame bounds or magic"%string ;;
  let metadata_len := from_be (slice 6 10 frame) in
  let payload_len := from_be (slice 10 14 frame) in
  last ← ok_or (v ← checked_add64 14 metadata_len; checked_add64 v payload_len) "dispatch frame lengths"%string;
  fail_if (negb (last =? len frame)) "dispatch frame lengths"%string ;;
  let split := (14 + N.to_nat metadata_len)%nat in
  Ok (slice 14 split frame, slice split (N.to_nat last) frame).

(** ** Decoding inverts encoding *)

Definition frame_bytes (metadata payload : list N) : list N :=
  OWNER_DISPATCH_MAGIC ++ be_bytes 4 (len metadata) ++ be_bytes 4 (len payload) ++ metadata ++ payload.

Lemma frame_bytes_length metadata payload :
  len (frame_bytes metadata payload) = 14 + len metadata + len payload.
Proof. unfold frame_bytes, len. rewrite !length_app, !be_bytes_length. cbn [length OWNER_DISPATCH_MAGIC str_bytes app]. lia. Qed.

(** A frame exists exactly when it is within the frame bound. *)
Lemma encode_wire_frame_iff metadata payload frame :
  encode_wire_frame metadata payload = Ok frame ↔
  14 + len metadata + len payload ≤ MAX_OWNER_DISPATCH_FRAME_BYTES ∧ frame = frame_bytes metadata payload.
Proof.
  unfold encode_wire_frame, u32_try_from, checked_add64.
  change (len OWNER_DISPATCH_MAGIC + 8) with 14. change (14 <=? u64_max) with true. cbn [mbind option_bind].
  change u32_max with 4294967295. change u64_max with 18446744073709551615.
  change MAX_OWNER_DISPATCH_FRAME_BYTES with 131072.
  destruct (N.leb_spec (len metadata) 4294967295); cbn; [|split; [done|lia]].
  destruct (N.leb_spec (len payload) 4294967295); cbn; [|split; [done|lia]].
  rewrite (proj2 (N.leb_le (14 + len metadata) _)) by lia. cbn.
  rewrite (proj2 (N.leb_le (14 + len metadata + len payload) _)) by lia. cbn.
  rewrite fail_if_bind_ok, N.ltb_ge. split; [intros [? [= <-]]; done|intros [? ->]; done].
Qed.

Lemma slice_app_l (a b : list N) : slice 0 (length a) (a ++ b) = a.
Proof. unfold slice. by rewrite Nat.sub_0_r, drop_0, take_app_length. Qed.

Lemma slice_app_r k (a b : list N) first last : k = length a →
  slice (k + first) (k + last) (a ++ b) = slice first last b.
Proof.
  intros ->. unfold slice. rewrite drop_app_add. f_equal. lia.
Qed.

Lemma slice_full (a : list N) : slice 0 (length a) a = a.
Proof. rewrite <- (app_nil_r a) at 2. apply slice_app_l. Qed.

(** The header fields of a frame. *)
Lemma frame_slices metadata payload :
  let frame := frame_bytes metadata payload in
  slice 0 6 frame = OWNER_DISPATCH_MAGIC ∧
  slice 6 10 frame = be_bytes 4 (len metadata) ∧ slice 10 14 frame = be_bytes 4 (len payload) ∧
  slice 14 (14 + length metadata) frame = metadata ∧
  slice (14 + length metadata) (14 + length metadata + length payload) frame = payload.
Proof.
  unfold frame_bytes. set (m4 := be_bytes 4 (len metadata)). set (p4 := be_bytes 4 (len payload)).
  assert (Hm : 4%nat = length m4) by (symmetry; apply be_bytes_length).
  assert (Hp : 4%nat = length p4) by (symmetry; apply be_bytes_length).
  cbv zeta. split_and!.
  - apply (slice_app_l OWNER_DISPATCH_MAGIC).
  - rewrite (slice_app_r 6 OWNER_DISPATCH_MAGIC _ 0 4) by done. rewrite Hm. apply slice_app_l.
  - rewrite (slice_app_r 6 OWNER_DISPATCH_MAGIC _ 4 8), (slice_app_r 4 m4 _ 0 4) by done.
    rewrite Hp. apply slice_app_l.
  - rewrite (slice_app_r 6 OWNER_DISPATCH_MAGIC _ 8 (8 + length metadata)) by done.
    rewrite (slice_app_r 4 m4 _ 4 (4 + length metadata)) by done.
    rewrite (slice_app_r 4 p4 _ 0 (length metadata)) by done. apply slice_app_l.
  - rewrite (slice_app_r 6 OWNER_DISPATCH_MAGIC _ (8 + length metadata) (8 + length metadata + length payload)) by done.
    rewrite (slice_app_r 4 m4 _ (4 + length metadata) (4 + length metadata + length payload)) by done.
    rewrite (slice_app_r 4 p4 _ (length metadata) (length metadata + length payload)) by done.
    pose proof (slice_app_r (length metadata) metadata payload 0 (length payload) eq_refl) as E.
    rewrite Nat.add_0_r in E. rewrite E. apply slice_full.
Qed.

Lemma decode_frame_bytes metadata payload :
  14 + len metadata + len payload ≤ MAX_OWNER_DISPATCH_FRAME_BYTES →
  decode_wire_frame (frame_bytes metadata payload) = Ok (metadata, payload).
Proof.
  intros Hb. unfold decode_wire_frame. rewrite frame_bytes_length.
  destruct (frame_slices metadata payload) as (E1 & E2 & E3 & E4 & E5). rewrite E1, E2, E3, !from_be_bytes.
  change MAX_OWNER_DISPATCH_FRAME_BYTES with 131072 in *. change (256 ^ N.of_nat 4) with 4294967296.
  rewrite !N.mod_small by lia. unfold checked_add64. change u64_max with 18446744073709551615.
  rewrite (proj2 (N.ltb_ge (14 + len metadata + len payload) 14)) by lia.
  rewrite (proj2 (N.ltb_ge 131072 _)), bool_decide_true by done. cbn [orb negb fail_if mbind result_bind].
  rewrite (proj2 (N.leb_le (14 + len metadata) _)) by lia. cbn [mbind option_bind].
  rewrite (proj2 (N.leb_le (14 + len metadata + len payload) _)) by lia. cbn [ok_or mbind result_bind].
  rewrite N.eqb_refl. cbn [negb fail_if mbind result_bind]. unfold len.
  rewrite Nat2N.id, E4. do 2 f_equal.
  replace (N.to_nat (14 + N.of_nat (length metadata) + N.of_nat (length payload)))
    with (14 + length metadata + length payload)%nat by lia. done.
Qed.

Lemma slice_cut (k : nat) (l : list N) : slice 0 k l ++ drop k l = l.
Proof. unfold slice. by rewrite Nat.sub_0_r, drop_0, take_drop. Qed.

Lemma slice_drop first last (l : list N) : (first ≤ last)%nat →
  slice first last l ++ drop last l = drop first l.
Proof.
  intros H. unfold slice. rewrite <- (take_drop (last - first) (drop first l)) at 2.
  rewrite drop_drop. do 2 f_equal. lia.
Qed.

Lemma slice_length first last (l : list N) : (first ≤ last ≤ length l)%nat → length (slice first last l) = (last - first)%nat.
Proof. intros. unfold slice. rewrite length_take, length_drop. lia. Qed.

Lemma slice_u8 first last l : Forall is_u8 l → Forall is_u8 (slice first last l).
Proof. intros. by apply Forall_take, Forall_drop. Qed.

(** A list is the concatenation of its consecutive slices. *)
Lemma frame_recompose (a b c d e : nat) (l : list N) : (a ≤ b ≤ c)%nat → (c ≤ d ≤ e)%nat → e = length l →
  l = slice 0 a l ++ slice a b l ++ slice b c l ++ slice c d l ++ slice d e l.
Proof.
  intros H1 H2 ->. rewrite <- (slice_cut a l) at 1. f_equal.
  rewrite <- (slice_drop a b), <- (slice_drop b c), <- (slice_drop c d), <- (slice_drop d (length l)) by lia.
  by rewrite drop_all, app_nil_r.
Qed.

Lemma header_field first (frame : list N) :
  Forall is_u8 frame → (first + 4 ≤ length frame)%nat →
  be_bytes 4 (from_be (slice first (first + 4) frame)) = slice first (first + 4) frame.
Proof.
  intros Hu Hl. rewrite <- (be_from_bytes (slice first (first + 4) frame)) at 2 by by apply slice_u8.
  rewrite slice_length by lia. f_equal. lia.
Qed.

Lemma frame_of_slices frame (m p : nat) :
  Forall is_u8 frame → length frame = (14 + m + p)%nat → slice 0 6 frame = OWNER_DISPATCH_MAGIC →
  N.of_nat m = from_be (slice 6 10 frame) → N.of_nat p = from_be (slice 10 14 frame) →
  frame = frame_bytes (slice 14 (14 + m) frame) (slice (14 + m) (14 + m + p) frame).
Proof.
  intros Hu Hl Hmagic Hm Hp. rewrite (frame_recompose 6 10 14 (14 + m) (14 + m + p) frame) at 1 by lia.
  unfold frame_bytes, len. rewrite !slice_length by lia.
  replace (14 + m - 14)%nat with m by lia. replace (14 + m + p - (14 + m))%nat with p by lia.
  rewrite Hm, Hp, Hmagic, (header_field 6), (header_field 10) by (done || lia). done.
Qed.

(** A frame that decodes is the encoding of what it decodes to. *)
Lemma decode_wire_frame_inv frame metadata payload :
  Forall is_u8 frame → decode_wire_frame frame = Ok (metadata, payload) →
  14 + len metadata + len payload ≤ MAX_OWNER_DISPATCH_FRAME_BYTES ∧ frame = frame_bytes metadata payload.
Proof.
  intros Hu E. unfold decode_wire_frame in E.
  set (m := from_be (slice 6 10 frame)) in E. set (p := from_be (slice 10 14 frame)) in E.
  apply fail_if_bind_ok in E as [E1 E]. apply ok_or_bind_ok in E as (last & E2 & E).
  apply fail_if_bind_ok in E as [E3 E]. bool_to_prop.
  unfold checked_add64 in E2. destruct (14 + m <=? u64_max); [|done]. cbn [mbind option_bind] in E2.
  destruct (14 + m + p <=? u64_max); [|done]. injection E2 as <-. unfold len in *.
  assert (Hlen : length frame = (14 + N.to_nat m + N.to_nat p)%nat) by lia.
  replace (N.to_nat (14 + m + p)) with (14 + N.to_nat m + N.to_nat p)%nat in E by lia.
  assert (E' : metadata = slice 14 (14 + N.to_nat m) frame ∧
               payload = slice (14 + N.to_nat m) (14 + N.to_nat m + N.to_nat p) frame) by (injection E; auto).
  destruct E' as [-> ->]. rewrite !slice_length by lia. split; [lia|].
  apply frame_of_slices; try done; lia.
Qed.

Lemma decode_wire_frame_iff frame metadata payload :
  Forall is_u8 frame →
  decode_wire_frame frame = Ok (metadata, payload) ↔ encode_wire_frame metadata payload = Ok frame.
Proof.
  intros Hu. rewrite encode_wire_frame_iff. split; [by apply decode_wire_frame_inv|].
  intros [Hb ->]. by apply decode_frame_bytes.
Qed.

Lemma be_bytes_inj n v w : be_bytes n v = be_bytes n w → v < 256 ^ N.of_nat n → w < 256 ^ N.of_nat n → v = w.
Proof. intros H Hv Hw. apply (f_equal from_be) in H. by rewrite !from_be_bytes, !N.mod_small in H. Qed.

Lemma wire_signing_bytes_iff domain metadata payload bytes :
  wire_signing_bytes domain metadata payload = Ok bytes ↔
  len metadata ≤ u32_max ∧ len payload ≤ u32_max ∧
  bytes = domain ++ be_bytes 4 (len metadata) ++ be_bytes 4 (len payload) ++ metadata ++ payload.
Proof.
  unfold wire_signing_bytes, u32_try_from.
  destruct (N.leb_spec (len metadata) u32_max); cbn [ok_or mbind result_bind]; [|split; [done|lia]].
  destruct (N.leb_spec (len payload) u32_max); cbn [ok_or mbind result_bind]; [|split; [done|lia]].
  split; [intros [= <-]; done|intros (_ & _ & ->); done].
Qed.

(** The signing input determines its parts: no two messages of one domain share it. *)
Lemma wire_signing_bytes_inj domain m1 p1 m2 p2 bytes :
  wire_signing_bytes domain m1 p1 = Ok bytes → wire_signing_bytes domain m2 p2 = Ok bytes → m1 = m2 ∧ p1 = p2.
Proof.
  rewrite !wire_signing_bytes_iff. intros (A1 & A2 & ->) (B1 & B2 & E). apply app_inv_head in E.
  change u32_max with 4294967295 in *.
  apply app_inj_1 in E as [E1 E]; [|by rewrite !be_bytes_length].
  apply app_inj_1 in E as [_ E]; [|by rewrite !be_bytes_length].
  apply be_bytes_inj in E1; [|change (256 ^ N.of_nat 4) with 4294967296; lia..].
  unfold len in E1. apply app_inj_1 in E as [-> ->]; [done|lia].
Qed.
