(* ===== verification/ProductModel.v ===== *)
(** * Product runtime: data

    The structs of crates/rusty-quest-media-stream/src/product_runtime.rs. The
    accepted media sessions, their receipts and the revocation evidence belong to
    the Manifold crates, which are another repository: the class [ManifoldMedia]
    has their types and the fields that this crate reads. *)

From S2P Require Import Prelude P2pRoute MediaModel MediaRuntime MediaLifecycle CleanupTicket OwnerEffect ProductBinding.

Local Open Scope N_scope.

(** ** Manifold *)

(** Identifier newtypes have [as_str], which is also their [to_string], revision
    newtypes have [get] and an order. A field that is only compared has the type
    [MediaField]. *)
Class ManifoldMedia := {
  ManifoldId : Type;
  manifold_id_eq_dec :: EqDecision ManifoldId;
  as_str : ManifoldId → string;
  Revision : Type;
  revision_eq_dec :: EqDecision Revision;
  rev_get : Revision → N;
  rev_ltb : Revision → Revision → bool;
  MediaField : Type;
  media_field_eq_dec :: EqDecision MediaField;
  MANIFOLD_ACCEPTED_MEDIA_SESSION_SCHEMA : string;
  MANIFOLD_MEDIA_SESSION_CURRENT_RECEIPT_SCHEMA : string;
  (** The session descriptor and its product binding. *)
  MediaDescriptor : Type;
  dsc_session_id : MediaDescriptor → ManifoldId;
  dsc_authority_revision : MediaDescriptor → Revision;
  dsc_platform_runtime_spec_id : MediaDescriptor → ManifoldId;
  dsc_source_ids : MediaDescriptor → list ManifoldId;
  dsc_processor_ids : MediaDescriptor → list ManifoldId;
  dsc_route_ids : MediaDescriptor → list ManifoldId;
  dsc_sink_ids : MediaDescriptor → list ManifoldId;
  dsc_stream_ids : MediaDescriptor → list ManifoldId;
  MediaProductBinding : Type;
  media_product_binding_eq_dec :: EqDecision MediaProductBinding;
  mpb_validate : MediaProductBinding → bool;
  mpb_descriptor : MediaProductBinding → MediaDescriptor;
  mpb_descriptor_canonical_sha256 : MediaProductBinding → string;
  (** [ManifoldMediaSessionLifecycleStatus], of which two variants are named. *)
  MediaLifecycleStatus : Type;
  media_lifecycle_status_eq_dec :: EqDecision MediaLifecycleStatus;
  status_current : MediaLifecycleStatus;
  status_revoked : MediaLifecycleStatus;
  (** [ManifoldAcceptedMediaSession]. *)
  AcceptedSession : Type;
  accepted_session_eq_dec :: EqDecision AcceptedSession;
  acc_schema_id : AcceptedSession → ManifoldId;
  acc_decision_id : AcceptedSession → ManifoldId;
  acc_request_id : AcceptedSession → MediaField;
  acc_session_id : AcceptedSession → ManifoldId;
  acc_session_authority_revision : AcceptedSession → Revision;
  acc_product_descriptor_canonical_sha256 : AcceptedSession → string;
  acc_provider_epoch_id : AcceptedSession → ManifoldId;
  acc_platform_runtime_spec_id : AcceptedSession → ManifoldId;
  acc_product_id : AcceptedSession → ManifoldId;
  acc_feature_lock_id : AcceptedSession → ManifoldId;
  acc_feature_lock_fingerprint : AcceptedSession → string;
  acc_capability_id : AcceptedSession → ManifoldId;
  acc_admission_grant_id : AcceptedSession → ManifoldId;
  acc_runtime_authority_host_id : AcceptedSession → MediaField;
  acc_runtime_command_request_id : AcceptedSession → MediaField;
  acc_runtime_command_id : AcceptedSession → MediaField;
  acc_runtime_client_id : AcceptedSession → ManifoldId;
  acc_runtime_lease_id : AcceptedSession → ManifoldId;
  acc_runtime_params_digest : AcceptedSession → MediaField;
  acc_runtime_dispatch_id : AcceptedSession → MediaField;
  acc_runtime_application_receipt_id : AcceptedSession → MediaField;
  acc_runtime_resulting_authority_revision : AcceptedSession → MediaField;
  acc_accepted_at_ms : AcceptedSession → N;
  acc_expires_at_ms : AcceptedSession → N;
  acc_product_binding : AcceptedSession → MediaProductBinding;
  acc_lifecycle_status : AcceptedSession → MediaLifecycleStatus;
  acc_ended_by_id : AcceptedSession → option ManifoldId;
  set_acc_expires_at_ms : N → AcceptedSession → AcceptedSession;
  (** [ManifoldMediaSessionCurrentReceipt]. *)
  CurrentReceipt : Type;
  cur_schema_id : CurrentReceipt → ManifoldId;
  cur_acceptance_state_authority_revision : CurrentReceipt → Revision;
  cur_validated_at_ms : CurrentReceipt → N;
  cur_decision_id : CurrentReceipt → ManifoldId;
  cur_session : CurrentReceipt → option AcceptedSession;
  cur_current : CurrentReceipt → bool;
  cur_rejection_reason : CurrentReceipt → option MediaField;
  set_cur_session : option AcceptedSession → CurrentReceipt → CurrentReceipt;
  (** The lease adoption of a trusted revoker, its termination request and the
      receipt of the termination. *)
  RevokerLease : Type;
  revoker_lease_eq_dec :: EqDecision RevokerLease;
  rlease_derivative_binding : RevokerLease → option MediaField;
  rlease_expires_at_ms : RevokerLease → N;
  RevokerAdoption : Type;
  revoker_adoption_eq_dec :: EqDecision RevokerAdoption;
  rad_provider_epoch_id : RevokerAdoption → ManifoldId;
  rad_revoker_id : RevokerAdoption → ManifoldId;
  rad_applied : RevokerAdoption → bool;
  rad_adoption_id : RevokerAdoption → ManifoldId;
  rad_lease : RevokerAdoption → RevokerLease;
  TerminationRequest : Type;
  termination_request_eq_dec :: EqDecision TerminationRequest;
  trq_request_id : TerminationRequest → ManifoldId;
  trq_is_revoke : TerminationRequest → bool;
  trq_decision_id : TerminationRequest → ManifoldId;
  trq_session_id : TerminationRequest → ManifoldId;
  trq_expected_provider_epoch_id : TerminationRequest → ManifoldId;
  MutationReceipt : Type;
  mutation_receipt_eq_dec :: EqDecision MutationReceipt;
  mut_applied : MutationReceipt → bool;
  mut_source_id : MutationReceipt → ManifoldId;
  (** [ManifoldConcurrentMediaAuthorityRenewalReceipt]. *)
  RenewalReceipt : Type;
  renewal_receipt_eq_dec :: EqDecision RenewalReceipt;
  ren_applied : RenewalReceipt → bool;
  ren_request_id : RenewalReceipt → ManifoldId;
  ren_provider_epoch_id : RenewalReceipt → ManifoldId;
  ren_prior_media : RenewalReceipt → AcceptedSession;
  ren_renewed_media : RenewalReceipt → AcceptedSession;
}.

(** ** Equality of packaged bindings *)

#[global] Instance media_device_eq_dec : EqDecision MediaStreamDevice.
Proof. solve_decision. Defined.
#[global] Instance display_crop_eq_dec : EqDecision DisplayContentCrop.
Proof. solve_decision. Defined.
#[global] Instance display_descriptor_eq_dec : EqDecision DisplayCaptureDescriptor.
Proof. solve_decision. Defined.
#[global] Instance camera_track_eq_dec : EqDecision CameraTrackBinding.
Proof. solve_decision. Defined.
#[global] Instance camera_descriptor_eq_dec : EqDecision CameraCaptureDescriptor.
Proof. solve_decision. Defined.
#[global] Instance media_source_eq_dec : EqDecision MediaStreamSource.
Proof. solve_decision. Defined.
#[global] Instance media_config_eq_dec : EqDecision MediaStreamMediaConfig.
Proof. solve_decision. Defined.
#[global] Instance transport_config_eq_dec : EqDecision MediaStreamTransportConfig.
Proof. solve_decision. Defined.
#[global] Instance queue_policy_eq_dec : EqDecision MediaStreamQueuePolicy.
Proof. solve_decision. Defined.
#[global] Instance media_lane_eq_dec : EqDecision MediaStreamLane.
Proof. solve_decision. Defined.
#[global] Instance source_binding_eq_dec : EqDecision MediaStreamSourceBinding.
Proof. solve_decision. Defined.
#[global] Instance port_binding_eq_dec : EqDecision MediaStreamPortBinding.
Proof. solve_decision. Defined.
#[global] Instance runtime_endpoint_eq_dec : EqDecision MediaStreamRuntimeEndpoint.
Proof. solve_decision. Defined.
#[global] Instance transport_route_eq_dec : EqDecision MediaStreamTransportRoute.
Proof. solve_decision. Defined.
#[global] Instance security_policy_eq_dec : EqDecision MediaStreamSecurityPolicy.
Proof. solve_decision. Defined.
#[global] Instance observability_policy_eq_dec : EqDecision MediaStreamObservabilityPolicy.
Proof. solve_decision. Defined.
#[global] Instance session_plan_eq_dec : EqDecision MediaStreamSessionPlan.
Proof. solve_decision. Defined.
#[global] Instance processor_eq_dec : EqDecision MediaStreamProcessorDescriptor.
Proof. solve_decision. Defined.
#[global] Instance sink_eq_dec : EqDecision MediaStreamSinkDescriptor.
Proof. solve_decision. Defined.
#[global] Instance lane_binding_eq_dec : EqDecision MediaStreamLaneRuntimeBinding.
Proof. solve_decision. Defined.
#[global] Instance p2p_route_eq_dec : EqDecision DirectP2pSocketRoute.
Proof. solve_decision. Defined.
#[global] Instance p2p_binding_eq_dec : EqDecision MediaStreamDirectP2pRouteBinding.
Proof. solve_decision. Defined.
#[global] Instance owner_selection_eq_dec : EqDecision MediaStreamOwnerSelection.
Proof. solve_decision. Defined.
#[global] Instance runtime_spec_eq_dec : EqDecision MediaStreamRuntimeSpec.
Proof. solve_decision. Defined.
#[global] Instance product_binding_eq_dec : EqDecision MediaStreamRuntimeProductBinding.
Proof. solve_decision. Defined.

(** ** Schemas *)

Definition MEDIA_STREAM_PLATFORM_ACTION_SCHEMA : string := "rusty.quest.media_stream_platform_action.v1".
Definition MEDIA_STREAM_PLATFORM_APPLICATION_SCHEMA : string := "rusty.quest.media_stream_platform_application.v1".
Definition MEDIA_STREAM_PLATFORM_ABORT_SCHEMA : string := "rusty.quest.media_stream_platform_abort.v1".
Definition MEDIA_STREAM_PRODUCT_RECOVERY_SCHEMA : string := "rusty.quest.media_stream_product_recovery.v1".
Definition MEDIA_STREAM_PRODUCT_ABORT_RECOVERY_SCHEMA : string := "rusty.quest.media_stream_product_recovery.v2".
Definition MAX_MEDIA_STREAM_PRODUCT_RECOVERY_BYTES : N := 1024 * 1024.

(** The two literals of the record and receipt schemas. *)
Definition COMPLETED_START_ABORT_SCHEMA : string := "rusty.quest.media_stream.completed_start_abort.v1".
Definition CONCURRENT_AUTHORITY_ADOPTION_SCHEMA : string :=
  "rusty.quest.media_stream.concurrent_authority_adoption_receipt.v1".

(** ** Actions and receipts *)

Record MediaStreamClientAuthorityBinding := mkClientAuthority {
  ca_client_id : string;
  ca_lease_id : string;
  ca_product_id : string;
  ca_feature_lock_id : string;
  ca_feature_lock_fingerprint : string;
  ca_session_capability_id : string;
  ca_session_admission_grant_id : string;
  ca_operation_capability_id : string;
  ca_operation_admission_grant_id : string;
  ca_operation_admission_use_request_id : string;
}.

Record MediaStreamOwnerAction := mkOwnerAction {
  oa_selection : MediaStreamOwnerSelection;
  oa_action_kind : MediaStreamOwnerActionKind;
}.

Record MediaStreamOwnerCompletionReceipt := mkCompletion {
  ocr_selection : MediaStreamOwnerSelection;
  ocr_action_kind : MediaStreamOwnerActionKind;
  ocr_receipt_id : string;
  ocr_completion_sequence : N;
  ocr_provider_handle_id : string;
  ocr_provider_state_revision : N;
  ocr_observed_state : string;
}.

Record MediaStreamRecoveryProviderHandle := mkRecoveryHandle {
  rph_selection : MediaStreamOwnerSelection;
  rph_provider_handle_id : string;
  rph_provider_state_revision : N;
}.

#[global] Instance client_authority_eq_dec : EqDecision MediaStreamClientAuthorityBinding.
Proof. solve_decision. Defined.
#[global] Instance owner_action_eq_dec : EqDecision MediaStreamOwnerAction.
Proof. solve_decision. Defined.
#[global] Instance completion_eq_dec : EqDecision MediaStreamOwnerCompletionReceipt.
Proof. solve_decision. Defined.

Record MediaStreamPendingStopProgress := mkStopProgress {
  psp_verified_owner_receipts : list MediaStreamOwnerCompletionReceipt;
  psp_uncertain_owner : option MediaStreamOwnerAction;
}.

Record MediaStreamRecoveryCleanupCursor := mkCleanupCursor {
  rcc_original_action_id : string;
  rcc_authority_epoch_id : string;
  rcc_target_client_authority : MediaStreamClientAuthorityBinding;
  rcc_owner : MediaStreamOwnerAction;
  rcc_sequence : N;
  rcc_partial_start_abort : bool;
  rcc_uncertain_attempt : bool;
}.

Record MediaStreamPlatformApplicationReceipt := mkApplicationReceipt {
  apr_schema_id : string;
  apr_action_id : string;
  apr_authority_epoch_id : string;
  apr_media_acceptance_authority_revision : N;
  apr_platform_effect_completed : bool;
  apr_resulting_runtime_revision : N;
  apr_resulting_phase : MediaStreamRuntimePhase;
  apr_lifecycle_decisions : list MediaStreamRuntimeDecision;
  apr_owner_receipt_ids : list string;
}.

Record MediaStreamPlatformAbortReceipt := mkAbortReceipt {
  abr_schema_id : string;
  abr_action_id : string;
  abr_abort_action_id : string;
  abr_authority_epoch_id : string;
  abr_client_authority : MediaStreamClientAuthorityBinding;
  abr_rollback_receipts : list MediaStreamOwnerCompletionReceipt;
  abr_uncertain_attempts_compensated : N;
  abr_cleanup_complete : bool;
  abr_platform_effect_completed : bool;
  abr_resulting_phase : MediaStreamRuntimePhase;
  abr_resulting_runtime_revision : N;
}.

Section Data.
Context {MM : ManifoldMedia}.

Record MediaStreamTrustedRevokerCleanupEvidence := mkRevokerEvidence {
  tre_adoption : RevokerAdoption;
  tre_cleanup_requester_adoption : option RevokerAdoption;
  tre_request : TerminationRequest;
  tre_termination : MutationReceipt;
}.

#[global] Instance revoker_evidence_eq_dec : EqDecision MediaStreamTrustedRevokerCleanupEvidence.
Proof. solve_decision. Defined.

Record MediaStreamPlatformAction := mkPlatformAction {
  pa_schema_id : string;
  pa_action_id : string;
  pa_authority_epoch_id : string;
  pa_operation : MediaStreamPlatformOperation;
  pa_client_authority : MediaStreamClientAuthorityBinding;
  pa_trusted_revoker_cleanup : option MediaStreamTrustedRevokerCleanupEvidence;
  pa_runtime_spec_id : string;
  pa_runtime_spec_canonical_sha256 : string;
  pa_manifold_descriptor_canonical_sha256 : string;
  pa_manifold_decision_id : string;
  pa_manifold_session_revision : N;
  pa_media_acceptance_authority_revision : N;
  pa_expected_runtime_revision : N;
  pa_owner_actions : list MediaStreamOwnerAction;
}.

#[global] Instance platform_action_eq_dec : EqDecision MediaStreamPlatformAction.
Proof. solve_decision. Defined.

Record MediaStreamCompletedStartAbort := mkCompletedStartAbort {
  csa_schema_id : string;
  csa_original_action : MediaStreamPlatformAction;
  csa_started_receipts : list MediaStreamOwnerCompletionReceipt;
  csa_uncertain_owner : option MediaStreamOwnerAction;
  csa_rollback_action : MediaStreamPlatformAction;
  csa_rollback_receipts : list MediaStreamOwnerCompletionReceipt;
}.

Record MediaStreamSessionProductRecoverySnapshot := mkRecoverySnapshot {
  rsn_schema_id : string;
  rsn_binding : MediaStreamRuntimeProductBinding;
  rsn_accepted_subject : CurrentReceipt;
  rsn_provider_epoch_id : string;
  rsn_lifecycle : MediaStreamRuntimeState;
  rsn_pending_action : option MediaStreamPlatformAction;
  rsn_pending_owner_receipts : list MediaStreamOwnerCompletionReceipt;
  rsn_pending_uncertain_owner : option MediaStreamOwnerAction;
  rsn_pending_abort_receipts : list MediaStreamOwnerCompletionReceipt;
  rsn_pending_abort_uncertain_owner : option MediaStreamOwnerAction;
  rsn_abort_in_progress : bool;
  rsn_active_provider_handles : list MediaStreamRecoveryProviderHandle;
  rsn_active_start_receipts : list MediaStreamOwnerCompletionReceipt;
  rsn_active_start_action : option MediaStreamPlatformAction;
  rsn_active_client_authority : option MediaStreamClientAuthorityBinding;
  rsn_applied_action_ids : list string;
  rsn_aborted_action_ids : list string;
  rsn_completed_start_abort : option MediaStreamCompletedStartAbort;
}.

Record MediaStreamConcurrentAuthorityAdoptionReceipt := mkAdoptionReceipt {
  aar_schema_id : string;
  aar_owner_request_id : ManifoldId;
  aar_current_acceptance : CurrentReceipt;
  aar_prior_physical_graph_sha256 : string;
  aar_physical_graph_sha256 : string;
}.

(** ** Collaborators *)

(** serde_json on the snapshot: its bytes, its text, and the bytes of its value
    without the member [accepted_subject]. *)
Class SnapshotEncoding := {
  snapshot_to_vec : MediaStreamSessionProductRecoverySnapshot → option (list N);
  snapshot_graph_to_vec : MediaStreamSessionProductRecoverySnapshot → option (list N);
  snapshot_from_str : string → option MediaStreamSessionProductRecoverySnapshot;
}.

(** The live peer Runtime Host and Broker as one call sees them: whether their
    locks can be read, and what their queries answer. [None] is any error. *)
Record HostEnv := mkHostEnv {
  he_readable : bool;
  he_broker_readable : bool;
  he_provider_epoch_id : ManifoldId;
  he_validate_media_session : ManifoldId → N → CurrentReceipt;
  he_validate_media_session_with_live_broker_runtime : ManifoldId → N → option CurrentReceipt;
  he_validate_owned_state_with_live_broker : bool;
  he_concurrent_media_renewals : list RenewalReceipt;
  he_reviewed_control_lease_adoption_ids : list ManifoldId;
  he_leases : list RevokerLease;
  he_trusted_media_revoker_ids : list ManifoldId;
  (** Source and [applied] of the audit events of kind [MediaSessionTermination]. *)
  he_termination_audit_events : list (ManifoldId * bool);
}.

(** [MediaStreamTrustedOwnerProvider]: the native registry is state. *)
Class MediaStreamTrustedOwnerProvider (P : Type) := {
  provider_owner_kind : P → MediaStreamOwnerKind;
  execute_and_readback : P → MediaStreamPlatformAction → MediaStreamOwnerAction →
    P * result string MediaStreamOwnerProviderReadback;
  compensate_uncertain_attempt : P → MediaStreamPlatformAction → MediaStreamOwnerAction →
    P * result string MediaStreamOwnerProviderReadback;
  verify_readback : P → MediaStreamPlatformAction → MediaStreamOwnerAction →
    MediaStreamOwnerProviderReadback → bool;
}.

(** [MediaStreamRecoveryReceiptVerifier]. *)
Definition MediaStreamRecoveryReceiptVerifier : Type :=
  MediaStreamPlatformAction → MediaStreamOwnerCompletionReceipt → bool.

(** [MediaStreamRecoveryJournal]: [commit] writes through a shared reference, so
    that the journal is state. *)
Class MediaStreamRecoveryJournal (J : Type) := {
  journal_commit : J → MediaStreamSessionProductRecoverySnapshot → J * result string unit;
}.

(** Success means that the snapshot is durable; an error is ambiguous. *)
Class RecoveryJournalLaws (J : Type) `{MediaStreamRecoveryJournal J} := {
  journal_durable : J → option MediaStreamSessionProductRecoverySnapshot;
  journal_commit_ok j snapshot j' :
    journal_commit j snapshot = (j', Ok tt) → journal_durable j' = Some snapshot;
  journal_commit_err j snapshot j' e :
    journal_commit j snapshot = (j', Err e) →
    journal_durable j' = journal_durable j ∨ journal_durable j' = Some snapshot;
}.
End Data.
