(* ===== verification/ProductActions.v ===== *)
(** * Product runtime: actions, receipts and the accepted session

    The free functions of
    crates/rusty-quest-media-stream/src/product_runtime.rs. *)

From S2P Require Import Prelude RustStr OrdMap MediaModel MediaRuntime MediaLifecycle MediaComposition CleanupTicket OwnerEffect ProductBinding ProductModel.
From Stdlib Require Import Sorting.Sorted.

Local Open Scope N_scope.

(** ** Owner actions *)

Definition owner_action_kind (operation : MediaStreamPlatformOperation) (kind : MediaStreamOwnerKind)
    : MediaStreamOwnerActionKind :=
  match operation, kind with
  | OpStart, OwnSink => ActArmReceiver
  | OpStart, OwnCleanup => ActArmCleanup
  | OpStart, _ => ActStart
  | OpStop, OwnCleanup => ActCleanup
  | OpStop, _ => ActStop
  end.

Definition owner_priority (operation : MediaStreamPlatformOperation) (kind : MediaStreamOwnerKind) : N :=
  match operation, kind with
  | OpStart, OwnCleanup => 0
  | OpStart, OwnSink => 1
  | OpStart, OwnRoute => 2
  | OpStart, OwnSocket => 3
  | OpStart, OwnCodec => 4
  | OpStart, OwnProcessor => 5
  | OpStart, OwnSource => 6
  | OpStop, OwnSource => 0
  | OpStop, OwnProcessor => 1
  | OpStop, OwnCodec => 2
  | OpStop, OwnSocket => 3
  | OpStop, OwnRoute => 4
  | OpStop, OwnSink => 5
  | OpStop, OwnCleanup => 6
  end.

(** The key of [sort_by_key]. *)
Definition compare_owner_action (operation : MediaStreamPlatformOperation) (a b : MediaStreamOwnerAction) : comparison :=
  match N.compare (owner_priority operation (own_owner_kind (oa_selection a)))
          (owner_priority operation (own_owner_kind (oa_selection b))) with
  | Eq => compare_selection (oa_selection a) (oa_selection b)
  | c => c
  end.

Definition ordered_owner_actions (selections : list MediaStreamOwnerSelection)
    (operation : MediaStreamPlatformOperation) : list MediaStreamOwnerAction :=
  sort_by (compare_owner_action operation)
    ((fun selection => mkOwnerAction selection (owner_action_kind operation (own_owner_kind selection))) <$> selections).

Definition expected_provider_state (action : MediaStreamOwnerActionKind) : string :=
  match action with
  | ActArmReceiver => "receiver_armed"
  | ActArmCleanup => "cleanup_armed"
  | ActStart => "started"
  | ActStop => "stopped"
  | ActCleanup => "cleaned"
  end.

(** How an attempt or a completion is reversed. *)
Definition reverse_kind (kind : MediaStreamOwnerActionKind) : MediaStreamOwnerActionKind :=
  match kind with ActArmCleanup => ActCleanup | _ => ActStop end.

(** ** Receipts *)

(** [u32::try_from(index + 1).unwrap_or(u32::MAX)]. *)
Definition sequence_number (index : N) : N := N.min (index + 1) u32_max.

Definition receipt_matches (index : N) (expected : MediaStreamOwnerAction)
    (receipt : MediaStreamOwnerCompletionReceipt) : bool :=
  bool_decide (ocr_selection receipt = oa_selection expected) &&
  bool_decide (ocr_action_kind receipt = oa_action_kind expected) &&
  negb (is_blank (ocr_receipt_id receipt)) &&
  (ocr_completion_sequence receipt =? sequence_number index) &&
  negb (is_blank (ocr_provider_handle_id receipt)) &&
  (0 <? ocr_provider_state_revision receipt) &&
  (ocr_observed_state receipt =? expected_provider_state (oa_action_kind expected))%string.

(** The loop over actions and receipts side by side, with the sets of receipt and
    handle identifiers seen so far. *)
Fixpoint receipts_match (index : N) (ids handles : gset string) (actions : list MediaStreamOwnerAction)
    (receipts : list MediaStreamOwnerCompletionReceipt) : bool :=
  match actions, receipts with
  | expected :: actions, receipt :: receipts =>
      receipt_matches index expected receipt &&
      negb (bool_decide (ocr_receipt_id receipt ∈ ids)) &&
      negb (bool_decide (ocr_provider_handle_id receipt ∈ handles)) &&
      receipts_match (index + 1) ({[ocr_receipt_id receipt]} ∪ ids) ({[ocr_provider_handle_id receipt]} ∪ handles)
        actions receipts
  | _, _ => true
  end.

(** [iter().min()] and [iter().max()]. *)
Definition iter_min (l : list N) : option N :=
  match l with [] => None | x :: l => Some (foldr N.min x l) end.
Definition iter_max (l : list N) : option N :=
  match l with [] => None | x :: l => Some (foldr N.max x l) end.

Definition sequences_where (p : MediaStreamOwnerKind → bool) (receipts : list MediaStreamOwnerCompletionReceipt)
    : list N :=
  ocr_completion_sequence <$> filter (fun receipt => p (own_owner_kind (ocr_selection receipt)) = true) receipts.

Definition owner_kind_is (kind : MediaStreamOwnerKind) (kind' : MediaStreamOwnerKind) : bool := bool_decide (kind' = kind).

Definition completion_order (operation : MediaStreamPlatformOperation)
    (receipts : list MediaStreamOwnerCompletionReceipt) : result MediaStreamProductRuntimeError unit :=
  match operation with
  | OpStart =>
      source_first ← ok_or (iter_min (sequences_where (owner_kind_is OwnSource) receipts)) OwnerCompletionMismatch;
      required_before_source ← ok_or (iter_max (sequences_where (fun k => negb (owner_kind_is OwnSource k)) receipts))
        OwnerCompletionMismatch;
      fail_if (source_first <=? required_before_source) ReceiverFirstViolation
  | OpStop =>
      cleanup ← ok_or (List.find (fun receipt => owner_kind_is OwnCleanup (own_owner_kind (ocr_selection receipt))) receipts)
        OwnerCompletionMismatch;
      last_stop ← ok_or (iter_max (sequences_where (fun k => negb (owner_kind_is OwnCleanup k)) receipts))
        OwnerCompletionMismatch;
      fail_if (ocr_completion_sequence cleanup <=? last_stop) CleanupOrderViolation
  end.

(** ** Authority *)

Definition validate_sha256 (value : string) : result MediaStreamProductRuntimeError unit :=
  match strip_prefix "sha256:" value with
  | None => Err InvalidDescriptorDigest
  | Some hex => fail_if (negb (str_len hex =? 64) || negb (all_bytes is_lower_hex hex)) InvalidDescriptorDigest
  end.

Definition same_session_holder (active candidate : MediaStreamClientAuthorityBinding) : bool :=
  ((ca_client_id active =? ca_client_id candidate) &&
   (ca_lease_id active =? ca_lease_id candidate) &&
   (ca_product_id active =? ca_product_id candidate) &&
   (ca_feature_lock_id active =? ca_feature_lock_id candidate) &&
   (ca_feature_lock_fingerprint active =? ca_feature_lock_fingerprint candidate) &&
   (ca_session_capability_id active =? ca_session_capability_id candidate) &&
   (ca_session_admission_grant_id active =? ca_session_admission_grant_id candidate))%string.

Definition operation_capability (operation : MediaStreamPlatformOperation) : string :=
  match operation with
  | OpStart => "capability.command.media.session.start"
  | OpStop => "capability.command.media.session.stop"
  end.

Section Functions.
Context {MM : ManifoldMedia}.

(** The same action under the derived identity, over the uncertain attempt and
    then the completed owners, newest first. *)
Definition partial_start_abort_action (action : MediaStreamPlatformAction)
    (completed : list MediaStreamOwnerCompletionReceipt) (uncertain : option MediaStreamOwnerAction)
    : MediaStreamPlatformAction :=
  mkPlatformAction (pa_schema_id action) (pa_action_id action ++ ".abort")%string (pa_authority_epoch_id action)
    (pa_operation action) (pa_client_authority action) (pa_trusted_revoker_cleanup action)
    (pa_runtime_spec_id action) (pa_runtime_spec_canonical_sha256 action)
    (pa_manifold_descriptor_canonical_sha256 action) (pa_manifold_decision_id action)
    (pa_manifold_session_revision action) (pa_media_acceptance_authority_revision action)
    (pa_expected_runtime_revision action)
    (((fun attempt => mkOwnerAction (oa_selection attempt) (reverse_kind (oa_action_kind attempt)))
        <$> option_list uncertain) ++
     ((fun receipt => mkOwnerAction (ocr_selection receipt) (reverse_kind (ocr_action_kind receipt)))
        <$> rev completed)).

Definition validate_owner_completions (action : MediaStreamPlatformAction)
    (receipts : list MediaStreamOwnerCompletionReceipt) : result MediaStreamProductRuntimeError unit :=
  fail_if (negb (len receipts =? len (pa_owner_actions action))) OwnerCompletionMismatch ;;
  fail_if (negb (receipts_match 0 ∅ ∅ (pa_owner_actions action) receipts)) OwnerCompletionMismatch ;;
  completion_order (pa_operation action) receipts.

Definition valid_recovery_receipt_prefix (action : MediaStreamPlatformAction)
    (receipts : list MediaStreamOwnerCompletionReceipt) : bool :=
  if len (pa_owner_actions action) <? len receipts then false
  else receipts_match 0 ∅ ∅ (pa_owner_actions action) receipts.

Definition same_accepted_subject (current prior : AcceptedSession) : bool :=
  bool_decide (acc_schema_id current = acc_schema_id prior) &&
  bool_decide (acc_decision_id current = acc_decision_id prior) &&
  bool_decide (acc_request_id current = acc_request_id prior) &&
  bool_decide (acc_session_id current = acc_session_id prior) &&
  bool_decide (acc_session_authority_revision current = acc_session_authority_revision prior) &&
  (acc_product_descriptor_canonical_sha256 current =? acc_product_descriptor_canonical_sha256 prior)%string &&
  bool_decide (acc_provider_epoch_id current = acc_provider_epoch_id prior) &&
  bool_decide (acc_platform_runtime_spec_id current = acc_platform_runtime_spec_id prior) &&
  bool_decide (acc_product_id current = acc_product_id prior) &&
  bool_decide (acc_feature_lock_id current = acc_feature_lock_id prior) &&
  (acc_feature_lock_fingerprint current =? acc_feature_lock_fingerprint prior)%string &&
  bool_decide (acc_capability_id current = acc_capability_id prior) &&
  bool_decide (acc_admission_grant_id current = acc_admission_grant_id prior) &&
  bool_decide (acc_runtime_authority_host_id current = acc_runtime_authority_host_id prior) &&
  bool_decide (acc_runtime_command_request_id current = acc_runtime_command_request_id prior) &&
  bool_decide (acc_runtime_command_id current = acc_runtime_command_id prior) &&
  bool_decide (acc_runtime_client_id current = acc_runtime_client_id prior) &&
  bool_decide (acc_runtime_lease_id current = acc_runtime_lease_id prior) &&
  bool_decide (acc_runtime_params_digest current = acc_runtime_params_digest prior) &&
  bool_decide (acc_runtime_dispatch_id current = acc_runtime_dispatch_id prior) &&
  bool_decide (acc_runtime_application_receipt_id current = acc_runtime_application_receipt_id prior) &&
  bool_decide (acc_runtime_resulting_authority_revision current = acc_runtime_resulting_authority_revision prior) &&
  (acc_accepted_at_ms current =? acc_accepted_at_ms prior) &&
  (acc_expires_at_ms current =? acc_expires_at_ms prior) &&
  bool_decide (acc_product_binding current = acc_product_binding prior).

(** The comparison of descriptor and runtime specification. *)
Definition acceptance_exact (binding : MediaStreamRuntimeProductBinding) (accepted : AcceptedSession)
    (live_provider_epoch_id : string) : bool :=
  let descriptor := mpb_descriptor (acc_product_binding accepted) in
  let spec := bnd_spec binding in
  (as_str (acc_schema_id accepted) =? MANIFOLD_ACCEPTED_MEDIA_SESSION_SCHEMA)%string &&
  negb (is_blank (as_str (acc_decision_id accepted))) &&
  bool_decide (acc_session_id accepted = dsc_session_id descriptor) &&
  (as_str (acc_session_id accepted) =? pl_session_id (rsp_plan spec))%string &&
  bool_decide (acc_session_authority_revision accepted = dsc_authority_revision descriptor) &&
  (rev_get (acc_session_authority_revision accepted) =? rsp_manifold_session_revision spec) &&
  (acc_product_descriptor_canonical_sha256 accepted =?
     mpb_descriptor_canonical_sha256 (acc_product_binding accepted))%string &&
  bool_decide (acc_platform_runtime_spec_id accepted = dsc_platform_runtime_spec_id descriptor) &&
  (as_str (acc_platform_runtime_spec_id accepted) =? rsp_runtime_spec_id spec)%string &&
  (as_str (acc_provider_epoch_id accepted) =? live_provider_epoch_id)%string &&
  negb (is_blank (as_str (acc_runtime_client_id accepted))) &&
  negb (is_blank (as_str (acc_runtime_lease_id accepted))) &&
  bool_decide (as_str <$> dsc_source_ids descriptor = src_source_id <$> pl_sources (rsp_plan spec)) &&
  bool_decide (as_str <$> dsc_processor_ids descriptor = prc_processor_id <$> rsp_processors spec) &&
  bool_decide (as_str <$> dsc_route_ids descriptor = rt_lane_id <$> pl_transport_routes (rsp_plan spec)) &&
  bool_decide (as_str <$> dsc_sink_ids descriptor = snk_sink_id <$> rsp_sinks spec) &&
  bool_decide (as_str <$> dsc_stream_ids descriptor =
    (fun lane => med_track_id (lane_media lane)) <$> pl_lanes (rsp_plan spec)).

(** Still current as of [now_ms]. *)
Definition acceptance_live (current : CurrentReceipt) (accepted : AcceptedSession) (now_ms : N) : bool :=
  cur_current current && bool_decide (cur_rejection_reason current = None) &&
  bool_decide (acc_lifecycle_status accepted = status_current) && (now_ms <? acc_expires_at_ms accepted).

(** Not replaced since [prior] was observed. *)
Definition acceptance_succeeds (current prior : CurrentReceipt) (accepted : AcceptedSession)
    : result MediaStreamProductRuntimeError unit :=
  prior_session ← ok_or (cur_session prior) AcceptedSessionSuperseded;
  fail_if (rev_ltb (cur_acceptance_state_authority_revision current) (cur_acceptance_state_authority_revision prior) ||
           negb (bool_decide (cur_decision_id current = cur_decision_id prior)) ||
           negb (same_accepted_subject accepted prior_session)) AcceptedSessionSuperseded.

Definition validate_current_acceptance (binding : MediaStreamRuntimeProductBinding) (current : CurrentReceipt)
    (live_provider_epoch_id : string) (now_ms : N) (require_current : bool) (prior : option CurrentReceipt)
    : result MediaStreamProductRuntimeError unit :=
  fail_if (negb (as_str (cur_schema_id current) =? MANIFOLD_MEDIA_SESSION_CURRENT_RECEIPT_SCHEMA)%string ||
           (rev_get (cur_acceptance_state_authority_revision current) =? 0) ||
           negb (cur_validated_at_ms current =? now_ms)) AcceptedSessionNotCurrent ;;
  accepted ← ok_or (cur_session current) AcceptedSessionNotCurrent;
  fail_if (negb (bool_decide (cur_decision_id current = acc_decision_id accepted)) ||
           negb (as_str (acc_provider_epoch_id accepted) =? live_provider_epoch_id)%string ||
           (now_ms <? acc_accepted_at_ms accepted)) AcceptedSessionNotCurrent ;;
  fail_if (require_current && negb (acceptance_live current accepted now_ms)) AcceptedSessionNotCurrent ;;
  match prior with
  | None => Ok tt
  | Some prior => acceptance_succeeds current prior accepted
  end ;;
  fail_if (negb (mpb_validate (acc_product_binding accepted))) AcceptedSessionMismatch ;;
  validate_sha256 (acc_product_descriptor_canonical_sha256 accepted) ;;
  fail_if (negb (acceptance_exact binding accepted live_provider_epoch_id)) AcceptedSessionMismatch.
End Functions.
