(* ===== verification/ProductSnapshot.v ===== *)
(** * Product runtime: recovery snapshots

    [validate_product_recovery_snapshot] and its helpers in
    crates/rusty-quest-media-stream/src/product_runtime.rs. *)

From S2P Require Import Prelude RustStr OrdMap MediaModel MediaRuntime MediaLifecycle MediaComposition CleanupTicket OwnerEffect ProductBinding ProductModel ProductActions.

Local Open Scope N_scope.

(** [windows(2).all(|pair| pair[0] < pair[1])]. *)
Fixpoint increasing {A : Type} (cmp : A → A → comparison) (l : list A) : bool :=
  match l with
  | a :: (b :: _) as rest => match cmp a b with Lt => true | _ => false end && increasing cmp rest
  | _ => true
  end.

Definition strict_unique_ids (ids : list string) : bool :=
  forallb (fun id => negb (is_blank id)) ids && increasing String.compare ids.

(** [binary_search(id).is_ok()] on the strictly increasing lists that reach it. *)
Definition binary_search (ids : list string) (id : string) : bool := existsb (String.eqb id) ids.

Section Snapshot.
Context {MM : ManifoldMedia} {SE : SnapshotEncoding}.
Abbreviation error := MediaStreamProductRuntimeError.
Abbreviation snapshot_type := MediaStreamSessionProductRecoverySnapshot.

(** The evidence retained with a Stop after a trusted Revoke. *)
Definition recovery_evidence_invalid (accepted : AcceptedSession) (operation : MediaStreamPlatformOperation)
    (evidence : MediaStreamTrustedRevokerCleanupEvidence) : bool :=
  negb (bool_decide (operation = OpStop)) ||
  negb (mut_applied (tre_termination evidence)) ||
  negb (bool_decide (mut_source_id (tre_termination evidence) = trq_request_id (tre_request evidence))) ||
  negb (bool_decide (trq_decision_id (tre_request evidence) = acc_decision_id accepted)) ||
  negb (trq_is_revoke (tre_request evidence)) ||
  negb (bool_decide (acc_lifecycle_status accepted = status_revoked)) ||
  negb (bool_decide (acc_ended_by_id accepted = Some (trq_request_id (tre_request evidence)))).

(** The client authority of an action is that of the accepted session. *)
Definition recovery_client_mismatch (accepted : AcceptedSession) (client : MediaStreamClientAuthorityBinding) : bool :=
  (negb (ca_client_id client =? as_str (acc_runtime_client_id accepted)) ||
   negb (ca_lease_id client =? as_str (acc_runtime_lease_id accepted)) ||
   negb (ca_product_id client =? as_str (acc_product_id accepted)) ||
   negb (ca_feature_lock_id client =? as_str (acc_feature_lock_id accepted)) ||
   negb (ca_feature_lock_fingerprint client =? acc_feature_lock_fingerprint accepted) ||
   negb (ca_session_capability_id client =? as_str (acc_capability_id accepted)) ||
   negb (ca_session_admission_grant_id client =? as_str (acc_admission_grant_id accepted)) ||
   negb (ca_operation_admission_grant_id client =? as_str (acc_admission_grant_id accepted)))%string ||
  is_blank (ca_operation_admission_use_request_id client).

Definition validate_recovery_action (binding : MediaStreamRuntimeProductBinding) (accepted : AcceptedSession)
    (snapshot : snapshot_type) (action : MediaStreamPlatformAction) : result error unit :=
  fail_if
    (negb (pa_schema_id action =? MEDIA_STREAM_PLATFORM_ACTION_SCHEMA)%string ||
     is_blank (pa_action_id action) ||
     negb (pa_authority_epoch_id action =? rsn_provider_epoch_id snapshot)%string ||
     negb (pa_runtime_spec_id action =? rsp_runtime_spec_id (bnd_spec binding))%string ||
     negb (pa_runtime_spec_canonical_sha256 action =? bnd_runtime_spec_canonical_sha256 binding)%string ||
     negb (pa_manifold_descriptor_canonical_sha256 action =? acc_product_descriptor_canonical_sha256 accepted)%string ||
     negb (pa_manifold_decision_id action =? as_str (acc_decision_id accepted))%string ||
     negb (pa_manifold_session_revision action =? rev_get (acc_session_authority_revision accepted)) ||
     (pa_media_acceptance_authority_revision action =? 0) ||
     (rev_get (cur_acceptance_state_authority_revision (rsn_accepted_subject snapshot)) <?
        pa_media_acceptance_authority_revision action) ||
     recovery_client_mismatch accepted (pa_client_authority action) ||
     (bool_decide (pa_trusted_revoker_cleanup action = None) &&
      negb (ca_operation_capability_id (pa_client_authority action) =?
              operation_capability (pa_operation action))%string) ||
     match pa_trusted_revoker_cleanup action with
     | Some evidence => recovery_evidence_invalid accepted (pa_operation action) evidence
     | None => false
     end ||
     negb (bool_decide (pa_owner_actions action =
       ordered_owner_actions (rsp_owner_selections (bnd_spec binding)) (pa_operation action))))
    RecoverySnapshotInvalid.

(** A rollback receipt keeps the handle at a newer revision. *)
Definition not_reversed (receipt started : MediaStreamOwnerCompletionReceipt) : bool :=
  negb (ocr_provider_handle_id receipt =? ocr_provider_handle_id started)%string ||
  (ocr_provider_state_revision receipt <=? ocr_provider_state_revision started).

(** [skip(..).zip(..rev()).any(..)]. *)
Definition rollback_unpaired (uncertain : option MediaStreamOwnerAction)
    (rollback started : list MediaStreamOwnerCompletionReceipt) : bool :=
  existsb (fun '(receipt, start) => not_reversed receipt start)
    (combine (drop (length (option_list uncertain)) rollback) (rev started)).

Definition validate_completed_start_abort (binding : MediaStreamRuntimeProductBinding) (accepted : AcceptedSession)
    (snapshot : snapshot_type) (record : MediaStreamCompletedStartAbort) : result error unit :=
  let original := csa_original_action record in
  validate_recovery_action binding accepted snapshot original ;;
  let expected := partial_start_abort_action original (csa_started_receipts record) (csa_uncertain_owner record) in
  fail_if
    (negb (csa_schema_id record =? COMPLETED_START_ABORT_SCHEMA)%string ||
     negb (bool_decide (pa_operation original = OpStart)) ||
     bool_decide (is_Some (pa_trusted_revoker_cleanup original)) ||
     negb (pa_expected_runtime_revision original =? 1) ||
     negb (existsb (String.eqb (pa_action_id original)) (rsn_aborted_action_ids snapshot)) ||
     bool_decide (is_Some (rsn_active_start_action snapshot)) ||
     negb (valid_recovery_receipt_prefix original (csa_started_receipts record)) ||
     match csa_uncertain_owner record with
     | Some owner => negb (bool_decide (pa_owner_actions original !! length (csa_started_receipts record) = Some owner))
     | None => false
     end ||
     negb (bool_decide (csa_rollback_action record = expected)) ||
     negb (len (csa_rollback_receipts record) =? len (pa_owner_actions expected)) ||
     negb (valid_recovery_receipt_prefix expected (csa_rollback_receipts record)) ||
     rollback_unpaired (csa_uncertain_owner record) (csa_rollback_receipts record) (csa_started_receipts record))
    RecoverySnapshotInvalid ;;
  let lifecycle := rsn_lifecycle snapshot in
  if bool_decide (mrs_phase lifecycle = Stopped) then
    fail_if
      (negb (mrs_runtime_revision lifecycle =? 2) ||
       match mrs_applied_request_ids lifecycle, rsn_applied_action_ids snapshot with
       | [request], [action] => negb (request =? action ++ ".cleanup")%string
       | _, _ => true
       end ||
       bool_decide (is_Some (rsn_pending_action snapshot))) RecoverySnapshotInvalid
  else
    fail_if
      (negb (bool_decide (mrs_phase lifecycle = Planned)) ||
       negb (mrs_runtime_revision lifecycle =? 1) ||
       negb (bool_decide (mrs_applied_request_ids lifecycle = [])) ||
       negb (bool_decide (rsn_applied_action_ids snapshot = [])) ||
       match rsn_pending_action snapshot with
       | Some action => negb (bool_decide (pa_operation action = OpStop)) ||
                        bool_decide (pa_trusted_revoker_cleanup action = None)
       | None => false
       end) RecoverySnapshotInvalid.

(** The first block of tests. *)
Definition snapshot_shape_invalid (binding : MediaStreamRuntimeProductBinding) (snapshot : snapshot_type)
    (bytes : list N) : bool :=
  let owners := len (rsp_owner_selections (bnd_spec binding)) in
  let lifecycle := rsn_lifecycle snapshot in
  (MAX_MEDIA_STREAM_PRODUCT_RECOVERY_BYTES <? len bytes) ||
  negb ((rsn_schema_id snapshot =? MEDIA_STREAM_PRODUCT_RECOVERY_SCHEMA)%string ||
        (rsn_schema_id snapshot =? MEDIA_STREAM_PRODUCT_ABORT_RECOVERY_SCHEMA)%string) ||
  negb (Bool.eqb (rsn_schema_id snapshot =? MEDIA_STREAM_PRODUCT_ABORT_RECOVERY_SCHEMA)%string
          (bool_decide (is_Some (rsn_completed_start_abort snapshot)))) ||
  negb (bool_decide (rsn_binding snapshot = binding)) ||
  is_blank (rsn_provider_epoch_id snapshot) ||
  negb (mrs_schema lifecycle =? MEDIA_STREAM_RUNTIME_STATE_SCHEMA)%string ||
  negb (mrs_runtime_spec_id lifecycle =? rsp_runtime_spec_id (bnd_spec binding))%string ||
  (mrs_runtime_revision lifecycle =? 0) ||
  negb (strict_unique_ids (rsn_applied_action_ids snapshot)) ||
  negb (strict_unique_ids (rsn_aborted_action_ids snapshot)) ||
  existsb (binary_search (rsn_aborted_action_ids snapshot)) (rsn_applied_action_ids snapshot) ||
  (owners <? len (rsn_active_provider_handles snapshot)) ||
  (owners <? len (rsn_pending_owner_receipts snapshot)) ||
  (owners + 1 <? len (rsn_pending_abort_receipts snapshot)).

Definition receipt_handle (receipt : MediaStreamOwnerCompletionReceipt) : MediaStreamOwnerSelection * (string * N) :=
  (ocr_selection receipt, (ocr_provider_handle_id receipt, ocr_provider_state_revision receipt)).

Definition handle_entry (handle : MediaStreamRecoveryProviderHandle) : MediaStreamOwnerSelection * (string * N) :=
  (rph_selection handle, (rph_provider_handle_id handle, rph_provider_state_revision handle)).

(** The active Start, or its absence. *)
Definition validate_active_start (binding : MediaStreamRuntimeProductBinding) (accepted : AcceptedSession)
    (snapshot : snapshot_type) : result error unit :=
  let lifecycle := rsn_lifecycle snapshot in
  match rsn_active_start_action snapshot with
  | Some action =>
      validate_recovery_action binding accepted snapshot action ;;
      fail_if
        (negb (bool_decide (pa_operation action = OpStart)) ||
         negb (pa_expected_runtime_revision action =? 1) ||
         negb (bool_decide (rsn_applied_action_ids snapshot = [pa_action_id action])) ||
         negb (is_ok (validate_owner_completions action (rsn_active_start_receipts snapshot))) ||
         negb (bool_decide (rsn_active_client_authority snapshot = Some (pa_client_authority action))) ||
         negb (bool_decide (mrs_phase lifecycle = SourcesStarted) || bool_decide (mrs_phase lifecycle = Streaming)))
        RecoverySnapshotInvalid ;;
      let expected := om_collect compare_selection (receipt_handle <$> rsn_active_start_receipts snapshot) in
      let actual := om_collect compare_selection (handle_entry <$> rsn_active_provider_handles snapshot) in
      fail_if
        (negb (bool_decide (expected = actual)) ||
         negb (len actual =? len (rsn_active_provider_handles snapshot)) ||
         negb (increasing compare_selection (rph_selection <$> rsn_active_provider_handles snapshot)))
        RecoverySnapshotInvalid ;;
      fail_if
        (negb (bool_decide (take 2 (mrs_applied_request_ids lifecycle) =
           [pa_action_id action ++ ".arm_receivers"; pa_action_id action ++ ".start_sources"]%string)) ||
         negb (mrs_runtime_revision lifecycle =? if bool_decide (mrs_phase lifecycle = Streaming) then 4 else 3) ||
         negb (len (mrs_applied_request_ids lifecycle) =? mrs_runtime_revision lifecycle - 1))
        RecoverySnapshotInvalid
  | None =>
      fail_if
        (negb (bool_decide (rsn_active_start_receipts snapshot = [])) ||
         negb (bool_decide (length (rsn_active_provider_handles snapshot) = 0%nat)) ||
         bool_decide (is_Some (rsn_active_client_authority snapshot)) ||
         (negb (bool_decide (is_Some (rsn_completed_start_abort snapshot))) &&
          (negb (bool_decide (rsn_applied_action_ids snapshot = [])) ||
           negb (bool_decide (mrs_phase lifecycle = Planned)) ||
           negb (mrs_runtime_revision lifecycle =? 1) ||
           negb (bool_decide (mrs_applied_request_ids lifecycle = [])))))
        RecoverySnapshotInvalid
  end.

(** One verified rollback receipt against the completion that it reverses. *)
Definition abort_receipt_invalid (uncertain : option MediaStreamOwnerAction)
    (started : list MediaStreamOwnerCompletionReceipt) (index : nat) (receipt : MediaStreamOwnerCompletionReceipt)
    : bool :=
  let uncertain_offset := length (option_list uncertain) in
  if (index <? uncertain_offset)%nat then false
  else match rev started !! (index - uncertain_offset)%nat with
  | None => true
  | Some start => not_reversed receipt start
  end.

(** One verified Stop receipt against the handle that it stops. *)
Definition stop_receipt_invalid (snapshot : snapshot_type) (receipt : MediaStreamOwnerCompletionReceipt) : bool :=
  match rsn_completed_start_abort snapshot with
  | Some record =>
      match List.find (fun rollback => bool_decide (ocr_selection rollback = ocr_selection receipt))
              (csa_rollback_receipts record) with
      | Some rollback =>
          negb (ocr_provider_handle_id rollback =? ocr_provider_handle_id receipt)%string ||
          (ocr_provider_state_revision receipt <=? ocr_provider_state_revision rollback)
      | None => false
      end
  | None =>
      match List.find (fun handle => bool_decide (rph_selection handle = ocr_selection receipt))
              (rsn_active_provider_handles snapshot) with
      | None => true
      | Some handle =>
          negb (ocr_provider_handle_id receipt =? rph_provider_handle_id handle)%string ||
          (ocr_provider_state_revision receipt <=? rph_provider_state_revision handle)
      end
  end.

Definition validate_pending_start (snapshot : snapshot_type) (action : MediaStreamPlatformAction)
    : result error unit :=
  fail_if (bool_decide (is_Some (rsn_active_start_action snapshot)) ||
           negb (bool_decide (mrs_phase (rsn_lifecycle snapshot) = Planned))) RecoverySnapshotInvalid ;;
  let abort := partial_start_abort_action action (rsn_pending_owner_receipts snapshot)
                 (rsn_pending_uncertain_owner snapshot) in
  fail_if
    ((negb (rsn_abort_in_progress snapshot) && negb (bool_decide (rsn_pending_abort_receipts snapshot = []))) ||
     match rsn_pending_abort_uncertain_owner snapshot with
     | Some owner =>
         negb (rsn_abort_in_progress snapshot) ||
         negb (bool_decide (pa_owner_actions abort !! length (rsn_pending_abort_receipts snapshot) = Some owner))
     | None => false
     end ||
     negb (valid_recovery_receipt_prefix abort (rsn_pending_abort_receipts snapshot)) ||
     existsb id (imap (abort_receipt_invalid (rsn_pending_uncertain_owner snapshot)
       (rsn_pending_owner_receipts snapshot)) (rsn_pending_abort_receipts snapshot)))
    RecoverySnapshotInvalid.

Definition validate_pending_stop (snapshot : snapshot_type) (action : MediaStreamPlatformAction)
    : result error unit :=
  start ← ok_or match rsn_active_start_action snapshot with
                | Some action => Some action
                | None => csa_original_action <$> rsn_completed_start_abort snapshot
                end RecoverySnapshotInvalid;
  fail_if
    (negb (same_session_holder (pa_client_authority start) (pa_client_authority action)) ||
     rsn_abort_in_progress snapshot ||
     negb (bool_decide (rsn_pending_abort_receipts snapshot = [])) ||
     bool_decide (is_Some (rsn_pending_abort_uncertain_owner snapshot)) ||
     existsb (stop_receipt_invalid snapshot) (rsn_pending_owner_receipts snapshot))
    RecoverySnapshotInvalid.

(** The pending action, or its absence. *)
Definition validate_pending (binding : MediaStreamRuntimeProductBinding) (accepted : AcceptedSession)
    (snapshot : snapshot_type) : result error unit :=
  match rsn_pending_action snapshot with
  | None =>
      fail_if
        (negb (bool_decide (rsn_pending_owner_receipts snapshot = [])) ||
         bool_decide (is_Some (rsn_pending_uncertain_owner snapshot)) ||
         negb (bool_decide (rsn_pending_abort_receipts snapshot = [])) ||
         bool_decide (is_Some (rsn_pending_abort_uncertain_owner snapshot)) ||
         rsn_abort_in_progress snapshot) RecoverySnapshotInvalid
  | Some action =>
      validate_recovery_action binding accepted snapshot action ;;
      fail_if
        (binary_search (rsn_applied_action_ids snapshot) (pa_action_id action) ||
         binary_search (rsn_aborted_action_ids snapshot) (pa_action_id action) ||
         negb (pa_expected_runtime_revision action =? mrs_runtime_revision (rsn_lifecycle snapshot)) ||
         negb (valid_recovery_receipt_prefix action (rsn_pending_owner_receipts snapshot)) ||
         match rsn_pending_uncertain_owner snapshot with
         | Some owner =>
             negb (bool_decide (pa_owner_actions action !! length (rsn_pending_owner_receipts snapshot) = Some owner))
         | None => false
         end) RecoverySnapshotInvalid ;;
      match pa_operation action with
      | OpStart => validate_pending_start snapshot action
      | OpStop => validate_pending_stop snapshot action
      end
  end.

(** [any(|receipt| !receipt_ids.insert(receipt.receipt_id))]. *)
Fixpoint repeated_receipt (receipt_ids : gset string) (receipts : list MediaStreamOwnerCompletionReceipt) : bool :=
  match receipts with
  | [] => false
  | receipt :: rest =>
      bool_decide (ocr_receipt_id receipt ∈ receipt_ids) ||
      repeated_receipt ({[ocr_receipt_id receipt]} ∪ receipt_ids) rest
  end.

Definition validate_product_recovery_snapshot (binding : MediaStreamRuntimeProductBinding) (snapshot : snapshot_type)
    : result error unit :=
  bytes ← ok_or (snapshot_to_vec snapshot) Encode;
  fail_if (snapshot_shape_invalid binding snapshot bytes) RecoverySnapshotInvalid ;;
  accepted ← ok_or (cur_session (rsn_accepted_subject snapshot)) RecoverySnapshotInvalid;
  map_err (fun _ => RecoverySnapshotInvalid)
    (validate_current_acceptance binding (rsn_accepted_subject snapshot) (rsn_provider_epoch_id snapshot)
       (cur_validated_at_ms (rsn_accepted_subject snapshot)) false None) ;;
  match rsn_completed_start_abort snapshot with
  | Some record => validate_completed_start_abort binding accepted snapshot record
  | None => Ok tt
  end ;;
  validate_active_start binding accepted snapshot ;;
  fail_if (negb (strict_unique_ids (mrs_applied_request_ids (rsn_lifecycle snapshot)))) RecoverySnapshotInvalid ;;
  validate_pending binding accepted snapshot ;;
  fail_if (repeated_receipt ∅ (rsn_active_start_receipts snapshot ++ rsn_pending_owner_receipts snapshot ++
             rsn_pending_abort_receipts snapshot)) RecoverySnapshotInvalid.
End Snapshot.
