(* ===== verification/ProductRuntime.v ===== *)
(** * Product runtime: the adoption authority

    [MediaStreamSessionProductRuntime] of
    crates/rusty-quest-media-stream/src/product_runtime.rs. A method on
    [&mut self] is a [state_result]; a method that calls a provider is split at
    that call, since the process can die there. Every call sees the host and the
    Broker anew as a [HostEnv], so that the authority source keeps only whether it
    has a Broker and the decision it asks for. Constructors for tests are left
    out. *)

From S2P Require Import Prelude RustStr OrdMap StateResult UpdateAdmission MediaModel MediaRuntime MediaLifecycle CleanupTicket OwnerEffect ProductBinding ProductModel ProductActions ProductSnapshot WireFrame.

Local Open Scope N_scope.
Local Open Scope quest_scope.

Section ProductRuntime.
Context {RC : ReleaseCrypto} {SpE : SpecEncoding} {MM : ManifoldMedia} {SE : SnapshotEncoding}.
Context {J : Type} {RJ : MediaStreamRecoveryJournal J}.
Abbreviation error := MediaStreamProductRuntimeError.

(** [MediaStreamAuthoritySource::Live]. *)
Record MediaStreamAuthoritySource := mkLive {
  live_broker : bool;
  live_decision_id : ManifoldId;
}.

Record MediaStreamSessionProductRuntime := mkProductRuntime {
  mpr_binding : MediaStreamRuntimeProductBinding;
  mpr_current_acceptance : CurrentReceipt;
  mpr_authority : MediaStreamAuthoritySource;
  mpr_authority_epoch_id : string;
  mpr_runtime : MediaStreamSessionRuntime;
  mpr_pending_action : option MediaStreamPlatformAction;
  mpr_pending_owner_receipts : list MediaStreamOwnerCompletionReceipt;
  mpr_pending_uncertain_owner : option MediaStreamOwnerAction;
  mpr_pending_abort_receipts : list MediaStreamOwnerCompletionReceipt;
  mpr_pending_abort_uncertain_owner : option MediaStreamOwnerAction;
  mpr_abort_in_progress : bool;
  mpr_active_provider_handles : list (MediaStreamOwnerSelection * (string * N));
  mpr_active_start_receipts : list MediaStreamOwnerCompletionReceipt;
  mpr_active_start_action : option MediaStreamPlatformAction;
  mpr_active_client_authority : option MediaStreamClientAuthorityBinding;
  mpr_applied_action_ids : list (string * unit);
  mpr_aborted_action_ids : list (string * unit);
  mpr_completed_start_abort : option MediaStreamCompletedStartAbort;
  mpr_cleanup_only_after_restore : bool;
  mpr_recovery_receipts_revalidated : bool;
  mpr_recovery_journal : option J;
  mpr_recovery_journal_poisoned : bool;
}.
Abbreviation product := MediaStreamSessionProductRuntime.

(** Assignments to single fields. *)

Definition set_current_acceptance (v : CurrentReceipt) (s : product) : product :=
  mkProductRuntime (mpr_binding s) v (mpr_authority s) (mpr_authority_epoch_id s) (mpr_runtime s)
    (mpr_pending_action s) (mpr_pending_owner_receipts s) (mpr_pending_uncertain_owner s)
    (mpr_pending_abort_receipts s) (mpr_pending_abort_uncertain_owner s) (mpr_abort_in_progress s)
    (mpr_active_provider_handles s) (mpr_active_start_receipts s) (mpr_active_start_action s)
    (mpr_active_client_authority s) (mpr_applied_action_ids s) (mpr_aborted_action_ids s)
    (mpr_completed_start_abort s) (mpr_cleanup_only_after_restore s) (mpr_recovery_receipts_revalidated s)
    (mpr_recovery_journal s) (mpr_recovery_journal_poisoned s).

Definition set_runtime (v : MediaStreamSessionRuntime) (s : product) : product :=
  mkProductRuntime (mpr_binding s) (mpr_current_acceptance s) (mpr_authority s) (mpr_authority_epoch_id s) v
    (mpr_pending_action s) (mpr_pending_owner_receipts s) (mpr_pending_uncertain_owner s)
    (mpr_pending_abort_receipts s) (mpr_pending_abort_uncertain_owner s) (mpr_abort_in_progress s)
    (mpr_active_provider_handles s) (mpr_active_start_receipts s) (mpr_active_start_action s)
    (mpr_active_client_authority s) (mpr_applied_action_ids s) (mpr_aborted_action_ids s)
    (mpr_completed_start_abort s) (mpr_cleanup_only_after_restore s) (mpr_recovery_receipts_revalidated s)
    (mpr_recovery_journal s) (mpr_recovery_journal_poisoned s).

Definition set_pending_action (v : option MediaStreamPlatformAction) (s : product) : product :=
  mkProductRuntime (mpr_binding s) (mpr_current_acceptance s) (mpr_authority s) (mpr_authority_epoch_id s)
    (mpr_runtime s) v (mpr_pending_owner_receipts s) (mpr_pending_uncertain_owner s) (mpr_pending_abort_receipts s)
    (mpr_pending_abort_uncertain_owner s) (mpr_abort_in_progress s) (mpr_active_provider_handles s)
    (mpr_active_start_receipts s) (mpr_active_start_action s) (mpr_active_client_authority s)
    (mpr_applied_action_ids s) (mpr_aborted_action_ids s) (mpr_completed_start_abort s)
    (mpr_cleanup_only_after_restore s) (mpr_recovery_receipts_revalidated s) (mpr_recovery_journal s)
    (mpr_recovery_journal_poisoned s).

Definition set_pending_owner_receipts (v : list MediaStreamOwnerCompletionReceipt) (s : product) : product :=
  mkProductRuntime (mpr_binding s) (mpr_current_acceptance s) (mpr_authority s) (mpr_authority_epoch_id s)
    (mpr_runtime s) (mpr_pending_action s) v (mpr_pending_uncertain_owner s) (mpr_pending_abort_receipts s)
    (mpr_pending_abort_uncertain_owner s) (mpr_abort_in_progress s) (mpr_active_provider_handles s)
    (mpr_active_start_receipts s) (mpr_active_start_action s) (mpr_active_client_authority s)
    (mpr_applied_action_ids s) (mpr_aborted_action_ids s) (mpr_completed_start_abort s)
    (mpr_cleanup_only_after_restore s) (mpr_recovery_receipts_revalidated s) (mpr_recovery_journal s)
    (mpr_recovery_journal_poisoned s).

Definition set_pending_uncertain_owner (v : option MediaStreamOwnerAction) (s : product) : product :=
  mkProductRuntime (mpr_binding s) (mpr_current_acceptance s) (mpr_authority s) (mpr_authority_epoch_id s)
    (mpr_runtime s) (mpr_pending_action s) (mpr_pending_owner_receipts s) v (mpr_pending_abort_receipts s)
    (mpr_pending_abort_uncertain_owner s) (mpr_abort_in_progress s) (mpr_active_provider_handles s)
    (mpr_active_start_receipts s) (mpr_active_start_action s) (mpr_active_client_authority s)
    (mpr_applied_action_ids s) (mpr_aborted_action_ids s) (mpr_completed_start_abort s)
    (mpr_cleanup_only_after_restore s) (mpr_recovery_receipts_revalidated s) (mpr_recovery_journal s)
    (mpr_recovery_journal_poisoned s).

Definition set_pending_abort_receipts (v : list MediaStreamOwnerCompletionReceipt) (s : product) : product :=
  mkProductRuntime (mpr_binding s) (mpr_current_acceptance s) (mpr_authority s) (mpr_authority_epoch_id s)
    (mpr_runtime s) (mpr_pending_action s) (mpr_pending_owner_receipts s) (mpr_pending_uncertain_owner s) v
    (mpr_pending_abort_uncertain_owner s) (mpr_abort_in_progress s) (mpr_active_provider_handles s)
    (mpr_active_start_receipts s) (mpr_active_start_action s) (mpr_active_client_authority s)
    (mpr_applied_action_ids s) (mpr_aborted_action_ids s) (mpr_completed_start_abort s)
    (mpr_cleanup_only_after_restore s) (mpr_recovery_receipts_revalidated s) (mpr_recovery_journal s)
    (mpr_recovery_journal_poisoned s).

Definition set_pending_abort_uncertain_owner (v : option MediaStreamOwnerAction) (s : product) : product :=
  mkProductRuntime (mpr_binding s) (mpr_current_acceptance s) (mpr_authority s) (mpr_authority_epoch_id s)
    (mpr_runtime s) (mpr_pending_action s) (mpr_pending_owner_receipts s) (mpr_pending_uncertain_owner s)
    (mpr_pending_abort_receipts s) v (mpr_abort_in_progress s) (mpr_active_provider_handles s)
    (mpr_active_start_receipts s) (mpr_active_start_action s) (mpr_active_client_authority s)
    (mpr_applied_action_ids s) (mpr_aborted_action_ids s) (mpr_completed_start_abort s)
    (mpr_cleanup_only_after_restore s) (mpr_recovery_receipts_revalidated s) (mpr_recovery_journal s)
    (mpr_recovery_journal_poisoned s).

Definition set_abort_in_progress (v : bool) (s : product) : product :=
  mkProductRuntime (mpr_binding s) (mpr_current_acceptance s) (mpr_authority s) (mpr_authority_epoch_id s)
    (mpr_runtime s) (mpr_pending_action s) (mpr_pending_owner_receipts s) (mpr_pending_uncertain_owner s)
    (mpr_pending_abort_receipts s) (mpr_pending_abort_uncertain_owner s) v (mpr_active_provider_handles s)
    (mpr_active_start_receipts s) (mpr_active_start_action s) (mpr_active_client_authority s)
    (mpr_applied_action_ids s) (mpr_aborted_action_ids s) (mpr_completed_start_abort s)
    (mpr_cleanup_only_after_restore s) (mpr_recovery_receipts_revalidated s) (mpr_recovery_journal s)
    (mpr_recovery_journal_poisoned s).

Definition set_active_provider_handles (v : list (MediaStreamOwnerSelection * (string * N))) (s : product) : product :=
  mkProductRuntime (mpr_binding s) (mpr_current_acceptance s) (mpr_authority s) (mpr_authority_epoch_id s)
    (mpr_runtime s) (mpr_pending_action s) (mpr_pending_owner_receipts s) (mpr_pending_uncertain_owner s)
    (mpr_pending_abort_receipts s) (mpr_pending_abort_uncertain_owner s) (mpr_abort_in_progress s) v
    (mpr_active_start_receipts s) (mpr_active_start_action s) (mpr_active_client_authority s)
    (mpr_applied_action_ids s) (mpr_aborted_action_ids s) (mpr_completed_start_abort s)
    (mpr_cleanup_only_after_restore s) (mpr_recovery_receipts_revalidated s) (mpr_recovery_journal s)
    (mpr_recovery_journal_poisoned s).

Definition set_active_start_receipts (v : list MediaStreamOwnerCompletionReceipt) (s : product) : product :=
  mkProductRuntime (mpr_binding s) (mpr_current_acceptance s) (mpr_authority s) (mpr_authority_epoch_id s)
    (mpr_runtime s) (mpr_pending_action s) (mpr_pending_owner_receipts s) (mpr_pending_uncertain_owner s)
    (mpr_pending_abort_receipts s) (mpr_pending_abort_uncertain_owner s) (mpr_abort_in_progress s)
    (mpr_active_provider_handles s) v (mpr_active_start_action s) (mpr_active_client_authority s)
    (mpr_applied_action_ids s) (mpr_aborted_action_ids s) (mpr_completed_start_abort s)
    (mpr_cleanup_only_after_restore s) (mpr_recovery_receipts_revalidated s) (mpr_recovery_journal s)
    (mpr_recovery_journal_poisoned s).

Definition set_active_start_action (v : option MediaStreamPlatformAction) (s : product) : product :=
  mkProductRuntime (mpr_binding s) (mpr_current_acceptance s) (mpr_authority s) (mpr_authority_epoch_id s)
    (mpr_runtime s) (mpr_pending_action s) (mpr_pending_owner_receipts s) (mpr_pending_uncertain_owner s)
    (mpr_pending_abort_receipts s) (mpr_pending_abort_uncertain_owner s) (mpr_abort_in_progress s)
    (mpr_active_provider_handles s) (mpr_active_start_receipts s) v (mpr_active_client_authority s)
    (mpr_applied_action_ids s) (mpr_aborted_action_ids s) (mpr_completed_start_abort s)
    (mpr_cleanup_only_after_restore s) (mpr_recovery_receipts_revalidated s) (mpr_recovery_journal s)
    (mpr_recovery_journal_poisoned s).

Definition set_active_client_authority (v : option MediaStreamClientAuthorityBinding) (s : product) : product :=
  mkProductRuntime (mpr_binding s) (mpr_current_acceptance s) (mpr_authority s) (mpr_authority_epoch_id s)
    (mpr_runtime s) (mpr_pending_action s) (mpr_pending_owner_receipts s) (mpr_pending_uncertain_owner s)
    (mpr_pending_abort_receipts s) (mpr_pending_abort_uncertain_owner s) (mpr_abort_in_progress s)
    (mpr_active_provider_handles s) (mpr_active_start_receipts s) (mpr_active_start_action s) v
    (mpr_applied_action_ids s) (mpr_aborted_action_ids s) (mpr_completed_start_abort s)
    (mpr_cleanup_only_after_restore s) (mpr_recovery_receipts_revalidated s) (mpr_recovery_journal s)
    (mpr_recovery_journal_poisoned s).

Definition set_applied_action_ids (v : list (string * unit)) (s : product) : product :=
  mkProductRuntime (mpr_binding s) (mpr_current_acceptance s) (mpr_authority s) (mpr_authority_epoch_id s)
    (mpr_runtime s) (mpr_pending_action s) (mpr_pending_owner_receipts s) (mpr_pending_uncertain_owner s)
    (mpr_pending_abort_receipts s) (mpr_pending_abort_uncertain_owner s) (mpr_abort_in_progress s)
    (mpr_active_provider_handles s) (mpr_active_start_receipts s) (mpr_active_start_action s)
    (mpr_active_client_authority s) v (mpr_aborted_action_ids s) (mpr_completed_start_abort s)
    (mpr_cleanup_only_after_restore s) (mpr_recovery_receipts_revalidated s) (mpr_recovery_journal s)
    (mpr_recovery_journal_poisoned s).

Definition set_aborted_action_ids (v : list (string * unit)) (s : product) : product :=
  mkProductRuntime (mpr_binding s) (mpr_current_acceptance s) (mpr_authority s) (mpr_authority_epoch_id s)
    (mpr_runtime s) (mpr_pending_action s) (mpr_pending_owner_receipts s) (mpr_pending_uncertain_owner s)
    (mpr_pending_abort_receipts s) (mpr_pending_abort_uncertain_owner s) (mpr_abort_in_progress s)
    (mpr_active_provider_handles s) (mpr_active_start_receipts s) (mpr_active_start_action s)
    (mpr_active_client_authority s) (mpr_applied_action_ids s) v (mpr_completed_start_abort s)
    (mpr_cleanup_only_after_restore s) (mpr_recovery_receipts_revalidated s) (mpr_recovery_journal s)
    (mpr_recovery_journal_poisoned s).

Definition set_completed_start_abort (v : option MediaStreamCompletedStartAbort) (s : product) : product :=
  mkProductRuntime (mpr_binding s) (mpr_current_acceptance s) (mpr_authority s) (mpr_authority_epoch_id s)
    (mpr_runtime s) (mpr_pending_action s) (mpr_pending_owner_receipts s) (mpr_pending_uncertain_owner s)
    (mpr_pending_abort_receipts s) (mpr_pending_abort_uncertain_owner s) (mpr_abort_in_progress s)
    (mpr_active_provider_handles s) (mpr_active_start_receipts s) (mpr_active_start_action s)
    (mpr_active_client_authority s) (mpr_applied_action_ids s) (mpr_aborted_action_ids s) v
    (mpr_cleanup_only_after_restore s) (mpr_recovery_receipts_revalidated s) (mpr_recovery_journal s)
    (mpr_recovery_journal_poisoned s).

Definition set_recovery_receipts_revalidated (v : bool) (s : product) : product :=
  mkProductRuntime (mpr_binding s) (mpr_current_acceptance s) (mpr_authority s) (mpr_authority_epoch_id s)
    (mpr_runtime s) (mpr_pending_action s) (mpr_pending_owner_receipts s) (mpr_pending_uncertain_owner s)
    (mpr_pending_abort_receipts s) (mpr_pending_abort_uncertain_owner s) (mpr_abort_in_progress s)
    (mpr_active_provider_handles s) (mpr_active_start_receipts s) (mpr_active_start_action s)
    (mpr_active_client_authority s) (mpr_applied_action_ids s) (mpr_aborted_action_ids s)
    (mpr_completed_start_abort s) (mpr_cleanup_only_after_restore s) v (mpr_recovery_journal s)
    (mpr_recovery_journal_poisoned s).

Definition set_recovery_journal (v : option J) (s : product) : product :=
  mkProductRuntime (mpr_binding s) (mpr_current_acceptance s) (mpr_authority s) (mpr_authority_epoch_id s)
    (mpr_runtime s) (mpr_pending_action s) (mpr_pending_owner_receipts s) (mpr_pending_uncertain_owner s)
    (mpr_pending_abort_receipts s) (mpr_pending_abort_uncertain_owner s) (mpr_abort_in_progress s)
    (mpr_active_provider_handles s) (mpr_active_start_receipts s) (mpr_active_start_action s)
    (mpr_active_client_authority s) (mpr_applied_action_ids s) (mpr_aborted_action_ids s)
    (mpr_completed_start_abort s) (mpr_cleanup_only_after_restore s) (mpr_recovery_receipts_revalidated s) v
    (mpr_recovery_journal_poisoned s).

Definition set_recovery_journal_poisoned (v : bool) (s : product) : product :=
  mkProductRuntime (mpr_binding s) (mpr_current_acceptance s) (mpr_authority s) (mpr_authority_epoch_id s)
    (mpr_runtime s) (mpr_pending_action s) (mpr_pending_owner_receipts s) (mpr_pending_uncertain_owner s)
    (mpr_pending_abort_receipts s) (mpr_pending_abort_uncertain_owner s) (mpr_abort_in_progress s)
    (mpr_active_provider_handles s) (mpr_active_start_receipts s) (mpr_active_start_action s)
    (mpr_active_client_authority s) (mpr_applied_action_ids s) (mpr_aborted_action_ids s)
    (mpr_completed_start_abort s) (mpr_cleanup_only_after_restore s) (mpr_recovery_receipts_revalidated s)
    (mpr_recovery_journal s) v.


Abbreviation method := (state_result product error).

(** ** The recovery journal *)

(** The struct literal of [recovery_snapshot]. *)
Definition snapshot_of (s : product) : MediaStreamSessionProductRecoverySnapshot :=
  mkRecoverySnapshot
    (if bool_decide (is_Some (mpr_completed_start_abort s)) then MEDIA_STREAM_PRODUCT_ABORT_RECOVERY_SCHEMA
     else MEDIA_STREAM_PRODUCT_RECOVERY_SCHEMA)
    (mpr_binding s) (mpr_current_acceptance s) (mpr_authority_epoch_id s) (msr_state (mpr_runtime s))
    (mpr_pending_action s) (mpr_pending_owner_receipts s) (mpr_pending_uncertain_owner s)
    (mpr_pending_abort_receipts s) (mpr_pending_abort_uncertain_owner s) (mpr_abort_in_progress s)
    ((fun '(selection, (handle, revision)) => mkRecoveryHandle selection handle revision)
       <$> mpr_active_provider_handles s)
    (mpr_active_start_receipts s) (mpr_active_start_action s) (mpr_active_client_authority s)
    (mpr_applied_action_ids s).*1 (mpr_aborted_action_ids s).*1 (mpr_completed_start_abort s).

Definition recovery_snapshot (s : product) : result error MediaStreamSessionProductRecoverySnapshot :=
  bytes ← ok_or (snapshot_to_vec (snapshot_of s)) Encode;
  fail_if (MAX_MEDIA_STREAM_PRODUCT_RECOVERY_BYTES <? len bytes) RecoverySnapshotInvalid ;;
  Ok (snapshot_of s).

(** The journal is shared with the caller, who keeps it when it is refused. *)
Definition install_recovery_journal (journal : J) (s : product) : product * J * result error unit :=
  if mpr_recovery_journal_poisoned s || bool_decide (is_Some (mpr_recovery_journal s))
  then (s, journal, Err RecoveryJournalUnavailable)
  else match recovery_snapshot s with
  | Err e => (s, journal, Err e)
  | Ok snapshot =>
      let '(journal, committed) := journal_commit journal snapshot in
      match committed with
      | Err _ => (set_recovery_journal_poisoned true s, journal, Err RecoveryJournalUnavailable)
      | Ok _ => (set_recovery_journal (Some journal) s, journal, Ok tt)
      end
  end.

Definition commit_recovery_journal : method unit := fun s =>
  if mpr_recovery_journal_poisoned s then (s, Err RecoveryJournalUnavailable)
  else match mpr_recovery_journal s with
  | None => (s, fail_if (mpr_cleanup_only_after_restore s) RecoveryJournalUnavailable)
  | Some journal =>
      match recovery_snapshot s with
      | Err e => (s, Err e)
      | Ok snapshot =>
          let '(journal, committed) := journal_commit journal snapshot in
          let s := set_recovery_journal (Some journal) s in
          match committed with
          | Err _ => (set_recovery_journal_poisoned true s, Err RecoveryJournalUnavailable)
          | Ok _ => (s, Ok tt)
          end
      end
  end.

Definition decode_recovery_snapshot_json (json : string)
    : result error MediaStreamSessionProductRecoverySnapshot :=
  fail_if (MAX_MEDIA_STREAM_PRODUCT_RECOVERY_BYTES <? str_len json) RecoverySnapshotInvalid ;;
  ok_or (snapshot_from_str json) RecoverySnapshotInvalid.

(** ** Construction *)

(** What the host answers, through the Broker where there is one. *)
Definition query_session (source : MediaStreamAuthoritySource) (env : HostEnv) (now_ms : N)
    : result error CurrentReceipt :=
  if live_broker source then
    fail_if (negb (he_broker_readable env)) AuthorityProviderUnavailable ;;
    ok_or (he_validate_media_session_with_live_broker_runtime env (live_decision_id source) now_ms)
      AcceptedSessionNotCurrent
  else Ok (he_validate_media_session env (live_decision_id source) now_ms).

(** [new] has no Broker, [new_with_live_broker_runtime] has one. *)
Definition product_new (source : MediaStreamAuthoritySource) (binding : MediaStreamRuntimeProductBinding)
    (env : HostEnv) (now_ms : N) : result error product :=
  binding_validate binding ;;
  fail_if (negb (he_readable env)) AuthorityProviderUnavailable ;;
  current ← query_session source env now_ms;
  let epoch := as_str (he_provider_epoch_id env) in
  validate_current_acceptance binding current epoch now_ms true None ;;
  runtime ← map_err RuntimeSpecInvalid (runtime_new (bnd_spec binding));
  Ok (mkProductRuntime binding current source epoch runtime None [] None [] None false [] [] None None [] [] None
        false false None false).

Definition restore_from_checked_snapshot (binding : MediaStreamRuntimeProductBinding)
    (snapshot : MediaStreamSessionProductRecoverySnapshot) (current : CurrentReceipt)
    (authority : MediaStreamAuthoritySource) : result error product :=
  fail_if (bool_decide (is_Some (rsn_completed_start_abort snapshot)) &&
           bool_decide (mrs_phase (rsn_lifecycle snapshot) = Stopped)) RecoverySnapshotInvalid ;;
  runtime ← map_err (fun _ => RecoverySnapshotInvalid)
    (restore_cleanup_state (bnd_spec binding) (rsn_lifecycle snapshot));
  let abort_in_progress :=
    rsn_abort_in_progress snapshot ||
    match rsn_pending_action snapshot with
    | Some action => bool_decide (pa_operation action = OpStart)
    | None => false
    end in
  Ok (mkProductRuntime binding current authority (rsn_provider_epoch_id snapshot) runtime
        (rsn_pending_action snapshot) (rsn_pending_owner_receipts snapshot) (rsn_pending_uncertain_owner snapshot)
        (rsn_pending_abort_receipts snapshot) (rsn_pending_abort_uncertain_owner snapshot) abort_in_progress
        (om_collect compare_selection (handle_entry <$> rsn_active_provider_handles snapshot))
        (rsn_active_start_receipts snapshot) (rsn_active_start_action snapshot) (rsn_active_client_authority snapshot)
        (om_collect String.compare ((fun id => (id, tt)) <$> rsn_applied_action_ids snapshot))
        (om_collect String.compare ((fun id => (id, tt)) <$> rsn_aborted_action_ids snapshot))
        (rsn_completed_start_abort snapshot) true false None false).

Definition restore_cleanup_only_with_live_broker_runtime (binding : MediaStreamRuntimeProductBinding) (env : HostEnv)
    (decision_id : ManifoldId) (snapshot : MediaStreamSessionProductRecoverySnapshot) (now_ms : N)
    : result error product :=
  binding_validate binding ;;
  validate_product_recovery_snapshot binding snapshot ;;
  fail_if (negb (he_readable env)) AuthorityProviderUnavailable ;;
  fail_if (negb (he_broker_readable env)) AuthorityProviderUnavailable ;;
  fail_if (negb (as_str (he_provider_epoch_id env) =? rsn_provider_epoch_id snapshot)%string)
    AcceptedProviderEpochMismatch ;;
  fail_if (negb (he_validate_owned_state_with_live_broker env)) AcceptedSessionNotCurrent ;;
  current ← ok_or (he_validate_media_session_with_live_broker_runtime env decision_id now_ms)
    AcceptedSessionNotCurrent;
  validate_current_acceptance binding current (rsn_provider_epoch_id snapshot) now_ms false
    (Some (rsn_accepted_subject snapshot)) ;;
  restore_from_checked_snapshot binding snapshot current (mkLive true decision_id).

(** ** Observations *)

(** [abort_in_progress] keeps the pending action, so that the [expect] of the
    source cannot fail. *)
Definition pending_abort_action (s : product) : option MediaStreamPlatformAction :=
  if mpr_abort_in_progress s then
    (fun action => partial_start_abort_action action (mpr_pending_owner_receipts s) (mpr_pending_uncertain_owner s))
      <$> mpr_pending_action s
  else None.

Definition has_retained_start_abort (s : product) : bool :=
  mpr_abort_in_progress s || bool_decide (is_Some (mpr_completed_start_abort s)).

Definition pending_abort_completed_count (s : product) : option nat :=
  if mpr_abort_in_progress s then Some (length (mpr_pending_abort_receipts s)) else None.

Definition pending_stop_progress (s : product) : option MediaStreamPendingStopProgress :=
  action ← mpr_pending_action s;
  if bool_decide (pa_operation action = OpStop)
  then Some (mkStopProgress (mpr_pending_owner_receipts s) (mpr_pending_uncertain_owner s)) else None.

Definition recovery_cleanup_cursor (s : product) : option MediaStreamRecoveryCleanupCursor :=
  if negb (mpr_cleanup_only_after_restore s) then None
  else
    action ← mpr_pending_action s;
    if bool_decide (pa_operation action = OpStop) then
      let sequence := length (mpr_pending_owner_receipts s) in
      owner ← pa_owner_actions action !! sequence;
      Some (mkCleanupCursor (pa_action_id action) (pa_authority_epoch_id action) (pa_client_authority action) owner
              (sequence_number (N.of_nat sequence)) false (bool_decide (is_Some (mpr_pending_uncertain_owner s))))
    else
      abort ← pending_abort_action s;
      let sequence := length (mpr_pending_abort_receipts s) in
      owner ← pa_owner_actions abort !! sequence;
      Some (mkCleanupCursor (pa_action_id action) (pa_authority_epoch_id action) (pa_client_authority action) owner
              (sequence_number (N.of_nat sequence)) true
              (bool_decide (is_Some (mpr_pending_abort_uncertain_owner s)) ||
               (bool_decide (is_Some (mpr_pending_uncertain_owner s)) && bool_decide (sequence = 0%nat)))).

(** [is_none_or(|action| receipts.all(..))]. *)
Definition retained_valid (verifier : MediaStreamRecoveryReceiptVerifier) (action : option MediaStreamPlatformAction)
    (receipts : list MediaStreamOwnerCompletionReceipt) : bool :=
  match action with Some action => forallb (verifier action) receipts | None => true end.

Definition revalidate_recovered_receipts (verifier : MediaStreamRecoveryReceiptVerifier) : method unit :=
  reject_if (fun s => negb (mpr_cleanup_only_after_restore s) || mpr_recovery_journal_poisoned s)
    RecoverySnapshotInvalid ;;
  modify (set_recovery_receipts_revalidated false) ;;
  reject_if (fun s =>
    negb (retained_valid verifier (mpr_active_start_action s) (mpr_active_start_receipts s)) ||
    negb (retained_valid verifier (mpr_pending_action s) (mpr_pending_owner_receipts s)) ||
    negb (retained_valid verifier (pending_abort_action s) (mpr_pending_abort_receipts s)) ||
    match mpr_completed_start_abort s with
    | Some record =>
        negb (forallb (verifier (csa_original_action record)) (csa_started_receipts record) &&
              forallb (verifier (csa_rollback_action record)) (csa_rollback_receipts record))
    | None => false
    end) RecoveryReceiptsUnverified ;;
  modify (set_recovery_receipts_revalidated true).

(** ** Authority *)

Definition refresh_authority (env : HostEnv) (now_ms : N) (require_current : bool) : method unit :=
  reject_if (fun _ => negb (he_readable env)) AuthorityProviderUnavailable ;;
  reject_if (fun s => negb (as_str (he_provider_epoch_id env) =? mpr_authority_epoch_id s)%string)
    AcceptedProviderEpochMismatch ;;
  current ← asks (fun s => query_session (mpr_authority s) env now_ms);
  asks (fun s => validate_current_acceptance (mpr_binding s) current (mpr_authority_epoch_id s) now_ms require_current
                   (Some (mpr_current_acceptance s))) ;;
  modify (set_current_acceptance current).

(** ** Preparing an action *)

Definition client_authority_missing (client : MediaStreamClientAuthorityBinding) : bool :=
  is_blank (ca_client_id client) || is_blank (ca_lease_id client) || is_blank (ca_product_id client) ||
  is_blank (ca_feature_lock_id client) || negb (is_ok (validate_sha256 (ca_feature_lock_fingerprint client))) ||
  is_blank (ca_session_capability_id client) || is_blank (ca_session_admission_grant_id client) ||
  is_blank (ca_operation_admission_grant_id client) || is_blank (ca_operation_admission_use_request_id client).

Definition client_authority_differs (accepted : AcceptedSession) (client : MediaStreamClientAuthorityBinding)
    (operation : MediaStreamPlatformOperation) : bool :=
  (negb (as_str (acc_runtime_client_id accepted) =? ca_client_id client) ||
   negb (as_str (acc_runtime_lease_id accepted) =? ca_lease_id client) ||
   negb (as_str (acc_product_id accepted) =? ca_product_id client) ||
   negb (as_str (acc_feature_lock_id accepted) =? ca_feature_lock_id client) ||
   negb (acc_feature_lock_fingerprint accepted =? ca_feature_lock_fingerprint client) ||
   negb (as_str (acc_capability_id accepted) =? ca_session_capability_id client) ||
   negb (as_str (acc_admission_grant_id accepted) =? ca_session_admission_grant_id client) ||
   negb (as_str (acc_admission_grant_id accepted) =? ca_operation_admission_grant_id client) ||
   negb (ca_operation_capability_id client =? operation_capability operation))%string.

(** The [match] on phase and operation. *)
Definition review_phase (operation : MediaStreamPlatformOperation) (client : MediaStreamClientAuthorityBinding)
    (s : product) : result error unit :=
  match mrs_phase (msr_state (mpr_runtime s)), operation with
  | Planned, OpStart => Ok tt
  | Stopped, _ => Err TerminalRuntime
  | _, OpStart => Err InvalidOperationPhase
  | _, OpStop =>
      match mpr_active_client_authority s with
      | Some active => fail_if (negb (same_session_holder active client)) ClientAuthorityMismatch
      | None => Err ClientAuthorityMismatch
      end
  end.

Definition ids_contain (ids : list (string * unit)) (id : string) : bool :=
  bool_decide (is_Some (om_get String.compare id ids)).

Definition review_prepare (env : HostEnv) (action_id : string) (operation : MediaStreamPlatformOperation)
    (client_authority : MediaStreamClientAuthorityBinding) (now_ms : N) : method unit :=
  reject_if mpr_recovery_journal_poisoned RecoveryJournalUnavailable ;;
  reject_if mpr_cleanup_only_after_restore
    match operation with OpStart => RecoveryStartForbidden | OpStop => RecoveryRequiresTargetedStop end ;;
  refresh_authority env now_ms (bool_decide (operation = OpStart)) ;;
  reject_if (fun _ => is_blank action_id) MissingActionId ;;
  reject_if (fun s => ids_contain (mpr_applied_action_ids s) action_id ||
                      ids_contain (mpr_aborted_action_ids s) action_id) ReplayedAction ;;
  reject_if (fun s => bool_decide (is_Some (mpr_pending_action s))) PendingActionExists ;;
  reject_if (fun s => bool_decide (is_Some (mpr_completed_start_abort s))) RecoveryRequiresTargetedStop ;;
  reject_if (fun _ => client_authority_missing client_authority) MissingClientAuthority ;;
  accepted ← asks (fun s => ok_or (cur_session (mpr_current_acceptance s)) AcceptedSessionMismatch);
  reject_if (fun _ => client_authority_differs accepted client_authority operation) ClientAuthorityMismatch ;;
  asks (review_phase operation client_authority).

(** The action that [s] authorizes under the accepted session. *)
Definition make_action (action_id : string) (operation : MediaStreamPlatformOperation)
    (client_authority : MediaStreamClientAuthorityBinding)
    (evidence : option MediaStreamTrustedRevokerCleanupEvidence) (accepted : AcceptedSession) (s : product)
    : MediaStreamPlatformAction :=
  mkPlatformAction MEDIA_STREAM_PLATFORM_ACTION_SCHEMA action_id (mpr_authority_epoch_id s) operation client_authority
    evidence (rsp_runtime_spec_id (bnd_spec (mpr_binding s))) (bnd_runtime_spec_canonical_sha256 (mpr_binding s))
    (acc_product_descriptor_canonical_sha256 accepted) (as_str (acc_decision_id accepted))
    (rev_get (acc_session_authority_revision accepted))
    (rev_get (cur_acceptance_state_authority_revision (mpr_current_acceptance s)))
    (mrs_runtime_revision (msr_state (mpr_runtime s)))
    (ordered_owner_actions (rsp_owner_selections (bnd_spec (mpr_binding s))) operation).

Definition prepare (env : HostEnv) (action_id : string) (operation : MediaStreamPlatformOperation)
    (client_authority : MediaStreamClientAuthorityBinding) (now_ms : N) : method MediaStreamPlatformAction :=
  review_prepare env action_id operation client_authority now_ms ;;
  accepted ← asks (fun s => ok_or (cur_session (mpr_current_acceptance s)) AcceptedSessionMismatch);
  action ← gets (make_action action_id operation client_authority None accepted);
  modify (fun s => s |> set_pending_owner_receipts [] |> set_pending_uncertain_owner None
                     |> set_pending_abort_receipts [] |> set_pending_abort_uncertain_owner None
                     |> set_abort_in_progress false |> set_pending_action (Some action)) ;;
  commit_recovery_journal ;;
  mret action.

(** The candidate has the new host and shares the journal: when it fails, [self]
    keeps its fields, but what was written stays written. *)
Definition prepare_with_live_authority (env : HostEnv) (action_id : string) (operation : MediaStreamPlatformOperation)
    (client_authority : MediaStreamClientAuthorityBinding) (now_ms : N) : method MediaStreamPlatformAction := fun s =>
  match prepare env action_id operation client_authority now_ms s with
  | (candidate, Ok action) => (candidate, Ok action)
  | (candidate, Err e) =>
      let s := set_recovery_journal (mpr_recovery_journal candidate) s in
      (if mpr_recovery_journal_poisoned candidate then set_recovery_journal_poisoned true s else s, Err e)
  end.

(** ** Owner completions *)

(** The fields of a readback that repeat the action and the owner. *)
Definition readback_mismatch (action : MediaStreamPlatformAction) (expected : MediaStreamOwnerAction)
    (readback : MediaStreamOwnerProviderReadback) : bool :=
  negb (prb_action_id readback =? pa_action_id action)%string ||
  negb (prb_authority_epoch_id readback =? pa_authority_epoch_id action)%string ||
  negb (prb_media_acceptance_authority_revision readback =? pa_media_acceptance_authority_revision action) ||
  negb (prb_client_id readback =? ca_client_id (pa_client_authority action))%string ||
  negb (prb_lease_id readback =? ca_lease_id (pa_client_authority action))%string ||
  negb (prb_provider_kind readback =? own_provider_kind (oa_selection expected))%string ||
  negb (prb_resource_id readback =? own_resource_id (oa_selection expected))%string ||
  is_blank (prb_provider_handle_id readback) ||
  (prb_provider_state_revision readback =? 0) ||
  negb (prb_observed_state readback =? expected_provider_state (oa_action_kind expected))%string ||
  is_blank (prb_receipt_id readback).

Definition completion_receipt (expected : MediaStreamOwnerAction) (readback : MediaStreamOwnerProviderReadback)
    (sequence : nat) : result error MediaStreamOwnerCompletionReceipt :=
  completion_sequence ← ok_or (u32_try_from (N.of_nat sequence + 1)) OwnerReadbackMismatch;
  Ok (mkCompletion (oa_selection expected) (oa_action_kind expected) (prb_receipt_id readback) completion_sequence
        (prb_provider_handle_id readback) (prb_provider_state_revision readback) (prb_observed_state readback)).

(** The handle of a Stop is the one of the completed Start or rollback, newer. *)
Definition handle_lifecycle_mismatch (action : MediaStreamPlatformAction) (expected : MediaStreamOwnerAction)
    (readback : MediaStreamOwnerProviderReadback) (s : product) : bool :=
  match pa_operation action with
  | OpStart => bool_decide (is_Some (om_get compare_selection (oa_selection expected) (mpr_active_provider_handles s)))
  | OpStop =>
      match mpr_completed_start_abort s with
      | Some record =>
          bool_decide (pa_trusted_revoker_cleanup action = None) ||
          negb (same_session_holder (pa_client_authority (csa_original_action record)) (pa_client_authority action)) ||
          match List.find (fun receipt => bool_decide (ocr_selection receipt = oa_selection expected))
                  (csa_rollback_receipts record) with
          | Some receipt =>
              negb (ocr_provider_handle_id receipt =? prb_provider_handle_id readback)%string ||
              (prb_provider_state_revision readback <=? ocr_provider_state_revision receipt)
          | None => false
          end
      | None =>
          match om_get compare_selection (oa_selection expected) (mpr_active_provider_handles s) with
          | None => true
          | Some (active_handle, active_revision) =>
              negb (active_handle =? prb_provider_handle_id readback)%string ||
              (prb_provider_state_revision readback <=? active_revision)
          end
      end
  end.

(** [verified] is [provider.verify_readback] on this readback. *)
Definition record_owner_readback (action : MediaStreamPlatformAction) (expected : MediaStreamOwnerAction)
    (verified : bool) (readback : MediaStreamOwnerProviderReadback) (sequence : nat)
    : method MediaStreamOwnerCompletionReceipt :=
  reject_if (fun s => readback_mismatch action expected readback || negb verified ||
    existsb (fun receipt => (ocr_receipt_id receipt =? prb_receipt_id readback)%string ||
                            (ocr_provider_handle_id receipt =? prb_provider_handle_id readback)%string)
      (mpr_pending_owner_receipts s)) OwnerReadbackMismatch ;;
  reject_if (handle_lifecycle_mismatch action expected readback) OwnerHandleLifecycleMismatch ;;
  receipt ← lift (completion_receipt expected readback sequence);
  modify (fun s => s |> set_pending_owner_receipts (mpr_pending_owner_receipts s ++ [receipt])
                     |> set_pending_uncertain_owner None) ;;
  commit_recovery_journal ;;
  mret receipt.

Definition pending_is (operation : MediaStreamPlatformOperation) (s : product) : bool :=
  match mpr_pending_action s with
  | Some action => bool_decide (pa_operation action = operation)
  | None => false
  end.

(** [complete_owner] up to the call, with the marker committed. *)
Definition begin_owner (env : HostEnv) (owner_kind provider_kind : MediaStreamOwnerKind) (now_ms : N)
    : method (MediaStreamPlatformAction * MediaStreamOwnerAction * nat) :=
  reject_if mpr_abort_in_progress AbortInProgress ;;
  reject_if (fun s => bool_decide (is_Some (mpr_pending_uncertain_owner s))) UncertainOwnerAttemptPending ;;
  require_current ← gets (pending_is OpStart);
  refresh_authority env now_ms require_current ;;
  action ← asks (fun s => ok_or (mpr_pending_action s) NoPendingAction);
  sequence ← gets (fun s => length (mpr_pending_owner_receipts s));
  expected ← lift (ok_or (pa_owner_actions action !! sequence) OwnerCallbackOrderMismatch);
  reject_if (fun _ => negb (bool_decide (own_owner_kind (oa_selection expected) = owner_kind)))
    OwnerCallbackOrderMismatch ;;
  reject_if (fun _ => negb (bool_decide (provider_kind = owner_kind))) OwnerProviderMismatch ;;
  modify (set_pending_uncertain_owner (Some expected)) ;;
  commit_recovery_journal ;;
  mret (action, expected, sequence).

(** [complete_uncertain_stop_owner] up to the call. *)
Definition begin_uncertain_stop (env : HostEnv) (provider_kind : MediaStreamOwnerKind) (now_ms : N)
    : method (MediaStreamPlatformAction * MediaStreamOwnerAction * nat) :=
  reject_if mpr_abort_in_progress AbortInProgress ;;
  action ← asks (fun s => ok_or (mpr_pending_action s ≫= fun action =>
    if bool_decide (pa_operation action = OpStop) then Some action else None) InvalidOperationPhase);
  expected ← asks (fun s => ok_or (mpr_pending_uncertain_owner s) NoUncertainOwnerAttempt);
  sequence ← gets (fun s => length (mpr_pending_owner_receipts s));
  reject_if (fun _ => negb (bool_decide (pa_owner_actions action !! sequence = Some expected)))
    OwnerCallbackOrderMismatch ;;
  reject_if (fun _ => negb (bool_decide (provider_kind = own_owner_kind (oa_selection expected))))
    OwnerProviderMismatch ;;
  refresh_authority env now_ms false ;;
  commit_recovery_journal ;;
  mret (action, expected, sequence).

(** ** Rolling a partial Start back *)

Definition begin_partial_start_abort : method MediaStreamPlatformAction :=
  action ← asks (fun s => ok_or (mpr_pending_action s) NoPendingAction);
  reject_if (fun _ => negb (bool_decide (pa_operation action = OpStart))) AbortRequiresPendingStart ;;
  reject_if mpr_abort_in_progress AbortInProgress ;;
  modify (fun s => s |> set_abort_in_progress true |> set_pending_abort_receipts []
                     |> set_pending_abort_uncertain_owner None) ;;
  commit_recovery_journal ;;
  gets (fun s => partial_start_abort_action action (mpr_pending_owner_receipts s) (mpr_pending_uncertain_owner s)).

(** The completion that the next rollback call reverses; none for the uncertain
    attempt. *)
Definition started_for (sequence : nat) (s : product) : result error (option MediaStreamOwnerCompletionReceipt) :=
  let uncertain_offset := length (option_list (mpr_pending_uncertain_owner s)) in
  let completed_sequence := (sequence - uncertain_offset)%nat in
  if (sequence <? uncertain_offset)%nat then Ok None
  else if (length (mpr_pending_owner_receipts s) <? completed_sequence + 1)%nat then Err AbortCallbacksIncomplete
  else Ok (mpr_pending_owner_receipts s !! (length (mpr_pending_owner_receipts s) - (completed_sequence + 1))%nat).

Definition AbortCall : Type :=
  MediaStreamPlatformAction * MediaStreamOwnerAction * nat * option MediaStreamOwnerCompletionReceipt * bool.

(** [complete_next_abort_owner] up to the call: whether the owner is executed or
    compensated is in the result. *)
Definition begin_abort_owner (provider_kind : MediaStreamOwnerKind) : method AbortCall :=
  reject_if (fun s => negb (mpr_abort_in_progress s)) AbortRequiresPendingStart ;;
  sequence ← gets (fun s => length (mpr_pending_abort_receipts s));
  started ← asks (started_for sequence);
  action ← asks (fun s => ok_or (pending_abort_action s) NoPendingAction);
  expected ← lift (ok_or (pa_owner_actions action !! sequence) AbortCallbacksIncomplete);
  reject_if (fun _ => negb (bool_decide (provider_kind = own_owner_kind (oa_selection expected))) ||
    match started with
    | Some started => negb (bool_decide (oa_selection expected = ocr_selection started))
    | None => false
    end) OwnerProviderMismatch ;;
  reject_if (fun s => match mpr_pending_abort_uncertain_owner s with
                      | Some owner => negb (bool_decide (owner = expected))
                      | None => false
                      end) OwnerCallbackOrderMismatch ;;
  retrying_uncertain ← gets (fun s => bool_decide (is_Some (mpr_pending_abort_uncertain_owner s)));
  modify (fun s : product => if (retrying_uncertain : bool) then s else set_pending_abort_uncertain_owner (Some expected) s) ;;
  commit_recovery_journal ;;
  mret (action, expected, sequence, started, retrying_uncertain).

Definition record_abort_readback (call : AbortCall) (verified : bool) (readback : MediaStreamOwnerProviderReadback)
    : method MediaStreamOwnerCompletionReceipt :=
  let '(action, expected, sequence, started, _) := call in
  reject_if (fun s => readback_mismatch action expected readback ||
    match started with
    | Some started => negb (prb_provider_handle_id readback =? ocr_provider_handle_id started)%string ||
                      (prb_provider_state_revision readback <=? ocr_provider_state_revision started)
    | None => false
    end ||
    negb verified ||
    existsb (fun receipt => (ocr_receipt_id receipt =? prb_receipt_id readback)%string ||
                            bool_decide (ocr_selection receipt = oa_selection expected))
      (mpr_pending_abort_receipts s)) OwnerReadbackMismatch ;;
  receipt ← lift (completion_receipt expected readback sequence);
  modify (fun s => s |> set_pending_abort_receipts (mpr_pending_abort_receipts s ++ [receipt])
                     |> set_pending_abort_uncertain_owner None) ;;
  commit_recovery_journal ;;
  mret receipt.

Definition finalize_partial_start_abort : method MediaStreamPlatformAbortReceipt :=
  reject_if (fun s => mpr_cleanup_only_after_restore s && negb (mpr_recovery_receipts_revalidated s))
    RecoveryReceiptsUnverified ;;
  reject_if (fun s => negb (mpr_abort_in_progress s)) AbortRequiresPendingStart ;;
  reject_if (fun s => bool_decide (is_Some (mpr_pending_abort_uncertain_owner s))) UncertainOwnerAttemptPending ;;
  uncertain_attempt_count ← gets (fun s => length (option_list (mpr_pending_uncertain_owner s)));
  reject_if (fun s => negb (bool_decide (length (mpr_pending_abort_receipts s) =
    (length (mpr_pending_owner_receipts s) + uncertain_attempt_count)%nat))) AbortCallbacksIncomplete ;;
  action ← asks (fun s => ok_or (mpr_pending_action s) NoPendingAction);
  rollback_receipts ← gets mpr_pending_abort_receipts;
  modify (fun s => s
    |> set_completed_start_abort (Some (mkCompletedStartAbort COMPLETED_START_ABORT_SCHEMA action
         (mpr_pending_owner_receipts s) (mpr_pending_uncertain_owner s)
         (partial_start_abort_action action (mpr_pending_owner_receipts s) (mpr_pending_uncertain_owner s))
         rollback_receipts))
    |> set_aborted_action_ids (om_insert String.compare (pa_action_id action) tt (mpr_aborted_action_ids s))
    |> set_pending_action None |> set_pending_owner_receipts [] |> set_pending_uncertain_owner None
    |> set_pending_abort_receipts [] |> set_pending_abort_uncertain_owner None |> set_abort_in_progress false) ;;
  commit_recovery_journal ;;
  gets (fun s => mkAbortReceipt MEDIA_STREAM_PLATFORM_ABORT_SCHEMA (pa_action_id action)
    (pa_action_id action ++ ".abort")%string (pa_authority_epoch_id action) (pa_client_authority action) rollback_receipts
    (N.of_nat uncertain_attempt_count) true false (mrs_phase (msr_state (mpr_runtime s)))
    (mrs_runtime_revision (msr_state (mpr_runtime s)))).

(** ** Applying a completed action *)

(** [self.runtime.execute(..)], which has to apply the request. *)
Definition execute_lifecycle (request : MediaStreamRuntimeRequest) : method MediaStreamRuntimeDecision := fun s =>
  let '(runtime, decision) := runtime_execute (mpr_runtime s) request in
  (set_runtime runtime s, fail_if (negb (mrd_accepted decision && mrd_applied decision)) LifecycleRejected ;;
                          Ok decision).

Definition lifecycle_request (action : MediaStreamPlatformAction) (suffix : string) (expected_runtime_revision : N)
    (runtime_action : MediaStreamRuntimeAction) (evidence : MediaStreamRuntimeEvidence) : MediaStreamRuntimeRequest :=
  mkRuntimeRequest (pa_action_id action ++ suffix)%string expected_runtime_revision runtime_action evidence.

(** The lifecycle steps of an operation. *)
Definition advance_lifecycle (action : MediaStreamPlatformAction) : method (list MediaStreamRuntimeDecision) :=
  let revision := pa_expected_runtime_revision action in
  match pa_operation action with
  | OpStart =>
      arm ← execute_lifecycle (lifecycle_request action ".arm_receivers" revision ArmReceivers
                                 (mkEvidence true false 0 false));
      start ← execute_lifecycle (lifecycle_request action ".start_sources" (revision + 1) StartSources
                                   (mkEvidence false true 0 false));
      mret [arm; start]
  | OpStop =>
      stop ← execute_lifecycle (lifecycle_request action ".cleanup" revision Stop (mkEvidence false false 0 true));
      mret [stop]
  end.

(** The assignments after the lifecycle has advanced. *)
Definition adopt_completions (action : MediaStreamPlatformAction) (s : product) : product :=
  let s := set_applied_action_ids (om_insert String.compare (pa_action_id action) tt (mpr_applied_action_ids s)) s in
  let s :=
    match pa_operation action with
    | OpStart => s
        |> set_active_start_action (Some action)
        |> set_active_start_receipts (mpr_pending_owner_receipts s)
        |> set_active_provider_handles
             (fold_left (fun handles receipt =>
                om_insert compare_selection (ocr_selection receipt)
                  (ocr_provider_handle_id receipt, ocr_provider_state_revision receipt) handles)
                (mpr_pending_owner_receipts s) (mpr_active_provider_handles s))
        |> set_active_client_authority (Some (pa_client_authority action))
    | OpStop => s
        |> set_active_provider_handles [] |> set_active_start_receipts []
        |> set_active_start_action None |> set_active_client_authority None
    end in
  s |> set_pending_action None |> set_pending_owner_receipts [].

Definition apply_recorded_owner_completions (env : HostEnv) (now_ms : N)
    : method MediaStreamPlatformApplicationReceipt :=
  reject_if (fun s => mpr_cleanup_only_after_restore s && pending_is OpStart s) RecoveryStartForbidden ;;
  reject_if (fun s => mpr_cleanup_only_after_restore s && negb (mpr_recovery_receipts_revalidated s))
    RecoveryReceiptsUnverified ;;
  reject_if mpr_abort_in_progress AbortInProgress ;;
  require_current ← gets (pending_is OpStart);
  refresh_authority env now_ms require_current ;;
  action ← asks (fun s => ok_or (mpr_pending_action s) NoPendingAction);
  reject_if (fun s => negb (bool_decide (length (mpr_pending_owner_receipts s) = length (pa_owner_actions action))))
    OwnerCallbacksIncomplete ;;
  asks (fun s => validate_owner_completions action (mpr_pending_owner_receipts s)) ;;
  decisions ← advance_lifecycle action;
  owner_receipt_ids ← gets (fun s => ocr_receipt_id <$> mpr_pending_owner_receipts s);
  modify (adopt_completions action) ;;
  commit_recovery_journal ;;
  gets (fun s => mkApplicationReceipt MEDIA_STREAM_PLATFORM_APPLICATION_SCHEMA (pa_action_id action)
    (mpr_authority_epoch_id s) (rev_get (cur_acceptance_state_authority_revision (mpr_current_acceptance s))) true
    (mrs_runtime_revision (msr_state (mpr_runtime s))) (mrs_phase (msr_state (mpr_runtime s))) decisions
    owner_receipt_ids).

(** ** Cleanup after a trusted Revoke *)

(** The requester is currently trusted, leased and adopted. *)
Definition requester_untrusted (env : HostEnv) (requester : RevokerAdoption) (now_ms : N) : bool :=
  negb (rad_applied requester) ||
  bool_decide (is_Some (rlease_derivative_binding (rad_lease requester))) ||
  negb (bool_decide (rad_adoption_id requester ∈ he_reviewed_control_lease_adoption_ids env)) ||
  (rlease_expires_at_ms (rad_lease requester) <=? now_ms) ||
  negb (bool_decide (rad_lease requester ∈ he_leases env)) ||
  negb (bool_decide (rad_revoker_id requester ∈ he_trusted_media_revoker_ids env)).

Definition validate_trusted_cleanup_authority (env : HostEnv) (evidence : MediaStreamTrustedRevokerCleanupEvidence)
    (now_ms : N) (s : product) : result error CurrentReceipt :=
  let requester := default (tre_adoption evidence) (tre_cleanup_requester_adoption evidence) in
  let request := tre_request evidence in
  accepted ← ok_or (cur_session (mpr_current_acceptance s)) AcceptedSessionMismatch;
  let current := he_validate_media_session env (acc_decision_id accepted) now_ms in
  ended ← ok_or (cur_session current) AcceptedSessionMismatch;
  fail_if
    (negb (mut_applied (tre_termination evidence)) ||
     negb (bool_decide (mut_source_id (tre_termination evidence) = trq_request_id request)) ||
     negb (trq_is_revoke request) ||
     negb (bool_decide (trq_decision_id request = acc_decision_id accepted)) ||
     negb (bool_decide (trq_session_id request = acc_session_id accepted)) ||
     negb (as_str (trq_expected_provider_epoch_id request) =? mpr_authority_epoch_id s)%string ||
     negb (as_str (rad_provider_epoch_id (tre_adoption evidence)) =? mpr_authority_epoch_id s)%string ||
     negb (bool_decide (rad_provider_epoch_id requester = rad_provider_epoch_id (tre_adoption evidence))) ||
     negb (bool_decide (rad_revoker_id requester = rad_revoker_id (tre_adoption evidence))) ||
     requester_untrusted env requester now_ms ||
     negb (bool_decide (acc_lifecycle_status ended = status_revoked)) ||
     negb (bool_decide (acc_ended_by_id ended = Some (trq_request_id request))) ||
     negb (bool_decide ((trq_request_id request, true) ∈ he_termination_audit_events env)) ||
     negb (same_accepted_subject ended accepted)) AcceptedSessionMismatch ;;
  Ok current.

Definition prepare_trusted_revoker_cleanup (env : HostEnv) (evidence : MediaStreamTrustedRevokerCleanupEvidence)
    (action_id : string) (now_ms : N) : method MediaStreamPlatformAction :=
  current ← asks (validate_trusted_cleanup_authority env evidence now_ms);
  ended ← lift (ok_or (cur_session current) AcceptedSessionMismatch);
  reject_if (fun s => bool_decide (is_Some (mpr_pending_action s)) || is_blank action_id ||
    ids_contain (mpr_applied_action_ids s) action_id || ids_contain (mpr_aborted_action_ids s) action_id)
    AcceptedSessionMismatch ;;
  client_authority ← asks (fun s => ok_or
    match mpr_active_client_authority s with
    | Some active => Some active
    | None => (fun record => pa_client_authority (csa_original_action record)) <$> mpr_completed_start_abort s
    end MissingClientAuthority);
  reject_if (fun s => bool_decide (is_Some (mpr_completed_start_abort s)) && mpr_cleanup_only_after_restore s &&
    negb (mpr_recovery_receipts_revalidated s)) RecoveryReceiptsUnverified ;;
  modify (set_current_acceptance current) ;;
  action ← gets (make_action action_id OpStop client_authority (Some evidence) ended);
  modify (fun s => s |> set_pending_owner_receipts [] |> set_pending_uncertain_owner None
                     |> set_pending_action (Some action)) ;;
  commit_recovery_journal ;;
  mret action.

Definition authorize_retained_start_abort (env : HostEnv) (evidence : MediaStreamTrustedRevokerCleanupEvidence)
    (now_ms : N) (s : product) : result error MediaStreamClientAuthorityBinding :=
  validate_trusted_cleanup_authority env evidence now_ms s ;;
  original ← ok_or
    (if mpr_abort_in_progress s then
       action ← mpr_pending_action s;
       if bool_decide (pa_operation action = OpStart) then Some action else None
     else csa_original_action <$> mpr_completed_start_abort s) AbortRequiresPendingStart;
  fail_if (negb (pa_authority_epoch_id original =? mpr_authority_epoch_id s)%string ||
           negb (pa_runtime_spec_id original =? rsp_runtime_spec_id (bnd_spec (mpr_binding s)))%string ||
           negb (pa_runtime_spec_canonical_sha256 original =? bnd_runtime_spec_canonical_sha256 (mpr_binding s))%string)
    AcceptedSessionMismatch ;;
  Ok (pa_client_authority original).

(** ** Renewals of the authority *)

Definition concurrent_physical_graph_sha256 (s : product) : result error string :=
  snapshot ← recovery_snapshot s;
  bytes ← ok_or (snapshot_graph_to_vec snapshot) Encode;
  Ok (sha256_identity bytes).

Definition adopt_concurrent_authority_renewal (env : HostEnv) (receipt : RenewalReceipt) (now_ms : N)
    : method MediaStreamConcurrentAuthorityAdoptionReceipt :=
  prior_graph ← asks concurrent_physical_graph_sha256;
  reject_if (fun s => negb (ren_applied receipt) ||
    negb (as_str (ren_provider_epoch_id receipt) =? mpr_authority_epoch_id s)%string ||
    negb (bool_decide (receipt ∈ he_concurrent_media_renewals env)) ||
    bool_decide (is_Some (mpr_pending_action s)) || mpr_cleanup_only_after_restore s || mpr_abort_in_progress s)
    AcceptedSessionMismatch ;;
  current ← lift (ok_or (he_validate_media_session_with_live_broker_runtime env
                           (acc_decision_id (ren_renewed_media receipt)) now_ms) AcceptedSessionNotCurrent);
  reject_if (fun _ => negb (bool_decide (cur_session current = Some (ren_renewed_media receipt))))
    AcceptedSessionMismatch ;;
  adopted ← gets (fun s => bool_decide (cur_session (mpr_current_acceptance s) = Some (ren_renewed_media receipt)));
  if (adopted : bool) then
    commit_recovery_journal ;;
    mret (mkAdoptionReceipt CONCURRENT_AUTHORITY_ADOPTION_SCHEMA (ren_request_id receipt) current prior_graph prior_graph)
  else
    reject_if (fun s => negb (bool_decide (cur_session (mpr_current_acceptance s) = Some (ren_prior_media receipt))))
      AcceptedSessionSuperseded ;;
    asks (fun s =>
      session ← ok_or (cur_session (mpr_current_acceptance s)) AcceptedSessionMismatch;
      validate_current_acceptance (mpr_binding s) current (mpr_authority_epoch_id s) now_ms true
        (Some (set_cur_session
          (Some (set_acc_expires_at_ms (acc_expires_at_ms (ren_renewed_media receipt)) session))
          (mpr_current_acceptance s)))) ;;
    modify (set_current_acceptance current) ;;
    commit_recovery_journal ;;
    graph ← asks concurrent_physical_graph_sha256;
    reject_if (fun _ => negb (graph =? prior_graph)%string) AcceptedSessionMismatch ;;
    gets (fun s => mkAdoptionReceipt CONCURRENT_AUTHORITY_ADOPTION_SCHEMA (ren_request_id receipt)
      (mpr_current_acceptance s) prior_graph graph).

Definition validate_current_concurrent_authority_identity (env : HostEnv) (receipt : RenewalReceipt) (now_ms : N)
    (s : product) : result error string :=
  fail_if (negb (he_validate_owned_state_with_live_broker env)) AcceptedSessionNotCurrent ;;
  let phase := mrs_phase (msr_state (mpr_runtime s)) in
  fail_if
    (negb (ren_applied receipt) ||
     negb (as_str (ren_provider_epoch_id receipt) =? mpr_authority_epoch_id s)%string ||
     negb (bool_decide (last (he_concurrent_media_renewals env) = Some receipt)) ||
     negb (bool_decide (cur_session (mpr_current_acceptance s) = Some (ren_renewed_media receipt))) ||
     bool_decide (is_Some (mpr_pending_action s)) || mpr_cleanup_only_after_restore s || mpr_abort_in_progress s ||
     negb (bool_decide (is_Some (mpr_active_start_action s))) ||
     negb (bool_decide (phase = SourcesStarted) || bool_decide (phase = Streaming)) ||
     match mpr_active_start_action s with
     | Some action => negb (bool_decide (length (pa_owner_actions action) = length (mpr_active_start_receipts s)))
     | None => false
     end) AcceptedSessionMismatch ;;
  current ← ok_or (he_validate_media_session_with_live_broker_runtime env
                     (acc_decision_id (ren_renewed_media receipt)) now_ms) AcceptedSessionNotCurrent;
  fail_if (negb (cur_current current) || negb (bool_decide (cur_session current = Some (ren_renewed_media receipt))))
    AcceptedSessionNotCurrent ;;
  concurrent_physical_graph_sha256 s.

(** ** Methods that call a provider *)

Section Provider.
Context {P : Type} {PR : MediaStreamTrustedOwnerProvider P}.

(** The callback that a call leaves its first half with. *)
Definition finish_owner (action : MediaStreamPlatformAction) (expected : MediaStreamOwnerAction) (sequence : nat)
    (provider : P) (outcome : result string MediaStreamOwnerProviderReadback) (s : product)
    : product * result error MediaStreamOwnerCompletionReceipt :=
  match outcome with
  | Err _ => (s, Err OwnerProviderFailed)
  | Ok readback =>
      record_owner_readback action expected (verify_readback provider action expected readback) readback sequence s
  end.

Definition complete_owner (env : HostEnv) (owner_kind : MediaStreamOwnerKind) (now_ms : N) (provider : P) (s : product)
    : P * product * result error MediaStreamOwnerCompletionReceipt :=
  match begin_owner env owner_kind (provider_owner_kind provider) now_ms s with
  | (s, Err e) => (provider, s, Err e)
  | (s, Ok (action, expected, sequence)) =>
      let '(provider, outcome) := execute_and_readback provider action expected in
      let '(s, result) := finish_owner action expected sequence provider outcome s in (provider, s, result)
  end.

Definition complete_source env now_ms := complete_owner env OwnSource now_ms.
Definition complete_processor env now_ms := complete_owner env OwnProcessor now_ms.
Definition complete_route env now_ms := complete_owner env OwnRoute now_ms.
Definition complete_socket env now_ms := complete_owner env OwnSocket now_ms.
Definition complete_codec env now_ms := complete_owner env OwnCodec now_ms.
Definition complete_sink env now_ms := complete_owner env OwnSink now_ms.
Definition complete_cleanup env now_ms := complete_owner env OwnCleanup now_ms.

Definition complete_uncertain_stop_owner (env : HostEnv) (now_ms : N) (provider : P) (s : product)
    : P * product * result error MediaStreamOwnerCompletionReceipt :=
  match begin_uncertain_stop env (provider_owner_kind provider) now_ms s with
  | (s, Err e) => (provider, s, Err e)
  | (s, Ok (action, expected, sequence)) =>
      let '(provider, outcome) := compensate_uncertain_attempt provider action expected in
      let '(s, result) := finish_owner action expected sequence provider outcome s in (provider, s, result)
  end.

Definition enter_abort (call : AbortCall) (provider : P) : P * result string MediaStreamOwnerProviderReadback :=
  let '(action, expected, _, started, retrying_uncertain) := call in
  if bool_decide (is_Some started) && negb retrying_uncertain
  then execute_and_readback provider action expected
  else compensate_uncertain_attempt provider action expected.

Definition finish_abort (call : AbortCall) (provider : P)
    (outcome : result string MediaStreamOwnerProviderReadback) (s : product)
    : product * result error MediaStreamOwnerCompletionReceipt :=
  let '(action, expected, _, _, _) := call in
  match outcome with
  | Err _ => (s, Err OwnerProviderFailed)
  | Ok readback => record_abort_readback call (verify_readback provider action expected readback) readback s
  end.

Definition complete_next_abort_owner (provider : P) (s : product)
    : P * product * result error MediaStreamOwnerCompletionReceipt :=
  match begin_abort_owner (provider_owner_kind provider) s with
  | (s, Err e) => (provider, s, Err e)
  | (s, Ok call) =>
      let '(provider, outcome) := enter_abort call provider in
      let '(s, result) := finish_abort call provider outcome s in (provider, s, result)
  end.
End Provider.
End ProductRuntime.
