(* ===== verification/ProductOrder.v ===== *)
(** * Product runtime: the order of owner actions

    Owner actions are sorted by family, so that a Start arms cleanup and
    receivers first and sources last, and a Stop cleans up last; receipts follow
    that order. *)

From S2P Require Import Prelude RustStr OrdMap MediaModel MediaSpec MediaRuntime MediaLifecycle MediaComposition CleanupTicket OwnerEffect ProductBinding ProductModel ProductActions ProductSnapshot.
From stdpp Require Import sorting.
From Stdlib Require Import Sorting.Sorted.

Local Open Scope N_scope.

(** ** Selections are totally ordered *)

#[global] Instance selection_total_ord : TotalOrd compare_selection.
Proof.
  split.
  - intros a b. rewrite compare_selection_lex, lex_compare_eq. split; [|by intros ->].
    destruct a as [ka oa ra la pa], b as [kb ob rb lb pb]. unfold selection_key. cbn.
    destruct la, lb; cbn; intros [=]; subst; f_equal; destruct ka, kb; done.
  - intros a b. rewrite !compare_selection_lex. apply lex_compare_antisym.
  - intros a b c. rewrite !compare_selection_lex. apply lex_compare_lt_trans.
Qed.

(** ** Sorted lists *)

Section Increasing.
Context {A : Type} (cmp : A → A → comparison) {TO : TotalOrd cmp}.

Lemma increasing_iff l : increasing cmp l = true ↔ keys_sorted cmp l.
Proof.
  unfold keys_sorted. trans (Sorted (fun a b => cmp a b = Lt) l).
  - induction l as [|a [|b l] IH]; [split; [by constructor|done]|split; [by repeat constructor|done]|].
    change (increasing cmp (a :: b :: l)) with
      (match cmp a b with Lt => true | _ => false end && increasing cmp (b :: l)).
    rewrite andb_true_iff, IH. split.
    + intros [Hab Hl]. constructor; [done|]. constructor. by destruct (cmp a b).
    + intros Hs. apply Sorted_inv in Hs as [Hl Hab]. split; [|done]. apply HdRel_inv in Hab. by rewrite Hab.
  - split; [|apply StronglySorted_Sorted]. apply Sorted_StronglySorted. intros a b c. apply cmp_lt_trans.
Qed.

Lemma keys_sorted_NoDup l : keys_sorted cmp l → NoDup l.
Proof.
  unfold keys_sorted. induction 1 as [|a l Hl IH Ha]; constructor; [|done].
  intros Hin. rewrite Forall_forall in Ha. apply Ha in Hin. by rewrite (cmp_refl cmp) in Hin.
Qed.
End Increasing.

(** [sort_by] sorts where the order is transitive and total up to [Eq]. *)
Lemma sort_by_weakly_sorted {A} (cmp : A → A → comparison) l :
  (∀ a b, cmp a b = Gt → cmp b a ≠ Gt) → (∀ a b c, cmp a b ≠ Gt → cmp b c ≠ Gt → cmp a c ≠ Gt) →
  StronglySorted (fun a b => cmp a b ≠ Gt) (sort_by cmp l).
Proof.
  intros Htot Htr. unfold sort_by. induction l as [|x l IH]; cbn; [constructor|].
  induction (foldr (sorted_insert cmp) [] l) as [|y l' IH']; cbn; [repeat constructor|].
  apply StronglySorted_inv in IH as [Hs Hy]. destruct (cmp x y) eqn:C.
  1,2: constructor; [by constructor|]; constructor; [by rewrite C|];
    eapply Forall_impl; [exact Hy|]; intros z Hz; apply (Htr x y z); [by rewrite C|done].
  constructor; [by apply IH'|]. rewrite sorted_insert_perm. constructor; [by apply Htot|done].
Qed.

(** ** Owner actions *)

Definition action_priority (operation : MediaStreamPlatformOperation) (a : MediaStreamOwnerAction) : N :=
  owner_priority operation (own_owner_kind (oa_selection a)).

Lemma compare_owner_action_priority op a b :
  compare_owner_action op a b ≠ Gt → action_priority op a ≤ action_priority op b.
Proof.
  unfold compare_owner_action, action_priority. destruct (N.compare_spec (owner_priority op (own_owner_kind (oa_selection a)))
    (owner_priority op (own_owner_kind (oa_selection b)))); intros H'; lia || done.
Qed.

Lemma ordered_sorted sel op :
  StronglySorted (fun a b => action_priority op a ≤ action_priority op b) (ordered_owner_actions sel op).
Proof.
  assert (Hs : StronglySorted (fun a b => compare_owner_action op a b ≠ Gt) (ordered_owner_actions sel op)).
  { apply sort_by_weakly_sorted; unfold compare_owner_action.
    - intros a b. rewrite (N.compare_antisym _ (owner_priority op (own_owner_kind (oa_selection a)))).
      destruct (N.compare _ _); cbn; try done. intros C. by rewrite (cmp_gt compare_selection _ _ C).
    - intros a b c. set (pa := owner_priority op (own_owner_kind (oa_selection a))).
      set (pb := owner_priority op (own_owner_kind (oa_selection b))).
      set (pc := owner_priority op (own_owner_kind (oa_selection c))).
      destruct (N.compare_spec pa pb), (N.compare_spec pb pc), (N.compare_spec pa pc); try lia; try done.
      destruct (compare_selection (oa_selection a) (oa_selection b)) eqn:C1; [apply (cmp_eq (cmp := compare_selection)) in C1 as ->; done| |done].
      destruct (compare_selection (oa_selection b) (oa_selection c)) eqn:C2;
        [apply (cmp_eq (cmp := compare_selection)) in C2 as <-; by rewrite C1| |done].
      by rewrite (cmp_lt_trans _ _ _ C1 C2). }
  induction Hs as [|a l Hl IH Ha]; constructor; [done|].
  eapply Forall_impl; [exact Ha|]. intros b. apply compare_owner_action_priority.
Qed.

Lemma ordered_perm sel op :
  ordered_owner_actions sel op ≡ₚ (fun s => mkOwnerAction s (owner_action_kind op (own_owner_kind s))) <$> sel.
Proof. apply sort_by_perm. Qed.

Lemma ordered_selections sel op : oa_selection <$> ordered_owner_actions sel op ≡ₚ sel.
Proof. rewrite ordered_perm, <- list_fmap_compose. cbn. by rewrite list_fmap_id. Qed.

Lemma ordered_length sel op : length (ordered_owner_actions sel op) = length sel.
Proof. rewrite <- (length_fmap oa_selection), (Permutation_length (ordered_selections sel op)). done. Qed.

Lemma ordered_kind sel op a :
  a ∈ ordered_owner_actions sel op →
  oa_selection a ∈ sel ∧ oa_action_kind a = owner_action_kind op (own_owner_kind (oa_selection a)).
Proof. rewrite ordered_perm. intros (s & -> & Hs)%list_elem_of_fmap. done. Qed.

Lemma ordered_NoDup sel op : NoDup sel → NoDup (oa_selection <$> ordered_owner_actions sel op).
Proof. by rewrite ordered_selections. Qed.

(** Once an owner of a later family has its turn, the earlier families are done. *)
Lemma ordered_prefix sel op i j a b :
  ordered_owner_actions sel op !! i = Some a → ordered_owner_actions sel op !! j = Some b →
  action_priority op a < action_priority op b → (i < j)%nat.
Proof.
  intros Ha Hb Hlt. destruct (Nat.lt_total i j) as [|[->|Hji]]; [done| |].
  - rewrite Ha in Hb. injection Hb as ->. lia.
  - pose proof (ordered_sorted sel op) as Hs.
    rewrite <- (take_drop_middle _ _ _ Hb) in Hs. apply StronglySorted_app in Hs as (_ & _ & Hs).
    apply StronglySorted_inv in Hs as [_ Hs]. rewrite Forall_forall in Hs.
    assert (a ∈ drop (S j) (ordered_owner_actions sel op)) as Hin.
    { apply list_elem_of_lookup. exists (i - S j)%nat. rewrite lookup_drop. replace (S j + (i - S j))%nat with i by lia. done. }
    apply Hs in Hin. lia.
Qed.

(** ** Receipts along the actions *)

(** The receipts of the first actions, in order. *)
Definition prefix_matches (actions : list MediaStreamOwnerAction) (receipts : list MediaStreamOwnerCompletionReceipt)
    : Prop :=
  (length receipts ≤ length actions)%nat ∧
  ∀ i a r, actions !! i = Some a → receipts !! i = Some r →
    receipt_matches (N.of_nat i) a r = true ∧ ocr_completion_sequence r = N.of_nat i + 1.

Definition distinct_receipts (receipts : list MediaStreamOwnerCompletionReceipt) : Prop :=
  NoDup (ocr_receipt_id <$> receipts) ∧ NoDup (ocr_provider_handle_id <$> receipts).

Lemma receipts_match_iff index ids handles actions receipts :
  (length receipts ≤ length actions)%nat →
  receipts_match index ids handles actions receipts = true ↔
  (∀ i a r, actions !! i = Some a → receipts !! i = Some r → receipt_matches (index + N.of_nat i) a r = true) ∧
  NoDup (ocr_receipt_id <$> receipts) ∧ NoDup (ocr_provider_handle_id <$> receipts) ∧
  (∀ r, r ∈ receipts → ocr_receipt_id r ∉ ids ∧ ocr_provider_handle_id r ∉ handles).
Proof.
  revert index ids handles receipts. induction actions as [|a actions IH]; intros index ids handles receipts Hlen.
  { destruct receipts; [|cbn in Hlen; lia]. cbn. split; [|done]. intros _. split_and!; [done|constructor..|set_solver]. }
  destruct receipts as [|r receipts].
  { cbn. split; [|done]. intros _. split_and!; [done|constructor..|set_solver]. }
  cbn in Hlen. cbn [receipts_match]. rewrite !andb_true_iff, !negb_true_iff, !bool_decide_eq_false, IH by lia.
  rewrite !fmap_cons, !NoDup_cons. split.
  - intros (((Hm & Hi) & Hh) & Hall & Hni & Hnh & Hf). split_and!.
    + intros [|i] a' r' Ha Hr; cbn in Ha, Hr; [injection Ha as <-; injection Hr as <-; by rewrite N.add_0_r|].
      replace (index + N.of_nat (S i)) with (index + 1 + N.of_nat i) by lia. eauto.
    + intros (r' & E & Hr)%list_elem_of_fmap. apply Hf in Hr as [Hr _]. set_solver.
    + done.
    + intros (r' & E & Hr)%list_elem_of_fmap. apply Hf in Hr as [_ Hr]. set_solver.
    + done.
    + intros r' [->|Hr]%elem_of_cons; [done|]. apply Hf in Hr. set_solver.
  - intros (Hall & [Hi Hni] & [Hh Hnh] & Hf). split_and!; [|by apply Hf; set_solver..| |done|done|].
    + specialize (Hall 0%nat a r eq_refl eq_refl). by rewrite N.add_0_r in Hall.
    + intros i a' r' Ha Hr. specialize (Hall (S i) a' r' Ha Hr).
      by replace (index + 1 + N.of_nat i) with (index + N.of_nat (S i)) by lia.
    + intros r' Hr. destruct (Hf r') as [H1 H2]; [set_solver|].
      rewrite !not_elem_of_union, !not_elem_of_singleton. split_and!; [|done| |done].
      * intros E. apply Hi. rewrite <- E. by apply list_elem_of_fmap_2.
      * intros E. apply Hh. rewrite <- E. by apply list_elem_of_fmap_2.
Qed.

Lemma prefix_receipts_match actions receipts :
  prefix_matches actions receipts → receipts_match 0 ∅ ∅ actions receipts = true ↔ distinct_receipts receipts.
Proof.
  intros [Hlen Hm]. rewrite receipts_match_iff by done. unfold distinct_receipts. split; [naive_solver|].
  intros [H1 H2]. split_and!; [|done..|set_solver]. intros i a r Ha Hr. by destruct (Hm i a r Ha Hr).
Qed.

Lemma prefix_snoc actions receipts a r :
  prefix_matches actions receipts → actions !! length receipts = Some a →
  receipt_matches (len receipts) a r = true → ocr_completion_sequence r = len receipts + 1 →
  prefix_matches actions (receipts ++ [r]).
Proof.
  intros [Hlen Hm] Ha Hr Hs. split.
  - rewrite length_app. cbn. apply lookup_lt_Some in Ha. lia.
  - intros i a' r' Ha' Hr'. apply lookup_app_Some in Hr' as [Hr'|[Hi Hr']]; [eauto|].
    apply list_lookup_singleton_Some in Hr' as [Hi' ->].
    replace i with (length receipts) in * by lia. rewrite Ha in Ha'. by injection Ha' as <-.
Qed.

Lemma prefix_nil actions : prefix_matches actions [].
Proof. split; [cbn; lia|done]. Qed.

(** A receipt of the prefix is the receipt of its owner. *)
Lemma prefix_selection actions receipts i a r :
  prefix_matches actions receipts → actions !! i = Some a → receipts !! i = Some r →
  ocr_selection r = oa_selection a ∧ ocr_action_kind r = oa_action_kind a.
Proof.
  intros [_ Hm] Ha Hr. destruct (Hm i a r Ha Hr) as [H _]. unfold receipt_matches in H. bool_to_prop. done.
Qed.

Lemma prefix_lookup actions receipts i r :
  prefix_matches actions receipts → receipts !! i = Some r → ∃ a, actions !! i = Some a.
Proof.
  intros [Hlen _] Hr. apply lookup_lt_Some in Hr. destruct (lookup_lt_is_Some_2 actions i) as [a Ha]; [lia|]. by exists a.
Qed.

Lemma prefix_selections actions receipts :
  prefix_matches actions receipts → ocr_selection <$> receipts = take (length receipts) (oa_selection <$> actions).
Proof.
  intros Hp. apply list_eq. intros i. rewrite list_lookup_fmap.
  destruct (receipts !! i) as [r|] eqn:Hr; cbn.
  - rewrite lookup_take_lt by (by eapply lookup_lt_Some). rewrite list_lookup_fmap.
    destruct (prefix_lookup _ _ _ _ Hp Hr) as [a Ha]. rewrite Ha. cbn.
    by destruct (prefix_selection _ _ _ _ _ Hp Ha Hr) as [-> _].
  - apply lookup_ge_None in Hr. by rewrite lookup_take_ge by lia.
Qed.

(** ** Minimum and maximum *)

Lemma iter_min_Some l m : iter_min l = Some m → m ∈ l.
Proof.
  destruct l as [|x l]; [done|]. cbn. intros [= <-]. induction l as [|y l IH]; cbn; [set_solver|].
  destruct (N.min_spec y (foldr N.min x l)) as [[_ ->]|[_ ->]]; set_solver.
Qed.

Lemma iter_max_Some l m : iter_max l = Some m → m ∈ l.
Proof.
  destruct l as [|x l]; [done|]. cbn. intros [= <-]. induction l as [|y l IH]; cbn; [set_solver|].
  destruct (N.max_spec y (foldr N.max x l)) as [[_ ->]|[_ ->]]; set_solver.
Qed.

Lemma sequences_where_elem p receipts n :
  n ∈ sequences_where p receipts ↔
  ∃ i r, receipts !! i = Some r ∧ p (own_owner_kind (ocr_selection r)) = true ∧ n = ocr_completion_sequence r.
Proof.
  unfold sequences_where. rewrite list_elem_of_fmap. split.
  - intros (r & -> & [Hp Hr]%list_elem_of_filter). apply list_elem_of_lookup in Hr as [i Hi]. eauto.
  - intros (i & r & Hi & Hp & ->). exists r. split; [done|]. apply list_elem_of_filter. split; [done|].
    by eapply list_elem_of_lookup_2.
Qed.

(** ** Completions in order pass the order tests *)

Section Complete.
Context (spec : MediaStreamRuntimeSpec) (Hw : runtime_spec_wf spec).
Context (op : MediaStreamPlatformOperation) (receipts : list MediaStreamOwnerCompletionReceipt).
Let actions := ordered_owner_actions (rsp_owner_selections spec) op.
Context (Hp : prefix_matches actions receipts) (Hfull : length receipts = length actions).

Lemma complete_kind k : ∃ i r, receipts !! i = Some r ∧ own_owner_kind (ocr_selection r) = k.
Proof.
  destruct (ow_cover _ (rw_owners _ Hw) k) as [Hn Hc].
  destruct (selected_ids k (rsp_owner_selections spec)) as [|id ids] eqn:Es;
    [by apply Permutation_nil_l in Hc; rewrite Hc in Hn|].
  assert (Hin : id ∈ selected_ids k (rsp_owner_selections spec)) by (rewrite Es; set_solver).
  apply list_elem_of_fmap in Hin as (s & _ & [Hk Hs]%list_elem_of_filter).
  rewrite <- (ordered_selections _ op) in Hs. apply list_elem_of_fmap in Hs as (a & -> & Ha).
  apply list_elem_of_lookup in Ha as [i Hi]. destruct (lookup_lt_is_Some_2 receipts i) as [r Hr].
  { rewrite Hfull. by eapply lookup_lt_Some. }
  exists i, r. split; [done|]. by destruct (prefix_selection _ _ _ _ _ Hp Hi Hr) as [-> _].
Qed.

Lemma complete_sequences (p : MediaStreamOwnerKind → bool) k :
  p k = true → is_Some (iter_min (sequences_where p receipts)) ∧ is_Some (iter_max (sequences_where p receipts)).
Proof.
  intros Hk. destruct (complete_kind k) as (i & r & Hr & <-).
  assert (Hin : ocr_completion_sequence r ∈ sequences_where p receipts) by (apply sequences_where_elem; eauto).
  destruct (sequences_where p receipts); [set_solver|]. cbn. eauto.
Qed.

(** A later family has the larger sequence number. *)
Lemma complete_before i j r r' :
  receipts !! i = Some r → receipts !! j = Some r' →
  owner_priority op (own_owner_kind (ocr_selection r)) < owner_priority op (own_owner_kind (ocr_selection r')) →
  ocr_completion_sequence r < ocr_completion_sequence r'.
Proof.
  intros Hr Hr' Hlt. destruct (prefix_lookup _ _ _ _ Hp Hr) as [a Ha], (prefix_lookup _ _ _ _ Hp Hr') as [a' Ha'].
  destruct (prefix_selection _ _ _ _ _ Hp Ha Hr) as [E _], (prefix_selection _ _ _ _ _ Hp Ha' Hr') as [E' _].
  rewrite E, E' in Hlt. pose proof (ordered_prefix _ _ _ _ _ _ Ha Ha' Hlt) as Hij.
  destruct Hp as [_ Hm]. destruct (Hm _ _ _ Ha Hr) as [_ ->], (Hm _ _ _ Ha' Hr') as [_ ->]. lia.
Qed.

Lemma complete_order_ok : completion_order op receipts = Ok tt.
Proof.
  unfold completion_order. remember op as o eqn:Eop in |- *. destruct o.
  - destruct (complete_sequences (owner_kind_is OwnSource) OwnSource eq_refl) as [[m Hm] _]. rewrite Hm.
    destruct (complete_sequences (fun k => negb (owner_kind_is OwnSource k)) OwnSink eq_refl) as [_ [n Hn]]. rewrite Hn.
    cbn. apply fail_if_ok, N.leb_gt.
    apply iter_min_Some, sequences_where_elem in Hm as (i & r & Hr & Hk & ->).
    apply iter_max_Some, sequences_where_elem in Hn as (j & r' & Hr' & Hk' & ->).
    eapply complete_before; [done..|]. unfold owner_kind_is in *. bool_to_prop. rewrite Hk, <- Eop.
    destruct (own_owner_kind (ocr_selection r')); cbn; lia || done.
  - destruct (List.find _ receipts) as [c|] eqn:Hc; [|].
    + destruct (complete_sequences (fun k => negb (owner_kind_is OwnCleanup k)) OwnSink eq_refl) as [_ [n Hn]]. rewrite Hn.
      cbn. apply fail_if_ok, N.leb_gt. apply List.find_some in Hc as [Hc Hk].
      apply list_elem_of_In, list_elem_of_lookup in Hc as [i Hr].
      apply iter_max_Some, sequences_where_elem in Hn as (j & r' & Hr' & Hk' & ->).
      eapply complete_before; [done..|]. unfold owner_kind_is in *. bool_to_prop. rewrite Hk, <- Eop.
      destruct (own_owner_kind (ocr_selection r')); cbn; lia || done.
    + exfalso. destruct (complete_kind OwnCleanup) as (i & r & Hr & Hk).
      eapply List.find_none in Hc; [|apply list_elem_of_In; by eapply list_elem_of_lookup_2].
      unfold owner_kind_is in Hc. rewrite Hk in Hc. done.
Qed.
End Complete.
