(* ===== verification/ProductInvariant.v ===== *)
(** * Product runtime: the invariant

    What every reachable product runtime satisfies, and that every method keeps
    it on every outcome. *)

From S2P Require Import Prelude RustStr OrdMap StateResult UpdateAdmission MediaModel MediaSpec MediaRuntime MediaLifecycle MediaComposition CleanupTicket OwnerEffect ProductBinding ProductModel ProductActions ProductSnapshot WireFrame ProductRuntime ProductOrder.

Local Open Scope N_scope.
Local Open Scope quest_scope.

(** ** The accepted subject *)

(** The fields of an accepted session that actions repeat. *)
Definition subject_key {MM : ManifoldMedia} (acc : AcceptedSession) :=
  ((acc_decision_id acc, acc_session_authority_revision acc, acc_product_descriptor_canonical_sha256 acc),
   (acc_runtime_client_id acc, acc_runtime_lease_id acc, acc_product_id acc, acc_feature_lock_id acc),
   (acc_feature_lock_fingerprint acc, acc_capability_id acc, acc_admission_grant_id acc)).

(** What the code relies on in Manifold's types: revisions compare by their
    values, and assigning [expires_at_ms] or [session] leaves the other fields. *)
Class ManifoldLaws `{MM : ManifoldMedia} := {
  rev_ltb_get a b : rev_ltb a b = (rev_get a <? rev_get b);
  set_expires_subject e a : subject_key (set_acc_expires_at_ms e a) = subject_key a;
  set_expires_status e a : acc_lifecycle_status (set_acc_expires_at_ms e a) = acc_lifecycle_status a;
  set_expires_ended e a : acc_ended_by_id (set_acc_expires_at_ms e a) = acc_ended_by_id a;
  set_session_session x c : cur_session (set_cur_session x c) = x;
  set_session_revision x c : cur_acceptance_state_authority_revision (set_cur_session x c) =
    cur_acceptance_state_authority_revision c;
}.

Section Subject.
Context `{ML : ManifoldLaws}.

Lemma same_subject_key a b : same_accepted_subject a b = true → subject_key a = subject_key b.
Proof. unfold same_accepted_subject, subject_key. intros H. bool_to_prop. congruence. Qed.

(** A revocation is final. *)
Definition revocation_kept (acc acc' : AcceptedSession) : Prop :=
  acc_lifecycle_status acc = status_revoked →
  acc_lifecycle_status acc' = status_revoked ∧ acc_ended_by_id acc' = acc_ended_by_id acc.

(** The receipt is well-formed for the product at the time it was made. *)
Definition receipt_valid (binding : MediaStreamRuntimeProductBinding) (epoch : string) (current : CurrentReceipt) : Prop :=
  validate_current_acceptance binding current epoch (cur_validated_at_ms current) false None = Ok tt.

Lemma acceptance_valid binding current epoch now req prior :
  validate_current_acceptance binding current epoch now req prior = Ok tt →
  receipt_valid binding epoch current ∧ cur_validated_at_ms current = now ∧
  ∃ acc, cur_session current = Some acc ∧ cur_decision_id current = acc_decision_id acc ∧
    (req = true → acceptance_live current acc now = true) ∧
    ∀ p, prior = Some p → acceptance_succeeds current p acc = Ok tt.
Proof.
  unfold receipt_valid, validate_current_acceptance.
  rewrite fail_if_bind_ok, ok_or_bind_ok. intros (H1 & acc & Ha & H2).
  rewrite !fail_if_bind_ok, then_ok in H2. destruct H2 as (H2 & H3 & Hp & H4).
  apply orb_false_iff in H1 as [H1 Ht]. apply negb_false_iff, N.eqb_eq in Ht.
  rewrite Ha, Ht. cbn [ok_or mbind result_bind]. rewrite H1, H2. rewrite N.eqb_refl.
  cbn [orb negb andb fail_if mbind result_bind]. split; [done|]. split; [done|].
  exists acc. split; [done|]. bool_to_prop. split; [done|]. split.
  - intros ->. by apply negb_false_iff in H3.
  - by intros p ->.
Qed.

Lemma acceptance_subject current prior acc :
  acceptance_succeeds current prior acc = Ok tt →
  ∃ acc0, cur_session prior = Some acc0 ∧ same_accepted_subject acc acc0 = true ∧
    rev_get (cur_acceptance_state_authority_revision prior) ≤ rev_get (cur_acceptance_state_authority_revision current).
Proof.
  unfold acceptance_succeeds. rewrite ok_or_bind_ok. intros (acc0 & Hp & H). apply fail_if_ok in H.
  rewrite rev_ltb_get in H. bool_to_prop. eauto.
Qed.

(** An action stays valid while the subject stays. *)
Lemma recovery_action_mono binding acc acc' (snap snap' : MediaStreamSessionProductRecoverySnapshot) a :
  subject_key acc' = subject_key acc → revocation_kept acc acc' →
  rsn_provider_epoch_id snap' = rsn_provider_epoch_id snap →
  rev_get (cur_acceptance_state_authority_revision (rsn_accepted_subject snap)) ≤
    rev_get (cur_acceptance_state_authority_revision (rsn_accepted_subject snap')) →
  validate_recovery_action binding acc snap a = Ok tt → validate_recovery_action binding acc' snap' a = Ok tt.
Proof.
  unfold subject_key. intros [= E1 E2 E3 E4 E5 E6 E7 E8 E9 E10] Hr Ee Hv. unfold validate_recovery_action. rewrite !fail_if_ok.
  unfold recovery_client_mismatch. rewrite E1, E2, E3, E4, E5, E6, E7, E8, E9, E10, Ee.
  rewrite !orb_false_iff. intros H. destruct_and! H. split_and!; try done.
  - bool_to_prop. apply N.ltb_ge. lia.
  - destruct (pa_trusted_revoker_cleanup a) as [ev|]; [|done].
    unfold recovery_evidence_invalid in *. rewrite E1.
    repeat match goal with H : _ || _ = false |- _ => apply orb_false_iff in H; destruct H end.
    destruct Hr as [Hs He]; [by bool_to_prop|].
    rewrite !orb_false_iff. split_and!; try done.
    + rewrite Hs. by rewrite bool_decide_true.
    + by rewrite He.
Qed.
End Subject.

(** ** The invariant *)

Section Invariant.
Context {RC : ReleaseCrypto} {SpE : SpecEncoding} `{ML : ManifoldLaws} {SE : SnapshotEncoding}.
Context {J : Type} {RJ : MediaStreamRecoveryJournal J}.
Abbreviation product := (MediaStreamSessionProductRuntime (J := J)).
Implicit Types (x : MediaStreamSessionProductRecoverySnapshot) (a : MediaStreamPlatformAction) (s : product).

Definition action_ok x a : Prop :=
  ∃ acc, cur_session (rsn_accepted_subject x) = Some acc ∧
    validate_recovery_action (rsn_binding x) acc x a = Ok tt.

(** Rollback receipts keep the handle of the completion they reverse. *)
Definition rollback_ok (uncertain : option MediaStreamOwnerAction)
    (started rollback : list MediaStreamOwnerCompletionReceipt) : Prop :=
  ∀ i r, rollback !! i = Some r → abort_receipt_invalid uncertain started i r = false.

Definition next_owner (actions : list MediaStreamOwnerAction) (receipts : list MediaStreamOwnerCompletionReceipt)
    (owner : option MediaStreamOwnerAction) : Prop :=
  ∀ o, owner = Some o → actions !! length receipts = Some o.

(** A rollback under way or complete. *)
Record rollback_wf a (uncertain : option MediaStreamOwnerAction)
    (started rollback : list MediaStreamOwnerCompletionReceipt) : Prop := {
  rb_prefix : prefix_matches (pa_owner_actions (partial_start_abort_action a started uncertain)) rollback;
  rb_receipts : NoDup (ocr_receipt_id <$> rollback);
  rb_handles : rollback_ok uncertain started rollback;
}.

(** The Start whose owners a Stop stops. *)
Definition start_of x : option MediaStreamPlatformAction :=
  match rsn_active_start_action x with
  | Some a => Some a
  | None => csa_original_action <$> rsn_completed_start_abort x
  end.

Record pending_start_wf x a : Prop := {
  ps_active : rsn_active_start_action x = None;
  ps_completed : rsn_completed_start_abort x = None;
  ps_phase : mrs_phase (rsn_lifecycle x) = Planned;
  ps_idle : rsn_abort_in_progress x = false →
    rsn_pending_abort_receipts x = [] ∧ rsn_pending_abort_uncertain_owner x = None;
  ps_rollback : rollback_wf a (rsn_pending_uncertain_owner x) (rsn_pending_owner_receipts x)
    (rsn_pending_abort_receipts x);
  ps_next : next_owner (pa_owner_actions (partial_start_abort_action a (rsn_pending_owner_receipts x)
    (rsn_pending_uncertain_owner x))) (rsn_pending_abort_receipts x) (rsn_pending_abort_uncertain_owner x);
}.

Record pending_stop_wf x a : Prop := {
  pt_abort : rsn_abort_in_progress x = false;
  pt_receipts : rsn_pending_abort_receipts x = [];
  pt_uncertain : rsn_pending_abort_uncertain_owner x = None;
  pt_holder : ∃ start, start_of x = Some start ∧
    same_session_holder (pa_client_authority start) (pa_client_authority a) = true;
  pt_handles : ∀ r, r ∈ rsn_pending_owner_receipts x → stop_receipt_invalid x r = false;
  pt_trusted : is_Some (rsn_completed_start_abort x) → is_Some (pa_trusted_revoker_cleanup a);
}.

Record pending_action_wf x a : Prop := {
  pn_action : action_ok x a;
  pn_fresh : pa_action_id a ∉ rsn_applied_action_ids x ∧ pa_action_id a ∉ rsn_aborted_action_ids x;
  pn_revision : pa_expected_runtime_revision a = mrs_runtime_revision (rsn_lifecycle x);
  pn_prefix : prefix_matches (pa_owner_actions a) (rsn_pending_owner_receipts x);
  pn_distinct : distinct_receipts (rsn_pending_owner_receipts x);
  pn_next : next_owner (pa_owner_actions a) (rsn_pending_owner_receipts x) (rsn_pending_uncertain_owner x);
  pn_operation : match pa_operation a with OpStart => pending_start_wf x a | OpStop => pending_stop_wf x a end;
}.

Definition pending_wf x : Prop :=
  match rsn_pending_action x with
  | None => rsn_pending_owner_receipts x = [] ∧ rsn_pending_uncertain_owner x = None ∧
      rsn_pending_abort_receipts x = [] ∧ rsn_pending_abort_uncertain_owner x = None ∧ rsn_abort_in_progress x = false
  | Some a => pending_action_wf x a
  end.

Record completed_record_wf x (record : MediaStreamCompletedStartAbort) : Prop := {
  cs_schema : csa_schema_id record = COMPLETED_START_ABORT_SCHEMA;
  cs_action : action_ok x (csa_original_action record);
  cs_start : pa_operation (csa_original_action record) = OpStart;
  cs_ordinary : pa_trusted_revoker_cleanup (csa_original_action record) = None;
  cs_revision : pa_expected_runtime_revision (csa_original_action record) = 1;
  cs_aborted : pa_action_id (csa_original_action record) ∈ rsn_aborted_action_ids x;
  cs_prefix : prefix_matches (pa_owner_actions (csa_original_action record)) (csa_started_receipts record);
  cs_distinct : distinct_receipts (csa_started_receipts record);
  cs_next : next_owner (pa_owner_actions (csa_original_action record)) (csa_started_receipts record)
    (csa_uncertain_owner record);
  cs_rollback_action : csa_rollback_action record =
    partial_start_abort_action (csa_original_action record) (csa_started_receipts record) (csa_uncertain_owner record);
  cs_length : length (csa_rollback_receipts record) = length (pa_owner_actions (csa_rollback_action record));
  cs_rollback : rollback_wf (csa_original_action record) (csa_uncertain_owner record) (csa_started_receipts record)
    (csa_rollback_receipts record);
}.

Definition completed_wf x : Prop := ∀ record, rsn_completed_start_abort x = Some record → completed_record_wf x record.

Record active_action_wf x a : Prop := {
  ac_action : action_ok x a;
  ac_start : pa_operation a = OpStart;
  ac_revision : pa_expected_runtime_revision a = 1;
  ac_receipts : validate_owner_completions a (rsn_active_start_receipts x) = Ok tt;
  ac_client : rsn_active_client_authority x = Some (pa_client_authority a);
  ac_handles : handle_entry <$> rsn_active_provider_handles x =
    om_collect compare_selection (receipt_handle <$> rsn_active_start_receipts x);
}.

Definition active_wf x : Prop :=
  match rsn_active_start_action x with
  | None => rsn_active_start_receipts x = [] ∧ rsn_active_provider_handles x = [] ∧ rsn_active_client_authority x = None
  | Some a => active_action_wf x a
  end.

Definition phase_wf x : Prop :=
  let state := rsn_lifecycle x in
  match mrs_phase state with
  | Planned => mrs_runtime_revision state = 1 ∧ mrs_applied_request_ids state = [] ∧ rsn_applied_action_ids x = [] ∧
      rsn_active_start_action x = None
  | SourcesStarted => mrs_runtime_revision state = 3 ∧ rsn_completed_start_abort x = None ∧
      ∃ a, rsn_active_start_action x = Some a ∧ rsn_applied_action_ids x = [pa_action_id a] ∧
        mrs_applied_request_ids state = [pa_action_id a ++ ".arm_receivers"; pa_action_id a ++ ".start_sources"]%string
  | Stopped => mrs_runtime_revision state ∈ [2; 4] ∧ rsn_applied_action_ids x ≠ [] ∧ rsn_active_start_action x = None
  | _ => False
  end.

Record snapshot_wf x : Prop := {
  wf_binding : binding_validate (rsn_binding x) = Ok tt;
  wf_snapshot_schema : rsn_schema_id x =
    if bool_decide (is_Some (rsn_completed_start_abort x)) then MEDIA_STREAM_PRODUCT_ABORT_RECOVERY_SCHEMA
    else MEDIA_STREAM_PRODUCT_RECOVERY_SCHEMA;
  wf_schema : mrs_schema (rsn_lifecycle x) = MEDIA_STREAM_RUNTIME_STATE_SCHEMA;
  wf_spec_id : mrs_runtime_spec_id (rsn_lifecycle x) = rsp_runtime_spec_id (bnd_spec (rsn_binding x));
  wf_epoch : is_blank (rsn_provider_epoch_id x) = false;
  wf_receipt : receipt_valid (rsn_binding x) (rsn_provider_epoch_id x) (rsn_accepted_subject x);
  wf_applied : keys_sorted String.compare (rsn_applied_action_ids x);
  wf_aborted : keys_sorted String.compare (rsn_aborted_action_ids x);
  wf_nonblank : ∀ id, id ∈ rsn_applied_action_ids x ∨ id ∈ rsn_aborted_action_ids x → is_blank id = false;
  wf_disjoint : ∀ id, id ∈ rsn_applied_action_ids x → id ∉ rsn_aborted_action_ids x;
  wf_phase : phase_wf x;
  wf_active : active_wf x;
  wf_pending : pending_wf x;
  wf_completed : completed_wf x;
}.

(** What is journalled is well-formed, and the lifecycle runs the packaged
    specification. *)
Definition product_wf s : Prop :=
  snapshot_wf (snapshot_of s) ∧ msr_spec (mpr_runtime s) = bnd_spec (mpr_binding s).

(** The journal is not part of it. *)
Lemma wf_set_journal s j : product_wf s → product_wf (set_recovery_journal j s).
Proof. done. Qed.
Lemma wf_set_poisoned s b : product_wf s → product_wf (set_recovery_journal_poisoned b s).
Proof. done. Qed.
Lemma wf_set_revalidated s b : product_wf s → product_wf (set_recovery_receipts_revalidated b s).
Proof. done. Qed.

Lemma commit_wf s : product_wf s → wp commit_recovery_journal (fun s' _ => product_wf s') s.
Proof.
  intros Hw. unfold wp, commit_recovery_journal. destruct (mpr_recovery_journal_poisoned s); [done|].
  destruct (mpr_recovery_journal s) as [j|]; [|done]. destruct (recovery_snapshot s) as [snap|e]; [|done].
  destruct (journal_commit j snap) as [j' [u|e]]; [by apply wf_set_journal|by apply wf_set_poisoned, wf_set_journal].
Qed.

(** ** Updates of a snapshot *)

Definition with_subject (c : CurrentReceipt) x : MediaStreamSessionProductRecoverySnapshot :=
  mkRecoverySnapshot (rsn_schema_id x) (rsn_binding x) c (rsn_provider_epoch_id x) (rsn_lifecycle x)
    (rsn_pending_action x) (rsn_pending_owner_receipts x) (rsn_pending_uncertain_owner x)
    (rsn_pending_abort_receipts x) (rsn_pending_abort_uncertain_owner x) (rsn_abort_in_progress x)
    (rsn_active_provider_handles x) (rsn_active_start_receipts x) (rsn_active_start_action x)
    (rsn_active_client_authority x) (rsn_applied_action_ids x) (rsn_aborted_action_ids x) (rsn_completed_start_abort x).

Definition with_pending (pending : option MediaStreamPlatformAction)
    (receipts : list MediaStreamOwnerCompletionReceipt) (uncertain : option MediaStreamOwnerAction)
    (abort_receipts : list MediaStreamOwnerCompletionReceipt) (abort_uncertain : option MediaStreamOwnerAction)
    (abort : bool) x : MediaStreamSessionProductRecoverySnapshot :=
  mkRecoverySnapshot (rsn_schema_id x) (rsn_binding x) (rsn_accepted_subject x) (rsn_provider_epoch_id x)
    (rsn_lifecycle x) pending receipts uncertain abort_receipts abort_uncertain abort
    (rsn_active_provider_handles x) (rsn_active_start_receipts x) (rsn_active_start_action x)
    (rsn_active_client_authority x) (rsn_applied_action_ids x) (rsn_aborted_action_ids x) (rsn_completed_start_abort x).

Lemma wf_session x : snapshot_wf x → ∃ acc, cur_session (rsn_accepted_subject x) = Some acc.
Proof. intros Hw. destruct (acceptance_valid _ _ _ _ _ _ (wf_receipt _ Hw)) as (_ & _ & acc & Ha & _). eauto. Qed.

Lemma wf_with_subject x c acc acc' :
  snapshot_wf x → cur_session (rsn_accepted_subject x) = Some acc → cur_session c = Some acc' →
  subject_key acc' = subject_key acc → revocation_kept acc acc' →
  rev_get (cur_acceptance_state_authority_revision (rsn_accepted_subject x)) ≤
    rev_get (cur_acceptance_state_authority_revision c) →
  receipt_valid (rsn_binding x) (rsn_provider_epoch_id x) c →
  snapshot_wf (with_subject c x).
Proof.
  intros Hw Ha Ha' Hk Hr Hrev Hc.
  assert (Hok : ∀ a, action_ok x a → action_ok (with_subject c x) a).
  { intros a (acc0 & H0 & H). rewrite Ha in H0. injection H0 as <-. exists acc'. split; [done|].
    by apply (recovery_action_mono _ acc _ x). }
  destruct Hw. constructor; try assumption.
  - unfold active_wf in *. cbn. destruct (rsn_active_start_action x); [|done].
    destruct wf_active0. constructor; [by apply Hok|assumption..].
  - unfold pending_wf in *. cbn. destruct (rsn_pending_action x) as [a|]; [|done].
    destruct wf_pending0. constructor; [by apply Hok|assumption..|].
    destruct (pa_operation a); destruct pn_operation0; constructor; assumption.
  - intros r Hr'. destruct (wf_completed0 r Hr'). constructor; try assumption. by apply Hok.
Qed.

Lemma wf_with_pending x pending receipts uncertain abort_receipts abort_uncertain abort :
  let x' := with_pending pending receipts uncertain abort_receipts abort_uncertain abort x in
  snapshot_wf x → pending_wf x' → snapshot_wf x'.
Proof.
  intros x' Hw Hp. destruct Hw. constructor; try assumption.
  - unfold active_wf in *. cbn. destruct (rsn_active_start_action x); [|done].
    destruct wf_active0. constructor; assumption.
  - intros r Hr'. destruct (wf_completed0 r Hr'). constructor; assumption.
Qed.
End Invariant.
