(* ===== verification/ProductMethods.v ===== *)
(** * Product runtime: every method keeps the invariant

    On success and on every error, whatever the host, the Broker, the providers
    and the journal answer. Of the host it is assumed that its receipts are
    well-formed, that its acceptance revision does not fall and that a revocation
    is final. *)

From S2P Require Import Prelude RustStr OrdMap StateResult UpdateAdmission MediaModel MediaSpec MediaRuntime MediaLifecycle MediaComposition CleanupTicket OwnerEffect ProductBinding ProductModel ProductActions ProductSnapshot WireFrame ProductRuntime ProductOrder ProductInvariant.

Local Open Scope N_scope.
Local Open Scope quest_scope.

Section Methods.
Context {RC : ReleaseCrypto} {SpE : SpecEncoding} `{ML : ManifoldLaws} {SE : SnapshotEncoding}.
Context {J : Type} {RJ : MediaStreamRecoveryJournal J}.
Abbreviation product := (MediaStreamSessionProductRuntime (J := J)).
Implicit Types (s : product) (a : MediaStreamPlatformAction) (env : HostEnv).

(** ** The host *)

Definition host_answers env (c : CurrentReceipt) : Prop :=
  ∃ d now, he_validate_media_session env d now = c ∨ he_validate_media_session_with_live_broker_runtime env d now = Some c.

Record host_sound env s : Prop := {
  hs_final c acc acc' : host_answers env c → cur_session (mpr_current_acceptance s) = Some acc → cur_session c = Some acc' →
    subject_key acc' = subject_key acc → revocation_kept acc acc';
  hs_receipt d now : let c := he_validate_media_session env d now in
    as_str (cur_schema_id c) = MANIFOLD_MEDIA_SESSION_CURRENT_RECEIPT_SCHEMA ∧
    cur_validated_at_ms c = now ∧ rev_get (cur_acceptance_state_authority_revision c) ≠ 0 ∧
    rev_get (cur_acceptance_state_authority_revision (mpr_current_acceptance s)) ≤
      rev_get (cur_acceptance_state_authority_revision c) ∧
    ∀ acc, cur_session c = Some acc → cur_decision_id c = acc_decision_id acc ∧ acc_accepted_at_ms acc ≤ now;
}.

Lemma query_answers source env now c : query_session source env now = Ok c → host_answers env c.
Proof.
  unfold query_session, host_answers. destruct (live_broker source).
  - rewrite fail_if_bind_ok. intros [_ H]. unfold ok_or in H. destruct (he_validate_media_session_with_live_broker_runtime env _ _) eqn:E; [|done].
    injection H as <-. eauto.
  - intros [= <-]. eauto.
Qed.

(** A new receipt of the same subject. *)
Lemma adopt_wf s env c now req prior acc :
  product_wf s → host_sound env s → host_answers env c → cur_session (mpr_current_acceptance s) = Some acc →
  validate_current_acceptance (mpr_binding s) c (mpr_authority_epoch_id s) now req (Some prior) = Ok tt →
  (∀ acc0, cur_session prior = Some acc0 → subject_key acc0 = subject_key acc) →
  cur_acceptance_state_authority_revision prior = cur_acceptance_state_authority_revision (mpr_current_acceptance s) →
  product_wf (set_current_acceptance c s).
Proof.
  intros [Hw Hs] Hh Hc Ha Hv Hp Hrev. split; [|exact Hs].
  destruct (acceptance_valid _ _ _ _ _ _ Hv) as (Hr & _ & acc' & Ha' & _ & _ & Hsucc).
  destruct (acceptance_subject _ _ _ (Hsucc _ eq_refl)) as (acc0 & H0 & Hsame & Hle).
  apply same_subject_key in Hsame. rewrite (Hp _ H0) in Hsame.
  apply (wf_with_subject (snapshot_of s) c acc acc'); try done.
  - by eapply hs_final.
  - cbn. by rewrite <- Hrev.
Qed.

Lemma set_current_same s : set_current_acceptance (mpr_current_acceptance s) s = s.
Proof. by destruct s. Qed.

(** [refresh_authority] replaces the receipt or leaves everything. *)
Definition refreshed s (req : bool) now s' (r : result MediaStreamProductRuntimeError unit) : Prop :=
  product_wf s' ∧ ∃ c, s' = set_current_acceptance c s ∧
    (r = Ok tt → req = true → ∃ acc, cur_session c = Some acc ∧ acceptance_live c acc now = true).

Lemma refresh_wf s env now req :
  product_wf s → host_sound env s → wp (refresh_authority env now req) (refreshed s req now) s.
Proof.
  intros Hw Hh. assert (Hsame : ∀ e, refreshed s req now s (Err e)).
  { intros e. split; [done|]. exists (mpr_current_acceptance s). by rewrite set_current_same. }
  unfold refresh_authority. do 2 (wp_step; wp_step; [by intros _|]).
  do 2 wp_step. destruct (query_session (mpr_authority s) env now) as [c|e] eqn:Eq; [|apply Hsame].
  do 2 wp_step. destruct (validate_current_acceptance _ _ _ _ _ _) as [[]|e] eqn:Ev; [|apply Hsame].
  wp_step. destruct (wf_session _ (proj1 Hw)) as [acc Ha]. split.
  - eapply adopt_wf; [done..|by eapply query_answers|exact Ha|exact Ev| |done].
    intros acc0 H0. cbn in Ha. rewrite H0 in Ha. by injection Ha as ->.
  - exists c. split; [done|]. intros _ ->.
    destruct (acceptance_valid _ _ _ _ _ _ Ev) as (_ & _ & acc' & Ha' & _ & Hlive & _). eauto.
Qed.

(** ** Preparing *)

Definition reviewed (action_id : string) (operation : MediaStreamPlatformOperation)
    (client : MediaStreamClientAuthorityBinding) s : Prop :=
  is_blank action_id = false ∧ ids_contain (mpr_applied_action_ids s) action_id = false ∧
  ids_contain (mpr_aborted_action_ids s) action_id = false ∧
  mpr_pending_action s = None ∧ mpr_completed_start_abort s = None ∧
  mpr_cleanup_only_after_restore s = false ∧ client_authority_missing client = false ∧
  (∃ acc, cur_session (mpr_current_acceptance s) = Some acc ∧ client_authority_differs acc client operation = false) ∧
  review_phase operation client s = Ok tt.

Lemma is_Some_false {A} (o : option A) : bool_decide (is_Some o) = false ↔ o = None.
Proof. rewrite bool_decide_eq_false, eq_None_not_Some. done. Qed.

Lemma review_prepare_wf s env action_id operation client now :
  product_wf s → host_sound env s →
  wp (review_prepare env action_id operation client now)
    (fun s' r => product_wf s' ∧ (∃ c, s' = set_current_acceptance c s) ∧ (r = Ok tt → reviewed action_id operation client s')) s.
Proof.
  intros Hw Hh. assert (Hsame : ∀ r : result MediaStreamProductRuntimeError unit, r ≠ Ok tt → product_wf s ∧ (∃ c, s = set_current_acceptance c s) ∧
    (r = Ok tt → reviewed action_id operation client s)).
  { intros r Hr. split; [done|]. split; [|done]. exists (mpr_current_acceptance s). by rewrite set_current_same. }
  unfold review_prepare. do 2 (wp_step; wp_step; [by intros _; apply Hsame|]).
  wp_step. eapply wp_mono; [|by apply refresh_wf]. intros s1 r (Hw1 & (c & -> & _)). set (s1 := set_current_acceptance c s) in *.
  destruct r as [[]|e]; [|split; [done|]; split; [by exists c|done]].
  do 5 (wp_step; wp_step; [intros _; split; [done|]; split; [by exists c|done]|]).
  do 2 wp_step. destruct (cur_session (mpr_current_acceptance s1)) as [acc|] eqn:Ea; cbn [ok_or];
    [|split; [done|]; split; [by exists c|done]].
  wp_step. wp_step; [intros _; split; [done|]; split; [by exists c|done]|]. wp_step.
  split; [done|]. split; [by exists c|]. intros Hphase. apply orb_false_iff in Hok2 as [Hok2 Hok2'].
  unfold reviewed. apply is_Some_false in Hok3. apply is_Some_false in Hok4. split_and!; try done. eauto.
Qed.

Lemma ids_contain_false ids id : ids_contain ids id = false → id ∉ ids.*1.
Proof. unfold ids_contain. by rewrite is_Some_false, (om_get_None String.compare). Qed.

(** The prepared action is the one that recovery accepts. *)
Lemma make_action_ok s action_id operation client evidence acc :
  product_wf s → cur_session (mpr_current_acceptance s) = Some acc → is_blank action_id = false →
  recovery_client_mismatch acc client = false →
  match evidence with
  | None => ca_operation_capability_id client = operation_capability operation
  | Some evidence => recovery_evidence_invalid acc operation evidence = false
  end →
  action_ok (snapshot_of s) (make_action action_id operation client evidence acc s).
Proof.
  intros [Hw _] Ha Hid Hc He. exists acc. split; [done|]. unfold validate_recovery_action. apply fail_if_ok.
  pose proof (wf_receipt _ Hw) as Hr. unfold receipt_valid, validate_current_acceptance in Hr.
  apply fail_if_bind_ok in Hr as [Hr _]. cbn in Hr |- *. rewrite !String.eqb_refl, !N.eqb_refl, Hid, Hc.
  apply orb_false_iff in Hr as [[_ Hr]%orb_false_iff _]. rewrite Hr, N.ltb_irrefl. cbn.
  rewrite (bool_decide_true (ordered_owner_actions _ _ = _)) by done. cbn. rewrite orb_false_r.
  destruct evidence as [ev|]; cbn.
  - by rewrite He.
  - by rewrite He, String.eqb_refl.
Qed.

Lemma reviewed_client acc client op :
  client_authority_missing client = false → client_authority_differs acc client op = false →
  recovery_client_mismatch acc client = false ∧ ca_operation_capability_id client = operation_capability op.
Proof.
  unfold client_authority_missing, client_authority_differs, recovery_client_mismatch.
  rewrite !orb_false_iff, !negb_false_iff, !String.eqb_eq.
  intros H1 H2. destruct_and!. split; [|done]. split_and!; done || (symmetry; done).
Qed.

Lemma prepared_wf s action_id operation client :
  product_wf s → reviewed action_id operation client s →
  ∀ acc, cur_session (mpr_current_acceptance s) = Some acc →
  let a := make_action action_id operation client None acc s in
  product_wf (s |> set_pending_owner_receipts [] |> set_pending_uncertain_owner None
                |> set_pending_abort_receipts [] |> set_pending_abort_uncertain_owner None
                |> set_abort_in_progress false |> set_pending_action (Some a)).
Proof.
  intros Hw (Hid & Hap & Hab & Hpend & Hcomp & _ & Hmiss & (acc' & Ha' & Hdiff) & Hphase) acc Ha a.
  rewrite Ha in Ha'. injection Ha' as <-.
  destruct (reviewed_client _ _ _ Hmiss Hdiff) as [Hcl Hcap].
  assert (Hok : action_ok (snapshot_of s) a) by (by apply make_action_ok).
  split; [|exact (proj2 Hw)].
  change (snapshot_wf (with_pending (Some a) [] None [] None false (snapshot_of s))).
  apply wf_with_pending; [exact (proj1 Hw)|]. unfold pending_wf. cbn.
  constructor; cbn; try done.
  - split; by apply ids_contain_false.
  - apply prefix_nil.
  - split; constructor.
  - unfold review_phase in Hphase. pose proof (wf_phase _ (proj1 Hw)) as Hp. unfold phase_wf in Hp. cbn in Hp.
    pose proof (wf_active _ (proj1 Hw)) as Hact. unfold active_wf in Hact. cbn in Hact.
    destruct operation; cbn.
    + destruct (mrs_phase (msr_state (mpr_runtime s))) eqn:Ep; try done. destruct Hp as (_ & _ & _ & Hnone).
      constructor; cbn; try done. constructor; [apply prefix_nil|constructor|done].
    + destruct (mpr_active_client_authority s) as [client0|] eqn:Ecl;
        [|by destruct (mrs_phase (msr_state (mpr_runtime s)))].
      assert (same_session_holder client0 client = true) as Hsame.
      { destruct (mrs_phase (msr_state (mpr_runtime s))); try done; apply fail_if_ok, negb_false_iff in Hphase; done. }
      destruct (mpr_active_start_action s) as [start|] eqn:Est; [|naive_solver].
      constructor; cbn; try done.
      * exists start. unfold start_of. cbn. rewrite Est. split; [done|]. destruct Hact. cbn in *. congruence.
      * set_solver.
      * rewrite Hcomp. by intros [].
Qed.

Lemma prepare_wf s env action_id operation client now :
  product_wf s → host_sound env s →
  wp (prepare env action_id operation client now) (fun s' _ => product_wf s') s.
Proof.
  intros Hw Hh. unfold prepare. wp_step. eapply wp_mono; [|by apply review_prepare_wf].
  intros s1 [[]|e] (Hw1 & _ & Hr); [|done]. specialize (Hr eq_refl).
  do 2 wp_step. destruct (cur_session (mpr_current_acceptance s1)) as [acc|] eqn:Ea; cbn [ok_or]; [|done].
  do 5 wp_step. eapply wp_mono; [|apply commit_wf; by eapply prepared_wf].
  intros s2 [[]|e] Hw2; [by apply wp_ret|done].
Qed.

Lemma prepare_with_live_authority_wf s env action_id operation client now :
  product_wf s → host_sound env s →
  wp (prepare_with_live_authority env action_id operation client now) (fun s' _ => product_wf s') s.
Proof.
  intros Hw Hh. unfold wp, prepare_with_live_authority.
  destruct (prepare env action_id operation client now s) as [s1 [a|e]] eqn:E.
  - exact (wp_run _ _ _ _ _ E (prepare_wf _ _ _ _ _ _ Hw Hh)).
  - destruct (mpr_recovery_journal_poisoned s1); [apply wf_set_poisoned|]; by apply wf_set_journal.
Qed.

(** ** Owner completions *)

(** [commit_recovery_journal] touches nothing but the journal. *)
Lemma commit_frame s (Q : product → result MediaStreamProductRuntimeError unit → Prop) :
  (∀ j b r, (r = Ok tt → b = mpr_recovery_journal_poisoned s) →
     Q (set_recovery_journal_poisoned b (set_recovery_journal j s)) r) →
  wp commit_recovery_journal Q s.
Proof.
  intros HQ. assert (Hsame : ∀ r, Q s r).
  { intros r. replace s with (set_recovery_journal_poisoned (mpr_recovery_journal_poisoned s)
      (set_recovery_journal (mpr_recovery_journal s) s)) at 1 by (by destruct s). by apply HQ. }
  unfold wp, commit_recovery_journal. destruct (mpr_recovery_journal_poisoned s) eqn:Ep; [apply Hsame|].
  destruct (mpr_recovery_journal s) as [j|]; [|apply Hsame].
  destruct (recovery_snapshot s) as [snap|e]; [|apply Hsame].
  destruct (journal_commit j snap) as [j' [[]|e]].
  - replace (set_recovery_journal (Some j') s) with
      (set_recovery_journal_poisoned false (set_recovery_journal (Some j') s)) by (destruct s; cbn in Ep; subst; done).
    by apply HQ.
  - by apply HQ.
Qed.

(** An owner whose provider is being called. *)
Record inflight s a (expected : MediaStreamOwnerAction) (sequence : nat) : Prop := {
  if_action : mpr_pending_action s = Some a;
  if_sequence : sequence = length (mpr_pending_owner_receipts s);
  if_expected : pa_owner_actions a !! sequence = Some expected;
  if_uncertain : mpr_pending_uncertain_owner s = Some expected;
  if_abort : mpr_abort_in_progress s = false;
}.

Lemma pending_of s a : product_wf s → mpr_pending_action s = Some a → pending_action_wf (snapshot_of s) a.
Proof. intros [Hw _] Ha. pose proof (wf_pending _ Hw) as Hp. unfold pending_wf in Hp. cbn in Hp. by rewrite Ha in Hp. Qed.

(** Any change of the pending fields that keeps their invariant. *)
Lemma pending_update_wf s s' a :
  product_wf s → msr_spec (mpr_runtime s') = msr_spec (mpr_runtime s) → mpr_binding s' = mpr_binding s →
  snapshot_of s' = with_pending (Some a) (mpr_pending_owner_receipts s') (mpr_pending_uncertain_owner s')
    (mpr_pending_abort_receipts s') (mpr_pending_abort_uncertain_owner s') (mpr_abort_in_progress s') (snapshot_of s) →
  pending_action_wf (snapshot_of s') a → product_wf s'.
Proof.
  intros [Hw Hs] Er Eb Es Hp. split; [|congruence]. rewrite Es in Hp |- *. by apply wf_with_pending.
Qed.

Lemma mark_wf s a expected sequence :
  product_wf s → mpr_pending_action s = Some a → sequence = length (mpr_pending_owner_receipts s) →
  pa_owner_actions a !! sequence = Some expected → mpr_abort_in_progress s = false →
  product_wf (set_pending_uncertain_owner (Some expected) s).
Proof.
  intros Hw Ha -> He Hab. pose proof (pending_of _ _ Hw Ha) as Hp.
  apply (pending_update_wf s _ a); [done..|cbn; unfold snapshot_of; cbn; by rewrite <- Ha|].
  destruct Hp. constructor; cbn in *; try done.
  - intros o [= <-]. done.
  - destruct (pa_operation a); destruct pn_operation; constructor; cbn in *; try done.
    + destruct (ps_idle Hab) as [-> _]. constructor; [apply prefix_nil|constructor|done].
    + destruct (ps_idle Hab) as [_ ->]. done.
Qed.

Lemma begin_owner_wf s env kind provider_kind now :
  product_wf s → host_sound env s →
  wp (begin_owner env kind provider_kind now)
    (fun s' r => product_wf s' ∧
       match r with Ok (a, expected, sequence) => inflight s' a expected sequence | Err _ => True end) s.
Proof.
  intros Hw Hh. unfold begin_owner. do 2 (wp_step; wp_step; [by intros _|]). do 2 wp_step.
  wp_step. eapply wp_mono; [|by apply refresh_wf]. intros s1 [[]|e] (Hw1 & c & -> & _); [|done].
  set (s1 := set_current_acceptance c s) in *.
  do 2 wp_step. destruct (mpr_pending_action s1) as [a|] eqn:Ea; cbn [ok_or]; [|done].
  do 4 wp_step. destruct (pa_owner_actions a !! length (mpr_pending_owner_receipts s1)) as [expected|] eqn:Ee;
    cbn [ok_or]; [|done].
  do 2 (wp_step; wp_step; [by intros _|]). do 3 wp_step.
  apply commit_frame. intros j b r Hr. assert (Hm : product_wf (set_pending_uncertain_owner (Some expected) s1)).
  { by eapply mark_wf. }
  destruct r as [[]|e]; [apply wp_ret|]; (split; [by apply wf_set_poisoned, wf_set_journal|]); [|done].
  by constructor.
Qed.

Lemma begin_uncertain_stop_wf s env provider_kind now :
  product_wf s → host_sound env s →
  wp (begin_uncertain_stop env provider_kind now)
    (fun s' r => product_wf s' ∧
       match r with Ok (a, expected, sequence) => inflight s' a expected sequence ∧ pa_operation a = OpStop
       | Err _ => True end) s.
Proof.
  intros Hw Hh. unfold begin_uncertain_stop. wp_step; wp_step; [by intros _|].
  do 2 wp_step. destruct (mpr_pending_action s) as [a|] eqn:Ea; cbn [option_bind mbind ok_or]; [|done].
  case_bool_decide as Hop; cbn [ok_or]; [|done]. do 2 wp_step.
  destruct (mpr_pending_uncertain_owner s) as [expected|] eqn:Eu; cbn [ok_or]; [|done]. do 2 wp_step.
  do 2 (wp_step; wp_step; [by intros _|]).
  wp_step. eapply wp_mono; [|by apply refresh_wf]. intros s1 [[]|e] (Hw1 & c & -> & _); [|done].
  wp_step. apply commit_frame. intros j b r Hr. bool_to_prop.
  destruct r as [[]|e]; [apply wp_ret|]; (split; [by apply wf_set_poisoned, wf_set_journal|]); [|done].
  by split; [constructor|].
Qed.

(** A receipt made from a matching readback matches its owner. *)
Lemma completion_matches a expected readback sequence receipt :
  readback_mismatch a expected readback = false → completion_receipt expected readback sequence = Ok receipt →
  receipt_matches (N.of_nat sequence) expected receipt = true ∧ ocr_completion_sequence receipt = N.of_nat sequence + 1 ∧
  ocr_selection receipt = oa_selection expected ∧ ocr_receipt_id receipt = prb_receipt_id readback ∧
  ocr_provider_handle_id receipt = prb_provider_handle_id readback ∧
  ocr_provider_state_revision receipt = prb_provider_state_revision readback.
Proof.
  unfold readback_mismatch, completion_receipt, u32_try_from. rewrite !orb_false_iff. intros H. destruct_and! H.
  destruct (N.leb_spec (N.of_nat sequence + 1) u32_max) as [Hle|]; [|done]. cbn. intros [= <-].
  unfold receipt_matches, sequence_number. cbn. rewrite N.min_l by done.
  split_and!; try done. rewrite !andb_true_iff, !negb_true_iff. bool_to_prop.
  split_and!; try done; rewrite ?bool_decide_eq_true, ?N.eqb_eq, ?N.ltb_lt, ?String.eqb_eq; done || lia.
Qed.

Lemma existsb_false {A} (p : A → bool) l x : existsb p l = false → x ∈ l → p x = false.
Proof. intros H Hx. apply not_true_is_false. intros Hp. rewrite <- not_true_iff_false, existsb_exists in H. apply H. exists x. by rewrite <- list_elem_of_In. Qed.

Lemma distinct_snoc receipts receipt :
  distinct_receipts receipts →
  existsb (fun r => (ocr_receipt_id r =? ocr_receipt_id receipt)%string ||
                    (ocr_provider_handle_id r =? ocr_provider_handle_id receipt)%string) receipts = false →
  distinct_receipts (receipts ++ [receipt]).
Proof.
  intros [H1 H2] He. unfold distinct_receipts. rewrite !fmap_app. cbn. split; apply NoDup_app; split_and!; try done.
  2, 4: apply NoDup_singleton.
  all: intros x (r & -> & Hr)%list_elem_of_fmap Heq%list_elem_of_singleton; apply (existsb_false _ _ _ He) in Hr;
    apply orb_false_iff in Hr as [Hr1 Hr2]; bool_to_prop; done.
Qed.

(** The snapshot's handle of an owner is the one the runtime looks up. *)
Lemma find_handle sel (m : list (MediaStreamOwnerSelection * (string * N))) :
  List.find (fun h => bool_decide (rph_selection h = sel))
    ((fun '(selection, (handle, revision)) => mkRecoveryHandle selection handle revision) <$> m) =
  (fun '(handle, revision) => mkRecoveryHandle sel handle revision) <$> om_get compare_selection sel m.
Proof.
  induction m as [|[sel' [h r]] m IH]; [done|]. cbn. destruct (compare_selection sel sel') eqn:C.
  - apply (cmp_eq (cmp := compare_selection)) in C as ->. by rewrite bool_decide_true.
  - rewrite bool_decide_false; [done|]. intros ->. by rewrite (cmp_refl compare_selection) in C.
  - rewrite bool_decide_false; [done|]. intros ->. by rewrite (cmp_refl compare_selection) in C.
Qed.

Lemma handle_lifecycle_stop s a expected readback receipt :
  pa_operation a = OpStop → handle_lifecycle_mismatch a expected readback s = false →
  ocr_selection receipt = oa_selection expected → ocr_provider_handle_id receipt = prb_provider_handle_id readback →
  ocr_provider_state_revision receipt = prb_provider_state_revision readback →
  stop_receipt_invalid (snapshot_of s) receipt = false.
Proof.
  unfold handle_lifecycle_mismatch, stop_receipt_invalid. intros -> H -> -> ->. cbn.
  destruct (mpr_completed_start_abort s) as [record|].
  - apply orb_false_iff in H as [_ H]. by destruct (List.find _ _).
  - rewrite find_handle. destruct (om_get compare_selection _ _) as [[h r]|]; [|done]. cbn.
    by rewrite String.eqb_sym.
Qed.

Lemma recorded_wf s a expected sequence readback receipt :
  product_wf s → inflight s a expected sequence → readback_mismatch a expected readback = false →
  existsb (fun r => (ocr_receipt_id r =? prb_receipt_id readback)%string ||
                    (ocr_provider_handle_id r =? prb_provider_handle_id readback)%string)
    (mpr_pending_owner_receipts s) = false →
  handle_lifecycle_mismatch a expected readback s = false →
  completion_receipt expected readback sequence = Ok receipt →
  product_wf (s |> set_pending_owner_receipts (mpr_pending_owner_receipts s ++ [receipt])
                |> set_pending_uncertain_owner None).
Proof.
  intros Hw [Ha -> He Hu Hab] Hm Hd Hh Hr. pose proof (pending_of _ _ Hw Ha) as Hp.
  destruct (completion_matches _ _ _ _ _ Hm Hr) as (Hmatch & Hseq & Hsel & Hid & Hhandle & Hrev).
  apply (pending_update_wf s _ a); [done..|cbn; unfold snapshot_of; cbn; by rewrite <- Ha|].
  destruct Hp. cbn in pn_prefix, pn_distinct, pn_operation. constructor; cbn; try done.
  - by eapply prefix_snoc.
  - apply distinct_snoc; [done|]. by rewrite Hid, Hhandle.
  - destruct (pa_operation a) eqn:Eop; destruct pn_operation; constructor; cbn in *; try done.
    + destruct (ps_idle Hab) as [-> _]. constructor; [apply prefix_nil|constructor|done].
    + destruct (ps_idle Hab) as [_ ->]. done.
    + intros r [Hin| ->%list_elem_of_singleton]%elem_of_app; [by apply pt_handles in Hin|].
      by eapply (handle_lifecycle_stop s).
Qed.

Lemma record_owner_readback_wf s a expected verified readback sequence :
  product_wf s → inflight s a expected sequence →
  wp (record_owner_readback a expected verified readback sequence) (fun s' _ => product_wf s') s.
Proof.
  intros Hw Hi. unfold record_owner_readback. wp_step; wp_step; [by intros _|]. wp_step; wp_step; [by intros _|].
  do 2 wp_step. destruct (completion_receipt expected readback sequence) as [receipt|e] eqn:Er; [|done].
  do 3 wp_step. apply orb_false_iff in Hok as [[Hm _]%orb_false_iff Hd].
  eapply wp_mono; [|apply commit_wf; by eapply recorded_wf]. intros s' [[]|e] Hw'; [by apply wp_ret|done].
Qed.

(** ** Rolling back *)

Lemma rev_lookup {A} (l : list A) k : (k < length l)%nat → rev l !! k = l !! (length l - S k)%nat.
Proof.
  intros Hk. revert k Hk. induction l as [|x l IH]; cbn; intros k Hk; [lia|].
  destruct (decide (k < length l)%nat) as [Hlt|Hge].
  - rewrite lookup_app_l by (by rewrite length_rev). rewrite IH by done.
    replace (length l - k)%nat with (S (length l - S k))%nat by lia. done.
  - assert (k = length l) as -> by lia. rewrite lookup_app_r by (rewrite length_rev; lia). rewrite length_rev, !Nat.sub_diag. done.
Qed.

Record abort_inflight s a (call : AbortCall) : Prop := {
  ai_action : mpr_pending_action s = Some a;
  ai_start : pa_operation a = OpStart;
  ai_abort : mpr_abort_in_progress s = true;
  ai_call : let '(action, expected, sequence, started, _) := call in
    action = partial_start_abort_action a (mpr_pending_owner_receipts s) (mpr_pending_uncertain_owner s) ∧
    sequence = length (mpr_pending_abort_receipts s) ∧ pa_owner_actions action !! sequence = Some expected ∧
    mpr_pending_abort_uncertain_owner s = Some expected ∧ started_for sequence s = Ok started;
}.

Lemma abort_pending s : product_wf s → mpr_abort_in_progress s = true →
  ∃ a, mpr_pending_action s = Some a ∧ pa_operation a = OpStart ∧ pending_start_wf (snapshot_of s) a.
Proof.
  intros [Hw _] Hab. pose proof (wf_pending _ Hw) as Hp. unfold pending_wf in Hp. cbn in Hp.
  destruct (mpr_pending_action s) as [a|]; [|destruct_and!; congruence]. exists a. split; [done|].
  destruct Hp. destruct (pa_operation a); [done|]. destruct pn_operation. cbn in *. congruence.
Qed.

Lemma begin_partial_start_abort_wf s :
  product_wf s → wp begin_partial_start_abort (fun s' _ => product_wf s') s.
Proof.
  intros Hw. unfold begin_partial_start_abort. do 2 wp_step.
  destruct (mpr_pending_action s) as [a|] eqn:Ea; cbn [ok_or]; [|done].
  do 2 (wp_step; wp_step; [by intros _|]). do 3 wp_step.
  eapply wp_mono; [|apply commit_wf; apply (pending_update_wf s _ a); [done..|cbn; unfold snapshot_of; cbn; by rewrite <- Ea|]].
  { intros s' [[]|e] Hw'; [by apply wp_gets|done]. }
  bool_to_prop. destruct (pending_of _ _ Hw Ea). constructor; cbn in *; try done. rewrite Hok in *.
  destruct pn_operation. constructor; cbn in *; try done. constructor; [apply prefix_nil|constructor|done].
Qed.

Lemma begin_abort_owner_wf s provider_kind :
  product_wf s →
  wp (begin_abort_owner provider_kind)
    (fun s' r => product_wf s' ∧ match r with Ok call => ∃ a, abort_inflight s' a call | Err _ => True end) s.
Proof.
  intros Hw. unfold begin_abort_owner. wp_step; wp_step; [by intros _|]. apply negb_false_iff in Hok.
  destruct (abort_pending _ Hw Hok) as (a & Ha & Hop & Hps). do 4 wp_step.
  destruct (started_for (length (mpr_pending_abort_receipts s)) s) as [started|e] eqn:Est; [|done]. do 2 wp_step.
  unfold pending_abort_action. rewrite Hok, Ha. cbn [fmap option_fmap option_map ok_or]. do 2 wp_step.
  destruct (pa_owner_actions _ !! length (mpr_pending_abort_receipts s)) as [expected|] eqn:Ee; cbn [ok_or]; [|done].
  do 2 (wp_step; wp_step; [by intros _|]). do 5 wp_step. clear Hok0.
  set (s1 := if bool_decide (is_Some (mpr_pending_abort_uncertain_owner s)) then s
             else set_pending_abort_uncertain_owner (Some expected) s).
  assert (Hs1 : product_wf s1 ∧ mpr_pending_abort_uncertain_owner s1 = Some expected ∧
    ∃ u, s1 = set_pending_abort_uncertain_owner u s).
  { unfold s1. case_bool_decide as Hu.
    - destruct Hu as [u Hu]. rewrite Hu in Hok1. bool_to_prop. subst u. split_and!; [done..|].
      exists (mpr_pending_abort_uncertain_owner s). by destruct s.
    - split_and!; [|done|by exists (Some expected)].
      apply (pending_update_wf s _ a); [done..|cbn; unfold snapshot_of; cbn; by rewrite <- Ha|].
      destruct (pending_of _ _ Hw Ha). constructor; cbn in *; try done. rewrite Hop in *. destruct pn_operation.
      constructor; cbn in *; try done; [congruence|]. by intros o [= <-]. }
  destruct Hs1 as (Hw1 & Hu1 & u & Es1). apply commit_frame. intros j b r _.
  destruct r as [[]|e]; [apply wp_ret|]; (split; [by apply wf_set_poisoned, wf_set_journal|]); [|done].
  exists a. rewrite Es1 in Hu1 |- *. by constructor.
Qed.
End Methods.
