(* ===== verification/ProductAdvance.v ===== *)
(** * Product runtime: rolling back, applying and adopting keep the invariant *)

From S2P Require Import Prelude RustStr OrdMap StateResult UpdateAdmission MediaModel MediaSpec MediaRuntime MediaLifecycle MediaComposition CleanupTicket OwnerEffect ProductBinding ProductModel ProductActions ProductSnapshot WireFrame ProductRuntime ProductOrder ProductInvariant ProductMethods.

Local Open Scope N_scope.
Local Open Scope quest_scope.

Section Advance.
Context {RC : ReleaseCrypto} {SpE : SpecEncoding} `{ML : ManifoldLaws} {SE : SnapshotEncoding}.
Context {J : Type} {RJ : MediaStreamRecoveryJournal J}.
Abbreviation product := (MediaStreamSessionProductRuntime (J := J)).
Implicit Types (s : product) (a : MediaStreamPlatformAction) (env : HostEnv).

(** ** Rolling back *)

(** The receipt reverses the completion that [started_for] found. *)
Lemma started_reversed s sequence started receipt :
  started_for sequence s = Ok started →
  (∀ start, started = Some start → not_reversed receipt start = false) →
  abort_receipt_invalid (mpr_pending_uncertain_owner s) (mpr_pending_owner_receipts s) sequence receipt = false.
Proof.
  unfold started_for, abort_receipt_invalid. set (offset := length (option_list _)).
  destruct (Nat.ltb_spec sequence offset) as [|Ho]; [done|].
  destruct (Nat.ltb_spec (length (mpr_pending_owner_receipts s)) (sequence - offset + 1)) as [|Hl]; [done|].
  intros [= <-] Hr. rewrite rev_lookup by lia.
  replace (length (mpr_pending_owner_receipts s) - S (sequence - offset))%nat with
    (length (mpr_pending_owner_receipts s) - (sequence - offset + 1))%nat by lia.
  destruct (_ !! _) as [start|] eqn:E; [by apply Hr|]. apply lookup_ge_None in E. lia.
Qed.

Lemma rollback_snoc a uncertain started rollback expected receipt :
  rollback_wf a uncertain started rollback →
  pa_owner_actions (partial_start_abort_action a started uncertain) !! length rollback = Some expected →
  receipt_matches (len rollback) expected receipt = true → ocr_completion_sequence receipt = len rollback + 1 →
  ocr_receipt_id receipt ∉ ocr_receipt_id <$> rollback →
  abort_receipt_invalid uncertain started (length rollback) receipt = false →
  rollback_wf a uncertain started (rollback ++ [receipt]).
Proof.
  intros [Hp Hd Hr] He Hm Hs Hn Hi. constructor.
  - by eapply prefix_snoc.
  - rewrite fmap_app. apply NoDup_app. split_and!; [done| |apply NoDup_singleton]. set_solver.
  - intros i r [H|[Hle H]]%lookup_app_Some; [by eapply Hr|].
    apply list_lookup_singleton_Some in H as [Hi' <-]. by replace i with (length rollback) by lia.
Qed.

Lemma record_abort_readback_wf s a call verified readback :
  product_wf s → abort_inflight s a call →
  wp (record_abort_readback call verified readback) (fun s' _ => product_wf s') s.
Proof.
  intros Hw [Ha Hop Hab Hcall]. destruct call as [[[[action expected] sequence] started] retrying].
  destruct Hcall as (Hact & -> & He & Hu & Hst). unfold record_abort_readback.
  wp_step; wp_step; [by intros _|]. rewrite !orb_false_iff in Hok. destruct Hok as (((Hm & Hh) & _) & Hd).
  do 2 wp_step. destruct (completion_receipt _ _ _) as [receipt|e] eqn:Er; [|done]. do 3 wp_step.
  destruct (completion_matches _ _ _ _ _ Hm Er) as (Hmatch & Hseq & Hsel & Hid & Hhandle & Hrev).
  eapply wp_mono; [|apply commit_wf, (pending_update_wf s _ a);
    [done..|cbn; unfold snapshot_of; cbn; by rewrite <- Ha|]]; [by intros s' [[]|e] Hw'; [apply wp_ret|]|].
  destruct (pending_of _ _ Hw Ha). rewrite Hop in *. constructor; try done. rewrite Hop.
  destruct pn_operation. constructor; try done; [cbn; congruence|]. subst action. eapply rollback_snoc; try done.
  - intros (r & Hr & Hin)%list_elem_of_fmap. apply (existsb_false _ _ _ Hd) in Hin. bool_to_prop. congruence.
  - apply (started_reversed s _ started); [done|]. intros start ->. unfold not_reversed. by rewrite Hhandle, Hrev.
Qed.

(** ** Finalizing *)

Lemma action_ok_start x a : action_ok x a → pa_operation a = OpStart → pa_trusted_revoker_cleanup a = None.
Proof.
  intros (acc & _ & H) Hop. unfold validate_recovery_action in H. apply fail_if_ok in H. rewrite !orb_false_iff in H.
  destruct_and! H. destruct (pa_trusted_revoker_cleanup a) as [ev|]; [|done].
  unfold recovery_evidence_invalid in *. rewrite Hop in *. done.
Qed.

Lemma action_ok_id x a : action_ok x a → is_blank (pa_action_id a) = false.
Proof.
  intros (acc & _ & H). unfold validate_recovery_action in H. apply fail_if_ok in H. rewrite !orb_false_iff in H.
  by destruct_and! H.
Qed.

Lemma abort_actions_length a completed uncertain :
  length (pa_owner_actions (partial_start_abort_action a completed uncertain)) =
  (length completed + length (option_list uncertain))%nat.
Proof. cbn. rewrite length_app, !length_fmap, length_rev. lia. Qed.

(** An identifier that is added to a set of identifiers. *)
Lemma insert_id_elem (ids : list (string * unit)) id x :
  x ∈ (om_insert String.compare id tt ids).*1 ↔ x = id ∨ x ∈ ids.*1.
Proof. apply (om_insert_keys String.compare). Qed.

Lemma finalized_wf s a :
  product_wf s → mpr_pending_action s = Some a → mpr_abort_in_progress s = true →
  length (mpr_pending_abort_receipts s) =
    (length (mpr_pending_owner_receipts s) + length (option_list (mpr_pending_uncertain_owner s)))%nat →
  product_wf (s
    |> set_completed_start_abort (Some (mkCompletedStartAbort COMPLETED_START_ABORT_SCHEMA a
         (mpr_pending_owner_receipts s) (mpr_pending_uncertain_owner s)
         (partial_start_abort_action a (mpr_pending_owner_receipts s) (mpr_pending_uncertain_owner s))
         (mpr_pending_abort_receipts s)))
    |> set_aborted_action_ids (om_insert String.compare (pa_action_id a) tt (mpr_aborted_action_ids s))
    |> set_pending_action None |> set_pending_owner_receipts [] |> set_pending_uncertain_owner None
    |> set_pending_abort_receipts [] |> set_pending_abort_uncertain_owner None |> set_abort_in_progress false).
Proof.
  intros Hw Ha Hab Hlen. destruct (abort_pending _ Hw Hab) as (a' & Ha' & Hop & Hps).
  rewrite Ha in Ha'. injection Ha' as <-. destruct (pending_of _ _ Hw Ha) as [Hok Hfresh Hrev Hpre Hdis Hnext _].
  destruct Hps as [Hact Hcomp Hphase _ Hrb _]. destruct Hw as [Hw Hs]. split; [|exact Hs]. destruct Hw.
  pose proof wf_phase as Hp. unfold phase_wf in Hp. rewrite Hphase in Hp. destruct Hp as (Hr1 & _ & Happ & _).
  cbn in *. constructor; cbn; try done.
  - by apply (om_insert_sorted String.compare).
  - intros id. rewrite insert_id_elem. intros [H|[->|H]]; [auto|by eapply action_ok_id|auto].
  - intros id Hid. rewrite insert_id_elem. rewrite Happ in Hid. set_solver.
  - unfold phase_wf in *. cbn in *. rewrite Hphase in *. done.
  - unfold active_wf in *. cbn in *. by rewrite Hact in *.
  - intros record [= <-]. constructor; cbn; try done.
    + by eapply action_ok_start.
    + congruence.
    + apply insert_id_elem. by left.
    + by rewrite Hlen, <- (abort_actions_length a).
Qed.

Lemma finalize_wf s : product_wf s → wp finalize_partial_start_abort (fun s' _ => product_wf s') s.
Proof.
  intros Hw. unfold finalize_partial_start_abort. do 3 (wp_step; wp_step; [by intros _|]). do 2 wp_step.
  wp_step; wp_step; [by intros _|]. do 2 wp_step.
  destruct (mpr_pending_action s) as [a|] eqn:Ea; cbn [ok_or]; [|done]. do 5 wp_step.
  bool_to_prop. eapply wp_mono; [|apply commit_wf; by apply finalized_wf].
  by intros s' [[]|e] Hw'; [apply wp_gets|].
Qed.

(** ** Applying *)

Lemma execute_admissible s r :
  request_admissible (msr_state (mpr_runtime s)) r →
  ∃ d, execute_lifecycle r s =
    (set_runtime (mkSessionRuntime (msr_spec (mpr_runtime s))
       (advance (msr_state (mpr_runtime s)) r (action_phase (mrq_action r)))) s, Ok d).
Proof.
  intros Hr. unfold execute_lifecycle. destruct (execute_cases (mpr_runtime s) r) as [(p & _ & Hp & ->)|(? & Hn & _)]; [|done].
  rewrite <- (step_target _ _ _ _ Hp). eexists. reflexivity.
Qed.

Lemma execute_refused s r :
  ¬ request_admissible (msr_state (mpr_runtime s)) r → execute_lifecycle r s = (s, Err LifecycleRejected).
Proof.
  intros Hr. unfold execute_lifecycle. destruct (execute_cases (mpr_runtime s) r) as [(p & Ha & _)|(reason & _ & ->)]; [done|].
  cbn. by destruct s.
Qed.

(** The lifecycle after an applied Start or Stop. *)
Definition started_lifecycle (a : MediaStreamPlatformAction) (st : MediaStreamRuntimeState) : MediaStreamRuntimeState :=
  mkRuntimeState (mrs_schema st) (mrs_runtime_spec_id st) 3 SourcesStarted
    [pa_action_id a ++ ".arm_receivers"; pa_action_id a ++ ".start_sources"]%string.

Definition stopped_lifecycle (a : MediaStreamPlatformAction) (st : MediaStreamRuntimeState) : MediaStreamRuntimeState :=
  mkRuntimeState (mrs_schema st) (mrs_runtime_spec_id st) (mrs_runtime_revision st + 1) Stopped
    (mrs_applied_request_ids st ++ [pa_action_id a ++ ".cleanup"]%string).

Definition with_state (st : MediaStreamRuntimeState) (s : product) : product :=
  set_runtime (mkSessionRuntime (msr_spec (mpr_runtime s)) st) s.

Lemma advance_start s a :
  product_wf s → mpr_pending_action s = Some a → pa_operation a = OpStart →
  ∃ ds, advance_lifecycle a s = (with_state (started_lifecycle a (msr_state (mpr_runtime s))) s, Ok ds).
Proof.
  intros Hw Ha Hop. destruct (pending_of _ _ Hw Ha) as [_ _ Hrev _ _ _ Hps]. rewrite Hop in Hps.
  pose proof (ps_phase _ _ Hps) as Hphase. pose proof (wf_phase _ (proj1 Hw)) as Hp. unfold phase_wf in Hp.
  rewrite Hphase in Hp. destruct Hp as (Hr1 & Hids & _). cbn in Hrev, Hphase, Hr1, Hids.
  unfold advance_lifecycle. rewrite Hop. unfold mbind at 1, state_result_bind at 1.
  set (req1 := lifecycle_request a ".arm_receivers" (pa_expected_runtime_revision a) ArmReceivers (mkEvidence true false 0 false)).
  destruct (execute_admissible s req1) as [d1 ->].
  { unfold request_admissible. rewrite Hr1, Hids, Hphase. unfold req1. cbn. rewrite Hrev, Hr1. split_and!; try done.
    - by eapply graphic_last_nonblank.
    - set_solver.
    - eexists. by constructor. }
  unfold mbind, state_result_bind.
  set (s1 := set_runtime _ s).
  set (req2 := lifecycle_request a ".start_sources" (pa_expected_runtime_revision a + 1) StartSources (mkEvidence false true 0 false)).
  destruct (execute_admissible s1 req2) as [d2 ->].
  { unfold request_admissible, s1, req1, req2. cbn. rewrite Hrev, Hr1, Hids. split_and!; try done.
    - by eapply graphic_last_nonblank.
    - cbn. rewrite list_elem_of_singleton. by intros E%str_app_inj_l.
    - eexists. by constructor. }
  eexists. unfold mret, state_result_ret. f_equal. unfold with_state, started_lifecycle, s1, req1, req2, set_runtime, advance.
  cbn. rewrite Hr1, Hids. done.
Qed.

Lemma advance_stop s a :
  product_wf s → mpr_pending_action s = Some a → pa_operation a = OpStop →
  (mrs_phase (msr_state (mpr_runtime s)) = Stopped ∧ advance_lifecycle a s = (s, Err LifecycleRejected)) ∨
  (mrs_phase (msr_state (mpr_runtime s)) ≠ Stopped ∧
   ∃ ds, advance_lifecycle a s = (with_state (stopped_lifecycle a (msr_state (mpr_runtime s))) s, Ok ds)).
Proof.
  intros Hw Ha Hop. destruct (pending_of _ _ Hw Ha) as [_ _ Hrev _ _ _ _].
  pose proof (wf_phase _ (proj1 Hw)) as Hp. unfold phase_wf in Hp. cbn in Hrev, Hp.
  unfold advance_lifecycle. rewrite Hop. unfold mbind, state_result_bind.
  set (req := lifecycle_request a ".cleanup" (pa_expected_runtime_revision a) Stop (mkEvidence false false 0 true)).
  destruct (decide (mrs_phase (msr_state (mpr_runtime s)) = Stopped)) as [Hst|Hst].
  - left. split; [done|]. rewrite execute_refused; [done|]. intros (_ & _ & _ & _ & p & H). rewrite Hst in H.
    inversion H; congruence.
  - right. split; [done|]. destruct (execute_admissible s req) as [d ->]; [|by eexists].
    assert (Hpq : mrs_runtime_revision (msr_state (mpr_runtime s)) ≠ u64_max ∧
      mrq_request_id req ∉ mrs_applied_request_ids (msr_state (mpr_runtime s))).
    { destruct (mrs_phase (msr_state (mpr_runtime s))); try done.
      - destruct Hp as (-> & -> & _). split; [done|set_solver].
      - destruct Hp as (-> & _ & a0 & _ & _ & ->). split; [done|].
        rewrite !not_elem_of_cons. cbn. split_and!; [| |set_solver];
          intros E; eapply str_app_last in E; try reflexivity; done. }
    destruct Hpq as [Hmax Hnew]. split_and!; try done.
    + by eapply graphic_last_nonblank.
    + eexists. by constructor.
Qed.

(** All completions are recorded, so that no attempt is open. *)
Lemma completed_idle s a :
  product_wf s → mpr_pending_action s = Some a → mpr_abort_in_progress s = false →
  length (mpr_pending_owner_receipts s) = length (pa_owner_actions a) →
  mpr_pending_uncertain_owner s = None ∧ mpr_pending_abort_receipts s = [] ∧ mpr_pending_abort_uncertain_owner s = None.
Proof.
  intros Hw Ha Hab Hlen. destruct (pending_of _ _ Hw Ha) as [_ _ _ _ _ Hnext Hop]. split.
  - destruct (mpr_pending_uncertain_owner s) as [o|] eqn:E; [|done]. cbn in Hnext. rewrite E in Hnext.
    specialize (Hnext o eq_refl). apply lookup_lt_Some in Hnext. lia.
  - destruct (pa_operation a); destruct Hop; cbn in *; auto.
Qed.

Lemma handles_fold (receipts : list MediaStreamOwnerCompletionReceipt) :
  fold_left (fun handles receipt => om_insert compare_selection (ocr_selection receipt)
    (ocr_provider_handle_id receipt, ocr_provider_state_revision receipt) handles) receipts [] =
  om_collect compare_selection (receipt_handle <$> receipts).
Proof.
  unfold om_collect. generalize (@nil (MediaStreamOwnerSelection * (string * N))).
  induction receipts as [|r receipts IH]; intros m; [done|]. cbn. apply IH.
Qed.

Lemma handle_entries (m : list (MediaStreamOwnerSelection * (string * N))) :
  handle_entry <$> ((fun '(selection, (handle, revision)) => mkRecoveryHandle selection handle revision) <$> m) = m.
Proof. induction m as [|[sel [h r]] m IH]; [done|]. cbn. by rewrite IH. Qed.

(** What the journal sees of the adoption. *)
Definition started_snapshot a x : MediaStreamSessionProductRecoverySnapshot :=
  mkRecoverySnapshot (rsn_schema_id x) (rsn_binding x) (rsn_accepted_subject x) (rsn_provider_epoch_id x)
    (started_lifecycle a (rsn_lifecycle x)) None [] (rsn_pending_uncertain_owner x)
    (rsn_pending_abort_receipts x) (rsn_pending_abort_uncertain_owner x) (rsn_abort_in_progress x)
    ((fun '(selection, (handle, revision)) => mkRecoveryHandle selection handle revision)
       <$> om_collect compare_selection (receipt_handle <$> rsn_pending_owner_receipts x))
    (rsn_pending_owner_receipts x) (Some a) (Some (pa_client_authority a)) [pa_action_id a]
    (rsn_aborted_action_ids x) (rsn_completed_start_abort x).

Lemma adopt_start_snapshot s a :
  pa_operation a = OpStart → mpr_applied_action_ids s = [] → mpr_active_provider_handles s = [] →
  snapshot_of (adopt_completions a (with_state (started_lifecycle a (msr_state (mpr_runtime s))) s)) =
  started_snapshot a (snapshot_of s).
Proof.
  intros Hop Ha Hh. unfold adopt_completions, snapshot_of, started_snapshot. rewrite Hop. cbn.
  by rewrite Ha, Hh, handles_fold.
Qed.

Definition stopped_snapshot a x : MediaStreamSessionProductRecoverySnapshot :=
  mkRecoverySnapshot (rsn_schema_id x) (rsn_binding x) (rsn_accepted_subject x) (rsn_provider_epoch_id x)
    (stopped_lifecycle a (rsn_lifecycle x)) None [] (rsn_pending_uncertain_owner x)
    (rsn_pending_abort_receipts x) (rsn_pending_abort_uncertain_owner x) (rsn_abort_in_progress x)
    [] [] None None (om_insert String.compare (pa_action_id a) tt ((fun id => (id, tt)) <$> rsn_applied_action_ids x)).*1
    (rsn_aborted_action_ids x) (rsn_completed_start_abort x).

Lemma unit_entries (ids : list (string * unit)) : (fun id => (id, tt)) <$> ids.*1 = ids.
Proof. induction ids as [|[id []] ids IH]; [done|]. cbn. by rewrite IH. Qed.

Lemma adopt_stop_snapshot s a :
  pa_operation a = OpStop →
  snapshot_of (adopt_completions a (with_state (stopped_lifecycle a (msr_state (mpr_runtime s))) s)) =
  stopped_snapshot a (snapshot_of s).
Proof.
  intros Hop. unfold adopt_completions, snapshot_of, stopped_snapshot. rewrite Hop. cbn.
  by rewrite unit_entries.
Qed.

Lemma started_snapshot_wf x a :
  snapshot_wf x → rsn_pending_action x = Some a → pa_operation a = OpStart → rsn_abort_in_progress x = false →
  rsn_pending_uncertain_owner x = None → validate_owner_completions a (rsn_pending_owner_receipts x) = Ok tt →
  snapshot_wf (started_snapshot a x).
Proof.
  intros Hw Ha Hop Hab Hu Hval. destruct Hw. unfold pending_wf in wf_pending. rewrite Ha in wf_pending.
  destruct wf_pending as [Hok Hfresh Hrev _ _ _ Hps]. rewrite Hop in Hps.
  destruct Hps as [Hact Hcomp Hphase Hidle _ _]. destruct (Hidle Hab) as [Hr Hau].
  unfold phase_wf in wf_phase. rewrite Hphase in wf_phase. destruct wf_phase as (Hr1 & _ & Happ & _).
  constructor; cbn; try assumption.
  - repeat constructor.
  - intros id [->%list_elem_of_singleton|H]; [by eapply action_ok_id|auto].
  - intros id ->%list_elem_of_singleton. apply Hfresh.
  - unfold phase_wf. cbn. split_and!; [done|done|]. by exists a.
  - unfold active_wf. cbn. constructor; cbn; try done; [congruence|apply handle_entries].
  - unfold pending_wf. cbn. done.
  - intros record. cbn. by rewrite Hcomp.
Qed.

Lemma stopped_snapshot_wf x a :
  snapshot_wf x → rsn_pending_action x = Some a → pa_operation a = OpStop → rsn_pending_uncertain_owner x = None →
  mrs_phase (rsn_lifecycle x) ≠ Stopped → snapshot_wf (stopped_snapshot a x).
Proof.
  intros Hw Ha Hop Hu Hst. destruct Hw. unfold pending_wf in wf_pending. rewrite Ha in wf_pending.
  destruct wf_pending as [Hok Hfresh _ _ _ _ Hpt]. rewrite Hop in Hpt. destruct Hpt as [Hab Hr Hau _ _ _].
  assert (Hids : ∀ id, id ∈ (om_insert String.compare (pa_action_id a) tt
    ((fun id => (id, tt)) <$> rsn_applied_action_ids x)).*1 ↔ id = pa_action_id a ∨ id ∈ rsn_applied_action_ids x).
  { intros id. rewrite insert_id_elem. rewrite <- list_fmap_compose. cbn. by rewrite list_fmap_id. }
  unfold phase_wf in wf_phase. constructor; cbn; try assumption.
  - apply (om_insert_sorted String.compare). unfold om_sorted. rewrite <- list_fmap_compose. cbn. by rewrite list_fmap_id.
  - intros id. rewrite Hids. intros [[->|H]|H]; [by eapply action_ok_id|auto|auto].
  - intros id. rewrite Hids. intros [->|H]; [apply Hfresh|auto].
  - unfold phase_wf. cbn. split_and!; [| |done].
    + destruct (mrs_phase (rsn_lifecycle x)); try done; destruct wf_phase as (-> & _); set_solver.
    + intros E. specialize (Hids (pa_action_id a)). rewrite E in Hids. set_solver.
  - done.
  - done.
  - intros record Hrec. destruct (wf_completed record Hrec). by constructor.
Qed.

Lemma applied_wf s a s' ds :
  product_wf s → mpr_pending_action s = Some a → mpr_abort_in_progress s = false →
  length (mpr_pending_owner_receipts s) = length (pa_owner_actions a) →
  validate_owner_completions a (mpr_pending_owner_receipts s) = Ok tt →
  advance_lifecycle a s = (s', Ok ds) → product_wf (adopt_completions a s').
Proof.
  intros Hw Ha Hab Hlen Hval E. destruct (completed_idle _ _ Hw Ha Hab Hlen) as (Hu & _ & _).
  destruct (pa_operation a) eqn:Hop.
  - destruct (advance_start _ _ Hw Ha Hop) as [ds' E']. rewrite E' in E. injection E as <- _.
    pose proof (pending_of _ _ Hw Ha) as Hp. destruct Hp as [_ _ _ _ _ _ Hps]. rewrite Hop in Hps.
    destruct Hw as [Hw Hs]. split; [|unfold adopt_completions; rewrite Hop; exact Hs].
    pose proof (wf_active _ Hw) as Hact. unfold active_wf in Hact. rewrite (ps_active _ _ Hps) in Hact.
    pose proof (wf_phase _ Hw) as Hp. unfold phase_wf in Hp. rewrite (ps_phase _ _ Hps) in Hp.
    rewrite adopt_start_snapshot; [|done|by destruct Hp as (_ & _ & ?%fmap_nil_inv & _)|by destruct Hact as (_ & ?%fmap_nil_inv & _)].
    by apply started_snapshot_wf.
  - destruct (advance_stop _ _ Hw Ha Hop) as [[_ E']|(Hst & ds' & E')]; rewrite E' in E; [done|].
    injection E as <- _. destruct Hw as [Hw Hs]. split; [|unfold adopt_completions; rewrite Hop; exact Hs].
    rewrite adopt_stop_snapshot by done. by apply stopped_snapshot_wf.
Qed.

Lemma apply_wf s env now :
  product_wf s → host_sound env s → wp (apply_recorded_owner_completions env now) (fun s' _ => product_wf s') s.
Proof.
  intros Hw Hh. unfold apply_recorded_owner_completions. do 3 (wp_step; wp_step; [by intros _|]). do 3 wp_step.
  eapply wp_mono; [|by apply refresh_wf]. intros s1 [[]|e] (Hw1 & c & -> & _); [|done].
  set (s1 := set_current_acceptance c s) in *.
  do 2 wp_step. destruct (mpr_pending_action s1) as [a|] eqn:Ea; cbn [ok_or]; [|done].
  wp_step. wp_step; [by intros _|]. do 2 wp_step.
  destruct (validate_owner_completions a _) as [[]|e] eqn:Ev; [|done]. bool_to_prop.
  wp_step. apply run_wp. intros s2 [ds|e] E.
  - do 5 wp_step. eapply wp_mono; [|apply commit_wf; by eapply applied_wf].
    by intros s3 [[]|e] Hw3; [apply wp_gets|].
  - destruct (pa_operation a) eqn:Eop.
    + destruct (advance_start _ _ Hw1 Ea Eop) as [ds' E']. by rewrite E' in E.
    + destruct (advance_stop _ _ Hw1 Ea Eop) as [[_ E']|(Hst & ds' & E')]; rewrite E' in E; [by injection E as <- _|done].
Qed.

(** ** Cleanup after a trusted Revoke *)

(** Validity depends on the subject only. *)
Lemma receipt_valid_same binding epoch prior c acc acc' :
  receipt_valid binding epoch prior → cur_session prior = Some acc → cur_session c = Some acc' →
  same_accepted_subject acc' acc = true →
  as_str (cur_schema_id c) = MANIFOLD_MEDIA_SESSION_CURRENT_RECEIPT_SCHEMA →
  rev_get (cur_acceptance_state_authority_revision c) ≠ 0 → cur_decision_id c = acc_decision_id acc' →
  acc_accepted_at_ms acc' ≤ cur_validated_at_ms c → receipt_valid binding epoch c.
Proof.
  unfold receipt_valid, validate_current_acceptance. intros Hv Ha Ha' Hsame Hs Hr Hd Ht. rewrite Ha in Hv. rewrite Ha', Hs.
  cbn [ok_or mbind result_bind] in *. rewrite !fail_if_bind_ok, then_ok in Hv.
  destruct Hv as (_ & He & _ & H). apply orb_false_iff in He as [[_ He]%orb_false_iff _].
  apply negb_false_iff, String.eqb_eq in He. revert H. unfold same_accepted_subject in Hsame. rewrite !andb_true_iff in Hsame.
  destruct_and! Hsame. bool_to_prop. rewrite !fail_if_bind_ok, then_ok.
  rewrite String.eqb_refl, N.eqb_refl, Hd, bool_decide_true by done.
  rewrite (proj2 (N.eqb_neq _ _) Hr), (proj2 (N.ltb_ge _ _) Ht). cbn [negb orb andb].
  unfold acceptance_exact.
  repeat match goal with E : ?f acc' = ?f acc |- _ => rewrite E; clear E end.
  rewrite He, String.eqb_refl. by intros H.
Qed.

Lemma same_holder_refl c : same_session_holder c c = true.
Proof. unfold same_session_holder. by rewrite !String.eqb_refl. Qed.

Lemma action_ok_client x a acc :
  action_ok x a → cur_session (rsn_accepted_subject x) = Some acc →
  recovery_client_mismatch acc (pa_client_authority a) = false.
Proof.
  intros (acc0 & H0 & H) Ha. rewrite Ha in H0. injection H0 as <-. unfold validate_recovery_action in H.
  apply fail_if_ok in H. rewrite !orb_false_iff in H. by destruct_and! H.
Qed.

(** The Start that a trusted Stop cleans up after. *)
Lemma cleanup_client s client :
  product_wf s →
  match mpr_active_client_authority s with
  | Some active => Some active
  | None => (fun record => pa_client_authority (csa_original_action record)) <$> mpr_completed_start_abort s
  end = Some client →
  ∃ start, start_of (snapshot_of s) = Some start ∧ pa_client_authority start = client ∧ action_ok (snapshot_of s) start.
Proof.
  intros [Hw _] Hc. pose proof (wf_active _ Hw) as Hact. unfold active_wf, start_of in *. cbn in *.
  destruct (mpr_active_start_action s) as [start|].
  - destruct Hact. cbn in *. rewrite ac_client in Hc. injection Hc as <-. eauto.
  - destruct Hact as (_ & _ & E). rewrite E in Hc. destruct (mpr_completed_start_abort s) as [record|] eqn:Er; [|done].
    injection Hc as <-. eexists. split_and!; [done|done|]. by apply (wf_completed _ Hw record).
Qed.

Lemma cleanup_authority s env evidence now current :
  product_wf s → host_sound env s → validate_trusted_cleanup_authority env evidence now s = Ok current →
  product_wf (set_current_acceptance current s) ∧
  ∃ acc ended, cur_session (mpr_current_acceptance s) = Some acc ∧ cur_session current = Some ended ∧
    subject_key ended = subject_key acc ∧ recovery_evidence_invalid ended OpStop evidence = false.
Proof.
  intros [Hw Hs] Hh Hv. unfold validate_trusted_cleanup_authority in Hv. cbv zeta in Hv.
  rewrite ok_or_bind_ok in Hv. destruct Hv as (acc & Ha & Hv).
  set (c := he_validate_media_session env (acc_decision_id acc) now) in *.
  rewrite ok_or_bind_ok in Hv. destruct Hv as (ended & He & Hv).
  apply fail_if_bind_ok in Hv as [Hv [= <-]]. rewrite !orb_false_iff in Hv. destruct_and! Hv.
  match goal with H : negb (same_accepted_subject _ _) = false |- _ => apply negb_false_iff in H as Hsame end.
  pose proof (same_subject_key _ _ Hsame) as Hkey.
  destruct (hs_receipt _ _ Hh (acc_decision_id acc) now) as (R1 & R2 & R3 & R4 & R5). fold c in R1, R2, R3, R4, R5.
  destruct (R5 _ He) as [R6 R7]. rewrite <- R2 in R7. split.
  - split; [|exact Hs]. apply (wf_with_subject (snapshot_of s) c acc ended); try done.
    + eapply hs_final; try done. unfold host_answers. eauto.
    + by eapply receipt_valid_same; [apply (wf_receipt _ Hw)|..].
  - exists acc, ended. split_and!; try done. unfold recovery_evidence_invalid. rewrite bool_decide_true by done.
    assert (acc_decision_id ended = acc_decision_id acc) as -> by (unfold subject_key in Hkey; congruence).
    rewrite !orb_false_iff. by split_and!.
Qed.

Lemma prepare_trusted_revoker_cleanup_wf s env evidence action_id now :
  product_wf s → host_sound env s →
  wp (prepare_trusted_revoker_cleanup env evidence action_id now) (fun s' _ => product_wf s') s.
Proof.
  intros Hw Hh. unfold prepare_trusted_revoker_cleanup. do 2 wp_step.
  destruct (validate_trusted_cleanup_authority env evidence now s) as [current|e] eqn:Ev; [|done].
  destruct (cleanup_authority _ _ _ _ _ Hw Hh Ev) as (Hw1 & acc & ended & Ha & He & Hkey & Hevi). do 2 wp_step.
  rewrite He. cbn [ok_or]. wp_step; wp_step; [by intros _|]. do 2 wp_step.
  destruct (ok_or _ MissingClientAuthority) as [client|e] eqn:Ec; [|done]. wp_step; wp_step; [by intros _|]. do 7 wp_step.
  set (s1 := set_current_acceptance current s) in *. clear Hok0. rewrite !orb_false_iff in Hok.
  destruct Hok as (((Hn & Hb) & Hap) & Hab). apply is_Some_false in Hn.
  assert (Hcl := cleanup_client s1 client Hw1). destruct Hcl as (start & Hst & Hcl & Hok).
  { cbn. destruct (match mpr_active_client_authority s with Some _ => _ | None => _ end); [by injection Ec as ->|done]. }
  eapply wp_mono with (P := fun s' _ => product_wf s'); [by intros s' [[]|e] Hw'; [apply wp_ret|]|]. apply commit_wf.
  set (a := make_action action_id OpStop client (Some evidence) ended s1).
  assert (Hoka : action_ok (snapshot_of s1) a).
  { apply make_action_ok; try done. subst client. by eapply action_ok_client. }
  pose proof (wf_pending _ (proj1 Hw1)) as Hp. unfold pending_wf in Hp. cbn in Hp. rewrite Hn in Hp.
  destruct Hp as (Hp1 & Hp2 & Hp3 & Hp4 & Hp5).
  apply (pending_update_wf s1 _ a); [done..|cbn; unfold snapshot_of; cbn; done|].
  constructor; cbn; try done.
  - split; by apply ids_contain_false.
  - apply prefix_nil.
  - split; constructor.
  - constructor; cbn; try done.
    + exists start. split; [done|]. rewrite Hcl. apply same_holder_refl.
    + set_solver.
Qed.

(** ** Renewals, receipts and the journal *)

Lemma adopt_renewal_wf s env receipt now :
  product_wf s → host_sound env s →
  wp (adopt_concurrent_authority_renewal env receipt now) (fun s' _ => product_wf s') s.
Proof.
  intros Hw Hh. unfold adopt_concurrent_authority_renewal. do 2 wp_step.
  destruct (concurrent_physical_graph_sha256 s) as [prior|e]; [|done]. wp_step; wp_step; [by intros _|]. do 2 wp_step.
  destruct (he_validate_media_session_with_live_broker_runtime env _ _) as [current|] eqn:Eq; cbn [ok_or]; [|done].
  wp_step; wp_step; [by intros _|]. do 2 wp_step.
  destruct (bool_decide (cur_session (mpr_current_acceptance s) = _)).
  { wp_step. eapply wp_mono; [|by apply commit_wf]. by intros s' [[]|e] Hw'; [apply wp_ret|]. }
  wp_step; wp_step; [by intros _|]. do 2 wp_step.
  destruct (wf_session _ (proj1 Hw)) as [acc Ha]. cbn in Ha. rewrite Ha. cbn [ok_or mbind result_bind].
  destruct (validate_current_acceptance _ _ _ _ _ _) as [[]|e] eqn:Ev; [|done]. do 3 wp_step.
  eapply wp_mono; [|apply commit_wf; eapply adopt_wf; [done|done| |exact Ha|exact Ev| |apply set_session_revision]].
  - intros s' [[]|e] Hw'; [|done]. do 2 wp_step. destruct (concurrent_physical_graph_sha256 s') as [g|e]; [|done].
    wp_step; wp_step; [by intros _|]. by wp_step.
  - unfold host_answers. eauto.
  - intros acc0. rewrite set_session_session. intros [= <-]. apply set_expires_subject.
Qed.

Lemma revalidate_wf s verifier : product_wf s → wp (revalidate_recovered_receipts verifier) (fun s' _ => product_wf s') s.
Proof.
  intros Hw. unfold revalidate_recovered_receipts. wp_step; wp_step; [by intros _|]. do 2 wp_step.
  wp_step; wp_step; [by intros _|]. by wp_step.
Qed.

Lemma install_wf s journal : product_wf s → product_wf (install_recovery_journal journal s).1.1.
Proof.
  intros Hw. unfold install_recovery_journal. destruct (_ || _); [done|]. destruct (recovery_snapshot s); [|done].
  by destruct (journal_commit journal _) as [j [[]|e]].
Qed.

(** ** Construction *)

Lemma product_new_wf source binding env now s :
  is_blank (as_str (he_provider_epoch_id env)) = false →
  product_new source binding env now = Ok s → product_wf s.
Proof.
  intros He. unfold product_new. rewrite then_ok, fail_if_bind_ok. intros (Hb & _ & H).
  apply bind_ok in H as (current & Hq & H). rewrite then_ok in H. destruct H as [Hv H].
  apply bind_ok in H as (runtime & Hr & [= <-]). unfold map_err in Hr.
  destruct (runtime_new (bnd_spec binding)) as [rt|es] eqn:En; [|done]. injection Hr as <-. apply new_ok in En as [_ ->].
  destruct (acceptance_valid _ _ _ _ _ _ Hv) as (Hrv & _). split; [|done].
  constructor; cbn; try done; try by constructor.
  all: set_solver.
Qed.
End Advance.
