(* ===== verification/ProductRestore.v ===== *)
(** * Product runtime: recovery snapshots of reachable runtimes

    [validate_product_recovery_snapshot] accepts what a runtime journals exactly
    when the native receipts and handles in it are distinct, and a restored
    runtime is well-formed and can only clean up. *)

From S2P Require Import Prelude RustStr OrdMap StateResult UpdateAdmission MediaModel MediaSpec MediaRuntime MediaLifecycle MediaComposition CleanupTicket OwnerEffect ProductBinding ProductModel ProductActions ProductSnapshot WireFrame ProductRuntime ProductOrder ProductInvariant ProductMethods ProductAdvance.
From Stdlib Require Import Sorting.Sorted.

Local Open Scope N_scope.
Local Open Scope quest_scope.

(** ** Helpers of the validation *)

Lemma repeated_receipt_iff seen receipts :
  repeated_receipt seen receipts = false ↔
  NoDup (ocr_receipt_id <$> receipts) ∧ ∀ r, r ∈ receipts → ocr_receipt_id r ∉ seen.
Proof.
  revert seen. induction receipts as [|r receipts IH]; intros seen; cbn.
  - split; [|done]. intros _. split; [constructor|set_solver].
  - rewrite orb_false_iff, bool_decide_eq_false, IH, NoDup_cons. split.
    + intros (Hs & Hn & Ha). split_and!; [|done|].
      * intros (r' & E & Hr)%list_elem_of_fmap. apply Ha in Hr. set_solver.
      * intros r' [->|Hr]%elem_of_cons; [done|]. apply Ha in Hr. set_solver.
    + intros ((Hn & Hd) & Ha). split_and!; [apply Ha; set_solver|done|]. intros r' Hr E.
      apply elem_of_union in E as [E%elem_of_singleton|E]; [|by apply (Ha r'); [set_solver|]].
      apply Hn, list_elem_of_fmap. by exists r'.
Qed.

Lemma existsb_imap_false {A} (f : nat → A → bool) l :
  (∀ i x, l !! i = Some x → f i x = false) → existsb id (imap f l) = false.
Proof.
  intros H. apply not_true_is_false. rewrite existsb_exists. intros (b & Hb & Ht). apply list_elem_of_In in Hb.
  apply list_elem_of_lookup in Hb as [i Hb]. apply list_lookup_imap_Some in Hb as (x & Hx & ->). unfold id in Ht. by rewrite (H i x Hx) in Ht.
Qed.

Lemma rollback_paired uncertain rollback started :
  rollback_ok uncertain started rollback → rollback_unpaired uncertain rollback started = false.
Proof.
  intros H. unfold rollback_unpaired. apply not_true_is_false. rewrite existsb_exists.
  intros ([r start] & Hin & Ht). apply list_elem_of_In, list_elem_of_lookup in Hin as [k Hk].
  apply lookup_zip_Some in Hk as [Hr Hs]. rewrite lookup_drop in Hr.
  specialize (H _ _ Hr). unfold abort_receipt_invalid in H. set (offset := length (option_list uncertain)) in *.
  destruct (Nat.ltb_spec (offset + k) offset); [lia|]. replace (offset + k - offset)%nat with k in H by lia.
  rewrite Hs in H. congruence.
Qed.

Lemma om_insert_length {V} k (v : V) (m : list (MediaStreamOwnerSelection * V)) :
  (length (om_insert compare_selection k v m) <= S (length m))%nat.
Proof. induction m as [|[k' v'] m IH]; cbn; [done|]. destruct (compare_selection k k'); cbn; lia. Qed.

Lemma om_collect_length {V} (l : list (MediaStreamOwnerSelection * V)) :
  (length (om_collect compare_selection l) <= length l)%nat.
Proof.
  unfold om_collect. enough (∀ m, length (fold_left (fun m e => om_insert compare_selection e.1 e.2 m) l m) <=
    length m + length l)%nat as H by apply (H []).
  induction l as [|e l IH]; intros m; cbn; [lia|]. specialize (IH (om_insert compare_selection e.1 e.2 m)).
  pose proof (om_insert_length e.1 e.2 m). lia.
Qed.

Lemma binary_search_iff ids id : binary_search ids id = false ↔ id ∉ ids.
Proof.
  unfold binary_search. rewrite <- not_true_iff_false, existsb_exists. setoid_rewrite String.eqb_eq.
  setoid_rewrite <- list_elem_of_In. naive_solver.
Qed.

Lemma strict_unique_ok ids :
  keys_sorted String.compare ids → (∀ id, id ∈ ids → is_blank id = false) → strict_unique_ids ids = true.
Proof.
  intros Hs Hb. unfold strict_unique_ids. rewrite andb_true_iff. split; [|by apply (increasing_iff String.compare)].
  apply forallb_forall. intros id Hid%list_elem_of_In. by rewrite Hb.
Qed.

Lemma compare_append s x y : String.compare (s ++ x) (s ++ y) = String.compare x y.
Proof. induction s as [|c s IH]; [done|]. cbn. unfold Ascii.compare. by rewrite N.compare_refl. Qed.

Section Restore.
Context {RC : ReleaseCrypto} {SpE : SpecEncoding} `{ML : ManifoldLaws} {SE : SnapshotEncoding}.
Context {J : Type} {RJ : MediaStreamRecoveryJournal J}.
Abbreviation product := (MediaStreamSessionProductRuntime (J := J)).
Implicit Types (x : MediaStreamSessionProductRecoverySnapshot) (a : MediaStreamPlatformAction) (s : product).

Definition handles_of (receipts : list MediaStreamOwnerCompletionReceipt) : list string :=
  ocr_provider_handle_id <$> receipts.

(** No native receipt is retained twice and no handle is rolled back twice. *)
Record recoverable x : Prop := {
  rec_receipts : NoDup (ocr_receipt_id <$>
    (rsn_active_start_receipts x ++ rsn_pending_owner_receipts x ++ rsn_pending_abort_receipts x));
  rec_abort : NoDup (handles_of (rsn_pending_abort_receipts x));
  rec_completed record : rsn_completed_start_abort x = Some record → NoDup (handles_of (csa_rollback_receipts record));
}.

Lemma action_ok_owners x a :
  action_ok x a → pa_owner_actions a = ordered_owner_actions (rsp_owner_selections (bnd_spec (rsn_binding x))) (pa_operation a).
Proof.
  intros (acc & _ & H). unfold validate_recovery_action in H. apply fail_if_ok in H. rewrite !orb_false_iff in H.
  destruct_and! H. by bool_to_prop.
Qed.

Lemma valid_prefix_iff a receipts :
  prefix_matches (pa_owner_actions a) receipts →
  valid_recovery_receipt_prefix a receipts = true ↔ distinct_receipts receipts.
Proof.
  intros Hp. unfold valid_recovery_receipt_prefix. destruct (N.ltb_spec (len (pa_owner_actions a)) (len receipts)) as [Hl|_].
  - destruct Hp as [Hp _]. unfold len in Hl. lia.
  - by apply prefix_receipts_match.
Qed.

Section Wellformed.
Context x acc (Hw : snapshot_wf x) (Hacc : cur_session (rsn_accepted_subject x) = Some acc).
Context (Hphase : mrs_phase (rsn_lifecycle x) ≠ Stopped).

Lemma ok_action a : action_ok x a → validate_recovery_action (rsn_binding x) acc x a = Ok tt.
Proof using Hacc. intros (acc0 & H0 & H). rewrite Hacc in H0. by injection H0 as <-. Qed.

Lemma wf_pending_length : (length (rsn_pending_owner_receipts x) <= length (rsp_owner_selections (bnd_spec (rsn_binding x))))%nat.
Proof using Hw.
  pose proof (wf_pending _ Hw) as Hp. unfold pending_wf in Hp. destruct (rsn_pending_action x) as [a|].
  - destruct Hp as [Hok _ _ [Hlen _] _ _ _]. by rewrite (action_ok_owners _ _ Hok), ordered_length in Hlen.
  - destruct Hp as (-> & _). cbn. lia.
Qed.

Lemma wf_abort_length :
  (length (rsn_pending_abort_receipts x) <= S (length (rsp_owner_selections (bnd_spec (rsn_binding x)))))%nat.
Proof using Hw.
  pose proof wf_pending_length as Hl. pose proof (wf_pending _ Hw) as Hp. unfold pending_wf in Hp.
  destruct (rsn_pending_action x) as [a|].
  - destruct Hp as [_ _ _ _ _ _ Hop]. destruct (pa_operation a).
    + destruct (ps_rollback _ _ Hop) as [[Hlen _] _ _]. rewrite abort_actions_length in Hlen.
      destruct (rsn_pending_uncertain_owner x); cbn in Hlen; lia.
    + rewrite (pt_receipts _ _ Hop). cbn. lia.
  - destruct Hp as (_ & _ & -> & _). cbn. lia.
Qed.

Lemma wf_handles_length :
  (length (rsn_active_provider_handles x) <= length (rsp_owner_selections (bnd_spec (rsn_binding x))))%nat.
Proof using Hw.
  pose proof (wf_active _ Hw) as Ha. unfold active_wf in Ha. destruct (rsn_active_start_action x) as [a|].
  - destruct Ha as [Hok Hop _ Hval _ Hh]. apply (f_equal length) in Hh. rewrite length_fmap in Hh. rewrite Hh.
    etrans; [apply om_collect_length|]. rewrite length_fmap. unfold validate_owner_completions in Hval.
    apply fail_if_bind_ok in Hval as [Hval _]. apply negb_false_iff, N.eqb_eq in Hval. unfold len in Hval.
    rewrite (action_ok_owners _ _ Hok), ordered_length in Hval. lia.
  - destruct Ha as (_ & -> & _). cbn. lia.
Qed.

Lemma wf_revision : mrs_runtime_revision (rsn_lifecycle x) ≠ 0.
Proof using Hw.
  clear Hphase. pose proof (wf_phase _ Hw) as Hp. unfold phase_wf in Hp.
  destruct (mrs_phase (rsn_lifecycle x)); try done; destruct Hp as [H _]; try (by rewrite H).
  intros E. rewrite E in H. clear -H. set_solver.
Qed.

Lemma shape_ok bytes : len bytes ≤ MAX_MEDIA_STREAM_PRODUCT_RECOVERY_BYTES →
  snapshot_shape_invalid (rsn_binding x) x bytes = false.
Proof using Hw.
  intros Hb. pose proof wf_pending_length. pose proof wf_abort_length. pose proof wf_handles_length. pose proof wf_revision.
  destruct Hw. unfold snapshot_shape_invalid. rewrite !orb_false_iff. unfold len in *.
  split_and!; try (by apply N.ltb_ge; lia).
  1, 2: rewrite wf_snapshot_schema; by case_bool_decide.
  - by rewrite bool_decide_true.
  - done.
  - by rewrite wf_schema.
  - by rewrite wf_spec_id, String.eqb_refl.
  - by apply N.eqb_neq.
  - rewrite strict_unique_ok; [done..|]. intros id Hid. apply wf_nonblank. by left.
  - rewrite strict_unique_ok; [done..|]. intros id Hid. apply wf_nonblank. by right.
  - apply not_true_is_false. rewrite existsb_exists. intros (id & Hid%list_elem_of_In & Hs).
    apply wf_disjoint, binary_search_iff in Hid. congruence.
Qed.

(** A completed rollback is kept in the phase Planned, for a trusted Stop. *)
Lemma completed_planned record : rsn_completed_start_abort x = Some record →
  mrs_phase (rsn_lifecycle x) = Planned ∧ ∀ a, rsn_pending_action x = Some a →
    pa_operation a = OpStop ∧ is_Some (pa_trusted_revoker_cleanup a).
Proof using Hw Hphase.
  intros Hc. split.
  - pose proof (wf_phase _ Hw) as Hp. unfold phase_wf in Hp. destruct (mrs_phase (rsn_lifecycle x)); try done.
    destruct Hp as (_ & Hn & _). congruence.
  - intros a Ha. pose proof (wf_pending _ Hw) as Hp. unfold pending_wf in Hp. rewrite Ha in Hp.
    destruct Hp as [_ _ _ _ _ _ Hop]. destruct (pa_operation a).
    + pose proof (ps_completed _ _ Hop). congruence.
    + split; [done|]. apply (pt_trusted _ _ Hop). by exists record.
Qed.

Lemma validate_completed_iff record : rsn_completed_start_abort x = Some record →
  validate_completed_start_abort (rsn_binding x) acc x record = Ok tt ↔ NoDup (handles_of (csa_rollback_receipts record)).
Proof using Hw Hacc Hphase.
  intros Hc. destruct (wf_completed _ Hw record Hc). destruct (completed_planned record Hc) as [Hpl Hpend].
  pose proof (wf_phase _ Hw) as Hp. unfold phase_wf in Hp. rewrite Hpl in Hp. destruct Hp as (Hr & Hids & Happ & Hact).
  unfold validate_completed_start_abort. rewrite ok_action by done. cbn [mbind result_bind].
  rewrite fail_if_bind_ok, Hpl, (bool_decide_false (Planned = Stopped)) by done.
  assert (Htail : fail_if
      (negb (bool_decide (Planned = Planned)) || negb (mrs_runtime_revision (rsn_lifecycle x) =? 1) ||
       negb (bool_decide (mrs_applied_request_ids (rsn_lifecycle x) = [])) ||
       negb (bool_decide (rsn_applied_action_ids x = [])) ||
       match rsn_pending_action x with
       | Some action => negb (bool_decide (pa_operation action = OpStop)) ||
                        bool_decide (pa_trusted_revoker_cleanup action = None)
       | None => false
       end) RecoverySnapshotInvalid = Ok tt).
  { rewrite Hr, Hids, Happ, !bool_decide_true by done. cbn. destruct (rsn_pending_action x) as [a|]; [|done].
    destruct (Hpend a eq_refl) as [-> [ev ->]]. done. }
  rewrite Htail. rewrite cs_schema, cs_start, cs_ordinary, cs_revision, Hact, cs_rollback_action.
  assert (existsb (String.eqb (pa_action_id (csa_original_action record))) (rsn_aborted_action_ids x) = true) as ->.
  { apply existsb_exists. eexists. split; [by apply list_elem_of_In|apply String.eqb_refl]. }
  rewrite (proj2 (valid_prefix_iff _ _ cs_prefix) cs_distinct), (rollback_paired _ _ _ (rb_handles _ _ _ _ cs_rollback)).
  unfold len. rewrite cs_length, cs_rollback_action, !N.eqb_refl,
    (bool_decide_true (OpStart = OpStart)), (bool_decide_true (partial_start_abort_action _ _ _ = _)) by done.
  cbn -[partial_start_abort_action].
  rewrite orb_false_r.
  assert (match csa_uncertain_owner record with
    | Some owner => negb (bool_decide (pa_owner_actions (csa_original_action record) !! length (csa_started_receipts record) = Some owner))
    | None => false
    end = false) as ->.
  { destruct (csa_uncertain_owner record) as [o|]; [|done]. by rewrite (cs_next o eq_refl), bool_decide_true. }
  cbn -[partial_start_abort_action]. rewrite negb_false_iff, (valid_prefix_iff _ _ (rb_prefix _ _ _ _ cs_rollback)). unfold distinct_receipts, handles_of.
  pose proof (rb_receipts _ _ _ _ cs_rollback). tauto.
Qed.

Lemma validate_active_ok : validate_active_start (rsn_binding x) acc x = Ok tt.
Proof using Hw Hacc Hphase.
  pose proof (wf_active _ Hw) as Ha. unfold active_wf in Ha. pose proof (wf_phase _ Hw) as Hp. unfold phase_wf in Hp.
  unfold validate_active_start. destruct (rsn_active_start_action x) as [a|] eqn:Ea.
  - destruct Ha as [Hok Hop Hrev Hval Hcl Hh]. rewrite ok_action by done. cbn [mbind result_bind].
    destruct (mrs_phase (rsn_lifecycle x)) eqn:Eph; try done; [by destruct Hp as (_ & _ & _ & [=])|].
    destruct Hp as (Hr & _ & a' & [= <-] & Happ & Hids).
    rewrite Hop, Hrev, Happ, Hval, Hcl, Hh, Hr, Hids.
    assert (Hs : om_sorted compare_selection (handle_entry <$> rsn_active_provider_handles x)).
    { rewrite Hh. apply om_collect_sorted. apply _. }
    rewrite <- Hh. rewrite (om_collect_id compare_selection) by done.
    assert (increasing compare_selection (rph_selection <$> rsn_active_provider_handles x) = true) as Hinc.
    { apply (increasing_iff compare_selection). unfold om_sorted in Hs. by rewrite <- list_fmap_compose in Hs. }
    rewrite !fail_if_bind_ok, fail_if_ok, Hinc. unfold len. rewrite length_fmap, !N.eqb_refl.
    split_and!; repeat (rewrite bool_decide_true by done); done.
  - destruct Ha as (-> & -> & ->). destruct (mrs_phase (rsn_lifecycle x)) eqn:Eph; try done.
    + destruct Hp as (-> & -> & -> & _). by destruct (bool_decide (is_Some (rsn_completed_start_abort x))).
    + by destruct Hp as (_ & _ & a' & [=] & _).
Qed.

Lemma validate_pending_iff :
  validate_pending (rsn_binding x) acc x = Ok tt ↔ NoDup (handles_of (rsn_pending_abort_receipts x)).
Proof using Hw Hacc.
  clear Hphase. pose proof (wf_pending _ Hw) as Hp. unfold pending_wf in Hp. unfold validate_pending.
  destruct (rsn_pending_action x) as [a|] eqn:Ea.
  2: { destruct Hp as (-> & -> & -> & -> & ->). split; [|done]. intros _. constructor. }
  destruct Hp as [Hok [Hf1 Hf2] Hrev Hpre Hdis Hnext Hop]. rewrite ok_action by done. cbn [mbind result_bind].
  rewrite fail_if_bind_ok, (proj2 (binary_search_iff _ _) Hf1), (proj2 (binary_search_iff _ _) Hf2), Hrev, N.eqb_refl,
    (proj2 (valid_prefix_iff _ _ Hpre) Hdis).
  assert (match rsn_pending_uncertain_owner x with
    | Some owner => negb (bool_decide (pa_owner_actions a !! length (rsn_pending_owner_receipts x) = Some owner))
    | None => false
    end = false) as ->.
  { destruct (rsn_pending_uncertain_owner x) as [o|]; [|done]. by rewrite (Hnext o eq_refl), bool_decide_true. }
  transitivity (match pa_operation a with
    | OpStart => validate_pending_start x a | OpStop => validate_pending_stop x a end = Ok tt); [cbn; tauto|].
  destruct (pa_operation a).
  - destruct Hop as [Hact Hcomp Hpl Hidle Hrb Hnx]. unfold validate_pending_start. rewrite Hact, Hpl. cbn [bool_decide].
    rewrite (bool_decide_true (Planned = Planned)) by done. rewrite fail_if_bind_ok, fail_if_ok.
    rewrite (existsb_imap_false _ _ (rb_handles _ _ _ _ Hrb)), orb_false_r.
    assert (negb (rsn_abort_in_progress x) && negb (bool_decide (rsn_pending_abort_receipts x = [])) = false) as ->.
    { destruct (rsn_abort_in_progress x); [done|]. destruct (Hidle eq_refl) as [-> _]. done. }
    match goal with |- context [match rsn_pending_abort_uncertain_owner x with Some o => @?f o | None => false end] =>
      assert (match rsn_pending_abort_uncertain_owner x with Some o => f o | None => false end = false) as -> end.
    { destruct (rsn_pending_abort_uncertain_owner x) as [o|] eqn:Eo; [|done].
      destruct (rsn_abort_in_progress x); [|by destruct (Hidle eq_refl)].
      by rewrite (Hnx o eq_refl), bool_decide_true. }
    cbn -[partial_start_abort_action]. rewrite !orb_false_r, negb_false_iff, (valid_prefix_iff _ _ (rb_prefix _ _ _ _ Hrb)).
    unfold distinct_receipts, handles_of. pose proof (rb_receipts _ _ _ _ Hrb).
    split; [tauto|]. intros Hn. done.
  - destruct Hop as [Hab Hr Hau (start & Hst & Hh) Hhandles _]. unfold validate_pending_stop. unfold start_of in Hst.
    rewrite Hst. cbn [ok_or mbind result_bind]. rewrite Hh, Hab, Hr, Hau.
    assert (existsb (stop_receipt_invalid x) (rsn_pending_owner_receipts x) = false) as ->.
    { apply not_true_is_false. rewrite existsb_exists. intros (r & Hin%list_elem_of_In & Hi). apply Hhandles in Hin. congruence. }
    split; [|done]. intros _. constructor.
Qed.

Lemma requests_unique : strict_unique_ids (mrs_applied_request_ids (rsn_lifecycle x)) = true.
Proof using Hw Hphase.
  pose proof (wf_phase _ Hw) as Hp. unfold phase_wf in Hp. destruct (mrs_phase (rsn_lifecycle x)); try done.
  - by destruct Hp as (_ & -> & _).
  - destruct Hp as (_ & _ & a & _ & _ & ->). apply strict_unique_ok.
    + repeat constructor. by rewrite compare_append.
    + intros id [->|[->|[]%elem_of_nil]%elem_of_cons]%elem_of_cons; by eapply graphic_last_nonblank.
Qed.

(** Recovery accepts the snapshot exactly when it is [recoverable]. *)
Lemma validate_snapshot_iff bytes :
  snapshot_to_vec x = Some bytes → len bytes ≤ MAX_MEDIA_STREAM_PRODUCT_RECOVERY_BYTES →
  validate_product_recovery_snapshot (rsn_binding x) x = Ok tt ↔ recoverable x.
Proof using Hw Hacc Hphase.
  intros Hb Hlen. unfold validate_product_recovery_snapshot. rewrite Hb. cbn [ok_or mbind result_bind].
  rewrite fail_if_bind_ok, shape_ok, Hacc by done. cbn [ok_or mbind result_bind].
  pose proof (wf_receipt _ Hw) as Hr. unfold receipt_valid in Hr. rewrite Hr. cbn [map_err mbind result_bind].
  rewrite then_ok, validate_active_ok. cbn [mbind result_bind]. rewrite fail_if_bind_ok, requests_unique, then_ok,
    validate_pending_iff, fail_if_ok, repeated_receipt_iff.
  destruct (rsn_completed_start_abort x) as [record|] eqn:Ec.
  - rewrite (validate_completed_iff record Ec). split.
    + intros (_ & H1 & _ & H2 & H3 & _). constructor; [done..|]. intros r Hr'. rewrite Ec in Hr'. by injection Hr' as <-.
    + intros [H1 H2 H3]. split_and!; try done. all: first [by apply H3|set_solver].
  - split.
    + intros (_ & _ & _ & H2 & H3 & _). constructor; [done..|]. intros r Hr'. by rewrite Ec in Hr'.
    + intros [H1 H2 H3]. split_and!; try done.
Qed.
End Wellformed.

(** ** Restoring *)

(** A pending Start comes back as a rollback. *)
Definition reopened (c : CurrentReceipt) x : MediaStreamSessionProductRecoverySnapshot :=
  with_pending (rsn_pending_action x) (rsn_pending_owner_receipts x) (rsn_pending_uncertain_owner x)
    (rsn_pending_abort_receipts x) (rsn_pending_abort_uncertain_owner x)
    (rsn_abort_in_progress x ||
     match rsn_pending_action x with
     | Some action => bool_decide (pa_operation action = OpStart)
     | None => false
     end) (with_subject c x).

Record restored (c : CurrentReceipt) x s : Prop := {
  rs_snapshot : snapshot_of s = reopened c x;
  rs_spec : msr_spec (mpr_runtime s) = bnd_spec (mpr_binding s);
  rs_cleanup_only : mpr_cleanup_only_after_restore s = true;
  rs_revalidated : mpr_recovery_receipts_revalidated s = false;
  rs_journal : mpr_recovery_journal s = None;
  rs_poisoned : mpr_recovery_journal_poisoned s = false;
}.

Lemma handle_entry_inverse (handles : list MediaStreamRecoveryProviderHandle) :
  (fun '(selection, (handle, revision)) => mkRecoveryHandle selection handle revision) <$> (handle_entry <$> handles) =
  handles.
Proof. induction handles as [|[sel h r] handles IH]; [done|]. cbn. by rewrite IH. Qed.

Lemma collect_action_ids ids :
  keys_sorted String.compare ids → (om_collect String.compare ((fun id => (id, tt)) <$> ids)).*1 = ids.
Proof.
  intros Hs. rewrite (om_collect_id String.compare); unfold om_sorted; rewrite <- list_fmap_compose; cbn;
    by rewrite list_fmap_id.
Qed.

Lemma restore_reopens x current authority s :
  snapshot_wf x → restore_from_checked_snapshot (rsn_binding x) x current authority = Ok s →
  restored current x s ∧ mpr_authority s = authority.
Proof.
  intros Hw. unfold restore_from_checked_snapshot. rewrite fail_if_bind_ok. intros [_ H].
  apply bind_ok in H as (rt & Hr & [= <-]). apply map_err_ok, restore_ok in Hr as (_ & _ & ->).
  split; [|done]. constructor; try done. unfold snapshot_of, reopened, with_pending, with_subject. cbn. f_equal.
  - by rewrite (wf_snapshot_schema _ Hw).
  - rewrite (om_collect_id compare_selection).
    + apply handle_entry_inverse.
    + pose proof (wf_active _ Hw) as Ha. unfold active_wf in Ha. destruct (rsn_active_start_action x) as [a|].
      * rewrite (ac_handles _ _ Ha). apply om_collect_sorted. apply _.
      * destruct Ha as (_ & -> & _). constructor.
  - apply collect_action_ids, Hw.
  - apply collect_action_ids, Hw.
Qed.

Lemma reopened_wf c x : snapshot_wf (with_subject c x) → snapshot_wf (reopened c x).
Proof.
  intros Hw. apply wf_with_pending; [done|]. pose proof (wf_pending _ Hw) as Hp. unfold pending_wf in *. cbn in *.
  destruct (rsn_pending_action x) as [a|].
  - destruct Hp as [H1 H2 H3 H4 H5 H6 Hop]. constructor; try assumption. destruct (pa_operation a).
    + destruct Hop as [P1 P2 P3 P4 P5 P6]. constructor; try assumption. cbn. by rewrite orb_true_r.
    + destruct Hop as [P1 P2 P3 P4 P5 P6]. constructor; try assumption. cbn in *. by rewrite P1.
  - destruct Hp as (-> & -> & -> & -> & ->). done.
Qed.

Lemma restore_wf s0 binding env decision now s :
  product_wf s0 → host_sound env s0 →
  restore_cleanup_only_with_live_broker_runtime binding env decision (snapshot_of s0) now = Ok s →
  product_wf s ∧ ∃ c, restored c (snapshot_of s0) s.
Proof.
  intros Hw0 Hh. unfold restore_cleanup_only_with_live_broker_runtime. rewrite !then_ok.
  intros (_ & Hv & _ & _ & _ & _ & H). rewrite ok_or_bind_ok in H. destruct H as (c & Hc & H).
  rewrite then_ok in H. destruct H as [Hacc H].
  assert (binding = rsn_binding (snapshot_of s0)) as ->.
  { unfold validate_product_recovery_snapshot in Hv. rewrite ok_or_bind_ok in Hv. destruct Hv as (bytes & _ & Hv).
    apply fail_if_bind_ok in Hv as [Hv _]. unfold snapshot_shape_invalid in Hv. rewrite !orb_false_iff in Hv.
    destruct_and! Hv. by bool_to_prop. }
  destruct (restore_reopens _ _ _ _ (proj1 Hw0) H) as [Hr _].
  destruct (wf_session _ (proj1 Hw0)) as [acc Ha]. cbn in Ha.
  assert (Hs : product_wf (set_current_acceptance c s0)).
  { eapply adopt_wf; [done|done| |exact Ha|exact Hacc| |done]; [unfold host_answers; eauto|].
    intros acc0 H0. cbn in H0. rewrite H0 in Ha. by injection Ha as ->. }
  split; [|by exists c]. destruct Hr. split; [|done]. rewrite rs_snapshot0. apply reopened_wf, Hs.
Qed.
End Restore.
