(* ===== verification/ProductReach.v ===== *)
(** * Product runtime: reachable runtimes

    A runtime is created, called and, when its process dies, restored from what
    it journalled. A call of a provider is two steps, since the process can die
    in between; the readback and its verification are arbitrary. *)

From S2P Require Import Prelude RustStr OrdMap StateResult UpdateAdmission MediaModel MediaSpec MediaRuntime MediaLifecycle MediaComposition CleanupTicket OwnerEffect ProductBinding ProductModel ProductActions ProductSnapshot WireFrame ProductRuntime ProductOrder ProductInvariant ProductMethods ProductAdvance ProductRestore.

Local Open Scope N_scope.
Local Open Scope quest_scope.

Section Reach.
Context {RC : ReleaseCrypto} {SpE : SpecEncoding} `{ML : ManifoldLaws} {SE : SnapshotEncoding}.
Context {J : Type} {RJ : MediaStreamRecoveryJournal J}.
Abbreviation product := (MediaStreamSessionProductRuntime (J := J)).
Implicit Types (s : product) (a : MediaStreamPlatformAction) (env : HostEnv).

(** The methods, up to and from the calls of providers. *)
Inductive ProductCall :=
  | CallPrepare (env : HostEnv) (id : string) (op : MediaStreamPlatformOperation)
      (client : MediaStreamClientAuthorityBinding) (now : N)
  | CallPrepareLive (env : HostEnv) (id : string) (op : MediaStreamPlatformOperation)
      (client : MediaStreamClientAuthorityBinding) (now : N)
  | CallPrepareCleanup (env : HostEnv) (evidence : MediaStreamTrustedRevokerCleanupEvidence) (id : string) (now : N)
  | CallBeginOwner (env : HostEnv) (kind provider_kind : MediaStreamOwnerKind) (now : N)
  | CallBeginUncertainStop (env : HostEnv) (provider_kind : MediaStreamOwnerKind) (now : N)
  | CallApply (env : HostEnv) (now : N)
  | CallBeginAbort
  | CallBeginAbortOwner (provider_kind : MediaStreamOwnerKind)
  | CallFinalizeAbort
  | CallRenew (env : HostEnv) (receipt : RenewalReceipt) (now : N)
  | CallRevalidate (verifier : MediaStreamRecoveryReceiptVerifier)
  | CallInstall (journal : J).

(** The host that a call asks. *)
Definition call_env (call : ProductCall) : option HostEnv :=
  match call with
  | CallPrepare env _ _ _ _ | CallPrepareLive env _ _ _ _ | CallPrepareCleanup env _ _ _
  | CallBeginOwner env _ _ _ | CallBeginUncertainStop env _ _ | CallApply env _ | CallRenew env _ _ => Some env
  | _ => None
  end.

Definition run_call (call : ProductCall) s : product :=
  match call with
  | CallPrepare env id op client now => (prepare env id op client now s).1
  | CallPrepareLive env id op client now => (prepare_with_live_authority env id op client now s).1
  | CallPrepareCleanup env evidence id now => (prepare_trusted_revoker_cleanup env evidence id now s).1
  | CallBeginOwner env kind provider_kind now => (begin_owner env kind provider_kind now s).1
  | CallBeginUncertainStop env provider_kind now => (begin_uncertain_stop env provider_kind now s).1
  | CallApply env now => (apply_recorded_owner_completions env now s).1
  | CallBeginAbort => (begin_partial_start_abort s).1
  | CallBeginAbortOwner provider_kind => (begin_abort_owner provider_kind s).1
  | CallFinalizeAbort => (finalize_partial_start_abort s).1
  | CallRenew env receipt now => (adopt_concurrent_authority_renewal env receipt now s).1
  | CallRevalidate verifier => (revalidate_recovered_receipts verifier s).1
  | CallInstall journal => (install_recovery_journal journal s).1.1
  end.

Inductive product_step s : product → Prop :=
  | step_call call :
      (∀ env, call_env call = Some env → host_sound env s) → product_step s (run_call call s)
  | step_readback a expected sequence verified readback :
      inflight s a expected sequence →
      product_step s (record_owner_readback a expected verified readback sequence s).1
  | step_abort_readback a call verified readback :
      abort_inflight s a call → product_step s (record_abort_readback call verified readback s).1
  | step_restart binding env decision now s' :
      host_sound env s →
      restore_cleanup_only_with_live_broker_runtime binding env decision (snapshot_of s) now = Ok s' →
      product_step s s'.

Inductive product_reachable : product → Prop :=
  | reach_new source binding env now s :
      is_blank (as_str (he_provider_epoch_id env)) = false →
      product_new source binding env now = Ok s → product_reachable s
  | reach_step s s' : product_reachable s → product_step s s' → product_reachable s'.

(** ** The invariant *)

Lemma wp_state {A} (m : state_result product MediaStreamProductRuntimeError A) (P : product → Prop) s :
  wp m (fun s' _ => P s') s → P (m s).1.
Proof. unfold wp. by destruct (m s). Qed.

Lemma call_wf s call :
  product_wf s → (∀ env, call_env call = Some env → host_sound env s) → product_wf (run_call call s).
Proof.
  intros Hw Hh. destruct call; cbn in *; try (specialize (Hh _ eq_refl)).
  - by apply wp_state, prepare_wf.
  - by apply wp_state, prepare_with_live_authority_wf.
  - by apply wp_state, prepare_trusted_revoker_cleanup_wf.
  - apply wp_state. eapply wp_mono; [|by apply begin_owner_wf]. by intros s' r [H _].
  - apply wp_state. eapply wp_mono; [|by apply begin_uncertain_stop_wf]. by intros s' r [H _].
  - by apply wp_state, apply_wf.
  - by apply wp_state, begin_partial_start_abort_wf.
  - apply wp_state. eapply wp_mono; [|by apply begin_abort_owner_wf]. by intros s' r [H _].
  - by apply wp_state, finalize_wf.
  - by apply wp_state, adopt_renewal_wf.
  - by apply wp_state, revalidate_wf.
  - by apply install_wf.
Qed.

Lemma step_wf s s' : product_wf s → product_step s s' → product_wf s'.
Proof.
  intros Hw [call Hh|a expected sequence verified readback Hi|a call verified readback Hi|binding env decision now t Hh Hr].
  - by apply call_wf.
  - by eapply wp_state, record_owner_readback_wf.
  - by eapply wp_state, record_abort_readback_wf.
  - by eapply restore_wf.
Qed.

Lemma reachable_wf s : product_reachable s → product_wf s.
Proof. induction 1; [by eapply product_new_wf|by eapply step_wf]. Qed.

(** ** After a restore *)

(** [m] keeps a relation between the restore flag, the pending action and the
    rollback flag. *)
Definition related (R : bool → option MediaStreamPlatformAction → bool → Prop) s : Prop :=
  R (mpr_cleanup_only_after_restore s) (mpr_pending_action s) (mpr_abort_in_progress s).

Definition keeps {A} (R : bool → option MediaStreamPlatformAction → bool → Prop)
    (m : state_result product MediaStreamProductRuntimeError A) : Prop :=
  ∀ s, related R s → wp m (fun s' _ => related R s') s.

Section Rules.
Context (R : bool → option MediaStreamPlatformAction → bool → Prop).

Lemma keeps_bind {A B} (m : state_result product MediaStreamProductRuntimeError A) (f : A → state_result product _ B) :
  keeps R m → (∀ x, keeps R (f x)) → keeps R (mbind f m).
Proof. intros Hm Hf s Hs. apply wp_bind. eapply wp_mono; [|by apply Hm]. intros s' [x|e] Hs'; [by apply Hf|done]. Qed.

Lemma keeps_ret {A} (x : A) : keeps R (mret x).
Proof. by intros s Hs. Qed.
Lemma keeps_lift {A} (r : result MediaStreamProductRuntimeError A) : keeps R (lift r).
Proof. by intros s Hs. Qed.
Lemma keeps_asks {A} (f : product → result MediaStreamProductRuntimeError A) : keeps R (asks f).
Proof. by intros s Hs. Qed.
Lemma keeps_gets {A} (f : product → A) : keeps R (gets f).
Proof. by intros s Hs. Qed.
Lemma keeps_reject_if cond e : keeps R (reject_if cond e).
Proof. intros s Hs. by apply wp_reject_if. Qed.
Lemma keeps_modify f : (∀ s, related R s → related R (f s)) → keeps R (modify f).
Proof. intros Hf s Hs. apply wp_modify. auto. Qed.
Lemma keeps_if {A} (b : bool) (m m' : state_result product MediaStreamProductRuntimeError A) :
  keeps R m → keeps R m' → keeps R (if b then m else m').
Proof. by destruct b. Qed.
Lemma keeps_commit : keeps R commit_recovery_journal.
Proof. intros s Hs. by apply commit_frame. Qed.
Lemma keeps_execute request : keeps R (execute_lifecycle request).
Proof. intros s Hs. unfold wp, execute_lifecycle. by destruct (runtime_execute (mpr_runtime s) request). Qed.
End Rules.

(** Reduces a method to its assignments, and drops those to other fields. *)
Local Ltac keeps_steps :=
  repeat match goal with
  | |- ∀ _, keeps _ _ => let x := fresh "x" in intros x
  | |- keeps _ (mbind _ _) => apply keeps_bind
  | |- keeps _ (mret _) => apply keeps_ret
  | |- keeps _ (lift _) => apply keeps_lift
  | |- keeps _ (asks _) => apply keeps_asks
  | |- keeps _ (gets _) => apply keeps_gets
  | |- keeps _ (reject_if _ _) => apply keeps_reject_if
  | |- keeps _ commit_recovery_journal => apply keeps_commit
  | |- keeps _ (execute_lifecycle _) => apply keeps_execute
  | |- keeps _ (if _ then _ else _) => apply keeps_if
  | |- keeps _ (modify _) => apply keeps_modify; try done
  end.

Lemma keeps_refresh R env now req : keeps R (refresh_authority env now req).
Proof. unfold refresh_authority. by keeps_steps. Qed.

Lemma keeps_review R env id op client now : keeps R (review_prepare env id op client now).
Proof. unfold review_prepare. keeps_steps. by apply keeps_refresh. Qed.

(** No method but [prepare] begins a Start, and [prepare] refuses a restored
    runtime. *)
Definition rollback_only (restored : bool) (pending : option MediaStreamPlatformAction) (abort : bool) : Prop :=
  restored = true → ∀ a, pending = Some a → pa_operation a = OpStart → abort = true.

Lemma prepare_restored env id op client now s :
  mpr_cleanup_only_after_restore s = true → ∃ e, prepare env id op client now s = (s, Err e).
Proof.
  intros Hc. unfold prepare, review_prepare, mbind, state_result_bind, reject_if.
  destruct (mpr_recovery_journal_poisoned s); cbn; [eauto|]. rewrite Hc. cbn. eauto.
Qed.

Lemma keeps_prepare env id op client now : keeps rollback_only (prepare env id op client now).
Proof.
  intros s Hs. destruct (mpr_cleanup_only_after_restore s) eqn:Hc.
  - unfold wp. by destruct (prepare_restored env id op client now s Hc) as [e ->].
  - eapply wp_mono with (P := fun s' _ => related (fun restored _ _ => restored = false) s').
    { unfold related, rollback_only. intros s' _ ->. done. }
    apply (keeps_bind (fun restored _ _ => restored = false)); [apply keeps_review| |done]. by keeps_steps.
Qed.

Lemma keeps_prepare_cleanup env evidence id now : keeps rollback_only (prepare_trusted_revoker_cleanup env evidence id now).
Proof.
  unfold prepare_trusted_revoker_cleanup. do 6 (apply keeps_bind; [by keeps_steps|intros ?]).
  intros s Hs. apply wp_bind, wp_gets, wp_bind, wp_modify. apply keeps_bind; [apply keeps_commit|by keeps_steps|].
  by intros _ a [= <-].
Qed.

Lemma keeps_begin_owner R env kind provider_kind now : keeps R (begin_owner env kind provider_kind now).
Proof. unfold begin_owner. keeps_steps. by apply keeps_refresh. Qed.

Lemma keeps_begin_uncertain_stop R env provider_kind now : keeps R (begin_uncertain_stop env provider_kind now).
Proof. unfold begin_uncertain_stop. keeps_steps. by apply keeps_refresh. Qed.

Lemma keeps_record R a expected verified readback sequence : keeps R (record_owner_readback a expected verified readback sequence).
Proof. unfold record_owner_readback. by keeps_steps. Qed.

Lemma keeps_record_abort R call verified readback : keeps R (record_abort_readback call verified readback).
Proof. destruct call as [[[[action expected] sequence] started] retrying]. unfold record_abort_readback. by keeps_steps. Qed.

Lemma keeps_begin_abort : keeps rollback_only begin_partial_start_abort.
Proof. unfold begin_partial_start_abort. by keeps_steps. Qed.

Lemma keeps_begin_abort_owner R provider_kind : keeps R (begin_abort_owner provider_kind).
Proof. unfold begin_abort_owner. keeps_steps. intros s Hs. by case_match. Qed.

Lemma keeps_finalize : keeps rollback_only finalize_partial_start_abort.
Proof. unfold finalize_partial_start_abort. by keeps_steps. Qed.

Lemma keeps_apply env now : keeps rollback_only (apply_recorded_owner_completions env now).
Proof.
  unfold apply_recorded_owner_completions. keeps_steps; [by apply keeps_refresh|..].
  unfold advance_lifecycle. destruct (pa_operation _); by keeps_steps.
Qed.

Lemma keeps_renew R env receipt now : keeps R (adopt_concurrent_authority_renewal env receipt now).
Proof. unfold adopt_concurrent_authority_renewal. by keeps_steps. Qed.

Lemma keeps_revalidate R verifier : keeps R (revalidate_recovered_receipts verifier).
Proof. unfold revalidate_recovered_receipts. by keeps_steps. Qed.

Lemma call_keeps s call : related rollback_only s → related rollback_only (run_call call s).
Proof.
  intros Hs. destruct call; cbn [run_call].
  - by apply wp_state, keeps_prepare.
  - unfold prepare_with_live_authority. pose proof (keeps_prepare env id op client now s Hs) as Hp. unfold wp in Hp.
    destruct (prepare env id op client now s) as [c [a|e]]; [done|]. by destruct (mpr_recovery_journal_poisoned c).
  - by apply wp_state, keeps_prepare_cleanup.
  - by apply wp_state, keeps_begin_owner.
  - by apply wp_state, keeps_begin_uncertain_stop.
  - by apply wp_state, keeps_apply.
  - by apply wp_state, keeps_begin_abort.
  - by apply wp_state, keeps_begin_abort_owner.
  - by apply wp_state, keeps_finalize.
  - by apply wp_state, keeps_renew.
  - by apply wp_state, keeps_revalidate.
  - unfold install_recovery_journal. destruct (_ || _); [done|]. destruct (recovery_snapshot s); [|done].
    by destruct (journal_commit journal _) as [j [[]|e]].
Qed.

(** A restored runtime stays restored. *)
Definition restored_flag (restored : bool) (_ : option MediaStreamPlatformAction) (_ : bool) : Prop := restored = true.

Lemma call_restored s call : mpr_cleanup_only_after_restore s = true → mpr_cleanup_only_after_restore (run_call call s) = true.
Proof.
  intros Hs. change (related restored_flag (run_call call s)). destruct call; cbn [run_call].
  - by destruct (prepare_restored env id op client now s Hs) as [e ->].
  - unfold prepare_with_live_authority. destruct (prepare_restored env id op client now s Hs) as [e ->]. by case_match.
  - apply wp_state. unfold prepare_trusted_revoker_cleanup. eapply (keeps_bind restored_flag); [by keeps_steps..|done].
  - by apply wp_state, keeps_begin_owner.
  - by apply wp_state, keeps_begin_uncertain_stop.
  - apply wp_state. revert s Hs. change (keeps restored_flag (apply_recorded_owner_completions env now)).
    unfold apply_recorded_owner_completions. keeps_steps; [by apply keeps_refresh|..].
    + unfold advance_lifecycle. destruct (pa_operation _); by keeps_steps.
    + intros s Hs. unfold related, adopt_completions. by destruct (pa_operation _).
  - apply wp_state. revert s Hs. change (keeps restored_flag begin_partial_start_abort).
    unfold begin_partial_start_abort. by keeps_steps.
  - by apply wp_state, keeps_begin_abort_owner.
  - apply wp_state. revert s Hs. change (keeps restored_flag finalize_partial_start_abort).
    unfold finalize_partial_start_abort. by keeps_steps.
  - by apply wp_state, keeps_renew.
  - by apply wp_state, keeps_revalidate.
  - unfold install_recovery_journal. destruct (_ || _); [done|]. destruct (recovery_snapshot s); [|done].
    by destruct (journal_commit journal _) as [j [[]|e]].
Qed.

Lemma step_restored s s' :
  product_wf s → product_step s s' → mpr_cleanup_only_after_restore s = true → mpr_cleanup_only_after_restore s' = true.
Proof.
  intros Hw [call Hh|a expected sequence verified readback Hi|a call verified readback Hi|binding env decision now t Hh Hres] Hs.
  - by apply call_restored.
  - by apply (wp_state _ (related restored_flag)), keeps_record.
  - by apply (wp_state _ (related restored_flag)), keeps_record_abort.
  - by destruct (restore_wf _ _ _ _ _ _ Hw Hh Hres) as (_ & c & [_ _ ? _ _ _]).
Qed.

Lemma reachable_rollback_only s : product_reachable s → related rollback_only s.
Proof.
  induction 1 as [source binding env now s He Hn|s s' Hr IH Hstep].
  - unfold product_new in Hn. rewrite then_ok, fail_if_bind_ok in Hn. destruct Hn as (_ & _ & Hn).
    apply bind_ok in Hn as (c & _ & Hn). rewrite then_ok in Hn. destruct Hn as [_ Hn].
    by apply bind_ok in Hn as (rt & _ & [= <-]).
  - destruct Hstep as [call Hh|a expected sequence verified readback Hi|a call verified readback Hi|binding env decision now t Hh Hres].
    + by apply call_keeps.
    + by apply wp_state, keeps_record.
    + by apply wp_state, keeps_record_abort.
    + destruct (restore_wf _ _ _ _ _ _ (reachable_wf _ Hr) Hh Hres) as (_ & c & [Hsnap _ _ _ _ _]).
      intros _ a Ha Hop. apply (f_equal (fun x => (rsn_pending_action x, rsn_abort_in_progress x))) in Hsnap.
      cbn in Hsnap. injection Hsnap as Hp Hab. rewrite Ha in Hp. rewrite <- Hp, Hop in Hab.
      by rewrite bool_decide_true, orb_true_r in Hab.
Qed.
End Reach.
