(* ===== verification/ProductJournal.v ===== *)
(** * Product runtime: what is on disk

    Every method writes the journal last: what is durable is the snapshot of a
    state that the runtime has been in, whatever failed since. *)

From S2P Require Import Prelude RustStr OrdMap StateResult UpdateAdmission MediaModel MediaSpec MediaRuntime MediaLifecycle MediaComposition CleanupTicket OwnerEffect ProductBinding ProductModel ProductActions ProductSnapshot WireFrame ProductRuntime ProductOrder ProductInvariant ProductMethods ProductAdvance ProductRestore ProductReach.

Local Open Scope N_scope.
Local Open Scope quest_scope.

Section Durable.
Context {RC : ReleaseCrypto} {SpE : SpecEncoding} `{ML : ManifoldLaws} {SE : SnapshotEncoding}.
Context {J : Type} {RJ : MediaStreamRecoveryJournal J} {JL : RecoveryJournalLaws J}.
Abbreviation product := (MediaStreamSessionProductRuntime (J := J)).
Abbreviation snapshot := MediaStreamSessionProductRecoverySnapshot.
Abbreviation method := (state_result product MediaStreamProductRuntimeError).
Implicit Types (s : product) (x : snapshot).

(** What a restart would find. *)
Definition durable s : option snapshot := mpr_recovery_journal s ≫= journal_durable.

(** No write, and no write followed by an assignment. *)
Definition silent {A} (m : method A) : Prop := ∀ s, wp m (fun s' _ => durable s' = durable s) s.
Definition observes {A} (m : method A) : Prop := ∀ s, wp m (fun s' _ => s' = s) s.
Definition logged {A} (m : method A) : Prop :=
  ∀ s, wp m (fun s' _ => durable s' = durable s ∨ durable s' = Some (snapshot_of s')) s.

Lemma silent_logged {A} (m : method A) : silent m → logged m.
Proof. intros H s. eapply wp_mono; [|apply H]. auto. Qed.
Lemma observes_silent {A} (m : method A) : observes m → silent m.
Proof. intros H s. eapply wp_mono; [|apply H]. by intros s' _ ->. Qed.

Lemma silent_bind {A B} (m : method A) (f : A → method B) : silent m → (∀ a, silent (f a)) → silent (mbind f m).
Proof.
  intros Hm Hf s. apply wp_bind. eapply wp_mono; [|apply Hm]. intros s' [a|e] <-; [apply Hf|done].
Qed.
Lemma observes_bind {A B} (m : method A) (f : A → method B) : observes m → (∀ a, observes (f a)) → observes (mbind f m).
Proof. intros Hm Hf s. apply wp_bind. eapply wp_mono; [|apply Hm]. intros s' [a|e] ->; [apply Hf|done]. Qed.
Lemma logged_first {A B} (m : method A) (f : A → method B) : silent m → (∀ a, logged (f a)) → logged (mbind f m).
Proof.
  intros Hm Hf s. apply wp_bind. eapply wp_mono; [|apply Hm]. intros s' [a|e] <-; [apply Hf|by left].
Qed.
Lemma logged_last {A B} (m : method A) (f : A → method B) : logged m → (∀ a, observes (f a)) → logged (mbind f m).
Proof.
  intros Hm Hf s. apply wp_bind. eapply wp_mono; [|apply Hm]. intros s' [a|e] H; [|done].
  eapply wp_mono; [|apply Hf]. by intros s2 _ ->.
Qed.

Lemma observes_ret {A} (a : A) : observes (mret a).
Proof. done. Qed.
Lemma observes_lift {A} (r : result _ A) : observes (lift r).
Proof. done. Qed.
Lemma observes_asks {A} (f : product → result _ A) : observes (asks f).
Proof. done. Qed.
Lemma observes_gets {A} (f : product → A) : observes (gets f).
Proof. done. Qed.
Lemma observes_reject_if cond e : observes (reject_if cond e).
Proof. done. Qed.
Lemma silent_modify f : (∀ s, durable (f s) = durable s) → silent (modify f).
Proof. intros H s. by apply wp_modify. Qed.
Lemma silent_execute request : silent (execute_lifecycle request).
Proof. intros s. unfold wp, execute_lifecycle. by destruct (runtime_execute (mpr_runtime s) request). Qed.

Lemma logged_commit : logged commit_recovery_journal.
Proof.
  intros s. unfold wp, commit_recovery_journal. destruct (mpr_recovery_journal_poisoned s); [by left|].
  destruct (mpr_recovery_journal s) as [j|] eqn:Ej; [|by left]. unfold recovery_snapshot.
  destruct (snapshot_to_vec (snapshot_of s)) as [bytes|]; cbn; [|by left].
  destruct (fail_if _ _) as [[]|e]; cbn; [|by left].
  destruct (journal_commit j (snapshot_of s)) as [j' [[]|e]] eqn:Ec; unfold durable; cbn; rewrite Ej; cbn.
  - right. by apply journal_commit_ok in Ec.
  - apply journal_commit_err in Ec as [->| ->]; [by left|by right].
Qed.

Lemma logged_if {A} (b : bool) (m m' : method A) : logged m → logged m' → logged (if b then m else m').
Proof. by destruct b. Qed.

Local Ltac observe :=
  repeat match goal with
  | |- ∀ _, _ => let x := fresh "x" in intros x
  | |- observes (mbind _ _) => apply observes_bind
  | |- observes (mret _) => apply observes_ret
  | |- observes (lift _) => apply observes_lift
  | |- observes (asks _) => apply observes_asks
  | |- observes (gets _) => apply observes_gets
  | |- observes (reject_if _ _) => apply observes_reject_if
  end.

Local Ltac quiet :=
  repeat match goal with
  | |- silent (mbind _ _) => apply silent_bind; [|intros ?]
  | |- silent (execute_lifecycle _) => apply silent_execute
  | |- silent (modify _) => apply silent_modify; intros ?; try done
  | |- silent _ => apply observes_silent; solve [observe]
  end.

(** The statements of a method before its write are silent, those after it only
    observe. *)
Local Ltac logs :=
  repeat match goal with
  | |- logged (mbind _ commit_recovery_journal) => apply logged_last; [apply logged_commit|observe]
  | |- logged commit_recovery_journal => apply logged_commit
  | |- logged (mbind _ _) => apply logged_first; [try solve [quiet]|intros ?]
  | |- logged (if _ then _ else _) => apply logged_if
  end.

Lemma silent_refresh env now req : silent (refresh_authority env now req).
Proof. unfold refresh_authority. quiet. Qed.

Lemma silent_review env id op client now : silent (review_prepare env id op client now).
Proof. unfold review_prepare. do 2 (apply silent_bind; [quiet|intros ?]). apply silent_bind; [apply silent_refresh|intros ?]. quiet. Qed.

Lemma logged_prepare env id op client now : logged (prepare env id op client now).
Proof. unfold prepare. apply logged_first; [apply silent_review|intros ?]. logs. Qed.
Lemma logged_prepare_cleanup env evidence id now : logged (prepare_trusted_revoker_cleanup env evidence id now).
Proof. unfold prepare_trusted_revoker_cleanup. logs. Qed.
Lemma logged_begin_owner env kind provider_kind now : logged (begin_owner env kind provider_kind now).
Proof. unfold begin_owner. logs. apply silent_refresh. Qed.
Lemma logged_begin_uncertain_stop env provider_kind now : logged (begin_uncertain_stop env provider_kind now).
Proof. unfold begin_uncertain_stop. logs. apply silent_refresh. Qed.
Lemma logged_record a expected verified readback sequence : logged (record_owner_readback a expected verified readback sequence).
Proof. unfold record_owner_readback. logs. Qed.
Lemma logged_record_abort call verified readback : logged (record_abort_readback call verified readback).
Proof. destruct call as [[[[action expected] sequence] started] retrying]. unfold record_abort_readback. logs. Qed.
Lemma logged_begin_abort : logged begin_partial_start_abort.
Proof. unfold begin_partial_start_abort. logs. Qed.
Lemma logged_begin_abort_owner provider_kind : logged (begin_abort_owner provider_kind).
Proof. unfold begin_abort_owner. logs. apply silent_modify. intros s. by case_match. Qed.
Lemma logged_finalize : logged finalize_partial_start_abort.
Proof. unfold finalize_partial_start_abort. logs. Qed.
Lemma logged_apply env now : logged (apply_recorded_owner_completions env now).
Proof.
  unfold apply_recorded_owner_completions. logs; [apply silent_refresh|..].
  - unfold advance_lifecycle. destruct (pa_operation _); quiet.
  - apply silent_modify. intros s. unfold adopt_completions. by destruct (pa_operation _).
Qed.
Lemma logged_renew env receipt now : logged (adopt_concurrent_authority_renewal env receipt now).
Proof. unfold adopt_concurrent_authority_renewal. logs. Qed.
Lemma silent_revalidate verifier : silent (revalidate_recovered_receipts verifier).
Proof. unfold revalidate_recovered_receipts. quiet. Qed.

(** A new write is the snapshot of the state it leaves, or, when the live
    authority could not be taken over, of the candidate. *)
Lemma logged_run {A} (m : method A) s :
  logged m → durable (m s).1 = durable s ∨ durable (m s).1 = Some (snapshot_of (m s).1).
Proof. intros H. specialize (H s). unfold wp in H. by destruct (m s). Qed.

Lemma durable_poisoned s b : durable (if b : bool then set_recovery_journal_poisoned true s else s) = durable s.
Proof. by destruct b. Qed.

Lemma call_durable s call :
  product_reachable s → (∀ env, call_env call = Some env → host_sound env s) →
  durable (run_call call s) = durable s ∨
  ∃ s0, product_reachable s0 ∧ durable (run_call call s) = Some (snapshot_of s0).
Proof.
  intros Hr Hh. assert (Hs : product_reachable (run_call call s)) by (by eapply reach_step, step_call).
  assert (Hown : durable (run_call call s) = durable s ∨ durable (run_call call s) = Some (snapshot_of (run_call call s)) →
    durable (run_call call s) = durable s ∨ ∃ s0, product_reachable s0 ∧ durable (run_call call s) = Some (snapshot_of s0)).
  { intros [?|?]; eauto. }
  destruct call; cbn [run_call] in *.
  - apply Hown, logged_run, logged_prepare.
  - pose proof (reach_step _ _ Hr (step_call s (CallPrepare env id op client now) Hh)) as Hc. cbn [run_call] in Hc.
    pose proof (logged_run _ s (logged_prepare env id op client now)) as Hl. revert Hl Hc.
    unfold prepare_with_live_authority. destruct (prepare env id op client now s) as [c [a|e]]; cbn [fst]; intros Hl Hc.
    + destruct Hl as [?|?]; eauto.
    + rewrite durable_poisoned. change (durable (set_recovery_journal (mpr_recovery_journal c) s)) with (durable c).
      destruct Hl as [?|?]; eauto.
  - apply Hown, logged_run, logged_prepare_cleanup.
  - apply Hown, logged_run, logged_begin_owner.
  - apply Hown, logged_run, logged_begin_uncertain_stop.
  - apply Hown, logged_run, logged_apply.
  - apply Hown, logged_run, logged_begin_abort.
  - apply Hown, logged_run, logged_begin_abort_owner.
  - apply Hown, logged_run, logged_finalize.
  - apply Hown, logged_run, logged_renew.
  - apply Hown, logged_run, silent_logged, silent_revalidate.
  - apply Hown. unfold install_recovery_journal. destruct (_ || _); [by left|]. unfold recovery_snapshot.
    destruct (snapshot_to_vec _) as [bytes|]; cbn; [|by left]. destruct (fail_if _ _) as [[]|]; cbn; [|by left].
    destruct (journal_commit journal (snapshot_of s)) as [j [[]|e]] eqn:Ec; cbn; [|by left].
    right. unfold durable. cbn. by apply journal_commit_ok in Ec.
Qed.

Lemma reachable_durable s x : product_reachable s → durable s = Some x → ∃ s0, product_reachable s0 ∧ x = snapshot_of s0.
Proof.
  intros Hr. revert x. induction Hr as [source binding env now s He Hn|s s' Hr IH Hstep]; intros x Hx.
  - unfold product_new in Hn. rewrite then_ok, fail_if_bind_ok in Hn. destruct Hn as (_ & _ & Hn).
    apply bind_ok in Hn as (c & _ & Hn). rewrite then_ok in Hn. destruct Hn as [_ Hn].
    by apply bind_ok in Hn as (rt & _ & [= <-]).
  - pose proof (reach_step _ _ Hr Hstep) as Hs'.
    assert (Hown : durable s' = durable s ∨ durable s' = Some (snapshot_of s') → ∃ s0, product_reachable s0 ∧ x = snapshot_of s0).
    { intros [E|E]; rewrite E in Hx; [by apply IH|]. injection Hx as <-. eauto. }
    destruct Hstep as [call Hh|a expected sequence verified readback Hi|a call verified readback Hi|binding env decision now t Hh Hres].
    + destruct (call_durable s call Hr Hh) as [E|(s0 & H0 & E)]; rewrite E in Hx; [by apply IH|]. injection Hx as <-. eauto.
    + apply Hown, logged_run, logged_record.
    + apply Hown, logged_run, logged_record_abort.
    + destruct (restore_wf _ _ _ _ _ _ (reachable_wf _ Hr) Hh Hres) as (_ & c & [_ _ _ _ Hj _]).
      unfold durable in Hx. by rewrite Hj in Hx.
Qed.
End Durable.
