(* ===== verification/ProductProgress.v ===== *)
(** * Product runtime: progress

    With a journal that writes, recorded completions are applied, and a rollback
    with providers that give the right readbacks ends after one call per owner. *)

From S2P Require Import Prelude RustStr OrdMap StateResult UpdateAdmission MediaModel MediaSpec MediaRuntime MediaLifecycle MediaComposition CleanupTicket OwnerEffect ProductBinding ProductModel ProductActions ProductSnapshot WireFrame ProductRuntime ProductOrder ProductInvariant ProductMethods ProductAdvance ProductRestore ProductReach ProductJournal.

Local Open Scope N_scope.
Local Open Scope quest_scope.

(** A rollback driven to its end: the owner that is next, with the provider of
    its family, then the final receipt. [fuel] bounds the calls. *)
Section RollBack.
Context {MM : ManifoldMedia} {SE : SnapshotEncoding} {J : Type} {RJ : MediaStreamRecoveryJournal J}.
Context {P : Type} {PR : MediaStreamTrustedOwnerProvider P}.

Definition next_abort_owner (s : MediaStreamSessionProductRuntime (J := J)) : option MediaStreamOwnerAction :=
  action ← pending_abort_action s;
  pa_owner_actions action !! length (mpr_pending_abort_receipts s).

Fixpoint roll_back (fuel : nat) (natives : MediaStreamOwnerKind → P) (s : MediaStreamSessionProductRuntime (J := J))
    : MediaStreamSessionProductRuntime * result MediaStreamProductRuntimeError MediaStreamPlatformAbortReceipt :=
  match next_abort_owner s with
  | None => finalize_partial_start_abort s
  | Some owner =>
      match fuel with
      | O => (s, Err AbortCallbacksIncomplete)
      | S fuel =>
          let kind := own_owner_kind (oa_selection owner) in
          let '(native, s, outcome) := complete_next_abort_owner (natives kind) s in
          match outcome with
          | Err e => (s, Err e)
          | Ok _ => roll_back fuel (fun k => if decide (k = kind) then native else natives k) s
          end
      end
  end.
End RollBack.

Section Progress.
Context {RC : ReleaseCrypto} {SpE : SpecEncoding} `{ML : ManifoldLaws} {SE : SnapshotEncoding}.
Context {J : Type} {RJ : MediaStreamRecoveryJournal J}.
Abbreviation product := (MediaStreamSessionProductRuntime (J := J)).
Implicit Types (s : product) (a : MediaStreamPlatformAction) (env : HostEnv).

(** The journal writes and the snapshots are small enough. *)
Definition journal_writes : Prop :=
  (∀ (j : J) x, ∃ j', journal_commit j x = (j', Ok tt)) ∧
  ∀ x, ∃ bytes, snapshot_to_vec x = Some bytes ∧ len bytes ≤ MAX_MEDIA_STREAM_PRODUCT_RECOVERY_BYTES.

Definition journalled s : Prop :=
  mpr_recovery_journal_poisoned s = false ∧
  (is_Some (mpr_recovery_journal s) ∨ mpr_cleanup_only_after_restore s = false).

Lemma commit_writes s : journal_writes → journalled s →
  ∃ j, commit_recovery_journal s = (set_recovery_journal j s, Ok tt) ∧ journalled (set_recovery_journal j s).
Proof.
  intros [Hj Hx] [Hp Hs]. unfold commit_recovery_journal. rewrite Hp. destruct (mpr_recovery_journal s) as [j|] eqn:Ej.
  - unfold recovery_snapshot. destruct (Hx (snapshot_of s)) as (bytes & -> & Hb). cbn.
    destruct (N.ltb_spec MAX_MEDIA_STREAM_PRODUCT_RECOVERY_BYTES (len bytes)); [lia|]. cbn.
    destruct (Hj j (snapshot_of s)) as [j' ->]. exists (Some j'). split; [done|]. split; [done|]. left. eauto.
  - destruct Hs as [[]|Hs]; [done|]. exists None. rewrite Hs. split.
    + by destruct s; cbn in Ej; subst.
    + by split; [|right].
Qed.

Lemma install_writes s journal :
  journal_writes → mpr_recovery_journal_poisoned s = false → mpr_recovery_journal s = None →
  ∃ j, install_recovery_journal journal s = (set_recovery_journal (Some j) s, j, Ok tt).
Proof.
  intros [Hj Hx] Hp Hn. unfold install_recovery_journal, recovery_snapshot. rewrite Hp, Hn.
  destruct (Hx (snapshot_of s)) as (bytes & -> & Hb). cbn.
  destruct (N.ltb_spec MAX_MEDIA_STREAM_PRODUCT_RECOVERY_BYTES (len bytes)); [lia|]. cbn.
  destruct (Hj journal (snapshot_of s)) as [j ->]. eauto.
Qed.

(** ** Applying *)

Lemma wf_selections x : snapshot_wf x → runtime_spec_wf (bnd_spec (rsn_binding x)).
Proof. intros Hw. apply runtime_spec_ok, binding_validate_spec, Hw. Qed.

(** The recorded completions of a well-formed runtime are in order. *)
Lemma completions_valid s a :
  product_wf s → mpr_pending_action s = Some a → length (mpr_pending_owner_receipts s) = length (pa_owner_actions a) →
  validate_owner_completions a (mpr_pending_owner_receipts s) = Ok tt.
Proof.
  intros Hw Ha Hlen. destruct (pending_of _ _ Hw Ha) as [Hok _ _ Hpre Hdis _ _]. cbn in Hpre, Hdis.
  unfold validate_owner_completions, len. rewrite Hlen, N.eqb_refl. cbn [negb fail_if mbind result_bind].
  rewrite (proj2 (prefix_receipts_match _ _ Hpre) Hdis). cbn [negb fail_if mbind result_bind].
  apply action_ok_owners in Hok. cbn in Hok. rewrite Hok in Hpre, Hlen.
  apply (complete_order_ok (bnd_spec (mpr_binding s))); [|done..]. exact (wf_selections _ (proj1 Hw)).
Qed.

(** The phase that the operation ends in. *)
Definition applied_phase (op : MediaStreamPlatformOperation) : MediaStreamRuntimePhase :=
  match op with OpStart => SourcesStarted | OpStop => Stopped end.

Definition apply_admissible s a : Prop :=
  mpr_pending_action s = Some a ∧ mpr_abort_in_progress s = false ∧
  length (mpr_pending_owner_receipts s) = length (pa_owner_actions a) ∧
  mrs_phase (msr_state (mpr_runtime s)) ≠ Stopped ∧
  (mpr_cleanup_only_after_restore s = true → pa_operation a = OpStop ∧ mpr_recovery_receipts_revalidated s = true).

Lemma advance_progress s a :
  product_wf s → mpr_pending_action s = Some a → mrs_phase (msr_state (mpr_runtime s)) ≠ Stopped →
  ∃ st ds, advance_lifecycle a s = (with_state st s, Ok ds) ∧ mrs_phase st = applied_phase (pa_operation a).
Proof.
  intros Hw Ha Hst. destruct (pa_operation a) eqn:Hop.
  - destruct (advance_start _ _ Hw Ha Hop) as [ds E]. eauto.
  - destruct (advance_stop _ _ Hw Ha Hop) as [[? _]|(_ & ds & E)]; [done|eauto].
Qed.

(** The fields that the adoption of completions leaves or sets. *)
Lemma adopt_completions_fields a s :
  mpr_runtime (adopt_completions a s) = mpr_runtime s ∧ mpr_pending_action (adopt_completions a s) = None ∧
  (journalled s → journalled (adopt_completions a s)).
Proof. unfold adopt_completions. by destruct (pa_operation a). Qed.

Lemma apply_completes s a env now c :
  journal_writes → journalled s → product_wf s → apply_admissible s a → host_sound env s →
  refresh_authority env now (bool_decide (pa_operation a = OpStart)) s = (set_current_acceptance c s, Ok tt) →
  ∃ s' receipt, apply_recorded_owner_completions env now s = (s', Ok receipt) ∧
    mrs_phase (msr_state (mpr_runtime s')) = applied_phase (pa_operation a) ∧
    mpr_pending_action s' = None ∧ apr_action_id receipt = pa_action_id a ∧
    apr_owner_receipt_ids receipt = ocr_receipt_id <$> mpr_pending_owner_receipts s.
Proof.
  intros Hj Hjs Hw (Ha & Hab & Hlen & Hst & Hcl) Hh Href.
  assert (Hw1 : product_wf (set_current_acceptance c s)).
  { pose proof (refresh_wf s env now (bool_decide (pa_operation a = OpStart)) Hw Hh) as Hr. unfold wp in Hr.
    rewrite Href in Hr. apply Hr. }
  unfold apply_recorded_owner_completions, reject_if, mbind, state_result_bind, gets.
  assert (pending_is OpStart s = bool_decide (pa_operation a = OpStart)) as Hpi by (unfold pending_is; by rewrite Ha).
  assert (mpr_cleanup_only_after_restore s && pending_is OpStart s = false) as ->.
  { destruct (mpr_cleanup_only_after_restore s); [|done]. rewrite Hpi. destruct (Hcl eq_refl) as [-> _]. done. }
  assert (mpr_cleanup_only_after_restore s && negb (mpr_recovery_receipts_revalidated s) = false) as ->.
  { destruct (mpr_cleanup_only_after_restore s); [|done]. destruct (Hcl eq_refl) as [_ ->]. done. }
  rewrite Hab, Hpi, Href. cbn [fail_if]. unfold asks. cbn. rewrite Ha. cbn. rewrite Hlen, bool_decide_true by done. cbn.
  rewrite completions_valid by done.
  destruct (advance_progress _ _ Hw1 Ha Hst) as (st & ds & -> & Hphase). cbn.
  set (s2 := adopt_completions a _). destruct (adopt_completions_fields a (with_state st (set_current_acceptance c s)))
    as (Hrt & Hnone & Hjk). fold s2 in Hrt, Hnone, Hjk.
  destruct (commit_writes s2 Hj (Hjk Hjs)) as (j & Hc & _). unfold modify. fold s2. rewrite Hc. eexists _, _. split; [done|].
  change (mpr_runtime (set_recovery_journal j s2)) with (mpr_runtime s2).
  change (mpr_pending_action (set_recovery_journal j s2)) with (mpr_pending_action s2). rewrite Hrt, Hnone. done.
Qed.

(** ** Rolling back *)

Section Cooperative.
Context {P : Type} {PR : MediaStreamTrustedOwnerProvider P}.
(** The handle, state revision and receipt that reversing an owner reports. *)
Context (report : MediaStreamOwnerSelection → string * N * string).

(** Every provider reverses its owner and reads it back. *)
Definition cooperates : Prop :=
  ∀ (p : P) action expected p' outcome,
    pa_operation action = OpStart → oa_action_kind expected = ActStop ∨ oa_action_kind expected = ActCleanup →
    execute_and_readback p action expected = (p', outcome) ∨
    compensate_uncertain_attempt p action expected = (p', outcome) →
    provider_owner_kind p' = provider_owner_kind p ∧
    ∃ readback, outcome = Ok readback ∧ readback_mismatch action expected readback = false ∧
      verify_readback p' action expected readback = true ∧
      (prb_provider_handle_id readback, prb_provider_state_revision readback, prb_receipt_id readback) =
        report (oa_selection expected).

(** The reports reverse what was started and name each owner once. *)
Record reversible s : Prop := {
  rv_started r : r ∈ mpr_pending_owner_receipts s →
    ocr_provider_handle_id r = (report (ocr_selection r)).1.1 ∧
    ocr_provider_state_revision r < (report (ocr_selection r)).1.2;
  rv_distinct sel sel' : sel ∈ rsp_owner_selections (bnd_spec (mpr_binding s)) →
    sel' ∈ rsp_owner_selections (bnd_spec (mpr_binding s)) → (report sel).2 = (report sel').2 → sel = sel';
  rv_done r : r ∈ mpr_pending_abort_receipts s → ocr_receipt_id r = (report (ocr_selection r)).2;
}.

Lemma selections_NoDup x : snapshot_wf x → NoDup (rsp_owner_selections (bnd_spec (rsn_binding x))).
Proof.
  intros Hw. apply (keys_sorted_NoDup compare_selection). exact (ow_sorted _ (rw_owners _ (wf_selections _ Hw))).
Qed.

Lemma NoDup_take {A} n (l : list A) : NoDup l → NoDup (take n l).
Proof. rewrite <- (take_drop n l) at 1. by intros [H _]%NoDup_app. Qed.

(** A rollback names every owner once. *)
Lemma abort_selections_NoDup x a receipts uncertain :
  snapshot_wf x → action_ok x a → prefix_matches (pa_owner_actions a) receipts →
  next_owner (pa_owner_actions a) receipts uncertain →
  NoDup (oa_selection <$> pa_owner_actions (partial_start_abort_action a receipts uncertain)).
Proof.
  intros Hw Hok Hp Hn.
  assert (Hd : NoDup (oa_selection <$> pa_owner_actions a)).
  { rewrite (action_ok_owners _ _ Hok). by apply ordered_NoDup, selections_NoDup. }
  cbn. rewrite fmap_app, <- !list_fmap_compose.
  assert (oa_selection ∘ (fun receipt => mkOwnerAction (ocr_selection receipt) (reverse_kind (ocr_action_kind receipt)))
    <$> rev receipts = rev (ocr_selection <$> receipts)) as ->.
  { unfold fmap. cbn. by rewrite <- map_rev. }
  rewrite (prefix_selections _ _ Hp).
  assert (Htake : NoDup (take (S (length receipts)) (oa_selection <$> pa_owner_actions a))) by (by apply NoDup_take).
  destruct uncertain as [o|]; cbn.
  - specialize (Hn o eq_refl). erewrite take_S_r in Htake by (rewrite list_lookup_fmap, Hn; done).
    apply NoDup_app in Htake as (Ht1 & Ht2 & _). constructor.
    + rewrite <- Permutation_rev. intros Hin. apply (Ht2 _ Hin). set_solver.
    + by rewrite <- Permutation_rev.
  - rewrite <- Permutation_rev. by apply NoDup_take.
Qed.

(** A rollback stops or cleans up owners of the product. *)
Lemma abort_action_owner x a receipts uncertain b :
  action_ok x a → prefix_matches (pa_owner_actions a) receipts → next_owner (pa_owner_actions a) receipts uncertain →
  b ∈ pa_owner_actions (partial_start_abort_action a receipts uncertain) →
  oa_selection b ∈ rsp_owner_selections (bnd_spec (rsn_binding x)) ∧
  (oa_action_kind b = ActStop ∨ oa_action_kind b = ActCleanup).
Proof.
  intros Hok Hp Hn Hb. assert (Hkind : ∀ k, reverse_kind k = ActStop ∨ reverse_kind k = ActCleanup) by (intros []; cbn; auto).
  assert (Hown : ∀ i o, pa_owner_actions a !! i = Some o → oa_selection o ∈ rsp_owner_selections (bnd_spec (rsn_binding x))).
  { intros i o Ho. rewrite (action_ok_owners _ _ Hok) in Ho. apply list_elem_of_lookup_2 in Ho.
    by apply ordered_kind in Ho as [Ho _]. }
  cbn in Hb. apply elem_of_app in Hb as [(o & -> & Ho)%list_elem_of_fmap|(r & -> & Hr)%list_elem_of_fmap]; (split; [|apply Hkind]).
  - destruct uncertain as [o'|]; cbn in Ho; [|set_solver]. apply list_elem_of_singleton in Ho as ->. cbn. by eapply Hown, Hn.
  - rewrite <- Permutation_rev in Hr.
    apply list_elem_of_lookup in Hr as [i Hi]. destruct (prefix_lookup _ _ _ _ Hp Hi) as [o Ho].
    cbn. destruct (prefix_selection _ _ _ _ _ Hp Ho Hi) as [-> _]. by eapply Hown.
Qed.

(** What the next rollback call is about. *)
Record next_abort s a (expected : MediaStreamOwnerAction) (started : option MediaStreamOwnerCompletionReceipt) : Prop := {
  na_pending : mpr_pending_action s = Some a;
  na_abort : mpr_abort_in_progress s = true;
  na_expected : pa_owner_actions (partial_start_abort_action a (mpr_pending_owner_receipts s)
    (mpr_pending_uncertain_owner s)) !! length (mpr_pending_abort_receipts s) = Some expected;
  na_started : started_for (length (mpr_pending_abort_receipts s)) s = Ok started;
  na_completion start : started = Some start →
    start ∈ mpr_pending_owner_receipts s ∧ ocr_selection start = oa_selection expected;
}.

Lemma next_abort_intro s a expected :
  mpr_pending_action s = Some a → mpr_abort_in_progress s = true → next_abort_owner s = Some expected →
  ∃ started, next_abort s a expected started.
Proof.
  intros Ha Hab Hn. unfold next_abort_owner, pending_abort_action in Hn. rewrite Hab, Ha in Hn. cbn in Hn.
  set (offset := length (option_list (mpr_pending_uncertain_owner s))).
  set (n := length (mpr_pending_abort_receipts s)) in *. set (completed := mpr_pending_owner_receipts s) in *.
  destruct (decide (n < offset)%nat) as [Hlt|Hge].
  - exists None. constructor; try done. unfold started_for. fold offset n. by rewrite (proj2 (Nat.ltb_lt _ _) Hlt).
  - rewrite lookup_app_r in Hn by (rewrite length_fmap; lia). rewrite length_fmap in Hn. fold offset in Hn.
    apply list_lookup_fmap_Some in Hn as (start & -> & Hs).
    assert (n - offset < length completed)%nat as Hlen by (apply lookup_lt_Some in Hs; by rewrite length_rev in Hs).
    rewrite rev_lookup in Hs by done. exists (Some start). constructor; try done.
    + cbn. fold completed n. rewrite lookup_app_r by (rewrite length_fmap; fold offset; lia). rewrite length_fmap. fold offset.
      rewrite list_lookup_fmap, rev_lookup, Hs by done. done.
    + unfold started_for. fold offset n completed. rewrite (proj2 (Nat.ltb_ge _ _)) by lia.
      rewrite (proj2 (Nat.ltb_ge _ _)) by lia. by replace (n - offset + 1)%nat with (S (n - offset)) by lia; rewrite Hs.
    + intros start' [= <-]. split; [by eapply list_elem_of_lookup_2|done].
Qed.

Lemma begin_abort_enters s a expected started :
  journal_writes → journalled s → product_wf s → next_abort s a expected started →
  ∃ j retrying, begin_abort_owner (own_owner_kind (oa_selection expected)) s =
    (set_recovery_journal j (set_pending_abort_uncertain_owner (Some expected) s),
     Ok (partial_start_abort_action a (mpr_pending_owner_receipts s) (mpr_pending_uncertain_owner s), expected,
         length (mpr_pending_abort_receipts s), started, retrying)) ∧
    journalled (set_recovery_journal j (set_pending_abort_uncertain_owner (Some expected) s)).
Proof.
  intros Hj Hjs Hw [Ha Hab He Hst Hsel]. destruct (abort_pending _ Hw Hab) as (a' & Ha' & _ & Hps).
  rewrite Ha in Ha'. injection Ha' as <-. pose proof (ps_next _ _ Hps) as Hnext. cbn in Hnext.
  unfold begin_abort_owner, reject_if, mbind, state_result_bind, gets, asks, lift, modify. rewrite Hab. cbn [negb fail_if].
  rewrite Hst. unfold pending_abort_action. rewrite Hab, Ha. cbn [fmap option_fmap option_map ok_or]. rewrite He.
  cbn [ok_or]. rewrite bool_decide_true by done.
  assert (match started with
    | Some started => negb (bool_decide (oa_selection expected = ocr_selection started)) | None => false end = false) as ->.
  { destruct started as [start|]; [|done]. destruct (Hsel _ eq_refl) as [_ ->]. by rewrite bool_decide_true. }
  cbn [negb orb fail_if].
  destruct (mpr_pending_abort_uncertain_owner s) as [o|] eqn:Eu.
  - specialize (Hnext o eq_refl). cbn in Hnext. cbn in He. rewrite He in Hnext. injection Hnext as <-.
    rewrite bool_decide_true by done. cbn [negb fail_if]. rewrite (bool_decide_true (is_Some (Some expected))) by eauto.
    assert (set_pending_abort_uncertain_owner (Some expected) s = s) as -> by (destruct s; cbn in Eu; by subst).
    destruct (commit_writes s Hj Hjs) as (j & -> & Hk). by exists j, true.
  - cbn [fail_if]. rewrite (bool_decide_false (is_Some None)) by (by intros []).
    destruct (commit_writes (set_pending_abort_uncertain_owner (Some expected) s) Hj Hjs) as (j & -> & Hk). by exists j, false.
Qed.

(** The rollback receipt that a reported reversal records. *)
Definition rolled_back (receipt : MediaStreamOwnerCompletionReceipt) s : product :=
  s |> set_pending_abort_receipts (mpr_pending_abort_receipts s ++ [receipt]) |> set_pending_abort_uncertain_owner None.

Lemma receipt_fresh s a expected started :
  product_wf s → reversible s → next_abort s a expected started →
  existsb (fun receipt => (ocr_receipt_id receipt =? (report (oa_selection expected)).2)%string ||
                          bool_decide (ocr_selection receipt = oa_selection expected)) (mpr_pending_abort_receipts s) = false.
Proof.
  intros Hw Hrv [Ha Hab He _ _]. destruct (abort_pending _ Hw Hab) as (a' & Ha' & _ & Hps).
  rewrite Ha in Ha'. injection Ha' as <-. destruct (pending_of _ _ Hw Ha) as [Hok _ _ Hpre _ Hnext _].
  pose proof (rb_prefix _ _ _ _ (ps_rollback _ _ Hps)) as Hrp. cbn -[partial_start_abort_action] in Hrp, Hpre, Hnext.
  pose proof (abort_selections_NoDup _ _ _ _ (proj1 Hw) Hok Hpre Hnext) as Hd.
  assert (Hown := fun i b Hb => abort_action_owner _ _ _ _ b Hok Hpre Hnext (list_elem_of_lookup_2 _ i _ Hb)).
  apply not_true_is_false. rewrite existsb_exists. intros (r & Hin%list_elem_of_In & Hr).
  assert (ocr_selection r = oa_selection expected) as E.
  { apply orb_true_iff in Hr as [Hr|Hr]; [|by apply bool_decide_eq_true in Hr].
    apply String.eqb_eq in Hr. rewrite (rv_done _ Hrv r Hin) in Hr. apply (rv_distinct _ Hrv); [|by apply Hown in He as [He _]|done].
    apply list_elem_of_lookup in Hin as [i Hi]. destruct (prefix_lookup _ _ _ _ Hrp Hi) as [b Hb].
    destruct (prefix_selection _ _ _ _ _ Hrp Hb Hi) as [-> _]. by apply Hown in Hb as [Hb _]. }
  apply list_elem_of_lookup in Hin as [i Hi]. destruct (prefix_lookup _ _ _ _ Hrp Hi) as [b Hb].
  destruct (prefix_selection _ _ _ _ _ Hrp Hb Hi) as [Es _].
  assert (i = length (mpr_pending_abort_receipts s)).
  { eapply (NoDup_lookup _ _ _ (oa_selection expected) Hd); rewrite list_lookup_fmap; [rewrite Hb|rewrite He]; cbn; congruence. }
  apply lookup_lt_Some in Hi. lia.
Qed.

Lemma record_abort_records s a expected started retrying readback :
  journal_writes → journalled s → product_wf s → reversible s → next_abort s a expected started →
  len (mpr_pending_abort_receipts s) + 1 ≤ u32_max →
  let action := partial_start_abort_action a (mpr_pending_owner_receipts s) (mpr_pending_uncertain_owner s) in
  readback_mismatch action expected readback = false →
  (prb_provider_handle_id readback, prb_provider_state_revision readback, prb_receipt_id readback) =
    report (oa_selection expected) →
  ∃ j receipt, record_abort_readback (action, expected, length (mpr_pending_abort_receipts s), started, retrying) true
      readback s = (set_recovery_journal j (rolled_back receipt s), Ok receipt) ∧
    ocr_receipt_id receipt = (report (ocr_selection receipt)).2 ∧ journalled (set_recovery_journal j (rolled_back receipt s)).
Proof.
  intros Hj Hjs Hw Hrv Hna Hu action Hm Hrep. pose proof (receipt_fresh _ _ _ _ Hw Hrv Hna) as Hf. rewrite <- Hrep in Hf.
  unfold record_abort_readback, reject_if, mbind, state_result_bind, lift, modify. rewrite Hm.
  assert (match started with
    | Some start => negb (prb_provider_handle_id readback =? ocr_provider_handle_id start)%string ||
                    (prb_provider_state_revision readback <=? ocr_provider_state_revision start)
    | None => false end = false) as ->.
  { destruct started as [start|]; [|done]. destruct (na_completion _ _ _ _ Hna start eq_refl) as [Hin Hsel].
    destruct (rv_started _ Hrv start Hin) as [Hh Hr]. rewrite Hsel, <- Hrep in Hh, Hr. cbn in Hh, Hr.
    rewrite Hh, String.eqb_refl, (proj2 (N.leb_gt _ _) Hr). done. }
  cbn in Hf. rewrite Hf. cbn [negb orb fail_if]. unfold completion_receipt, u32_try_from. fold (len (mpr_pending_abort_receipts s)).
  rewrite (proj2 (N.leb_le _ _) Hu). cbn [ok_or mbind result_bind].
  match goal with |- context [mkCompletion ?a ?b ?c ?d ?e ?f ?g] => set (receipt := mkCompletion a b c d e f g) end.
  fold (rolled_back receipt s). destruct (commit_writes (rolled_back receipt s) Hj Hjs) as (j & E & Hk).
  exists j, receipt. split; [|split; [|done]].
  - by rewrite E.
  - cbn. by rewrite <- Hrep.
Qed.

(** One call of the loop. *)
Lemma abort_call_completes s a expected native :
  cooperates → journal_writes → journalled s → product_wf s → reversible s →
  mpr_pending_action s = Some a → mpr_abort_in_progress s = true → next_abort_owner s = Some expected →
  provider_owner_kind native = own_owner_kind (oa_selection expected) →
  len (mpr_pending_abort_receipts s) + 1 ≤ u32_max →
  ∃ native' s' receipt, complete_next_abort_owner native s = (native', s', Ok receipt) ∧
    provider_owner_kind native' = provider_owner_kind native ∧
    product_wf s' ∧ journalled s' ∧ reversible s' ∧
    (∃ j, s' = set_recovery_journal j (rolled_back receipt s)).
Proof.
  intros Hco Hj Hjs Hw Hrv Ha Hab Hn Hk Hu. destruct (next_abort_intro _ _ _ Ha Hab Hn) as [started Hna].
  destruct (begin_abort_enters _ _ _ _ Hj Hjs Hw Hna) as (j & retrying & Hb & Hjs1). rewrite <- Hk in Hb.
  pose proof (begin_abort_owner_wf s (provider_owner_kind native) Hw) as Hbw. unfold wp in Hbw. rewrite Hb in Hbw.
  destruct Hbw as [Hw1 (a' & Hinf)]. unfold complete_next_abort_owner. rewrite Hb.
  set (s1 := set_recovery_journal j (set_pending_abort_uncertain_owner (Some expected) s)) in *.
  set (call := (_, expected, _, started, retrying)) in *.
  destruct (enter_abort call native) as [native' outcome] eqn:Een.
  assert (Hen : execute_and_readback native call.1.1.1.1 expected = (native', outcome) ∨
                compensate_uncertain_attempt native call.1.1.1.1 expected = (native', outcome)).
  { unfold enter_abort, call in Een. destruct (_ && _) in Een; [by left|by right]. }
  assert (Hst : pa_operation call.1.1.1.1 = OpStart).
  { destruct (abort_pending _ Hw Hab) as (a0 & Ha0 & Hop & _). rewrite Ha in Ha0. by injection Ha0 as <-. }
  assert (Hrev : oa_action_kind expected = ActStop ∨ oa_action_kind expected = ActCleanup).
  { destruct (pending_of _ _ Hw Ha) as [Hok _ _ Hpre _ Hnext _].
    eapply abort_action_owner; [exact Hok|exact Hpre|exact Hnext|]. eapply list_elem_of_lookup_2, Hna. }
  destruct (Hco _ _ _ _ _ Hst Hrev Hen) as (Hkind & readback & -> & Hm & Hv & Hrep).
  unfold call in Hm, Hv. cbn -[partial_start_abort_action readback_mismatch] in Hm, Hv.
  assert (Hna1 : next_abort s1 a expected started) by (destruct Hna; by constructor).
  assert (Hrv1 : reversible s1) by (destruct Hrv; by constructor).
  destruct (record_abort_records s1 a expected started retrying readback Hj Hjs1 Hw1 Hrv1 Hna1 Hu Hm Hrep)
    as (j' & receipt & Hr & Hid & Hjs2).
  unfold finish_abort, call. rewrite Hv. cbn -[partial_start_abort_action record_abort_readback].
  change (mpr_pending_owner_receipts s) with (mpr_pending_owner_receipts s1).
  change (mpr_pending_uncertain_owner s) with (mpr_pending_uncertain_owner s1).
  change (mpr_pending_abort_receipts s) with (mpr_pending_abort_receipts s1). rewrite Hr.
  assert (Hw2 : product_wf (set_recovery_journal j' (rolled_back receipt s1))).
  { pose proof (record_abort_readback_wf s1 a' call true readback Hw1 Hinf) as H. unfold wp in H. unfold call in H.
    change (mpr_pending_owner_receipts s) with (mpr_pending_owner_receipts s1) in H.
    change (mpr_pending_uncertain_owner s) with (mpr_pending_uncertain_owner s1) in H.
    change (mpr_pending_abort_receipts s) with (mpr_pending_abort_receipts s1) in H. by rewrite Hr in H. }
  exists native', (set_recovery_journal j' (rolled_back receipt s1)), receipt. split_and!; try done.
  - destruct Hrv as [R1 R2 R3]. constructor; try done. cbn. intros r [Hin| ->%list_elem_of_singleton]%elem_of_app; auto.
  - by exists j'.
Qed.

Lemma next_abort_owner_eq s a :
  mpr_pending_action s = Some a → mpr_abort_in_progress s = true →
  next_abort_owner s = pa_owner_actions (partial_start_abort_action a (mpr_pending_owner_receipts s)
    (mpr_pending_uncertain_owner s)) !! length (mpr_pending_abort_receipts s).
Proof. intros Ha Hab. unfold next_abort_owner, pending_abort_action. by rewrite Hab, Ha. Qed.

Lemma finalize_completes s a :
  journal_writes → journalled s → product_wf s → mpr_pending_action s = Some a → mpr_abort_in_progress s = true →
  (mpr_cleanup_only_after_restore s = true → mpr_recovery_receipts_revalidated s = true) → next_abort_owner s = None →
  ∃ s' receipt, finalize_partial_start_abort s = (s', Ok receipt) ∧
    mpr_pending_action s' = None ∧ mpr_abort_in_progress s' = false ∧ abr_action_id receipt = pa_action_id a ∧
    length (abr_rollback_receipts receipt) =
      (length (mpr_pending_owner_receipts s) + length (option_list (mpr_pending_uncertain_owner s)))%nat.
Proof.
  intros Hj Hjs Hw Ha Hab Hre Hn. destruct (abort_pending _ Hw Hab) as (a' & Ha' & _ & Hps).
  rewrite Ha in Ha'. injection Ha' as <-. rewrite (next_abort_owner_eq _ _ Ha Hab) in Hn.
  destruct (rb_prefix _ _ _ _ (ps_rollback _ _ Hps)) as [Hlen _]. pose proof (ps_next _ _ Hps) as Hnx.
  cbn -[partial_start_abort_action] in Hlen, Hnx. rewrite abort_actions_length in Hlen.
  pose proof Hn as Hge. apply lookup_ge_None in Hge. rewrite abort_actions_length in Hge.
  assert (mpr_pending_abort_uncertain_owner s = None) as Hu.
  { destruct (mpr_pending_abort_uncertain_owner s) as [o|]; [|done]. specialize (Hnx o eq_refl). congruence. }
  unfold finalize_partial_start_abort, reject_if, mbind, state_result_bind, gets, asks, modify.
  assert (mpr_cleanup_only_after_restore s && negb (mpr_recovery_receipts_revalidated s) = false) as ->.
  { destruct (mpr_cleanup_only_after_restore s); [|done]. by rewrite Hre. }
  rewrite Hab, Hu, Ha, (bool_decide_false (is_Some None)) by (by intros []). cbn [fail_if negb].
  rewrite (bool_decide_true (length _ = _)) by lia. cbn [fail_if negb ok_or].
  match goal with |- context [commit_recovery_journal ?s2] => destruct (commit_writes s2 Hj Hjs) as (j & -> & _) end.
  eexists _, _. split; [done|]. cbn. split_and!; try done. lia.
Qed.

(** From any state of a rollback, one call per open owner and the final call
    complete it. *)
Lemma roll_back_completes fuel natives s a :
  cooperates → journal_writes → journalled s → product_wf s → reversible s →
  mpr_pending_action s = Some a → mpr_abort_in_progress s = true →
  (mpr_cleanup_only_after_restore s = true → mpr_recovery_receipts_revalidated s = true) →
  (∀ k, provider_owner_kind (natives k) = k) →
  len (rsp_owner_selections (bnd_spec (mpr_binding s))) < u32_max →
  (length (mpr_pending_owner_receipts s) + length (option_list (mpr_pending_uncertain_owner s)) <=
     length (mpr_pending_abort_receipts s) + fuel)%nat →
  ∃ s' receipt, roll_back fuel natives s = (s', Ok receipt) ∧
    mpr_pending_action s' = None ∧ mpr_abort_in_progress s' = false ∧
    abr_action_id receipt = pa_action_id a ∧
    length (abr_rollback_receipts receipt) =
      (length (mpr_pending_owner_receipts s) + length (option_list (mpr_pending_uncertain_owner s)))%nat.
Proof.
  intros Hco Hj. revert natives s. induction fuel as [|fuel IH]; intros natives s Hjs Hw Hrv Ha Hab Hre Hk Hu Hf.
  { assert (next_abort_owner s = None) as Hn.
    { rewrite (next_abort_owner_eq _ _ Ha Hab). apply lookup_ge_None. rewrite abort_actions_length. lia. }
    cbn. rewrite Hn. by apply finalize_completes. }
  cbn. destruct (next_abort_owner s) as [expected|] eqn:Hn; [|by apply finalize_completes].
  assert (Hlt : len (mpr_pending_abort_receipts s) + 1 ≤ u32_max).
  { rewrite (next_abort_owner_eq _ _ Ha Hab) in Hn. apply lookup_lt_Some in Hn. rewrite abort_actions_length in Hn.
    pose proof (wf_pending_length _ (proj1 Hw)) as Hl. cbn in Hl. unfold len in *.
    destruct (mpr_pending_uncertain_owner s); cbn in Hn; lia. }
  destruct (abort_call_completes s a expected (natives (own_owner_kind (oa_selection expected))) Hco Hj Hjs Hw Hrv Ha Hab Hn
    (Hk _) Hlt) as (native' & s' & receipt & -> & Hkind & Hw' & Hjs' & Hrv' & j & Es).
  subst s'. 
  edestruct (IH (fun k => if decide (k = own_owner_kind (oa_selection expected)) then native' else natives k)) as (s2 & final & E & H1 & H2 & H3 & H4); [exact Hjs'|exact Hw'|exact Hrv'|exact Ha|exact Hab|exact Hre| |exact Hu| |].
  - intros k. destruct (decide (k = own_owner_kind (oa_selection expected))) as [->|]; [|done]. by rewrite Hkind.
  - cbn. rewrite length_app. cbn. lia.
  - exists s2, final. split_and!; done.
Qed.
End Cooperative.
End Progress.

(** ** Calls cut short *)

Section Recovery.
Context {RC : ReleaseCrypto} {SpE : SpecEncoding} `{ML : ManifoldLaws} {SE : SnapshotEncoding}.
Context {J : Type} {RJ : MediaStreamRecoveryJournal J}.
Abbreviation product := (MediaStreamSessionProductRuntime (J := J)).
Implicit Types (s : product) (a : MediaStreamPlatformAction) (env : HostEnv).

(** ** Stopped runtimes *)

Lemma stopped_invalid x :
  snapshot_wf x → mrs_phase (rsn_lifecycle x) = Stopped → rsn_completed_start_abort x = None →
  ∀ binding acc, validate_active_start binding acc x ≠ Ok tt.
Proof.
  intros Hw Hst Hc binding acc. pose proof (wf_phase _ Hw) as Hp. unfold phase_wf in Hp. rewrite Hst in Hp.
  destruct Hp as (_ & _ & Ha). unfold validate_active_start. rewrite Ha, Hc, Hst.
  rewrite (bool_decide_false (Stopped = Planned)), (bool_decide_false (is_Some None)) by (done || by intros []).
  rewrite fail_if_ok. cbn [negb andb]. by rewrite !orb_true_r.
Qed.

Lemma stopped_unrestorable s binding env decision now :
  product_wf s → mrs_phase (msr_state (mpr_runtime s)) = Stopped →
  ∃ e, restore_cleanup_only_with_live_broker_runtime (J := J) binding env decision (snapshot_of s) now = Err e.
Proof.
  intros [Hw _] Hst. destruct (restore_cleanup_only_with_live_broker_runtime _ _ _ _ _) as [t|e] eqn:E; [|eauto]. exfalso.
  unfold restore_cleanup_only_with_live_broker_runtime in E. rewrite !then_ok in E.
  destruct E as (_ & Hv & _ & _ & _ & _ & E). rewrite ok_or_bind_ok in E. destruct E as (c & _ & E).
  rewrite then_ok in E. destruct E as [_ E]. unfold restore_from_checked_snapshot in E. rewrite fail_if_bind_ok in E.
  destruct E as [Hr _]. cbn in Hr. rewrite Hst, (bool_decide_true (Stopped = Stopped)), andb_true_r in Hr by done.
  rewrite is_Some_false in Hr.
  unfold validate_product_recovery_snapshot in Hv. rewrite ok_or_bind_ok in Hv. destruct Hv as (bytes & _ & Hv).
  rewrite fail_if_bind_ok, ok_or_bind_ok in Hv. destruct Hv as (_ & acc & _ & Hv). rewrite !then_ok in Hv.
  destruct Hv as (_ & _ & Hv & _). by apply stopped_invalid in Hv.
Qed.

(** ** The owner call that is next *)

(** Journalled after a successful commit. *)
Lemma commit_ok_frame {JL : RecoveryJournalLaws J} s s' :
  commit_recovery_journal s = (s', Ok tt) →
  ∃ j, s' = set_recovery_journal j s ∧ (is_Some (mpr_recovery_journal s) → durable s' = Some (snapshot_of s')).
Proof.
  unfold commit_recovery_journal. destruct (mpr_recovery_journal_poisoned s); [done|].
  destruct (mpr_recovery_journal s) as [j|] eqn:Ej.
  - unfold recovery_snapshot. destruct (snapshot_to_vec (snapshot_of s)) as [bytes|]; cbn; [|done].
    destruct (fail_if _ _) as [[]|]; cbn; [|done]. destruct (journal_commit j (snapshot_of s)) as [j' [[]|]] eqn:Ec; [|done].
    intros [= <-]. exists (Some j'). split; [done|]. intros _. by apply journal_commit_ok in Ec.
  - intros [= <- _]. exists None. split; [|by intros []]. by destruct s; cbn in Ej; subst.
Qed.

(** The next owner of the pending action, of the requested family, marked. *)
Record marked s s' a (e : MediaStreamOwnerAction) (n : nat) (kind : MediaStreamOwnerKind) : Prop := {
  mk_inflight : inflight s' a e n;
  mk_kind : own_owner_kind (oa_selection e) = kind;
  mk_pending : mpr_pending_action s = Some a;
  mk_receipts : mpr_pending_owner_receipts s' = mpr_pending_owner_receipts s;
}.

Lemma begin_owner_marks {JL : RecoveryJournalLaws J} s env kind provider_kind now s' a e n :
  product_wf s → host_sound env s → begin_owner env kind provider_kind now s = (s', Ok (a, e, n)) →
  marked s s' a e n kind ∧ (is_Some (mpr_recovery_journal s) → durable s' = Some (snapshot_of s')).
Proof.
  intros Hw Hh E. apply (wp_run (begin_owner env kind provider_kind now) (fun s' r => ∀ a e n, r = Ok (a, e, n) →
    marked s s' a e n kind ∧ (is_Some (mpr_recovery_journal s) → durable s' = Some (snapshot_of s'))) s _ _ E); [|done].
  unfold begin_owner. wp_step; wp_step; [by intros _|]. wp_step; wp_step; [by intros _|]. do 2 wp_step.
  wp_step. eapply wp_mono; [|by apply refresh_wf]. intros s1 [[]|e1] (Hw1 & c & -> & _); [|done].
  set (s1 := set_current_acceptance c s) in *.
  do 2 wp_step. destruct (mpr_pending_action s1) as [a1|] eqn:Ea; cbn [ok_or]; [|done].
  do 4 wp_step. destruct (pa_owner_actions a1 !! length (mpr_pending_owner_receipts s1)) as [expected|] eqn:Ee;
    cbn [ok_or]; [|done].
  do 2 (wp_step; wp_step; [by intros _|]). do 3 wp_step. unfold wp.
  destruct (commit_recovery_journal _) as [s2 [[]|e2]] eqn:Ec; [|done].
  apply commit_ok_frame in Ec as (j & -> & Hd). cbn. intros ? ? ? [= <- <- <-]. bool_to_prop. split; [|exact Hd].
  by constructor.
Qed.

(** ** Restarts during an owner call *)

Lemma restored_fields s0 binding env decision now s :
  product_wf s0 → host_sound env s0 →
  restore_cleanup_only_with_live_broker_runtime binding env decision (snapshot_of s0) now = Ok s →
  product_wf s ∧ mpr_pending_action s = mpr_pending_action s0 ∧
  mpr_pending_owner_receipts s = mpr_pending_owner_receipts s0 ∧
  mpr_pending_uncertain_owner s = mpr_pending_uncertain_owner s0 ∧
  mpr_pending_abort_receipts s = mpr_pending_abort_receipts s0 ∧
  mpr_pending_abort_uncertain_owner s = mpr_pending_abort_uncertain_owner s0 ∧
  mpr_abort_in_progress s = mpr_abort_in_progress s0 || pending_is OpStart s0 ∧
  mpr_cleanup_only_after_restore s = true ∧ mpr_recovery_journal_poisoned s = false.
Proof.
  intros Hw Hh Hr. destruct (restore_wf _ _ _ _ _ _ Hw Hh Hr) as (Hws & c & [Hsnap _ Hcl _ _ Hpo]).
  split; [done|]. unfold snapshot_of, reopened, with_pending in Hsnap. cbn in Hsnap. by injection Hsnap.
Qed.

(** An unfinished call blocks further owners. *)
Lemma uncertain_blocks s env kind provider_kind now e :
  mpr_pending_uncertain_owner s = Some e →
  ∃ err, begin_owner env kind provider_kind now s = (s, Err err).
Proof.
  intros He. unfold begin_owner, mbind, state_result_bind, reject_if. destruct (mpr_abort_in_progress s); cbn; [eauto|].
  rewrite He, bool_decide_true by eauto. cbn. eauto.
Qed.

(** The rollback compensates the unfinished call before anything else. *)
Lemma uncertain_compensated s a e :
  journal_writes → journalled s → product_wf s → mpr_pending_action s = Some a → mpr_abort_in_progress s = true →
  mpr_pending_uncertain_owner s = Some e → mpr_pending_abort_receipts s = [] →
  ∃ s' retrying,
    begin_abort_owner (own_owner_kind (oa_selection e)) s =
      (s', Ok (partial_start_abort_action a (mpr_pending_owner_receipts s) (Some e),
               mkOwnerAction (oa_selection e) (reverse_kind (oa_action_kind e)), 0%nat, None, retrying)).
Proof.
  intros Hj Hjs Hw Ha Hab Hu Hn.
  destruct (next_abort_intro s a (mkOwnerAction (oa_selection e) (reverse_kind (oa_action_kind e))) Ha Hab) as [started Hna].
  { unfold next_abort_owner, pending_abort_action. rewrite Hab, Ha. cbn. by rewrite Hu, Hn. }
  assert (started = None) as ->.
  { pose proof (na_started _ _ _ _ Hna) as Hs. unfold started_for in Hs. rewrite Hu, Hn in Hs. cbn in Hs. by injection Hs. }
  destruct (begin_abort_enters s a _ None Hj Hjs Hw Hna) as (j & retrying & E & _).
  rewrite Hu, Hn in E. cbn [oa_selection length] in E. eauto.
Qed.

(** A Stop repeats the unfinished call, as a compensation. *)
Lemma uncertain_stop_repeats s env provider_kind now s' a e n :
  product_wf s → host_sound env s → begin_uncertain_stop env provider_kind now s = (s', Ok (a, e, n)) →
  mpr_pending_action s = Some a ∧ mpr_pending_uncertain_owner s = Some e ∧ n = length (mpr_pending_owner_receipts s).
Proof.
  intros Hw Hh E. apply (wp_run (begin_uncertain_stop env provider_kind now) (fun s' r => ∀ a e n, r = Ok (a, e, n) →
    mpr_pending_action s = Some a ∧ mpr_pending_uncertain_owner s = Some e ∧ n = length (mpr_pending_owner_receipts s))
    s _ _ E); [|done].
  unfold begin_uncertain_stop. wp_step; wp_step; [by intros _|].
  do 2 wp_step. destruct (mpr_pending_action s) as [a1|] eqn:Ea; cbn [option_bind mbind ok_or]; [|done].
  case_bool_decide as Hop; cbn [ok_or]; [|done]. do 2 wp_step.
  destruct (mpr_pending_uncertain_owner s) as [expected|] eqn:Eu; cbn [ok_or]; [|done]. do 2 wp_step.
  do 2 (wp_step; wp_step; [by intros _|]).
  wp_step. eapply wp_mono; [|by apply refresh_wf]. intros s1 [[]|e1] (Hw1 & c & -> & _); [|done].
  wp_step. apply commit_frame. intros j b r Hr. destruct r as [[]|e2]; [|done]. apply wp_ret. by intros ? ? ? [= <- <- <-].
Qed.
End Recovery.
