(* ===== verification/ProductFixture.v ===== *)
(** * Product runtime: a concrete product

    An accepted session, a host, owner providers and a journal for the packaged
    mirror specification, on which the runtime is evaluated. *)

From S2P Require Import Prelude RustStr OrdMap StateResult UpdateModel UpdateAdmission UpdateFixture MediaModel MediaSpec MediaRuntime MediaLifecycle MediaComposition MediaFixture CleanupTicket OwnerEffect ProductBinding ProductModel ProductActions ProductSnapshot WireFrame ProductRuntime ProductOrder ProductInvariant ProductMethods ProductAdvance ProductRestore ProductReach ProductProgress.

Local Open Scope N_scope.
Local Open Scope quest_scope.

(** ** Manifold *)

Definition fx_digest : string := ("sha256:" ++ fx_ones)%string.

(** An accepted session: its expiry, whether it is current, and what ended it. *)
Record FxSession := mkFxSession { fs_expires : N; fs_current : bool; fs_ended : option string }.
Record FxReceipt := mkFxReceipt { fr_revision : N; fr_validated : N; fr_session : option FxSession }.

#[global] Instance fx_session_eq_dec : EqDecision FxSession.
Proof. solve_decision. Defined.

#[export] Instance fx_manifold : ManifoldMedia := {|
  ManifoldId := string; as_str := id; Revision := N; rev_get := id; rev_ltb := N.ltb; MediaField := unit;
  MANIFOLD_ACCEPTED_MEDIA_SESSION_SCHEMA := "accepted.v1"; MANIFOLD_MEDIA_SESSION_CURRENT_RECEIPT_SCHEMA := "current.v1";
  MediaDescriptor := unit; MediaProductBinding := unit; MediaLifecycleStatus := bool;
  dsc_session_id := fun _ => pl_session_id (rsp_plan mirror_spec); dsc_authority_revision := fun _ => 4;
  dsc_platform_runtime_spec_id := fun _ => rsp_runtime_spec_id mirror_spec;
  dsc_source_ids := fun _ => src_source_id <$> pl_sources (rsp_plan mirror_spec);
  dsc_processor_ids := fun _ => prc_processor_id <$> rsp_processors mirror_spec;
  dsc_route_ids := fun _ => rt_lane_id <$> pl_transport_routes (rsp_plan mirror_spec);
  dsc_sink_ids := fun _ => snk_sink_id <$> rsp_sinks mirror_spec;
  dsc_stream_ids := fun _ => (fun lane => med_track_id (lane_media lane)) <$> pl_lanes (rsp_plan mirror_spec);
  mpb_validate := fun _ => true; mpb_descriptor := fun _ => tt; mpb_descriptor_canonical_sha256 := fun _ => fx_digest;
  status_current := true; status_revoked := false;
  AcceptedSession := FxSession; acc_schema_id := fun _ => "accepted.v1"; acc_decision_id := fun _ => "decision.1";
  acc_request_id := fun _ => tt; acc_session_id := fun _ => pl_session_id (rsp_plan mirror_spec);
  acc_session_authority_revision := fun _ => 4; acc_product_descriptor_canonical_sha256 := fun _ => fx_digest;
  acc_provider_epoch_id := fun _ => "epoch.1"; acc_platform_runtime_spec_id := fun _ => rsp_runtime_spec_id mirror_spec;
  acc_product_id := fun _ => "product"; acc_feature_lock_id := fun _ => "lock"; acc_feature_lock_fingerprint := fun _ => fx_digest;
  acc_capability_id := fun _ => "capability"; acc_admission_grant_id := fun _ => "grant";
  acc_runtime_authority_host_id := fun _ => tt; acc_runtime_command_request_id := fun _ => tt;
  acc_runtime_command_id := fun _ => tt; acc_runtime_client_id := fun _ => "client"; acc_runtime_lease_id := fun _ => "lease";
  acc_runtime_params_digest := fun _ => tt; acc_runtime_dispatch_id := fun _ => tt;
  acc_runtime_application_receipt_id := fun _ => tt; acc_runtime_resulting_authority_revision := fun _ => tt;
  acc_accepted_at_ms := fun _ => 0; acc_expires_at_ms := fs_expires; acc_product_binding := fun _ => tt;
  acc_lifecycle_status := fs_current; acc_ended_by_id := fs_ended;
  set_acc_expires_at_ms := fun e a => mkFxSession e (fs_current a) (fs_ended a);
  CurrentReceipt := FxReceipt; cur_schema_id := fun _ => "current.v1"; cur_acceptance_state_authority_revision := fr_revision;
  cur_validated_at_ms := fr_validated; cur_decision_id := fun _ => "decision.1"; cur_session := fr_session;
  cur_current := fun c => match fr_session c with Some a => fs_current a | None => false end;
  cur_rejection_reason := fun _ => None; set_cur_session := fun x c => mkFxReceipt (fr_revision c) (fr_validated c) x;
  RevokerLease := N; rlease_derivative_binding := fun _ => None; rlease_expires_at_ms := id;
  RevokerAdoption := unit; rad_provider_epoch_id := fun _ => "epoch.1"; rad_revoker_id := fun _ => "revoker";
  rad_applied := fun _ => true; rad_adoption_id := fun _ => "adoption"; rad_lease := fun _ => 1000;
  TerminationRequest := unit; trq_request_id := fun _ => "revoke.1"; trq_is_revoke := fun _ => true;
  trq_decision_id := fun _ => "decision.1"; trq_session_id := fun _ => pl_session_id (rsp_plan mirror_spec);
  trq_expected_provider_epoch_id := fun _ => "epoch.1";
  MutationReceipt := unit; mut_applied := fun _ => true; mut_source_id := fun _ => "revoke.1";
  RenewalReceipt := unit; ren_applied := fun _ => true; ren_request_id := fun _ => "renew.1";
  ren_provider_epoch_id := fun _ => "epoch.1"; ren_prior_media := fun _ => mkFxSession 1000 true None;
  ren_renewed_media := fun _ => mkFxSession 2000 true None;
|}%string.

#[export] Instance fx_manifold_laws : ManifoldLaws.
Proof. by constructor. Qed.

#[export] Instance fx_spec_encoding : SpecEncoding := {| spec_to_vec := fun _ => Some [] |}.
#[export] Instance fx_snapshot_encoding : SnapshotEncoding := {|
  snapshot_to_vec := fun _ => Some []; snapshot_graph_to_vec := fun _ => Some []; snapshot_from_str := fun _ => None;
|}.

(** What was written, newest first. *)
Definition FxJournal : Type := list MediaStreamSessionProductRecoverySnapshot.
#[export] Instance fx_journal : MediaStreamRecoveryJournal FxJournal := {|
  journal_commit := fun j snapshot => (snapshot :: j, Ok tt);
|}.
#[export] Program Instance fx_journal_laws : RecoveryJournalLaws FxJournal := {| journal_durable := head |}.
Next Obligation. by intros j snapshot j' [= <-]. Qed.
Next Obligation. done. Qed.

(** ** The host *)

Definition fx_host (session : FxSession) : HostEnv :=
  mkHostEnv true true "epoch.1"%string (fun _ now => mkFxReceipt 5 now (Some session))
    (fun _ now => Some (mkFxReceipt 5 now (Some session))) true [tt] ["adoption"%string] [1000] ["revoker"%string]
    [("revoke.1"%string, true)].

Definition fx_live : HostEnv := fx_host (mkFxSession 1000 true None).
Definition fx_revoked : HostEnv := fx_host (mkFxSession 1000 false (Some "revoke.1"%string)).

Abbreviation fx_product := (MediaStreamSessionProductRuntime (J := FxJournal)).

(** The host goes on from what the runtime has seen. *)
Lemma fx_host_sound session (s : fx_product) :
  (∀ acc, fr_session (mpr_current_acceptance s) = Some acc → fs_current acc = false →
     fs_current session = false ∧ fs_ended session = fs_ended acc) →
  fr_revision (mpr_current_acceptance s) ≤ 5 → host_sound (fx_host session) s.
Proof.
  intros Hr Hv. constructor.
  - intros c acc acc' (d & now & Hc) Ha Ha' _ Hst. cbn in *.
    assert (acc' = session) as -> by (destruct Hc as [<-|Hc]; [|injection Hc as <-]; cbn in Ha'; congruence).
    by apply Hr.
  - intros d now. cbn. split_and!; try done. intros acc _. split; [done|apply N.le_0_l].
Qed.

(** ** The product *)

Definition fx_binding : MediaStreamRuntimeProductBinding :=
  mkBinding MEDIA_STREAM_RUNTIME_PRODUCT_BINDING_SCHEMA mirror_spec (sha256_identity []).

Definition fx_client (op : MediaStreamPlatformOperation) : MediaStreamClientAuthorityBinding :=
  mkClientAuthority "client" "lease" "product" "lock" fx_digest "capability" "grant" (operation_capability op) "grant" "use.1".

Definition fx_evidence : MediaStreamTrustedRevokerCleanupEvidence := mkRevokerEvidence tt None tt tt.

Definition fx_new : result MediaStreamProductRuntimeError fx_product :=
  product_new (mkLive false "decision.1"%string) fx_binding fx_live 10.

(** ** Providers *)

Definition kind_text (k : MediaStreamOwnerKind) : string :=
  match k with
  | OwnSource => "source" | OwnProcessor => "processor" | OwnRoute => "route" | OwnSocket => "socket"
  | OwnCodec => "codec" | OwnSink => "sink" | OwnCleanup => "cleanup"
  end.

(** A handle at revision 1 when it is started, 2 when that is rolled back and 3
    when it is stopped. *)
Definition fx_readback (action : MediaStreamPlatformAction) (expected : MediaStreamOwnerAction)
    : MediaStreamOwnerProviderReadback :=
  let sel := oa_selection expected in
  let '(word, revision) :=
    match pa_operation action, oa_action_kind expected with
    | OpStop, _ => ("stop.", 3)
    | OpStart, (ActStop | ActCleanup) => ("undo.", 2)
    | OpStart, _ => ("start.", 1)
    end%string in
  mkProviderReadback (pa_action_id action) (pa_authority_epoch_id action) (pa_media_acceptance_authority_revision action)
    (ca_client_id (pa_client_authority action)) (ca_lease_id (pa_client_authority action)) (own_provider_kind sel)
    (own_resource_id sel) ("handle." ++ kind_text (own_owner_kind sel)) revision
    (expected_provider_state (oa_action_kind expected)) (word ++ kind_text (own_owner_kind sel)).

(** One provider per owner family. *)
#[export] Instance fx_provider : MediaStreamTrustedOwnerProvider MediaStreamOwnerKind := {|
  provider_owner_kind := id;
  execute_and_readback := fun p action expected => (p, Ok (fx_readback action expected));
  compensate_uncertain_attempt := fun p action expected => (p, Ok (fx_readback action expected));
  verify_readback := fun _ _ _ _ => true;
|}.

(** The same readback under a chosen receipt identifier. *)
Definition fx_readback_as (receipt_id : string) action expected : MediaStreamOwnerProviderReadback :=
  let r := fx_readback action expected in
  mkProviderReadback (prb_action_id r) (prb_authority_epoch_id r) (prb_media_acceptance_authority_revision r)
    (prb_client_id r) (prb_lease_id r) (prb_provider_kind r) (prb_resource_id r) (prb_provider_handle_id r)
    (prb_provider_state_revision r) (prb_observed_state r) receipt_id.

(** ** Runs

    Steps of the product with the host above, evaluated. *)

Inductive FxEvent :=
  | EvPrepare (id : string) (op : MediaStreamPlatformOperation)
  | EvPrepareCleanup (id : string)
  | EvBegin (kind : MediaStreamOwnerKind)
  | EvUncertainStop (kind : MediaStreamOwnerKind)
  | EvRead (receipt_id : option string)
  | EvApply
  | EvAbort
  | EvBeginAbort (kind : MediaStreamOwnerKind)
  | EvAbortRead (receipt_id : option string)
  | EvFinalize
  | EvRevalidate
  | EvInstall
  | EvRestart.

Definition fx_given (receipt_id : option string) action expected : MediaStreamOwnerProviderReadback :=
  match receipt_id with Some id => fx_readback_as id action expected | None => fx_readback action expected end.

(** The session answered by the host follows the one last seen. *)
Definition fx_follows (session : FxSession) (s : fx_product) : bool :=
  match fr_session (mpr_current_acceptance s) with
  | Some acc => fs_current acc || (negb (fs_current session) && bool_decide (fs_ended session = fs_ended acc))
  | None => true
  end && (fr_revision (mpr_current_acceptance s) <=? 5).

Definition fx_call (env : HostEnv) (ev : FxEvent) : option (ProductCall (J := FxJournal)) :=
  match ev with
  | EvPrepare id op => Some (CallPrepare env id op (fx_client op) 10)
  | EvPrepareCleanup id => Some (CallPrepareCleanup env fx_evidence id 10)
  | EvBegin kind => Some (CallBeginOwner env kind kind 10)
  | EvUncertainStop kind => Some (CallBeginUncertainStop env kind 10)
  | EvApply => Some (CallApply env 10)
  | EvAbort => Some CallBeginAbort
  | EvBeginAbort kind => Some (CallBeginAbortOwner kind)
  | EvFinalize => Some CallFinalizeAbort
  | EvRevalidate => Some (CallRevalidate (fun _ _ => true))
  | EvInstall => Some (CallInstall ([] : FxJournal))
  | _ => None
  end.

Definition fx_read (receipt_id : option string) (s : fx_product) : option fx_product :=
  action ← mpr_pending_action s;
  expected ← mpr_pending_uncertain_owner s;
  let sequence := length (mpr_pending_owner_receipts s) in
  if bool_decide (pa_owner_actions action !! sequence = Some expected) && negb (mpr_abort_in_progress s)
  then Some (record_owner_readback action expected true (fx_given receipt_id action expected) sequence s).1 else None.

Definition fx_abort_read (receipt_id : option string) (s : fx_product) : option fx_product :=
  action ← mpr_pending_action s;
  expected ← mpr_pending_abort_uncertain_owner s;
  let abort := partial_start_abort_action action (mpr_pending_owner_receipts s) (mpr_pending_uncertain_owner s) in
  let sequence := length (mpr_pending_abort_receipts s) in
  match started_for sequence s with
  | Err _ => None
  | Ok started =>
      if bool_decide (pa_owner_actions abort !! sequence = Some expected) && mpr_abort_in_progress s &&
         bool_decide (pa_operation action = OpStart)
      then Some (record_abort_readback (abort, expected, sequence, started, false) true
                   (fx_given receipt_id abort expected) s).1 else None
  end.

Definition fx_step (session : FxSession) (ev : FxEvent) (s : fx_product) : option fx_product :=
  if fx_follows session s then
    match ev with
    | EvRead receipt_id => fx_read receipt_id s
    | EvAbortRead receipt_id => fx_abort_read receipt_id s
    | EvRestart =>
        match restore_cleanup_only_with_live_broker_runtime fx_binding (fx_host session) "decision.1"%string
                (snapshot_of s) 10 with
        | Ok s => Some s
        | Err _ => None
        end
    | _ => (fun call => run_call call s) <$> fx_call (fx_host session) ev
    end
  else None.

Fixpoint fx_run (session : FxSession) (evs : list FxEvent) (s : fx_product) : option fx_product :=
  match evs with
  | [] => Some s
  | ev :: evs => s ← fx_step session ev s; fx_run session evs s
  end.

Lemma fx_follows_sound session s : fx_follows session s = true → host_sound (fx_host session) s.
Proof.
  unfold fx_follows. intros [H1 H2%N.leb_le]%andb_true_iff. apply fx_host_sound; [|done].
  intros acc Ha Hc. rewrite Ha, Hc in H1. cbn in H1. by bool_to_prop.
Qed.

Lemma fx_step_sound session ev s s' : fx_step session ev s = Some s' → product_step s s'.
Proof.
  unfold fx_step. destruct (fx_follows session s) eqn:Hf; [|done]. apply fx_follows_sound in Hf.
  assert (Hcall : ∀ call, (∀ env, call_env call = Some env → env = fx_host session) → Some (run_call call s) = Some s' →
    product_step s s').
  { intros call Hc [= <-]. apply step_call. by intros env ->%Hc. }
  destruct ev; try (apply Hcall; by intros env [= <-]).
  - unfold fx_read. destruct (mpr_pending_action s) as [a|] eqn:Ea; [|done]. cbn.
    destruct (mpr_pending_uncertain_owner s) as [e|] eqn:Ee; [|done]. cbn.
    destruct (_ && _) eqn:Hb; [|done]. intros [= <-]. bool_to_prop. by apply step_readback.
  - unfold fx_abort_read. destruct (mpr_pending_action s) as [a|] eqn:Ea; [|done]. cbn -[partial_start_abort_action record_abort_readback].
    destruct (mpr_pending_abort_uncertain_owner s) as [e|] eqn:Ee; [|done]. cbn -[partial_start_abort_action record_abort_readback].
    destruct (started_for _ s) as [started|] eqn:Es; [|done]. destruct (_ && _) eqn:Hb; [|done]. intros Hs. apply Some_inj in Hs as <-.
    bool_to_prop. match goal with |- product_step _ (record_abort_readback ?call ?v ?r _).1 =>
      apply (step_abort_readback s a call v r) end. by constructor.
  - destruct (restore_cleanup_only_with_live_broker_runtime _ _ _ _ _) as [t|] eqn:Er; [|done]. intros [= <-].
    by eapply step_restart.
Qed.

Lemma fx_run_reachable session evs s s' : product_reachable s → fx_run session evs s = Some s' → product_reachable s'.
Proof.
  revert s. induction evs as [|ev evs IH]; intros s Hr; cbn; [by intros [= <-]|].
  destruct (fx_step session ev s) as [t|] eqn:E; [|done]. cbn. apply IH. by eapply reach_step, fx_step_sound.
Qed.

(** ** The states used as examples *)

Definition fx_session_live : FxSession := mkFxSession 1000 true None.
Definition fx_session_revoked : FxSession := mkFxSession 1000 false (Some "revoke.1"%string).

(** Owner by owner, each called and read back. *)
Definition fx_owners (kinds : list MediaStreamOwnerKind) : list FxEvent :=
  concat ((fun k => [EvBegin k; EvRead None]) <$> kinds).
Definition fx_undo (kinds : list MediaStreamOwnerKind) : list FxEvent :=
  concat ((fun k => [EvBeginAbort k; EvAbortRead None]) <$> kinds).

Definition fx_start_order : list MediaStreamOwnerKind :=
  [OwnCleanup; OwnSink; OwnRoute; OwnSocket; OwnCodec; OwnProcessor; OwnSource].
Definition fx_stop_order : list MediaStreamOwnerKind := reverse fx_start_order.

Definition fx_default : fx_product :=
  mkProductRuntime fx_binding (mkFxReceipt 0 0 None) (mkLive false "decision.1"%string) ""
    (mkSessionRuntime mirror_spec (mkRuntimeState "" "" 0 Planned [])) None [] None [] None false [] [] None None [] []
    None false false None false.

Definition fx_created : fx_product := match fx_new with Ok s => s | Err _ => fx_default end.

(** The state after a run, or [fx_default] where the run is refused. *)
Definition fx_after (session : FxSession) (evs : list FxEvent) (s : fx_product) : fx_product :=
  default fx_default (fx_run session evs s).

Lemma fx_created_reachable : product_reachable fx_created.
Proof.
  apply (reach_new (mkLive (MM := fx_manifold) false "decision.1"%string) fx_binding fx_live 10); vm_compute; reflexivity.
Qed.

Lemma fx_after_reachable session evs s :
  product_reachable s → bool_decide (is_Some (fx_run session evs s)) = true → product_reachable (fx_after session evs s).
Proof. intros Hr [t Ht]%bool_decide_eq_true. unfold fx_after. rewrite Ht. by eapply fx_run_reachable. Qed.

(** Start prepared and two owners up; the third owner's call under way. *)
Definition fx_two_up : fx_product :=
  fx_after fx_session_live (EvInstall :: EvPrepare "start.1" OpStart :: fx_owners (take 2 fx_start_order)) fx_created.
Definition fx_calling : fx_product := fx_after fx_session_live [EvBegin OwnRoute] fx_two_up.
Definition fx_all_up : fx_product := fx_after fx_session_live (fx_owners (drop 2 fx_start_order)) fx_two_up.
Definition fx_started : fx_product := fx_after fx_session_live [EvApply] fx_all_up.
(** The attempt rolled back to its end, and what was left stopped after a Revoke. *)
Definition fx_aborting : fx_product := fx_after fx_session_live [EvAbort] fx_calling.
Definition fx_rolled_back : fx_product :=
  fx_after fx_session_live (fx_undo [OwnRoute; OwnSink; OwnCleanup] ++ [EvFinalize]) fx_aborting.
Definition fx_stopped : fx_product :=
  fx_after fx_session_revoked (EvPrepareCleanup "stop.1" :: fx_owners fx_stop_order ++ [EvApply]) fx_rolled_back.
(** The process died while the third owner was called. *)
Definition fx_restarted : fx_product := fx_after fx_session_live [EvRestart] fx_calling.

Local Ltac reach lem := apply fx_after_reachable; [apply lem|vm_compute; reflexivity].

Lemma fx_two_up_reachable : product_reachable fx_two_up.
Proof. reach fx_created_reachable. Qed.
Lemma fx_calling_reachable : product_reachable fx_calling.
Proof. reach fx_two_up_reachable. Qed.
Lemma fx_all_up_reachable : product_reachable fx_all_up.
Proof. reach fx_two_up_reachable. Qed.
Lemma fx_started_reachable : product_reachable fx_started.
Proof. reach fx_all_up_reachable. Qed.
Lemma fx_aborting_reachable : product_reachable fx_aborting.
Proof. reach fx_calling_reachable. Qed.
Lemma fx_rolled_back_reachable : product_reachable fx_rolled_back.
Proof. reach fx_aborting_reachable. Qed.
Lemma fx_stopped_reachable : product_reachable fx_stopped.
Proof. reach fx_rolled_back_reachable. Qed.
Lemma fx_restarted_reachable : product_reachable fx_restarted.
Proof. reach fx_calling_reachable. Qed.

(** Phase, pending action, completions and rollbacks. *)
Definition fx_view (s : fx_product) : MediaStreamRuntimePhase * option string * nat * nat :=
  (mrs_phase (msr_state (mpr_runtime s)), pa_action_id <$> mpr_pending_action s,
   length (mpr_pending_owner_receipts s), length (mpr_pending_abort_receipts s)).

Example fx_views : fx_view <$> [fx_two_up; fx_all_up; fx_started; fx_aborting; fx_rolled_back; fx_stopped; fx_restarted] =
  [(Planned, Some "start.1"%string, 2, 0); (Planned, Some "start.1"%string, 7, 0); (SourcesStarted, None, 0, 0);
   (Planned, Some "start.1"%string, 2, 0); (Planned, None, 0, 0); (Stopped, None, 0, 0);
   (Planned, Some "start.1"%string, 2, 0)]%nat.
Proof. vm_compute. reflexivity. Qed.
