(* ===== verification/ProductClaims.v ===== *)
(** * Product runtime: what is proved

    The properties of [MediaStreamSessionProductRuntime], each with an
    application to the concrete product of [ProductFixture]. *)

From S2P Require Import Prelude RustStr OrdMap StateResult UpdateAdmission UpdateFixture MediaModel MediaSpec MediaRuntime MediaLifecycle MediaComposition MediaFixture CleanupTicket OwnerEffect ProductBinding ProductModel ProductActions ProductSnapshot WireFrame ProductRuntime ProductOrder ProductInvariant ProductMethods ProductAdvance ProductRestore ProductReach ProductJournal ProductProgress ProductFixture.

Local Open Scope N_scope.
Local Open Scope quest_scope.

Section Claims.
Context {RC : ReleaseCrypto} {SpE : SpecEncoding} `{ML : ManifoldLaws} {SE : SnapshotEncoding}.
Context {J : Type} {RJ : MediaStreamRecoveryJournal J}.
Abbreviation product := (MediaStreamSessionProductRuntime (J := J)).
Implicit Types (s : product) (a : MediaStreamPlatformAction) (env : HostEnv).

(** C10: every product runtime that construction, calls, provider readbacks and
    restarts can reach is well-formed: its binding, accepted session and lifecycle
    agree; the applied and aborted action identifiers are sorted, nonblank and
    disjoint; the active Start holds a full set of completions and their handles;
    the completions of a pending action are a prefix of its owner actions in
    order; a marked owner is the next one; and rollback receipts reverse the
    completions newest first. *)
Theorem product_invariant s : product_reachable s → product_wf s.
Proof. apply reachable_wf. Qed.

(** What the journal of a reachable runtime holds is always the snapshot of a
    state the runtime has been in: no method writes and then fails half-way, and a
    write that is reported as failed leaves the old or the new snapshot. *)
Theorem journal_holds_a_state {JL : RecoveryJournalLaws J} s x :
  product_reachable s → durable s = Some x → ∃ s0, product_reachable s0 ∧ x = snapshot_of s0.
Proof. apply reachable_durable. Qed.

(** C12: recovery accepts the snapshot of a reachable runtime that has not stopped
    exactly when no native receipt is retained twice and no handle is rolled back
    twice; it never reopens a stopped runtime. *)
Theorem recovery_accepts s bytes :
  product_reachable s → snapshot_to_vec (snapshot_of s) = Some bytes →
  len bytes ≤ MAX_MEDIA_STREAM_PRODUCT_RECOVERY_BYTES →
  (mrs_phase (msr_state (mpr_runtime s)) ≠ Stopped →
   validate_product_recovery_snapshot (mpr_binding s) (snapshot_of s) = Ok tt ↔ recoverable (snapshot_of s)) ∧
  (mrs_phase (msr_state (mpr_runtime s)) = Stopped → ∀ binding env decision now,
   ∃ e, restore_cleanup_only_with_live_broker_runtime (J := J) binding env decision (snapshot_of s) now = Err e).
Proof.
  intros Hr Hb Hlen. apply reachable_wf in Hr. split.
  - intros Hst. destruct (wf_session _ (proj1 Hr)) as [acc Ha].
    by apply (validate_snapshot_iff (snapshot_of s) acc (proj1 Hr) Ha Hst bytes).
  - intros Hst binding env decision now. by apply stopped_unrestorable.
Qed.



(** A restored runtime only cleans up, and stays so through every further
    step: it prepares no action for a client, and a Start that was pending is
    neither continued nor applied, only rolled back. *)
Theorem restored_only_cleans_up s :
  product_reachable s → mpr_cleanup_only_after_restore s = true →
  (∀ s', product_step s s' → mpr_cleanup_only_after_restore s' = true) ∧
  (∀ env id op client now, ∃ e, prepare env id op client now s = (s, Err e)) ∧
  ∀ a, mpr_pending_action s = Some a → pa_operation a = OpStart →
    (∀ env kind provider_kind now, begin_owner env kind provider_kind now s = (s, Err AbortInProgress)) ∧
    (∀ env now, apply_recorded_owner_completions env now s = (s, Err RecoveryStartForbidden)).
Proof.
  intros Hr Hc. split; [|split].
  - intros s' Hs. eapply step_restored; [by apply reachable_wf|done..].
  - intros. by apply prepare_restored.
  - intros a Ha Hop. pose proof (reachable_rollback_only _ Hr Hc a Ha Hop) as Hab. split; intros.
    + unfold begin_owner, mbind, state_result_bind, reject_if. by rewrite Hab.
    + unfold apply_recorded_owner_completions, mbind, state_result_bind, reject_if, pending_is. by rewrite Hc, Ha, Hop.
Qed.



(** A stopped runtime applies nothing. *)
Lemma stopped_applies_nothing s env now :
  product_wf s → host_sound env s → mrs_phase (msr_state (mpr_runtime s)) = Stopped →
  ∃ s' e, apply_recorded_owner_completions env now s = (s', Err e).
Proof.
  intros Hw Hh Hst. assert (H : wp (apply_recorded_owner_completions env now) (fun _ r => is_ok r = false) s).
  { unfold apply_recorded_owner_completions. do 3 (wp_step; wp_step; [by intros _|]). do 3 wp_step.
    eapply wp_mono; [|by apply refresh_wf]. intros s1 [[]|e] (Hw1 & c & -> & _); [|done].
    set (s1 := set_current_acceptance c s) in *.
    do 2 wp_step. destruct (mpr_pending_action s1) as [a|] eqn:Ea; cbn [ok_or]; [|done].
    wp_step. wp_step; [by intros _|]. do 2 wp_step.
    destruct (validate_owner_completions a _) as [[]|e] eqn:Ev; [|done].
    wp_step. apply run_wp. intros s2 r E. destruct (pa_operation a) eqn:Eop.
    - pose proof (pn_operation _ _ (pending_of _ _ Hw1 Ea)) as Hps. rewrite Eop in Hps.
      pose proof (ps_phase _ _ Hps) as Hpl. cbn in Hpl. congruence.
    - destruct (advance_stop _ _ Hw1 Ea Eop) as [[_ E']|[Hst' _]]; [|done]. rewrite E' in E. by injection E as <- <-. }
  unfold wp in H. destruct (apply_recorded_owner_completions env now s) as [s' [receipt|e]]; [done|eauto].
Qed.
End Claims.

(** A run that is [Ok]. *)
Lemma run_ok {S E A} (p : S * result E A) : is_ok p.2 = true → ∃ x, p = (p.1, Ok x).
Proof. destruct p as [s [x|e]]; [eauto|done]. Qed.

(** ** Defects *)




(** Cleanup after a trusted Revoke does not look at the phase: a runtime that
    has stopped after a rolled back Start prepares another Stop, although no
    stopped runtime ever applies an action. *)
Theorem stopped_prepares_dead_stop :
  (∃ (s s' : fx_product) (a : MediaStreamPlatformAction), product_reachable s ∧
     mrs_phase (msr_state (mpr_runtime s)) = Stopped ∧ host_sound fx_revoked s ∧
     prepare_trusted_revoker_cleanup fx_revoked fx_evidence "stop.2" 10 s = (s', Ok a) ∧
     mrs_phase (msr_state (mpr_runtime s')) = Stopped) ∧
  ∀ (s : fx_product) env now, product_reachable s → host_sound env s →
    mrs_phase (msr_state (mpr_runtime s)) = Stopped →
    ∃ s' e, apply_recorded_owner_completions env now s = (s', Err e).
Proof.
  split; [|intros s env now Hr%reachable_wf; by apply stopped_applies_nothing].
  set (run := prepare_trusted_revoker_cleanup fx_revoked fx_evidence "stop.2" 10 fx_stopped).
  destruct (run_ok run) as [a Ha]; [vm_compute; reflexivity|].
  exists fx_stopped, run.1, a. split; [apply fx_stopped_reachable|]. split; [vm_compute; reflexivity|].
  split; [apply fx_follows_sound; vm_compute; reflexivity|]. split; [exact Ha|vm_compute; reflexivity].
Qed.

(** ** Applications to the concrete product *)






Lemma product_invariant_witness : product_wf fx_started.
Proof. apply product_invariant, fx_started_reachable. Defined.

Lemma journal_holds_a_state_witness : ∃ s0 : fx_product, product_reachable s0 ∧ snapshot_of fx_calling = snapshot_of s0.
Proof.
  apply (journal_holds_a_state fx_calling); [apply fx_calling_reachable|vm_compute; reflexivity].
Defined.

Lemma recovery_accepts_witness :
  validate_product_recovery_snapshot (mpr_binding fx_calling) (snapshot_of fx_calling) = Ok tt ↔
  recoverable (snapshot_of fx_calling).
Proof.
  apply (recovery_accepts fx_calling []); [apply fx_calling_reachable|vm_compute; reflexivity|vm_compute; discriminate|].
  vm_compute. discriminate.
Defined.



Lemma restored_only_cleans_up_witness :
  ∃ e, prepare fx_live "start.2" OpStart (fx_client OpStart) 10 fx_restarted = (fx_restarted, Err e).
Proof. apply restored_only_cleans_up; [apply fx_restarted_reachable|vm_compute; reflexivity]. Defined.





