(* ===== verification/PackedStream.v ===== *)
(** * Packed stereo streams

    crates/rusty-quest-remote-camera/src/packed_stream.rs: the stream header
    metadata, the 48-byte pair extension of every packet, its validation and the
    validation of a sequence of pairs. *)

From Stdlib Require Import ZArith Sorted.
From S2P Require Import Prelude RustStr MediaModel WireFrame.

Local Open Scope N_scope.

Definition RMANVID_PACKED_STEREO_SCHEMA_VERSION : N := 4.
Definition PACKED_STEREO_STREAM_METADATA_SCHEMA : string :=
  "rusty.quest.remote_camera.packed_stereo_stream_metadata.v1".
Definition PACKED_STEREO_PAIR_EXTENSION_BYTES : N := 48.
Definition FRAME_LAYOUT_SIDE_BY_SIDE_LEFT_RIGHT : string := "side_by_side_left_right".
Definition PAIR_TIMESTAMP_CAMERA2_SENSOR : string := "camera2_sensor_timestamp".
Definition PAIRING_POLICY_NEAREST_TIMESTAMP_BOUNDED : string := "nearest_timestamp_bounded".

Record PackedStereoStreamMetadata := mkStreamMetadata {
  psm_schema : string;
  psm_rmanvid_schema_version : N;
  psm_frame_layout : string;
  psm_eye_order : list string;
  psm_packed_width : N;
  psm_packed_height : N;
  psm_per_eye_width : N;
  psm_per_eye_height : N;
  psm_left_camera_id : string;
  psm_right_camera_id : string;
  psm_pair_timestamp_source : string;
  psm_pairing_policy : string;
  psm_max_pair_delta_ns : N;
  psm_cpu_pixel_copy : bool;
}.

(** Timestamps are [i64]. *)
Record PackedStereoPairMetadata := mkPair {
  ppm_stereo_pair_id : N;
  ppm_left_source_frame : N;
  ppm_right_source_frame : N;
  ppm_left_sensor_timestamp_ns : Z;
  ppm_right_sensor_timestamp_ns : Z;
  ppm_pair_delta_ns : N;
}.

#[global] Instance packed_pair_eq_dec : EqDecision PackedStereoPairMetadata.
Proof. solve_decision. Defined.

Definition CODEC_CONFIG_NOT_APPLICABLE : PackedStereoPairMetadata := mkPair 0 0 0 0 0 0.

(** [u32::saturating_mul(2)]. *)
Definition saturating_mul32 (a b : N) : N := N.min (a * b) u32_max.

Definition packed_stream_errors (metadata : PackedStereoStreamMetadata) (header_width header_height : N)
    : list ValidationError :=
  push_if (negb (psm_schema metadata =? PACKED_STEREO_STREAM_METADATA_SCHEMA)%string)
    ("unsupported packed stream metadata schema " ++ psm_schema metadata) ++
  push_if (negb (psm_rmanvid_schema_version metadata =? RMANVID_PACKED_STEREO_SCHEMA_VERSION))
    ("packed stream requires RMANVID schema version " ++ fmt_decimal RMANVID_PACKED_STEREO_SCHEMA_VERSION) ++
  push_if (negb (psm_frame_layout metadata =? FRAME_LAYOUT_SIDE_BY_SIDE_LEFT_RIGHT)%string)
    "packed stream frame_layout must be side_by_side_left_right" ++
  push_if (negb (bool_decide (psm_eye_order metadata = ["left"; "right"]%string)))
    "packed stream eye_order must be exactly left then right" ++
  push_if ((psm_per_eye_width metadata =? 0) || (psm_per_eye_height metadata =? 0) ||
           negb (psm_packed_width metadata =? saturating_mul32 (psm_per_eye_width metadata) 2) ||
           negb (psm_packed_height metadata =? psm_per_eye_height metadata) ||
           negb (header_width =? psm_packed_width metadata) ||
           negb (header_height =? psm_packed_height metadata))
    "packed stream dimensions disagree with per-eye or RMANVID header dimensions" ++
  push_if (is_blank (psm_left_camera_id metadata) || is_blank (psm_right_camera_id metadata) ||
           (psm_left_camera_id metadata =? psm_right_camera_id metadata)%string)
    "packed stream requires distinct left and right camera ids" ++
  push_if (negb (psm_pair_timestamp_source metadata =? PAIR_TIMESTAMP_CAMERA2_SENSOR)%string)
    "packed stream pair timestamp source must be camera2_sensor_timestamp" ++
  push_if (negb (psm_pairing_policy metadata =? PAIRING_POLICY_NEAREST_TIMESTAMP_BOUNDED)%string)
    "packed stream pairing policy must be nearest_timestamp_bounded" ++
  push_if ((psm_max_pair_delta_ns metadata =? 0) || (1000000000 <? psm_max_pair_delta_ns metadata))
    "packed stream max_pair_delta_ns must be 1..=1000000000" ++
  push_if (psm_cpu_pixel_copy metadata)
    "packed stream promotion metadata requires cpu_pixel_copy=false".

Definition validate_packed_stream_metadata (metadata : PackedStereoStreamMetadata) (header_width header_height : N)
    : result (list ValidationError) unit :=
  match packed_stream_errors metadata header_width header_height with
  | [] => Ok tt
  | errors => Err errors
  end.

(** ** The pair extension *)

(** [i64::to_be_bytes] and [i64::from_be_bytes]: two's complement. *)
Definition i64_be_bytes (z : Z) : list N := be_bytes 8 (Z.to_N (z mod 2 ^ 64)).
Definition i64_from_be (bytes : list N) : Z :=
  let n := from_be bytes in
  if n <? 9223372036854775808 then Z.of_N n else (Z.of_N n - 2 ^ 64)%Z.

Definition encode_packed_pair_metadata (pair : PackedStereoPairMetadata) : list N :=
  be_bytes 8 (ppm_stereo_pair_id pair) ++ be_bytes 8 (ppm_left_source_frame pair) ++
  be_bytes 8 (ppm_right_source_frame pair) ++ i64_be_bytes (ppm_left_sensor_timestamp_ns pair) ++
  i64_be_bytes (ppm_right_sensor_timestamp_ns pair) ++ be_bytes 8 (ppm_pair_delta_ns pair).

Definition read_u64 (bytes : list N) (offset : nat) : N := from_be (slice offset (offset + 8) bytes).
Definition read_i64 (bytes : list N) (offset : nat) : Z := i64_from_be (slice offset (offset + 8) bytes).

Definition decode_packed_pair_metadata (bytes : list N) : result ValidationError PackedStereoPairMetadata :=
  fail_if (negb (len bytes =? PACKED_STEREO_PAIR_EXTENSION_BYTES))
    ("packed pair extension must be exactly " ++ fmt_decimal PACKED_STEREO_PAIR_EXTENSION_BYTES ++
     " bytes, got " ++ fmt_decimal (len bytes))%string ;;
  Ok (mkPair (read_u64 bytes 0) (read_u64 bytes 8) (read_u64 bytes 16) (read_i64 bytes 24)
        (read_i64 bytes 32) (read_u64 bytes 40)).

(** [i64::abs_diff]. *)
Definition abs_diff (a b : Z) : N := Z.to_N (Z.abs (a - b)).

Definition validate_packed_pair_metadata (pair : PackedStereoPairMetadata) (codec_config_packet : bool)
    (max_pair_delta_ns : N) : result ValidationError unit :=
  if codec_config_packet then
    fail_if (negb (bool_decide (pair = CODEC_CONFIG_NOT_APPLICABLE)))
      "codec-config packet requires the zero/not-applicable packed pair shape"%string
  else
    fail_if ((ppm_stereo_pair_id pair =? 0) || (ppm_left_source_frame pair =? 0) ||
             (ppm_right_source_frame pair =? 0))
      "video packet requires nonzero pair and source frame ids"%string ;;
    fail_if ((ppm_left_sensor_timestamp_ns pair <=? 0)%Z || (ppm_right_sensor_timestamp_ns pair <=? 0)%Z)
      "video packet requires positive source sensor timestamps"%string ;;
    fail_if (negb (ppm_pair_delta_ns pair =?
                   abs_diff (ppm_left_sensor_timestamp_ns pair) (ppm_right_sensor_timestamp_ns pair)))
      "packed pair_delta_ns disagrees with source sensor timestamps"%string ;;
    fail_if ((max_pair_delta_ns =? 0) || (max_pair_delta_ns <? ppm_pair_delta_ns pair))
      "packed pair source timestamp skew exceeds the configured bound"%string.

(** The loop of [validate_packed_pair_sequence] with its three previous ids and
    its two sets. *)
Fixpoint pair_sequence_loop (max_pair_delta_ns previous_pair previous_left previous_right : N)
    (seen_left seen_right : gset N) (pairs : list PackedStereoPairMetadata) : result ValidationError unit :=
  match pairs with
  | [] => Ok tt
  | p :: rest =>
      validate_packed_pair_metadata p false max_pair_delta_ns ;;
      fail_if ((ppm_stereo_pair_id p <=? previous_pair) || (ppm_left_source_frame p <=? previous_left) ||
               (ppm_right_source_frame p <=? previous_right) ||
               bool_decide (ppm_left_source_frame p ∈ seen_left) ||
               bool_decide (ppm_right_source_frame p ∈ seen_right))
        "packed pair sequence reuses or does not monotonically advance pair/source frame ids"%string ;;
      pair_sequence_loop max_pair_delta_ns (ppm_stereo_pair_id p) (ppm_left_source_frame p)
        (ppm_right_source_frame p) ({[ppm_left_source_frame p]} ∪ seen_left)
        ({[ppm_right_source_frame p]} ∪ seen_right) rest
  end.

Definition validate_packed_pair_sequence (pairs : list PackedStereoPairMetadata) (max_pair_delta_ns : N)
    : result ValidationError unit :=
  pair_sequence_loop max_pair_delta_ns 0 0 0 ∅ ∅ pairs.

(** ** The pair extension is a bijection *)

Definition is_u64 (n : N) : Prop := n ≤ u64_max.
Definition is_i64 (z : Z) : Prop := (- 2 ^ 63 ≤ z < 2 ^ 63)%Z.

(** The values a [PackedStereoPairMetadata] can hold. *)
Definition pair_in_range (pair : PackedStereoPairMetadata) : Prop :=
  is_u64 (ppm_stereo_pair_id pair) ∧ is_u64 (ppm_left_source_frame pair) ∧
  is_u64 (ppm_right_source_frame pair) ∧ is_i64 (ppm_left_sensor_timestamp_ns pair) ∧
  is_i64 (ppm_right_sensor_timestamp_ns pair) ∧ is_u64 (ppm_pair_delta_ns pair).

Lemma u64_range n : is_u64 n ↔ n < 256 ^ N.of_nat 8.
Proof. unfold is_u64. change u64_max with 18446744073709551615. change (256 ^ N.of_nat 8) with 18446744073709551616. lia. Qed.

Lemma i64_be_bytes_length z : length (i64_be_bytes z) = 8%nat.
Proof. apply be_bytes_length. Qed.

Lemma i64_from_be_bytes z : is_i64 z → i64_from_be (i64_be_bytes z) = z.
Proof.
  unfold is_i64, i64_from_be, i64_be_bytes. rewrite from_be_bytes.
  change (256 ^ N.of_nat 8) with 18446744073709551616. change (2 ^ 63)%Z with 9223372036854775808%Z.
  change (2 ^ 64)%Z with 18446744073709551616%Z. intros Hz.
  pose proof (Z.mod_pos_bound z 18446744073709551616 ltac:(lia)).
  rewrite N.mod_small by lia. destruct (Z_lt_le_dec z 0) as [Hn|Hn].
  - assert (z mod 18446744073709551616 = z + 18446744073709551616)%Z as ->
      by (symmetry; apply Z.mod_unique with (-1)%Z; lia).
    destruct (N.ltb_spec (Z.to_N (z + 18446744073709551616)) 9223372036854775808); lia.
  - rewrite Z.mod_small by lia. destruct (N.ltb_spec (Z.to_N z) 9223372036854775808); lia.
Qed.

Lemma i64_be_from_bytes bytes : Forall is_u8 bytes → length bytes = 8%nat →
  is_i64 (i64_from_be bytes) ∧ i64_be_bytes (i64_from_be bytes) = bytes.
Proof.
  intros Hu Hl. pose proof (from_be_bound bytes Hu) as Hb. rewrite Hl in Hb.
  change (256 ^ N.of_nat 8) with 18446744073709551616 in Hb.
  assert (E : Z.to_N (i64_from_be bytes mod 2 ^ 64) = from_be bytes).
  { unfold i64_from_be. change (2 ^ 64)%Z with 18446744073709551616%Z.
    destruct (N.ltb_spec (from_be bytes) 9223372036854775808).
    - rewrite Z.mod_small by lia. lia.
    - rewrite <- (Z.mod_unique (Z.of_N (from_be bytes) - 18446744073709551616) 18446744073709551616
                    (-1) (Z.of_N (from_be bytes))) by lia. lia. }
  split.
  - unfold is_i64, i64_from_be. change (2 ^ 63)%Z with 9223372036854775808%Z.
    change (2 ^ 64)%Z with 18446744073709551616%Z.
    destruct (N.ltb_spec (from_be bytes) 9223372036854775808); lia.
  - unfold i64_be_bytes. rewrite E, <- Hl. by apply be_from_bytes.
Qed.

Lemma slice_skip (a b : list N) k : length a = 8%nat → slice (8 + k) (8 + k + 8) (a ++ b) = slice k (k + 8) b.
Proof. intros H. rewrite <- (slice_app_r 8 a b) by done. f_equal; lia. Qed.

Lemma slice_first (a b : list N) : length a = 8%nat → slice 0 (0 + 8) (a ++ b) = a.
Proof. intros H. change (0 + 8)%nat with 8%nat. rewrite <- H. apply slice_app_l. Qed.

(** The six fields of a concatenation of six 8-byte words. *)
Lemma word_slices (a b c d e f : list N) :
  length a = 8%nat → length b = 8%nat → length c = 8%nat → length d = 8%nat → length e = 8%nat → length f = 8%nat →
  let l := a ++ b ++ c ++ d ++ e ++ f in
  slice 0 8 l = a ∧ slice 8 16 l = b ∧ slice 16 24 l = c ∧ slice 24 32 l = d ∧ slice 32 40 l = e ∧ slice 40 48 l = f.
Proof.
  intros Ha Hb Hc Hd He Hf l. subst l. split_and!.
  - by apply slice_first.
  - rewrite (slice_skip a _ 0) by done. by apply slice_first.
  - rewrite (slice_skip a _ 8), (slice_skip b _ 0) by done. by apply slice_first.
  - rewrite (slice_skip a _ 16), (slice_skip b _ 8), (slice_skip c _ 0) by done. by apply slice_first.
  - rewrite (slice_skip a _ 24), (slice_skip b _ 16), (slice_skip c _ 8), (slice_skip d _ 0) by done.
    by apply slice_first.
  - rewrite (slice_skip a _ 32), (slice_skip b _ 24), (slice_skip c _ 16), (slice_skip d _ 8),
      (slice_skip e _ 0) by done. rewrite <- (app_nil_r f) at 1. by apply slice_first.
Qed.

Lemma words_of_slices (l : list N) : length l = 48%nat →
  l = slice 0 8 l ++ slice 8 16 l ++ slice 16 24 l ++ slice 24 32 l ++ slice 32 40 l ++ slice 40 48 l.
Proof.
  intros Hl. rewrite <- (slice_cut 8 l) at 1. f_equal.
  rewrite <- (slice_drop 8 16), <- (slice_drop 16 24), <- (slice_drop 24 32), <- (slice_drop 32 40),
    <- (slice_drop 40 48) by lia.
  by rewrite (drop_ge l 48), app_nil_r by lia.
Qed.

Lemma encode_pair_length pair : length (encode_packed_pair_metadata pair) = 48%nat.
Proof. unfold encode_packed_pair_metadata. rewrite !length_app, !i64_be_bytes_length, !be_bytes_length. done. Qed.

Lemma encode_pair_u8 pair : Forall is_u8 (encode_packed_pair_metadata pair).
Proof. unfold encode_packed_pair_metadata, i64_be_bytes. rewrite !Forall_app. split_and!; apply be_bytes_u8. Qed.

Lemma decode_encode_pair pair : pair_in_range pair →
  decode_packed_pair_metadata (encode_packed_pair_metadata pair) = Ok pair.
Proof.
  intros (H1 & H2 & H3 & H4 & H5 & H6). unfold decode_packed_pair_metadata, len. rewrite encode_pair_length.
  cbn [N.of_nat negb fail_if mbind result_bind N.eqb Pos.eqb]. unfold read_u64, read_i64.
  destruct (word_slices (be_bytes 8 (ppm_stereo_pair_id pair)) (be_bytes 8 (ppm_left_source_frame pair))
    (be_bytes 8 (ppm_right_source_frame pair)) (i64_be_bytes (ppm_left_sensor_timestamp_ns pair))
    (i64_be_bytes (ppm_right_sensor_timestamp_ns pair)) (be_bytes 8 (ppm_pair_delta_ns pair)))
    as (E1 & E2 & E3 & E4 & E5 & E6); try apply be_bytes_length.
  unfold encode_packed_pair_metadata. cbn [Nat.add]. rewrite E1, E2, E3, E4, E5, E6.
  rewrite !from_be_bytes, !i64_from_be_bytes, !N.mod_small by (done || by apply u64_range). by destruct pair.
Qed.

Lemma read_u64_exact bytes offset : Forall is_u8 bytes → (offset + 8 ≤ length bytes)%nat →
  is_u64 (read_u64 bytes offset) ∧ be_bytes 8 (read_u64 bytes offset) = slice offset (offset + 8) bytes.
Proof.
  intros Hu Hl. unfold read_u64. assert (Hs : length (slice offset (offset + 8) bytes) = 8%nat).
  { rewrite slice_length; lia. }
  pose proof (slice_u8 offset (offset + 8) _ Hu) as Hu'. split.
  - apply u64_range. pose proof (from_be_bound _ Hu') as Hb. by rewrite Hs in Hb.
  - pose proof (be_from_bytes _ Hu') as E. by rewrite Hs in E.
Qed.

Lemma read_i64_exact bytes offset : Forall is_u8 bytes → (offset + 8 ≤ length bytes)%nat →
  is_i64 (read_i64 bytes offset) ∧ i64_be_bytes (read_i64 bytes offset) = slice offset (offset + 8) bytes.
Proof. intros Hu Hl. apply i64_be_from_bytes; [by apply slice_u8|rewrite slice_length; lia]. Qed.

Lemma decode_pair_inv bytes pair : Forall is_u8 bytes → decode_packed_pair_metadata bytes = Ok pair →
  pair_in_range pair ∧ encode_packed_pair_metadata pair = bytes.
Proof.
  intros Hu E. unfold decode_packed_pair_metadata in E. apply fail_if_bind_ok in E as [E1 [= <-]].
  bool_to_prop. unfold len in E1. change PACKED_STEREO_PAIR_EXTENSION_BYTES with 48 in E1.
  assert (Hl : length bytes = 48%nat) by lia.
  destruct (read_u64_exact bytes 0) as [R0 S0]; [done|lia|]. destruct (read_u64_exact bytes 8) as [R1 S1]; [done|lia|].
  destruct (read_u64_exact bytes 16) as [R2 S2]; [done|lia|]. destruct (read_i64_exact bytes 24) as [R3 S3]; [done|lia|].
  destruct (read_i64_exact bytes 32) as [R4 S4]; [done|lia|]. destruct (read_u64_exact bytes 40) as [R5 S5]; [done|lia|].
  split; [done|]. unfold encode_packed_pair_metadata. cbn [ppm_stereo_pair_id ppm_left_source_frame
    ppm_right_source_frame ppm_left_sensor_timestamp_ns ppm_right_sensor_timestamp_ns ppm_pair_delta_ns].
  rewrite S0, S1, S2, S3, S4, S5. symmetry. by apply words_of_slices.
Qed.

Lemma decode_pair_iff bytes pair : Forall is_u8 bytes →
  decode_packed_pair_metadata bytes = Ok pair ↔ pair_in_range pair ∧ bytes = encode_packed_pair_metadata pair.
Proof.
  intros Hu. split.
  - intros H. destruct (decode_pair_inv _ _ Hu H). done.
  - intros [Hr ->]. by apply decode_encode_pair.
Qed.

(** ** What the validators accept *)

(** A video packet's pair within the skew bound. *)
Definition video_pair (max_pair_delta_ns : N) (pair : PackedStereoPairMetadata) : Prop :=
  ppm_stereo_pair_id pair ≠ 0 ∧ ppm_left_source_frame pair ≠ 0 ∧ ppm_right_source_frame pair ≠ 0 ∧
  (0 < ppm_left_sensor_timestamp_ns pair)%Z ∧ (0 < ppm_right_sensor_timestamp_ns pair)%Z ∧
  ppm_pair_delta_ns pair = abs_diff (ppm_left_sensor_timestamp_ns pair) (ppm_right_sensor_timestamp_ns pair) ∧
  0 < max_pair_delta_ns ∧ ppm_pair_delta_ns pair ≤ max_pair_delta_ns.

Lemma validate_pair_iff max pair :
  validate_packed_pair_metadata pair false max = Ok tt ↔ video_pair max pair.
Proof.
  unfold validate_packed_pair_metadata, video_pair. rewrite !fail_if_bind_ok, fail_if_ok.
  rewrite !orb_false_iff, !negb_false_iff, !N.eqb_neq, !N.eqb_eq, N.ltb_ge, !Z.leb_gt. split.
  - intros ([[??] ?] & [??] & ? & ? & ?). split_and!; (done || lia).
  - intros (? & ? & ? & ? & ? & ? & ? & ?). split_and!; (done || lia).
Qed.

(** The next pair of a sequence. *)
Definition advances (p q : PackedStereoPairMetadata) : Prop :=
  ppm_stereo_pair_id p < ppm_stereo_pair_id q ∧ ppm_left_source_frame p < ppm_left_source_frame q ∧
  ppm_right_source_frame p < ppm_right_source_frame q.

#[global] Instance advances_trans : Transitive advances.
Proof. intros p q r (?&?&?) (?&?&?). unfold advances. lia. Qed.

(** The loop without its sets: they never decide, because the ids already
    increase. *)
Fixpoint advancing_loop (max previous_pair previous_left previous_right : N)
    (pairs : list PackedStereoPairMetadata) : result ValidationError unit :=
  match pairs with
  | [] => Ok tt
  | p :: rest =>
      validate_packed_pair_metadata p false max ;;
      fail_if ((ppm_stereo_pair_id p <=? previous_pair) || (ppm_left_source_frame p <=? previous_left) ||
               (ppm_right_source_frame p <=? previous_right))
        "packed pair sequence reuses or does not monotonically advance pair/source frame ids"%string ;;
      advancing_loop max (ppm_stereo_pair_id p) (ppm_left_source_frame p) (ppm_right_source_frame p) rest
  end.

Lemma pair_sequence_loop_sets max pp pl pr seen_left seen_right pairs :
  (∀ x, x ∈ seen_left → x ≤ pl) → (∀ x, x ∈ seen_right → x ≤ pr) →
  pair_sequence_loop max pp pl pr seen_left seen_right pairs = advancing_loop max pp pl pr pairs.
Proof.
  revert pp pl pr seen_left seen_right. induction pairs as [|p rest IH]; intros * Hl Hr; [done|].
  cbn [pair_sequence_loop advancing_loop].
  destruct (validate_packed_pair_metadata p false max); cbn [mbind result_bind]; [|done].
  destruct (N.leb_spec (ppm_stereo_pair_id p) pp); [done|].
  destruct (N.leb_spec (ppm_left_source_frame p) pl) as [|L]; [done|].
  destruct (N.leb_spec (ppm_right_source_frame p) pr) as [|R]; [done|]. cbn [orb].
  rewrite !bool_decide_false; [|intros ?%Hr; lia|intros ?%Hl; lia]. cbn.
  apply IH; intros x [->%elem_of_singleton|Hx]%elem_of_union; try lia.
  - specialize (Hl x Hx). lia.
  - specialize (Hr x Hx). lia.
Qed.

Lemma advancing_loop_iff max pp pl pr pairs :
  advancing_loop max pp pl pr pairs = Ok tt ↔
  Forall (video_pair max) pairs ∧ StronglySorted advances pairs ∧
  (∀ p, head pairs = Some p → pp < ppm_stereo_pair_id p ∧ pl < ppm_left_source_frame p ∧ pr < ppm_right_source_frame p).
Proof.
  revert pp pl pr. induction pairs as [|p rest IH]; intros pp pl pr; cbn [advancing_loop head].
  { split; [|done]. intros _. split_and!; [constructor|constructor|done]. }
  rewrite then_ok, fail_if_bind_ok, validate_pair_iff, !orb_false_iff, !N.leb_gt, IH, Forall_cons. split.
  - intros (V & [[A B] C] & F & S & Hd). split_and!; try done.
    + constructor; [done|]. destruct rest as [|q rest]; [constructor|].
      assert (advances p q) as Hpq by (destruct (Hd q eq_refl) as (?&?&?); done).
      constructor; [done|]. apply StronglySorted_inv in S as [_ S].
      eapply Forall_impl; [exact S|]. intros r Hr. by transitivity q.
    + intros ? [= <-]. done.
  - intros ([V F] & S & Hd). apply StronglySorted_inv in S as [S Sp]. destruct (Hd p eq_refl) as (?&?&?).
    split_and!; try done. intros q Hq. destruct rest; [done|]. injection Hq as ->.
    apply Forall_cons in Sp as [Sp _]. exact Sp.
Qed.

Lemma packed_sequence_loop pairs max :
  validate_packed_pair_sequence pairs max = advancing_loop max 0 0 0 pairs.
Proof. apply pair_sequence_loop_sets; intros x Hx; set_solver. Qed.

Lemma packed_sequence_iff pairs max :
  validate_packed_pair_sequence pairs max = Ok tt ↔ Forall (video_pair max) pairs ∧ StronglySorted advances pairs.
Proof.
  rewrite packed_sequence_loop, advancing_loop_iff. split; [naive_solver|]. intros [F S]. split_and!; try done.
  intros p Hp. destruct pairs as [|q rest]; [done|]. injection Hp as ->.
  apply Forall_cons in F as [(?&?&?&_) _]. lia.
Qed.
