(* ===== verification/StereoPair.v ===== *)
(** * Exact stereo pairing and exactly-once release

    [AndroidMediaPairRuntime] of crates/rusty-quest-media-stream-android/src/lib.rs:
    pending frames by exact presentation time, pairing by pair id and opposite
    eye, expiry, cancellation of a generation, and the record of released
    handles. *)

From Stdlib Require Import ZArith Sorted.
From S2P Require Import Prelude RustStr OwnerEffect.

Local Open Scope N_scope.

Inductive AndroidMediaEye := EyeLeft | EyeRight.

#[global] Instance eye_eq_dec : EqDecision AndroidMediaEye.
Proof. solve_decision. Defined.

(** The presentation time is an [i64]. *)
Record AndroidMediaFrameSubmission := mkFrame {
  fs_generation : N;
  fs_lease_id : string;
  fs_pair_id : N;
  fs_eye : AndroidMediaEye;
  fs_presentation_time_us : Z;
  fs_submitted_at_ns : N;
  fs_frame_handle_id : string;
}.

Record AndroidMediaStereoPair := mkStereoPair {
  sp_pair_id : N;
  sp_left : AndroidMediaFrameSubmission;
  sp_right : AndroidMediaFrameSubmission;
}.

(** ** [BTreeMap<(AndroidMediaEye, i64), AndroidMediaFrameSubmission>]: the
    entries in key order. *)

Definition pts_key : Type := AndroidMediaEye * Z.
Notation pts_map := (list (pts_key * AndroidMediaFrameSubmission)%type).

Definition eye_index (eye : AndroidMediaEye) : Z := match eye with EyeLeft => 0 | EyeRight => 1 end.

(** The derived order of the eye, then of the time. *)
Definition compare_key (a b : pts_key) : comparison :=
  match Z.compare (eye_index a.1) (eye_index b.1) with
  | Eq => Z.compare a.2 b.2
  | c => c
  end.

Fixpoint pts_insert (key : pts_key) (frame : AndroidMediaFrameSubmission) (m : pts_map) : pts_map :=
  match m with
  | [] => [(key, frame)]
  | (key', frame') :: m' =>
      match compare_key key key' with
      | Lt => (key, frame) :: m
      | Eq => (key, frame) :: m'
      | Gt => (key', frame') :: pts_insert key frame m'
      end
  end.

Fixpoint pts_get (key : pts_key) (m : pts_map) : option AndroidMediaFrameSubmission :=
  match m with
  | [] => None
  | (key', frame) :: m' => if bool_decide (key = key') then Some frame else pts_get key m'
  end.

Definition pts_contains (key : pts_key) (m : pts_map) : bool :=
  match pts_get key m with Some _ => true | None => false end.

(** [remove] without its result. *)
Definition pts_remove (key : pts_key) (m : pts_map) : pts_map := filter (fun entry => entry.1 ≠ key) m.

(** ** The runtime *)

Record AndroidMediaPairRuntime := mkPairRuntime {
  pr_generation : N;
  pr_lease_id : string;
  pr_max_pair_age_ns : N;
  pr_pending_by_pts : pts_map;
  pr_released_handles : gset string;
}.

Definition pair_runtime_new (generation : N) (lease_id : string) (max_pair_age_ns : N)
    : result AndroidMediaContractError AndroidMediaPairRuntime :=
  fail_if ((generation =? 0) || is_blank lease_id || (max_pair_age_ns =? 0)) FrameContractMismatch ;;
  Ok (mkPairRuntime generation lease_id max_pair_age_ns [] ∅).

Definition set_pending (pending : pts_map) (runtime : AndroidMediaPairRuntime) : AndroidMediaPairRuntime :=
  mkPairRuntime (pr_generation runtime) (pr_lease_id runtime) (pr_max_pair_age_ns runtime) pending
    (pr_released_handles runtime).

(** [now_ns.saturating_sub(submitted_at_ns) > max_pair_age_ns]. *)
Definition aged (runtime : AndroidMediaPairRuntime) (now_ns : N) (frame : AndroidMediaFrameSubmission) : bool :=
  pr_max_pair_age_ns runtime <? saturating_sub now_ns (fs_submitted_at_ns frame).

Definition frame_key (frame : AndroidMediaFrameSubmission) : pts_key :=
  (fs_eye frame, fs_presentation_time_us frame).

(** The guard of [submit]. *)
Definition submit_rejected (runtime : AndroidMediaPairRuntime) (frame : AndroidMediaFrameSubmission) : bool :=
  negb (fs_generation frame =? pr_generation runtime) ||
  negb (fs_lease_id frame =? pr_lease_id runtime)%string ||
  is_blank (fs_frame_handle_id frame) ||
  bool_decide (fs_frame_handle_id frame ∈ pr_released_handles runtime) ||
  pts_contains (frame_key frame) (pr_pending_by_pts runtime) ||
  existsb (fun entry =>
    (fs_frame_handle_id entry.2 =? fs_frame_handle_id frame)%string ||
    ((fs_pair_id entry.2 =? fs_pair_id frame) && bool_decide (fs_eye entry.2 = fs_eye frame)))
    (pr_pending_by_pts runtime) ||
  (32 <=? len (pr_pending_by_pts runtime)).

Definition is_counterpart (frame : AndroidMediaFrameSubmission) (entry : pts_key * AndroidMediaFrameSubmission) : bool :=
  (fs_pair_id entry.2 =? fs_pair_id frame) && negb (bool_decide (fs_eye entry.2 = fs_eye frame)).

Definition stereo_pair (frame other : AndroidMediaFrameSubmission) : AndroidMediaStereoPair :=
  let '(l, r) := if bool_decide (fs_eye frame = EyeLeft) then (frame, other) else (other, frame) in
  mkStereoPair (fs_pair_id l) l r.

Definition submit (runtime : AndroidMediaPairRuntime) (frame : AndroidMediaFrameSubmission) (now_ns : N)
    : AndroidMediaPairRuntime * result AndroidMediaContractError (option AndroidMediaStereoPair) :=
  if submit_rejected runtime frame then (runtime, Err FrameContractMismatch)
  else if aged runtime now_ns frame then (runtime, Err PairExpired)
  else match List.find (is_counterpart frame) (pr_pending_by_pts runtime) with
  | Some (counterpart_key, other) =>
      if aged runtime now_ns other then (runtime, Err PairExpired)
      else (set_pending (pts_remove counterpart_key (pr_pending_by_pts runtime)) runtime,
            Ok (Some (stereo_pair frame other)))
  | None =>
      (set_pending (pts_insert (frame_key frame) frame (pr_pending_by_pts runtime)) runtime, Ok None)
  end.

Definition handles (m : pts_map) : list string := (fun entry => fs_frame_handle_id entry.2) <$> m.

Definition cancel_generation (runtime : AndroidMediaPairRuntime) (generation replacement_generation : N)
    : AndroidMediaPairRuntime * result AndroidMediaContractError (list string) :=
  if negb (generation =? pr_generation runtime) || (replacement_generation <=? generation)
  then (runtime, Err FrameContractMismatch)
  else (mkPairRuntime replacement_generation (pr_lease_id runtime) (pr_max_pair_age_ns runtime) []
          (pr_released_handles runtime), Ok (handles (pr_pending_by_pts runtime))).

(** The aged keys are collected, then removed one by one. *)
Fixpoint remove_keys (keys : list pts_key) (m : pts_map) : pts_map * list AndroidMediaFrameSubmission :=
  match keys with
  | [] => (m, [])
  | key :: rest =>
      let '(m', removed) := remove_keys rest (pts_remove key m) in
      (m', match pts_get key m with Some frame => frame :: removed | None => removed end)
  end.

Definition expire_pairs (runtime : AndroidMediaPairRuntime) (now_ns : N) : AndroidMediaPairRuntime * list string :=
  let expired := (filter (fun entry => aged runtime now_ns entry.2 = true) (pr_pending_by_pts runtime)).*1 in
  let '(pending, removed) := remove_keys expired (pr_pending_by_pts runtime) in
  (set_pending pending runtime, fs_frame_handle_id <$> removed).

Definition release (runtime : AndroidMediaPairRuntime) (handle_id : string)
    : AndroidMediaPairRuntime * result AndroidMediaContractError unit :=
  if is_blank handle_id || bool_decide (handle_id ∈ pr_released_handles runtime)
  then (runtime, Err FrameContractMismatch)
  else (mkPairRuntime (pr_generation runtime) (pr_lease_id runtime) (pr_max_pair_age_ns runtime)
          (pr_pending_by_pts runtime) ({[handle_id]} ∪ pr_released_handles runtime), Ok tt).

(** ** The conformance exercise *)

Record AndroidMediaConformanceReport := mkConformanceReport {
  cfr_schema_id : string;
  cfr_exact_pair_contract_passed : bool;
  cfr_generation_lease_contract_passed : bool;
  cfr_exactly_once_release_passed : bool;
  cfr_external_effects : list string;
}.

Definition conformance_frame (pair_id : N) (eye : AndroidMediaEye) (pts : Z) (handle : string)
    : AndroidMediaFrameSubmission := mkFrame 7 "lease.conformance" pair_id eye pts 1000 handle.

Definition run_synthetic_android_conformance : result AndroidMediaContractError AndroidMediaConformanceReport :=
  runtime ← pair_runtime_new 7 "lease.conformance" 100;
  let '(runtime, first) := submit runtime (conformance_frame 11 EyeLeft 40 "frame.left") 1050 in
  first ← first;
  fail_if (bool_decide (is_Some first)) FrameContractMismatch ;;
  let '(runtime, second) := submit runtime (conformance_frame 11 EyeRight 42 "frame.right") 1050 in
  second ← second;
  pair ← ok_or second FrameContractMismatch;
  fail_if (negb (fs_presentation_time_us (sp_left pair) =? 40)%Z ||
           negb (fs_presentation_time_us (sp_right pair) =? 42)%Z) FrameContractMismatch ;;
  let '(runtime, released) := release runtime (fs_frame_handle_id (sp_left pair)) in
  released ;;
  let '(runtime, released) := release runtime (fs_frame_handle_id (sp_right pair)) in
  released ;;
  let '(runtime, released) := release runtime (fs_frame_handle_id (sp_left pair)) in
  fail_if (is_ok released) FrameContractMismatch ;;
  let '(runtime, submitted) := submit runtime (conformance_frame 12 EyeLeft 60 "frame.expiring") 1050 in
  submitted ;;
  let '(runtime, expired) := expire_pairs runtime 1101 in
  fail_if (negb (bool_decide (expired = ["frame.expiring"%string]))) FrameContractMismatch ;;
  let '(runtime, released) := release runtime (default ""%string (head expired)) in
  released ;;
  let '(runtime, cancelled) := cancel_generation runtime 7 8 in
  cancelled ;;
  let '(runtime, stale) := submit runtime (conformance_frame 11 EyeLeft 50 "frame.stale") 1050 in
  fail_if (is_ok stale) FrameContractMismatch ;;
  Ok (mkConformanceReport "rusty.quest.android.media.conformance.v1" true true true []).

(** ** Ordered maps *)

Lemma compare_key_eq a b : compare_key a b = Eq ↔ a = b.
Proof.
  destruct a as [[] x], b as [[] y]; unfold compare_key; cbn; rewrite ?Z.compare_eq_iff;
    split; intros H; (done || congruence).
Qed.

Lemma pts_get_elem key frame m : pts_get key m = Some frame → (key, frame) ∈ m.
Proof.
  induction m as [|[k f] m IH]; cbn; [done|]. case_bool_decide as E; [subst; intros [= ->]|]; set_solver.
Qed.

Lemma pts_get_none key m : pts_get key m = None ↔ key ∉ m.*1.
Proof.
  induction m as [|[k f] m IH]; cbn; [set_solver|]. case_bool_decide as E; [subst|]; set_solver.
Qed.

Lemma compare_key_trans a b c : compare_key a b = Lt → compare_key b c = Lt → compare_key a c = Lt.
Proof.
  destruct a as [[] x], b as [[] y], c as [[] z]; unfold compare_key; cbn; rewrite ?Z.compare_lt_iff;
    (done || lia).
Qed.

Lemma compare_key_gt a b : compare_key a b = Gt → compare_key b a = Lt.
Proof.
  destruct a as [[] x], b as [[] y]; unfold compare_key; cbn; rewrite ?Z.compare_lt_iff, ?Z.compare_gt_iff; done.
Qed.

Definition pts_sorted (m : pts_map) : Prop := StronglySorted (fun a b => compare_key a.1 b.1 = Lt) m.

Lemma pts_sorted_nodup m : pts_sorted m → NoDup m.*1.
Proof.
  induction 1 as [|[k f] m Hm IH Hx]; cbn; constructor; [|done].
  intros (e & -> & He)%list_elem_of_fmap. rewrite Forall_forall in Hx. specialize (Hx e He). cbn in Hx.
  by rewrite (proj2 (compare_key_eq _ _) eq_refl) in Hx.
Qed.

Lemma pts_insert_perm key frame m : key ∉ m.*1 → pts_insert key frame m ≡ₚ (key, frame) :: m.
Proof.
  induction m as [|[k f] m IH]; cbn; [done|]. intros H.
  destruct (compare_key key k) eqn:C; [|done|].
  - apply compare_key_eq in C as ->. set_solver.
  - rewrite IH by set_solver. apply Permutation_swap.
Qed.

Lemma pts_insert_sorted key frame m : pts_sorted m → key ∉ m.*1 → pts_sorted (pts_insert key frame m).
Proof.
  unfold pts_sorted. induction 1 as [|[k f] m Hm IH Hx]; cbn; intros H; [repeat constructor|].
  destruct (compare_key key k) eqn:C.
  - apply compare_key_eq in C as ->. set_solver.
  - constructor; [by constructor|]. constructor; [done|]. eapply Forall_impl; [exact Hx|].
    cbn. intros e. by apply compare_key_trans.
  - constructor; [apply IH; set_solver|]. rewrite pts_insert_perm by set_solver.
    constructor; [by apply compare_key_gt|done].
Qed.

Lemma sorted_filter {A} (R : A → A → Prop) (P : A → Prop) `{!∀ x, Decision (P x)} (l : list A) :
  StronglySorted R l → StronglySorted R (filter P l).
Proof.
  induction 1 as [|x l Hl IH Hx]; [constructor|]. rewrite filter_cons. case_decide; [|done].
  constructor; [done|]. rewrite Forall_forall in *. intros y [_ Hy]%list_elem_of_filter. by apply Hx.
Qed.

Lemma filter_id {A} (P : A → Prop) `{!∀ x, Decision (P x)} (l : list A) : Forall P l → filter P l = l.
Proof. induction 1 as [|x l Hx Hl IH]; [done|]. rewrite filter_cons, decide_True by done. by f_equal. Qed.

Lemma pts_get_perm key frame m : NoDup m.*1 → pts_get key m = Some frame → m ≡ₚ (key, frame) :: pts_remove key m.
Proof.
  intros Hn E. induction m as [|[k f] m IH]; cbn in E, Hn; [done|]. apply NoDup_cons in Hn as [Hk Hn].
  unfold pts_remove in *. rewrite filter_cons. cbn [fst]. case_bool_decide as C.
  - subst k. injection E as ->. rewrite decide_False by naive_solver.
    constructor. rewrite filter_id; [done|]. apply Forall_forall. intros [k f] Hi E. apply Hk. cbn in E. subst k.
    apply list_elem_of_fmap. by exists (key, f).
  - rewrite decide_True by naive_solver. rewrite Permutation_swap. constructor. by apply IH.
Qed.

Lemma pts_get_in key frame m : NoDup m.*1 → (key, frame) ∈ m → pts_get key m = Some frame.
Proof.
  induction m as [|[k f] m IH]; cbn; [set_solver|]. intros [Hk Hn]%NoDup_cons [[= -> ->]|Hi]%elem_of_cons.
  - by rewrite bool_decide_true.
  - rewrite bool_decide_false; [by apply IH|]. intros ->. apply Hk, list_elem_of_fmap. by exists (k, frame).
Qed.

(** ** Invariant *)

Record pair_wf (runtime : AndroidMediaPairRuntime) : Prop := {
  pwf_generation : pr_generation runtime ≠ 0;
  pwf_sorted : pts_sorted (pr_pending_by_pts runtime);
  pwf_frames : Forall (fun entry =>
    entry.1 = frame_key entry.2 ∧ fs_generation entry.2 = pr_generation runtime ∧
    fs_lease_id entry.2 = pr_lease_id runtime ∧ is_blank (fs_frame_handle_id entry.2) = false)
    (pr_pending_by_pts runtime);
  pwf_handles : NoDup (handles (pr_pending_by_pts runtime));
  pwf_eyes : NoDup ((fun entry => (fs_pair_id entry.2, fs_eye entry.2)) <$> pr_pending_by_pts runtime);
  pwf_bound : len (pr_pending_by_pts runtime) ≤ 32;
}.

Lemma pair_runtime_new_wf generation lease_id age runtime :
  pair_runtime_new generation lease_id age = Ok runtime → pair_wf runtime.
Proof.
  unfold pair_runtime_new. rewrite fail_if_bind_ok. intros [E [= <-]]. bool_to_prop.
  constructor; cbn; try done; try constructor.
Qed.

(** What the guard of [submit] lets through. *)
Lemma submit_admitted runtime frame :
  submit_rejected runtime frame = false ↔
  fs_generation frame = pr_generation runtime ∧ fs_lease_id frame = pr_lease_id runtime ∧
  is_blank (fs_frame_handle_id frame) = false ∧ fs_frame_handle_id frame ∉ pr_released_handles runtime ∧
  frame_key frame ∉ (pr_pending_by_pts runtime).*1 ∧
  Forall (fun entry => fs_frame_handle_id entry.2 ≠ fs_frame_handle_id frame ∧
    (fs_pair_id entry.2, fs_eye entry.2) ≠ (fs_pair_id frame, fs_eye frame)) (pr_pending_by_pts runtime) ∧
  len (pr_pending_by_pts runtime) < 32.
Proof.
  unfold submit_rejected. rewrite !orb_false_iff, !negb_false_iff, N.eqb_eq, String.eqb_eq, bool_decide_eq_false,
    N.leb_gt, <- pts_get_none. unfold pts_contains.
  assert (existsb (fun entry : pts_key * AndroidMediaFrameSubmission =>
      (fs_frame_handle_id entry.2 =? fs_frame_handle_id frame)%string ||
      ((fs_pair_id entry.2 =? fs_pair_id frame) && bool_decide (fs_eye entry.2 = fs_eye frame)))
      (pr_pending_by_pts runtime) = false ↔
    Forall (fun entry => fs_frame_handle_id entry.2 ≠ fs_frame_handle_id frame ∧
      (fs_pair_id entry.2, fs_eye entry.2) ≠ (fs_pair_id frame, fs_eye frame)) (pr_pending_by_pts runtime)) as ->.
  { induction (pr_pending_by_pts runtime) as [|e l IH]; [cbn; split; [constructor|done]|].
    cbn [existsb]. rewrite orb_false_iff, IH, Forall_cons, orb_false_iff, String.eqb_neq, andb_false_iff,
      N.eqb_neq, bool_decide_eq_false. split; intros [[? H] ?]; split_and!; try done.
    - intros [= ? ?]. naive_solver.
    - destruct (decide (fs_pair_id e.2 = fs_pair_id frame)); [right|by left]. intros E2. apply H. congruence. }
  destruct (pts_get _ _); naive_solver.
Qed.

Lemma find_counterpart runtime frame key other :
  pair_wf runtime → List.find (is_counterpart frame) (pr_pending_by_pts runtime) = Some (key, other) →
  pts_get key (pr_pending_by_pts runtime) = Some other ∧
  fs_pair_id other = fs_pair_id frame ∧ fs_eye other ≠ fs_eye frame.
Proof.
  intros Hwf E. apply List.find_some in E as [Hin Hc]. apply list_elem_of_In in Hin.
  unfold is_counterpart in Hc. cbn in Hc. bool_to_prop. split_and!; try done.
  apply pts_get_in; [apply pts_sorted_nodup, Hwf|done].
Qed.

Lemma sublist_wf runtime pending :
  pair_wf runtime → sublist pending (pr_pending_by_pts runtime) → pts_sorted pending →
  pair_wf (set_pending pending runtime).
Proof.
  intros [G S F H E B] Hs Hp. constructor; cbn; try done.
  - rewrite Forall_forall in *. intros e He. apply F. by eapply elem_of_sublist.
  - eapply sublist_NoDup; [exact H|]. by apply fmap_sublist.
  - eapply sublist_NoDup; [exact E|]. by apply fmap_sublist.
  - apply sublist_length in Hs. unfold len in *. lia.
Qed.

Lemma filter_ext_in {A} (P Q : A → Prop) `{!∀ x, Decision (P x)} `{!∀ x, Decision (Q x)} (l : list A) :
  (∀ x, x ∈ l → P x ↔ Q x) → filter P l = filter Q l.
Proof.
  induction l as [|x l IH]; intros HPQ; [done|]. rewrite !filter_cons, IH by (intros; apply HPQ; set_solver).
  destruct (HPQ x) as [H1 H2]; [set_solver|]. by repeat case_decide; try tauto.
Qed.

Lemma remove_keys_exact (l m : pts_map) :
  NoDup m.*1 → NoDup l.*1 → (∀ e, e ∈ l → e ∈ m) →
  remove_keys l.*1 m = (filter (fun e => e.1 ∉ l.*1) m, l.*2).
Proof.
  revert m. induction l as [|[k f] l IH]; intros m Hm Hl Hin; cbn [remove_keys fmap list_fmap fst snd].
  { rewrite filter_id; [done|]. apply Forall_forall. set_solver. }
  apply NoDup_cons in Hl as [Hk Hl]. rewrite (pts_get_in k f) by (done || apply Hin; set_solver).
  rewrite IH; [|eapply sublist_NoDup; [exact Hm|apply fmap_sublist, sublist_filter]|done|].
  - f_equal. unfold pts_remove. rewrite list_filter_filter. apply filter_ext_in. set_solver.
  - intros e He. apply list_elem_of_filter. split; [|apply Hin; set_solver].
    intros <-. apply Hk, list_elem_of_fmap. by exists e.
Qed.

(** [expire_pairs] keeps exactly the frames within the age bound and returns the
    others in key order. *)
Lemma expire_pairs_exact runtime now_ns :
  pair_wf runtime →
  expire_pairs runtime now_ns =
  (set_pending (filter (fun e => aged runtime now_ns e.2 = false) (pr_pending_by_pts runtime)) runtime,
   handles (filter (fun e => aged runtime now_ns e.2 = true) (pr_pending_by_pts runtime))).
Proof.
  intros Hwf. unfold expire_pairs. pose proof (pts_sorted_nodup _ (pwf_sorted _ Hwf)) as Hn.
  set (old := filter (fun e => aged runtime now_ns e.2 = true) (pr_pending_by_pts runtime)).
  assert (Hold : NoDup old.*1) by (eapply sublist_NoDup; [exact Hn|apply fmap_sublist, sublist_filter]).
  rewrite (remove_keys_exact old) by (done || by intros e [_ ?]%list_elem_of_filter).
  unfold handles. rewrite <- list_fmap_compose. do 2 f_equal. apply filter_ext_in. intros [k f] Hi. cbn. split.
  - intros Hk. destruct (aged runtime now_ns f) eqn:E; [|done]. destruct Hk.
    apply list_elem_of_fmap. exists (k, f). split; [done|]. by apply list_elem_of_filter.
  - intros E ([k' f'] & -> & [E' Hi']%list_elem_of_filter)%list_elem_of_fmap. cbn in *.
    apply (pts_get_in _ _ _ Hn) in Hi, Hi'. congruence.
Qed.

Lemma submit_wf runtime frame now_ns : pair_wf runtime → pair_wf (submit runtime frame now_ns).1.
Proof.
  intros Hwf. unfold submit. destruct (submit_rejected runtime frame) eqn:R; [done|].
  apply submit_admitted in R as (G & L & B & _ & K & F & N).
  destruct (aged runtime now_ns frame); [done|].
  destruct (List.find _ _) as [[key other]|]; [destruct (aged _ _ _); [done|]|].
  - apply sublist_wf; [done|apply sublist_filter|apply sorted_filter, Hwf].
  - destruct Hwf as [G0 S0 F0 H0 E0 B0]. pose proof (pts_insert_perm _ frame _ K) as Hp.
    constructor; cbn; try done.
    + by apply pts_insert_sorted.
    + rewrite Hp. by constructor.
    + unfold handles. rewrite Hp. cbn. constructor; [|done].
      intros (e & E & He)%list_elem_of_fmap. rewrite Forall_forall in F. destruct (F e He) as [F1 _]. by apply F1.
    + rewrite Hp. cbn. constructor; [|done].
      intros (e & E & He)%list_elem_of_fmap. rewrite Forall_forall in F. destruct (F e He) as [_ F2]. by apply F2.
    + unfold len in *. rewrite Hp. cbn. lia.
Qed.

Lemma cancel_wf runtime generation replacement :
  pair_wf runtime → pair_wf (cancel_generation runtime generation replacement).1.
Proof.
  intros Hwf. unfold cancel_generation. destruct (_ || _) eqn:E; [done|]. bool_to_prop.
  constructor; cbn; try done; try constructor. lia.
Qed.

Lemma expire_wf runtime now_ns : pair_wf runtime → pair_wf (expire_pairs runtime now_ns).1.
Proof.
  intros Hwf. rewrite expire_pairs_exact by done. apply sublist_wf; [done|apply sublist_filter|].
  apply sorted_filter, Hwf.
Qed.

Lemma release_wf runtime handle : pair_wf runtime → pair_wf (release runtime handle).1.
Proof.
  intros Hwf. unfold release. destruct (_ || _); [done|]. by destruct Hwf as [G S F H E B]; constructor.
Qed.

(** ** Pairing is exact *)

(** The counterpart is unique: [find] meets the only pending frame of the same
    pair and the other eye. *)
Lemma counterpart_unique runtime frame key other :
  pair_wf runtime → (key, other) ∈ pr_pending_by_pts runtime → is_counterpart frame (key, other) = true →
  List.find (is_counterpart frame) (pr_pending_by_pts runtime) = Some (key, other).
Proof.
  intros Hwf Hin Hc. destruct (List.find _ _) as [[k o]|] eqn:E.
  - apply List.find_some in E as [Hk Ho]. apply list_elem_of_In in Hk. f_equal.
    pose proof (pwf_eyes _ Hwf) as Hn. unfold is_counterpart in *. cbn in *. bool_to_prop.
    apply list_elem_of_lookup in Hin as [i Hi], Hk as [j Hj].
    assert (i = j) as <-; [|congruence].
    eapply (NoDup_lookup _ i j (fs_pair_id other, fs_eye other) Hn).
    + by rewrite list_lookup_fmap, Hi.
    + rewrite list_lookup_fmap, Hj. cbn. do 2 f_equal; [congruence|].
      destruct (fs_eye o), (fs_eye other), (fs_eye frame); done.
  - eapply List.find_none in E; [|by apply list_elem_of_In]. congruence.
Qed.

(** When [submit] completes a pair, and what it then leaves pending. *)
Lemma submit_pair_iff runtime frame now_ns runtime' pair :
  pair_wf runtime →
  submit runtime frame now_ns = (runtime', Ok (Some pair)) ↔
  submit_rejected runtime frame = false ∧ aged runtime now_ns frame = false ∧
  ∃ other, (frame_key other, other) ∈ pr_pending_by_pts runtime ∧
    fs_pair_id other = fs_pair_id frame ∧ fs_eye other ≠ fs_eye frame ∧ aged runtime now_ns other = false ∧
    pair = stereo_pair frame other ∧
    runtime' = set_pending (pts_remove (frame_key other) (pr_pending_by_pts runtime)) runtime.
Proof.
  intros Hwf. unfold submit. destruct (submit_rejected runtime frame) eqn:R; [naive_solver|].
  destruct (aged runtime now_ns frame) eqn:A; [naive_solver|]. split.
  - intros H. split_and!; try done. destruct (List.find _ _) as [[key other]|] eqn:F; [|done].
    destruct (aged runtime now_ns other) eqn:O; [done|]. injection H as <- <-.
    destruct (find_counterpart _ _ _ _ Hwf F) as (G & P & E). apply pts_get_elem in G as Hin.
    pose proof (pwf_frames _ Hwf) as Hf. rewrite Forall_forall in Hf. destruct (Hf _ Hin) as [K _].
    cbn in K. subst key. by exists other.
  - intros (_ & _ & other & Hin & P & E & O & -> & ->).
    assert (Hc : is_counterpart frame (frame_key other, other) = true).
    { unfold is_counterpart. cbn. rewrite P, N.eqb_refl, bool_decide_false by done. done. }
    rewrite (counterpart_unique _ _ _ _ Hwf Hin Hc). cbn. by rewrite O.
Qed.

Lemma stereo_pair_eyes frame other : fs_pair_id other = fs_pair_id frame → fs_eye other ≠ fs_eye frame →
  let pair := stereo_pair frame other in
  fs_eye (sp_left pair) = EyeLeft ∧ fs_eye (sp_right pair) = EyeRight ∧
  fs_pair_id (sp_left pair) = sp_pair_id pair ∧ fs_pair_id (sp_right pair) = sp_pair_id pair ∧
  [sp_left pair; sp_right pair] ≡ₚ [frame; other].
Proof.
  intros P E. unfold stereo_pair. case_bool_decide as F; cbn.
  - rewrite F in E. split_and!; try congruence; [by destruct (fs_eye other)|reflexivity].
  - assert (fs_eye frame = EyeRight) as F' by by destruct (fs_eye frame). rewrite F' in E.
    split_and!; try congruence; [by destruct (fs_eye other)|apply Permutation_swap].
Qed.

(** ** Runs and their ledger *)

Inductive pair_op :=
  | OpSubmit (frame : AndroidMediaFrameSubmission) (now_ns : N)
  | OpCancel (generation replacement_generation : N)
  | OpExpire (now_ns : N)
  | OpRelease (handle_id : string).

(** What the callers of the runtime saw: the handles taken in, the handles given
    back (in pairs, by expiry or by cancellation), the pairs with their time, and
    the handles whose release succeeded. *)
Record PairLedger := mkLedger {
  pl_accepted : list string;
  pl_returned : list string;
  pl_pairs : list (N * AndroidMediaStereoPair);
  pl_released : list string;
}.

Definition pair_handles (pair : AndroidMediaStereoPair) : list string :=
  [fs_frame_handle_id (sp_left pair); fs_frame_handle_id (sp_right pair)].

Definition pair_apply (state : AndroidMediaPairRuntime * PairLedger) (op : pair_op)
    : AndroidMediaPairRuntime * PairLedger :=
  let '(runtime, ledger) := state in
  let '(mkLedger accepted returned pairs released) := ledger in
  match op with
  | OpSubmit frame now_ns =>
      match submit runtime frame now_ns with
      | (runtime', Ok (Some completed)) =>
          (runtime', mkLedger (fs_frame_handle_id frame :: accepted) (pair_handles completed ++ returned)
                       ((now_ns, completed) :: pairs) released)
      | (runtime', Ok None) => (runtime', mkLedger (fs_frame_handle_id frame :: accepted) returned pairs released)
      | (runtime', Err _) => (runtime', ledger)
      end
  | OpCancel generation replacement =>
      match cancel_generation runtime generation replacement with
      | (runtime', Ok outstanding) => (runtime', mkLedger accepted (outstanding ++ returned) pairs released)
      | (runtime', Err _) => (runtime', ledger)
      end
  | OpExpire now_ns =>
      let '(runtime', expired) := expire_pairs runtime now_ns in
      (runtime', mkLedger accepted (expired ++ returned) pairs released)
  | OpRelease handle_id =>
      match release runtime handle_id with
      | (runtime', Ok tt) => (runtime', mkLedger accepted returned pairs (handle_id :: released))
      | (runtime', Err _) => (runtime', ledger)
      end
  end.

Definition pair_run (runtime : AndroidMediaPairRuntime) (ops : list pair_op) : AndroidMediaPairRuntime * PairLedger :=
  foldl pair_apply (runtime, mkLedger [] [] [] []) ops.

(** A completed pair: two eyes of one pair id, generation and lease, both within
    the age bound when it completed. *)
Definition exact_pair (age : N) (lease_id : string) (entry : N * AndroidMediaStereoPair) : Prop :=
  let '(now_ns, p) := entry in
  fs_eye (sp_left p) = EyeLeft ∧ fs_eye (sp_right p) = EyeRight ∧
  fs_pair_id (sp_left p) = sp_pair_id p ∧ fs_pair_id (sp_right p) = sp_pair_id p ∧
  fs_generation (sp_left p) = fs_generation (sp_right p) ∧
  fs_lease_id (sp_left p) = lease_id ∧ fs_lease_id (sp_right p) = lease_id ∧
  now_ns ≤ fs_submitted_at_ns (sp_left p) + age ∧ now_ns ≤ fs_submitted_at_ns (sp_right p) + age.

Record ledger_wf (age : N) (lease_id : string) (state : AndroidMediaPairRuntime * PairLedger) : Prop := {
  lwf_runtime : pair_wf state.1;
  lwf_age : pr_max_pair_age_ns state.1 = age;
  lwf_lease : pr_lease_id state.1 = lease_id;
  lwf_conserved : pl_accepted state.2 ≡ₚ handles (pr_pending_by_pts state.1) ++ pl_returned state.2;
  lwf_pairs : Forall (exact_pair age lease_id) (pl_pairs state.2);
  lwf_released : NoDup (pl_released state.2) ∧ ∀ h, h ∈ pl_released state.2 ↔ h ∈ pr_released_handles state.1;
}.

Lemma aged_false runtime now_ns frame :
  aged runtime now_ns frame = false ↔ now_ns ≤ fs_submitted_at_ns frame + pr_max_pair_age_ns runtime.
Proof. unfold aged, saturating_sub. rewrite N.ltb_ge. lia. Qed.

Lemma filter_split {A} (P Q : A → Prop) `{!∀ x, Decision (P x)} `{!∀ x, Decision (Q x)} (l : list A) :
  (∀ x, Q x ↔ ¬ P x) → filter P l ++ filter Q l ≡ₚ l.
Proof.
  intros HQ. rewrite (filter_ext_in Q (fun x => ¬ P x) l) by (intros; apply HQ).
  induction l as [|x l IH]; [done|]. rewrite !filter_cons. repeat case_decide; try done; cbn; [by rewrite IH|].
  by rewrite <- Permutation_middle, IH.
Qed.

#[global] Instance handles_perm : Proper ((≡ₚ) ==> (≡ₚ)) handles.
Proof. intros m m' H. by apply fmap_Permutation. Qed.

(** The handle of a removed frame moves from the pending ones to the returned ones. *)
Lemma handles_remove m key frame :
  NoDup m.*1 → (key, frame) ∈ m → handles m ≡ₚ fs_frame_handle_id frame :: handles (pts_remove key m).
Proof.
  intros Hn Hin. transitivity (handles ((key, frame) :: pts_remove key m)); [|done].
  apply handles_perm, pts_get_perm; [done|by apply pts_get_in].
Qed.

Lemma pair_handles_perm frame other : fs_pair_id other = fs_pair_id frame → fs_eye other ≠ fs_eye frame →
  pair_handles (stereo_pair frame other) ≡ₚ [fs_frame_handle_id frame; fs_frame_handle_id other].
Proof.
  intros Hp He. destruct (stereo_pair_eyes frame other Hp He) as (_ & _ & _ & _ & E).
  by apply (fmap_Permutation fs_frame_handle_id) in E.
Qed.

Lemma stereo_pair_exact runtime frame other now_ns :
  pair_wf runtime → submit_rejected runtime frame = false → aged runtime now_ns frame = false →
  (frame_key other, other) ∈ pr_pending_by_pts runtime → fs_pair_id other = fs_pair_id frame →
  fs_eye other ≠ fs_eye frame → aged runtime now_ns other = false →
  exact_pair (pr_max_pair_age_ns runtime) (pr_lease_id runtime) (now_ns, stereo_pair frame other).
Proof.
  intros W G Af Hin Hp He Ao. destruct (stereo_pair_eyes frame other Hp He) as (E1 & E2 & E3 & E4 & E5).
  pose proof (pwf_frames _ W) as F. rewrite Forall_forall in F. destruct (F _ Hin) as (_ & G' & L' & _). cbn in G', L'.
  apply submit_admitted in G as (Gg & Gl & _). apply aged_false in Af, Ao. unfold exact_pair.
  split_and!; try done; unfold stereo_pair; case_bool_decide; cbn; (congruence || lia).
Qed.

Lemma submit_ledger age lease_id state frame now_ns :
  ledger_wf age lease_id state → ledger_wf age lease_id (pair_apply state (OpSubmit frame now_ns)).
Proof.
  destruct state as [runtime [accepted returned pairs released]]. intros [W A L C P R]. cbn in *.
  pose proof (submit_wf runtime frame now_ns W) as W'.
  destruct (submit runtime frame now_ns) as [runtime' [[completed|]|e]] eqn:E; cbn in W'.
  - apply submit_pair_iff in E as (G & Af & other & Hin & Hp & He & Ao & -> & ->); [|done].
    constructor; cbn; try done.
    + rewrite C, (handles_remove _ _ _ (pts_sorted_nodup _ (pwf_sorted _ W)) Hin).
      change (?a :: ?b :: returned) with (([a; b] : list string) ++ returned).
      fold (pair_handles (stereo_pair frame other)). rewrite (pair_handles_perm _ _ Hp He). cbn.
      by rewrite <- !Permutation_middle.
    + constructor; [|done]. subst age lease_id. by apply stereo_pair_exact.
  - unfold submit in E. destruct (submit_rejected runtime frame) eqn:G; [done|].
    destruct (aged runtime now_ns frame); [done|].
    destruct (List.find _ _) as [[k o]|]; [by destruct (aged _ _ _)|]. injection E as <-.
    apply submit_admitted in G as (_ & _ & _ & _ & K & _).
    constructor; cbn; try done. by rewrite C, pts_insert_perm.
  - assert (runtime' = runtime) as ->; [|by constructor].
    unfold submit in E. destruct (submit_rejected runtime frame); [by injection E|].
    destruct (aged runtime now_ns frame); [by injection E|].
    destruct (List.find _ _) as [[k o]|]; [|done]. destruct (aged _ _ _); [by injection E|done].
Qed.

Lemma pair_apply_ledger age lease_id state op :
  ledger_wf age lease_id state → ledger_wf age lease_id (pair_apply state op).
Proof.
  destruct op as [frame now|g r|now|h]; [apply submit_ledger|..];
    destruct state as [runtime [accepted returned pairs released]]; intros [W A L C P R]; cbn in *.
  - pose proof (cancel_wf runtime g r W) as W'. unfold cancel_generation in *. destruct (_ || _); [by constructor|].
    by constructor.
  - pose proof (expire_wf runtime now W) as W'. rewrite expire_pairs_exact in * by done. constructor; cbn; try done.
    rewrite C, app_assoc. f_equiv. unfold handles. rewrite <- fmap_app, Permutation_app_comm.
    apply fmap_Permutation. symmetry. apply filter_split. intros e. destruct (aged _ _ _); naive_solver.
  - pose proof (release_wf runtime h W) as W'. unfold release in *. destruct (_ || _) eqn:E; [by constructor|].
    bool_to_prop. destruct R as [R1 R2]. constructor; cbn; try done. split.
    + constructor; [|done]. by rewrite R2.
    + set_solver.
Qed.

Lemma pair_run_ledger age lease_id generation runtime ops :
  pair_runtime_new generation lease_id age = Ok runtime → ledger_wf age lease_id (pair_run runtime ops).
Proof.
  intros Hnew. unfold pair_run. induction ops as [|op ops IH] using rev_ind.
  - pose proof (pair_runtime_new_wf _ _ _ _ Hnew) as W. unfold pair_runtime_new in Hnew.
    apply fail_if_bind_ok in Hnew as [_ [= <-]]. constructor; cbn; try done; try constructor; [constructor|set_solver].
  - rewrite foldl_app. cbn. by apply pair_apply_ledger.
Qed.
