(* ===== verification/JsonValue.v ===== *)
(** * JSON documents and UTF-8

    [serde_json::Value] as the wire code edits it: an object is a [BTreeMap], so
    a sorted list of entries; a number is its text. [String::from_utf8] of the
    standard library. *)

From Stdlib Require Import Sorting.Sorted.
From S2P Require Import Prelude RustStr OrdMap.

Local Open Scope N_scope.

Inductive Value :=
  | VNull
  | VBool (b : bool)
  | VNumber (text : string)
  | VString (text : string)
  | VArray (items : list Value)
  | VObject (entries : list (string * Value)).

(** [Value::as_object_mut] and [Value::as_str], as views. *)
Definition as_object (v : Value) : option (btree Value) :=
  match v with VObject m => Some m | _ => None end.
Definition as_str (v : Value) : option string :=
  match v with VString s => Some s | _ => None end.

(** ** [BTreeMap::remove] *)

Fixpoint bt_remove {A} (k : string) (m : btree A) : btree A :=
  match m with
  | [] => []
  | (k', v') :: m' => if String.eqb k k' then bt_remove k m' else (k', v') :: bt_remove k m'
  end.

Section Remove.
Context {A : Type}.
Implicit Types m : btree A.

Lemma bt_get_lt k k' v m : bt_sorted ((k', v) :: m) → String.compare k k' = Lt → bt_get k ((k', v) :: m) = None.
Proof.
  intros Hs C. cbn. destruct (String.eqb_spec k k') as [->|_]; [by rewrite string_compare_refl in C|].
  apply StronglySorted_inv in Hs as [_ Hs]. induction m as [|[k0 v0] m IH]; [done|]. cbn.
  apply Forall_cons in Hs as [H0 Hs]. cbn in H0.
  destruct (String.eqb_spec k k0) as [->|_]; [|by apply IH].
  rewrite String.compare_antisym, C in H0. done.
Qed.

Lemma bt_sorted_head k v m : bt_sorted ((k, v) :: m) → bt_get k m = None.
Proof.
  intros [_ Hs]%StronglySorted_inv. induction m as [|[k0 v0] m IH]; [done|]. cbn.
  apply Forall_cons in Hs as [H0 Hs]. cbn in H0.
  destruct (String.eqb_spec k k0) as [->|_]; [by rewrite string_compare_refl in H0|by apply IH].
Qed.

Lemma bt_get_remove k k' m : bt_get k (bt_remove k' m) = if String.eqb k k' then None else bt_get k m.
Proof.
  induction m as [|[k0 v0] m IH]; cbn; [by destruct (String.eqb k k')|].
  destruct (String.eqb_spec k' k0) as [->|E]; cbn.
  - rewrite IH. by destruct (String.eqb_spec k k0).
  - rewrite IH. destruct (String.eqb_spec k k0) as [->|]; [|done]. destruct (String.eqb_spec k0 k'); congruence.
Qed.

Lemma bt_remove_elem k e m : e ∈ bt_remove k m → e ∈ m.
Proof. induction m as [|[k0 v0] m IH]; cbn; [done|]. destruct (String.eqb k k0); set_solver. Qed.

Lemma bt_remove_sorted k m : bt_sorted m → bt_sorted (bt_remove k m).
Proof.
  unfold bt_sorted. induction 1 as [|[k0 v0] m Hm IH Hx]; cbn; [constructor|]. destruct (String.eqb k k0); [done|].
  constructor; [done|]. rewrite Forall_forall in *. intros y Hy%bt_remove_elem. by apply Hx.
Qed.

(** A sorted map is determined by its lookups. *)
Lemma bt_ext m1 m2 : bt_sorted m1 → bt_sorted m2 → (∀ k, bt_get k m1 = bt_get k m2) → m1 = m2.
Proof.
  revert m2. induction m1 as [|[k1 v1] m1 IH]; intros [|[k2 v2] m2] S1 S2 H; [done|..].
  - specialize (H k2). cbn in H. by rewrite String.eqb_refl in H.
  - specialize (H k1). cbn in H. by rewrite String.eqb_refl in H.
  - destruct (String.compare k1 k2) eqn:C.
    + apply string_compare_eq in C as ->. pose proof (H k2) as E. cbn in E. rewrite String.eqb_refl in E.
      injection E as ->. f_equal. pose proof (bt_sorted_head _ _ _ S1). pose proof (bt_sorted_head _ _ _ S2).
      apply StronglySorted_inv in S1 as [S1 _], S2 as [S2 _]. apply IH; try done.
      intros k. specialize (H k). cbn in H. destruct (String.eqb_spec k k2); subst; congruence.
    + pose proof (H k1) as E. rewrite (bt_get_lt k1 k2 v2 m2 S2 C) in E. cbn in E. by rewrite String.eqb_refl in E.
    + assert (String.compare k2 k1 = Lt) as C' by by rewrite String.compare_antisym, C.
      pose proof (H k2) as E. rewrite (bt_get_lt k2 k1 v1 m1 S1 C') in E. cbn in E. by rewrite String.eqb_refl in E.
Qed.
End Remove.

#[export] Hint Resolve bt_insert_sorted bt_remove_sorted : quest.

(** Equality of two edited maps, by lookups. *)
Ltac bt_eq :=
  apply bt_ext; [auto 9 with quest..|];
  let k := fresh "key" in intros k; rewrite ?bt_get_insert, ?bt_get_remove, ?bt_get_insert, ?bt_get_remove;
  repeat match goal with
  | |- context [String.eqb k ?c] => destruct (String.eqb_spec k c); subst; try discriminate
  end; cbn; congruence.

(** ** [String::from_utf8]: the well-formed byte sequences of Unicode *)

Definition in_range (lo hi b : N) : bool := (lo <=? b) && (b <=? hi).
Definition cont (b : N) : bool := in_range 0x80 0xbf b.

Fixpoint utf8_valid (bytes : list N) : bool :=
  match bytes with
  | [] => true
  | b0 :: r0 =>
      if b0 <? 0x80 then utf8_valid r0
      else match r0 with
      | [] => false
      | b1 :: r1 =>
          if in_range 0xc2 0xdf b0 then cont b1 && utf8_valid r1
          else match r1 with
          | [] => false
          | b2 :: r2 =>
              if (b0 =? 0xe0) then in_range 0xa0 0xbf b1 && cont b2 && utf8_valid r2
              else if in_range 0xe1 0xec b0 || in_range 0xee 0xef b0 then cont b1 && cont b2 && utf8_valid r2
              else if (b0 =? 0xed) then in_range 0x80 0x9f b1 && cont b2 && utf8_valid r2
              else match r2 with
              | [] => false
              | b3 :: r3 =>
                  if (b0 =? 0xf0) then in_range 0x90 0xbf b1 && cont b2 && cont b3 && utf8_valid r3
                  else if in_range 0xf1 0xf3 b0 then cont b1 && cont b2 && cont b3 && utf8_valid r3
                  else if (b0 =? 0xf4) then in_range 0x80 0x8f b1 && cont b2 && cont b3 && utf8_valid r3
                  else false
              end
          end
      end
  end.

Definition from_utf8 (bytes : list N) : option string :=
  if utf8_valid bytes then Some (str_of_bytes bytes) else None.

(** The texts a Rust [String] can hold. *)
Definition is_utf8 (s : string) : Prop := utf8_valid (str_bytes s) = true.

Lemma from_utf8_str s : is_utf8 s → from_utf8 (str_bytes s) = Some s.
Proof. unfold is_utf8, from_utf8. intros ->. by rewrite str_of_str_bytes. Qed.

(** ** JSON text

    A document as text, over any encoding of strings that says where it ends: the
    text is read back in one way only. [escape_byte] and [json_string] are the
    strings of [serde_json], whose bytes above the controls are written as they
    are. *)

(** One lower-case hexadecimal digit. *)
Definition hex_byte (n : N) : N := if n <? 10 then 48 + n else 87 + n.

(** The elements with a comma before each but the first. *)
Fixpoint comma_separated (items : list (list N)) : list N :=
  match items with
  | [] => []
  | [item] => item
  | item :: rest => item ++ [44] ++ comma_separated rest
  end.

(** A document, its strings written by [text]. *)
Fixpoint json_text (text : string → list N) (value : Value) : list N :=
  match value with
  | VNull => str_bytes "null"
  | VBool b => str_bytes (if b then "true" else "false")
  | VNumber t => str_bytes t
  | VString t => text t
  | VArray items => [91] ++ comma_separated (map (json_text text) items) ++ [93]
  | VObject fields =>
      [123] ++ comma_separated (map (fun field => text (fst field) ++ [58] ++ json_text text (snd field)) fields) ++ [125]
  end.

(** ** Escapes *)

Definition is_unit (u : N) : Prop := u < 0x10000.

Definition hex_value (b : N) : N := if b <? 58 then b - 48 else b - 87.

Lemma hex_value_byte n : n < 16 → hex_value (hex_byte n) = n.
Proof. unfold hex_value, hex_byte. destruct (N.ltb_spec n 10); intros; repeat case_match; bool_to_prop; lia. Qed.

(** Reading one escaped unit back. *)
Definition unescape (bytes : list N) : option (N * list N) :=
  match bytes with
  | 92 :: 117 :: a :: b :: c :: d :: r =>
      Some (hex_value a * 4096 + hex_value b * 256 + hex_value c * 16 + hex_value d, r)
  | 92 :: c :: r =>
      Some (if c =? 98 then 8 else if c =? 116 then 9 else if c =? 110 then 10 else if c =? 102 then 12
            else if c =? 114 then 13 else c, r)
  | u :: r => Some (u, r)
  | [] => None
  end.

Lemma hex_digits u : is_unit u →
  u / 4096 < 16 ∧ u = u / 4096 * 4096 + u / 256 mod 16 * 256 + u / 16 mod 16 * 16 + u mod 16.
Proof.
  unfold is_unit. intros Hu. split; [apply N.Div0.div_lt_upper_bound; lia|].
  pose proof (N.div_mod u 16 ltac:(done)) as E1. pose proof (N.div_mod (u / 16) 16 ltac:(done)) as E2.
  pose proof (N.div_mod (u / 256) 16 ltac:(done)) as E3.
  assert (u / 16 / 16 = u / 256) as D2 by (rewrite N.Div0.div_div; done).
  assert (u / 256 / 16 = u / 4096) as D3 by (rewrite N.Div0.div_div; done).
  rewrite D2 in E2. rewrite D3 in E3. lia.
Qed.

Lemma unescape_plain u r : u ≠ 92 → unescape (u :: r) = Some (u, r).
Proof.
  intros H. unfold unescape. destruct u as [|p]; [done|].
  repeat (destruct p as [p|p|]; try done).
Qed.

Section Escapes.
Context (esc : N → list N) (P : N → Prop) (Hun : ∀ u r, P u → unescape (esc u ++ r) = Some (u, r))
  (Hhead : ∀ u, P u → ∃ b r, esc u = b :: r ∧ b ≠ 34).

(** Escaped units up to the closing quote are read back in one way only. *)
Lemma escaped_inj us vs r s :
  Forall P us → Forall P vs →
  flat_map esc us ++ 34 :: r = flat_map esc vs ++ 34 :: s → us = vs ∧ r = s.
Proof.
  intros Hus. revert vs. induction Hus as [|u us Hu _ IH]; intros vs Hvs E; destruct Hvs as [|v vs Hv Hvs]; cbn in E.
  - by injection E as ->.
  - destruct (Hhead v Hv) as (b & t & Ev & Hb). rewrite Ev in E. cbn in E. congruence.
  - destruct (Hhead u Hu) as (b & t & Eu & Hb). rewrite Eu in E. cbn in E. congruence.
  - rewrite <- !app_assoc in E. apply (f_equal unescape) in E. rewrite !Hun in E by done.
    injection E as -> E. destruct (IH vs Hvs E) as [-> ->]. done.
Qed.
End Escapes.

(** ** Documents *)

Definition is_number_byte (b : N) : bool :=
  is_ascii_digit b || (b =? 43) || (b =? 45) || (b =? 46) || (b =? 69) || (b =? 101).

(** The documents [serde_json] makes: texts of Unicode and numbers in decimal. *)
Inductive value_wf : Value → Prop :=
  | wf_null : value_wf VNull
  | wf_bool b : value_wf (VBool b)
  | wf_number t : t ≠ EmptyString → all_bytes is_number_byte t = true → value_wf (VNumber t)
  | wf_string t : is_utf8 t → value_wf (VString t)
  | wf_array items : Forall value_wf items → value_wf (VArray items)
  | wf_object fields : Forall (fun field => is_utf8 (fst field) ∧ value_wf (snd field)) fields → value_wf (VObject fields).

(** What may follow a value inside a document. *)
Definition ends (r : list N) : Prop := match r with [] => True | b :: _ => b = 44 ∨ b = 93 ∨ b = 125 end.

(** The first byte of a value, which tells its kind and ends nothing. *)
Definition starts (l : list N) : Prop := ∃ b r, l = b :: r ∧ b ≠ 44 ∧ b ≠ 93 ∧ b ≠ 125.

Section Separated.
Context {A : Type} (enc : A → list N) (close : N) (Hclose : close = 93 ∨ close = 125).

Definition decodes (x y : A) : Prop :=
  ∀ r s, ends r → ends s → enc x ++ r = enc y ++ s → x = y ∧ r = s.

Lemma separated_cons x xs t :
  ∃ r, comma_separated (map enc (x :: xs)) ++ close :: t = enc x ++ r ∧ ends r ∧
    r = match xs with [] => close :: t | _ => 44 :: comma_separated (map enc xs) ++ close :: t end.
Proof using Hclose.
  destruct xs as [|y xs].
  - eexists. split; [done|]. split; [cbn; tauto|done].
  - eexists. split; [|split; [|done]]; [|cbn; tauto]. cbn. by rewrite <- !app_assoc.
Qed.

Lemma separated_inj xs ys r s :
  (∀ x y, x ∈ xs → y ∈ ys → decodes x y) → (∀ x, x ∈ xs ∨ x ∈ ys → starts (enc x)) →
  comma_separated (map enc xs) ++ close :: r = comma_separated (map enc ys) ++ close :: s → xs = ys ∧ r = s.
Proof using Hclose.
  revert ys. induction xs as [|x xs IH]; intros [|y ys] Hd Hs E.
  - by injection E as ->.
  - destruct (separated_cons y ys s) as (r' & Er & _). rewrite Er in E. destruct (Hs y) as (b & t & Eb & Hb); [set_solver|].
    rewrite Eb in E. cbn in E. injection E as E1 E2. exfalso. lia.
  - destruct (separated_cons x xs r) as (r' & Er & _). rewrite Er in E. destruct (Hs x) as (b & t & Eb & Hb); [set_solver|].
    rewrite Eb in E. cbn in E. injection E as E1 E2. exfalso. lia.
  - destruct (separated_cons x xs r) as (r1 & E1 & H1 & D1). destruct (separated_cons y ys s) as (r2 & E2 & H2 & D2).
    rewrite E1, E2 in E. destruct (Hd x y) with (r := r1) (s := r2) as [-> Er]; [set_solver..|done|done|done|].
    rewrite D1, D2 in Er. destruct xs as [|x' xs], ys as [|y' ys].
    + by injection Er as ->.
    + injection Er as Er _. lia.
    + injection Er as Er _. lia.
    + injection Er as Er. destruct (IH (y' :: ys)) as [-> ->]; [set_solver..|done|done].
Qed.
End Separated.

(** Induction over the values inside a value. *)
Lemma value_ind_nested (P : Value → Prop) :
  P VNull → (∀ b, P (VBool b)) → (∀ t, P (VNumber t)) → (∀ t, P (VString t)) →
  (∀ items, Forall P items → P (VArray items)) →
  (∀ fields, Forall (fun field => P (snd field)) fields → P (VObject fields)) → ∀ v, P v.
Proof.
  intros Hn Hb Hm Ht Ha Ho. fix rec 1. intros [|b|t|t|items|fields]; [apply Hn|apply Hb|apply Hm|apply Ht| |].
  - apply Ha. induction items; constructor; [apply rec|assumption].
  - apply Ho. induction fields as [|[k v] fields IH]; constructor; [apply rec|assumption].
Qed.

(** An encoding of strings that starts with the quote and says where it ends. *)
Definition delimited (text : string → list N) : Prop :=
  (∀ a, ∃ r, text a = 34 :: r) ∧
  (∀ a b r s, is_utf8 a → is_utf8 b → text a ++ r = text b ++ s → a = b ∧ r = s).

Section Documents.
Context (text : string → list N) (Htext : delimited text).
Local Notation json_text := (json_text text).

Lemma text_first a : ∃ r, text a = 34 :: r.
Proof. apply Htext. Qed.

Lemma text_inj a b r s : is_utf8 a → is_utf8 b → text a ++ r = text b ++ s → a = b ∧ r = s.
Proof. apply Htext. Qed.

Definition enc_field (field : string * Value) : list N :=
  text (fst field) ++ [58] ++ json_text (snd field).

(** The kinds of values are told by the first byte. *)
Definition first_of (v : Value) (b : N) : Prop :=
  match v with
  | VNull => b = 110
  | VBool t => b = if t then 116 else 102
  | VNumber _ => is_number_byte b = true
  | VString _ => b = 34
  | VArray _ => b = 91
  | VObject _ => b = 123
  end.

Lemma json_text_first v : value_wf v → ∃ b r, json_text v = b :: r ∧ first_of v b.
Proof.
  destruct 1 as [|[]|t Ht Hn|t Ht|items H|fields H]; try by do 2 eexists.
  2: { destruct (text_first t) as [r E]. by exists 34, r. }
  destruct t as [|c t]; [done|]. cbn in Hn. apply andb_true_iff in Hn as [Hn _]. by do 2 eexists.
Qed.

Lemma first_of_number b : is_number_byte b = true → b ≠ 110 ∧ b ≠ 116 ∧ b ≠ 102 ∧ b ≠ 34 ∧ b ≠ 91 ∧ b ≠ 123 ∧ b ≠ 44 ∧ b ≠ 93 ∧ b ≠ 125.
Proof. unfold is_number_byte, is_ascii_digit. intros H. split_and!; intros ->; discriminate H. Qed.

Lemma json_text_starts v : value_wf v → starts (json_text v).
Proof.
  intros (b & r & E & Hb)%json_text_first. exists b, r. split; [done|].
  destruct v as [|[]|t|t|items|fields]; cbn in Hb; try (by subst). apply first_of_number in Hb. tauto.
Qed.

Lemma field_starts f : starts (enc_field f).
Proof. destruct (text_first (fst f)) as [r E]. unfold enc_field. rewrite E. by do 2 eexists. Qed.

(** A number ends where its bytes end. *)
Lemma number_inj a b r s :
  all_bytes is_number_byte a = true → all_bytes is_number_byte b = true → ends r → ends s →
  str_bytes a ++ r = str_bytes b ++ s → a = b ∧ r = s.
Proof.
  assert (Hend : ∀ c t l, is_number_byte c = true → ends t → t = c :: l → False).
  { intros c t l Hc Ht ->. cbn in Ht. apply first_of_number in Hc. lia. }
  revert b. induction a as [|x a IH]; intros [|y b] Ha Hb Hr Hs E; cbn in *.
  - done.
  - apply andb_true_iff in Hb as [Hy _]. by destruct (Hend _ _ _ Hy Hr E).
  - apply andb_true_iff in Ha as [Hx _]. by destruct (Hend _ _ _ Hx Hs (eq_sym E)).
  - apply andb_true_iff in Ha as [_ Ha], Hb as [_ Hb]. injection E as Exy E. apply byte_of_inj in Exy as ->.
    by destruct (IH b Ha Hb Hr Hs E) as [-> ->].
Qed.

Lemma first_of_kind v w b : first_of v b → first_of w b →
  match v, w with
  | VNull, VNull | VNumber _, VNumber _ | VString _, VString _ | VArray _, VArray _ | VObject _, VObject _ => True
  | VBool x, VBool y => x = y
  | _, _ => False
  end.
Proof.
  destruct v as [|[]|t|t|items|fields], w as [|[]|t'|t'|items'|fields']; cbn; intros H1 H2; try done;
    repeat match goal with H : is_number_byte _ = true |- _ => apply first_of_number in H end; lia.
Qed.

Lemma field_decodes f g :
  is_utf8 (fst f) → is_utf8 (fst g) → decodes json_text (snd f) (snd g) → decodes enc_field f g.
Proof.
  destruct f as [k v], g as [k' w]. cbn [fst snd]. intros Hk Hk' Hd r s Hr Hs. unfold enc_field. cbn [fst snd].
  rewrite <- !app_assoc. intros [-> E]%text_inj; [|done..]. injection E as E. by destruct (Hd r s Hr Hs E) as [-> ->].
Qed.

(** A text followed by the end of a value is read back in one way only. *)
Lemma json_text_decodes v w : value_wf v → value_wf w → decodes json_text v w.
Proof.
  revert w. induction v as [|b|t|t|items IH|fields IH] using value_ind_nested; intros w Hv Hw r s Hr Hs E;
    destruct (json_text_first _ Hv) as (b1 & r1 & E1 & F1); destruct (json_text_first _ Hw) as (b2 & r2 & E2 & F2);
    assert (b1 = b2) as <- by (rewrite E1, E2 in E; by injection E);
    pose proof (first_of_kind _ _ _ F1 F2) as K; destruct w as [|b'|t'|t'|items'|fields']; try done;
    clear b1 r1 E1 F1 r2 E2 F2; inversion_clear Hv; inversion_clear Hw.
  - split; [done|]. by injection E.
  - subst b'. split; [done|]. by apply app_inv_head in E.
  - apply number_inj in E; [|done..]. by destruct E as [-> ->].
  - apply text_inj in E; [|done..]. by destruct E as [-> ->].
  - cbn in E. rewrite <- !app_assoc in E. injection E as E. rewrite !Forall_forall in *.
    apply separated_inj in E as [-> ->]; [done|by left|by intros; apply IH; auto|].
    intros x [Hx|Hx]; apply json_text_starts; auto.
  - cbn in E. fold enc_field in E. rewrite <- !app_assoc in E. injection E as E. rewrite !Forall_forall in *.
    apply (separated_inj enc_field) in E as [-> ->]; [done|by right| |intros; apply field_starts].
    intros x y Hx Hy. apply field_decodes; [by apply H|by apply H0|]. apply IH; [done|by apply H|by apply H0].
Qed.


Lemma json_text_inj v w : value_wf v → value_wf w → json_text v = json_text w → v = w.
Proof. intros Hv Hw E. apply (json_text_decodes v w Hv Hw [] []); [done..|]. by rewrite E. Qed.
End Documents.

(** ** The strings of [serde_json] *)

Definition escape_byte (b : N) : list N :=
  if b =? 8 then [92; 98]
  else if b =? 9 then [92; 116]
  else if b =? 10 then [92; 110]
  else if b =? 12 then [92; 102]
  else if b =? 13 then [92; 114]
  else if b =? 34 then [92; 34]
  else if b =? 92 then [92; 92]
  else if b <? 32 then [92; 117; 48; 48; hex_byte (b / 16); hex_byte (b mod 16)]
  else [b].

Definition json_string (t : string) : list N := [34] ++ flat_map escape_byte (str_bytes t) ++ [34].

Local Ltac escapes b :=
  unfold escape_byte;
  repeat match goal with
  | |- context [if (b =? ?c) then _ else _] => destruct (N.eqb_spec b c) as [->|?]; [first [reflexivity|by do 2 eexists]|]
  end.

Lemma unescape_byte b r : unescape (escape_byte b ++ r) = Some (b, r).
Proof.
  escapes b. destruct (N.ltb_spec b 32); [|by apply unescape_plain]. cbn.
  rewrite !hex_value_byte; [|by apply N.mod_lt|apply N.Div0.div_lt_upper_bound; lia].
  change (hex_value 48) with 0. pose proof (N.div_mod b 16 ltac:(done)). f_equal. f_equal. lia.
Qed.

Lemma escape_byte_head b : ∃ x r, escape_byte b = x :: r ∧ x ≠ 34.
Proof. escapes b. destruct (b <? 32); by do 2 eexists. Qed.

Lemma json_string_delimited : delimited json_string.
Proof.
  split; [by eexists|]. unfold json_string. intros a b r s _ _. rewrite <- !app_assoc. cbn [app]. intros [= E].
  apply (escaped_inj _ (fun _ => True)) in E as [E ->]; [by apply str_bytes_inj in E|..].
  - intros. apply unescape_byte.
  - intros. apply escape_byte_head.
  - by apply Forall_true.
  - by apply Forall_true.
Qed.
