(* ===== verification/OwnerWire.v ===== *)
(** * Owner dispatch and product activation: messages and their frames

    The signed messages of
    crates/rusty-quest-media-stream-android/src/owner_dispatch.rs, how each is
    split into metadata and payload, framed, signed over, and read back. The
    serialization of a type is [serde]; editing the JSON metadata is the code's
    own. *)

From S2P Require Import Prelude RustStr OrdMap JsonValue UpdateAdmission MediaRuntime SignatureBase64 RetainedCleanup CleanupTicket OwnerEffect WireFrame.

Local Open Scope N_scope.

Definition OWNER_DISPATCH_REQUEST_SCHEMA : string := "rusty.quest.android.media.owner_dispatch_request.v1".
Definition OWNER_DISPATCH_RESPONSE_SCHEMA : string := "rusty.quest.android.media.owner_dispatch_response.v1".
Definition PRODUCT_ACTIVATION_REQUEST_SCHEMA : string :=
  "rusty.quest.android.media.product_activation_request.v1".
Definition PRODUCT_ACTIVATION_RESPONSE_SCHEMA : string :=
  "rusty.quest.android.media.product_activation_response.v1".
Definition PRODUCT_ACTIVATION_READBACK_SCHEMA : string :=
  "rusty.quest.android.media.product_activation_readback.v1".

Definition envelope_domain (kind : string) : list N :=
  str_bytes "rusty.quest.android.media.owner_dispatch_envelope.v1" ++ [0] ++ str_bytes kind ++ [0].
Definition OWNER_DISPATCH_REQUEST_DOMAIN : list N := envelope_domain "request".
Definition OWNER_DISPATCH_RESPONSE_DOMAIN : list N := envelope_domain "terminal_response".
Definition PRODUCT_ACTIVATION_REQUEST_DOMAIN : list N := envelope_domain "product_activation".
Definition PRODUCT_ACTIVATION_RESPONSE_DOMAIN : list N := envelope_domain "product_activation_ack".

(** ** Messages *)

Inductive OwnerDispatchAuthorizationKind := CurrentRoute | AuthRetainedCleanup.

#[global] Instance authorization_kind_eq_dec : EqDecision OwnerDispatchAuthorizationKind.
Proof. solve_decision. Defined.

Record OwnerDispatchAuthorityProjection := mkOwnerProjection {
  opj_schema_id : string;
  opj_authority_peer_id : string;
  opj_executor_peer_id : string;
  opj_peer_session_id : string;
  opj_route_grant_id : string;
  opj_route_authority_revision : N;
  opj_authority_runtime_host_id : string;
  opj_authority_provider_epoch_id : string;
  opj_platform_runtime_spec_id : string;
  opj_authority_client_id : string;
  opj_authority_runtime_lease_id : string;
  opj_signed_topology_sha256 : string;
  opj_route_configuration_sha256 : string;
  opj_route_authority_evidence_sha256 : string;
  opj_expires_at_ms : N;
  opj_authorization_kind : OwnerDispatchAuthorizationKind;
}.

Record OwnerDispatchRequest := mkOwnerRequest {
  odq_schema_id : string;
  odq_dispatch_id : string;
  odq_sequence : N;
  odq_issued_at_ms : N;
  odq_target_peer_id : string;
  odq_authority : OwnerDispatchAuthorityProjection;
  odq_ticket : AndroidMediaExecutionTicket;
  odq_mode : AndroidMediaExecutionMode;
  odq_signer_key_id : string;
  odq_signature_base64 : string;
}.

Record OwnerDispatchResponse := mkOwnerResponse {
  ods_schema_id : string;
  ods_dispatch_id : string;
  ods_request_sha256 : string;
  ods_status : OwnerDispatchStatus;
  ods_effect : option AuthenticatedOwnerEffect;
  ods_failure : option string;
  ods_signer_key_id : string;
  ods_signature_base64 : string;
}.

Record ProductActivationProof := mkActivationProof {
  pap_action_id : string;
  pap_provider_epoch_id : string;
  pap_client_id : string;
  pap_lease_id : string;
  pap_runtime_spec_id : string;
  pap_resulting_runtime_revision : N;
  pap_owner_receipt_ids : list string;
  pap_completion_sha256 : string;
}.

Record ProductActivationRequest := mkActivationRequest {
  paq_schema_id : string;
  paq_activation_id : string;
  paq_issued_at_ms : N;
  paq_expires_at_ms : N;
  paq_target_peer_id : string;
  paq_authority : OwnerDispatchAuthorityProjection;
  paq_proof : ProductActivationProof;
  paq_completion_json : string;
  paq_signer_key_id : string;
  paq_signature_base64 : string;
}.

Record ProductActivationReadback := mkActivationReadback {
  par_schema_id : string;
  par_activation_id : string;
  par_route_grant_id : string;
  par_resulting_state_revision : N;
  par_activated : bool;
}.

Record ProductActivationResponse := mkActivationResponse {
  pas_schema_id : string;
  pas_activation_id : string;
  pas_request_sha256 : string;
  pas_status : OwnerDispatchStatus;
  pas_readback : option ProductActivationReadback;
  pas_failure : option string;
  pas_signer_key_id : string;
  pas_signature_base64 : string;
}.

(** [serde_json] at the types that cross a wire. *)
Class OwnerDispatchEncoding := {
  value_to_vec : Value → option (list N);
  value_from_slice : list N → option Value;
  ticket_to_vec : AndroidMediaExecutionTicket → option (list N);
  owner_request_to_value : OwnerDispatchRequest → option Value;
  owner_request_from_value : Value → option OwnerDispatchRequest;
  owner_response_to_value : OwnerDispatchResponse → option Value;
  owner_response_from_value : Value → option OwnerDispatchResponse;
  activation_request_to_value : ProductActivationRequest → option Value;
  activation_request_from_value : Value → option ProductActivationRequest;
  activation_response_to_value : ProductActivationResponse → option Value;
  activation_response_to_vec : ProductActivationResponse → option (list N);
  activation_response_from_slice : list N → option ProductActivationResponse;
}.

Section Wire.
Context {RC : ReleaseCrypto} {OE : OwnerDispatchEncoding}.

(** ** Metadata and payload *)

(** [object.insert("payload_sha256", ..)] and, for the signing input,
    [object.remove("signature_base64")]. *)
Definition finish_metadata (signed : bool) (payload : list N) (object : btree Value) : Value :=
  let object := bt_insert "payload_sha256" (VString (sha256_prefixed payload)) object in
  VObject (if signed then object else bt_remove "signature_base64" object).

Definition request_wire_parts (request : OwnerDispatchRequest) (signed : bool)
    : result string (list N * list N) :=
  payload ← ok_or (ticket_to_vec (odq_ticket request)) "ticket encoding"%string;
  value ← ok_or (owner_request_to_value request) "request metadata encoding"%string;
  object ← ok_or (as_object value) "request metadata shape"%string;
  let object := bt_remove "ticket" object in
  metadata ← ok_or (value_to_vec (finish_metadata signed payload object)) "request metadata encoding"%string;
  Ok (metadata, payload).

(** The [if let] over [object.get_mut("effect")]: the effect loses its readback
    and its raw JSON becomes the payload. *)
Definition split_effect (object : btree Value) : result string (btree Value * list N) :=
  match bt_get "effect" object ≫= as_object with
  | Some effect =>
      match bt_get "readback_json" (bt_remove "readback" effect) with
      | Some (VString value) =>
          Ok (bt_insert "effect" (VObject (bt_remove "readback_json" (bt_remove "readback" effect))) object,
              str_bytes value)
      | _ => Err "completed response omitted raw readback"%string
      end
  | None => Ok (object, [])
  end.

Definition response_wire_parts (response : OwnerDispatchResponse) (signed : bool)
    : result string (list N * list N) :=
  value ← ok_or (owner_response_to_value response) "response metadata encoding"%string;
  object ← ok_or (as_object value) "response metadata shape"%string;
  '(object, payload) ← split_effect object;
  metadata ← ok_or (value_to_vec (finish_metadata signed payload object)) "response metadata encoding"%string;
  Ok (metadata, payload).

Definition product_activation_request_wire_parts (request : ProductActivationRequest) (signed : bool)
    : result string (list N * list N) :=
  let payload := str_bytes (paq_completion_json request) in
  value ← ok_or (activation_request_to_value request) "activation metadata encoding"%string;
  object ← ok_or (as_object value) "activation metadata shape"%string;
  let object := bt_remove "completion_json" object in
  metadata ← ok_or (value_to_vec (finish_metadata signed payload object)) "activation metadata encoding"%string;
  Ok (metadata, payload).

(** ** Signing inputs *)

Definition request_signing_bytes (request : OwnerDispatchRequest) : result string (list N) :=
  '(metadata, payload) ← request_wire_parts request false;
  wire_signing_bytes OWNER_DISPATCH_REQUEST_DOMAIN metadata payload.

Definition response_signing_bytes (response : OwnerDispatchResponse) : result string (list N) :=
  '(metadata, payload) ← response_wire_parts response false;
  wire_signing_bytes OWNER_DISPATCH_RESPONSE_DOMAIN metadata payload.

Definition product_activation_request_signing_bytes (request : ProductActivationRequest)
    : result string (list N) :=
  '(metadata, payload) ← product_activation_request_wire_parts request false;
  wire_signing_bytes PRODUCT_ACTIVATION_REQUEST_DOMAIN metadata payload.

Definition product_activation_response_signing_bytes (response : ProductActivationResponse)
    : result string (list N) :=
  value ← ok_or (activation_response_to_value response) "activation ack encoding"%string;
  object ← ok_or (as_object value) "activation ack shape"%string;
  metadata ← ok_or (value_to_vec (VObject (bt_remove "signature_base64" object))) "activation ack encoding"%string;
  wire_signing_bytes PRODUCT_ACTIVATION_RESPONSE_DOMAIN metadata [].

(** ** Frames *)

(** The metadata without its digest. *)
Definition validate_payload_digest (value : Value) (payload : list N) : result string Value :=
  object ← ok_or (as_object value) "metadata shape"%string;
  digest ← ok_or (bt_get "payload_sha256" object ≫= as_str) "payload digest absent"%string;
  fail_if (negb (digest =? sha256_prefixed payload)%string) "payload digest mismatch"%string ;;
  Ok (VObject (bt_remove "payload_sha256" object)).

Definition encode_request_frame (request : OwnerDispatchRequest) : result string (list N) :=
  '(metadata, payload) ← request_wire_parts request true;
  encode_wire_frame metadata payload.

Definition decode_request_frame (frame : list N) : result string OwnerDispatchRequest :=
  '(metadata, payload) ← decode_wire_frame frame;
  value ← ok_or (value_from_slice metadata) "invalid dispatch request metadata"%string;
  value ← validate_payload_digest value payload;
  object ← ok_or (as_object value) "request metadata shape"%string;
  ticket ← ok_or (value_from_slice payload) "invalid ticket payload"%string;
  ok_or (owner_request_from_value (VObject (bt_insert "ticket" ticket object))) "invalid dispatch request"%string.

Definition encode_response_frame (response : OwnerDispatchResponse) : result string (list N) :=
  '(metadata, payload) ← response_wire_parts response true;
  encode_wire_frame metadata payload.

(** The [if let] over [value.get_mut("effect")], which puts the readback back. *)
Definition join_effect (value : Value) (payload : list N) : result string Value :=
  match object ← as_object value; effect ← bt_get "effect" object; effect ← as_object effect; Some (object, effect) with
  | Some (object, effect) =>
      readback ← ok_or (value_from_slice payload) "invalid readback payload"%string;
      text ← ok_or (from_utf8 payload) "readback payload UTF-8"%string;
      Ok (VObject (bt_insert "effect"
            (VObject (bt_insert "readback_json" (VString text) (bt_insert "readback" readback effect))) object))
  | None =>
      fail_if (negb (bool_decide (payload = []))) "unexpected response payload"%string ;;
      Ok value
  end.

Definition decode_response_frame (frame : list N) : result string OwnerDispatchResponse :=
  '(metadata, payload) ← decode_wire_frame frame;
  value ← ok_or (value_from_slice metadata) "invalid dispatch response metadata"%string;
  value ← validate_payload_digest value payload;
  value ← join_effect value payload;
  ok_or (owner_response_from_value value) "invalid dispatch response"%string.

Definition decode_product_activation_request (frame : list N) : result string ProductActivationRequest :=
  '(metadata, payload) ← decode_wire_frame frame;
  value ← ok_or (value_from_slice metadata) "activation metadata"%string;
  value ← validate_payload_digest value payload;
  object ← ok_or (as_object value) "activation metadata shape"%string;
  text ← ok_or (from_utf8 payload) "activation completion UTF-8"%string;
  ok_or (activation_request_from_value (VObject (bt_insert "completion_json" (VString text) object)))
    "invalid activation request"%string.

Definition encode_product_activation_response (response : ProductActivationResponse) : result string (list N) :=
  metadata ← ok_or (activation_response_to_vec response) "activation response encoding"%string;
  encode_wire_frame metadata [].

Definition decode_product_activation_response (frame : list N) : result string ProductActivationResponse :=
  '(metadata, payload) ← decode_wire_frame frame;
  fail_if (negb (bool_decide (payload = []))) "activation response payload"%string ;;
  ok_or (activation_response_from_slice metadata) "invalid activation response"%string.

(** ** Signing *)

Definition set_owner_request_signature (request : OwnerDispatchRequest) (signature : string)
    : OwnerDispatchRequest :=
  mkOwnerRequest (odq_schema_id request) (odq_dispatch_id request) (odq_sequence request)
    (odq_issued_at_ms request) (odq_target_peer_id request) (odq_authority request) (odq_ticket request)
    (odq_mode request) (odq_signer_key_id request) signature.

Definition set_owner_response_signature (response : OwnerDispatchResponse) (signature : string)
    : OwnerDispatchResponse :=
  mkOwnerResponse (ods_schema_id response) (ods_dispatch_id response) (ods_request_sha256 response)
    (ods_status response) (ods_effect response) (ods_failure response) (ods_signer_key_id response) signature.

Definition set_activation_request_signature (request : ProductActivationRequest) (signature : string)
    : ProductActivationRequest :=
  mkActivationRequest (paq_schema_id request) (paq_activation_id request) (paq_issued_at_ms request)
    (paq_expires_at_ms request) (paq_target_peer_id request) (paq_authority request) (paq_proof request)
    (paq_completion_json request) (paq_signer_key_id request) signature.

Definition set_activation_response_signature (response : ProductActivationResponse) (signature : string)
    : ProductActivationResponse :=
  mkActivationResponse (pas_schema_id response) (pas_activation_id response) (pas_request_sha256 response)
    (pas_status response) (pas_readback response) (pas_failure response) (pas_signer_key_id response) signature.

Definition encode_product_activation_request {SG : OwnerDispatchSigner} (request : ProductActivationRequest)
    : result string (list N) :=
  fail_if (negb (paq_signer_key_id request =? signer_key_id)%string ||
           negb (str_is_empty (paq_signature_base64 request))) "activation signer mismatch"%string ;;
  signing ← product_activation_request_signing_bytes request;
  signature ← signer_sign signing;
  let request := set_activation_request_signature request (encode_signature_base64 signature) in
  '(metadata, payload) ← product_activation_request_wire_parts request true;
  encode_wire_frame metadata payload.

Definition verify_product_activation_response (response : ProductActivationResponse)
    (expected_activation_id : string) (request_frame : list N) (expected_signer_key_id : string)
    (signer_key : list N) : result string unit :=
  fail_if
    (negb (pas_schema_id response =? PRODUCT_ACTIVATION_RESPONSE_SCHEMA)%string ||
     negb (pas_activation_id response =? expected_activation_id)%string ||
     negb (pas_request_sha256 response =? sha256_prefixed request_frame)%string ||
     negb (pas_signer_key_id response =? expected_signer_key_id)%string ||
     (bool_decide (pas_status response = Completed) &&
      match pas_readback response with
      | None => true
      | Some value =>
          negb (par_schema_id value =? PRODUCT_ACTIVATION_READBACK_SCHEMA)%string ||
          negb (par_activated value) || negb (par_activation_id value =? expected_activation_id)%string
      end))
    "activation acknowledgement binding mismatch"%string ;;
  key ← ok_or (vk_from_bytes signer_key) "invalid activation acknowledgement key"%string;
  signature ← decode_signature_base64 (pas_signature_base64 response);
  signing ← product_activation_response_signing_bytes response;
  fail_if (negb (verify_strict key signing signature)) "activation acknowledgement signature"%string.

(** ** Shapes *)

Definition authority_digests_invalid (authority : OwnerDispatchAuthorityProjection) : bool :=
  negb (digest (opj_signed_topology_sha256 authority)) || negb (digest (opj_route_configuration_sha256 authority)) ||
  negb (digest (opj_route_authority_evidence_sha256 authority)).

Definition validate_request_shape (request : OwnerDispatchRequest) (target_peer_id : string) : result string unit :=
  let authority := odq_authority request in
  let ticket := odq_ticket request in
  fail_if
    (negb (odq_schema_id request =? OWNER_DISPATCH_REQUEST_SCHEMA)%string ||
     str_is_empty (odq_dispatch_id request) || (odq_sequence request =? 0) || (odq_issued_at_ms request =? 0) ||
     negb (odq_target_peer_id request =? target_peer_id)%string || str_is_empty (odq_signer_key_id request) ||
     negb (opj_executor_peer_id authority =? target_peer_id)%string ||
     (opj_expires_at_ms authority <? odq_issued_at_ms request) ||
     negb (opj_authority_provider_epoch_id authority =? tk_authority_epoch_id ticket)%string ||
     negb (opj_authority_client_id authority =? tk_client_id ticket)%string ||
     negb (opj_authority_runtime_lease_id authority =? tk_lease_id ticket)%string ||
     str_is_empty (opj_platform_runtime_spec_id authority) ||
     str_is_empty (opj_authority_runtime_host_id authority) || (opj_route_authority_revision authority =? 0) ||
     authority_digests_invalid authority ||
     (bool_decide (opj_authorization_kind authority = AuthRetainedCleanup) &&
      negb (bool_decide (tk_operation ticket = OpStop)) && negb (bool_decide (odq_mode request = CompensateUncertain))))
    "dispatch request binding mismatch"%string.

Definition validate_product_activation_shape (request : ProductActivationRequest) (target_peer_id : string)
    : result string unit :=
  let authority := paq_authority request in
  let proof := paq_proof request in
  fail_if
    (negb (paq_schema_id request =? PRODUCT_ACTIVATION_REQUEST_SCHEMA)%string ||
     str_is_empty (paq_activation_id request) || (paq_issued_at_ms request =? 0) ||
     (paq_expires_at_ms request <=? paq_issued_at_ms request) ||
     negb (paq_target_peer_id request =? target_peer_id)%string ||
     negb (opj_executor_peer_id authority =? target_peer_id)%string ||
     str_is_empty (paq_signer_key_id request) ||
     negb (bool_decide (opj_authorization_kind authority = CurrentRoute)) ||
     (opj_expires_at_ms authority <? paq_expires_at_ms request) ||
     str_is_empty (pap_action_id proof) ||
     negb (pap_provider_epoch_id proof =? opj_authority_provider_epoch_id authority)%string ||
     negb (pap_client_id proof =? opj_authority_client_id authority)%string ||
     negb (pap_lease_id proof =? opj_authority_runtime_lease_id authority)%string ||
     negb (pap_runtime_spec_id proof =? opj_platform_runtime_spec_id authority)%string ||
     (pap_resulting_runtime_revision proof =? 0) || negb (len (pap_owner_receipt_ids proof) =? 7) ||
     existsb str_is_empty (pap_owner_receipt_ids proof) ||
     negb (N.of_nat (size (list_to_set (pap_owner_receipt_ids proof) : gset string)) =? 7) ||
     negb (digest (pap_completion_sha256 proof)) ||
     negb (pap_completion_sha256 proof =? sha256_prefixed (str_bytes (paq_completion_json request)))%string)
    "product activation binding mismatch"%string.

(** ** What the code relies on *)

(** A document is read back as it was written; a struct is written as the
    object of its fields, and read back from it; a digest field is none of its
    fields; an optional effect is [null] or the object of its fields; raw JSON
    of a readback is a document that stands for it. *)
Class OwnerDispatchEncodingLaws {EE : EffectEncoding} : Prop := {
  value_roundtrip v bytes : value_to_vec v = Some bytes → value_from_slice bytes = Some v;
  owner_request_object r v bytes :
    owner_request_to_value r = Some v → ticket_to_vec (odq_ticket r) = Some bytes →
    owner_request_from_value v = Some r ∧
    ∃ m t, v = VObject m ∧ bt_sorted m ∧ bt_get "payload_sha256" m = None ∧
      bt_get "ticket" m = Some t ∧ value_from_slice bytes = Some t;
  owner_request_signature r v text : owner_request_to_value r = Some v →
    ∃ m, v = VObject m ∧ bt_sorted m ∧
      owner_request_to_value (set_owner_request_signature r text) =
        Some (VObject (bt_insert "signature_base64" (VString text) m));
  owner_response_object r v : owner_response_to_value r = Some v →
    owner_response_from_value v = Some r ∧
    ∃ m, v = VObject m ∧ bt_sorted m ∧ bt_get "payload_sha256" m = None ∧
      match ods_effect r with
      | None => bt_get "effect" m = Some VNull
      | Some effect => ∃ e, bt_get "effect" m = Some (VObject e) ∧ bt_sorted e ∧
          bt_get "readback_json" e = Some (VString (aoe_readback_json effect)) ∧
          ∀ v', readback_from_str (aoe_readback_json effect) = Some (aoe_readback effect) →
            value_from_slice (str_bytes (aoe_readback_json effect)) = Some v' →
            owner_response_from_value (VObject (bt_insert "effect" (VObject (bt_insert "readback" v' e)) m)) = Some r
      end;
  owner_response_signature r v text : owner_response_to_value r = Some v →
    ∃ m, v = VObject m ∧ bt_sorted m ∧
      owner_response_to_value (set_owner_response_signature r text) =
        Some (VObject (bt_insert "signature_base64" (VString text) m));
  readback_document text readback : readback_from_str text = Some readback →
    is_Some (value_from_slice (str_bytes text));
  activation_request_object r v : activation_request_to_value r = Some v →
    activation_request_from_value v = Some r ∧
    ∃ m, v = VObject m ∧ bt_sorted m ∧ bt_get "payload_sha256" m = None ∧
      bt_get "completion_json" m = Some (VString (paq_completion_json r));
  activation_response_signature r v text : activation_response_to_value r = Some v →
    ∃ m, v = VObject m ∧ bt_sorted m ∧
      activation_response_to_value (set_activation_response_signature r text) =
        Some (VObject (bt_insert "signature_base64" (VString text) m));
  activation_response_roundtrip r bytes : activation_response_to_vec r = Some bytes →
    activation_response_from_slice bytes = Some r;
}.

Context {EE : EffectEncoding} {OL : OwnerDispatchEncodingLaws}.

(** ** Metadata *)

Lemma digest_of_metadata payload m :
  bt_sorted m → bt_get "payload_sha256" m = None →
  validate_payload_digest (finish_metadata true payload m) payload = Ok (VObject m).
Proof.
  intros Hs Hn. unfold validate_payload_digest, finish_metadata. cbn [as_object ok_or mbind result_bind].
  rewrite bt_get_insert, String.eqb_refl. cbn. rewrite String.eqb_refl. cbn. do 2 f_equal. bt_eq.
Qed.

(** Frames of 8-bit metadata and payload decode to both. *)
Lemma frame_decodes metadata payload frame :
  encode_wire_frame metadata payload = Ok frame → decode_wire_frame frame = Ok (metadata, payload).
Proof. rewrite encode_wire_frame_iff. intros [Hb ->]. by apply decode_frame_bytes. Qed.

(** ** Frames read back *)

(** The metadata of a message, once framed, is the object that was written. *)
Lemma request_parts request signed metadata payload :
  request_wire_parts request signed = Ok (metadata, payload) →
  ticket_to_vec (odq_ticket request) = Some payload ∧
  ∃ m, owner_request_to_value request = Some (VObject m) ∧
    value_to_vec (finish_metadata signed payload (bt_remove "ticket" m)) = Some metadata.
Proof.
  unfold request_wire_parts. intros E. apply ok_or_bind_ok in E as (bytes & Et & E).
  apply ok_or_bind_ok in E as (v & Ev & E). apply ok_or_bind_ok in E as (m & Em & E).
  apply ok_or_bind_ok in E as (bs & Eb & [= <- <-]). split; [done|]. exists m. split; [|done].
  destruct v; try done. by injection Em as ->.
Qed.

Lemma request_frame_roundtrip request frame :
  encode_request_frame request = Ok frame → decode_request_frame frame = Ok request.
Proof.
  unfold encode_request_frame. intros ([metadata payload] & E & Hf)%bind_ok.
  apply request_parts in E as (Et & m & Ev & Em). apply frame_decodes in Hf.
  destruct (owner_request_object _ _ _ Ev Et) as (Hr & m' & t & [= <-] & Hs & Hn & Ht & Hp).
  pose proof (value_roundtrip _ _ Em) as Hm.
  unfold decode_request_frame. rewrite Hf. cbn [mbind result_bind]. rewrite Hm. cbn [ok_or mbind result_bind].
  rewrite digest_of_metadata; [|auto with quest|by rewrite bt_get_remove]. cbn [as_object ok_or mbind result_bind].
  rewrite Hp. cbn [ok_or mbind result_bind].
  assert (bt_insert "ticket" t (bt_remove "ticket" m) = m) as -> by bt_eq. by rewrite Hr.
Qed.

(** The response whose effect, if any, carries its own readback as text. *)
Definition response_readable (response : OwnerDispatchResponse) : Prop :=
  ∀ effect, ods_effect response = Some effect →
    readback_from_str (aoe_readback_json effect) = Some (aoe_readback effect) ∧ is_utf8 (aoe_readback_json effect).

Lemma response_parts response signed metadata payload :
  response_wire_parts response signed = Ok (metadata, payload) →
  ∃ m m', owner_response_to_value response = Some (VObject m) ∧ split_effect m = Ok (m', payload) ∧
    value_to_vec (finish_metadata signed payload m') = Some metadata.
Proof.
  unfold response_wire_parts. intros E. apply ok_or_bind_ok in E as (v & Ev & E).
  apply ok_or_bind_ok in E as (m & Em & E). apply bind_ok in E as ([m' bytes] & Es & E).
  apply ok_or_bind_ok in E as (bs & Eb & [= <- <-]). exists m, m'. split_and!; try done.
  destruct v; try done. by injection Em as ->.
Qed.

(** The readback of an effect goes into the payload and comes back. *)
Lemma split_join_effect response v m' payload m :
  owner_response_to_value response = Some v → v = VObject m → response_readable response →
  split_effect m = Ok (m', payload) →
  bt_sorted m' ∧ bt_get "payload_sha256" m' = None ∧
  ∃ v', join_effect (VObject m') payload = Ok v' ∧ owner_response_from_value v' = Some response.
Proof.
  intros Ev -> Hread Es. destruct (owner_response_object _ _ Ev) as (Hr & m0 & [= <-] & Hs & Hn & He).
  unfold split_effect in Es. destruct (ods_effect response) as [effect|] eqn:Eeff.
  - destruct He as (e & Ee & Hse & Hj & Hback). rewrite Ee in Es. cbn in Es.
    rewrite bt_get_remove in Es. cbn in Es. rewrite Hj in Es. injection Es as <- <-.
    destruct (Hread effect Eeff) as [Hrb Hutf]. destruct (readback_document _ _ Hrb) as [v' Hv'].
    split_and!; [auto with quest|by rewrite bt_get_insert|].
    eexists. split.
    + unfold join_effect. cbn. rewrite bt_get_insert. cbn. rewrite Hv', (from_utf8_str _ Hutf). cbn. reflexivity.
    + rewrite <- (Hback v' Hrb Hv'). do 2 f_equal.
      assert (bt_insert "readback_json" (VString (aoe_readback_json effect))
               (bt_insert "readback" v' (bt_remove "readback_json" (bt_remove "readback" e))) =
              bt_insert "readback" v' e) as -> by bt_eq. bt_eq.
  - rewrite He in Es. cbn in Es. injection Es as <- <-. split_and!; [done..|].
    unfold join_effect. cbn. rewrite He. cbn. eauto.
Qed.

Lemma response_frame_roundtrip response frame :
  response_readable response → encode_response_frame response = Ok frame → decode_response_frame frame = Ok response.
Proof.
  intros Hread. unfold encode_response_frame. intros ([metadata payload] & E & Hf)%bind_ok.
  apply response_parts in E as (m & m' & Ev & Es & Em). apply frame_decodes in Hf.
  destruct (split_join_effect _ _ _ _ _ Ev eq_refl Hread Es) as (Hs & Hn & v' & Hj & Hr).
  pose proof (value_roundtrip _ _ Em) as Hm.
  unfold decode_response_frame. rewrite Hf. cbn [mbind result_bind]. rewrite Hm. cbn [ok_or mbind result_bind].
  rewrite digest_of_metadata by done. cbn [mbind result_bind]. rewrite Hj. cbn [mbind result_bind]. by rewrite Hr.
Qed.

Lemma activation_frame_roundtrip {SG : OwnerDispatchSigner} request frame :
  is_utf8 (paq_completion_json request) → encode_product_activation_request request = Ok frame →
  ∃ text, decode_product_activation_request frame = Ok (set_activation_request_signature request text).
Proof.
  intros Hutf. unfold encode_product_activation_request. rewrite fail_if_bind_ok. intros [_ E].
  apply bind_ok in E as (signing & _ & E). apply bind_ok in E as (signature & _ & E).
  apply bind_ok in E as ([metadata payload] & E & Hf). apply frame_decodes in Hf.
  set (r := set_activation_request_signature request (encode_signature_base64 signature)) in *.
  exists (encode_signature_base64 signature). fold r.
  unfold product_activation_request_wire_parts in E. apply ok_or_bind_ok in E as (v & Ev & E).
  apply ok_or_bind_ok in E as (m & Em & E). apply ok_or_bind_ok in E as (bs & Eb & [= <- <-]).
  destruct (activation_request_object _ _ Ev) as (Hr & m0 & -> & Hs & Hn & Hc). injection Em as ->.
  pose proof (value_roundtrip _ _ Eb) as Hm.
  unfold decode_product_activation_request. rewrite Hf. cbn [mbind result_bind]. rewrite Hm.
  cbn [ok_or mbind result_bind].
  rewrite digest_of_metadata; [|auto with quest|by rewrite bt_get_remove]. cbn [as_object ok_or mbind result_bind].
  rewrite from_utf8_str by done. cbn [ok_or mbind result_bind].
  change (paq_completion_json r) with (paq_completion_json request) in Hc.
  assert (bt_insert "completion_json" (VString (paq_completion_json request)) (bt_remove "completion_json" m) = m) as ->
    by bt_eq. by rewrite Hr.
Qed.

Lemma activation_response_frame_roundtrip response frame :
  encode_product_activation_response response = Ok frame → decode_product_activation_response frame = Ok response.
Proof.
  unfold encode_product_activation_response. intros E. apply ok_or_bind_ok in E as (bytes & Ev & Hf).
  apply frame_decodes in Hf. unfold decode_product_activation_response. rewrite Hf. cbn.
  by rewrite (activation_response_roundtrip _ _ Ev).
Qed.

(** ** The signing input does not depend on the signature *)

Lemma unsigned_metadata payload m text : bt_sorted m →
  finish_metadata false payload (bt_insert "signature_base64" (VString text) m) = finish_metadata false payload m.
Proof. intros Hs. unfold finish_metadata. f_equal. bt_eq. Qed.

Lemma split_effect_signature m text m' payload :
  bt_sorted m → split_effect m = Ok (m', payload) →
  bt_sorted m' ∧
  split_effect (bt_insert "signature_base64" (VString text) m) =
    Ok (bt_insert "signature_base64" (VString text) m', payload).
Proof.
  intros Hs. unfold split_effect. rewrite bt_get_insert. cbn [String.eqb Ascii.eqb Bool.eqb].
  destruct (bt_get "effect" m ≫= as_object) as [effect|]; [|by intros [= <- <-]].
  destruct (bt_get "readback_json" (bt_remove "readback" effect)) as [[]|]; try done. intros [= <- <-].
  split; [auto with quest|]. do 2 f_equal. bt_eq.
Qed.

Lemma response_signing_signature response text bytes :
  response_signing_bytes response = Ok bytes →
  response_signing_bytes (set_owner_response_signature response text) = Ok bytes.
Proof.
  unfold response_signing_bytes. intros ([metadata payload] & E & Hb)%bind_ok.
  apply response_parts in E as (m & m' & Ev & Es & Em).
  destruct (owner_response_signature _ _ text Ev) as (m0 & [= <-] & Hs & Ev').
  destruct (split_effect_signature _ text _ _ Hs Es) as [Hs' Es'].
  unfold response_wire_parts. rewrite Ev'. cbn [ok_or as_object mbind result_bind]. rewrite Es'.
  cbn [mbind result_bind]. rewrite unsigned_metadata, Em by done. done.
Qed.

Lemma request_signing_signature request text bytes :
  request_signing_bytes request = Ok bytes →
  request_signing_bytes (set_owner_request_signature request text) = Ok bytes.
Proof.
  unfold request_signing_bytes. intros ([metadata payload] & E & Hb)%bind_ok.
  apply request_parts in E as (Et & m & Ev & Em).
  destruct (owner_request_signature _ _ text Ev) as (m0 & [= <-] & Hs & Ev').
  unfold request_wire_parts. cbn [odq_ticket set_owner_request_signature]. rewrite Et, Ev'.
  cbn [ok_or as_object mbind result_bind].
  assert (bt_remove "ticket" (bt_insert "signature_base64" (VString text) m) =
          bt_insert "signature_base64" (VString text) (bt_remove "ticket" m)) as -> by bt_eq.
  rewrite unsigned_metadata, Em by auto with quest. done.
Qed.

Lemma activation_response_signing_signature response text bytes :
  product_activation_response_signing_bytes response = Ok bytes →
  product_activation_response_signing_bytes (set_activation_response_signature response text) = Ok bytes.
Proof.
  unfold product_activation_response_signing_bytes. intros E. apply ok_or_bind_ok in E as (v & Ev & E).
  apply ok_or_bind_ok in E as (m & Em & E). apply ok_or_bind_ok in E as (bs & Eb & E).
  destruct (activation_response_signature _ _ text Ev) as (m0 & -> & Hs & Ev'). injection Em as ->.
  rewrite Ev'. cbn [ok_or as_object mbind result_bind].
  assert (bt_remove "signature_base64" (bt_insert "signature_base64" (VString text) m) =
          bt_remove "signature_base64" m) as -> by bt_eq. by rewrite Eb.
Qed.
End Wire.
