(* ===== verification/DispatchJournal.v ===== *)
(** * The replay journal of the dispatch servers

    [OwnerDispatchReplaySnapshot] and [ProductActivationReplaySnapshot] of
    crates/rusty-quest-media-stream-android/src/owner_dispatch.rs have one shape
    over two response types, and both servers update it by the same two
    transactions: a pending marker before the effect, a terminal response after
    it. This file holds the two, and that no identity is reserved twice, over
    runs with failed commits, crashes and restarts. *)

From S2P Require Import Prelude RustStr.

Local Open Scope N_scope.

Definition MAX_OWNER_DISPATCH_REPLAYS : N := 256.
Definition MAX_OWNER_DISPATCH_PENDING : N := 32.
Definition MAX_OWNER_DISPATCH_REPLAY_BYTES : N := 16 * 1024 * 1024.

Record DispatchReplay (T : Type) := mkDispatchReplay {
  dr_pending_request_sha256 : gmap string string;
  dr_terminal : gmap string T;
}.
Arguments mkDispatchReplay {T} _ _.
Arguments dr_pending_request_sha256 {T} _.
Arguments dr_terminal {T} _.

(** [serde_json::to_vec] on a snapshot. *)
Class DispatchReplayEncoding (T : Type) := {
  dispatch_replay_to_vec : DispatchReplay T → option (list N);
}.

(** The store trait, its store being the [&mut self] it updates. *)
Class DispatchReplayStore (St T : Type) := {
  dispatch_commit : St → DispatchReplay T → St * result string unit;
}.

(** Its documented contract: atomic replacement, durable when it reports
    success, and either happened or not when it reports failure. *)
Class DispatchStoreLaws (St T : Type) `{DispatchReplayStore St T} := {
  dispatch_durable : St → DispatchReplay T;
  dispatch_commit_ok s x s' : dispatch_commit s x = (s', Ok tt) → dispatch_durable s' = x;
  dispatch_commit_err s x s' e : dispatch_commit s x = (s', Err e) →
    dispatch_durable s' = dispatch_durable s ∨ dispatch_durable s' = x;
}.

Section Journal.
Context {St T : Type} {DE : DispatchReplayEncoding T} `{DispatchReplayStore St T}.
Implicit Types mem : DispatchReplay T.

Definition replay_too_long (replay : DispatchReplay T) : bool :=
  match dispatch_replay_to_vec replay with
  | None => true
  | Some bytes => MAX_OWNER_DISPATCH_REPLAY_BYTES <? len bytes
  end.

(** The guard of [restore] in both servers. *)
Definition restore_rejects (target_peer_id : string) (replay : DispatchReplay T) : bool :=
  str_is_empty target_peer_id ||
  (MAX_OWNER_DISPATCH_PENDING <? N.of_nat (size (dr_pending_request_sha256 replay))) ||
  (MAX_OWNER_DISPATCH_REPLAYS <? N.of_nat (size (dr_terminal replay))) ||
  replay_too_long replay ||
  existsb (fun '(id, _) => bool_decide (is_Some (dr_terminal replay !! id)))
    (map_to_list (dr_pending_request_sha256 replay)).

(** Both lengths are checked before an effect is admitted. *)
Definition replay_full (replay : DispatchReplay T) : bool :=
  (MAX_OWNER_DISPATCH_PENDING <=? N.of_nat (size (dr_pending_request_sha256 replay))) ||
  (MAX_OWNER_DISPATCH_REPLAYS <=? N.of_nat (size (dr_terminal replay))).

(** The marker is inserted and committed; a failed commit takes it out again. *)
Definition commit_pending (label id request_sha256 : string) (replay : DispatchReplay T) (store : St)
    : DispatchReplay T * St * result string unit :=
  let pending := <[id := request_sha256]> (dr_pending_request_sha256 replay) in
  let replay := mkDispatchReplay pending (dr_terminal replay) in
  let '(store, committed) := dispatch_commit store replay in
  match committed with
  | Err error => (mkDispatchReplay (delete id pending) (dr_terminal replay), store, Err (label ++ error)%string)
  | Ok _ => (replay, store, Ok tt)
  end.

(** The terminal response replaces the marker in a copy, which is adopted when
    its commit succeeds. *)
Definition terminal_snapshot (id : string) (response : T) (replay : DispatchReplay T) : DispatchReplay T :=
  mkDispatchReplay (delete id (dr_pending_request_sha256 replay)) (<[id := response]> (dr_terminal replay)).

Definition commit_terminal (capacity id : string) (response : T) (replay : DispatchReplay T) (store : St)
    : DispatchReplay T * St * result string unit :=
  let committed := terminal_snapshot id response replay in
  if replay_too_long committed then (replay, store, Err capacity)
  else
    let '(store, result) := dispatch_commit store committed in
    match result with
    | Err error => (replay, store, Err error)
    | Ok _ => (committed, store, Ok tt)
    end.

(** ** Runs of the journal *)

Context {SL : DispatchStoreLaws St T}.

(** An identity with a marker or a response. *)
Definition recorded (replay : DispatchReplay T) (id : string) : Prop :=
  is_Some (dr_pending_request_sha256 replay !! id) ∨ is_Some (dr_terminal replay !! id).

(** One transaction or a restart, with the identity it reserves. *)
Inductive journal_step : DispatchReplay T * St → list string → DispatchReplay T * St → Prop :=
  | js_reserve label id sha mem store mem' store' r :
      ¬ recorded mem id → commit_pending label id sha mem store = (mem', store', r) →
      journal_step (mem, store) (if is_ok r then [id] else []) (mem', store')
  | js_finish capacity id response mem store mem' store' r :
      recorded mem id → commit_terminal capacity id response mem store = (mem', store', r) →
      journal_step (mem, store) [] (mem', store')
  | js_reload mem store : journal_step (mem, store) [] (dispatch_durable store, store).

Inductive journal_run : DispatchReplay T * St → list string → DispatchReplay T * St → Prop :=
  | jr_done j : journal_run j [] j
  | jr_step j ids1 j1 ids2 j2 : journal_step j ids1 j1 → journal_run j1 ids2 j2 → journal_run j (ids1 ++ ids2) j2.

Lemma journal_run_trans j ids1 j1 ids2 j2 :
  journal_run j ids1 j1 → journal_run j1 ids2 j2 → journal_run j (ids1 ++ ids2) j2.
Proof. induction 1; [done|]. intros. rewrite <- app_assoc. econstructor; eauto. Qed.

Lemma journal_run_one j ids j' : journal_step j ids j' → journal_run j ids j'.
Proof. intros. rewrite <- (app_nil_r ids). econstructor; [done|constructor]. Qed.

(** Every identity of [ids] is in memory and on disk. *)
Definition retained (ids : list string) (j : DispatchReplay T * St) : Prop :=
  Forall (fun id => recorded j.1 id ∧ recorded (dispatch_durable j.2) id) ids.

Lemma commit_pending_spec label id sha mem store mem' store' r :
  ¬ recorded mem id → commit_pending label id sha mem store = (mem', store', r) →
  let marked := mkDispatchReplay (<[id := sha]> (dr_pending_request_sha256 mem)) (dr_terminal mem) in
  match r with
  | Ok _ => mem' = marked ∧ dispatch_durable store' = marked
  | Err _ => mem' = mem ∧ (dispatch_durable store' = dispatch_durable store ∨ dispatch_durable store' = marked)
  end.
Proof.
  intros Hn. unfold commit_pending. destruct (dispatch_commit _ _) as [store0 [[]|e]] eqn:E; intros [= <- <- <-].
  - split; [done|]. by apply dispatch_commit_ok in E.
  - split; [|by apply dispatch_commit_err in E]. cbn. rewrite delete_insert_id; [by destruct mem|].
    apply eq_None_not_Some. intros Hs. apply Hn. by left.
Qed.

Lemma commit_terminal_spec capacity id response mem store mem' store' r :
  commit_terminal capacity id response mem store = (mem', store', r) →
  let answered := terminal_snapshot id response mem in
  match r with
  | Ok _ => mem' = answered ∧ dispatch_durable store' = answered ∧ replay_too_long answered = false
  | Err _ => mem' = mem ∧ (dispatch_durable store' = dispatch_durable store ∨ dispatch_durable store' = answered)
  end.
Proof.
  unfold commit_terminal. destruct (replay_too_long _) eqn:L; [intros [= <- <- <-]; auto|].
  destruct (dispatch_commit _ _) as [store0 [[]|e]] eqn:E; intros [= <- <- <-].
  - split_and!; try done. by apply dispatch_commit_ok in E.
  - split; [done|]. by apply dispatch_commit_err in E.
Qed.

Lemma recorded_marked id sha mem id' :
  recorded mem id' → recorded (mkDispatchReplay (<[id := sha]> (dr_pending_request_sha256 mem)) (dr_terminal mem)) id'.
Proof.
  unfold recorded. cbn. destruct (decide (id = id')) as [->|Hn]; [rewrite lookup_insert_eq; eauto|].
  by rewrite lookup_insert_ne.
Qed.

Lemma recorded_terminal id response mem id' : recorded mem id' → recorded (terminal_snapshot id response mem) id'.
Proof.
  unfold recorded. cbn. destruct (decide (id = id')) as [->|Hn]; [rewrite lookup_insert_eq; eauto|].
  by rewrite lookup_insert_ne, lookup_delete_ne.
Qed.

(** Whatever a step does, what was recorded in memory and on disk stays recorded
    in both, and what it reserves is new and recorded in both. *)
Lemma journal_step_retained j ids j' seen :
  journal_step j ids j' → retained seen j → retained (ids ++ seen) j' ∧ Forall (fun id => ¬ recorded j.1 id) ids ∧ NoDup ids.
Proof.
  intros Hs Hr. unfold retained in *. destruct Hs as
    [label id sha mem store mem' store' r Hn E|capacity id response mem store mem' store' r Hk E|mem store].
  - apply commit_pending_spec in E; [|done]. destruct r as [[]|e]; cbn [is_ok app].
    + destruct E as [-> Ed]. split_and!.
      * constructor; cbn; rewrite Ed.
        -- split; left; cbn; rewrite lookup_insert_eq; eauto.
        -- eapply Forall_impl; [exact Hr|]. cbn. intros id' [H1 _]. split; by apply recorded_marked.
      * by constructor.
      * apply NoDup_singleton.
    + destruct E as [-> Ed]. split_and!; [|constructor|constructor].
      eapply Forall_impl; [exact Hr|]. cbn. intros id' [H1 H2]. split; [done|].
      destruct Ed as [->| ->]; [done|by apply recorded_marked].
  - apply commit_terminal_spec in E. split_and!; [|constructor|constructor]. cbn [app].
    eapply Forall_impl; [exact Hr|]. cbn. intros id' [H1 H2]. destruct r as [[]|e].
    + destruct E as (-> & -> & _). split; by apply recorded_terminal.
    + destruct E as [-> [->| ->]]; split; try done. by apply recorded_terminal.
  - split_and!; [|constructor|constructor]. cbn [app].
    eapply Forall_impl; [exact Hr|]. cbn. by intros id' [_ H2].
Qed.

(** No identity is reserved twice, none that was recorded before is reserved,
    and every reservation is still on disk at the end. *)
Lemma journal_run_retained j ids j' seen :
  journal_run j ids j' → NoDup seen → retained seen j →
  NoDup (ids ++ seen) ∧ retained (ids ++ seen) j'.
Proof.
  intros Hr. revert seen. induction Hr as [j|j ids1 j1 ids2 j2 Hs Hr IH]; intros seen Hn Hk; [done|].
  destruct (journal_step_retained _ _ _ seen Hs Hk) as (H1 & H2 & H3).
  assert (Hn1 : NoDup (ids1 ++ seen)).
  { apply NoDup_app. split_and!; [done| |done]. intros id Hi Hin. unfold retained in Hk.
    rewrite Forall_forall in H2, Hk. by destruct (H2 id Hi), (Hk id Hin). }
  destruct (IH _ Hn1 H1) as [H4 H5].
  assert (Hp : (ids1 ++ ids2) ++ seen ≡ₚ ids2 ++ ids1 ++ seen).
  { by rewrite (Permutation_app_comm ids1 ids2), <- app_assoc. }
  unfold retained in *. by rewrite Hp.
Qed.

(** ** Bounds *)

(** What [restore] asks of a snapshot besides its encoded length. *)
Definition bounded (replay : DispatchReplay T) : Prop :=
  N.of_nat (size (dr_pending_request_sha256 replay)) ≤ MAX_OWNER_DISPATCH_PENDING ∧
  N.of_nat (size (dr_terminal replay)) ≤ MAX_OWNER_DISPATCH_REPLAYS ∧
  ∀ id, is_Some (dr_pending_request_sha256 replay !! id) → dr_terminal replay !! id = None.

Lemma overlap_false (replay : DispatchReplay T) :
  existsb (fun '(id, _) => bool_decide (is_Some (dr_terminal replay !! id)))
    (map_to_list (dr_pending_request_sha256 replay)) = false ↔
  ∀ id, is_Some (dr_pending_request_sha256 replay !! id) → dr_terminal replay !! id = None.
Proof.
  split.
  - intros E id [sha Hid]. apply eq_None_not_Some. intros Ht.
    enough (existsb (fun '(id, _) => bool_decide (is_Some (dr_terminal replay !! id)))
      (map_to_list (dr_pending_request_sha256 replay)) = true) by congruence.
    apply existsb_exists. exists (id, sha). split; [by apply list_elem_of_In, elem_of_map_to_list|].
    by apply bool_decide_eq_true.
  - intros Hd. apply not_true_is_false. intros ([id sha] & Hin & Hb)%existsb_exists.
    apply list_elem_of_In, elem_of_map_to_list in Hin. apply bool_decide_eq_true in Hb as [v Hv].
    rewrite Hd in Hv; [done|eauto].
Qed.

Lemma restore_rejects_false peer replay :
  restore_rejects peer replay = false ↔ peer ≠ EmptyString ∧ bounded replay ∧ replay_too_long replay = false.
Proof.
  unfold restore_rejects, bounded. rewrite !orb_false_iff, !N.ltb_ge, overlap_false.
  assert (str_is_empty peer = false ↔ peer ≠ EmptyString) as -> by by destruct peer. tauto.
Qed.

Lemma bounded_marked id sha mem :
  bounded mem → replay_full mem = false → ¬ recorded mem id →
  bounded (mkDispatchReplay (<[id := sha]> (dr_pending_request_sha256 mem)) (dr_terminal mem)).
Proof.
  intros (B1 & B2 & B3) Hf Hn. unfold replay_full in Hf. bool_to_prop.
  assert (Hid : dr_pending_request_sha256 mem !! id = None) by (apply eq_None_not_Some; intros Hs; apply Hn; by left).
  split_and!; cbn; [|done|].
  - rewrite map_size_insert_None by done. lia.
  - intros id'. destruct (decide (id = id')) as [->|Hne].
    + intros _. apply eq_None_not_Some. intros Hs. apply Hn. by right.
    + rewrite lookup_insert_ne by done. apply B3.
Qed.

Lemma bounded_terminal id response mem :
  bounded mem → N.of_nat (size (dr_terminal mem)) < MAX_OWNER_DISPATCH_REPLAYS →
  is_Some (dr_pending_request_sha256 mem !! id) → bounded (terminal_snapshot id response mem).
Proof.
  intros (B1 & B2 & B3) Hf [sha Hid]. split_and!; cbn.
  - rewrite map_size_delete_Some by done. lia.
  - rewrite map_size_insert_None by (apply B3; eauto). lia.
  - intros id'. destruct (decide (id = id')) as [->|Hne]; [rewrite lookup_delete_eq; intros [? [=]]|].
    rewrite lookup_delete_ne, lookup_insert_ne by done. apply B3.
Qed.
(** ** Servers over the journal

    A server has a journal and a registry; a step of it lists the requests that
    entered the registry. *)

Section Servers.
Context {Sv Q Rg : Type} (journal_of : Sv → DispatchReplay T * St) (request_id : Q → string).
Context (registry_of : Sv → Rg) (enter : Rg → Q → Rg) (authorized : Q → Prop).

(** The journal's view of a step. *)
Record refines (s : Sv) (entries : list Q) (s' : Sv) : Prop := {
  rf_journal : ∃ ids, journal_run (journal_of s) ids (journal_of s') ∧ (request_id <$> entries) `sublist_of` ids;
  rf_registry : registry_of s' = foldl enter (registry_of s) entries;
  rf_authorized : Forall authorized entries;
}.

Lemma refines_silent s s' ids :
  journal_run (journal_of s) ids (journal_of s') → registry_of s' = registry_of s → refines s [] s'.
Proof. intros J G. split; [|done|constructor]. exists ids. split; [done|apply sublist_nil_l]. Qed.

Lemma refines_same s s' : journal_of s' = journal_of s → registry_of s' = registry_of s → refines s [] s'.
Proof. intros J G. apply (refines_silent _ _ []); [rewrite J; constructor|done]. Qed.

Lemma refines_trans s e1 s1 e2 s2 : refines s e1 s1 → refines s1 e2 s2 → refines s (e1 ++ e2) s2.
Proof.
  intros [[ids1 [J1 S1]] G1 A1] [[ids2 [J2 S2]] G2 A2]. split.
  - exists (ids1 ++ ids2). split; [by eapply journal_run_trans|]. rewrite fmap_app. by apply sublist_app.
  - by rewrite foldl_app, <- G1.
  - by apply Forall_app.
Qed.

Lemma refines_then s entries s1 s2 : refines s entries s1 → refines s1 [] s2 → refines s entries s2.
Proof. rewrite <- (app_nil_r entries) at 2. apply refines_trans. Qed.

(** A restart. *)
Lemma refines_reload s s' : journal_of s' = (dispatch_durable (journal_of s).2, (journal_of s).2) →
  registry_of s' = registry_of s → refines s [] s'.
Proof.
  intros J G. apply (refines_silent _ _ []); [|done]. rewrite J. destruct (journal_of s). apply journal_run_one, js_reload.
Qed.

(** From a state read back from disk: no identity enters the registry twice,
    none that was on disk enters, and what entered is on disk. *)
Lemma refines_promise s entries s' :
  refines s entries s' → (journal_of s).1 = dispatch_durable (journal_of s).2 →
  NoDup (request_id <$> entries) ∧
  Forall (fun q => authorized q ∧ ¬ recorded (journal_of s).1 (request_id q) ∧
    recorded (dispatch_durable (journal_of s').2) (request_id q)) entries.
Proof.
  intros [[ids [J S]] _ A] Hd.
  destruct (journal_run_retained _ _ _ [] J ltac:(constructor) ltac:(constructor)) as [N0 R0].
  rewrite app_nil_r in N0, R0. unfold retained in R0.
  assert (Hin : ∀ q, q ∈ entries → request_id q ∈ ids).
  { intros q Hq. eapply elem_of_sublist; [|exact S]. apply list_elem_of_fmap. eauto. }
  split; [by eapply sublist_NoDup|].
  rewrite Forall_forall in A. rewrite Forall_forall in R0. apply Forall_forall. intros q Hq.
  split_and!; [by apply A| |by apply R0, Hin].
  intros Hrec. destruct (journal_run_retained _ _ _ [request_id q] J) as [N1 _].
  - apply NoDup_singleton.
  - apply Forall_singleton. split; [done|]. by rewrite <- Hd.
  - apply NoDup_app in N1 as (_ & N1 & _). apply (N1 _ (Hin _ Hq)). set_solver.
Qed.
Context (step : Sv → list Q → Sv → Prop).

Inductive server_steps : Sv → list Q → Sv → Prop :=
  | steps_done s : server_steps s [] s
  | steps_more s e1 s1 e2 s2 : step s e1 s1 → server_steps s1 e2 s2 → server_steps s (e1 ++ e2) s2.

Lemma steps_refine (invariant : Sv → Prop) s entries s' :
  (∀ s e s', invariant s → step s e s' → refines s e s' ∧ invariant s') →
  invariant s → server_steps s entries s' → refines s entries s' ∧ invariant s'.
Proof.
  intros Hstep Hi Hr. induction Hr as [s|s e1 s1 e2 s2 Hs Hr IH]; [by split; [apply refines_same|]|].
  destruct (Hstep _ _ _ Hi Hs) as [H1 Hi1]. destruct (IH Hi1) as [H2 Hi2]. split; [by eapply refines_trans|done].
Qed.

End Servers.
End Journal.
