(* ===== verification/OwnerDispatch.v ===== *)
(** * Owner dispatch: the target-side server and the authority-side executor

    [OwnerDispatchServer] and [RemoteOwnerDispatchExecutor] of
    crates/rusty-quest-media-stream-android/src/owner_dispatch.rs. Verifier,
    clock and admission answer anew in every call; the registry, the replay
    store and the transport are state. *)

From S2P Require Import Prelude RustStr UpdateAdmission MediaRuntime SignatureBase64 CleanupTicket OwnerEffect WireFrame OwnerWire DispatchJournal.

Local Open Scope N_scope.

Definition MAX_OWNER_DISPATCH_REQUEST_AGE_MS : N := 30000.
Definition MAX_OWNER_DISPATCH_FUTURE_SKEW_MS : N := 2000.

Abbreviation OwnerDispatchReplaySnapshot := (DispatchReplay OwnerDispatchResponse).

(** What the clock, the verifier and the admission callback answer during one call. *)
Record DispatchEnv := mkDispatchEnv {
  de_now_ms : result string N;
  de_authentication_validity_ms : result string N;
  de_verify_current : OwnerDispatchRequest → list N → list N → result string unit;
  de_admit_authenticated_effect : OwnerDispatchRequest → result string unit;
}.

(** [handle_frame]'s callback [|_| Ok(())]. *)
Definition admit_every (env : DispatchEnv) : DispatchEnv :=
  mkDispatchEnv (de_now_ms env) (de_authentication_validity_ms env) (de_verify_current env) (fun _ => Ok tt).

Class AuthenticatedOwnerRegistry (R : Type) := {
  owner_execute_and_verify : R → option OwnerDispatchAuthorityProjection → AndroidMediaExecutionTicket →
    AndroidMediaExecutionMode → R * result string AuthenticatedOwnerEffect;
}.

Record OwnerDispatchServer (R St : Type) := mkOwnerServer {
  os_target_peer_id : string;
  os_registry : R;
  os_replay : OwnerDispatchReplaySnapshot;
  os_replay_store : St;
}.
Arguments mkOwnerServer {R St} _ _ _ _.
Arguments os_target_peer_id {R St} _.
Arguments os_registry {R St} _.
Arguments os_replay {R St} _.
Arguments os_replay_store {R St} _.

(** How a call leaves its first half: with its answer, or with a durable marker
    and the registry still to be entered. *)
Inductive OwnerAdmission :=
  | OwnerAnswered (outcome : result string (list N))
  | OwnerEntered (request : OwnerDispatchRequest) (request_sha256 : string).

(** The freshness guard; the activation server adds the expiry. *)
Definition not_fresh (now_ms validity_ms issued_at_ms : N) : bool :=
  (validity_ms =? 0) || (now_ms =? 0) ||
  (saturating_add64 now_ms MAX_OWNER_DISPATCH_FUTURE_SKEW_MS <? issued_at_ms) ||
  (validity_ms <? saturating_sub now_ms issued_at_ms).

Section Server.
Context {RC : ReleaseCrypto} {CE : CleanupEncoding} {EE : EffectEncoding} {OE : OwnerDispatchEncoding}.
Context {DE : DispatchReplayEncoding OwnerDispatchResponse} {SG : OwnerDispatchSigner}.
Context {R St : Type} `{AuthenticatedOwnerRegistry R} `{DispatchReplayStore St OwnerDispatchResponse}.
Abbreviation server := (OwnerDispatchServer R St).

Definition set_owner_journal (s : server) (replay : OwnerDispatchReplaySnapshot) (store : St) : server :=
  mkOwnerServer (os_target_peer_id s) (os_registry s) replay store.

Definition owner_restore (target_peer_id : string) (registry : R) (replay : OwnerDispatchReplaySnapshot)
    (replay_store : St) : result string server :=
  fail_if (restore_rejects target_peer_id replay) "invalid dispatch replay state"%string ;;
  Ok (mkOwnerServer target_peer_id registry replay replay_store).

Definition owner_unsigned_response (dispatch_id request_sha256 : string) (status : OwnerDispatchStatus)
    (effect : option AuthenticatedOwnerEffect) (failure : option string) : OwnerDispatchResponse :=
  mkOwnerResponse OWNER_DISPATCH_RESPONSE_SCHEMA dispatch_id request_sha256 status effect failure
    signer_key_id EmptyString.

Definition owner_signed_response (dispatch_id request_sha256 : string) (status : OwnerDispatchStatus)
    (effect : option AuthenticatedOwnerEffect) (failure : option string) : result string (list N) :=
  let response := owner_unsigned_response dispatch_id request_sha256 status effect failure in
  bytes ← response_signing_bytes response;
  signature ← signer_sign bytes;
  encode_response_frame (set_owner_response_signature response (encode_signature_base64 signature)).

(** The tests between the replay lookups and the marker. *)
Definition verify_new_request (env : DispatchEnv) (request : OwnerDispatchRequest)
    (replay : OwnerDispatchReplaySnapshot) : result string unit :=
  target_now_ms ← de_now_ms env;
  validity ← de_authentication_validity_ms env;
  fail_if (not_fresh target_now_ms validity (odq_issued_at_ms request))
    "dispatch request is not currently fresh"%string ;;
  fail_if (replay_full replay) "dispatch replay capacity"%string ;;
  signing_bytes ← request_signing_bytes request;
  signature ← decode_signature_base64 (odq_signature_base64 request);
  de_verify_current env request signing_bytes signature ;;
  de_admit_authenticated_effect env request.

(** [handle_frame_with_admission] up to and including the pending commit. *)
Definition owner_admit (env : DispatchEnv) (frame : list N) (s : server) : server * OwnerAdmission :=
  if bool_decide (frame = []) || (MAX_OWNER_DISPATCH_FRAME_BYTES <? len frame)
  then (s, OwnerAnswered (Err "dispatch frame bounds"%string))
  else match
    request ← decode_request_frame frame;
    validate_request_shape request (os_target_peer_id s) ;;
    Ok request
  with
  | Err e => (s, OwnerAnswered (Err e))
  | Ok request =>
      let id := odq_dispatch_id request in
      let request_sha256 := sha256_prefixed frame in
      match dr_terminal (os_replay s) !! id with
      | Some cached =>
          (s, OwnerAnswered
            (if negb (ods_request_sha256 cached =? request_sha256)%string
             then Err "dispatch replay identity collision"%string else encode_response_frame cached))
      | None =>
          match dr_pending_request_sha256 (os_replay s) !! id with
          | Some pending =>
              (s, OwnerAnswered
                (if negb (pending =? request_sha256)%string then Err "dispatch replay identity collision"%string
                 else owner_signed_response id request_sha256 Uncertain None
                        (Some "pending_compensation_required"%string)))
          | None =>
              match verify_new_request env request (os_replay s) with
              | Err e => (s, OwnerAnswered (Err e))
              | Ok _ =>
                  let '(replay, store, committed) :=
                    commit_pending "dispatch pending persistence: " id request_sha256 (os_replay s)
                      (os_replay_store s) in
                  let s := set_owner_journal s replay store in
                  match committed with
                  | Err e => (s, OwnerAnswered (Err e))
                  | Ok _ => (s, OwnerEntered request request_sha256)
                  end
              end
          end
      end
  end.

(** The registry call. *)
Definition owner_enter (request : OwnerDispatchRequest) (s : server)
    : server * result string AuthenticatedOwnerEffect :=
  let '(registry, outcome) :=
    owner_execute_and_verify (os_registry s) (Some (odq_authority request)) (odq_ticket request) (odq_mode request) in
  (mkOwnerServer (os_target_peer_id s) registry (os_replay s) (os_replay_store s), outcome).

Definition owner_effect_status (request : OwnerDispatchRequest) (execution : result string AuthenticatedOwnerEffect)
    : OwnerDispatchStatus * option AuthenticatedOwnerEffect * option string :=
  match execution with
  | Ok effect =>
      if is_ok (validate_effect (odq_ticket request) (odq_mode request) effect)
      then (Completed, Some effect, None)
      else (Uncertain, None, Some "platform_evidence_invalid"%string)
  | Err _ => (Uncertain, None, Some "platform_effect_uncertain"%string)
  end.

(** The rest of the call. *)
Definition owner_finish (request : OwnerDispatchRequest) (request_sha256 : string)
    (execution : result string AuthenticatedOwnerEffect) (s : server) : server * result string (list N) :=
  let '(status, effect, failure) := owner_effect_status request execution in
  match
    encoded ← owner_signed_response (odq_dispatch_id request) request_sha256 status effect failure;
    response ← decode_response_frame encoded;
    Ok (encoded, response)
  with
  | Err e => (s, Err e)
  | Ok (encoded, response) =>
      let '(replay, store, committed) :=
        commit_terminal "dispatch replay byte capacity" (odq_dispatch_id request) response (os_replay s)
          (os_replay_store s) in
      let s := set_owner_journal s replay store in
      match committed with
      | Err e => (s, Err e)
      | Ok _ => (s, Ok encoded)
      end
  end.

Definition handle_frame_with_admission (env : DispatchEnv) (frame : list N) (s : server)
    : server * result string (list N) :=
  match owner_admit env frame s with
  | (s, OwnerAnswered outcome) => (s, outcome)
  | (s, OwnerEntered request request_sha256) =>
      let '(s, execution) := owner_enter request s in
      owner_finish request request_sha256 execution s
  end.

Definition handle_frame (env : DispatchEnv) (frame : list N) (s : server) : server * result string (list N) :=
  handle_frame_with_admission (admit_every env) frame s.
End Server.

(** ** The executor *)

Class OwnerDispatchTransport (Tr : Type) := {
  exchange : Tr → list N → N → Tr * result string (list N);
}.

Section Executor.
Context {RC : ReleaseCrypto} {CE : CleanupEncoding} {EE : EffectEncoding} {OE : OwnerDispatchEncoding}.
Context {SG : OwnerDispatchSigner} {Tr : Type} `{OwnerDispatchTransport Tr}.

Record RemoteOwnerDispatchExecutor := mkExecutor {
  rx_transport : Tr;
  rx_executor_key : VerifyingKey;
  rx_executor_key_id : string;
  rx_next_sequence : N;
}.

Definition executor_new (transport : Tr) (executor_key : list N) (executor_key_id : string)
    : result string RemoteOwnerDispatchExecutor :=
  fail_if (str_is_empty executor_key_id) "empty executor key id"%string ;;
  key ← ok_or (vk_from_bytes executor_key) "invalid executor public key"%string;
  Ok (mkExecutor transport key executor_key_id 1).

Definition prepare_request (x : RemoteOwnerDispatchExecutor) (target_peer_id : string)
    (authority : OwnerDispatchAuthorityProjection) (ticket : AndroidMediaExecutionTicket)
    (mode : AndroidMediaExecutionMode) (now_ms : N)
    : RemoteOwnerDispatchExecutor * result string OwnerDispatchRequest :=
  let sequence := rx_next_sequence x in
  match checked_add64 sequence 1 with
  | None => (x, Err "dispatch sequence exhausted"%string)
  | Some next =>
      let request := mkOwnerRequest OWNER_DISPATCH_REQUEST_SCHEMA
        ("dispatch." ++ tk_action_id ticket ++ "." ++ fmt_decimal sequence) sequence now_ms target_peer_id
        authority ticket mode signer_key_id EmptyString in
      (mkExecutor (rx_transport x) (rx_executor_key x) (rx_executor_key_id x) next,
       signing_bytes ← request_signing_bytes request;
       signature ← signer_sign signing_bytes;
       Ok (set_owner_request_signature request (encode_signature_base64 signature)))
  end.

(** [execute_prepared] after the exchange. *)
Definition accept_response (x : RemoteOwnerDispatchExecutor) (request : OwnerDispatchRequest)
    (frame response_frame : list N) : result string AuthenticatedOwnerEffect :=
  response ← decode_response_frame response_frame;
  fail_if
    (negb (ods_schema_id response =? OWNER_DISPATCH_RESPONSE_SCHEMA)%string ||
     negb (ods_dispatch_id response =? odq_dispatch_id request)%string ||
     negb (ods_request_sha256 response =? sha256_prefixed frame)%string ||
     negb (ods_signer_key_id response =? rx_executor_key_id x)%string)
    "dispatch response binding mismatch"%string ;;
  signature ← decode_signature_base64 (ods_signature_base64 response);
  signing_bytes ← response_signing_bytes response;
  fail_if (negb (verify_strict (rx_executor_key x) signing_bytes signature))
    "dispatch response signature"%string ;;
  match ods_status response, ods_effect response with
  | Completed, Some effect =>
      validate_effect (odq_ticket request) (odq_mode request) effect ;;
      Ok effect
  | Uncertain, _ => Err "remote platform effect uncertain"%string
  | _, _ => Err "remote owner dispatch rejected"%string
  end.

Definition execute_prepared (x : RemoteOwnerDispatchExecutor) (request : OwnerDispatchRequest)
    : RemoteOwnerDispatchExecutor * result string AuthenticatedOwnerEffect :=
  match encode_request_frame request with
  | Err e => (x, Err e)
  | Ok frame =>
      let '(transport, exchanged) := exchange (rx_transport x) frame MAX_OWNER_DISPATCH_FRAME_BYTES in
      (mkExecutor transport (rx_executor_key x) (rx_executor_key_id x) (rx_next_sequence x),
       response_frame ← exchanged; accept_response x request frame response_frame)
  end.

Definition executor_execute (x : RemoteOwnerDispatchExecutor) (target_peer_id : string)
    (authority : OwnerDispatchAuthorityProjection) (ticket : AndroidMediaExecutionTicket)
    (mode : AndroidMediaExecutionMode) (now_ms : N)
    : RemoteOwnerDispatchExecutor * result string AuthenticatedOwnerEffect :=
  match prepare_request x target_peer_id authority ticket mode now_ms with
  | (x, Err e) => (x, Err e)
  | (x, Ok request) => execute_prepared x request
  end.
End Executor.
