(* ===== verification/OwnerTheorems.v ===== *)
(** * Owner dispatch: what the server and the executor guarantee

    Runs of [OwnerDispatchServer] with crashes and restarts refine runs of the
    replay journal; a signed response reads back and verifies at the executor;
    a repeated frame is answered with the same bytes. *)

From S2P Require Import Prelude RustStr UpdateAdmission MediaRuntime SignatureBase64 CleanupTicket OwnerEffect WireFrame JsonValue OwnerWire DispatchJournal OwnerDispatch.

Local Open Scope N_scope.

Section Runs.
Context {RC : ReleaseCrypto} {CE : CleanupEncoding} {EE : EffectEncoding} {OE : OwnerDispatchEncoding}.
Context {DE : DispatchReplayEncoding OwnerDispatchResponse} {SG : OwnerDispatchSigner}.
Context {R St : Type} `{AuthenticatedOwnerRegistry R} `{DispatchReplayStore St OwnerDispatchResponse}.
Context {SL : DispatchStoreLaws St OwnerDispatchResponse}.
Abbreviation server := (OwnerDispatchServer R St).
Implicit Types s : server.
Implicit Types registry : R.

(** The process restarts and reads the journal back. *)
Definition owner_reload (s : server) : server :=
  set_owner_journal s (dispatch_durable (os_replay_store s)) (os_replay_store s).

Definition entered_requests (admission : OwnerAdmission) : list OwnerDispatchRequest :=
  match admission with OwnerAnswered _ => [] | OwnerEntered request _ => [request] end.

(** The registry after one request. *)
Definition enter_one (registry : R) (q : OwnerDispatchRequest) : R :=
  (owner_execute_and_verify registry (Some (odq_authority q)) (odq_ticket q) (odq_mode q)).1.

(** A call, a death before, during or after the registry call, or a restart,
    with the requests that entered the registry. *)
Inductive owner_step : server → list OwnerDispatchRequest → server → Prop :=
  | ow_handle env frame s s' outcome :
      handle_frame_with_admission env frame s = (s', outcome) →
      owner_step s (entered_requests (owner_admit env frame s).2) s'
  | ow_crash_reserved env frame s s' request sha :
      owner_admit env frame s = (s', OwnerEntered request sha) → owner_step s [] (owner_reload s')
  | ow_crash_entered env frame s s' request sha :
      owner_admit env frame s = (s', OwnerEntered request sha) →
      owner_step s [request] (owner_reload (owner_enter request s').1)
  | ow_restart s : owner_step s [] (owner_reload s).

(** A request that was decoded from a frame, bound to this peer, fresh, verified
    over its signing input, and admitted. *)
Definition owner_authorized (peer : string) (request : OwnerDispatchRequest) : Prop :=
  ∃ env frame replay, decode_request_frame frame = Ok request ∧
    validate_request_shape request peer = Ok tt ∧ verify_new_request env request replay = Ok tt.

Lemma owner_admit_spec env frame s s' a :
  owner_admit env frame s = (s', a) →
  (s' = s ∧ ∃ o, a = OwnerAnswered o) ∨
  ∃ request replay store committed,
    decode_request_frame frame = Ok request ∧ validate_request_shape request (os_target_peer_id s) = Ok tt ∧
    verify_new_request env request (os_replay s) = Ok tt ∧ ¬ recorded (os_replay s) (odq_dispatch_id request) ∧
    commit_pending "dispatch pending persistence: " (odq_dispatch_id request) (sha256_prefixed frame)
      (os_replay s) (os_replay_store s) = (replay, store, committed) ∧
    s' = set_owner_journal s replay store ∧
    a = match committed with Err e => OwnerAnswered (Err e) | Ok _ => OwnerEntered request (sha256_prefixed frame) end.
Proof.
  unfold owner_admit. destruct (_ || _); [intros [= <- <-]; eauto|].
  destruct (mbind _ _) as [request|] eqn:E; [|intros [= <- <-]; eauto].
  apply bind_ok in E as (request' & Ed & E). apply then_ok in E as [Es [= ->]].
  destruct (dr_terminal (os_replay s) !! odq_dispatch_id request) eqn:Et; [intros [= <- <-]; eauto|].
  destruct (dr_pending_request_sha256 (os_replay s) !! odq_dispatch_id request) eqn:Ep; [intros [= <- <-]; eauto|].
  destruct (verify_new_request env request (os_replay s)) as [[]|] eqn:Ev; [|intros [= <- <-]; eauto].
  destruct (commit_pending _ _ _ _ _) as [[replay store] committed] eqn:Ec. intros Ha. right.
  exists request, replay, store, committed. split_and!; try done.
  - intros [[? E]|[? E]]; congruence.
  - by destruct committed; injection Ha as <- <-.
  - by destruct committed; injection Ha as <- <-.
Qed.

Lemma owner_finish_spec request sha execution s s' r :
  owner_finish request sha execution s = (s', r) →
  s' = s ∨ ∃ response replay store committed,
    commit_terminal "dispatch replay byte capacity" (odq_dispatch_id request) response (os_replay s)
      (os_replay_store s) = (replay, store, committed) ∧ s' = set_owner_journal s replay store.
Proof.
  unfold owner_finish. destruct (owner_effect_status request execution) as [[status effect] failure].
  destruct (mbind _ _) as [[encoded response]|]; [|intros [= <- _]; auto].
  destruct (commit_terminal _ _ _ _ _) as [[replay store] committed] eqn:E.
  intros Hf. right. exists response, replay, store, committed. split; [done|]. by destruct committed; injection Hf.
Qed.

Definition journal (s : server) : OwnerDispatchReplaySnapshot * St := (os_replay s, os_replay_store s).

Lemma owner_enter_journal request s :
  journal (owner_enter request s).1 = journal s ∧
  os_target_peer_id (owner_enter request s).1 = os_target_peer_id s ∧
  os_registry (owner_enter request s).1 = enter_one (os_registry s) request.
Proof. unfold owner_enter. unfold enter_one. by destruct (owner_execute_and_verify _ _ _ _). Qed.

Definition owner_refines (peer : string) : server → list OwnerDispatchRequest → server → Prop :=
  refines journal odq_dispatch_id os_registry enter_one (owner_authorized peer).

Definition owner_run : server → list OwnerDispatchRequest → server → Prop := server_steps owner_step.

(** Reserved, and reserved and entered. *)
Lemma reserve_refines env frame s s' request sha :
  owner_admit env frame s = (s', OwnerEntered request sha) →
  owner_refines (os_target_peer_id s) s [] s' ∧
  owner_refines (os_target_peer_id s) s [request] (owner_enter request s').1 ∧
  os_target_peer_id s' = os_target_peer_id s ∧ recorded (os_replay s') (odq_dispatch_id request).
Proof.
  intros [[_ [o [=]]]|(req & replay & store & committed & Ed & Es & Ev & Hn & Ec & -> & Ha)]%owner_admit_spec.
  destruct committed as [[]|]; [|done]. injection Ha as <- ->.
  assert (Hj : journal_run (journal s) [odq_dispatch_id request] (journal (set_owner_journal s replay store))).
  { apply journal_run_one. exact (js_reserve _ _ _ _ _ _ _ _ Hn Ec). }
  destruct (owner_enter_journal request (set_owner_journal s replay store)) as (E1 & E2 & E3). split_and!.
  - by eapply refines_silent.
  - split; try done; [|by repeat econstructor]. exists [odq_dispatch_id request]. by rewrite E1.
  - done.
  - apply commit_pending_spec in Ec as [-> _]; [|done]. left. cbn. rewrite lookup_insert_eq. eauto.
Qed.

Lemma owner_step_refines s entries s' :
  owner_step s entries s' →
  owner_refines (os_target_peer_id s) s entries s' ∧ os_target_peer_id s' = os_target_peer_id s.
Proof.
  intros [env frame s0 s1 outcome E|env frame s0 s1 request sha E|env frame s0 s1 request sha E|s0].
  - unfold handle_frame_with_admission in E. destruct (owner_admit env frame s0) as [s2 [o|request sha]] eqn:Ea.
    + injection E as <- _. cbn.
      apply owner_admit_spec in Ea as [[-> _]|(req & replay & store & committed & _ & _ & _ & Hn & Ec & -> & Ha)].
      * split; [by apply refines_same|done].
      * destruct committed as [|e]; [done|]. split; [|done]. eapply refines_silent; [|done].
        apply journal_run_one. exact (js_reserve _ _ _ _ _ _ _ _ Hn Ec).
    + cbn. destruct (reserve_refines _ _ _ _ _ _ Ea) as (_ & Hr & Hp & Hk).
      destruct (owner_enter_journal request s2) as (E1 & E2 & _).
      destruct (owner_enter request s2) as [s3 execution]. cbn [fst] in Hr, E1, E2.
      apply owner_finish_spec in E as [->|(response & replay & store & committed & Ec & ->)];
        [split; [done|congruence]|]. split; [|cbn; congruence].
      eapply refines_then; [exact Hr|]. eapply refines_silent; [|done]. apply journal_run_one.
      injection E1 as E1 _. eapply js_finish; [|exact Ec]. by rewrite E1.
  - destruct (reserve_refines _ _ _ _ _ _ E) as (Hr & _ & Hp & _). split; [|done].
    eapply refines_then; [exact Hr|]. by apply refines_reload.
  - destruct (reserve_refines _ _ _ _ _ _ E) as (_ & Hr & Hp & _). split.
    + eapply refines_then; [exact Hr|]. by apply refines_reload.
    + destruct (owner_enter_journal request s1) as (_ & E2 & _). cbn. congruence.
  - split; [by apply refines_reload|done].
Qed.

(** ** Bounds over runs *)

(** Memory and disk keep the counts and the separation that [restore] asks for. *)
Definition owner_bounded (s : server) : Prop :=
  bounded (os_replay s) ∧ bounded (dispatch_durable (os_replay_store s)).

Lemma verify_not_full env request replay : verify_new_request env request replay = Ok tt → replay_full replay = false.
Proof.
  unfold verify_new_request. intros E. apply bind_ok in E as (now & _ & E). apply bind_ok in E as (validity & _ & E).
  apply fail_if_bind_ok in E as [_ E]. by apply fail_if_bind_ok in E as [? _].
Qed.

Lemma owner_admit_bounded env frame s s' a :
  owner_bounded s → owner_admit env frame s = (s', a) → owner_bounded s' ∧
  ∀ request sha, a = OwnerEntered request sha →
    is_Some (dr_pending_request_sha256 (os_replay s') !! odq_dispatch_id request) ∧
    N.of_nat (size (dr_terminal (os_replay s'))) < MAX_OWNER_DISPATCH_REPLAYS.
Proof.
  intros [B1 B2]
    [[-> [o ->]]|(req & replay & store & committed & Ed & Es & Ev & Hn & Ec & -> & ->)]%owner_admit_spec; [done|].
  pose proof (verify_not_full _ _ _ Ev) as Hf.
  pose proof (bounded_marked _ (sha256_prefixed frame) _ B1 Hf Hn) as Hm.
  apply commit_pending_spec in Ec; [|done]. destruct committed as [[]|e].
  - destruct Ec as [-> Ed']. split; [split; cbn; by rewrite ?Ed'|]. intros request sha [= <- <-].
    cbn. rewrite lookup_insert_eq. split; [eauto|]. unfold replay_full in Hf. by bool_to_prop.
  - destruct Ec as [-> [Ed'|Ed']]; (split; [split; cbn; by rewrite ?Ed'|done]).
Qed.

Lemma owner_step_bounded s entries s' : owner_step s entries s' → owner_bounded s → owner_bounded s'.
Proof.
  intros [env frame s0 s1 outcome E|env frame s0 s1 request sha E|env frame s0 s1 request sha E|s0] B.
  - unfold handle_frame_with_admission in E. destruct (owner_admit env frame s0) as [s2 [o|request sha]] eqn:Ea;
      destruct (owner_admit_bounded _ _ _ _ _ B Ea) as [B2 H2]; [by injection E as <- _|].
    destruct (H2 _ _ eq_refl) as [Hp Hs]. destruct (owner_enter_journal request s2) as [E1 _].
    destruct (owner_enter request s2) as [s3 execution]. injection E1 as E1 E2.
    assert (B3 : owner_bounded s3) by (unfold owner_bounded in *; by rewrite E1, E2).
    apply owner_finish_spec in E as [->|(response & replay & store & committed & Ec & ->)]; [done|].
    rewrite E1, E2 in Ec. destruct B2 as [B4 B5].
    pose proof (bounded_terminal _ response _ B4 Hs Hp) as Ht. apply commit_terminal_spec in Ec.
    destruct committed as [[]|e]; [destruct Ec as (-> & Ed & _)|destruct Ec as (-> & [Ed|Ed])];
      split; cbn; by rewrite ?Ed.
  - destruct (owner_admit_bounded _ _ _ _ _ B E) as [[_ B2] _]. by split.
  - destruct (owner_admit_bounded _ _ _ _ _ B E) as [[_ B2] _]. destruct (owner_enter_journal request s1) as [E1 _].
    injection E1 as E1 E2. split; cbn; by rewrite E2.
  - by destruct B; split.
Qed.

Lemma owner_run_refines s entries s' :
  owner_bounded s → owner_run s entries s' →
  owner_refines (os_target_peer_id s) s entries s' ∧ owner_bounded s'.
Proof.
  intros B Hr. set (peer := os_target_peer_id s).
  destruct (steps_refine journal odq_dispatch_id os_registry enter_one (owner_authorized peer) owner_step
    (fun s => os_target_peer_id s = peer ∧ owner_bounded s) s entries s') as [H1 [_ H2]]; [|done|done|done].
  intros t e t' [Hp Hb] Hs. pose proof (owner_step_bounded _ _ _ Hs Hb).
  apply owner_step_refines in Hs as [Hs Hp']. rewrite Hp in Hs, Hp'. done.
Qed.

(** ** The guarantees of a run *)

Lemma owner_run_promise peer registry store s0 entries s :
  owner_restore peer registry (dispatch_durable store) store = Ok s0 → owner_run s0 entries s →
  NoDup (odq_dispatch_id <$> entries) ∧
  Forall (fun q => owner_authorized peer q ∧ ¬ recorded (dispatch_durable store) (odq_dispatch_id q) ∧
    recorded (dispatch_durable (os_replay_store s)) (odq_dispatch_id q)) entries ∧
  os_registry s = foldl enter_one registry entries ∧
  (is_ok (owner_restore peer (os_registry s) (dispatch_durable (os_replay_store s)) (os_replay_store s)) =
     negb (replay_too_long (dispatch_durable (os_replay_store s)))).
Proof.
  unfold owner_restore at 1. rewrite fail_if_bind_ok. intros [Hr [= <-]] Hrun.
  apply restore_rejects_false in Hr as (Hpeer & Hb & _).
  apply owner_run_refines in Hrun as [Hr [_ Hd]]; [|by split]. cbn in Hr.
  pose proof (rf_registry _ _ _ _ _ _ _ _ Hr) as Hg. cbn in Hg.
  destruct (refines_promise journal odq_dispatch_id os_registry enter_one (owner_authorized peer) _ _ _ Hr eq_refl)
    as [H1 H2]. split_and!; [done..|].
  - unfold owner_restore. destruct (replay_too_long _) eqn:L; cbn.
    + destruct (restore_rejects peer _) eqn:Hj; [done|]. apply restore_rejects_false in Hj as (_ & _ & Hj). congruence.
    + assert (restore_rejects peer (dispatch_durable (os_replay_store s)) = false) as ->; [|done].
      by apply restore_rejects_false.
Qed.

(** A pending marker is committed without a look at its encoded length: the
    state it leaves on disk is one that [restore] refuses, whatever the effect
    does, when the marker does not fit. *)
Lemma owner_marker_unrestorable env frame s s' request sha peer registry :
  owner_admit env frame s = (s', OwnerEntered request sha) →
  replay_too_long (mkDispatchReplay
    (<[odq_dispatch_id request := sha]> (dr_pending_request_sha256 (os_replay s))) (dr_terminal (os_replay s))) = true →
  owner_restore peer registry (dispatch_durable (os_replay_store s')) (os_replay_store s') =
    Err "invalid dispatch replay state"%string.
Proof.
  intros [[_ [o [=]]]|(req & replay & store & committed & _ & _ & _ & Hn & Ec & -> & Ha)]%owner_admit_spec Hl.
  destruct committed as [[]|]; [|done]. injection Ha as <- ->.
  apply commit_pending_spec in Ec as [_ Ed]; [|done]. unfold owner_restore. cbn. rewrite Ed.
  destruct (restore_rejects peer _) eqn:Hr; [done|]. apply restore_rejects_false in Hr as (_ & _ & Hr). congruence.
Qed.
End Runs.

(** ** Responses *)

(** The JSON text of a returned readback is a Rust [String]. *)
Class OwnerRegistryLaws (R : Type) `{AuthenticatedOwnerRegistry R} : Prop := {
  registry_text r authority ticket mode r' effect :
    owner_execute_and_verify r authority ticket mode = (r', Ok effect) → is_utf8 (aoe_readback_json effect);
}.

Section Responses.
Context {RC : ReleaseCrypto} {CE : CleanupEncoding} {EE : EffectEncoding} {OE : OwnerDispatchEncoding}.
Context {OL : OwnerDispatchEncodingLaws} {SG : OwnerDispatchSigner}.

Lemma validate_effect_readback ticket mode effect :
  validate_effect ticket mode effect = Ok tt →
  readback_from_str (aoe_readback_json effect) = Some (aoe_readback effect).
Proof.
  unfold validate_effect. cbn [validate_effect_fuel]. unfold validate_effect_with. intros E.
  apply ok_or_bind_ok in E as (parsed & Ep & E). rewrite fail_if_ok in E. bool_to_prop. congruence.
Qed.

(** What a registry outcome tells the executor. *)
Definition effect_verdict (request : OwnerDispatchRequest) (execution : result string AuthenticatedOwnerEffect)
    : result string AuthenticatedOwnerEffect :=
  match execution with
  | Ok effect =>
      if is_ok (validate_effect (odq_ticket request) (odq_mode request) effect) then Ok effect
      else Err "remote platform effect uncertain"%string
  | Err _ => Err "remote platform effect uncertain"%string
  end.

(** The response to an outcome can be read back from its frame. *)
Lemma effect_status_readable request execution status effect failure id sha text :
  (∀ e, execution = Ok e → is_utf8 (aoe_readback_json e)) →
  owner_effect_status request execution = (status, effect, failure) →
  response_readable (set_owner_response_signature (owner_unsigned_response id sha status effect failure) text).
Proof.
  intros Hutf E e He. cbn in He. subst effect. unfold owner_effect_status in E.
  destruct execution as [e'|]; [|done]. destruct (is_ok _) eqn:V; [|done]. injection E as <- -> <-.
  split; [|by apply Hutf]. apply is_ok_true in V as [[] V]. by eapply validate_effect_readback.
Qed.

Lemma owner_signed_response_inv id sha status effect failure bytes :
  owner_signed_response id sha status effect failure = Ok bytes →
  ∃ signing signature, response_signing_bytes (owner_unsigned_response id sha status effect failure) = Ok signing ∧
    signer_sign signing = Ok signature ∧
    encode_response_frame (set_owner_response_signature (owner_unsigned_response id sha status effect failure)
      (encode_signature_base64 signature)) = Ok bytes.
Proof.
  unfold owner_signed_response. intros E. apply bind_ok in E as (signing & E1 & E).
  apply bind_ok in E as (signature & E2 & E3). eauto.
Qed.

(** The executor's verdict on a signed response is the verdict on the outcome. *)
Lemma accept_signed_response {Tr : Type} (x : RemoteOwnerDispatchExecutor (Tr := Tr)) public request frame execution
    status effect failure bytes :
  SignerLaws public → vk_from_bytes public = Some (rx_executor_key x) → rx_executor_key_id x = signer_key_id →
  (∀ e, execution = Ok e → is_utf8 (aoe_readback_json e)) →
  owner_effect_status request execution = (status, effect, failure) →
  owner_signed_response (odq_dispatch_id request) (sha256_prefixed frame) status effect failure = Ok bytes →
  accept_response x request frame bytes = effect_verdict request execution.
Proof.
  intros HS Hkey Hid Hutf Est (signing & signature & Eb & Es & Ef)%owner_signed_response_inv.
  pose proof (effect_status_readable _ _ _ _ _ (odq_dispatch_id request) (sha256_prefixed frame)
    (encode_signature_base64 signature) Hutf Est) as Hread.
  unfold accept_response. rewrite (response_frame_roundtrip _ _ Hread Ef). cbn [mbind result_bind].
  apply signer_signature in Es as (L & U & key & Ek & Hk). rewrite Hkey in Ek. injection Ek as <-.
  rewrite (response_signing_signature _ (encode_signature_base64 signature) _ Eb). cbn -[validate_effect]. rewrite Hid, !String.eqb_refl.
  assert (decode_signature_base64 (encode_signature_base64 signature) = Ok signature) as ->
    by by apply decode_signature_iff.
  cbn -[validate_effect]. rewrite Hk. cbn -[validate_effect]. unfold effect_verdict, owner_effect_status in *.
  destruct execution as [e|]; [|by injection Est as <- <- <-].
  destruct (is_ok _) eqn:V; injection Est as <- <- <-; [|done]. apply is_ok_true in V as [[] V]. by rewrite V.
Qed.

Context {DE : DispatchReplayEncoding OwnerDispatchResponse}.
Context {R St : Type} `{AuthenticatedOwnerRegistry R} `{DispatchReplayStore St OwnerDispatchResponse}.
Context {RL : OwnerRegistryLaws R}.
Implicit Types s : OwnerDispatchServer R St.

(** ** An answered frame stays answered *)

(** A successful first call leaves the response it returned in memory. *)
Lemma owner_finish_stored request sha execution s s' bytes :
  (∀ e, execution = Ok e → is_utf8 (aoe_readback_json e)) →
  owner_finish request sha execution s = (s', Ok bytes) →
  ∃ response, dr_terminal (os_replay s') !! odq_dispatch_id request = Some response ∧
    ods_request_sha256 response = sha ∧ encode_response_frame response = Ok bytes ∧
    os_target_peer_id s' = os_target_peer_id s.
Proof.
  intros Hutf. unfold owner_finish.
  destruct (owner_effect_status request execution) as [[status effect] failure] eqn:Est.
  destruct (mbind _ _) as [[encoded response]|] eqn:E; [|done].
  apply bind_ok in E as (encoded' & Es & E). apply bind_ok in E as (response' & Er & [= -> ->]).
  apply owner_signed_response_inv in Es as (signing & signature & _ & _ & Ef).
  pose proof (effect_status_readable _ _ _ _ _ (odq_dispatch_id request) sha
    (encode_signature_base64 signature) Hutf Est) as Hread.
  rewrite (response_frame_roundtrip _ _ Hread Ef) in Er. injection Er as <-.
  unfold commit_terminal. destruct (replay_too_long _); [done|].
  destruct (dispatch_commit _ _) as [store [[]|]]; [|done]. intros [= <- <-]. cbn. rewrite lookup_insert_eq.
  eexists. split_and!; [done| |exact Ef|done]. done.
Qed.

(** A frame that was answered is answered with the same bytes from then on, the
    registry is not entered and nothing changes, whatever clock, verifier and
    admission say. *)
Lemma owner_replay_identical env frame s s' bytes :
  handle_frame_with_admission env frame s = (s', Ok bytes) →
  ∀ env', handle_frame_with_admission env' frame s' = (s', Ok bytes).
Proof.
  intros E env'. unfold handle_frame_with_admission in E.
  destruct (owner_admit env frame s) as [s1 [o|request sha]] eqn:Ea.
  - injection E as -> ->. unfold handle_frame_with_admission, owner_admit in *.
    destruct (_ || _); [by injection Ea as <- E'|].
    destruct (mbind _ _) as [request|] eqn:E; [|done].
    destruct (dr_terminal (os_replay s) !! _) eqn:Et; [injection Ea as <- Ha; rewrite E, Et; by rewrite Ha|].
    destruct (dr_pending_request_sha256 (os_replay s) !! _) eqn:Ep; [injection Ea as <- Ha; rewrite E, Et, Ep; by rewrite Ha|].
    destruct (verify_new_request _ _ _); [|done]. by destruct (commit_pending _ _ _ _ _) as [[? ?] []].
  - destruct (owner_execute_and_verify (os_registry s1) (Some (odq_authority request)) (odq_ticket request)
      (odq_mode request)) as [registry execution] eqn:Ex.
    unfold owner_enter in E. rewrite Ex in E. pose proof Ea as Ea'.
    apply owner_admit_spec in Ea' as [[_ [o [=]]]|(req & replay & store & committed & Ed & Es & _ & _ & _ & -> & Ha)].
    destruct committed as [[]|]; [|done]. injection Ha as <- ->.
    apply owner_finish_stored in E as (response & Et & Hsha & Ef & Hp).
    2:{ intros e ->. by eapply registry_text. }
    cbn in Hp. unfold handle_frame_with_admission, owner_admit. unfold owner_admit in Ea.
    destruct (_ || _); [done|]. rewrite Ed. cbn [mbind result_bind]. rewrite Hp, Es. cbn [mbind result_bind].
    rewrite Et, Hsha, String.eqb_refl, Ef. done.
Qed.

(** ** The round trip through the server *)

Definition first_sight s (id : string) : Prop := ¬ recorded (os_replay s) id.

Lemma owner_dispatch_roundtrip {Tr : Type} (x : RemoteOwnerDispatchExecutor (Tr := Tr)) public env request frame s s' bytes :
  SignerLaws public → vk_from_bytes public = Some (rx_executor_key x) → rx_executor_key_id x = signer_key_id →
  encode_request_frame request = Ok frame → first_sight s (odq_dispatch_id request) →
  handle_frame_with_admission env frame s = (s', Ok bytes) →
  accept_response x request frame bytes =
    effect_verdict request (owner_execute_and_verify (os_registry s) (Some (odq_authority request))
      (odq_ticket request) (odq_mode request)).2.
Proof.
  intros HS Hkey Hid Hf Hn E. pose proof (request_frame_roundtrip _ _ Hf) as Hdec.
  unfold handle_frame_with_admission in E. destruct (owner_admit env frame s) as [s1 [o|q sha]] eqn:Ea.
  - injection E as -> ->. unfold owner_admit in Ea. destruct (_ || _); [by injection Ea as <- E'|].
    rewrite Hdec in Ea. cbn [mbind result_bind] in Ea. destruct (validate_request_shape _ _); [|done].
    cbn [mbind result_bind] in Ea. unfold first_sight, recorded in Hn.
    destruct (dr_terminal (os_replay s) !! _); [destruct Hn; eauto|].
    destruct (dr_pending_request_sha256 (os_replay s) !! _); [destruct Hn; eauto|].
    destruct (verify_new_request _ _ _); [|done]. by destruct (commit_pending _ _ _ _ _) as [[? ?] []].
  - apply owner_admit_spec in Ea as [[_ [o [=]]]|(req & replay & store & committed & Ed & _ & _ & _ & _ & -> & Ha)].
    destruct committed as [[]|]; [|done]. injection Ha as <- ->. rewrite Hdec in Ed. injection Ed as <-.
    unfold owner_enter in E. cbn in E.
    destruct (owner_execute_and_verify _ _ _ _) as [registry execution] eqn:Ex. cbn.
    unfold owner_finish in E. destruct (owner_effect_status request execution) as [[status effect] failure] eqn:Est.
    destruct (mbind _ _) as [[encoded response]|] eqn:Eb; [|done].
    apply bind_ok in Eb as (encoded' & Es & Eb). apply bind_ok in Eb as (response' & _ & [= -> ->]).
    assert (encoded = bytes) as -> by (destruct (commit_terminal _ _ _ _ _) as [[? ?] [[]|]]; congruence).
    eapply accept_signed_response; try done. intros e ->. by eapply registry_text.
Qed.
End Responses.
