(* ===== verification/ProductActivation.v ===== *)
(** * Product activation: the target-side server

    [ProductActivationServer] of
    crates/rusty-quest-media-stream-android/src/owner_dispatch.rs: the durable
    barrier between a completed product start and the staged receiver graph. *)

From S2P Require Import Prelude RustStr UpdateAdmission MediaRuntime SignatureBase64 CleanupTicket OwnerEffect WireFrame JsonValue OwnerWire DispatchJournal OwnerDispatch.

Local Open Scope N_scope.

Abbreviation ProductActivationReplaySnapshot := (DispatchReplay ProductActivationResponse).

(** What the clock and the verifier answer during one call. *)
Record ActivationEnv := mkActivationEnv {
  ae_now_ms : result string N;
  ae_authentication_validity_ms : result string N;
  ae_verify_activation : ProductActivationRequest → list N → list N → result string unit;
}.

Class ProductActivationRegistry (R : Type) := {
  activate : R → string → OwnerDispatchAuthorityProjection → ProductActivationProof →
    R * result string ProductActivationReadback;
}.

Record ProductActivationServer (R St : Type) := mkActivationServer {
  as_target_peer_id : string;
  as_registry : R;
  as_replay : ProductActivationReplaySnapshot;
  as_store : St;
}.
Arguments mkActivationServer {R St} _ _ _ _.
Arguments as_target_peer_id {R St} _.
Arguments as_registry {R St} _.
Arguments as_replay {R St} _.
Arguments as_store {R St} _.

Inductive ActivationAdmission :=
  | ActivationAnswered (outcome : result string (list N))
  | ActivationEntered (request : ProductActivationRequest) (request_sha256 : string).

Section Server.
Context {RC : ReleaseCrypto} {OE : OwnerDispatchEncoding} {DE : DispatchReplayEncoding ProductActivationResponse}.
Context {SG : OwnerDispatchSigner} {R St : Type}.
Context `{ProductActivationRegistry R} `{DispatchReplayStore St ProductActivationResponse}.
Abbreviation server := (ProductActivationServer R St).

Definition set_activation_journal (s : server) (replay : ProductActivationReplaySnapshot) (store : St) : server :=
  mkActivationServer (as_target_peer_id s) (as_registry s) replay store.

Definition activation_restore (target_peer_id : string) (registry : R) (replay : ProductActivationReplaySnapshot)
    (store : St) : result string server :=
  fail_if (restore_rejects target_peer_id replay) "invalid activation replay state"%string ;;
  Ok (mkActivationServer target_peer_id registry replay store).

Definition activation_unsigned_response (activation_id request_sha256 : string) (status : OwnerDispatchStatus)
    (readback : option ProductActivationReadback) (failure : option string) : ProductActivationResponse :=
  mkActivationResponse PRODUCT_ACTIVATION_RESPONSE_SCHEMA activation_id request_sha256 status readback failure
    signer_key_id EmptyString.

Definition activation_signed_response (activation_id request_sha256 : string) (status : OwnerDispatchStatus)
    (readback : option ProductActivationReadback) (failure : option string) : result string (list N) :=
  let response := activation_unsigned_response activation_id request_sha256 status readback failure in
  signing ← product_activation_response_signing_bytes response;
  signature ← signer_sign signing;
  encode_product_activation_response (set_activation_response_signature response (encode_signature_base64 signature)).

(** The signed response is decoded, put in the place of the marker and committed. *)
Definition commit_response (activation_id request_sha256 : string) (status : OwnerDispatchStatus)
    (readback : option ProductActivationReadback) (failure : option string) (s : server)
    : server * result string (list N) :=
  match
    encoded ← activation_signed_response activation_id request_sha256 status readback failure;
    response ← decode_product_activation_response encoded;
    Ok (encoded, response)
  with
  | Err e => (s, Err e)
  | Ok (encoded, response) =>
      let '(replay, store, committed) :=
        commit_terminal "activation replay byte capacity" activation_id response (as_replay s) (as_store s) in
      let s := set_activation_journal s replay store in
      match committed with
      | Err e => (s, Err e)
      | Ok _ => (s, Ok encoded)
      end
  end.

Definition terminalize_pending (activation_id request_sha256 : string) (s : server)
    : server * result string (list N) :=
  commit_response activation_id request_sha256 Uncertain None (Some "activation_state_uncertain"%string) s.

(** The tests between the replay lookups and the marker. *)
Definition verify_new_activation (env : ActivationEnv) (request : ProductActivationRequest)
    (replay : ProductActivationReplaySnapshot) : result string unit :=
  now_ms ← ae_now_ms env;
  validity ← ae_authentication_validity_ms env;
  fail_if (not_fresh now_ms validity (paq_issued_at_ms request) || (paq_expires_at_ms request <=? now_ms))
    "activation request is not current"%string ;;
  fail_if (replay_full replay) "activation replay capacity"%string ;;
  signing ← product_activation_request_signing_bytes request;
  signature ← decode_signature_base64 (paq_signature_base64 request);
  ae_verify_activation env request signing signature.

(** [handle_frame] up to and including the pending commit. *)
Definition activation_admit (env : ActivationEnv) (frame : list N) (s : server) : server * ActivationAdmission :=
  match
    request ← decode_product_activation_request frame;
    validate_product_activation_shape request (as_target_peer_id s) ;;
    Ok request
  with
  | Err e => (s, ActivationAnswered (Err e))
  | Ok request =>
      let id := paq_activation_id request in
      let request_sha256 := sha256_prefixed frame in
      match dr_terminal (as_replay s) !! id with
      | Some response =>
          (s, ActivationAnswered
            (if negb (pas_request_sha256 response =? request_sha256)%string
             then Err "activation replay identity collision"%string
             else encode_product_activation_response response))
      | None =>
          match dr_pending_request_sha256 (as_replay s) !! id with
          | Some pending =>
              if negb (pending =? request_sha256)%string
              then (s, ActivationAnswered (Err "activation replay identity collision"%string))
              else let '(s, outcome) := terminalize_pending id request_sha256 s in (s, ActivationAnswered outcome)
          | None =>
              match verify_new_activation env request (as_replay s) with
              | Err e => (s, ActivationAnswered (Err e))
              | Ok _ =>
                  let '(replay, store, committed) :=
                    commit_pending "activation pending persistence: " id request_sha256 (as_replay s) (as_store s) in
                  let s := set_activation_journal s replay store in
                  match committed with
                  | Err e => (s, ActivationAnswered (Err e))
                  | Ok _ => (s, ActivationEntered request request_sha256)
                  end
              end
          end
      end
  end.

(** The callback. *)
Definition activation_enter (request : ProductActivationRequest) (s : server)
    : server * result string ProductActivationReadback :=
  let '(registry, activation) :=
    activate (as_registry s) (paq_activation_id request) (paq_authority request) (paq_proof request) in
  (mkActivationServer (as_target_peer_id s) registry (as_replay s) (as_store s), activation).

Definition activation_status (request : ProductActivationRequest) (activation : result string ProductActivationReadback)
    : OwnerDispatchStatus * option ProductActivationReadback * option string :=
  let uncertain := (Uncertain, None, Some "activation_effect_uncertain"%string) in
  match activation with
  | Ok value =>
      if (par_schema_id value =? PRODUCT_ACTIVATION_READBACK_SCHEMA)%string &&
         (par_activation_id value =? paq_activation_id request)%string &&
         (par_route_grant_id value =? opj_route_grant_id (paq_authority request))%string &&
         (0 <? par_resulting_state_revision value) && par_activated value
      then (Completed, Some value, None) else uncertain
  | Err _ => uncertain
  end.

(** The rest of the call. *)
Definition activation_finish (request : ProductActivationRequest) (request_sha256 : string)
    (activation : result string ProductActivationReadback) (s : server) : server * result string (list N) :=
  let '(status, readback, failure) := activation_status request activation in
  commit_response (paq_activation_id request) request_sha256 status readback failure s.

Definition activation_handle_frame (env : ActivationEnv) (frame : list N) (s : server)
    : server * result string (list N) :=
  match activation_admit env frame s with
  | (s, ActivationAnswered outcome) => (s, outcome)
  | (s, ActivationEntered request request_sha256) =>
      let '(s, activation) := activation_enter request s in
      activation_finish request request_sha256 activation s
  end.

(** ** Runs *)

Context {SL : DispatchStoreLaws St ProductActivationResponse}.
Implicit Types s : server.
Implicit Types registry : R.

Definition activation_reload (s : server) : server :=
  set_activation_journal s (dispatch_durable (as_store s)) (as_store s).

Definition entered_activations (admission : ActivationAdmission) : list ProductActivationRequest :=
  match admission with ActivationAnswered _ => [] | ActivationEntered request _ => [request] end.

Definition activate_one (registry : R) (q : ProductActivationRequest) : R :=
  (activate registry (paq_activation_id q) (paq_authority q) (paq_proof q)).1.

Inductive activation_step : server → list ProductActivationRequest → server → Prop :=
  | at_handle env frame s s' outcome :
      activation_handle_frame env frame s = (s', outcome) →
      activation_step s (entered_activations (activation_admit env frame s).2) s'
  | at_crash_reserved env frame s s' request sha :
      activation_admit env frame s = (s', ActivationEntered request sha) → activation_step s [] (activation_reload s')
  | at_crash_entered env frame s s' request sha :
      activation_admit env frame s = (s', ActivationEntered request sha) →
      activation_step s [request] (activation_reload (activation_enter request s').1)
  | at_restart s : activation_step s [] (activation_reload s).

Definition activation_run : server → list ProductActivationRequest → server → Prop := server_steps activation_step.

(** A request decoded from a frame, bound to this peer, current and verified over
    its signing input. *)
Definition activation_authorized (peer : string) (request : ProductActivationRequest) : Prop :=
  ∃ env frame replay, decode_product_activation_request frame = Ok request ∧
    validate_product_activation_shape request peer = Ok tt ∧ verify_new_activation env request replay = Ok tt.

Definition activation_journal s : ProductActivationReplaySnapshot * St := (as_replay s, as_store s).

Definition activation_refines (peer : string) : server → list ProductActivationRequest → server → Prop :=
  refines activation_journal paq_activation_id as_registry activate_one (activation_authorized peer).

Lemma commit_response_spec id sha status readback failure s s' r :
  commit_response id sha status readback failure s = (s', r) →
  s' = s ∨ ∃ response replay store committed,
    commit_terminal "activation replay byte capacity" id response (as_replay s) (as_store s) =
      (replay, store, committed) ∧ s' = set_activation_journal s replay store.
Proof.
  unfold commit_response. destruct (mbind _ _) as [[encoded response]|]; [|intros [= <- _]; auto].
  destruct (commit_terminal _ _ _ _ _) as [[replay store] committed] eqn:E.
  intros Hf. right. exists response, replay, store, committed. split; [done|]. by destruct committed; injection Hf.
Qed.

Lemma commit_response_refines peer id sha status readback failure s s' r :
  recorded (as_replay s) id → commit_response id sha status readback failure s = (s', r) →
  activation_refines peer s [] s' ∧ as_target_peer_id s' = as_target_peer_id s.
Proof.
  intros Hk [->|(response & replay & store & committed & Ec & ->)]%commit_response_spec.
  - split; [by apply refines_same|done].
  - split; [|done]. eapply refines_silent; [|done]. apply journal_run_one. by eapply js_finish.
Qed.

(** A call reserves a new identity, or answers without the registry. *)
Lemma activation_admit_spec env frame s s' a :
  activation_admit env frame s = (s', a) →
  (∃ o, a = ActivationAnswered o ∧ as_target_peer_id s' = as_target_peer_id s ∧
    ∀ peer, activation_refines peer s [] s') ∨
  ∃ request replay store,
    decode_product_activation_request frame = Ok request ∧
    validate_product_activation_shape request (as_target_peer_id s) = Ok tt ∧
    verify_new_activation env request (as_replay s) = Ok tt ∧ ¬ recorded (as_replay s) (paq_activation_id request) ∧
    commit_pending "activation pending persistence: " (paq_activation_id request) (sha256_prefixed frame)
      (as_replay s) (as_store s) = (replay, store, Ok tt) ∧
    s' = set_activation_journal s replay store ∧ a = ActivationEntered request (sha256_prefixed frame).
Proof.
  assert (Hsame : ∀ o, (∃ o', ActivationAnswered o = ActivationAnswered o' ∧
    as_target_peer_id s = as_target_peer_id s ∧ ∀ peer, activation_refines peer s [] s)).
  { intros o. exists o. split_and!; [done..|]. intros peer. by apply refines_same. }
  unfold activation_admit.
  destruct (mbind _ _) as [request|] eqn:E; [|intros [= <- <-]; left; apply Hsame].
  apply bind_ok in E as (request' & Ed & E). apply then_ok in E as [Es [= ->]].
  destruct (dr_terminal (as_replay s) !! paq_activation_id request) eqn:Et; [intros [= <- <-]; left; apply Hsame|].
  destruct (dr_pending_request_sha256 (as_replay s) !! paq_activation_id request) as [pending|] eqn:Ep.
  { destruct (negb _); [intros [= <- <-]; left; apply Hsame|].
    unfold terminalize_pending. destruct (commit_response _ _ _ _ _ _) as [s1 o] eqn:Ec. intros [= <- <-].
    left. exists o. split; [done|].
    assert (Hk : recorded (as_replay s) (paq_activation_id request)) by (left; rewrite Ep; eauto).
    split; [by eapply (commit_response_refines EmptyString)|]. intros peer. by eapply commit_response_refines. }
  destruct (verify_new_activation env request (as_replay s)) as [[]|] eqn:Ev; [|intros [= <- <-]; left; apply Hsame].
  assert (Hn : ¬ recorded (as_replay s) (paq_activation_id request)) by (intros [[? E]|[? E]]; congruence).
  destruct (commit_pending _ _ _ _ _) as [[replay store] committed] eqn:Ec.
  destruct committed as [[]|e]; intros [= <- <-]; [|left].
  - right. by exists request, replay, store.
  - eexists. split_and!; [done..|]. intros peer. eapply refines_silent; [|done].
    apply journal_run_one. exact (js_reserve _ _ _ _ _ _ _ _ Hn Ec).
Qed.

Lemma activation_enter_journal request s :
  activation_journal (activation_enter request s).1 = activation_journal s ∧
  as_target_peer_id (activation_enter request s).1 = as_target_peer_id s ∧
  as_registry (activation_enter request s).1 = activate_one (as_registry s) request.
Proof. unfold activation_enter, activate_one. by destruct (activate _ _ _ _). Qed.

Lemma activation_reserve_refines env frame s s' request sha :
  activation_admit env frame s = (s', ActivationEntered request sha) →
  activation_refines (as_target_peer_id s) s [] s' ∧
  activation_refines (as_target_peer_id s) s [request] (activation_enter request s').1 ∧
  as_target_peer_id s' = as_target_peer_id s ∧ recorded (as_replay s') (paq_activation_id request).
Proof.
  intros [[o [[=] _]]|(req & replay & store & Ed & Es & Ev & Hn & Ec & -> & [= <- ->])]%activation_admit_spec.
  assert (Hj : journal_run (activation_journal s) [paq_activation_id request]
    (activation_journal (set_activation_journal s replay store))).
  { apply journal_run_one. exact (js_reserve _ _ _ _ _ _ _ _ Hn Ec). }
  destruct (activation_enter_journal request (set_activation_journal s replay store)) as (E1 & E2 & E3). split_and!.
  - by eapply refines_silent.
  - split; try done; [|by repeat econstructor]. exists [paq_activation_id request]. by rewrite E1.
  - done.
  - apply commit_pending_spec in Ec as [-> _]; [|done]. left. cbn. rewrite lookup_insert_eq. eauto.
Qed.

Lemma activation_step_refines s entries s' :
  activation_step s entries s' →
  activation_refines (as_target_peer_id s) s entries s' ∧ as_target_peer_id s' = as_target_peer_id s.
Proof.
  intros [env frame s0 s1 outcome E|env frame s0 s1 request sha E|env frame s0 s1 request sha E|s0].
  - unfold activation_handle_frame in E. destruct (activation_admit env frame s0) as [s2 [o|request sha]] eqn:Ea.
    + injection E as <- _. cbn.
      apply activation_admit_spec in Ea as [(o' & _ & Hp & Hr)|(? & ? & ? & _ & _ & _ & _ & _ & _ & [=])]. done.
    + cbn. destruct (activation_reserve_refines _ _ _ _ _ _ Ea) as (_ & Hr & Hp & Hk).
      destruct (activation_enter_journal request s2) as (E1 & E2 & _).
      destruct (activation_enter request s2) as [s3 activation]. cbn [fst] in Hr, E1, E2. injection E1 as E1 _.
      unfold activation_finish in E. destruct (activation_status request activation) as [[status readback] failure].
      apply (commit_response_refines (as_target_peer_id s0)) in E as [Hf Hp']; [|by rewrite E1].
      split; [by eapply refines_then|congruence].
  - destruct (activation_reserve_refines _ _ _ _ _ _ E) as (Hr & _ & Hp & _). split; [|done].
    eapply refines_then; [exact Hr|]. by apply refines_reload.
  - destruct (activation_reserve_refines _ _ _ _ _ _ E) as (_ & Hr & Hp & _). split.
    + eapply refines_then; [exact Hr|]. by apply refines_reload.
    + destruct (activation_enter_journal request s1) as (_ & E2 & _). cbn. congruence.
  - split; [by apply refines_reload|done].
Qed.

Lemma activation_run_promise peer registry store s0 entries s :
  activation_restore peer registry (dispatch_durable store) store = Ok s0 → activation_run s0 entries s →
  NoDup (paq_activation_id <$> entries) ∧
  Forall (fun q => activation_authorized peer q ∧ ¬ recorded (dispatch_durable store) (paq_activation_id q) ∧
    recorded (dispatch_durable (as_store s)) (paq_activation_id q)) entries ∧
  as_registry s = foldl activate_one registry entries.
Proof.
  unfold activation_restore. rewrite fail_if_bind_ok. intros [_ [= <-]] Hrun.
  destruct (steps_refine activation_journal paq_activation_id as_registry activate_one (activation_authorized peer)
    activation_step (fun s => as_target_peer_id s = peer)
    (mkActivationServer peer registry (dispatch_durable store) store) entries s) as [Hr _]; [|reflexivity|exact Hrun|].
  { intros t e t' Hp [Hs Hp']%activation_step_refines. rewrite Hp in Hs, Hp'. done. }
  pose proof (rf_registry _ _ _ _ _ _ _ _ Hr) as Hg. cbn in Hg.
  by destruct (refines_promise activation_journal paq_activation_id as_registry activate_one
    (activation_authorized peer) _ _ _ Hr eq_refl) as [H1 H2].
Qed.

(** ** Answers *)

Context {EE : EffectEncoding} {OL : OwnerDispatchEncodingLaws}.

Lemma commit_response_ok id sha status readback failure s s' bytes :
  commit_response id sha status readback failure s = (s', Ok bytes) →
  ∃ signing signature, let response := set_activation_response_signature
      (activation_unsigned_response id sha status readback failure) (encode_signature_base64 signature) in
    product_activation_response_signing_bytes (activation_unsigned_response id sha status readback failure) = Ok signing ∧
    signer_sign signing = Ok signature ∧ encode_product_activation_response response = Ok bytes ∧
    as_replay s' = terminal_snapshot id response (as_replay s) ∧
    dispatch_durable (as_store s') = terminal_snapshot id response (as_replay s) ∧
    as_target_peer_id s' = as_target_peer_id s.
Proof.
  unfold commit_response. destruct (mbind _ _) as [[encoded response]|] eqn:E; [|done].
  apply bind_ok in E as (encoded' & Es & E). apply bind_ok in E as (response' & Er & [= -> ->]).
  destruct (commit_terminal _ _ _ _ _) as [[replay store] [[]|]] eqn:Ec; [|done]. intros [= <- <-].
  unfold activation_signed_response in Es. apply bind_ok in Es as (signing & E1 & Es).
  apply bind_ok in Es as (signature & E2 & E3). exists signing, signature. cbv zeta.
  rewrite (activation_response_frame_roundtrip _ _ E3) in Er. injection Er as <-.
  apply commit_terminal_spec in Ec as (-> & Ed & _). done.
Qed.

(** What an answered call leaves in memory. *)
Lemma activation_answer_stored env frame s s' bytes :
  activation_handle_frame env frame s = (s', Ok bytes) →
  ∃ request response, decode_product_activation_request frame = Ok request ∧
    validate_product_activation_shape request (as_target_peer_id s') = Ok tt ∧
    dr_terminal (as_replay s') !! paq_activation_id request = Some response ∧
    pas_request_sha256 response = sha256_prefixed frame ∧ encode_product_activation_response response = Ok bytes.
Proof.
  unfold activation_handle_frame. destruct (activation_admit env frame s) as [s1 [o|request sha]] eqn:Ea.
  - intros [= <- ->]. unfold activation_admit in Ea. destruct (mbind _ _) as [request|] eqn:E; [|done].
    apply bind_ok in E as (request' & Ed & E). apply then_ok in E as [Es [= ->]].
    destruct (dr_terminal (as_replay s) !! _) as [response|] eqn:Et.
    { destruct (pas_request_sha256 response =? sha256_prefixed frame)%string eqn:Eh; [|done].
      injection Ea as <- Ef. apply String.eqb_eq in Eh. by exists request, response. }
    destruct (dr_pending_request_sha256 (as_replay s) !! _) as [pending|].
    { destruct (negb _); [done|]. destruct (terminalize_pending _ _ _) as [s2 o] eqn:Ec. injection Ea as <- ->.
      apply commit_response_ok in Ec as (signing & signature & _ & _ & Ef & Er & _ & Hp).
      eexists request, _. rewrite Hp, Er. cbn. rewrite lookup_insert_eq. split_and!; [done..|exact Ef]. }
    destruct (verify_new_activation _ _ _); [|done]. by destruct (commit_pending _ _ _ _ _) as [[? ?] []].
  - apply activation_admit_spec in Ea as [[o [[=] _]]|(req & replay & store & Ed & Es & _ & _ & _ & -> & [= <- ->])].
    destruct (activation_enter_journal request (set_activation_journal s replay store)) as (_ & Hp & _).
    destruct (activation_enter request _) as [s2 activation]. cbn in Hp. unfold activation_finish.
    destruct (activation_status request activation) as [[status readback] failure].
    intros (signing & signature & _ & _ & Ef & Er & _ & Hp')%commit_response_ok.
    eexists request, _. rewrite Hp', Hp, Er. cbn. rewrite lookup_insert_eq. split_and!; [done..|exact Ef].
Qed.

(** An answered frame stays answered with the same bytes. *)
Lemma activation_replay_identical env frame s s' bytes :
  activation_handle_frame env frame s = (s', Ok bytes) →
  ∀ env', activation_handle_frame env' frame s' = (s', Ok bytes).
Proof.
  intros (request & response & Ed & Es & Et & Hsha & Ef)%activation_answer_stored env'.
  unfold activation_handle_frame, activation_admit. rewrite Ed. cbn [mbind result_bind]. rewrite Es.
  cbn [mbind result_bind]. by rewrite Et, Hsha, String.eqb_refl, Ef.
Qed.

(** The source verifies every answer to a first call. *)
Lemma activation_status_shape request activation status readback failure :
  activation_status request activation = (status, readback, failure) →
  bool_decide (status = Completed) &&
  match readback with
  | None => true
  | Some value =>
      negb (par_schema_id value =? PRODUCT_ACTIVATION_READBACK_SCHEMA)%string || negb (par_activated value) ||
      negb (par_activation_id value =? paq_activation_id request)%string
  end = false.
Proof.
  unfold activation_status. destruct activation as [value|]; [|by intros [= <- <- <-]].
  destruct (_ && _) eqn:E; intros [= <- <- <-]; [|done].
  rewrite !andb_true_iff, !String.eqb_eq in E. destruct E as [[[[E1 E2] _] _] E5]. cbn.
  by rewrite E1, E2, E5, !String.eqb_refl.
Qed.

Lemma activation_response_verifies public request frame status readback failure s s' bytes :
  SignerLaws public →
  bool_decide (status = Completed) &&
  match readback with
  | None => true
  | Some value =>
      negb (par_schema_id value =? PRODUCT_ACTIVATION_READBACK_SCHEMA)%string || negb (par_activated value) ||
      negb (par_activation_id value =? paq_activation_id request)%string
  end = false →
  commit_response (paq_activation_id request) (sha256_prefixed frame) status readback failure s = (s', Ok bytes) →
  ∃ response, decode_product_activation_response bytes = Ok response ∧
    pas_status response = status ∧ pas_readback response = readback ∧
    verify_product_activation_response response (paq_activation_id request) frame signer_key_id public = Ok tt.
Proof.
  intros HS Hshape (signing & signature & Eb & Esig & Ef & _)%commit_response_ok.
  eexists. split; [by apply activation_response_frame_roundtrip|]. split_and!; [done..|].
  apply signer_signature in Esig as (L & U & key & Ek & Hk).
  unfold verify_product_activation_response.
  rewrite (activation_response_signing_signature _ (encode_signature_base64 signature) _ Eb). cbn -[verify_strict].
  rewrite !String.eqb_refl, Hshape, Ek. cbn -[verify_strict].
  assert (decode_signature_base64 (encode_signature_base64 signature) = Ok signature) as ->
    by by apply decode_signature_iff.
  cbn -[verify_strict]. by rewrite Hk.
Qed.

(** ** The terminal count *)

(** The journal after an answered call of a new activation, and of a pending one. *)
Lemma answered_new env frame s s' bytes request :
  decode_product_activation_request frame = Ok request → ¬ recorded (as_replay s) (paq_activation_id request) →
  activation_handle_frame env frame s = (s', Ok bytes) →
  ∃ response, as_replay s' = terminal_snapshot (paq_activation_id request) response
    (mkDispatchReplay (<[paq_activation_id request := sha256_prefixed frame]> (dr_pending_request_sha256 (as_replay s)))
       (dr_terminal (as_replay s))).
Proof.
  intros Hd Hn E. unfold activation_handle_frame in E.
  destruct (activation_admit env frame s) as [s1 [o|q sha]] eqn:Ea.
  - injection E as -> ->. unfold activation_admit in Ea. rewrite Hd in Ea. cbn [mbind result_bind] in Ea.
    destruct (validate_product_activation_shape _ _); [|done]. cbn [mbind result_bind] in Ea. unfold recorded in Hn.
    destruct (dr_terminal (as_replay s) !! _); [destruct Hn; eauto|].
    destruct (dr_pending_request_sha256 (as_replay s) !! _); [destruct Hn; eauto|].
    destruct (verify_new_activation _ _ _); [|done]. by destruct (commit_pending _ _ _ _ _) as [[? ?] []].
  - apply activation_admit_spec in Ea as [[o [[=] _]]|(req & replay & store & Ed & _ & _ & _ & Ec & -> & [= <- ->])].
    rewrite Hd in Ed. injection Ed as <-. apply commit_pending_spec in Ec as [Em _]; [|done].
    destruct (activation_enter_journal request (set_activation_journal s replay store)) as (Hj & _ & _).
    destruct (activation_enter request _) as [s2 activation]. cbn in Hj. injection Hj as Hj _.
    unfold activation_finish in E. destruct (activation_status request activation) as [[status readback] failure].
    apply commit_response_ok in E as (signing & signature & _ & _ & _ & Er & _). rewrite Hj, Em in Er. eauto.
Qed.

Lemma answered_pending env frame s s' bytes request :
  decode_product_activation_request frame = Ok request →
  dr_terminal (as_replay s) !! paq_activation_id request = None →
  is_Some (dr_pending_request_sha256 (as_replay s) !! paq_activation_id request) →
  activation_handle_frame env frame s = (s', Ok bytes) →
  ∃ response, dispatch_durable (as_store s') = terminal_snapshot (paq_activation_id request) response (as_replay s).
Proof.
  intros Hd Ht [pending Hp] E. unfold activation_handle_frame, activation_admit in E. rewrite Hd in E.
  cbn [mbind result_bind] in E. destruct (validate_product_activation_shape _ _); [|done].
  cbn [mbind result_bind] in E. rewrite Ht, Hp in E. destruct (negb _); [done|].
  destruct (terminalize_pending _ _ _) as [s1 o] eqn:Ec. injection E as <- ->.
  apply commit_response_ok in Ec as (signing & signature & _ & _ & _ & _ & Er & _). eauto.
Qed.

(** A retry of a pending activation stores a response whatever the number of
    responses. With 255 responses and one marker in the journal, one further
    activation and the retry of the marked one leave 257, and the server cannot
    be restored from what it committed. *)
Lemma activation_retry_overflows env_b frame_b s s1 bytes_b env_a frame_a s2 bytes_a a b peer registry :
  N.of_nat (size (dr_terminal (as_replay s))) = 255 →
  decode_product_activation_request frame_a = Ok a → decode_product_activation_request frame_b = Ok b →
  is_Some (dr_pending_request_sha256 (as_replay s) !! paq_activation_id a) →
  dr_terminal (as_replay s) !! paq_activation_id a = None → ¬ recorded (as_replay s) (paq_activation_id b) →
  activation_handle_frame env_b frame_b s = (s1, Ok bytes_b) →
  activation_handle_frame env_a frame_a s1 = (s2, Ok bytes_a) →
  activation_restore peer registry (dispatch_durable (as_store s2)) (as_store s2) =
    Err "invalid activation replay state"%string.
Proof.
  intros Hsize Ha Hb [sha Hp] Ht Hn Eb Ea. apply (answered_new _ _ _ _ _ _ Hb Hn) in Eb as [rb Rb].
  assert (Hne : paq_activation_id b ≠ paq_activation_id a) by (intros Heq; apply Hn; left; rewrite Heq, Hp; eauto).
  assert (Htb : dr_terminal (as_replay s) !! paq_activation_id b = None).
  { apply eq_None_not_Some. intros Hs. apply Hn. by right. }
  apply (answered_pending _ _ _ _ _ _ Ha) in Ea as [ra Ra].
  2:{ rewrite Rb. cbn. by rewrite lookup_insert_ne. }
  2:{ rewrite Rb. cbn. rewrite lookup_delete_ne, lookup_insert_ne by done. rewrite Hp. eauto. }
  unfold activation_restore. rewrite Ra, Rb.
  destruct (restore_rejects peer _) eqn:Hr; [done|]. apply restore_rejects_false in Hr as (_ & (_ & Hc & _) & _).
  cbn in Hc. rewrite !map_size_insert_None in Hc by (rewrite ?lookup_insert_ne by done; done).
  change MAX_OWNER_DISPATCH_REPLAYS with 256 in Hc. lia.
Qed.
End Server.
