(* ===== verification/OwnerPlacement.v ===== *)
(** * Owner placements and the composite executor

    [derive_embedded_duplex_owner_placements] and
    [CompositeAndroidMediaOwnerExecutor] of
    crates/rusty-quest-media-stream-android/src/owner_dispatch.rs, over the
    packaged binding.
    The projection source and the clock answer anew in every call; the local
    registry and the remote client are state. *)

From S2P Require Import Prelude RustStr UpdateAdmission MediaModel MediaSpec MediaRuntime MediaComposition ProductBinding CleanupTicket OwnerEffect OwnerWire OwnerDispatch.

Local Open Scope N_scope.

Inductive AndroidMediaOwnerPlacementTarget :=
  | PlaceLocal
  | PlaceRemote (peer_id : string).

Record AndroidMediaOwnerPlacement := mkPlacement {
  plc_owner_kind : MediaStreamOwnerKind;
  plc_owner_id : string;
  plc_provider_kind : string;
  plc_resource_id : string;
  plc_target : AndroidMediaOwnerPlacementTarget;
}.

Record AndroidMediaDevicePeerPlacement := mkDevicePeer {
  dpp_device_id : string;
  dpp_peer_id : string;
}.

Section Placement.
Context {RC : ReleaseCrypto} {SE : SpecEncoding}.

(** The loop over [device_peers]. *)
Fixpoint device_peer_map (peers : gmap string string) (placements : list AndroidMediaDevicePeerPlacement)
    : result string (gmap string string) :=
  match placements with
  | [] => Ok peers
  | placement :: rest =>
      fail_if (str_is_empty (dpp_device_id placement) || str_is_empty (dpp_peer_id placement) ||
               bool_decide (is_Some (peers !! dpp_device_id placement)))
        "invalid or duplicate device peer placement"%string ;;
      device_peer_map (<[dpp_device_id placement := dpp_peer_id placement]> peers) rest
  end.

Definition placement_peer (spec : MediaStreamRuntimeSpec) (authority_peer_id : string)
    (peers : gmap string string) (selection : MediaStreamOwnerSelection) : result string string :=
  match own_owner_kind selection with
  | OwnCleanup => Ok authority_peer_id
  | OwnSink =>
      sink ← ok_or (List.find (fun sink => snk_sink_id sink =? own_resource_id selection)%string (rsp_sinks spec))
               "selected sink resource is absent"%string;
      ok_or (peers !! snk_device_id sink) "selected sink device placement is absent"%string
  | OwnSource =>
      source ← ok_or (List.find (fun source => src_source_id source =? own_resource_id selection)%string
                        (pl_sources (rsp_plan spec))) "selected source resource is absent"%string;
      ok_or (peers !! src_device_id source) "selected source device placement is absent"%string
  | _ =>
      lane_id ← ok_or (own_lane_id selection) "lane owner omitted lane identity"%string;
      lane ← ok_or (List.find (fun lane => lane_lane_id lane =? lane_id)%string (pl_lanes (rsp_plan spec)))
               "selected owner lane is absent"%string;
      ok_or (peers !! lane_source_device_id lane) "selected lane device placement is absent"%string
  end.

Definition placement_target (local_peer_id peer_id : string) : AndroidMediaOwnerPlacementTarget :=
  if (peer_id =? local_peer_id)%string then PlaceLocal else PlaceRemote peer_id.

Definition derive_embedded_duplex_owner_placements (binding : MediaStreamRuntimeProductBinding)
    (local_peer_id authority_peer_id : string) (device_peers : list AndroidMediaDevicePeerPlacement)
    : result string (list AndroidMediaOwnerPlacement) :=
  map_err product_error_message (binding_validate binding) ;;
  fail_if (str_is_empty local_peer_id || str_is_empty authority_peer_id)
    "owner placement peer identity is empty"%string ;;
  peers ← device_peer_map ∅ device_peers;
  mapM (fun selection =>
    peer_id ← placement_peer (bnd_spec binding) authority_peer_id peers selection;
    Ok (mkPlacement (own_owner_kind selection) (own_owner_id selection) (own_provider_kind selection)
          (own_resource_id selection) (placement_target local_peer_id peer_id)))
    (rsp_owner_selections (bnd_spec binding)).
End Placement.

(** ** The composite executor *)

Abbreviation placement_key := (MediaStreamOwnerKind * string * string * string)%type.

Definition key_of (placement : AndroidMediaOwnerPlacement) : placement_key :=
  (plc_owner_kind placement, plc_owner_id placement, plc_provider_kind placement, plc_resource_id placement).

Class OwnerDispatchClient (C : Type) := {
  client_execute : C → string → OwnerDispatchAuthorityProjection → AndroidMediaExecutionTicket →
    AndroidMediaExecutionMode → N → C * result string AuthenticatedOwnerEffect;
}.

#[global] Instance remote_executor_client {RC : ReleaseCrypto} {CE : CleanupEncoding} {EE : EffectEncoding}
    {OE : OwnerDispatchEncoding} {SG : OwnerDispatchSigner} {Tr : Type} `{OwnerDispatchTransport Tr}
    : OwnerDispatchClient (RemoteOwnerDispatchExecutor (Tr := Tr)) :=
  {| client_execute := executor_execute |}.

(** What the projection source and the clock answer during one call. *)
Record CompositeEnv := mkCompositeEnv {
  ce_target_executor_generation : string → result string N;
  ce_current_projection : AndroidMediaExecutionTicket → string → AndroidMediaExecutionMode → N →
    result string OwnerDispatchAuthorityProjection;
  ce_now_ms : result string N;
}.

Record CompositeAndroidMediaOwnerExecutor (R C : Type) := mkComposite {
  cx_generation : N;
  cx_local_peer_id : string;
  cx_placements : gmap placement_key AndroidMediaOwnerPlacementTarget;
  cx_local : R;
  cx_remote : C;
  cx_verified : gmap string (AndroidMediaExecutionTicket * AuthenticatedOwnerEffect);
}.
Arguments mkComposite {R C} _ _ _ _ _ _.
Arguments cx_generation {R C} _.
Arguments cx_local_peer_id {R C} _.
Arguments cx_placements {R C} _.
Arguments cx_local {R C} _.
Arguments cx_remote {R C} _.
Arguments cx_verified {R C} _.

Section Composite.
Context {RC : ReleaseCrypto} {CE : CleanupEncoding} {EE : EffectEncoding}.
Context {R C : Type} `{AuthenticatedOwnerRegistry R} `{OwnerDispatchClient C}.
Abbreviation executor := (CompositeAndroidMediaOwnerExecutor R C).

Definition placement_invalid (placement : AndroidMediaOwnerPlacement) : bool :=
  str_is_empty (plc_owner_id placement) || str_is_empty (plc_provider_kind placement) ||
  str_is_empty (plc_resource_id placement) ||
  match plc_target placement with PlaceRemote peer_id => str_is_empty peer_id | PlaceLocal => false end.

(** The loop over the placements: the map [exact] and the set [families]. *)
Fixpoint collect_placements (exact : gmap placement_key AndroidMediaOwnerPlacementTarget)
    (families : gset MediaStreamOwnerKind) (placements : list AndroidMediaOwnerPlacement)
    : result string (gmap placement_key AndroidMediaOwnerPlacementTarget * gset MediaStreamOwnerKind) :=
  match placements with
  | [] => Ok (exact, families)
  | placement :: rest =>
      fail_if (placement_invalid placement) "invalid owner placement"%string ;;
      fail_if (bool_decide (is_Some (exact !! key_of placement))) "duplicate owner placement"%string ;;
      collect_placements (<[key_of placement := plc_target placement]> exact)
        ({[plc_owner_kind placement]} ∪ families) rest
  end.

Definition composite_new (generation : N) (local_peer_id : string) (placements : list AndroidMediaOwnerPlacement)
    (local_ : R) (remote : C) : result string executor :=
  '(exact, families) ← collect_placements ∅ ∅ placements;
  fail_if ((generation =? 0) || str_is_empty local_peer_id ||
           negb (bool_decide (families = list_to_set owner_kinds)))
    "incomplete seven-family placement"%string ;;
  Ok (mkComposite generation local_peer_id exact local_ remote ∅).

Definition composite_target (x : executor) (owner_kind : MediaStreamOwnerKind)
    (owner_id provider_kind resource_id : string) : result string AndroidMediaOwnerPlacementTarget :=
  ok_or (cx_placements x !! (owner_kind, owner_id, provider_kind, resource_id)) "owner placement absent"%string.

Definition target_generation (env : CompositeEnv) (x : executor) (target : AndroidMediaOwnerPlacementTarget)
    : result string N :=
  generation ← match target with
               | PlaceLocal => Ok (cx_generation x)
               | PlaceRemote peer_id => ce_target_executor_generation env peer_id
               end;
  fail_if (generation =? 0) "authenticated target executor generation unavailable"%string ;;
  Ok generation.

Definition executor_generation_for (env : CompositeEnv) (x : executor) (selection : MediaStreamOwnerSelection)
    : result string N :=
  target ← composite_target x (own_owner_kind selection) (own_owner_id selection) (own_provider_kind selection)
             (own_resource_id selection);
  target_generation env x target.

(** The checks before the effect: the target, its peer, the time and the projection. *)
Definition composite_prepare (env : CompositeEnv) (x : executor) (ticket : AndroidMediaExecutionTicket)
    (mode : AndroidMediaExecutionMode)
    : result string (AndroidMediaOwnerPlacementTarget * N * OwnerDispatchAuthorityProjection) :=
  target ← composite_target x (tk_owner_kind ticket) (tk_owner_id ticket) (tk_provider_kind ticket)
             (tk_resource_id ticket);
  generation ← target_generation env x target;
  fail_if (negb (tk_executor_generation ticket =? generation)) "executor generation mismatch"%string ;;
  now_ms ← ce_now_ms env;
  let target_peer_id := match target with PlaceLocal => cx_local_peer_id x | PlaceRemote peer_id => peer_id end in
  projection ← ce_current_projection env ticket target_peer_id mode now_ms;
  Ok (target, now_ms, projection).

Definition composite_execute (env : CompositeEnv) (x : executor) (ticket : AndroidMediaExecutionTicket)
    (mode : AndroidMediaExecutionMode) : executor * result string AndroidMediaOwnerReadback :=
  match composite_prepare env x ticket mode with
  | Err e => (x, Err e)
  | Ok (target, now_ms, projection) =>
      let '(local', remote', outcome) :=
        match target with
        | PlaceLocal =>
            let '(local', outcome) := owner_execute_and_verify (cx_local x) (Some projection) ticket mode in
            (local', cx_remote x, outcome)
        | PlaceRemote peer_id =>
            let '(remote', outcome) := client_execute (cx_remote x) peer_id projection ticket mode now_ms in
            (cx_local x, remote', outcome)
        end in
      let x' := mkComposite (cx_generation x) (cx_local_peer_id x) (cx_placements x) local' remote' (cx_verified x) in
      match effect ← outcome; validate_effect ticket mode effect ;; Ok effect with
      | Err e => (x', Err e)
      | Ok effect =>
          (mkComposite (cx_generation x) (cx_local_peer_id x) (cx_placements x) local' remote'
             (<[tk_capability ticket := (ticket, effect)]> (cx_verified x)),
           Ok (aoe_readback effect))
      end
  end.

(** The evidence is removed by the first look, whatever it answers. *)
Definition composite_verify (x : executor) (ticket : AndroidMediaExecutionTicket)
    (readback : AndroidMediaOwnerReadback) : executor * bool :=
  (mkComposite (cx_generation x) (cx_local_peer_id x) (cx_placements x) (cx_local x) (cx_remote x)
     (delete (tk_capability ticket) (cx_verified x)),
   match cx_verified x !! tk_capability ticket with
   | Some (expected, effect) => bool_decide (expected = ticket) && bool_decide (aoe_readback effect = readback)
   | None => false
   end).

(** ** Evidence is validated and used once *)

Definition evidence_valid (x : executor) : Prop :=
  ∀ capability ticket effect, cx_verified x !! capability = Some (ticket, effect) →
    capability = tk_capability ticket ∧ ∃ mode, validate_effect ticket mode effect = Ok tt.

Lemma composite_execute_evidence env x ticket mode :
  evidence_valid x → evidence_valid (composite_execute env x ticket mode).1.
Proof.
  intros Hv. unfold composite_execute.
  destruct (composite_prepare env x ticket mode) as [[[target now] projection]|]; [|done].
  assert (Hput : ∀ effect l r, validate_effect ticket mode effect = Ok tt →
    evidence_valid (mkComposite (cx_generation x) (cx_local_peer_id x) (cx_placements x) l r
      (<[tk_capability ticket := (ticket, effect)]> (cx_verified x)))).
  { intros effect l r Ht capability t e. cbn. rewrite lookup_insert_Some. intros [[<- [= <- <-]]|[_ Hl]]; [by eauto|].
    by apply Hv. }
  destruct target as [|peer_id].
  - destruct (owner_execute_and_verify _ _ _ _) as [l outcome]. destruct (mbind _ outcome) as [effect|] eqn:E; [|done].
    apply bind_ok in E as (e & -> & E). apply then_ok in E as [E [= <-]]. by apply Hput.
  - destruct (client_execute _ _ _ _ _ _) as [r outcome]. destruct (mbind _ outcome) as [effect|] eqn:E; [|done].
    apply bind_ok in E as (e & -> & E). apply then_ok in E as [E [= <-]]. by apply Hput.
Qed.

(** What an executed ticket leaves for its verification. *)
Lemma composite_execute_stored env x ticket mode x' readback :
  composite_execute env x ticket mode = (x', Ok readback) →
  ∃ effect, cx_verified x' !! tk_capability ticket = Some (ticket, effect) ∧ aoe_readback effect = readback ∧
    validate_effect ticket mode effect = Ok tt.
Proof.
  unfold composite_execute. destruct (composite_prepare env x ticket mode) as [[[target now] projection]|]; [|done].
  destruct (match target with PlaceLocal => _ | PlaceRemote _ => _ end) as [[l r] outcome].
  destruct (mbind _ outcome) as [effect|] eqn:E; [|done]. intros [= <- <-].
  apply bind_ok in E as (e & -> & E). apply then_ok in E as [E [= <-]].
  exists e. cbn. by rewrite lookup_insert_eq.
Qed.

Lemma composite_verify_once env x ticket mode x' readback :
  composite_execute env x ticket mode = (x', Ok readback) →
  (composite_verify x' ticket readback).2 = true ∧
  ∀ readback0 ticket' readback', tk_capability ticket' = tk_capability ticket →
    (composite_verify (composite_verify x' ticket readback0).1 ticket' readback').2 = false.
Proof.
  intros (effect & Hl & Hr & _)%composite_execute_stored. unfold composite_verify. cbn. rewrite Hl. split.
  - by rewrite !bool_decide_true.
  - intros rb0 t' rb' ->. by rewrite lookup_delete_eq.
Qed.
End Composite.

(** ** A valid binding has complete placements *)

Lemma mapM_ok {E A B} (f : A → result E B) l k : mapM f l = Ok k ↔ Forall2 (fun x y => f x = Ok y) l k.
Proof.
  revert k. induction l as [|x l IH]; intros k; cbn.
  - split; [intros [= <-]; constructor|by inversion 1].
  - rewrite bind_ok. setoid_rewrite bind_ok. split.
    + intros (y & Hy & k' & Hk & [= <-]). constructor; [done|by apply IH].
    + inversion 1 as [|? y ? k' Hy Hk]; subst. exists y. split; [done|]. exists k'. split; [by apply IH|done].
Qed.

Lemma mapM_all_ok {E A B} (f : A → result E B) l : (∀ x, x ∈ l → ∃ y, f x = Ok y) → ∃ k, mapM f l = Ok k.
Proof.
  induction l as [|x l IH]; intros Hf; [by exists []|].
  destruct (Hf x) as [y Hy]; [set_solver|]. destruct IH as [k Hk]; [set_solver|].
  exists (y :: k). cbn. by rewrite Hy, Hk.
Qed.

Lemma find_key {A} (key : A → string) l x : x ∈ l →
  ∃ y, List.find (fun y => key y =? key x)%string l = Some y ∧ y ∈ l ∧ key y = key x.
Proof.
  intros Hx. destruct (List.find _ l) as [y|] eqn:E.
  - apply List.find_some in E as [Hy Hk]. apply String.eqb_eq in Hk. apply list_elem_of_In in Hy. eauto.
  - eapply List.find_none in E; [|by apply list_elem_of_In]. by rewrite String.eqb_refl in E.
Qed.

Lemma device_peer_map_nonempty peers placements m :
  device_peer_map peers placements = Ok m → (∀ d p, peers !! d = Some p → p ≠ EmptyString) →
  ∀ d p, m !! d = Some p → p ≠ EmptyString.
Proof.
  revert peers. induction placements as [|x rest IH]; intros peers; cbn; [by intros [= <-]|].
  rewrite fail_if_bind_ok. intros [E Hm] Hp. bool_to_prop. apply (IH _ Hm). intros d p.
  rewrite lookup_insert_Some. intros [[_ <-]|[_ Hd]]; [by apply str_is_empty_false|by eapply Hp].
Qed.

Lemma nonblank_nonempty s : nonblank s → str_is_empty s = false.
Proof. by destruct s. Qed.

(** The owners that follow a lane. *)
Definition lane_owner (s : MediaStreamOwnerSelection) : Prop :=
  own_owner_kind s ≠ OwnCleanup ∧ own_owner_kind s ≠ OwnSink ∧ own_owner_kind s ≠ OwnSource.

Section Complete.
Context (spec : MediaStreamRuntimeSpec) (authority_peer_id : string) (peers : gmap string string).
Hypothesis Hspec : runtime_spec_wf spec.
Hypothesis Hauthority : authority_peer_id ≠ EmptyString.
Hypothesis Hpeers : ∀ d p, peers !! d = Some p → p ≠ EmptyString.
Hypothesis Hplaced : ∀ d, d ∈ dev_device_id <$> pl_devices (rsp_plan spec) → is_Some (peers !! d).
Hypothesis Hlanes : ∀ s, s ∈ rsp_owner_selections spec → lane_owner s →
  ∃ lane, lane ∈ pl_lanes (rsp_plan spec) ∧ own_lane_id s = Some (lane_lane_id lane).

Lemma selected_resource s : s ∈ rsp_owner_selections spec → own_resource_id s ∈ resource_ids spec (own_owner_kind s).
Proof.
  intros Hs. destruct (ow_cover _ (rw_owners _ Hspec) (own_owner_kind s)) as [_ <-].
  unfold selected_ids. apply list_elem_of_fmap. exists s. split; [done|]. by apply list_elem_of_filter.
Qed.

Lemma placement_peer_resolves s :
  s ∈ rsp_owner_selections spec →
  ∃ p, placement_peer spec authority_peer_id peers s = Ok p ∧ p ≠ EmptyString.
Proof.
  intros Hs. pose proof (selected_resource s Hs) as Hres. pose proof (Hlanes s Hs) as Hl. unfold lane_owner in Hl.
  assert (Hdevice : ∀ (d : string) (e : string), d ∈ dev_device_id <$> pl_devices (rsp_plan spec) →
    ∃ p, ok_or (peers !! d) e = Ok p ∧ p ≠ EmptyString).
  { intros d e [p Hp]%Hplaced. exists p. rewrite Hp. split; [done|by eapply Hpeers]. }
  assert (Hlane : (∃ lane, lane ∈ pl_lanes (rsp_plan spec) ∧ own_lane_id s = Some (lane_lane_id lane)) →
    ∃ p, (lane_id ← ok_or (own_lane_id s) "lane owner omitted lane identity"%string;
          lane ← ok_or (List.find (fun lane => lane_lane_id lane =? lane_id)%string (pl_lanes (rsp_plan spec)))
                   "selected owner lane is absent"%string;
          ok_or (peers !! lane_source_device_id lane) "selected lane device placement is absent"%string) = Ok p ∧
      p ≠ EmptyString).
  { intros (lane & Hin & ->). cbn [ok_or mbind result_bind].
    destruct (find_key lane_lane_id _ _ Hin) as (y & -> & Hy & _). cbn [ok_or mbind result_bind]. apply Hdevice.
    destruct (pw_lanes _ (rw_plan _ Hspec)) as (_ & _ & Hw). rewrite Forall_forall in Hw. by apply Hw in Hy as (?&?&?&?&?&?&?&?&?&_). }
  unfold placement_peer. destruct (own_owner_kind s); try (by apply Hlane, Hl).
  - apply list_elem_of_fmap in Hres as (source & -> & Hin). destruct (find_key src_source_id _ _ Hin) as (y & -> & Hy & _).
    cbn [ok_or mbind result_bind]. apply Hdevice. destruct (pw_sources _ (rw_plan _ Hspec)) as (_ & _ & Hw).
    rewrite Forall_forall in Hw. apply Hw in Hy as (_&_&_&_&_&_&_&_&(d & Hd & <- & _)&_).
    apply list_elem_of_fmap. eauto.
  - apply list_elem_of_fmap in Hres as (sink & -> & Hin). destruct (find_key snk_sink_id _ _ Hin) as (y & -> & Hy & _).
    cbn [ok_or mbind result_bind]. apply Hdevice. destruct (rw_sinks _ Hspec) as [_ Hw].
    rewrite Forall_forall in Hw. by apply Hw in Hy as (_&_&Hd&_).
  - by exists authority_peer_id.
Qed.

(** The placement of a selection. *)
Definition placement_for (local_peer_id : string) (s : MediaStreamOwnerSelection)
    : result string AndroidMediaOwnerPlacement :=
  peer_id ← placement_peer spec authority_peer_id peers s;
  Ok (mkPlacement (own_owner_kind s) (own_owner_id s) (own_provider_kind s) (own_resource_id s)
        (placement_target local_peer_id peer_id)).

Lemma placement_for_wf local_peer_id s :
  s ∈ rsp_owner_selections spec →
  ∃ p, placement_for local_peer_id s = Ok p ∧ placement_invalid p = false ∧
    key_of p = (own_owner_kind s, own_owner_id s, own_provider_kind s, own_resource_id s).
Proof.
  intros Hs. destruct (placement_peer_resolves s Hs) as (peer & E & Hne). unfold placement_for. rewrite E.
  eexists. split; [done|]. split; [|done].
  pose proof (ow_each _ (rw_owners _ Hspec)) as Hw. rewrite Forall_forall in Hw.
  destruct (Hw s Hs) as (H1 & H2 & H3 & _). unfold placement_invalid. cbn.
  rewrite !nonblank_nonempty by done. unfold placement_target. destruct (_ =? _)%string; [done|].
  cbn. by apply str_is_empty_false.
Qed.

Lemma owner_keys_nodup :
  NoDup ((fun s => (own_owner_kind s, own_owner_id s, own_provider_kind s, own_resource_id s)) <$> rsp_owner_selections spec).
Proof.
  assert (Hn : NoDup (selection_pair <$> rsp_owner_selections spec)).
  { apply selected_pairs_NoDup. intros k. destruct (ow_cover _ (rw_owners _ Hspec) k) as [_ ->].
    apply resource_ids_NoDup; [apply Hspec|apply Hspec|apply Hspec]. }
  clear -Hn. induction (rsp_owner_selections spec) as [|s l IH]; [constructor|]. cbn in *.
  apply NoDup_cons in Hn as [Hs Hn]. constructor; [|by apply IH].
  intros (t & [= E1 _ _ E4] & Ht)%list_elem_of_fmap. apply Hs. apply list_elem_of_fmap. exists t.
  unfold selection_pair. by rewrite E1, E4.
Qed.
End Complete.

(** The loop of [new] over valid placements with distinct keys. *)
Lemma collect_placements_ok exact families l :
  Forall (fun p => placement_invalid p = false) l → NoDup (key_of <$> l) →
  Forall (fun p => exact !! key_of p = None) l →
  ∃ exact' families', collect_placements exact families l = Ok (exact', families') ∧
    (∀ p, p ∈ l → exact' !! key_of p = Some (plc_target p)) ∧
    (∀ k, is_Some (exact !! k) → exact' !! k = exact !! k) ∧
    families' = list_to_set (plc_owner_kind <$> l) ∪ families.
Proof.
  revert exact families. induction l as [|p l IH]; intros exact families Hv Hn He; cbn.
  { exists exact, families. split_and!; [done|set_solver|done|set_solver]. }
  apply Forall_cons in Hv as [V Hv]. apply NoDup_cons in Hn as [N0 Hn]. apply Forall_cons in He as [E0 He].
  rewrite V, bool_decide_false by (rewrite E0; by intros [? [=]]). cbn [negb fail_if mbind result_bind].
  destruct (IH (<[key_of p := plc_target p]> exact) ({[plc_owner_kind p]} ∪ families) Hv Hn)
    as (exact' & families' & E & H1 & H2 & H3).
  { rewrite Forall_forall in *. intros q Hq. rewrite lookup_insert_ne; [by apply He|].
    intros Hk. apply N0. rewrite Hk. apply list_elem_of_fmap. eauto. }
  exists exact', families'. split_and!; [exact E| | |].
  - intros q [->|Hq]%elem_of_cons; [|by apply H1].
    rewrite (H2 (key_of p)); rewrite lookup_insert_eq; [done|eauto].
  - intros k Hk. assert (key_of p ≠ k) by (intros <-; rewrite E0 in Hk; by destruct Hk).
    rewrite (H2 k); by rewrite lookup_insert_ne.
  - rewrite H3. set_solver.
Qed.

Section Accepted.
Context {RC : ReleaseCrypto} {SE : SpecEncoding} {CE : CleanupEncoding} {EE : EffectEncoding}.
Context {R C : Type} `{AuthenticatedOwnerRegistry R} `{OwnerDispatchClient C}.

Lemma binding_validate_wf binding : binding_validate binding = Ok tt → runtime_spec_wf (bnd_spec binding).
Proof. intros Hb. by apply runtime_spec_ok, binding_validate_spec. Qed.

(** A valid binding whose devices are placed and whose lane owners name a lane of
    the plan has placements, and the composite executor built from them has a
    target for every selected owner. *)
Lemma placements_accepted binding local_peer_id authority_peer_id device_peers peers generation (l : R) (r : C) :
  binding_validate binding = Ok tt → local_peer_id ≠ EmptyString → authority_peer_id ≠ EmptyString →
  device_peer_map ∅ device_peers = Ok peers →
  (∀ d, d ∈ dev_device_id <$> pl_devices (rsp_plan (bnd_spec binding)) → is_Some (peers !! d)) →
  (∀ s, s ∈ rsp_owner_selections (bnd_spec binding) → lane_owner s →
     ∃ lane, lane ∈ pl_lanes (rsp_plan (bnd_spec binding)) ∧ own_lane_id s = Some (lane_lane_id lane)) →
  generation ≠ 0 →
  ∃ placements x,
    derive_embedded_duplex_owner_placements binding local_peer_id authority_peer_id device_peers = Ok placements ∧
    composite_new generation local_peer_id placements l r = Ok x ∧
    ∀ s, s ∈ rsp_owner_selections (bnd_spec binding) → ∃ peer,
      placement_peer (bnd_spec binding) authority_peer_id peers s = Ok peer ∧
      composite_target x (own_owner_kind s) (own_owner_id s) (own_provider_kind s) (own_resource_id s) =
        Ok (placement_target local_peer_id peer).
Proof.
  intros Hb Hl Ha Hm Hd Hlanes Hg. pose proof (binding_validate_wf _ Hb) as Hw.
  assert (Hne : ∀ d p, peers !! d = Some p → p ≠ EmptyString).
  { by eapply device_peer_map_nonempty; [exact Hm|]. }
  set (spec := bnd_spec binding) in *.
  pose proof (placement_for_wf spec authority_peer_id peers Hw Ha Hne Hd Hlanes local_peer_id) as Hp.
  destruct (mapM_all_ok (placement_for spec authority_peer_id peers local_peer_id) (rsp_owner_selections spec))
    as [placements Hmap]; [intros s Hs; destruct (Hp s Hs) as (p & ? & _); eauto|].
  pose proof (proj1 (mapM_ok _ _ _) Hmap) as Hf2.
  assert (Hkeys : key_of <$> placements =
    (fun s => (own_owner_kind s, own_owner_id s, own_provider_kind s, own_resource_id s)) <$> rsp_owner_selections spec).
  { clear -Hf2. induction Hf2 as [|s p ls lp E _ IH]; [done|]. cbn. f_equal; [|done].
    unfold placement_for in E. apply bind_ok in E as (peer & _ & [= <-]). done. }
  assert (Hvalid : Forall (fun p => placement_invalid p = false) placements).
  { apply Forall_forall. intros p Hin. apply list_elem_of_lookup in Hin as [i Hi].
    destruct (Forall2_lookup_r _ _ _ _ _ Hf2 Hi) as (s & Hs & E). apply list_elem_of_lookup_2 in Hs.
    destruct (Hp s Hs) as (p' & E' & Hv & _). congruence. }
  destruct (collect_placements_ok ∅ ∅ placements Hvalid) as (exact & families & Ec & H1 & _ & Hfam).
  { rewrite Hkeys. by apply owner_keys_nodup. }
  { apply Forall_forall. intros p _. apply lookup_empty. }
  exists placements, (mkComposite generation local_peer_id exact l r ∅). split_and!.
  - unfold derive_embedded_duplex_owner_placements. rewrite Hb. cbn [map_err mbind result_bind].
    rewrite (proj2 (str_is_empty_false _) Hl), (proj2 (str_is_empty_false _) Ha). cbn [orb fail_if mbind result_bind].
    rewrite Hm. exact Hmap.
  - unfold composite_new. rewrite Ec. cbn [mbind result_bind].
    rewrite (proj2 (N.eqb_neq _ _) Hg), (proj2 (str_is_empty_false _) Hl), bool_decide_true; [done|].
    rewrite Hfam. apply set_eq. intros k. rewrite elem_of_union, !elem_of_list_to_set.
    split; [intros _; apply owner_kinds_all|]. intros _. left.
    destruct (ow_cover _ (rw_owners _ Hw) k) as [Hn Hc].
    destruct (selected_ids k (rsp_owner_selections spec)) as [|id ids] eqn:Es; [by apply Permutation_nil_l in Hc; rewrite Hc in Hn|].
    assert (Hin : id ∈ selected_ids k (rsp_owner_selections spec)) by (rewrite Es; set_solver).
    apply list_elem_of_fmap in Hin as (s & _ & [<- Hs]%list_elem_of_filter).
    assert (Hk : own_owner_kind s ∈ (fun key : placement_key => key.1.1.1) <$> (key_of <$> placements)).
    { rewrite Hkeys. apply list_elem_of_fmap. eexists. split; [|apply list_elem_of_fmap; by exists s]. done. }
    rewrite <- list_fmap_compose in Hk. exact Hk.
  - intros s Hs. destruct (Hp s Hs) as (p & E & _ & Hk).
    apply list_elem_of_lookup in Hs as [i Hi]. destruct (Forall2_lookup_l _ _ _ _ _ Hf2 Hi) as (p' & Hi' & E').
    assert (p' = p) as -> by congruence. apply list_elem_of_lookup_2 in Hi'.
    unfold placement_for in E. apply bind_ok in E as (peer & Epeer & [= Ep]). exists peer. split; [done|].
    specialize (H1 _ Hi'). unfold composite_target. cbn [cx_placements].
    change (own_owner_kind s, own_owner_id s, own_provider_kind s, own_resource_id s) with
      (key_of (mkPlacement (own_owner_kind s) (own_owner_id s) (own_provider_kind s) (own_resource_id s)
        (placement_target local_peer_id peer))). rewrite Ep, H1. by rewrite <- Ep.
Qed.
End Accepted.
