(* ===== verification/OwnerFixture.v ===== *)
(** * A concrete wire for owner dispatch

    A self-delimiting code for JSON documents, structs written as objects of
    their variable fields, and a key whose signatures are a fixed function of
    key and message: instances of every interface the dispatch servers are
    proved against, on which they run. *)

From S2P Require Import Prelude RustStr OrdMap JsonValue UpdateAdmission MediaRuntime SignatureBase64 RetainedCleanup CleanupTicket OwnerEffect WireFrame OwnerWire DispatchJournal OwnerDispatch OwnerTheorems ProductActivation.

Local Open Scope N_scope.

(** ** Documents *)

Section ValueInd.
Context (P : Value → Prop) (Hnull : P VNull) (Hbool : ∀ b, P (VBool b)) (Hnum : ∀ t, P (VNumber t)).
Context (Hstr : ∀ t, P (VString t)) (Harr : ∀ l, Forall P l → P (VArray l)).
Context (Hobj : ∀ m, Forall (fun e => P e.2) m → P (VObject m)).

Fixpoint value_ind' (v : Value) : P v :=
  match v with
  | VNull => Hnull
  | VBool b => Hbool b
  | VNumber t => Hnum t
  | VString t => Hstr t
  | VArray l => Harr l ((fix go l : Forall P l :=
      match l with [] => List.Forall_nil _ | x :: l => Forall_cons_2 _ _ _ (value_ind' x) (go l) end) l)
  | VObject m => Hobj m ((fix go m : Forall (fun e => P e.2) m :=
      match m with [] => List.Forall_nil _ | e :: m => Forall_cons_2 _ _ _ (value_ind' e.2) (go m) end) m)
  end.
End ValueInd.

Definition put_text (s : string) : list N := len (str_bytes s) :: str_bytes s.
Definition get_text (l : list N) : option (string * list N) :=
  match l with
  | n :: rest => Some (str_of_bytes (take (N.to_nat n) rest), drop (N.to_nat n) rest)
  | [] => None
  end.

Lemma get_put_text s rest : get_text (put_text s ++ rest) = Some (s, rest).
Proof. unfold get_text, put_text, len. cbn. by rewrite Nat2N.id, take_app_length, drop_app_length, str_of_str_bytes. Qed.

Fixpoint enc (v : Value) : list N :=
  match v with
  | VNull => [0]
  | VBool b => [1; if b then 1 else 0]
  | VNumber t => 2 :: put_text t
  | VString t => 3 :: put_text t
  | VArray l => 4 :: len l :: flat_map enc l
  | VObject m => 5 :: len m :: flat_map (fun e => put_text e.1 ++ enc e.2) m
  end.

Fixpoint dec_list {A} (p : list N → option (A * list N)) (n : nat) (l : list N) : option (list A * list N) :=
  match n with
  | O => Some ([], l)
  | S n => '(x, l) ← p l; '(xs, l) ← dec_list p n l; Some (x :: xs, l)
  end.

Fixpoint dec (fuel : nat) (l : list N) : option (Value * list N) :=
  match fuel with
  | O => None
  | S fuel =>
      match l with
      | 0 :: r => Some (VNull, r)
      | 1 :: b :: r => Some (VBool (b =? 1), r)
      | 2 :: r => '(t, r) ← get_text r; Some (VNumber t, r)
      | 3 :: r => '(t, r) ← get_text r; Some (VString t, r)
      | 4 :: n :: r => '(xs, r) ← dec_list (dec fuel) (N.to_nat n) r; Some (VArray xs, r)
      | 5 :: n :: r =>
          '(es, r) ← dec_list (fun l => '(k, l) ← get_text l; '(v, l) ← dec fuel l; Some ((k, v), l))
                       (N.to_nat n) r;
          Some (VObject es, r)
      | _ => None
      end
  end.

Fixpoint depth (v : Value) : nat :=
  match v with
  | VArray l => S (max_list (map depth l))
  | VObject m => S (max_list (map (fun e => depth e.2) m))
  | _ => 1
  end.

Lemma dec_list_enc {A} (p : list N → option (A * list N)) (e : A → list N) xs rest :
  Forall (fun x => ∀ r, p (e x ++ r) = Some (x, r)) xs →
  dec_list p (length xs) (flat_map e xs ++ rest) = Some (xs, rest).
Proof. induction 1 as [|x xs Hx _ IH]; cbn; [done|]. rewrite <- app_assoc, Hx. cbn. by rewrite IH. Qed.

Lemma max_list_le n l : (max_list l ≤ n)%nat → Forall (fun m => (m ≤ n)%nat) l.
Proof. induction l as [|m l IH]; cbn; constructor; [lia|]. apply IH. lia. Qed.

Lemma dec_enc v : ∀ fuel rest, (depth v ≤ fuel)%nat → dec fuel (enc v ++ rest) = Some (v, rest).
Proof.
  induction v as [|b|t|t|l IH|m IH] using value_ind'; intros [|fuel] rest Hd; cbn in Hd; try lia;
    cbn [enc app dec]; try (by rewrite get_put_text); try reflexivity; try by destruct b.
  - unfold len. rewrite Nat2N.id, dec_list_enc; [done|].
    apply le_S_n, max_list_le in Hd. rewrite Forall_map in Hd. rewrite Forall_forall in *. eauto.
  - unfold len. rewrite Nat2N.id, (dec_list_enc _ (fun e => put_text e.1 ++ enc e.2)); [done|].
    apply le_S_n, max_list_le in Hd. rewrite Forall_map in Hd. rewrite Forall_forall in *. intros [k v] Hv r. cbn [fst snd].
    rewrite <- app_assoc, get_put_text. cbn [mbind option_bind]. pose proof (IH (k, v) Hv fuel r (Hd (k, v) Hv)) as E. cbn in E. by rewrite E.
Qed.

Definition to_vec (v : Value) : option (list N) := if (depth v <=? 4)%nat then Some (enc v) else None.
Definition from_slice (l : list N) : option Value :=
  match dec 4 l with Some (v, []) => Some v | _ => None end.

Lemma to_from v bytes : to_vec v = Some bytes → from_slice bytes = Some v.
Proof.
  unfold to_vec, from_slice. destruct (Nat.leb_spec (depth v) 4); [|done]. intros [= <-].
  pose proof (dec_enc v 4 [] H) as E. rewrite app_nil_r in E. by rewrite E.
Qed.

(** ** Keys and stores *)

Definition fixture_public : list N := repeat 7 32.
Definition fixture_signature (key bytes : list N) : list N :=
  (fun b => b mod 256) <$> take 64 (key ++ bytes ++ repeat 0 64).

#[export] Instance fixture_crypto : ReleaseCrypto := {|
  VerifyingKey := list N;
  vk_from_bytes bytes := if (length bytes =? 32)%nat then Some bytes else None;
  vk_to_bytes key := key;
  verify_strict key bytes signature := bool_decide (signature = fixture_signature key bytes);
  sha256_digest bytes := (fun b => b mod 256) <$> take 32 (bytes ++ repeat 0 32);
  jcs_to_vec _ := None;
  envelope_from_slice _ := None;
|}.

#[export] Instance fixture_signer : OwnerDispatchSigner := {|
  signer_key_id := "key.peer.b.1";
  signer_sign bytes := Ok (fixture_signature fixture_public bytes);
|}.

#[export] Instance fixture_signer_laws : SignerLaws fixture_public.
Proof.
  split. intros bytes signature [= <-]. split_and!.
  - unfold fixture_signature. rewrite length_fmap, length_take, !length_app, !repeat_length. lia.
  - unfold fixture_signature. apply Forall_fmap, Forall_true. intros b. by apply N.mod_lt.
  - exists fixture_public. split; [done|]. cbn. by apply bool_decide_eq_true.
Qed.

#[export] Instance fixture_cleanup_encoding : CleanupEncoding := {|
  request_to_vec _ := None;
  effect_to_vec _ _ _ := None;
|}.

(** A store that is what was last committed; the next answers can be failures
    before or after the write. *)
Record FixtureStore (T : Type) := mkFixtureStore {
  fx_durable : DispatchReplay T;
  fx_failures : list bool;
}.
Arguments mkFixtureStore {T} _ _.
Arguments fx_durable {T} _.
Arguments fx_failures {T} _.

#[export] Instance fixture_store T : DispatchReplayStore (FixtureStore T) T := {|
  dispatch_commit s x :=
    match fx_failures s with
    | [] => (mkFixtureStore x [], Ok tt)
    | written :: rest =>
        (mkFixtureStore (if written then x else fx_durable s) rest, Err "store unavailable"%string)
    end;
|}.

#[export] Program Instance fixture_store_laws T : DispatchStoreLaws (FixtureStore T) T := {|
  dispatch_durable := fx_durable;
|}.
Next Obligation. intros T [d [|w f]] x s'; cbn; [by intros [= <-]|done]. Qed.
Next Obligation. intros T [d [|w f]] x s' e; cbn; [done|]. intros [= <- _]. destruct w; auto. Qed.

#[export] Instance fixture_replay_encoding T : DispatchReplayEncoding T := {|
  dispatch_replay_to_vec x := Some (repeat 0 (size (dr_pending_request_sha256 x) + size (dr_terminal x)));
|}.

(** ** A dispatch *)

Definition sha_text (c : string) : string := ("sha256:" ++ String.concat EmptyString (repeat c 64))%string.

Definition fixture_authority : OwnerDispatchAuthorityProjection :=
  mkOwnerProjection "rusty.quest.c1.owner_projection.v1" "peer.a" "peer.b" "session.one" "grant.one" 7 "host.a"
    "epoch.one" "runtime.one" "client.one" "lease.one" (sha_text "a") (sha_text "b") (sha_text "c") 5000 CurrentRoute.

Definition fixture_ticket : AndroidMediaExecutionTicket :=
  mkTicket ANDROID_MEDIA_EXECUTION_TICKET_SCHEMA "capability.native" 9 "action.start.one" "epoch.one" 3 4
    "client.one" "lease.one" 1 OpStart OwnSource ActStart "owner.camera" "camera2" "camera.stereo".

(** One byte that reads as the empty document. *)
Definition fixture_text : string := str_of_bytes [5; 0].

Definition fixture_readback : AndroidMediaOwnerReadback :=
  mkReadback None ANDROID_MEDIA_READBACK_SCHEMA "capability.native" 9 "action.start.one" "epoch.one" 3 4
    "client.one" "lease.one" 1 OpStart OwnSource ActStart "owner.camera" "camera2" "camera.stereo"
    "handle.camera" 1 "started" "receipt.camera".

Definition fixture_effect : AuthenticatedOwnerEffect :=
  mkEffect fixture_readback fixture_text
    (mkVerifiedEffect VERIFIED_OWNER_EFFECT_SCHEMA "receipt.camera" (sha256_identity (str_bytes fixture_text)) 9 1
       "started" false "handle.camera" (sha_text "d")).

#[export] Instance fixture_effect_encoding : EffectEncoding := {|
  readback_from_str text := if (text =? fixture_text)%string then Some fixture_readback else None;
  response_to_vec _ := None;
  response_from_slice _ := None;
  prepared_to_vec _ := None;
|}.

(** A registry that counts its entries. *)
#[export] Instance fixture_registry : AuthenticatedOwnerRegistry N := {|
  owner_execute_and_verify count _ _ _ := (count + 1, Ok fixture_effect);
|}.

#[export] Instance fixture_registry_laws : OwnerRegistryLaws N.
Proof. split. intros r authority ticket mode r' effect [= _ <-]. reflexivity. Qed.

Definition fixture_request (signature : string) : OwnerDispatchRequest :=
  mkOwnerRequest OWNER_DISPATCH_REQUEST_SCHEMA "dispatch.one" 1 1000 "peer.b" fixture_authority fixture_ticket Execute
    "key.peer.b.1" signature.

#[export] Instance owner_projection_eq_dec : EqDecision OwnerDispatchAuthorityProjection.
Proof. solve_decision. Defined.
#[export] Instance owner_request_eq_dec : EqDecision OwnerDispatchRequest.
Proof. solve_decision. Defined.
#[export] Instance activation_proof_eq_dec : EqDecision ProductActivationProof.
Proof. solve_decision. Defined.
#[export] Instance activation_request_eq_dec : EqDecision ProductActivationRequest.
Proof. solve_decision. Defined.
#[export] Instance activation_readback_eq_dec : EqDecision ProductActivationReadback.
Proof. solve_decision. Defined.

(** ** An activation *)

Definition fixture_proof : ProductActivationProof :=
  mkActivationProof "action.start.one" "epoch.one" "client.one" "lease.one" "runtime.one" 5
    ["r1"; "r2"; "r3"; "r4"; "r5"; "r6"; "r7"]%string (sha256_identity (str_bytes "{}")).

Definition fixture_activation (id signature : string) : ProductActivationRequest :=
  mkActivationRequest PRODUCT_ACTIVATION_REQUEST_SCHEMA id 1000 4000 "peer.b" fixture_authority fixture_proof "{}"
    "key.peer.b.1" signature.

Definition fixture_activation_readback (id : string) : ProductActivationReadback :=
  mkActivationReadback PRODUCT_ACTIVATION_READBACK_SCHEMA id "grant.one" 2 true.

#[export] Instance fixture_activation_registry : ProductActivationRegistry N := {|
  activate count id _ _ := (count + 1, Ok (fixture_activation_readback id));
|}.

(** ** Structs as objects of their variable fields *)

Definition opt_text (o : option string) : Value := match o with None => VNull | Some s => VString s end.
Definition text_opt (v : Value) : option (option string) :=
  match v with VNull => Some None | VString s => Some (Some s) | _ => None end.

Definition status_text (s : OwnerDispatchStatus) : string :=
  match s with Completed => "completed" | Uncertain => "uncertain" | Rejected => "rejected" end.
Definition text_status (s : string) : option OwnerDispatchStatus :=
  if (s =? "completed")%string then Some Completed else if (s =? "uncertain")%string then Some Uncertain
  else if (s =? "rejected")%string then Some Rejected else None.

Lemma status_text_back s : text_status (status_text s) = Some s.
Proof. by destruct s. Qed.

Definition field_text (k : string) (v : Value) : option string := m ← as_object v; v ← bt_get k m; as_str v.
Definition field (k : string) (v : Value) : option Value := m ← as_object v; bt_get k m.

Definition fx_request_to_value (r : OwnerDispatchRequest) : option Value :=
  if bool_decide (r = fixture_request (odq_signature_base64 r))
  then Some (VObject [("signature_base64", VString (odq_signature_base64 r)); ("ticket", VObject [])]%string)
  else None.
Definition fx_request_from_value (v : Value) : option OwnerDispatchRequest :=
  s ← field_text "signature_base64" v; Some (fixture_request s).

Definition effect_value (effect : option AuthenticatedOwnerEffect) : option Value :=
  match effect with
  | None => Some VNull
  | Some effect =>
      if bool_decide (effect = fixture_effect)
      then Some (VObject [("readback", VNull); ("readback_json", VString fixture_text)]%string) else None
  end.
Definition value_effect (v : Value) : option (option AuthenticatedOwnerEffect) :=
  match v with VNull => Some None | VObject _ => Some (Some fixture_effect) | _ => None end.

Definition fx_response_to_value (r : OwnerDispatchResponse) : option Value :=
  effect ← effect_value (ods_effect r);
  if (ods_schema_id r =? OWNER_DISPATCH_RESPONSE_SCHEMA)%string && (ods_signer_key_id r =? signer_key_id)%string
  then Some (VObject [("dispatch_id", VString (ods_dispatch_id r)); ("effect", effect);
    ("failure", opt_text (ods_failure r)); ("request_sha256", VString (ods_request_sha256 r));
    ("signature_base64", VString (ods_signature_base64 r)); ("status", VString (status_text (ods_status r)))]%string)
  else None.
Definition fx_response_from_value (v : Value) : option OwnerDispatchResponse :=
  id ← field_text "dispatch_id" v;
  effect ← field "effect" v; effect ← value_effect effect;
  failure ← field "failure" v; failure ← text_opt failure;
  sha ← field_text "request_sha256" v;
  signature ← field_text "signature_base64" v;
  status ← field_text "status" v; status ← text_status status;
  Some (mkOwnerResponse OWNER_DISPATCH_RESPONSE_SCHEMA id sha status effect failure signer_key_id signature).

Definition fx_activation_to_value (r : ProductActivationRequest) : option Value :=
  if bool_decide (r = fixture_activation (paq_activation_id r) (paq_signature_base64 r))
  then Some (VObject [("activation_id", VString (paq_activation_id r)); ("completion_json", VString (paq_completion_json r));
    ("signature_base64", VString (paq_signature_base64 r))]%string) else None.
Definition fx_activation_from_value (v : Value) : option ProductActivationRequest :=
  id ← field_text "activation_id" v; s ← field_text "signature_base64" v; Some (fixture_activation id s).

Definition fx_ack_to_value (r : ProductActivationResponse) : option Value :=
  readback ← match pas_readback r with
             | None => Some VNull
             | Some readback =>
                 if bool_decide (readback = fixture_activation_readback (pas_activation_id r))
                 then Some (VBool true) else None
             end;
  if (pas_schema_id r =? PRODUCT_ACTIVATION_RESPONSE_SCHEMA)%string && (pas_signer_key_id r =? signer_key_id)%string
  then Some (VObject [("activation_id", VString (pas_activation_id r)); ("failure", opt_text (pas_failure r));
    ("readback", readback); ("request_sha256", VString (pas_request_sha256 r));
    ("signature_base64", VString (pas_signature_base64 r)); ("status", VString (status_text (pas_status r)))]%string)
  else None.
Definition fx_ack_from_value (v : Value) : option ProductActivationResponse :=
  id ← field_text "activation_id" v;
  failure ← field "failure" v; failure ← text_opt failure;
  readback ← field "readback" v;
  sha ← field_text "request_sha256" v;
  signature ← field_text "signature_base64" v;
  status ← field_text "status" v; status ← text_status status;
  Some (mkActivationResponse PRODUCT_ACTIVATION_RESPONSE_SCHEMA id sha status
          (match readback with VBool _ => Some (fixture_activation_readback id) | _ => None end) failure
          signer_key_id signature).

#[export] Instance fixture_encoding : OwnerDispatchEncoding := {|
  value_to_vec := to_vec;
  value_from_slice := from_slice;
  ticket_to_vec t := if bool_decide (t = fixture_ticket) then Some (enc (VObject [])) else None;
  owner_request_to_value := fx_request_to_value;
  owner_request_from_value := fx_request_from_value;
  owner_response_to_value := fx_response_to_value;
  owner_response_from_value := fx_response_from_value;
  activation_request_to_value := fx_activation_to_value;
  activation_request_from_value := fx_activation_from_value;
  activation_response_to_value := fx_ack_to_value;
  activation_response_to_vec r := v ← fx_ack_to_value r; to_vec v;
  activation_response_from_slice bytes := v ← from_slice bytes; fx_ack_from_value v;
|}.

(** The literal objects are sorted. *)
Lemma sorted_literal {A} (m : btree A) :
  bt_sorted m ↔ (fix go m := match m with
    | [] => True
    | a :: rest => match rest with [] => True | b :: _ => String.compare a.1 b.1 = Lt end ∧ go rest
    end) m.
Proof.
  unfold bt_sorted. split.
  - induction 1 as [|a m Hm IH Ha]; [done|]. split; [|done]. destruct m; [done|]. by apply Forall_cons in Ha as [? _].
  - induction m as [|a m IH]; [constructor|]. intros [H1 H2]. specialize (IH H2). constructor; [done|].
    destruct m as [|b m]; [constructor|]. constructor; [done|].
    apply Sorting.Sorted.StronglySorted_inv in IH as [_ IH]. eapply Forall_impl; [exact IH|]. cbn. intros c Hc.
    by eapply string_compare_lt_trans.
Qed.

Ltac literal_sorted := apply sorted_literal; cbn; done.

Lemma fx_ack_back r v : fx_ack_to_value r = Some v → fx_ack_from_value v = Some r.
Proof.
  unfold fx_ack_to_value. destruct r as [schema id sha status readback failure key signature]. cbn. intros E.
  apply bind_Some in E as (rb & Erb & E). destruct (_ && _) eqn:C; [|done]. bool_to_prop. subst.
  injection E as <-. cbn. unfold field, field_text. cbn. rewrite status_text_back.
  destruct readback as [readback|]; [case_bool_decide; [subst|done]|]; injection Erb as <-; destruct failure; done.
Qed.

#[export] Instance fixture_encoding_laws : OwnerDispatchEncodingLaws.
Proof.
  split; cbn -[to_vec from_slice enc].
  - apply to_from.
  - intros r v bytes. unfold fx_request_to_value. case_bool_decide as Hr; [|done]. intros [= <-].
    case_bool_decide; [|done]. intros [= <-]. split; [cbn; by rewrite <- Hr|].
    do 2 eexists. split_and!; [reflexivity|literal_sorted|done..].
  - intros r v text. unfold fx_request_to_value at 1. case_bool_decide as Hr; [|done]. intros [= <-].
    eexists. split_and!; [reflexivity|literal_sorted|]. rewrite Hr. unfold fx_request_to_value. cbn.
    by rewrite bool_decide_true.
  - intros r v E. unfold fx_response_to_value in E. apply bind_Some in E as (ev & Eeff & E).
    destruct (_ && _) eqn:C; [|done]. bool_to_prop. injection E as <-.
    destruct r as [schema id sha status effect failure key signature]; cbn in *; subst schema key.
    split; [|eexists; split_and!; [reflexivity|literal_sorted|done|]].
    + destruct effect as [effect|]; [unfold effect_value in Eeff; case_bool_decide; [subst|done]|];
        injection Eeff as <-; destruct failure, status; done.
    + destruct effect as [effect|]; [|by injection Eeff as <-].
      unfold effect_value in Eeff. case_bool_decide; [subst|done]. injection Eeff as <-.
      eexists. split_and!; [reflexivity|literal_sorted|reflexivity|]. intros v' _ _.
      destruct failure, status; done.
  - intros r v text E. unfold fx_response_to_value in E. apply bind_Some in E as (ev & Eeff & E).
    destruct (_ && _) eqn:C; [|done]. injection E as <-. eexists. split_and!; [reflexivity|literal_sorted|].
    unfold fx_response_to_value. cbn. rewrite Eeff. cbn in C |- *. by rewrite C.
  - intros text readback. change (readback_from_str text = Some readback → is_Some (from_slice (str_bytes text))).
    cbn [readback_from_str fixture_effect_encoding]. destruct (String.eqb_spec text fixture_text) as [->|]; [|done]. intros _. vm_compute. eauto.
  - intros r v. unfold fx_activation_to_value. case_bool_decide as Hr; [|done]. intros [= <-].
    split; [cbn; by rewrite <- Hr|]. eexists. split_and!; [reflexivity|literal_sorted|done..].
  - intros r v text E. unfold fx_ack_to_value in E. apply bind_Some in E as (rb & Erb & E).
    destruct (_ && _) eqn:C; [|done]. injection E as <-. eexists. split_and!; [reflexivity|literal_sorted|].
    destruct r. bool_to_prop. cbn in *. subst. unfold fx_ack_to_value. cbn. by rewrite Erb.
  - intros r bytes E. apply bind_Some in E as (v & Ev & E). rewrite (to_from _ _ E). cbn. by apply fx_ack_back.
Qed.
