(* ===== verification/OwnerClaims.v ===== *)
(** * Owner dispatch, product activation and placements: the properties

    The theorems about the dispatch servers, the executors and the placements,
    each with a run of the concrete wire where it has hypotheses. *)

From S2P Require Import Prelude RustStr JsonValue UpdateAdmission MediaModel MediaSpec MediaRuntime MediaFixture MediaComposition ProductBinding SignatureBase64 CleanupTicket OwnerEffect WireFrame OwnerWire DispatchJournal OwnerDispatch OwnerTheorems ProductActivation OwnerPlacement OwnerFixture.

Local Open Scope N_scope.

(** ** A run of the fixture *)

Definition owner_env : DispatchEnv :=
  mkDispatchEnv (Ok 1100) (Ok 30000)
    (fun _ signing signature => fail_if (negb (verify_strict fixture_public signing signature)) "request signature"%string)
    (fun _ => Ok tt).

Definition owner_store : FixtureStore OwnerDispatchResponse := mkFixtureStore (mkDispatchReplay ∅ ∅) [].

Definition owner_server : OwnerDispatchServer N (FixtureStore OwnerDispatchResponse) :=
  mkOwnerServer "peer.b" 0 (mkDispatchReplay ∅ ∅) owner_store.

Definition signed_owner_request : OwnerDispatchRequest :=
  Eval vm_compute in match
    signing ← request_signing_bytes (fixture_request EmptyString);
    signature ← signer_sign signing;
    Ok (set_owner_request_signature (fixture_request EmptyString) (encode_signature_base64 signature))
  with Ok r => r | Err _ => fixture_request EmptyString end.

Definition owner_frame : list N :=
  Eval vm_compute in match encode_request_frame signed_owner_request with Ok frame => frame | Err _ => [] end.

Definition owner_after : OwnerDispatchServer N (FixtureStore OwnerDispatchResponse) :=
  (handle_frame_with_admission owner_env owner_frame owner_server).1.

Definition owner_answer : list N :=
  Eval vm_compute in match (handle_frame_with_admission owner_env owner_frame owner_server).2 with
  | Ok bytes => bytes | Err _ => [] end.

Lemma owner_answered :
  handle_frame_with_admission owner_env owner_frame owner_server = (owner_after, Ok owner_answer).
Proof.
  unfold owner_after.
  assert (H : (handle_frame_with_admission owner_env owner_frame owner_server).2 = Ok owner_answer) by (vm_compute; reflexivity).
  destruct (handle_frame_with_admission owner_env owner_frame owner_server). cbn in *. by rewrite H.
Qed.

Section Claims.
Context {RC : ReleaseCrypto} {CE : CleanupEncoding} {EE : EffectEncoding} {OE : OwnerDispatchEncoding}.
Context {SG : OwnerDispatchSigner}.


(** C19: The verdict that the authority's executor reaches on the server's answer
    to a request it sees for the first time is the verdict on what the registry
    returned: the validated effect itself, or uncertainty. Framing, JSON
    splitting, signing, storing and verification lose nothing in between. *)
Theorem owner_dispatch_end_to_end {OL : OwnerDispatchEncodingLaws} {DE : DispatchReplayEncoding OwnerDispatchResponse}
    {R St Tr : Type} `{AuthenticatedOwnerRegistry R} `{DispatchReplayStore St OwnerDispatchResponse}
    {RL : OwnerRegistryLaws R} (x : RemoteOwnerDispatchExecutor (Tr := Tr)) public env request frame
    (s s' : OwnerDispatchServer R St) bytes :
  SignerLaws public → vk_from_bytes public = Some (rx_executor_key x) → rx_executor_key_id x = signer_key_id →
  encode_request_frame request = Ok frame → first_sight s (odq_dispatch_id request) →
  handle_frame_with_admission env frame s = (s', Ok bytes) →
  accept_response x request frame bytes =
    effect_verdict request (owner_execute_and_verify (os_registry s) (Some (odq_authority request))
      (odq_ticket request) (odq_mode request)).2.
Proof. apply owner_dispatch_roundtrip. Qed.

(** A frame that the dispatch server answered is answered with the same bytes
    ever after, and one that the activation server answered too, without an
    effect and without a change of state, whatever clock and verifier say then. *)
Theorem answered_frames_stay_answered {OL : OwnerDispatchEncodingLaws}
    {DE : DispatchReplayEncoding OwnerDispatchResponse} {DA : DispatchReplayEncoding ProductActivationResponse}
    {R RA St SA : Type} `{AuthenticatedOwnerRegistry R} `{ProductActivationRegistry RA}
    `{DispatchReplayStore St OwnerDispatchResponse} `{DispatchReplayStore SA ProductActivationResponse}
    {SL : DispatchStoreLaws SA ProductActivationResponse} {RL : OwnerRegistryLaws R}
    env frame (s s' : OwnerDispatchServer R St) bytes aenv aframe (a a' : ProductActivationServer RA SA) abytes :
  handle_frame_with_admission env frame s = (s', Ok bytes) →
  activation_handle_frame aenv aframe a = (a', Ok abytes) →
  (∀ env', handle_frame_with_admission env' frame s' = (s', Ok bytes)) ∧
  (∀ aenv', activation_handle_frame aenv' aframe a' = (a', Ok abytes)).
Proof.
  intros E Ea. split; [by eapply owner_replay_identical|]. intros aenv'.
  by apply (activation_replay_identical aenv aframe a a' abytes).
Qed.


(** C40: With 255 responses and one marker in its journal, a state that [restore]
    accepts, the activation server answers one further activation and then the
    retry of the marked one, and cannot be restored from what it committed: the
    retry adds a 257th response without looking at the bound. *)
Theorem activation_retry_blocks_restart {OL : OwnerDispatchEncodingLaws}
    {DA : DispatchReplayEncoding ProductActivationResponse} {R St : Type}
    `{ProductActivationRegistry R} `{DispatchReplayStore St ProductActivationResponse}
    {SL : DispatchStoreLaws St ProductActivationResponse}
    env_b frame_b (s s1 : ProductActivationServer R St) bytes_b env_a frame_a s2 bytes_a a b peer (registry : R) :
  N.of_nat (size (dr_terminal (as_replay s))) = 255 →
  decode_product_activation_request frame_a = Ok a → decode_product_activation_request frame_b = Ok b →
  is_Some (dr_pending_request_sha256 (as_replay s) !! paq_activation_id a) →
  dr_terminal (as_replay s) !! paq_activation_id a = None → ¬ recorded (as_replay s) (paq_activation_id b) →
  activation_handle_frame env_b frame_b s = (s1, Ok bytes_b) →
  activation_handle_frame env_a frame_a s1 = (s2, Ok bytes_a) →
  activation_restore peer registry (dispatch_durable (as_store s2)) (as_store s2) =
    Err "invalid activation replay state"%string.
Proof. apply activation_retry_overflows. Qed.

(** A validated effect is evidence for its own ticket and readback exactly
    once: after an execution the first look verifies, and no later look at that
    capability does, whatever ticket and readback it shows. The composite keeps
    only evidence that was validated for the ticket it is stored under. *)
Theorem composite_evidence_once {R C : Type} `{AuthenticatedOwnerRegistry R} `{OwnerDispatchClient C}
    env (x x' : CompositeAndroidMediaOwnerExecutor R C) ticket mode readback :
  evidence_valid x → composite_execute env x ticket mode = (x', Ok readback) →
  evidence_valid x' ∧ (composite_verify x' ticket readback).2 = true ∧
  ∀ readback0 ticket' readback', tk_capability ticket' = tk_capability ticket →
    (composite_verify (composite_verify x' ticket readback0).1 ticket' readback').2 = false.
Proof.
  intros Hv E. split; [|by eapply composite_verify_once].
  pose proof (composite_execute_evidence env x ticket mode Hv) as H1. by rewrite E in H1.
Qed.

(** From a valid packaged binding whose devices all have an enrolled peer and
    whose lane owners name a lane of the plan, one placement per selected owner
    is derived, the composite executor accepts them as complete, and it finds
    for every selected owner the peer of its sink, its source, its lane or the
    authority. *)
Theorem placements_complete {SE : SpecEncoding} {R C : Type}
    binding local_peer_id authority_peer_id device_peers peers generation (l : R) (r : C) :
  binding_validate binding = Ok tt → local_peer_id ≠ EmptyString → authority_peer_id ≠ EmptyString →
  device_peer_map ∅ device_peers = Ok peers →
  (∀ d, d ∈ dev_device_id <$> pl_devices (rsp_plan (bnd_spec binding)) → is_Some (peers !! d)) →
  (∀ s, s ∈ rsp_owner_selections (bnd_spec binding) → lane_owner s →
     ∃ lane, lane ∈ pl_lanes (rsp_plan (bnd_spec binding)) ∧ own_lane_id s = Some (lane_lane_id lane)) →
  generation ≠ 0 →
  ∃ placements x,
    derive_embedded_duplex_owner_placements binding local_peer_id authority_peer_id device_peers = Ok placements ∧
    composite_new generation local_peer_id placements l r = Ok x ∧
    ∀ s, s ∈ rsp_owner_selections (bnd_spec binding) → ∃ peer,
      placement_peer (bnd_spec binding) authority_peer_id peers s = Ok peer ∧
      composite_target x (own_owner_kind s) (own_owner_id s) (own_provider_kind s) (own_resource_id s) =
        Ok (placement_target local_peer_id peer).
Proof. apply placements_accepted. Qed.
End Claims.

(** ** Witnesses *)


Definition fixture_executor : RemoteOwnerDispatchExecutor (Tr := unit) := mkExecutor tt fixture_public "key.peer.b.1" 2.

Lemma owner_dispatch_end_to_end_witness :
  accept_response fixture_executor signed_owner_request owner_frame owner_answer = Ok fixture_effect.
Proof.
  etrans; [refine (owner_dispatch_end_to_end fixture_executor fixture_public owner_env signed_owner_request owner_frame
    owner_server owner_after owner_answer _ _ _ _ _ owner_answered)|].
  - reflexivity.
  - reflexivity.
  - vm_compute. reflexivity.
  - intros [[? E]|[? E]]; vm_compute in E; discriminate E.
  - vm_compute. reflexivity.
Defined.

(** Activations of the fixture. *)
Definition activation_env : ActivationEnv :=
  mkActivationEnv (Ok 1100) (Ok 30000)
    (fun _ signing signature => fail_if (negb (verify_strict fixture_public signing signature)) "activation signature"%string).

Definition activation_frame (id : string) : list N :=
  match encode_product_activation_request (fixture_activation id EmptyString) with Ok frame => frame | Err _ => [] end.

Definition activation_frame_a : list N := Eval vm_compute in activation_frame "activation.a".
Definition activation_frame_b : list N := Eval vm_compute in activation_frame "activation.b".

Definition activation_a : ProductActivationRequest :=
  Eval vm_compute in match decode_product_activation_request activation_frame_a with
  | Ok r => r | Err _ => fixture_activation EmptyString EmptyString end.
Definition activation_b : ProductActivationRequest :=
  Eval vm_compute in match decode_product_activation_request activation_frame_b with
  | Ok r => r | Err _ => fixture_activation EmptyString EmptyString end.

Definition activation_store (x : ProductActivationReplaySnapshot) : FixtureStore ProductActivationResponse :=
  mkFixtureStore x [].

Definition activation_server (x : ProductActivationReplaySnapshot)
    : ProductActivationServer N (FixtureStore ProductActivationResponse) :=
  mkActivationServer "peer.b" 0 x (activation_store x).

(** A call and its answer. *)
Definition activation_call (frame : list N) (s : ProductActivationServer N (FixtureStore ProductActivationResponse)) :=
  activation_handle_frame activation_env frame s.

Lemma call_ok frame s bytes : (activation_call frame s).2 = Ok bytes →
  activation_handle_frame activation_env frame s = ((activation_call frame s).1, Ok bytes).
Proof. unfold activation_call. intros <-. by destruct (activation_handle_frame _ _ _). Qed.

Definition ok_bytes (r : result string (list N)) : list N := match r with Ok bytes => bytes | Err _ => [] end.

Definition empty_activation := activation_server (mkDispatchReplay ∅ ∅).
Definition activation_bytes : list N := Eval vm_compute in ok_bytes (activation_call activation_frame_a empty_activation).2.

Lemma activation_answered : activation_handle_frame activation_env activation_frame_a empty_activation =
  ((activation_call activation_frame_a empty_activation).1, Ok activation_bytes).
Proof. apply call_ok. vm_compute. reflexivity. Qed.

Lemma answered_frames_stay_answered_witness :
  (∀ env', handle_frame_with_admission env' owner_frame owner_after = (owner_after, Ok owner_answer)) ∧
  (∀ aenv', activation_handle_frame aenv' activation_frame_a (activation_call activation_frame_a empty_activation).1 =
     ((activation_call activation_frame_a empty_activation).1, Ok activation_bytes)).
Proof.
  exact (answered_frames_stay_answered (SL := fixture_store_laws _) owner_env owner_frame owner_server owner_after owner_answer activation_env
    activation_frame_a empty_activation _ activation_bytes owner_answered activation_answered).
Defined.


(** 255 answered activations and the marker of another. *)
Definition old_response (id : string) : ProductActivationResponse :=
  mkActivationResponse PRODUCT_ACTIVATION_RESPONSE_SCHEMA id (sha_text "a") Uncertain None
    (Some "activation_effect_uncertain"%string) "key.peer.b.1" EmptyString.
Definition old_ids : list string := (fun n => fmt_decimal (N.of_nat n)) <$> seq 0 255.
Definition full_activation := activation_server (mkDispatchReplay
  {[ "activation.a"%string := sha256_prefixed activation_frame_a ]}
  (list_to_map ((fun id => (id, old_response id)) <$> old_ids))).

Definition after_b := (activation_call activation_frame_b full_activation).1.
Definition after_a := (activation_call activation_frame_a after_b).1.
Definition bytes_b : list N := Eval vm_compute in ok_bytes (activation_call activation_frame_b full_activation).2.
Definition bytes_a : list N := Eval vm_compute in ok_bytes (activation_call activation_frame_a after_b).2.

Lemma activation_retry_blocks_restart_witness :
  is_ok (activation_restore "peer.b" 0 (fx_durable (as_store full_activation)) (as_store full_activation)) = true ∧
  activation_restore "peer.b" 0 (fx_durable (as_store after_a)) (as_store after_a) =
    Err "invalid activation replay state"%string.
Proof.
  split; [vm_compute; reflexivity|].
  apply (activation_retry_blocks_restart (SL := fixture_store_laws _) activation_env activation_frame_b full_activation after_b bytes_b
    activation_env activation_frame_a after_a bytes_a activation_a activation_b "peer.b" 0).
  - vm_compute. reflexivity.
  - vm_compute. reflexivity.
  - vm_compute. reflexivity.
  - vm_compute. eauto.
  - vm_compute. reflexivity.
  - intros [[? E]|[? E]]; vm_compute in E; discriminate E.
  - apply call_ok. vm_compute. reflexivity.
  - apply call_ok. vm_compute. reflexivity.
Defined.

(** A composite with the fixture's owner placed locally. *)
#[local] Instance no_client : OwnerDispatchClient unit := {|
  client_execute c _ _ _ _ _ := (c, Err "no remote peer"%string);
|}.

Definition composite_env : CompositeEnv :=
  mkCompositeEnv (fun _ => Err "authenticated target executor generation unavailable"%string)
    (fun _ _ _ _ => Ok fixture_authority) (Ok 1100).

Definition fixture_composite : CompositeAndroidMediaOwnerExecutor N unit :=
  mkComposite 9 "peer.b" {[ (OwnSource, "owner.camera", "camera2", "camera.stereo")%string := PlaceLocal ]} 0 tt ∅.

Lemma composite_evidence_once_witness :
  let x' := (composite_execute composite_env fixture_composite fixture_ticket Execute).1 in
  evidence_valid x' ∧ (composite_verify x' fixture_ticket fixture_readback).2 = true ∧
  ∀ readback0 ticket' readback', tk_capability ticket' = tk_capability fixture_ticket →
    (composite_verify (composite_verify x' fixture_ticket readback0).1 ticket' readback').2 = false.
Proof.
  cbv zeta. apply (composite_evidence_once composite_env fixture_composite _ fixture_ticket Execute fixture_readback).
  - intros capability ticket effect E. vm_compute in E. discriminate E.
  - assert (E : (composite_execute composite_env fixture_composite fixture_ticket Execute).2 = Ok fixture_readback)
      by (vm_compute; reflexivity).
    rewrite <- E. by destruct (composite_execute composite_env fixture_composite fixture_ticket Execute).
Defined.

(** The mirror product with a lane for each of its lane owners. *)
Definition mirror_lane : string := "quest-a-shell-display-to-pc-host".
Definition placed_spec : MediaStreamRuntimeSpec :=
  mkRuntimeSpec (rsp_schema mirror_spec) (rsp_runtime_spec_id mirror_spec) (rsp_manifold_session_revision mirror_spec)
    (rsp_plan mirror_spec) (rsp_processors mirror_spec) (rsp_sinks mirror_spec) (rsp_lane_bindings mirror_spec)
    (rsp_direct_p2p_routes mirror_spec)
    ((fun s => if bool_decide (own_owner_kind s = OwnProcessor) || bool_decide (own_owner_kind s = OwnCodec)
               then mkOwner (own_owner_kind s) (own_owner_id s) (own_resource_id s) (Some mirror_lane) (own_provider_kind s)
               else s) <$> rsp_owner_selections mirror_spec)
    (rsp_compatibility_adapter_id mirror_spec).

#[local] Instance fixture_spec_encoding : SpecEncoding := {|
  spec_to_vec spec := Some (str_bytes (rsp_runtime_spec_id spec));
|}.

Definition placed_binding : MediaStreamRuntimeProductBinding :=
  mkBinding MEDIA_STREAM_RUNTIME_PRODUCT_BINDING_SCHEMA placed_spec (sha256_identity (str_bytes "runtime.mirror")).

Definition placed_devices : list AndroidMediaDevicePeerPlacement :=
  (fun d => mkDevicePeer (dev_device_id d) ("peer." ++ dev_device_id d)%string) <$> pl_devices (rsp_plan placed_spec).

Definition placed_peers : gmap string string :=
  match device_peer_map ∅ placed_devices with Ok m => m | Err _ => ∅ end.

Lemma placements_complete_witness :
  ∃ placements (x : CompositeAndroidMediaOwnerExecutor N unit),
    derive_embedded_duplex_owner_placements placed_binding "peer.pc-host" "peer.pc-host" placed_devices = Ok placements ∧
    composite_new 3 "peer.pc-host" placements 0 tt = Ok x.
Proof.
  destruct (placements_complete placed_binding "peer.pc-host" "peer.pc-host" placed_devices placed_peers 3 0 tt)
    as (placements & x & H1 & H2 & _).
  - vm_compute. reflexivity.
  - discriminate.
  - discriminate.
  - vm_compute. reflexivity.
  - apply Forall_forall. vm_compute. repeat constructor; eauto.
  - intros s Hs Hl. assert (Hf : Forall (fun s => bool_decide (own_owner_kind s = OwnCleanup) ||
      bool_decide (own_owner_kind s = OwnSink) || bool_decide (own_owner_kind s = OwnSource) ||
      bool_decide (own_lane_id s = Some mirror_lane) = true) (rsp_owner_selections placed_spec))
      by (vm_compute; repeat constructor).
    rewrite Forall_forall in Hf. specialize (Hf s Hs). destruct Hl as (L1 & L2 & L3).
    rewrite !bool_decide_false in Hf by done. cbn in Hf. apply bool_decide_eq_true in Hf. rewrite Hf.
    assert (Hlane : (lane_lane_id <$> pl_lanes (rsp_plan placed_spec)) = [mirror_lane]) by (vm_compute; reflexivity).
    change (rsp_plan (bnd_spec placed_binding)) with (rsp_plan placed_spec).
    destruct (pl_lanes (rsp_plan placed_spec)) as [|lane [|]]; try discriminate Hlane.
    injection Hlane as <-. exists lane. split; [apply list_elem_of_here|reflexivity].
  - discriminate.
  - exists placements, x. split; [exact H1|exact H2].
Defined.
