(* ===== verification/StreamClaims.v ===== *)
(** * Frames, packed streams and stereo pairs: the properties *)

From Stdlib Require Import ZArith Sorted.
From S2P Require Import Prelude RustStr UpdateAdmission MediaModel CleanupTicket OwnerEffect WireFrame PackedStream StereoPair OwnerWire OwnerFixture.

Local Open Scope N_scope.

(** C37: Over any calls on a new pairing runtime, every handle that was taken in is
    either pending or was given back exactly as often as it was taken in (in a
    completed pair, by expiry or by cancellation), at most 32 frames with
    distinct handles are pending, every completed pair joins a left and a right
    frame of one pair id, generation and lease that were both within the age
    bound, and no handle is released twice. *)
Theorem stereo_handles_conserved generation lease_id age runtime ops :
  pair_runtime_new generation lease_id age = Ok runtime →
  let '(runtime', ledger) := pair_run runtime ops in
  pl_accepted ledger ≡ₚ handles (pr_pending_by_pts runtime') ++ pl_returned ledger ∧
  len (pr_pending_by_pts runtime') ≤ 32 ∧ NoDup (handles (pr_pending_by_pts runtime')) ∧
  Forall (exact_pair age lease_id) (pl_pairs ledger) ∧ NoDup (pl_released ledger).
Proof.
  intros H. pose proof (pair_run_ledger age lease_id generation runtime ops H) as [W _ _ C P [R _]].
  destruct (pair_run runtime ops) as [runtime' ledger]. cbn in *. by destruct W.
Qed.

(** A runtime is never stuck on old frames: once every pending frame is past
    the age bound, expiry gives back all their handles in key order and leaves
    none, and the next fresh frame of the current generation is accepted. *)
Theorem stereo_pairs_drain runtime now_ns frame later_ns :
  pair_wf runtime →
  Forall (fun e => fs_submitted_at_ns e.2 + pr_max_pair_age_ns runtime < now_ns) (pr_pending_by_pts runtime) →
  fs_generation frame = pr_generation runtime → fs_lease_id frame = pr_lease_id runtime →
  is_blank (fs_frame_handle_id frame) = false → fs_frame_handle_id frame ∉ pr_released_handles runtime →
  later_ns ≤ fs_submitted_at_ns frame + pr_max_pair_age_ns runtime →
  expire_pairs runtime now_ns = (set_pending [] runtime, handles (pr_pending_by_pts runtime)) ∧
  submit (set_pending [] runtime) frame later_ns = (set_pending [(frame_key frame, frame)] runtime, Ok None).
Proof.
  intros W Hold G L B Hr Hage. split.
  - rewrite expire_pairs_exact by done. rewrite Forall_forall in Hold.
    assert (Ha : ∀ e, e ∈ pr_pending_by_pts runtime → aged runtime now_ns e.2 = true).
    { intros e He. specialize (Hold e He). destruct (aged runtime now_ns e.2) eqn:E; [done|].
      apply aged_false in E. lia. }
    rewrite (filter_id (fun e => aged runtime now_ns e.2 = true)) by by apply Forall_forall. do 2 f_equal.
    destruct (filter _ _) as [|e l] eqn:E; [done|].
    assert (He : e ∈ e :: l) by set_solver. rewrite <- E in He. apply list_elem_of_filter in He as [He Hi].
    rewrite Ha in He by done. done.
  - unfold submit. rewrite (proj2 (submit_admitted (set_pending [] runtime) frame)).
    + rewrite (proj2 (aged_false (set_pending [] runtime) later_ns frame)) by done. done.
    + split_and!; try done; cbn; (constructor || set_solver).
Qed.

(** C39: A pair extension decodes exactly when it is the 48-byte encoding of a
    pair whose fields fit their widths, [u64] and two's complement [i64], and it
    decodes to that pair. *)
Theorem packed_pair_codec bytes pair :
  Forall is_u8 bytes →
  decode_packed_pair_metadata bytes = Ok pair ↔ pair_in_range pair ∧ bytes = encode_packed_pair_metadata pair.
Proof. apply decode_pair_iff. Qed.

(** C38: The sequence validator with its two sets of seen frames computes the same
    verdict and error as the loop without them, and it accepts exactly the
    sequences of valid video pairs whose three identifiers all strictly increase. *)
Theorem packed_sequence_reference pairs max_pair_delta_ns :
  validate_packed_pair_sequence pairs max_pair_delta_ns = advancing_loop max_pair_delta_ns 0 0 0 pairs ∧
  (validate_packed_pair_sequence pairs max_pair_delta_ns = Ok tt ↔
   Forall (video_pair max_pair_delta_ns) pairs ∧ StronglySorted advances pairs).
Proof. split; [apply packed_sequence_loop|apply packed_sequence_iff]. Qed.

(** A frame decodes to metadata and payload exactly when encoding both gives
    that frame, and the signing input of a domain determines metadata and
    payload. *)
Theorem wire_frame_codec frame domain metadata payload metadata' payload' signing :
  Forall is_u8 frame →
  (decode_wire_frame frame = Ok (metadata, payload) ↔ encode_wire_frame metadata payload = Ok frame) ∧
  (wire_signing_bytes domain metadata payload = Ok signing →
   wire_signing_bytes domain metadata' payload' = Ok signing → metadata = metadata' ∧ payload = payload').
Proof. intros Hu. split; [by apply decode_wire_frame_iff|apply wire_signing_bytes_inj]. Qed.

(** Validation of an effect terminates although each level can carry the next
    one inside its response bytes: any recursion depth above the length of the
    nested bytes gives the same verdict, and that verdict satisfies the source's
    recursive equation. *)
Theorem effect_validation_terminates {RC : ReleaseCrypto} {CE : CleanupEncoding} {EE : EffectEncoding}
    {EL : EffectEncodingLaws} fuel ticket mode effect :
  (length (nested_bytes effect) < fuel)%nat →
  validate_effect_fuel fuel ticket mode effect = validate_effect ticket mode effect ∧
  validate_effect ticket mode effect = validate_effect_with validate_effect ticket mode effect.
Proof.
  intros Hf. split; [by eapply validate_effect_enough|apply validate_effect_unfold].
Qed.

(** ** Witnesses *)

Definition left_frame : AndroidMediaFrameSubmission := conformance_frame 11 EyeLeft 40 "frame.left".
Definition right_frame : AndroidMediaFrameSubmission := conformance_frame 11 EyeRight 42 "frame.right".
Definition late_frame : AndroidMediaFrameSubmission := conformance_frame 12 EyeLeft 60 "frame.late".
Definition new_pairing : AndroidMediaPairRuntime := mkPairRuntime 7 "lease.conformance" 100 [] ∅.

Lemma stereo_handles_conserved_witness :
  ["frame.late"; "frame.right"; "frame.left"]%string ≡ₚ
    handles [(frame_key late_frame, late_frame)] ++ ["frame.left"; "frame.right"]%string.
Proof.
  pose proof (stereo_handles_conserved 7 "lease.conformance" 100 new_pairing
    [OpSubmit left_frame 1050; OpSubmit right_frame 1050; OpRelease "frame.left"; OpSubmit late_frame 1060] eq_refl) as H.
  destruct (pair_run new_pairing _) as [runtime' ledger] eqn:E. vm_compute in E. injection E as <- <-.
  destruct H as [H _]. exact H.
Defined.

Definition waiting : AndroidMediaPairRuntime := (submit new_pairing left_frame 1050).1.

Lemma stereo_pairs_drain_witness :
  expire_pairs waiting 1101 = (set_pending [] waiting, ["frame.left"%string]) ∧
  submit (set_pending [] waiting) late_frame 1060 = (set_pending [(frame_key late_frame, late_frame)] waiting, Ok None).
Proof.
  apply (stereo_pairs_drain waiting 1101 late_frame 1060).
  - apply submit_wf. by apply (pair_runtime_new_wf 7 "lease.conformance" 100).
  - vm_compute. repeat constructor.
  - reflexivity.
  - reflexivity.
  - vm_compute. reflexivity.
  - apply (bool_decide_unpack _). vm_compute. exact I.
  - vm_compute. discriminate.
Defined.

(** The handles of a completed pair that was not released yet are taken in again. *)
Example paired_handle_again :
  let paired := (submit waiting right_frame 1050).1 in
  (submit paired right_frame 1050).2 = Ok None ∧
  (submit (submit paired right_frame 1050).1 left_frame 1050).2 = (submit waiting right_frame 1050).2.
Proof. vm_compute. split; reflexivity. Qed.

Definition sample_pair : PackedStereoPairMetadata := mkPair 9 4 5 1000 (-3) 1003.

Lemma packed_pair_codec_witness :
  decode_packed_pair_metadata (encode_packed_pair_metadata sample_pair) = Ok sample_pair.
Proof.
  apply (packed_pair_codec (encode_packed_pair_metadata sample_pair) sample_pair); [apply encode_pair_u8|].
  split; [|reflexivity]. vm_compute. repeat split; discriminate.
Defined.

Lemma wire_frame_codec_witness :
  decode_wire_frame (frame_bytes [1; 2] [3]) = Ok ([1; 2], [3]) ↔ encode_wire_frame [1; 2] [3] = Ok (frame_bytes [1; 2] [3]).
Proof.
  refine (proj1 (wire_frame_codec (frame_bytes [1; 2] [3]) [] [1; 2] [3] [] [] [] _)). vm_compute. repeat constructor.
Defined.

#[local] Instance fixture_effect_laws : EffectEncodingLaws.
Proof. split; done. Qed.

Lemma effect_validation_terminates_witness :
  validate_effect_fuel 5 fixture_ticket Execute fixture_effect = validate_effect fixture_ticket Execute fixture_effect ∧
  validate_effect fixture_ticket Execute fixture_effect =
    validate_effect_with validate_effect fixture_ticket Execute fixture_effect.
Proof. apply (effect_validation_terminates 5). cbn. lia. Defined.
