(* ===== verification/DepGraph.v ===== *)
(** * Dependency graphs by depth-first search

    The recursive [visit] that crates/rusty-quest-feature-activation/src/lib.rs
    has in [dependencies_are_acyclic] and in [v2_dependencies_acyclic]: a node is
    0 (new), 1 (open) or 2 (done), and an open node that is met again is a cycle.
    [targets i] are the dependencies of [i] as the index map resolves them.
    [None] stands for running out of fuel or indexing out of range; with one more
    unit of fuel than nodes neither happens. *)

From S2P Require Import Prelude.

Section Visit.
Context (targets : nat → list (option nat)).

Fixpoint visit_deps (visit : nat → list N → option (bool * list N)) (deps : list (option nat)) (states : list N)
    : option (bool * list N) :=
  match deps with
  | [] => Some (true, states)
  | None :: _ => Some (false, states)
  | Some target :: deps =>
      match visit target states with
      | Some (true, states) => visit_deps visit deps states
      | r => r
      end
  end.

Fixpoint visit (fuel index : nat) (states : list N) : option (bool * list N) :=
  match fuel, states !! index with
  | O, _ | _, None => None
  | S fuel, Some state =>
      if (state =? 1)%N then Some (false, states)
      else if (state =? 2)%N then Some (true, states)
      else match visit_deps (visit fuel) (targets index) (<[index := 1%N]> states) with
      | Some (true, states) => Some (true, <[index := 2%N]> states)
      | r => r
      end
  end.

(** [(0..n).all(|index| visit(index, ..))]. *)
Definition visit_all (n : nat) : option bool :=
  fst <$> visit_deps (visit (S n)) (Some <$> seq 0 n) (replicate n 0%N).

(** ** Specification *)

Definition depends (i j : nat) : Prop := Some j ∈ targets i.

(** Every dependency resolves, and so on, without end. *)
Inductive resolved (i : nat) : Prop :=
  resolved_intro : None ∉ targets i → (∀ j, depends i j → resolved j) → resolved i.

Lemma resolved_inv i j : resolved i → depends i j → resolved j.
Proof. intros [_ H]. apply H. Qed.

(** A node that resolves is on no cycle. *)
Lemma resolved_acyclic i : resolved i → ¬ tc depends i i.
Proof.
  induction 1 as [i _ _ IH]. intros Hc. inversion Hc as [? ? Hd|? j ? Hd Ht]; subst.
  - by eapply IH.
  - eapply IH; [done|]. by eapply tc_r.
Qed.

(** ** The search *)

Definition new_node (state : N) : Prop := state ≠ 1%N ∧ state ≠ 2%N.
#[local] Instance new_node_dec state : Decision (new_node state).
Proof. unfold new_node. apply _. Defined.

(** Nodes not met yet: what the recursion decreases. *)
Definition unmet (states : list N) : nat := length (filter new_node states).

Lemma unmet_insert i x states :
  ¬ new_node x →
  unmet (<[i := x]> states) <= unmet states ∧
  (∀ y, states !! i = Some y → new_node y → unmet (<[i := x]> states) < unmet states).
Proof.
  intros Hx. unfold unmet. revert i. induction states as [|s states IH]; intros i; [done|].
  destruct i as [|i]; [change (<[0:=x]> (s :: states)) with (x :: states)|
    change (<[S i:=x]> (s :: states)) with (s :: <[i:=x]> states)]; cbn [lookup list_lookup]; rewrite !filter_cons.
  - rewrite (decide_False (P := new_node x)) by done. destruct (decide (new_node s)) as [Hs|Hs]; cbn.
    + split; [lia|intros; lia].
    + split; [lia|]. by intros y [= <-].
  - destruct (IH i) as [H1 H2]. destruct (decide (new_node s)); cbn; split; try lia; intros y Hy Hn; specialize (H2 y Hy Hn); lia.
Qed.

Lemma unmet_replicate n : unmet (replicate n 0%N) <= n.
Proof. unfold unmet. etrans; [apply length_filter|]. by rewrite length_replicate. Qed.

(** Done nodes resolve. *)
Definition sound (states : list N) : Prop := ∀ k, states !! k = Some 2%N → resolved k.

(** What a search leaves when it succeeds: the open nodes, and more done ones. *)
Record search_advanced (states states' : list N) : Prop := {
  adv_length : length states' = length states;
  adv_unmet : unmet states' <= unmet states;
  adv_open k : states' !! k = Some 1%N ↔ states !! k = Some 1%N;
  adv_done k : states !! k = Some 2%N → states' !! k = Some 2%N;
  adv_sound : sound states';
}.

Lemma search_advanced_refl states : sound states → search_advanced states states.
Proof. by constructor. Qed.
Lemma search_advanced_trans a b c : search_advanced a b → search_advanced b c → search_advanced a c.
Proof. intros [] []. constructor; naive_solver lia. Qed.

(** Every open node leads to [i]. *)
Definition on_path (states : list N) (i : nat) : Prop := ∀ k, states !! k = Some 1%N → tc depends k i.

(** The outcome of a search for the nodes [goal]. *)
Definition outcome (states : list N) (goal path : Prop) (r : option (bool * list N)) : Prop :=
  ∃ b states', r = Some (b, states') ∧
    (b = true → search_advanced states states' ∧ goal) ∧ (goal → path → b = true).

Definition targets_bounded (n : nat) : Prop := ∀ i j, depends i j → j < n.

Section Search.
Context (n : nat) (Hn : targets_bounded n).

Lemma visit_deps_spec v u deps states :
  (∀ j states, j < n → length states = n → unmet states <= u → sound states →
     outcome states (resolved j) (on_path states j) (v j states)) →
  (∀ j, Some j ∈ deps → j < n) → length states = n → unmet states <= u → sound states →
  outcome states (None ∉ deps ∧ ∀ j, Some j ∈ deps → resolved j) (∀ j, Some j ∈ deps → on_path states j)
    (visit_deps v deps states).
Proof.
  intros Hv. revert states. induction deps as [|[j|] deps IH]; intros states Hb Hlen Hu Hs; cbn.
  - exists true, states. split; [done|]. split; [|done]. intros _. split; [by apply search_advanced_refl|]. set_solver.
  - destruct (Hv j states) as (b & st & Ev & Hok & Hgo); [set_solver|done..|]. rewrite Ev. destruct b; [|].
    + destruct (Hok eq_refl) as [Ha Hj].
      destruct (IH st) as (b' & st' & Ed & Hok' & Hgo').
      { set_solver. }
      { rewrite (adv_length _ _ Ha). done. }
      { etrans; [apply Ha|done]. }
      { apply Ha. }
      exists b', st'. split; [done|]. split.
      * intros ->. destruct (Hok' eq_refl) as [Ha' [Hn' Hr]]. split; [by eapply search_advanced_trans|]. set_solver.
      * intros [Hnone Hall] Hp. apply Hgo'; [set_solver|]. intros k Hk g Hg. apply (Hp k); [set_solver|]. by apply (adv_open _ _ Ha).
    + exists false, st. split; [done|]. split; [done|]. intros [_ Hall] Hp. apply Hgo; [apply Hall|apply Hp]; set_solver.
  - exists false, states. split; [done|]. split; [done|]. set_solver.
Qed.

Lemma visit_spec fuel i states :
  i < n → length states = n → unmet states < fuel → sound states →
  outcome states (resolved i) (on_path states i) (visit fuel i states) ∧
  ∀ states', visit fuel i states = Some (true, states') → states' !! i = Some 2%N.
Proof.
  revert i states. induction fuel as [|fuel IH]; intros i states Hi Hlen Hu Hs; [lia|]. cbn.
  destruct (lookup_lt_is_Some_2 states i) as [state Ei]; [lia|]. rewrite Ei.
  destruct (N.eqb_spec state 1) as [->|H1].
  { split; [|done]. exists false, states. split; [done|]. split; [done|]. intros Hr Hp.
    destruct (resolved_acyclic i Hr). by apply Hp. }
  destruct (N.eqb_spec state 2) as [->|H2].
  { split; [|by intros ? [= <-]]. exists true, states. split; [done|]. split; [|done]. intros _.
    split; [by apply search_advanced_refl|by apply Hs]. }
  destruct (unmet_insert i 1%N states) as [_ Hless]; [by intros [? _]|]. specialize (Hless state Ei (conj H1 H2)).
  set (open := <[i:=1%N]> states) in *.
  assert (Hopen : ∀ k, k ≠ i → open !! k = states !! k) by (intros; by apply list_lookup_insert_ne).
  assert (Hio : open !! i = Some 1%N) by (apply list_lookup_insert_eq; lia).
  destruct (visit_deps_spec (visit fuel) (unmet open) (targets i) open) as (b & st & Ed & Hok & Hgo).
  { intros j st Hj Hl Hm Hst. apply IH; [done..|lia|done]. }
  { intros j Hj. by apply (Hn i). }
  { unfold open. by rewrite length_insert. }
  { done. }
  { intros k Hk. destruct (decide (k = i)) as [->|Hne]; [congruence|]. rewrite Hopen in Hk by done. by apply Hs. }
  rewrite Ed. destruct b.
  - destruct (Hok eq_refl) as [Ha [Hnone Hall]]. assert (Hr : resolved i) by (by constructor).
    assert (Hil : i < length st) by (rewrite (adv_length _ _ Ha); unfold open; rewrite length_insert; lia).
    split.
    + exists true, (<[i:=2%N]> st). split; [done|]. split; [|done]. intros _. split; [|done]. constructor.
      * rewrite length_insert, (adv_length _ _ Ha). unfold open. by rewrite length_insert.
      * destruct (unmet_insert i 2%N st) as [Hle _]; [by intros [_ ?]|]. pose proof (adv_unmet _ _ Ha). lia.
      * intros k. destruct (decide (k = i)) as [->|Hne].
        -- rewrite list_lookup_insert_eq by done. rewrite Ei. split; congruence.
        -- rewrite list_lookup_insert_ne, (adv_open _ _ Ha), Hopen by done. done.
      * intros k Hk. destruct (decide (k = i)) as [->|Hne]; [congruence|].
        rewrite list_lookup_insert_ne by done. apply (adv_done _ _ Ha). by rewrite Hopen.
      * intros k Hk. destruct (decide (k = i)) as [->|Hne]; [done|]. rewrite list_lookup_insert_ne in Hk by done.
        by apply (adv_sound _ _ Ha).
    + intros states' [= <-]. by apply list_lookup_insert_eq.
  - split; [|done]. exists false, st. split; [done|]. split; [done|]. intros Hr Hp. apply Hgo.
    + destruct Hr. done.
    + intros j Hj k Hk. destruct (decide (k = i)) as [->|Hne]; [by apply tc_once|].
      rewrite Hopen in Hk by done. eapply tc_r; [by apply Hp|done].
Qed.

(** The search always answers, and accepts exactly the graphs that resolve. *)
Lemma visit_all_spec : ∃ b, visit_all n = Some b ∧ (b = true ↔ ∀ i, i < n → resolved i).
Proof.
  unfold visit_all.
  destruct (visit_deps_spec (visit (S n)) n (Some <$> seq 0 n) (replicate n 0%N)) as (b & st & E & Hok & Hgo).
  - intros j st Hj Hl Hm Hst. apply visit_spec; [done..|lia|done].
  - intros j (k & [= <-] & Hk)%list_elem_of_fmap. apply elem_of_seq in Hk. lia.
  - apply length_replicate.
  - apply unmet_replicate.
  - intros k Hk. apply lookup_replicate in Hk as [? _]. done.
  - exists b. rewrite E. split; [done|]. split.
    + intros Hb i Hi. destruct (Hok Hb) as [_ [_ H]]. apply H, list_elem_of_fmap. exists i. split; [done|].
      apply elem_of_seq. lia.
    + intros H. apply Hgo.
      * split; [by intros (? & ? & _)%list_elem_of_fmap|]. intros j (k & [= <-] & Hk)%list_elem_of_fmap.
        apply H. apply elem_of_seq in Hk. lia.
      * intros j _ k Hk. apply lookup_replicate in Hk as [? _]. done.
Qed.

(** Resolving is having all dependencies and no cycle. *)
Lemma resolved_iff_acyclic :
  (∀ i, i < n → resolved i) ↔ ∀ i, i < n → None ∉ targets i ∧ ¬ tc depends i i.
Proof.
  split.
  - intros H i Hi. split; [by destruct (H i Hi)|]. by apply resolved_acyclic, H.
  - intros H i Hi. set (R i j := i < n ∧ depends i j).
    assert (Hsub : ∀ a b, tc R a b → a < n ∧ tc depends a b).
    { induction 1 as [a b [Ha Hd]|a b c [Ha Hd] Ht [Hb IH]]; (split; [done|]); [by apply tc_once|by eapply tc_l]. }
    assert (Hto : ∀ a b, tc R a b → b < n) by (induction 1 as [a b [_ Hd]|]; [by eapply Hn|done]).
    assert (Hsn : sn R i).
    { apply tc_finite_sn.
      - intros a Ha. apply Hsub in Ha as [Hl Ha]. by apply (H a Hl).
      - exists (seq 0 n). intros b Hb%Hto. apply elem_of_seq. lia. }
    induction Hsn as [i _ IH]. constructor; [by apply H|]. intros j Hj. apply IH; [by split|by eapply Hn].
Qed.
End Search.
End Visit.

(** ** Features that name their dependencies *)

Section Keys.
Context {F : Type} (key : F → string).

(** [enumerate().map(|(index, feature)| (key, index)).collect()]. *)
Fixpoint index_positions (index : nat) (features : list F) (index_of : gmap string nat) : gmap string nat :=
  match features with
  | [] => index_of
  | f :: features => index_positions (S index) features (<[key f := index]> index_of)
  end.

(** The map from keys to positions. *)
Definition indexes (features : list F) (index_of : gmap string nat) : Prop :=
  ∀ k i, index_of !! k = Some i ↔ key <$> features !! i = Some k.

Lemma index_positions_lookup i features m k j :
  NoDup (key <$> features) → (∀ k, k ∈ key <$> features → m !! k = None) →
  index_positions i features m !! k = Some j ↔ m !! k = Some j ∨ ∃ d, j = i + d ∧ key <$> features !! d = Some k.
Proof.
  revert i m. induction features as [|f features IH]; intros i m Hnd Hm; cbn.
  { split; [by left|]. by intros [?|(? & _ & ?)]. }
  cbn in Hnd. apply NoDup_cons in Hnd as [Hf Hnd]. rewrite IH; [|done|].
  2: { intros k' Hk'. rewrite lookup_insert_ne by set_solver. apply Hm. set_solver. }
  rewrite lookup_insert_Some. split.
  - intros [[[<- <-]|[_ H]]|(d & -> & H)].
    + right. exists 0. split; [lia|done].
    + by left.
    + right. exists (S d). split; [lia|done].
  - assert (Hk : m !! k = Some j → key f ≠ k) by (intros H <-; rewrite Hm in H; [done|set_solver]).
    intros [H|([|d] & -> & H)]; [naive_solver|left; left|right].
    + cbn in H. split; [by injection H|lia].
    + exists d. split; [lia|done].
Qed.

Lemma index_positions_indexes features : NoDup (key <$> features) → indexes features (index_positions 0 features ∅).
Proof.
  intros Hnd k i. rewrite index_positions_lookup by done. rewrite lookup_empty. split.
  - intros [?|(d & -> & H)]; [done|exact H].
  - intros H. right. by exists i.
Qed.

Lemma indexes_elem features index_of k :
  indexes features index_of →
  k ∈ key <$> features ↔ is_Some (index_of !! k).
Proof.
  intros Hidx. rewrite list_elem_of_fmap. split.
  - intros (f & -> & [i Hi]%list_elem_of_lookup_1). exists i. apply Hidx. by rewrite Hi.
  - intros [i Hi%Hidx]. destruct (features !! i) as [f|] eqn:E; [|done]. exists f.
    split; [by injection Hi|by eapply list_elem_of_lookup_2].
Qed.

End Keys.

Section Named.
Context {F : Type} (key : F → string) (dependencies : F → list string).

(** [features[index].dependencies], each looked up in the index map. *)
Definition dependency_targets (features : list F) (index_of : gmap string nat) (index : nat) : list (option nat) :=
  match features !! index with
  | Some f => (fun dependency => index_of !! dependency) <$> dependencies f
  | None => []
  end.

(** A feature named [a] names [b]. *)
Definition needs (features : list F) (a b : string) : Prop := ∃ f, f ∈ features ∧ key f = a ∧ b ∈ dependencies f.

(** Every name is that of a feature and no feature needs itself, however far. *)
Definition well_founded_needs (features : list F) : Prop :=
  (∀ a b, needs features a b → b ∈ key <$> features) ∧ ∀ a, ¬ tc (needs features) a a.

Section Search.
Context (features : list F) (index_of : gmap string nat) (Hidx : indexes key features index_of).

Lemma indexes_bounded : targets_bounded (dependency_targets features index_of) (length features).
Proof.
  intros i j Hj. unfold depends, dependency_targets in Hj. destruct (features !! i) as [f|]; [|set_solver].
  apply list_elem_of_fmap in Hj as (d & Hd%eq_sym%Hidx & _). apply lookup_lt_is_Some_1.
  by destruct (features !! j).
Qed.

Lemma indexes_unresolved i f :
  features !! i = Some f →
  None ∉ dependency_targets features index_of i ↔ ∀ d, d ∈ dependencies f → d ∈ key <$> features.
Proof.
  intros E. unfold dependency_targets. rewrite E. split.
  - intros H d Hd. apply (indexes_elem key features index_of); [done|]. destruct (index_of !! d) eqn:Ed; [done|]. destruct H.
    apply list_elem_of_fmap. by exists d.
  - intros H (d & Hn & Hd)%list_elem_of_fmap. apply H, (indexes_elem key features index_of) in Hd as [? Hd]; [congruence|done].
Qed.

Lemma depends_needs i j :
  depends (dependency_targets features index_of) i j ↔
  ∃ a b, key <$> features !! i = Some a ∧ key <$> features !! j = Some b ∧ needs features a b.
Proof.
  unfold depends, dependency_targets. split.
  - destruct (features !! i) as [f|] eqn:E; [|set_solver].
    intros (d & Hd%eq_sym%Hidx & Hin)%list_elem_of_fmap. exists (key f), d. split; [done|]. split; [done|].
    exists f. split; [by eapply list_elem_of_lookup_2|done].
  - intros (a & b & Ha & Hb & f & Hf & Hfa & Hin). apply list_elem_of_lookup_1 in Hf as [k Hk].
    assert (Hka : index_of !! a = Some k) by (apply Hidx; rewrite Hk; cbn; by rewrite Hfa).
    apply Hidx in Ha. assert (k = i) as -> by congruence. rewrite Hk. apply list_elem_of_fmap. exists b.
    split; [|done]. symmetry. by apply Hidx.
Qed.

Lemma tc_depends_needs i j :
  tc (depends (dependency_targets features index_of)) i j →
  ∃ a b, key <$> features !! i = Some a ∧ key <$> features !! j = Some b ∧ tc (needs features) a b.
Proof.
  induction 1 as [i j (a & b & Ha & Hb & Hn)%depends_needs|i j k (a & b & Ha & Hb & Hn)%depends_needs _ IH].
  - exists a, b. by eauto using tc_once.
  - destruct IH as (b' & c & Hb' & Hc & Ht). assert (b' = b) as -> by congruence. exists a, c. by eauto using tc_l.
Qed.

Lemma tc_needs_depends a b i j :
  tc (needs features) a b → index_of !! a = Some i → index_of !! b = Some j →
  (∀ a b, needs features a b → b ∈ key <$> features) →
  tc (depends (dependency_targets features index_of)) i j.
Proof.
  intros Ht. revert i. induction Ht as [a b Hn|a b c Hn _ IH]; intros i Hi Hj Hall.
  - apply tc_once, depends_needs. exists a, b. split_and!; [by apply Hidx..|done].
  - destruct (proj1 (indexes_elem key features index_of b Hidx) (Hall _ _ Hn)) as [k Hk]. eapply tc_l; [|by apply IH].
    apply depends_needs. exists a, b. split_and!; [by apply Hidx..|done].
Qed.

(** The search over positions accepts exactly the lists whose names resolve without a cycle. *)
Lemma visit_all_needs :
  visit_all (dependency_targets features index_of) (length features) = Some true ↔ well_founded_needs features.
Proof.
  destruct (visit_all_spec _ _ indexes_bounded) as (b & -> & Hb).
  trans (b = true); [naive_solver|]. rewrite Hb, (resolved_iff_acyclic _ _ indexes_bounded). split.
  - intros H. assert (Hall : ∀ a b, needs features a b → b ∈ key <$> features).
    { intros a d (f & [i Hi]%list_elem_of_lookup_1 & _ & Hd). destruct (H i) as [Hn _]; [by eapply lookup_lt_Some|].
      by apply (indexes_unresolved i f Hi). }
    split; [done|]. intros a Ht.
    assert (Ha : a ∈ key <$> features).
    { inversion Ht as [? ? (f & Hf & <- & _)|? ? ? (f & Hf & <- & _)]; by apply list_elem_of_fmap_2. }
    apply (indexes_elem key features index_of) in Ha as [i Hi]; [|done]. destruct (H i) as [_ Hc].
    { apply Hidx in Hi. destruct (features !! i) eqn:E; [by eapply lookup_lt_Some|done]. }
    by eapply Hc, tc_needs_depends.
  - intros [Hall Hac] i Hi. destruct (lookup_lt_is_Some_2 features i Hi) as [f Ef]. split.
    + apply (indexes_unresolved i f Ef). intros d Hd. eapply Hall. exists f. split; [by eapply list_elem_of_lookup_2|done].
    + intros (a & b' & Ha & Hb' & Ht)%tc_depends_needs. assert (a = b') as -> by congruence. by eapply Hac.
Qed.
End Search.
End Named.
