(* ===== verification/FeatureLock.v ===== *)
(** * Feature locks: activation

    The first generation of crates/rusty-quest-feature-activation/src/lib.rs: an
    application activates a feature only when the project's feature lock, the
    module's policy and the runtime input agree exactly. *)

From S2P Require Import Prelude RustStr UpdateAdmission DepGraph.

Local Open Scope N_scope.

Definition LOCK_BOUND_ACTIVATION_SCHEMA_ID : string := "rusty.quest.lock_bound_activation.v1".
Definition WORKFLOW_FEATURE_LOCK_SCHEMA_ID : string := "rusty.morphospace.workflow.feature_lock.v1".
Definition MAX_LOCK_BYTES : N := 256 * 1024.
Definition MAX_FEATURES : N := 256.
Definition MAX_LIST_ITEMS : N := 128.
Definition MAX_IDENTITY_BYTES : N := 256.
Definition MAX_DESCRIPTOR_BYTES : N := 512.

(** ** Data *)

Record LockBoundActivationPolicy := mkPolicy {
  lbp_requested_by : string;
  lbp_receipt_schema : string;
  lbp_effective_marker : string;
}.

Record LockBoundActivationRuntimeInput := mkRuntimeInput {
  lri_enabled : bool;
  lri_profile_id : string;
  lri_project_id : string;
  lri_feature_id : string;
  lri_lock_revision : N;
  lri_lock_sha256 : string;
}.

Inductive LockBoundActivationState := LbApplied | LbRejected.

Inductive LockBoundActivationRejection :=
  | InvalidExpectation
  | InvalidLock
  | InvalidFeatureClosure
  | UnacceptedLock
  | ProjectMismatch
  | FeatureMismatch
  | ModuleMismatch
  | FeatureNotSelected
  | InvalidSelection
  | EffectiveMarkerMismatch
  | RuntimeInputDisabled
  | RuntimeProfileMismatch
  | RuntimeProjectMismatch
  | RuntimeFeatureMismatch
  | RuntimeRevisionMismatch
  | RuntimeDigestMismatch.

Definition state_token (state : LockBoundActivationState) : string :=
  match state with LbApplied => "applied" | LbRejected => "rejected" end.

Definition rejection_token (r : LockBoundActivationRejection) : string :=
  match r with
  | InvalidExpectation => "activation-expectation-invalid"
  | InvalidLock => "invalid-lock"
  | InvalidFeatureClosure => "lock-feature-closure-invalid"
  | UnacceptedLock => "lock-not-accepted"
  | ProjectMismatch => "lock-project-mismatch"
  | FeatureMismatch => "lock-feature-mismatch"
  | ModuleMismatch => "lock-module-mismatch"
  | FeatureNotSelected => "lock-feature-not-selected"
  | InvalidSelection => "lock-selection-invalid"
  | EffectiveMarkerMismatch => "lock-effective-marker-mismatch"
  | RuntimeInputDisabled => "runtime-input-disabled"
  | RuntimeProfileMismatch => "runtime-profile-mismatch"
  | RuntimeProjectMismatch => "runtime-project-mismatch"
  | RuntimeFeatureMismatch => "runtime-feature-mismatch"
  | RuntimeRevisionMismatch => "runtime-revision-mismatch"
  | RuntimeDigestMismatch => "runtime-digest-mismatch"
  end.

Record LockBoundActivationDecision := mkDecision {
  lbd_schema : string;
  lbd_state : LockBoundActivationState;
  lbd_project_id : string;
  lbd_feature_id : string;
  lbd_lock_revision : N;
  lbd_lock_sha256 : string;
  lbd_runtime_profile_id : string;
  lbd_rejection : option LockBoundActivationRejection;
}.

Record WorkflowParameterAuthority := mkParameterAuthority {
  wpa_parameter : string;
  wpa_owner : string;
}.

Record WorkflowActivationReceipt := mkActivationReceipt {
  war_required : bool;
  war_schema : string;
  war_effective_marker : string;
}.

Record WorkflowFeature := mkFeature {
  wf_feature_id : string;
  wf_module_id : string;
  wf_enabled : bool;
  wf_requested_by : string;
  wf_descriptor : string;
  wf_dependencies : list string;
  wf_conflicts : list string;
  wf_permissions : list string;
  wf_routes : list string;
  wf_assets : list string;
  wf_parameter_authorities : list WorkflowParameterAuthority;
  wf_activation_receipt : WorkflowActivationReceipt;
}.

Record WorkflowFeatureLock := mkLock {
  wl_schema_uri : option string;
  wl_schema : string;
  wl_project_id : string;
  wl_revision : N;
  wl_default_activation : string;
  wl_features : list WorkflowFeature;
}.

#[global] Instance lb_state_eq_dec : EqDecision LockBoundActivationState.
Proof. solve_decision. Defined.
#[global] Instance lb_rejection_eq_dec : EqDecision LockBoundActivationRejection.
Proof. solve_decision. Defined.

(** ** Text *)

(** [value.bytes().next().is_some_and(p)]. *)
Definition first_byte (p : N → bool) (value : string) : bool :=
  match value with EmptyString => false | String c _ => p (Ascii.N_of_ascii c) end.

Definition lower_or_digit (b : N) : bool := is_ascii_lowercase b || is_ascii_digit b.

(** [(lo..=hi).contains(&value.len())]. *)
Definition length_within (lo hi : N) (value : string) : bool := (lo <=? str_len value) && (str_len value <=? hi).

Definition valid_id (value : string) : bool :=
  length_within 2 64 value && first_byte lower_or_digit value &&
  all_bytes (fun b => lower_or_digit b || (b =? 45)) value.

Definition valid_dotted_id (value : string) : bool :=
  length_within 3 128 value && first_byte lower_or_digit value &&
  all_bytes (fun b => lower_or_digit b || (b =? 46) || (b =? 95) || (b =? 45)) value.

Definition valid_selector (value : string) : bool :=
  (str_len value <=? MAX_IDENTITY_BYTES) && first_byte lower_or_digit value &&
  all_bytes (fun b => lower_or_digit b || (b =? 46) || (b =? 95) || (b =? 45) || (b =? 58) || (b =? 47)) value.

(** [chars().any(char::is_control)]: U+0000 to U+001F and U+007F, and in two
    bytes of UTF-8 U+0080 to U+009F. *)
Fixpoint has_control (bytes : list N) : bool :=
  match bytes with
  | [] => false
  | b :: rest =>
      is_ascii_control b ||
      ((b =? 194) && match rest with c :: _ => (128 <=? c) && (c <=? 159) | [] => false end) ||
      has_control rest
  end.

Definition valid_bounded_string (value : string) (max_bytes : N) (allow_empty : bool) : bool :=
  (allow_empty || negb (str_is_empty value)) && (str_len value <=? max_bytes) && negb (has_control (str_bytes value)).

(** [iter().collect::<HashSet<_>>().len() == values.len()]. *)
Definition all_distinct (values : list string) : bool :=
  bool_decide (size (list_to_set values : gset string) = length values).

Definition valid_id_list (values : list string) : bool :=
  (len values <=? MAX_LIST_ITEMS) && forallb valid_id values && all_distinct values.

Definition valid_value_list (values : list string) : bool :=
  (len values <=? MAX_LIST_ITEMS) && forallb (fun v => valid_bounded_string v MAX_DESCRIPTOR_BYTES false) values &&
  all_distinct values.

(** Upper-case digits are accepted too. *)
Definition valid_sha256 (value : string) : bool := (str_len value =? 64) && all_bytes is_ascii_hexdigit value.

Definition eq_ignore_ascii_case (a b : string) : bool := (to_ascii_lowercase a =? to_ascii_lowercase b)%string.

(** A marker keeps the characters of tokens. *)
Fixpoint filter_bytes (p : N → bool) (s : string) : string :=
  match s with
  | EmptyString => EmptyString
  | String c s => if p (Ascii.N_of_ascii c) then String c (filter_bytes p s) else filter_bytes p s
  end.

Definition marker_token (value : string) : string :=
  let token := filter_bytes (fun b => is_ascii_alphanumeric b || (b =? 46) || (b =? 45) || (b =? 95) || (b =? 58) ||
                                      (b =? 47)) value in
  if str_is_empty token then "none" else token.

Definition is_applied (d : LockBoundActivationDecision) : bool :=
  bool_decide (lbd_state d = LbApplied) && bool_decide (lbd_rejection d = None).

Definition marker_fields (d : LockBoundActivationDecision) : string :=
  "lockBindingSchema=" ++ lbd_schema d ++ " activationState=" ++ state_token (lbd_state d) ++
  " projectId=" ++ marker_token (lbd_project_id d) ++ " featureId=" ++ marker_token (lbd_feature_id d) ++
  " conformanceLockRevision=" ++ fmt_decimal (lbd_lock_revision d) ++
  " conformanceLockSha256=" ++ lbd_lock_sha256 d ++
  " runtimeProfileId=" ++ marker_token (lbd_runtime_profile_id d) ++
  " activationRejectReason=" ++ match lbd_rejection d with Some r => rejection_token r | None => "none" end.

(** ** The closure of a lock *)

(** [iter().any(|authority| .. || !parameters.insert(..))]. *)
Fixpoint authorities_invalid (valid_owner : string → bool) (seen : gset string) (authorities : list (string * string))
    : bool :=
  match authorities with
  | [] => false
  | (parameter, owner) :: rest =>
      negb (valid_dotted_id parameter) || negb (valid_owner owner) || bool_decide (parameter ∈ seen) ||
      authorities_invalid valid_owner ({[parameter]} ∪ seen) rest
  end.

Definition authority_entry (a : WorkflowParameterAuthority) : string * string := (wpa_parameter a, wpa_owner a).

(** The tests of one feature that look at no other. *)
Definition feature_invalid (f : WorkflowFeature) : bool :=
  negb (valid_id (wf_feature_id f)) || negb (valid_id (wf_module_id f)) ||
  negb (valid_bounded_string (wf_descriptor f) MAX_DESCRIPTOR_BYTES (negb (wf_enabled f))) ||
  (wf_enabled f && negb (valid_selector (wf_requested_by f))) ||
  (negb (str_is_empty (wf_requested_by f)) && negb (valid_selector (wf_requested_by f))) ||
  negb (valid_id_list (wf_dependencies f)) || negb (valid_id_list (wf_conflicts f)) ||
  negb (valid_value_list (wf_permissions f)) || negb (valid_value_list (wf_routes f)) ||
  negb (valid_value_list (wf_assets f)) ||
  negb (valid_dotted_id (war_schema (wf_activation_receipt f))) ||
  negb (valid_dotted_id (war_effective_marker (wf_activation_receipt f))) ||
  (MAX_LIST_ITEMS <? len (wf_parameter_authorities f)) ||
  authorities_invalid valid_id ∅ (authority_entry <$> wf_parameter_authorities f).

(** The first loop: the index of features and of modules, or a refusal. *)
Fixpoint index_features (index : nat) (features : list WorkflowFeature) (feature_index module_index : gmap string nat)
    : option (gmap string nat * gmap string nat) :=
  match features with
  | [] => Some (feature_index, module_index)
  | f :: rest =>
      if feature_invalid f || bool_decide (is_Some (feature_index !! wf_feature_id f)) ||
         bool_decide (is_Some (module_index !! wf_module_id f))
      then None
      else index_features (S index) rest (<[wf_feature_id f := index]> feature_index)
             (<[wf_module_id f := index]> module_index)
  end.

(** [lock.features[index].enabled]. *)
Definition enabled_at (features : list WorkflowFeature) (index : nat) : bool :=
  match features !! index with Some f => wf_enabled f | None => false end.

(** The second loop. *)
Definition relations_invalid (features : list WorkflowFeature) (feature_index module_index : gmap string nat)
    (f : WorkflowFeature) : bool :=
  existsb (fun dependency =>
    (dependency =? wf_module_id f)%string ||
    match module_index !! dependency with
    | None => true
    | Some index => wf_enabled f && negb (enabled_at features index)
    end) (wf_dependencies f) ||
  existsb (fun conflict =>
    (conflict =? wf_feature_id f)%string ||
    match feature_index !! conflict with
    | None => false
    | Some index => wf_enabled f && enabled_at features index
    end) (wf_conflicts f).

Definition dependencies_are_acyclic (features : list WorkflowFeature) (module_index : gmap string nat) : bool :=
  bool_decide (visit_all (dependency_targets wf_dependencies features module_index) (length features) = Some true).

Definition valid_feature_lock_closure (lock : WorkflowFeatureLock) : bool :=
  let features := wl_features lock in
  if negb (valid_id (wl_project_id lock)) || bool_decide (features = []) || (MAX_FEATURES <? len features) ||
     match wl_schema_uri lock with
     | Some uri => negb (valid_bounded_string uri MAX_DESCRIPTOR_BYTES true)
     | None => false
     end
  then false
  else match index_features 0 features ∅ ∅ with
  | None => false
  | Some (feature_index, module_index) =>
      if existsb (relations_invalid features feature_index module_index) features then false
      else dependencies_are_acyclic features module_index
  end.

(** ** Activation *)

(** [serde_json::from_str::<WorkflowFeatureLock>]. *)
Class FeatureLockJson := { lock_from_str : string → option WorkflowFeatureLock }.

Section Activation.
Context {RC : ReleaseCrypto} {FJ : FeatureLockJson}.

Definition sha256_hex (bytes : list N) : string := hex_of_bytes (sha256_digest bytes).

Definition lb_rejected (project_id feature_id : string) (lock_revision : N) (lock_sha256 : string)
    (runtime_input : LockBoundActivationRuntimeInput) (rejection : LockBoundActivationRejection)
    : LockBoundActivationDecision :=
  mkDecision LOCK_BOUND_ACTIVATION_SCHEMA_ID LbRejected project_id feature_id lock_revision lock_sha256
    (lri_profile_id runtime_input) (Some rejection).

(** What the caller expects is malformed. *)
Definition expectation_invalid (lock_json accepted_lock_sha256 expected_project_id expected_feature_id
    expected_module_id accepted_profile_id : string) (policy : LockBoundActivationPolicy) : bool :=
  (MAX_LOCK_BYTES <? str_len lock_json) || negb (valid_sha256 accepted_lock_sha256) ||
  negb (valid_id expected_project_id) || negb (valid_id expected_feature_id) ||
  negb (valid_id expected_module_id) || negb (valid_selector accepted_profile_id) ||
  negb (valid_selector (lbp_requested_by policy)) || negb (valid_dotted_id (lbp_receipt_schema policy)) ||
  negb (valid_dotted_id (lbp_effective_marker policy)).

(** The tests of a parsed lock, in order. *)
Definition review_lock (lock : WorkflowFeatureLock) (lock_sha256 accepted_lock_sha256 expected_project_id
    expected_feature_id expected_module_id accepted_profile_id : string) (policy : LockBoundActivationPolicy)
    (runtime_input : LockBoundActivationRuntimeInput) : result LockBoundActivationRejection unit :=
  fail_if (negb (wl_schema lock =? WORKFLOW_FEATURE_LOCK_SCHEMA_ID)%string ||
           negb (wl_default_activation lock =? "disabled")%string || (wl_revision lock =? 0)) InvalidLock ;;
  fail_if (negb (valid_feature_lock_closure lock)) InvalidFeatureClosure ;;
  fail_if (negb (wl_project_id lock =? expected_project_id)%string) ProjectMismatch ;;
  feature ← match filter (fun f => wf_feature_id f = expected_feature_id) (wl_features lock) with
            | [feature] => Ok feature
            | _ => Err FeatureMismatch
            end;
  fail_if (negb (wf_module_id feature =? expected_module_id)%string) ModuleMismatch ;;
  fail_if (negb (wf_enabled feature)) FeatureNotSelected ;;
  fail_if (negb (wf_requested_by feature =? lbp_requested_by policy)%string) InvalidSelection ;;
  fail_if (negb (war_required (wf_activation_receipt feature)) ||
           negb (war_schema (wf_activation_receipt feature) =? lbp_receipt_schema policy)%string ||
           negb (war_effective_marker (wf_activation_receipt feature) =? lbp_effective_marker policy)%string)
    EffectiveMarkerMismatch ;;
  fail_if (negb (eq_ignore_ascii_case accepted_lock_sha256 lock_sha256)) UnacceptedLock ;;
  fail_if (negb (lri_enabled runtime_input)) RuntimeInputDisabled ;;
  fail_if (negb (lri_profile_id runtime_input =? accepted_profile_id)%string) RuntimeProfileMismatch ;;
  fail_if (negb (lri_project_id runtime_input =? wl_project_id lock)%string) RuntimeProjectMismatch ;;
  fail_if (negb (lri_feature_id runtime_input =? expected_feature_id)%string) RuntimeFeatureMismatch ;;
  fail_if (negb (lri_lock_revision runtime_input =? wl_revision lock)) RuntimeRevisionMismatch ;;
  fail_if (negb (valid_sha256 (lri_lock_sha256 runtime_input)) ||
           negb (eq_ignore_ascii_case (lri_lock_sha256 runtime_input) lock_sha256)) RuntimeDigestMismatch.

Definition resolve_lock_bound_activation (lock_json accepted_lock_sha256 expected_project_id expected_feature_id
    expected_module_id accepted_profile_id : string) (policy : LockBoundActivationPolicy)
    (runtime_input : LockBoundActivationRuntimeInput) : LockBoundActivationDecision :=
  let lock_sha256 := sha256_hex (str_bytes lock_json) in
  if expectation_invalid lock_json accepted_lock_sha256 expected_project_id expected_feature_id expected_module_id
       accepted_profile_id policy
  then lb_rejected expected_project_id expected_feature_id 0 lock_sha256 runtime_input InvalidExpectation
  else match lock_from_str lock_json with
  | None => lb_rejected expected_project_id expected_feature_id 0 lock_sha256 runtime_input InvalidLock
  | Some lock =>
      match review_lock lock lock_sha256 accepted_lock_sha256 expected_project_id expected_feature_id expected_module_id
              accepted_profile_id policy runtime_input with
      | Err rejection =>
          lb_rejected (wl_project_id lock) expected_feature_id (wl_revision lock) lock_sha256 runtime_input rejection
      | Ok _ =>
          mkDecision LOCK_BOUND_ACTIVATION_SCHEMA_ID LbApplied (wl_project_id lock) expected_feature_id
            (wl_revision lock) accepted_lock_sha256 (lri_profile_id runtime_input) None
      end
  end.
End Activation.
