(* ===== verification/FeatureTheorems.v ===== *)
(** * What an accepted feature lock promises

    [lock_closed] is the closure of a first-generation lock, written without the
    index maps and the search that decide it, and [activation_agrees] what an
    activation has checked. *)

From S2P Require Import Prelude RustStr UpdateAdmission DepGraph FeatureLock.

Local Open Scope N_scope.

(** ** Distinct values *)

Lemma list_to_set_size_le (l : list string) : (size (list_to_set l : gset string) <= length l)%nat.
Proof.
  induction l as [|x l IH]; [by rewrite list_to_set_nil, size_empty|]. rewrite list_to_set_cons. cbn [length].
  pose proof (size_union_alt ({[x]} : gset string) (list_to_set l)) as E. rewrite size_singleton in E.
  assert ((size (list_to_set l ∖ {[x]} : gset string) <= size (list_to_set l : gset string))%nat)
    by (apply subseteq_size; set_solver). rewrite E. lia.
Qed.

Lemma all_distinct_iff l : all_distinct l = true ↔ NoDup l.
Proof.
  unfold all_distinct. rewrite bool_decide_eq_true. split.
  - induction l as [|x l IH]; [constructor|]. rewrite list_to_set_cons. cbn [length]. intros E.
    pose proof (list_to_set_size_le l) as Hle. destruct (decide (x ∈ l)) as [Hx|Hx].
    + rewrite subseteq_union_1_L in E by set_solver. lia.
    + rewrite size_union, size_singleton in E by set_solver. constructor; [done|]. apply IH. lia.
  - intros H. by apply size_list_to_set.
Qed.

Lemma existsb_false_iff {A} (p : A → bool) l : existsb p l = false ↔ ∀ x, x ∈ l → p x = false.
Proof.
  induction l as [|y l IH]; cbn; [set_solver|]. rewrite orb_false_iff, IH. split.
  - intros [Hy Hl] x [->|Hx]%elem_of_cons; auto.
  - intros H. split; [apply H; left|]. intros x Hx. apply H. by right.
Qed.

(** ** The closure of a lock *)

Record lock_closed (lock : WorkflowFeatureLock) : Prop := {
  lc_project : valid_id (wl_project_id lock) = true;
  lc_some : wl_features lock ≠ [];
  lc_count : len (wl_features lock) <= MAX_FEATURES;
  lc_uri uri : wl_schema_uri lock = Some uri → valid_bounded_string uri MAX_DESCRIPTOR_BYTES true = true;
  lc_features f : f ∈ wl_features lock → feature_invalid f = false;
  lc_feature_ids : NoDup (wf_feature_id <$> wl_features lock);
  lc_module_ids : NoDup (wf_module_id <$> wl_features lock);
  (** every dependency is a module of the lock, and no module needs itself *)
  lc_needs : well_founded_needs wf_module_id wf_dependencies (wl_features lock);
  (** what an enabled feature needs is enabled *)
  lc_enabled f g : f ∈ wl_features lock → g ∈ wl_features lock → wf_module_id g ∈ wf_dependencies f →
    wf_enabled f = true → wf_enabled g = true;
  (** enabled features do not conflict, and none conflicts with itself *)
  lc_conflicts f g : f ∈ wl_features lock → g ∈ wl_features lock → wf_feature_id g ∈ wf_conflicts f →
    wf_enabled f = true → wf_enabled g = false;
  lc_self f : f ∈ wl_features lock → wf_feature_id f ∉ wf_conflicts f;
}.

Lemma index_features_spec i l fi mi r :
  index_features i l fi mi = Some r ↔
  r = (index_positions wf_feature_id i l fi, index_positions wf_module_id i l mi) ∧ (∀ f, f ∈ l → feature_invalid f = false) ∧
  (NoDup (wf_feature_id <$> l) ∧ ∀ k, k ∈ wf_feature_id <$> l → fi !! k = None) ∧
  (NoDup (wf_module_id <$> l) ∧ ∀ k, k ∈ wf_module_id <$> l → mi !! k = None).
Proof.
  revert i fi mi. induction l as [|f l IH]; intros i fi mi; cbn.
  { split; [intros [= <-]|naive_solver]. split_and!; try done; try constructor; set_solver. }
  rewrite !NoDup_cons. destruct (_ || _ || _) eqn:E; bool_to_prop.
  - split; [done|]. intros (_ & Hf & [_ Hfi] & [_ Hmi]). apply orb_true_iff in E as [[E|E]%orb_true_iff|E].
    + rewrite Hf in E by set_solver. done.
    + apply bool_decide_eq_true in E. rewrite Hfi in E by set_solver. by destruct E.
    + apply bool_decide_eq_true in E. rewrite Hmi in E by set_solver. by destruct E.
  - rewrite IH. repeat match goal with H : ¬ is_Some _ |- _ => apply eq_None_not_Some in H end.
    assert (Hins : ∀ (key : WorkflowFeature → string) (m : gmap string nat), m !! key f = None →
      NoDup (key <$> l) ∧ (∀ k, k ∈ key <$> l → <[key f:=i]> m !! k = None) ↔
      (key f ∉ key <$> l ∧ NoDup (key <$> l)) ∧ ∀ k, k ∈ key f :: (key <$> l) → m !! k = None).
    { intros key m Hm. split.
      - intros [Hnd Hk]. assert (Hnin : key f ∉ key <$> l) by (intros Hx%Hk; by rewrite lookup_insert_eq in Hx).
        split_and!; [done..|]. intros k [->|Hin]%elem_of_cons; [done|]. specialize (Hk k Hin).
        rewrite lookup_insert_ne in Hk; [done|]. set_solver.
      - intros [[Hnin Hnd] Hk]. split; [done|]. intros k Hin. rewrite lookup_insert_ne by set_solver. apply Hk. set_solver. }
    rewrite (Hins wf_feature_id fi), (Hins wf_module_id mi) by done. split; [|set_solver]. intros (-> & Hl & Hr).
    split; [done|]. split; [|done]. intros g [->|Hg]%elem_of_cons; by auto.
Qed.

Section Relations.
Context (features : list WorkflowFeature) (feature_index module_index : gmap string nat).
Context (Hf : indexes wf_feature_id features feature_index) (Hm : indexes wf_module_id features module_index).

Lemma enabled_at_index key index_of k i :
  indexes key features index_of → index_of !! k = Some i →
  ∃ g, g ∈ features ∧ key g = k ∧ enabled_at features i = wf_enabled g.
Proof.
  intros Hi H%Hi. unfold enabled_at. destruct (features !! i) as [g|] eqn:E; [|done]. exists g.
  split; [by eapply list_elem_of_lookup_2|]. split; [by injection H|done].
Qed.

(** Looking up the position and testing the feature there is testing the feature of that name. *)
Lemma named_unique key index_of g :
  indexes key features index_of → g ∈ features →
  ∃ i, index_of !! key g = Some i ∧ enabled_at features i = wf_enabled g.
Proof.
  intros Hi [i Ei]%list_elem_of_lookup_1. exists i. split; [apply Hi; by rewrite Ei|]. unfold enabled_at. by rewrite Ei.
Qed.

Lemma relations_valid f :
  f ∈ features →
  relations_invalid features feature_index module_index f = false ↔
  (∀ d, d ∈ wf_dependencies f → d ≠ wf_module_id f ∧ d ∈ wf_module_id <$> features) ∧
  (∀ g, g ∈ features → wf_module_id g ∈ wf_dependencies f → wf_enabled f = true → wf_enabled g = true) ∧
  (∀ g, g ∈ features → wf_feature_id g ∈ wf_conflicts f → wf_enabled f = true → wf_enabled g = false) ∧
  wf_feature_id f ∉ wf_conflicts f.
Proof.
  intros Hin. unfold relations_invalid. rewrite orb_false_iff, !existsb_false_iff. split.
  - intros [Hd Hc]. split_and!.
    + intros d Hdin. specialize (Hd d Hdin). apply orb_false_iff in Hd as [Hne Hd]. split; [by apply String.eqb_neq|].
      apply (indexes_elem wf_module_id _ module_index); [done|]. by destruct (module_index !! d).
    + intros g Hg Hdin He. specialize (Hd _ Hdin). apply orb_false_iff in Hd as [_ Hd].
      destruct (named_unique _ _ g Hm Hg) as (i & Ei & Een). rewrite Ei, Een, He in Hd. by destruct (wf_enabled g).
    + intros g Hg Hcin He. specialize (Hc _ Hcin). apply orb_false_iff in Hc as [_ Hc].
      destruct (named_unique _ _ g Hf Hg) as (i & Ei & Een). by rewrite Ei, Een, He in Hc.
    + intros Hcin. specialize (Hc _ Hcin). by rewrite String.eqb_refl in Hc.
  - intros (Hd & He & Hc & Hs). split; intros x Hx; apply orb_false_iff.
    + destruct (Hd x Hx) as [Hne Hk]. split; [by apply String.eqb_neq|].
      apply (indexes_elem _ _ module_index) in Hk as [i Hi]; [|done]. rewrite Hi.
      destruct (enabled_at_index _ _ _ _ Hm Hi) as (g & Hg & <- & ->). destruct (wf_enabled f) eqn:Ef; [|done].
      by rewrite (He g).
    + split; [apply String.eqb_neq; by intros ->|]. destruct (feature_index !! x) as [i|] eqn:Hi; [|done].
      destruct (enabled_at_index _ _ _ _ Hf Hi) as (g & Hg & <- & ->). destruct (wf_enabled f) eqn:Ef; [|done].
      by rewrite (Hc g).
Qed.
End Relations.

Lemma valid_feature_lock_closure_iff lock : valid_feature_lock_closure lock = true ↔ lock_closed lock.
Proof.
  unfold valid_feature_lock_closure. set (fs := wl_features lock). split.
  - intros H. destruct (_ || _) eqn:Eh in H; [done|]. bool_to_prop.
    destruct (index_features 0 fs ∅ ∅) as [r|] eqn:Ei; [|done].
    apply index_features_spec in Ei as (-> & Hfs & [Hnf _] & [Hnm _]).
    pose proof (index_positions_indexes _ _ Hnf) as Xf. pose proof (index_positions_indexes _ _ Hnm) as Xm.
    destruct (existsb _ _) eqn:Er in H; [done|]. rewrite existsb_false_iff in Er.
    unfold dependencies_are_acyclic in H. rewrite bool_decide_eq_true, (visit_all_needs _ _ _ _ Xm) in H.
    assert (Hrel := λ f Hf, proj1 (relations_valid fs _ _ Xf Xm f Hf) (Er f Hf)).
    constructor; try done.
    + intros uri E. rewrite E in *. by bool_to_prop.
    + intros f g Hf. by apply (Hrel f Hf).
    + intros f g Hf. by apply (Hrel f Hf).
    + intros f Hf. by apply (Hrel f Hf).
  - intros [Hp Hs Hc Hu Hfs Hnf Hnm Hn He Hcf Hself]. fold fs in Hs, Hc, Hfs, Hnf, Hnm, Hn, He, Hcf, Hself.
    pose proof (index_positions_indexes _ _ Hnf) as Xf. pose proof (index_positions_indexes _ _ Hnm) as Xm.
    rewrite Hp, bool_decide_eq_false_2 by done. rewrite (proj2 (N.ltb_ge _ _)) by done. cbn [negb orb].
    assert (match wl_schema_uri lock with Some uri => negb (valid_bounded_string uri MAX_DESCRIPTOR_BYTES true)
            | None => false end = false) as ->.
    { destruct (wl_schema_uri lock); [|done]. by rewrite Hu. }
    rewrite (proj2 (index_features_spec 0 fs ∅ ∅ (index_positions wf_feature_id 0 fs ∅, index_positions wf_module_id 0 fs ∅))).
    2: { split; [done|]. split_and!; try done; intros; by rewrite lookup_empty. }
    rewrite (proj2 (existsb_false_iff _ _)).
    2: { intros f Hf. apply relations_valid; [done..|]. split_and!; [|by intros g; apply He|by intros g; apply Hcf|by apply Hself].
         intros d Hd. assert (Hnd : needs wf_module_id wf_dependencies fs (wf_module_id f) d) by (by exists f).
         split; [|by eapply Hn]. intros ->. eapply (proj2 Hn), tc_once, Hnd. }
    unfold dependencies_are_acyclic. by rewrite bool_decide_eq_true, (visit_all_needs _ _ _ _ Xm).
Qed.

(** What an enabled feature needs, however far, is a feature of the lock, and enabled. *)
Lemma needs_enabled lock f m :
  lock_closed lock → f ∈ wl_features lock → wf_enabled f = true →
  tc (needs wf_module_id wf_dependencies (wl_features lock)) (wf_module_id f) m →
  ∃ g, g ∈ wl_features lock ∧ wf_module_id g = m ∧ wf_enabled g = true.
Proof.
  intros Hl Hf Hen Ht. remember (wf_module_id f) as a eqn:Ea. revert f Ea Hf Hen.
  assert (Hstep : ∀ f b, f ∈ wl_features lock → wf_enabled f = true →
    needs wf_module_id wf_dependencies (wl_features lock) (wf_module_id f) b →
    ∃ g, g ∈ wl_features lock ∧ wf_module_id g = b ∧ wf_enabled g = true).
  { intros f b Hf Hen Hn. assert (Hb := proj1 (lc_needs _ Hl) _ _ Hn). apply list_elem_of_fmap in Hb as (g & -> & Hg).
    exists g. split_and!; [done..|]. destruct Hn as (f' & Hf' & Ef' & Hd).
    assert (f' = f) as ->.
    { apply (fmap_NoDup_inj wf_module_id (wl_features lock)); [apply Hl|done..]. }
    exact (lc_enabled _ Hl f g Hf Hg Hd Hen). }
  induction Ht as [a b Hn|a b c Hn _ IH]; intros f -> Hf Hen.
  - by eapply Hstep.
  - destruct (Hstep f b Hf Hen Hn) as (g & Hg & <- & Heg). by apply (IH g).
Qed.

(** ** Activation *)

Section Activation.
Context {RC : ReleaseCrypto} {FJ : FeatureLockJson}.

Context (lock_json accepted_lock_sha256 expected_project_id expected_feature_id expected_module_id
  accepted_profile_id : string) (policy : LockBoundActivationPolicy) (runtime_input : LockBoundActivationRuntimeInput).

(** The digests compare without regard to case. *)
Definition names_digest (digest lock_sha256 : string) : Prop := to_ascii_lowercase digest = to_ascii_lowercase lock_sha256.

(** The lock, the policy of the module and the runtime input name the same thing. *)
Record activation_agrees (lock_sha256 : string) (lock : WorkflowFeatureLock) (f : WorkflowFeature) : Prop := {
  ag_schema : wl_schema lock = WORKFLOW_FEATURE_LOCK_SCHEMA_ID;
  ag_default : wl_default_activation lock = "disabled"%string;
  ag_revision : wl_revision lock ≠ 0;
  ag_closed : lock_closed lock;
  ag_feature : f ∈ wl_features lock;
  ag_project_id : wl_project_id lock = expected_project_id;
  ag_feature_id : wf_feature_id f = expected_feature_id;
  ag_module_id : wf_module_id f = expected_module_id;
  ag_enabled : wf_enabled f = true;
  ag_requested_by : wf_requested_by f = lbp_requested_by policy;
  ag_receipt : wf_activation_receipt f = mkActivationReceipt true (lbp_receipt_schema policy) (lbp_effective_marker policy);
  ag_accepted : names_digest accepted_lock_sha256 lock_sha256;
  ag_runtime : lri_enabled runtime_input = true;
  ag_runtime_profile : lri_profile_id runtime_input = accepted_profile_id;
  ag_runtime_project : lri_project_id runtime_input = expected_project_id;
  ag_runtime_feature : lri_feature_id runtime_input = expected_feature_id;
  ag_runtime_revision : lri_lock_revision runtime_input = wl_revision lock;
  ag_runtime_digest : valid_sha256 (lri_lock_sha256 runtime_input) = true ∧
    names_digest (lri_lock_sha256 runtime_input) lock_sha256;
}.

Lemma eq_ignore_ascii_case_iff a b : eq_ignore_ascii_case a b = true ↔ names_digest a b.
Proof. apply String.eqb_eq. Qed.

Lemma filter_none {A} (P : A → Prop) `{∀ x, Decision (P x)} l : (∀ x, x ∈ l → ¬ P x) → filter P l = [].
Proof. intros Hl. induction l as [|x l IH]; [done|]. rewrite filter_cons, decide_False by set_solver. set_solver. Qed.

Lemma filter_unique {A} (key : A → string) k f l :
  NoDup (key <$> l) → f ∈ l → key f = k → filter (fun f => key f = k) l = [f].
Proof.
  intros Hnd Hf Hk. induction l as [|g l IH]; [set_solver|]. cbn in Hnd. apply NoDup_cons in Hnd as [Hg Hnd].
  rewrite filter_cons. apply elem_of_cons in Hf as [<-|Hf].
  - rewrite decide_True by done. f_equal. apply filter_none. intros h Hh E. destruct Hg.
    rewrite Hk, <- E. by apply list_elem_of_fmap_2.
  - rewrite decide_False; [by apply IH|]. intros E. destruct Hg. rewrite E, <- Hk. by apply list_elem_of_fmap_2.
Qed.

Lemma review_lock_ok lock_sha256 lock :
  review_lock lock lock_sha256 accepted_lock_sha256 expected_project_id expected_feature_id expected_module_id
    accepted_profile_id policy runtime_input = Ok tt ↔ ∃ f, activation_agrees lock_sha256 lock f.
Proof.
  unfold review_lock. split.
  - intros H. inv_ok. match goal with E : context [filter ?P ?l] |- _ => destruct (filter P l) as [|f [|? ?]] eqn:Ef end; inv_ok.
    subst. match type of Ef with _ = [?g] => rename g into f end.
    assert (Hin : f ∈ filter (λ f, wf_feature_id f = expected_feature_id) (wl_features lock)) by (rewrite Ef; set_solver).
    apply list_elem_of_filter in Hin as [Hid Hin]. subst. exists f. destruct (wf_activation_receipt f) eqn:Er; cbn in *.
    bool_to_prop. rewrite ->eq_ignore_ascii_case_iff, valid_feature_lock_closure_iff in *.
    constructor; done || congruence.
  - intros [f [? ? ? Hc Hin ? Hid ? ? ? Er ? ? ? ? ? ? [? ?]]].
    rewrite (filter_unique wf_feature_id expected_feature_id f); [|apply Hc|done..]. cbn [mbind result_bind].
    rewrite Er. cbn [war_required war_schema war_effective_marker].
    rewrite !then_ok, !fail_if_ok, !orb_false_iff, !negb_false_iff, !String.eqb_eq, !N.eqb_eq, !N.eqb_neq,
      !eq_ignore_ascii_case_iff, valid_feature_lock_closure_iff.
    split_and!; congruence.
Qed.

(** An activation is applied exactly when lock, policy and runtime input agree. *)
Lemma resolve_applied_iff :
  is_applied (resolve_lock_bound_activation lock_json accepted_lock_sha256 expected_project_id expected_feature_id
    expected_module_id accepted_profile_id policy runtime_input) = true ↔
  expectation_invalid lock_json accepted_lock_sha256 expected_project_id expected_feature_id expected_module_id
    accepted_profile_id policy = false ∧
  ∃ lock f, lock_from_str lock_json = Some lock ∧ activation_agrees (sha256_hex (str_bytes lock_json)) lock f.
Proof.
  unfold resolve_lock_bound_activation. destruct (expectation_invalid _ _ _ _ _ _ _); [naive_solver|].
  destruct (lock_from_str lock_json) as [lock|]; [|naive_solver].
  trans (∃ f, activation_agrees (sha256_hex (str_bytes lock_json)) lock f); [|naive_solver].
  rewrite <- review_lock_ok. destruct (review_lock _ _ _ _ _ _ _ _ _) as [[]|]; split; done.
Qed.
End Activation.
