(* ===== verification/FeatureLockV2.v ===== *)
(** * Feature locks of the second generation: inspection

    The rest of crates/rusty-quest-feature-activation/src/lib.rs: a lock whose
    raw bytes, fingerprint and closure have been checked gives the facts of one
    selected feature. The feature's effects and their union over the lock are
    only read. *)

From S2P Require Import Prelude RustStr UpdateAdmission DepGraph FeatureLock JsonValue.

Local Open Scope N_scope.

Inductive FeatureLockV2Effect :=
  | Permission | Service | Activity | Query | Tool | Asset | Shader | NativeLibrary | Command | Route | Stream | Input
  | Scene | Marker.

Inductive FeatureLockV2Rejection :=
  | V2InvalidExpectation
  | V2UnacceptedBytes
  | V2InvalidLock
  | V2InvalidFingerprint
  | V2InvalidClosure
  | V2FeatureNotSelected.

Record V2Effects := mkV2Effects {
  ve_permissions : list string;
  ve_services : list string;
  ve_activities : list string;
  ve_queries : list string;
  ve_tools : list string;
  ve_assets : list string;
  ve_shaders : list string;
  ve_native_libraries : list string;
  ve_commands : list string;
  ve_routes : list string;
  ve_streams : list string;
  ve_inputs : list string;
  ve_scenes : list string;
  ve_markers : list string;
}.

Record V2Descriptor := mkV2Descriptor {
  vd_path : string;
  vd_sha256 : string;
  vd_source_repo : string;
  vd_source_revision : string;
  vd_source_path : string;
  vd_source_sha256 : string;
}.

Record V2Authority := mkV2Authority {
  vau_parameter : string;
  vau_owner : string;
}.

Record V2Activation := mkV2Activation {
  vac_rule : string;
  vac_runtime_inputs : list string;
  vac_receipt_schema : string;
  vac_effective_marker : string;
}.

Record V2Feature := mkV2Feature {
  vf_feature_id : string;
  vf_module_id : string;
  vf_version : string;
  vf_owner_lane : string;
  vf_selected : bool;
  vf_run_activation_default : string;
  vf_descriptor : V2Descriptor;
  vf_dependencies : list string;
  vf_conflicts : list string;
  vf_exclusive_group : option string;
  vf_effects : V2Effects;
  vf_parameter_authorities : list V2Authority;
  vf_activation : V2Activation;
  vf_validation_profile : string;
  vf_rollback_profile : string;
}.

Record V2Lock := mkV2Lock {
  vl_schema_uri : string;
  vl_schema : string;
  vl_project_id : string;
  vl_project_revision : N;
  vl_revision : N;
  vl_generated_at : string;
  vl_resolver_version : string;
  vl_lock_fingerprint : string;
  vl_default_activation : string;
  vl_activation_rule : string;
  vl_selected_features : list string;
  vl_denied_features : list string;
  vl_features : list V2Feature;
  vl_effect_union : V2Effects;
}.

Record InspectedFeatureLockV2 := mkInspected {
  if_generation : N;
  if_raw_sha256 : string;
  if_project_id : string;
  if_project_revision : N;
  if_lock_revision : N;
  if_resolver_fingerprint : string;
  if_feature_id : string;
  if_module_id : string;
  if_receipt_schema : string;
  if_effective_marker : string;
  if_runtime_inputs : list string;
  if_selected_effects : V2Effects;
  if_union_effects : V2Effects;
}.

#[global] Instance v2_effect_eq_dec : EqDecision FeatureLockV2Effect.
Proof. solve_decision. Defined.
#[global] Instance v2_rejection_eq_dec : EqDecision FeatureLockV2Rejection.
Proof. solve_decision. Defined.

(** ** Effects *)

Definition members (e : V2Effects) (family : FeatureLockV2Effect) : list string :=
  match family with
  | Permission => ve_permissions e
  | Service => ve_services e
  | Activity => ve_activities e
  | Query => ve_queries e
  | Tool => ve_tools e
  | Asset => ve_assets e
  | Shader => ve_shaders e
  | NativeLibrary => ve_native_libraries e
  | Command => ve_commands e
  | Route => ve_routes e
  | Stream => ve_streams e
  | Input => ve_inputs e
  | Scene => ve_scenes e
  | Marker => ve_markers e
  end.

Definition families (e : V2Effects) : list (list string) :=
  [ve_permissions e; ve_services e; ve_activities e; ve_queries e; ve_tools e; ve_assets e; ve_shaders e;
   ve_native_libraries e; ve_commands e; ve_routes e; ve_streams e; ve_inputs e; ve_scenes e; ve_markers e].

Definition effects_valid (e : V2Effects) : bool :=
  forallb (fun items => (len items <=? MAX_LIST_ITEMS) &&
    forallb (fun item => valid_bounded_string item MAX_DESCRIPTOR_BYTES false) items && all_distinct items) (families e).

(** [iter().any(|member| member == value)]. *)
Definition contains_text (values : list string) (value : string) : bool := existsb (fun v => v =? value)%string values.

Definition selected_has_effect (i : InspectedFeatureLockV2) (family : FeatureLockV2Effect) (value : string) : bool :=
  contains_text (members (if_selected_effects i) family) value.
Definition union_has_effect (i : InspectedFeatureLockV2) (family : FeatureLockV2Effect) (value : string) : bool :=
  contains_text (members (if_union_effects i) family) value.

(** ** Text *)

(** [&value[start..end]] of an ASCII text, as bytes. *)
Definition byte_slice (bytes : list N) (start stop : nat) : list N := take (stop - start) (drop start bytes).

(** Two and four digits fit [u32]. *)
Definition digits_number (bytes : list N) : option N :=
  if forallb is_ascii_digit bytes then Some (fold_left (fun acc b => acc * 10 + (b - 48)) bytes 0) else None.

Definition number (bytes : list N) (start stop : nat) : option N := digits_number (byte_slice bytes start stop).

Definition number_offset (bytes : list N) : option N :=
  if negb (len bytes =? 2) then None else digits_number bytes.

Fixpoint take_while_digits (bytes : list N) : list N :=
  match bytes with b :: rest => if is_ascii_digit b then b :: take_while_digits rest else [] | [] => [] end.

Definition max_day (year month : N) : option N :=
  let leap := (year mod 4 =? 0) && (negb (year mod 100 =? 0) || (year mod 400 =? 0)) in
  if existsb (N.eqb month) [1; 3; 5; 7; 8; 10; 12] then Some 31
  else if existsb (N.eqb month) [4; 6; 9; 11] then Some 30
  else if month =? 2 then Some (if leap then 29 else 28)
  else None.

Definition byte_at (bytes : list N) (index : nat) : N := default 0 (bytes !! index).

(** After the seconds: an optional fraction and a zone. *)
Definition zone_valid (tail : list N) : bool :=
  bool_decide (tail = [90]) ||
  ((len tail =? 6) && ((byte_at tail 0 =? 43) || (byte_at tail 0 =? 45)) && (byte_at tail 3 =? 58) &&
   match number_offset (byte_slice tail 1 3) with Some hours => hours <=? 23 | None => false end &&
   match number_offset (byte_slice tail 4 6) with Some minutes => minutes <=? 59 | None => false end).

Definition valid_v2_timestamp (value : string) : bool :=
  let bytes := str_bytes value in
  if negb (length_within 20 64 value) || negb (is_ascii value) || negb (byte_at bytes 4 =? 45) ||
     negb (byte_at bytes 7 =? 45) || negb (byte_at bytes 10 =? 84) || negb (byte_at bytes 13 =? 58) ||
     negb (byte_at bytes 16 =? 58)
  then false
  else match number bytes 0 4, number bytes 5 7, number bytes 8 10, number bytes 11 13, number bytes 14 16,
             number bytes 17 19 with
  | Some year, Some month, Some day, Some hour, Some minute, Some second =>
      match max_day year month with
      | None => false
      | Some max_day =>
          if (year =? 0) || (day =? 0) || (max_day <? day) || (23 <? hour) || (59 <? minute) || (59 <? second) then false
          else match drop 19 bytes with
          | 46 :: fraction =>
              let digits := length (take_while_digits fraction) in
              if (digits =? 0)%nat then false else zone_valid (drop digits fraction)
          | tail => zone_valid tail
          end
      end
  | _, _, _, _, _, _ => false
  end.

Definition valid_v2_path (value : string) : bool :=
  negb (str_is_empty value) && (str_len value <=? MAX_DESCRIPTOR_BYTES) && negb (starts_with_byte 47 value) &&
  negb (contains_byte 92 value) && negb (contains_byte 58 value) &&
  negb (existsb (fun part => str_is_empty part || (part =? ".")%string || (part =? "..")%string) (split_on 47 value)) &&
  negb (has_control (str_bytes value)).

Definition valid_v2_id (value : string) : bool :=
  length_within 2 128 value && first_byte lower_or_digit value &&
  all_bytes (fun b => lower_or_digit b || (b =? 45)) value.

(** [values.windows(2).all(|pair| pair[0] < pair[1])]. *)
Fixpoint windows_increasing (values : list string) : bool :=
  match values with
  | a :: (b :: _) as rest => match String.compare a b with Lt => true | _ => false end && windows_increasing rest
  | _ => true
  end.

Definition valid_v2_sorted_ids (values : list string) : bool :=
  (len values <=? MAX_FEATURES) && forallb valid_v2_id values && windows_increasing values.

Definition valid_v2_unique_ids (values : list string) : bool :=
  (len values <=? MAX_FEATURES) && forallb valid_v2_id values && all_distinct values.

(** ** The closure of a lock *)

Definition v2_authority_entry (a : V2Authority) : string * string := (vau_parameter a, vau_owner a).

(** The long condition of the loop, in three parts: the formats of a feature, *)
Definition v2_format_invalid (f : V2Feature) : bool :=
  negb (valid_v2_id (vf_module_id f)) || negb (valid_v2_id (vf_owner_lane f)) ||
  negb (valid_bounded_string (vf_version f) 64 false) ||
  negb (valid_v2_path (vd_path (vf_descriptor f))) || negb (valid_v2_path (vd_source_path (vf_descriptor f))) ||
  negb (valid_sha256 (vd_sha256 (vf_descriptor f))) || negb (valid_sha256 (vd_source_sha256 (vf_descriptor f))) ||
  negb (str_len (vd_source_revision (vf_descriptor f)) =? 40) ||
  negb (all_bytes is_ascii_hexdigit (vd_source_revision (vf_descriptor f))) ||
  negb (valid_v2_id (vd_source_repo (vf_descriptor f))) ||
  negb (valid_v2_sorted_ids (vf_dependencies f)) || negb (valid_v2_sorted_ids (vf_conflicts f)) ||
  negb (effects_valid (vf_effects f)) || negb (valid_v2_id (vf_validation_profile f)) ||
  negb (valid_v2_id (vf_rollback_profile f)) ||
  negb (valid_value_list (vac_runtime_inputs (vf_activation f))) ||
  negb (valid_dotted_id (vac_receipt_schema (vf_activation f))) ||
  negb (valid_dotted_id (vac_effective_marker (vf_activation f))) ||
  (MAX_LIST_ITEMS <? len (vf_parameter_authorities f)) ||
  authorities_invalid valid_v2_id ∅ (v2_authority_entry <$> vf_parameter_authorities f).

(** its activation, *)
Definition v2_activation_invalid (f : V2Feature) : bool :=
  negb (vf_selected f) || negb (vf_run_activation_default f =? "disabled")%string ||
  negb (vac_rule (vf_activation f) =? "selected-lock-and-runtime-input")%string ||
  bool_decide (vac_runtime_inputs (vf_activation f) = []) ||
  negb (contains_text (ve_markers (vf_effects f)) (vac_effective_marker (vf_activation f))) ||
  existsb (fun input => negb (contains_text (ve_inputs (vf_effects f)) input)) (vac_runtime_inputs (vf_activation f)).

(** and its relations to the selection. *)
Definition v2_relations_invalid (selected_features : list string) (resolver_order : bool) (selected : gset string)
    (index : nat) (f : V2Feature) : bool :=
  bool_decide (selected_features !! index ≠ Some (vf_feature_id f)) ||
  existsb (fun id => bool_decide (id ∉ selected) || (id =? vf_feature_id f)%string ||
    (negb resolver_order && negb (contains_text (take index selected_features) id))) (vf_dependencies f) ||
  existsb (fun id => bool_decide (id ∈ selected)) (vf_conflicts f).

Definition v2_feature_invalid (selected_features : list string) (resolver_order : bool) (selected : gset string)
    (index : nat) (f : V2Feature) : bool :=
  v2_format_invalid f || v2_activation_invalid f ||
  v2_relations_invalid selected_features resolver_order selected index f.

(** [exclusive_group.is_some_and(|group| !valid_v2_id(group) || !groups.insert(group))]. *)
Definition group_invalid (groups : gset string) (group : option string) : bool :=
  match group with Some g => negb (valid_v2_id g) || bool_decide (g ∈ groups) | None => false end.

Definition insert_group (groups : gset string) (group : option string) : gset string :=
  match group with Some g => {[g]} ∪ groups | None => groups end.

Definition extend_effects (effects : list (gset string)) (e : V2Effects) : list (gset string) :=
  zip_with (fun (known : gset string) items => known ∪ list_to_set items) effects (families e).

(** The loop over the features: the effects collected, or a refusal. *)
Fixpoint collect_features (selected_features : list string) (resolver_order : bool) (selected : gset string)
    (index : nat) (features : list V2Feature) (modules groups : gset string) (effects : list (gset string))
    : option (list (gset string)) :=
  match features with
  | [] => Some effects
  | f :: rest =>
      if v2_feature_invalid selected_features resolver_order selected index f ||
         bool_decide (vf_module_id f ∈ modules) || group_invalid groups (vf_exclusive_group f)
      then None
      else collect_features selected_features resolver_order selected (S index) rest ({[vf_module_id f]} ∪ modules)
             (insert_group groups (vf_exclusive_group f)) (extend_effects effects (vf_effects f))
  end.

Definition v2_dependencies_acyclic (features : list V2Feature) : bool :=
  let by_id := index_positions vf_feature_id 0 features ∅ in
  bool_decide (visit_all (dependency_targets vf_dependencies features by_id) (length features) = Some true).

Definition valid_v2_closure (lock : V2Lock) : bool :=
  let resolver_order := windows_increasing (vl_selected_features lock) in
  if (MAX_FEATURES <? len (vl_features lock)) || negb (valid_v2_unique_ids (vl_selected_features lock)) ||
     negb (valid_v2_sorted_ids (vl_denied_features lock)) ||
     negb (len (vl_selected_features lock) =? len (vl_features lock)) || negb (effects_valid (vl_effect_union lock)) ||
     existsb (fun items => negb (windows_increasing items)) (families (vl_effect_union lock))
  then false
  else
    let selected : gset string := list_to_set (vl_selected_features lock) in
    if existsb (fun id => bool_decide (id ∈ selected)) (vl_denied_features lock) then false
    else match collect_features (vl_selected_features lock) resolver_order selected 0 (vl_features lock) ∅ ∅
                 (replicate 14 ∅) with
    | None => false
    | Some effects =>
        if negb (v2_dependencies_acyclic (vl_features lock)) then false
        else bool_decide ((list_to_set <$> families (vl_effect_union lock)) = effects)
    end.

(** ** The canonical text *)

(** [str::encode_utf16], from the bytes of the text. *)
Definition utf16_units (point : N) : list N :=
  if point <? 0x10000 then [point]
  else [0xd800 + (point - 0x10000) / 0x400; 0xdc00 + (point - 0x10000) mod 0x400].

Fixpoint encode_utf16 (bytes : list N) : list N :=
  match bytes with
  | [] => []
  | b0 :: r0 =>
      if b0 <? 0x80 then b0 :: encode_utf16 r0
      else match r0 with
      | [] => []
      | b1 :: r1 =>
          if b0 <? 0xe0 then utf16_units ((b0 - 0xc0) * 64 + (b1 - 0x80)) ++ encode_utf16 r1
          else match r1 with
          | [] => []
          | b2 :: r2 =>
              if b0 <? 0xf0
              then utf16_units ((b0 - 0xe0) * 4096 + (b1 - 0x80) * 64 + (b2 - 0x80)) ++ encode_utf16 r2
              else match r2 with
              | [] => []
              | b3 :: r3 =>
                  utf16_units ((b0 - 0xf0) * 262144 + (b1 - 0x80) * 4096 + (b2 - 0x80) * 64 + (b3 - 0x80)) ++
                  encode_utf16 r3
              end
          end
      end
  end.

Definition escape_unit (unit : N) : list N :=
  if unit =? 8 then [92; 98]
  else if unit =? 9 then [92; 116]
  else if unit =? 10 then [92; 110]
  else if unit =? 12 then [92; 102]
  else if unit =? 13 then [92; 114]
  else if unit =? 34 then [92; 34]
  else if unit =? 92 then [92; 92]
  else if (unit <? 32) || (127 <=? unit)
  then [92; 117; hex_byte (unit / 4096); hex_byte ((unit / 256) mod 16); hex_byte ((unit / 16) mod 16);
        hex_byte (unit mod 16)]
  else [unit].

Definition encode_text (text : string) : list N :=
  [34] ++ flat_map escape_unit (encode_utf16 (str_bytes text)) ++ [34].

Fixpoint canonical_v2_json (value : Value) : list N :=
  match value with
  | VNull => str_bytes "null"
  | VBool b => str_bytes (if b then "true" else "false")
  | VNumber text => str_bytes text
  | VString text => encode_text text
  | VArray items => [91] ++ comma_separated (map canonical_v2_json items) ++ [93]
  | VObject fields =>
      [123] ++ comma_separated (map (fun field => encode_text (fst field) ++ [58] ++ canonical_v2_json (snd field)) fields) ++
      [125]
  end.

(** ** Inspection *)

(** [serde_json] at the lock type: [from_str], [to_value] and [to_string]. *)
Class FeatureLockV2Json := {
  v2_from_str : string → option V2Lock;
  v2_to_value : V2Lock → option Value;
  v2_to_string : V2Lock → option string;
}.

Definition V2_SCHEMA_URI : string :=
  "https://github.com/MesmerPrism/rusty-morphospace-work-environment/schemas/feature-lock-v2.schema.json".

Definition zeroed_fingerprint : string := "0000000000000000000000000000000000000000000000000000000000000000".

Definition zeroed (lock : V2Lock) : V2Lock :=
  mkV2Lock (vl_schema_uri lock) (vl_schema lock) (vl_project_id lock) (vl_project_revision lock) (vl_revision lock)
    (vl_generated_at lock) (vl_resolver_version lock) zeroed_fingerprint (vl_default_activation lock)
    (vl_activation_rule lock) (vl_selected_features lock) (vl_denied_features lock) (vl_features lock)
    (vl_effect_union lock).

Section Inspection.
Context {RC : ReleaseCrypto} {VJ : FeatureLockV2Json}.

Definition v2_header_invalid (lock : V2Lock) : bool :=
  negb (vl_schema_uri lock =? V2_SCHEMA_URI)%string ||
  negb (vl_schema lock =? "rusty.morphospace.workflow.feature_lock.v2")%string ||
  negb (vl_resolver_version lock =? "rusty-morphospace-feature-resolver/2")%string ||
  negb (vl_default_activation lock =? "disabled")%string ||
  negb (vl_activation_rule lock =? "selected-lock-and-runtime-input")%string ||
  (vl_project_revision lock =? 0) || (vl_revision lock =? 0) ||
  negb (valid_v2_id (vl_project_id lock)) || negb (valid_v2_timestamp (vl_generated_at lock)) ||
  negb (valid_sha256 (vl_lock_fingerprint lock)).

Definition inspected (raw_sha256 : string) (lock : V2Lock) (f : V2Feature) : InspectedFeatureLockV2 :=
  mkInspected 2 raw_sha256 (vl_project_id lock) (vl_project_revision lock) (vl_revision lock)
    (vl_lock_fingerprint lock) (vf_feature_id f) (vf_module_id f) (vac_receipt_schema (vf_activation f))
    (vac_effective_marker (vf_activation f)) (vac_runtime_inputs (vf_activation f)) (vf_effects f) (vl_effect_union lock).

Definition inspect_feature_lock_v2 (lock_json accepted_raw_sha256 selected_feature_id : string)
    : result FeatureLockV2Rejection InspectedFeatureLockV2 :=
  fail_if ((MAX_LOCK_BYTES <? str_len lock_json) || negb (valid_sha256 accepted_raw_sha256) ||
           negb (valid_v2_id selected_feature_id)) V2InvalidExpectation ;;
  let raw_sha256 := sha256_hex (str_bytes lock_json) in
  fail_if (negb (accepted_raw_sha256 =? raw_sha256)%string) V2UnacceptedBytes ;;
  lock ← ok_or (v2_from_str lock_json) V2InvalidLock;
  fail_if (v2_header_invalid lock) V2InvalidLock ;;
  value ← ok_or (v2_to_value (zeroed lock)) V2InvalidLock;
  ordered ← ok_or (v2_to_string (zeroed lock)) V2InvalidLock;
  let canonical := sha256_hex (canonical_v2_json value) in
  let historic := sha256_hex (str_bytes ordered) in
  fail_if (negb (vl_lock_fingerprint lock =? canonical)%string && negb (vl_lock_fingerprint lock =? historic)%string)
    V2InvalidFingerprint ;;
  fail_if (negb (valid_v2_closure lock)) V2InvalidClosure ;;
  selected ← ok_or (List.find (fun f => vf_feature_id f =? selected_feature_id)%string (vl_features lock))
    V2FeatureNotSelected;
  mret (inspected raw_sha256 lock selected).
End Inspection.
