(* ===== verification/FeatureV2Theorems.v ===== *)
(** * What an inspected second-generation lock promises

    [v2_closed] is the closure of a lock without the loop that decides it: the
    selection, its dependencies and conflicts, and the union of the effects. *)

From Stdlib Require Import Sorting.Sorted.
From S2P Require Import Prelude RustStr UpdateAdmission DepGraph FeatureLock FeatureTheorems JsonValue FeatureLockV2.

Local Open Scope N_scope.

Definition id_lt (a b : string) : Prop := String.compare a b = Lt.

Lemma id_lt_trans a b c : id_lt a b → id_lt b c → id_lt a c.
Proof. apply string_compare_lt_trans. Qed.

Lemma windows_increasing_iff l : windows_increasing l = true ↔ StronglySorted id_lt l.
Proof.
  induction l as [|a l IH]; [split; [constructor|done]|]. destruct l as [|b l].
  { split; [by repeat constructor|done]. }
  change (windows_increasing (a :: b :: l)) with (match String.compare a b with Lt => true | _ => false end && windows_increasing (b :: l)).
  rewrite andb_true_iff, IH. split.
  - intros [Hab Hs]. assert (id_lt a b) by (unfold id_lt; by destruct (String.compare a b)).
    constructor; [done|]. constructor; [done|]. apply StronglySorted_inv in Hs as [_ Hs].
    eapply Forall_impl; [exact Hs|]. intros c. by apply id_lt_trans.
  - intros [Hs Ha]%StronglySorted_inv. split; [|done]. apply Forall_cons in Ha as [Ha _]. by rewrite Ha.
Qed.

Lemma contains_text_iff l v : contains_text l v = true ↔ v ∈ l.
Proof.
  unfold contains_text. rewrite existsb_exists. setoid_rewrite list_elem_of_In. split.
  - intros (x & Hx & ->%String.eqb_eq). done.
  - intros Hv. exists v. split; [done|]. apply String.eqb_refl.
Qed.

(** ** Families *)

Definition all_families : list FeatureLockV2Effect :=
  [Permission; Service; Activity; Query; Tool; Asset; Shader; NativeLibrary; Command; Route; Stream; Input; Scene; Marker].

Lemma elem_of_all_families family : family ∈ all_families.
Proof. destruct family; set_solver. Qed.

Lemma families_members e : families e = members e <$> all_families.
Proof. reflexivity. Qed.

Lemma extend_effects_members (known : FeatureLockV2Effect → gset string) e :
  extend_effects (known <$> all_families) e = (λ family, known family ∪ list_to_set (members e family)) <$> all_families.
Proof. reflexivity. Qed.

Lemma extend_all (features : list V2Feature) (known : FeatureLockV2Effect → gset string) :
  foldl extend_effects (known <$> all_families) (vf_effects <$> features) =
  (λ family, known family ∪ ⋃ ((λ f, list_to_set (members (vf_effects f) family)) <$> features)) <$> all_families.
Proof.
  revert known. induction features as [|f features IH]; intros known; cbn [foldl fmap list_fmap].
  - apply list_fmap_ext. intros _ family _. cbn. set_solver.
  - rewrite extend_effects_members, IH. apply list_fmap_ext. intros _ family _. cbn. set_solver.
Qed.

Lemma family_sets_equal (a b : FeatureLockV2Effect → gset string) :
  a <$> all_families = b <$> all_families ↔ ∀ family, a family = b family.
Proof.
  split.
  - intros H family. destruct (list_elem_of_lookup_1 _ _ (elem_of_all_families family)) as [i Hi].
    apply (f_equal (lookup i)) in H. rewrite !list_lookup_fmap, Hi in H. by injection H.
  - intros H. apply list_fmap_ext. auto.
Qed.

(** ** The closure of a lock *)

Record v2_feature_wf (f : V2Feature) : Prop := {
  vw_format : v2_format_invalid f = false;
  vw_selected : vf_selected f = true;
  vw_default : vf_run_activation_default f = "disabled"%string;
  vw_rule : vac_rule (vf_activation f) = "selected-lock-and-runtime-input"%string;
  (** its marker is one of its effects, and so are its inputs, of which there is one *)
  vw_marker : vac_effective_marker (vf_activation f) ∈ members (vf_effects f) Marker;
  vw_some_input : vac_runtime_inputs (vf_activation f) ≠ [];
  vw_inputs input : input ∈ vac_runtime_inputs (vf_activation f) → input ∈ members (vf_effects f) Input;
}.

Record v2_closed (lock : V2Lock) : Prop := {
  vc_count : len (vl_features lock) <= MAX_FEATURES;
  vc_selected : vl_selected_features lock = vf_feature_id <$> vl_features lock;
  vc_ids id : id ∈ vl_selected_features lock → valid_v2_id id = true;
  vc_distinct : NoDup (vl_selected_features lock);
  vc_denied_ids : valid_v2_sorted_ids (vl_denied_features lock) = true;
  vc_denied id : id ∈ vl_denied_features lock → id ∉ vl_selected_features lock;
  vc_features f : f ∈ vl_features lock → v2_feature_wf f;
  vc_modules : NoDup (vf_module_id <$> vl_features lock);
  vc_groups : NoDup (omap vf_exclusive_group (vl_features lock));
  vc_group_ids g : g ∈ omap vf_exclusive_group (vl_features lock) → valid_v2_id g = true;
  (** every dependency is selected, and no feature needs itself *)
  vc_needs : well_founded_needs vf_feature_id vf_dependencies (vl_features lock);
  (** the selection is sorted, or every feature comes after its dependencies *)
  vc_order : StronglySorted id_lt (vl_selected_features lock) ∨
    ∀ i f id, vl_features lock !! i = Some f → id ∈ vf_dependencies f → id ∈ take i (vl_selected_features lock);
  vc_conflicts f id : f ∈ vl_features lock → id ∈ vf_conflicts f → id ∉ vl_selected_features lock;
  vc_union_valid : effects_valid (vl_effect_union lock) = true;
  vc_union_sorted family : StronglySorted id_lt (members (vl_effect_union lock) family);
  (** the union has the effects of the features, and no others *)
  vc_union family value : value ∈ members (vl_effect_union lock) family ↔
    ∃ f, f ∈ vl_features lock ∧ value ∈ members (vf_effects f) family;
}.

Lemma v2_feature_wf_iff f : v2_format_invalid f = false ∧ v2_activation_invalid f = false ↔ v2_feature_wf f.
Proof.
  unfold v2_activation_invalid.
  rewrite !orb_false_iff, !negb_false_iff, !String.eqb_eq, bool_decide_eq_false, contains_text_iff, existsb_false_iff.
  split.
  - intros (Hf & ((((Hs & Hd) & Hr) & Hn) & Hm) & Hi). constructor; try done.
    intros input Hin. specialize (Hi input Hin). apply negb_false_iff in Hi. by apply contains_text_iff.
  - intros []. split_and!; try done. intros input Hin. apply negb_false_iff, contains_text_iff. auto.
Qed.

Lemma v2_relations_iff ids order i f :
  v2_relations_invalid ids order (list_to_set ids) i f = false ↔
  ids !! i = Some (vf_feature_id f) ∧
  (∀ id, id ∈ vf_dependencies f → id ∈ ids ∧ id ≠ vf_feature_id f ∧ (order = false → id ∈ take i ids)) ∧
  (∀ id, id ∈ vf_conflicts f → id ∉ ids).
Proof.
  unfold v2_relations_invalid. rewrite !orb_false_iff, !existsb_false_iff, bool_decide_eq_false.
  setoid_rewrite orb_false_iff. setoid_rewrite orb_false_iff. setoid_rewrite bool_decide_eq_false.
  setoid_rewrite elem_of_list_to_set. setoid_rewrite String.eqb_neq. setoid_rewrite andb_false_iff.
  setoid_rewrite negb_false_iff. setoid_rewrite contains_text_iff. split.
  - intros [[Hi Hd] Hc]. split; [by apply dec_stable|]. split; [|done]. intros id Hid.
    destruct (Hd id Hid) as [[Hs Hn] Ho]. split; [by apply dec_stable|]. split; [done|]. intros ->. by destruct Ho.
  - intros (Hi & Hd & Hc). split; [|done]. split; [tauto|]. intros id Hid. destruct (Hd id Hid) as (Hs & Hn & Ho).
    split; [tauto|]. destruct order; auto.
Qed.

(** Adding one value to a set while no other is met twice. *)
Lemma fresh_cons (x : string) l (seen : gset string) (P : string → Prop) :
  (NoDup (x :: l) ∧ ∀ y, y ∈ x :: l → y ∉ seen ∧ P y) ↔
  (x ∉ seen ∧ P x) ∧ NoDup l ∧ ∀ y, y ∈ l → y ∉ {[x]} ∪ seen ∧ P y.
Proof. rewrite NoDup_cons. set_solver. Qed.

Lemma collect_features_spec ids order selected i l modules groups effects r :
  collect_features ids order selected i l modules groups effects = Some r ↔
  (∀ d f, l !! d = Some f → v2_feature_invalid ids order selected (i + d) f = false) ∧
  (NoDup (vf_module_id <$> l) ∧ ∀ m, m ∈ vf_module_id <$> l → m ∉ modules ∧ True) ∧
  (NoDup (omap vf_exclusive_group l) ∧ ∀ g, g ∈ omap vf_exclusive_group l → g ∉ groups ∧ valid_v2_id g = true) ∧
  r = foldl extend_effects effects (vf_effects <$> l).
Proof.
  revert i modules groups effects. induction l as [|f l IH]; intros i modules groups effects; cbn.
  { split; [intros [= <-]|naive_solver]. split_and!; try done; try constructor; set_solver. }
  rewrite (fresh_cons _ _ _ (λ _, True)).
  assert (Hgroup : group_invalid groups (vf_exclusive_group f) = false ∧
      (NoDup (omap vf_exclusive_group l) ∧ ∀ g, g ∈ omap vf_exclusive_group l →
        g ∉ insert_group groups (vf_exclusive_group f) ∧ valid_v2_id g = true) ↔
    NoDup (omap vf_exclusive_group (f :: l)) ∧ ∀ g, g ∈ omap vf_exclusive_group (f :: l) →
      g ∉ groups ∧ valid_v2_id g = true).
  { cbn. destruct (vf_exclusive_group f) as [g|]; cbn; [|tauto]. rewrite fresh_cons, orb_false_iff, negb_false_iff,
      bool_decide_eq_false. tauto. }
  cbn in Hgroup. rewrite <- Hgroup. clear Hgroup. destruct (_ || _ || _) eqn:E.
  - split; [done|]. intros (Hf & Hm & Hg & _). specialize (Hf 0%nat f eq_refl). rewrite Nat.add_0_r in Hf.
    rewrite Hf, bool_decide_eq_false_2, (proj1 Hg) in E by tauto. done.
  - bool_to_prop. rewrite IH. split.
    + intros (Hf & Hm & Hg & ->). split_and!; try tauto. intros [|d] g; cbn.
      * intros [= <-]. by rewrite Nat.add_0_r.
      * intros Hd. rewrite Nat.add_succ_r. by apply (Hf d).
    + intros (Hf & Hm & Hg & ->). split_and!; try tauto. intros d g Hd.
      specialize (Hf (S d) g Hd). by rewrite Nat.add_succ_r in Hf.
Qed.

(** Positions and identifiers: the features are listed in the order of the selection. *)
Lemma positions_iff {A} (key : A → string) ids l :
  (length ids = length l ∧ ∀ i f, l !! i = Some f → ids !! i = Some (key f)) ↔ ids = key <$> l.
Proof.
  split.
  - intros [Hl Hk]. apply list_eq. intros i. rewrite list_lookup_fmap. destruct (l !! i) as [f|] eqn:E; [by apply Hk|].
    cbn. apply lookup_ge_None in E. apply lookup_ge_None. lia.
  - intros ->. split; [apply length_fmap|]. intros i f E. by rewrite list_lookup_fmap, E.
Qed.

(** The tests of [valid_v2_closure], in order. *)
Lemma valid_v2_closure_tests lock :
  valid_v2_closure lock = true ↔
  (len (vl_features lock) <= MAX_FEATURES ∧ valid_v2_unique_ids (vl_selected_features lock) = true ∧
   valid_v2_sorted_ids (vl_denied_features lock) = true ∧
   len (vl_selected_features lock) = len (vl_features lock) ∧ effects_valid (vl_effect_union lock) = true ∧
   (∀ items, items ∈ families (vl_effect_union lock) → windows_increasing items = true)) ∧
  (∀ id, id ∈ vl_denied_features lock → id ∉ vl_selected_features lock) ∧
  collect_features (vl_selected_features lock) (windows_increasing (vl_selected_features lock))
    (list_to_set (vl_selected_features lock)) 0 (vl_features lock) ∅ ∅ (replicate 14 ∅) =
    Some (list_to_set <$> families (vl_effect_union lock)) ∧
  v2_dependencies_acyclic (vl_features lock) = true.
Proof.
  unfold valid_v2_closure. rewrite <- N.ltb_ge, <- N.eqb_eq. destruct (_ || _) eqn:E.
  - split; [done|]. intros ((Hc & Hu & Hd & Hn & He & Hs) & _).
    rewrite Hc, Hu, Hd, Hn, He in E. cbn [negb orb] in E. apply existsb_exists in E as (x & Hx%list_elem_of_In & Hn').
    by rewrite Hs in Hn'.
  - rewrite !orb_false_iff, !negb_false_iff, existsb_false_iff in E. destruct E as (((((H1 & H2) & H3) & H4) & H5) & H6).
    setoid_rewrite negb_false_iff in H6.
    destruct (existsb _ (vl_denied_features lock)) eqn:Ed.
    + split; [done|]. intros (_ & Hd & _). apply existsb_exists in Ed as (id & Hid%list_elem_of_In & Hs).
      apply bool_decide_eq_true, elem_of_list_to_set in Hs. by destruct (Hd id Hid).
    + rewrite existsb_false_iff in Ed.
      assert (Hden : ∀ id, id ∈ vl_denied_features lock → id ∉ vl_selected_features lock).
      { intros id Hid. specialize (Ed id Hid). by rewrite bool_decide_eq_false, elem_of_list_to_set in Ed. }
      destruct (collect_features _ _ _ _ _ _ _ _) as [effects|]; [|naive_solver].
      destruct (v2_dependencies_acyclic _); cbn; [|naive_solver]. rewrite bool_decide_eq_true. split; [|naive_solver].
      intros ->. done.
Qed.

Lemma collected_union fs u :
  list_to_set <$> families u = foldl extend_effects (replicate 14 ∅) (vf_effects <$> fs) ↔
  ∀ family value, value ∈ members u family ↔ ∃ f, f ∈ fs ∧ value ∈ members (vf_effects f) family.
Proof.
  change (replicate 14 (∅ : gset string)) with ((λ _ : FeatureLockV2Effect, (∅ : gset string)) <$> all_families).
  rewrite extend_all, families_members, <- list_fmap_compose, family_sets_equal. apply forall_proper. intros family.
  rewrite set_eq. apply forall_proper. intros value. unfold compose.
  rewrite elem_of_union, elem_of_union_list, elem_of_list_to_set. setoid_rewrite list_elem_of_fmap.
  assert (Hex : (value ∈ (∅ : gset string) ∨ ∃ X : gset string,
      (∃ f, X = list_to_set (members (vf_effects f) family) ∧ f ∈ fs) ∧ value ∈ X) ↔
    ∃ f, f ∈ fs ∧ value ∈ members (vf_effects f) family).
  { split.
    - intros [?%not_elem_of_empty|(X & (f & -> & Hf) & Hv%elem_of_list_to_set)]; [done|by exists f].
    - intros (f & Hf & Hv). right. exists (list_to_set (members (vf_effects f) family)).
      split; [by exists f|by apply elem_of_list_to_set]. }
  by rewrite Hex.
Qed.

Lemma v2_needs_iff fs :
  NoDup (vf_feature_id <$> fs) →
  v2_dependencies_acyclic fs = true ↔ well_founded_needs vf_feature_id vf_dependencies fs.
Proof.
  intros Hnd. unfold v2_dependencies_acyclic. rewrite bool_decide_eq_true. apply visit_all_needs.
  by apply index_positions_indexes.
Qed.

Lemma unique_ids_iff ids :
  valid_v2_unique_ids ids = true ↔
  len ids <= MAX_FEATURES ∧ (∀ id, id ∈ ids → valid_v2_id id = true) ∧ NoDup ids.
Proof.
  unfold valid_v2_unique_ids. rewrite !andb_true_iff, N.leb_le, all_distinct_iff, forallb_forall.
  setoid_rewrite list_elem_of_In. tauto.
Qed.

Lemma valid_v2_closure_iff lock : valid_v2_closure lock = true ↔ v2_closed lock.
Proof.
  rewrite valid_v2_closure_tests, unique_ids_iff, collect_features_spec, collected_union.
  set (ids := vl_selected_features lock). set (fs := vl_features lock). set (u := vl_effect_union lock). split.
  - intros ((Hc & (_ & Hid & Hnd) & Hden & Hlen & Hu & Hs) & Hdis & (Hf & [Hm _] & [Hg Hgid] & Hun) & Hac).
    assert (Hall : ∀ i f, fs !! i = Some f → v2_feature_wf f ∧ v2_relations_invalid ids (windows_increasing ids) (list_to_set ids) i f = false).
    { intros i f E. specialize (Hf i f E). unfold v2_feature_invalid in Hf. rewrite !orb_false_iff in Hf.
      by rewrite <- v2_feature_wf_iff. }
    assert (Hids : ids = vf_feature_id <$> fs).
    { apply positions_iff. split; [unfold len in Hlen; lia|]. intros i f E. by apply Hall, proj2, v2_relations_iff in E as [? _]. }
    constructor; try done; fold ids fs u.
    + intros f [i E]%list_elem_of_lookup_1. by apply (Hall i f).
    + intros g Hin. by apply Hgid.
    + apply v2_needs_iff; [by rewrite <- Hids|done].
    + destruct (windows_increasing ids) eqn:Ei; [left; by apply windows_increasing_iff|right]. intros i f id E Hd.
      apply Hall, proj2, v2_relations_iff in E as (_ & Hdep & _). by apply Hdep.
    + intros f id [i E]%list_elem_of_lookup_1 Hin. apply Hall, proj2, v2_relations_iff in E as (_ & _ & Hcf). by apply Hcf.
    + intros family. apply windows_increasing_iff, Hs. rewrite families_members. apply list_elem_of_fmap_2, elem_of_all_families.
  - intros [Hc Hids Hid Hnd Hden Hdis Hf Hm Hg Hgid Hn Ho Hcf Hu Hs Hun].
    assert (Hdep : ∀ i f, fs !! i = Some f → v2_relations_invalid ids (windows_increasing ids) (list_to_set ids) i f = false).
    { intros i f E. assert (Hin : f ∈ fs) by (by eapply list_elem_of_lookup_2). apply v2_relations_iff. split_and!.
      - unfold ids. rewrite Hids. by apply (proj2 (proj2 (positions_iff _ _ _) eq_refl)).
      - intros id Hd. assert (Hneed : needs vf_feature_id vf_dependencies fs (vf_feature_id f) id) by (by exists f).
        split_and!.
        + unfold ids. rewrite Hids. by eapply Hn.
        + intros ->. eapply (proj2 Hn), tc_once, Hneed.
        + intros Ei. destruct Ho as [Ho|Ho]; [apply windows_increasing_iff in Ho; fold ids in Ho; congruence|by eapply Ho].
      - intros id. by apply Hcf. }
    split_and!; try done.
    + unfold ids. rewrite Hids. unfold len. by rewrite length_fmap.
    + unfold ids. rewrite Hids. unfold len. by rewrite length_fmap.
    + rewrite families_members. intros items (family & -> & _)%list_elem_of_fmap. apply windows_increasing_iff, Hs.
    + intros i f E. unfold v2_feature_invalid. rewrite !orb_false_iff, v2_feature_wf_iff. split; [|by apply Hdep].
      apply Hf. by eapply list_elem_of_lookup_2.
    + intros g Hin. split; [set_solver|by apply Hgid].
    + apply v2_needs_iff; [fold fs in Hids; by rewrite <- Hids|done].
Qed.

Lemma closed_feature_ids lock : v2_closed lock → NoDup (vf_feature_id <$> vl_features lock).
Proof. intros H. rewrite <- (vc_selected _ H). apply H. Qed.

(** ** Inspection *)

Section Inspection.
Context {RC : ReleaseCrypto} {VJ : FeatureLockV2Json}.

(** An inspection succeeds exactly on accepted bytes of a closed lock that selects the feature. *)
Lemma inspect_ok_iff lock_json accepted_raw_sha256 selected_feature_id i :
  inspect_feature_lock_v2 lock_json accepted_raw_sha256 selected_feature_id = Ok i ↔
  str_len lock_json <= MAX_LOCK_BYTES ∧ valid_sha256 accepted_raw_sha256 = true ∧
  valid_v2_id selected_feature_id = true ∧ accepted_raw_sha256 = sha256_hex (str_bytes lock_json) ∧
  ∃ lock f value ordered,
    v2_from_str lock_json = Some lock ∧ v2_header_invalid lock = false ∧
    v2_to_value (zeroed lock) = Some value ∧ v2_to_string (zeroed lock) = Some ordered ∧
    (vl_lock_fingerprint lock = sha256_hex (canonical_v2_json value) ∨
     vl_lock_fingerprint lock = sha256_hex (str_bytes ordered)) ∧
    v2_closed lock ∧ f ∈ vl_features lock ∧ vf_feature_id f = selected_feature_id ∧
    i = inspected accepted_raw_sha256 lock f.
Proof.
  unfold inspect_feature_lock_v2. split.
  - intros H. inv_ok. bool_to_prop. subst. match goal with E : v2_from_str _ = Some ?l |- _ => rename l into lock end.
    match goal with E : List.find _ _ = Some ?f |- _ => rename f into g end.
    rewrite valid_v2_closure_iff in *. rewrite find_key_iff in * by (by apply closed_feature_ids). subst.
    split_and!; try done. exists lock, g. do 2 eexists. split_and!; try done; try tauto.
    match goal with E : _ && _ = false |- _ => apply andb_false_iff in E as [E|E]; bool_to_prop; auto end.
  - intros (Hl & Hs & Hi & -> & lock & f & value & ordered & El & Hh & Ev & Eo & Hfp & Hc & Hin & Hf & ->).
    rewrite !then_ok, !fail_if_ok, !orb_false_iff, !negb_false_iff, N.ltb_ge, String.eqb_eq. split_and!; try done.
    rewrite El. cbn [ok_or mbind result_bind]. rewrite Ev, Eo. cbn [ok_or mbind result_bind].
    rewrite !then_ok, !fail_if_ok, negb_false_iff, andb_false_iff, !negb_false_iff, !String.eqb_eq, valid_v2_closure_iff.
    split_and!; try done.
    by rewrite (proj2 (find_key_iff vf_feature_id selected_feature_id _ f (closed_feature_ids _ Hc)) (conj Hin Hf)).
Qed.
End Inspection.

(** ** The canonical text

    [canonical_v2_json] writes a document so that the text determines it: equal
    texts are texts of equal documents, so a fingerprint that matches is one of
    the document that was hashed. *)

(** ** UTF-16 *)

(** A well-formed text is empty or starts with a character of one to four bytes. *)
Inductive utf8_view : list N → Prop :=
  | view_nil : utf8_view []
  | view_1 b0 r : b0 < 0x80 → utf8_valid r = true → utf8_view (b0 :: r)
  | view_2 b0 b1 r : 0xc2 <= b0 <= 0xdf → 0x80 <= b1 <= 0xbf → utf8_valid r = true → utf8_view (b0 :: b1 :: r)
  | view_3 b0 b1 b2 r : 0xe0 <= b0 <= 0xef → 0x80 <= b1 <= 0xbf → 0x80 <= b2 <= 0xbf →
      (b0 = 0xe0 → 0xa0 <= b1) → (b0 = 0xed → b1 <= 0x9f) → utf8_valid r = true → utf8_view (b0 :: b1 :: b2 :: r)
  | view_4 b0 b1 b2 b3 r : 0xf0 <= b0 <= 0xf4 → 0x80 <= b1 <= 0xbf → 0x80 <= b2 <= 0xbf → 0x80 <= b3 <= 0xbf →
      (b0 = 0xf0 → 0x90 <= b1) → (b0 = 0xf4 → b1 <= 0x8f) → utf8_valid r = true →
      utf8_view (b0 :: b1 :: b2 :: b3 :: r).

Lemma utf8_viewed bytes : utf8_valid bytes = true → utf8_view bytes.
Proof.
  destruct bytes as [|b0 r0]; [constructor|]. cbn. unfold cont, in_range. intros H.
  destruct (b0 <? 0x80) eqn:E0; [bool_to_prop; by constructor|].
  destruct r0 as [|b1 r1]; [done|]. destruct ((_ <=? b0) && (b0 <=? _)) eqn:E1 in H.
  { bool_to_prop. by constructor. }
  destruct r1 as [|b2 r2]; [done|].
  destruct (b0 =? 0xe0) eqn:E2; [bool_to_prop; constructor; (done || lia)|].
  destruct (_ || _) eqn:E3 in H.
  { apply orb_true_iff in E3 as [E3|E3]; bool_to_prop; constructor; (done || lia). }
  destruct (b0 =? 0xed) eqn:E4; [bool_to_prop; constructor; (done || lia)|].
  destruct r2 as [|b3 r3]; [done|].
  destruct (b0 =? 0xf0) eqn:E5; [bool_to_prop; constructor; (done || lia)|].
  destruct ((_ <=? b0) && (b0 <=? _)) eqn:E6 in H; [bool_to_prop; constructor; (done || lia)|].
  destruct (b0 =? 0xf4) eqn:E7; [bool_to_prop; constructor; (done || lia)|done].
Qed.

Local Ltac small_units :=
  unfold utf16_units;
  repeat match goal with |- context [?a <? ?b] =>
    first [rewrite (proj2 (N.ltb_lt a b)) by lia|rewrite (proj2 (N.ltb_ge a b)) by lia] end.

Lemma encode_utf16_1 b0 r : b0 < 0x80 → encode_utf16 (b0 :: r) = b0 :: encode_utf16 r.
Proof. intros. cbn [encode_utf16]. by small_units. Qed.

Lemma encode_utf16_2 b0 b1 r : 0xc2 <= b0 <= 0xdf → 0x80 <= b1 <= 0xbf →
  encode_utf16 (b0 :: b1 :: r) = ((b0 - 0xc0) * 64 + (b1 - 0x80)) :: encode_utf16 r.
Proof. intros. cbn [encode_utf16]. by small_units. Qed.

Lemma encode_utf16_3 b0 b1 b2 r : 0xe0 <= b0 <= 0xef → 0x80 <= b1 <= 0xbf → 0x80 <= b2 <= 0xbf →
  encode_utf16 (b0 :: b1 :: b2 :: r) = ((b0 - 0xe0) * 4096 + (b1 - 0x80) * 64 + (b2 - 0x80)) :: encode_utf16 r.
Proof. intros. cbn [encode_utf16]. by small_units. Qed.

(** A pair of surrogates, in their ranges, that determines the number. *)
Lemma encode_utf16_4 b0 b1 b2 b3 r :
  0xf0 <= b0 <= 0xf4 → 0x80 <= b1 <= 0xbf → 0x80 <= b2 <= 0xbf → 0x80 <= b3 <= 0xbf →
  (b0 = 0xf0 → 0x90 <= b1) → (b0 = 0xf4 → b1 <= 0x8f) →
  ∃ high low, encode_utf16 (b0 :: b1 :: b2 :: b3 :: r) = high :: low :: encode_utf16 r ∧
    0xd800 <= high < 0xdc00 ∧ 0xdc00 <= low < 0xe000 ∧
    (b0 - 0xf0) * 262144 + (b1 - 0x80) * 4096 + (b2 - 0x80) * 64 + (b3 - 0x80) =
      0x10000 + (high - 0xd800) * 0x400 + (low - 0xdc00).
Proof.
  intros. cbn [encode_utf16]. set (p := (b0 - 0xf0) * 262144 + _ + _ + _). assert (0x10000 <= p < 0x110000) by lia.
  small_units. do 2 eexists. split; [done|].
  assert ((p - 0x10000) / 0x400 < 0x400) by (apply N.Div0.div_lt_upper_bound; lia).
  pose proof (N.div_mod (p - 0x10000) 0x400 ltac:(done)) as Hdm. pose proof (N.mod_lt (p - 0x10000) 0x400 ltac:(done)) as Hm.
  generalize dependent ((p - 0x10000) / 0x400). generalize dependent ((p - 0x10000) mod 0x400). intros m Hm d Hd Hdm.
  clearbody p. lia.
Qed.

Local Ltac units :=
  repeat match goal with
  | H : ?b0 < 0x80 |- context [encode_utf16 (?b0 :: ?r)] => rewrite (encode_utf16_1 b0 r) by done
  | H : 0xc2 <= ?b0 <= 0xdf |- context [encode_utf16 (?b0 :: ?b1 :: ?r)] => rewrite (encode_utf16_2 b0 b1 r) by done
  | H : 0xe0 <= ?b0 <= 0xef |- context [encode_utf16 (?b0 :: ?b1 :: ?b2 :: ?r)] =>
      rewrite (encode_utf16_3 b0 b1 b2 r) by done
  | H : 0xf0 <= ?b0 <= 0xf4 |- context [encode_utf16 (?b0 :: ?b1 :: ?b2 :: ?b3 :: ?r)] =>
      let E := fresh "E" in
      destruct (encode_utf16_4 b0 b1 b2 b3 r) as (? & ? & E & ?); [done..|rewrite E; clear E]
  end.

(** The bytes of a character are determined by its number. *)
Lemma digits64_inj x y a b : a < 64 → b < 64 → x * 64 + a = y * 64 + b → x = y ∧ a = b.
Proof. lia. Qed.

Lemma point_3_inj a0 a1 a2 b0 b1 b2 :
  0xe0 <= a0 → 0xe0 <= b0 → 0x80 <= a1 <= 0xbf → 0x80 <= b1 <= 0xbf → 0x80 <= a2 <= 0xbf → 0x80 <= b2 <= 0xbf →
  (a0 - 0xe0) * 4096 + (a1 - 0x80) * 64 + (a2 - 0x80) = (b0 - 0xe0) * 4096 + (b1 - 0x80) * 64 + (b2 - 0x80) →
  a0 = b0 ∧ a1 = b1 ∧ a2 = b2.
Proof.
  intros. destruct (digits64_inj ((a0 - 0xe0) * 64 + (a1 - 0x80)) ((b0 - 0xe0) * 64 + (b1 - 0x80)) (a2 - 0x80) (b2 - 0x80))
    as [H' ?]; [lia..|]. apply digits64_inj in H'; lia.
Qed.

Lemma point_4_inj a0 a1 a2 a3 b0 b1 b2 b3 :
  0xf0 <= a0 → 0xf0 <= b0 → 0x80 <= a1 <= 0xbf → 0x80 <= b1 <= 0xbf → 0x80 <= a2 <= 0xbf → 0x80 <= b2 <= 0xbf →
  0x80 <= a3 <= 0xbf → 0x80 <= b3 <= 0xbf →
  (a0 - 0xf0) * 262144 + (a1 - 0x80) * 4096 + (a2 - 0x80) * 64 + (a3 - 0x80) =
  (b0 - 0xf0) * 262144 + (b1 - 0x80) * 4096 + (b2 - 0x80) * 64 + (b3 - 0x80) →
  a0 = b0 ∧ a1 = b1 ∧ a2 = b2 ∧ a3 = b3.
Proof.
  intros. destruct (digits64_inj ((a0 - 0xf0) * 4096 + (a1 - 0x80) * 64 + (a2 - 0x80))
    ((b0 - 0xf0) * 4096 + (b1 - 0x80) * 64 + (b2 - 0x80)) (a3 - 0x80) (b3 - 0x80)) as [H' ?]; [lia..|].
  destruct (digits64_inj ((a0 - 0xf0) * 64 + (a1 - 0x80)) ((b0 - 0xf0) * 64 + (b1 - 0x80)) (a2 - 0x80) (b2 - 0x80))
    as [H'' ?]; [lia..|]. apply digits64_inj in H''; lia.
Qed.

(** The units determine the text. *)
Lemma encode_utf16_inj a b :
  utf8_valid a = true → utf8_valid b = true → encode_utf16 a = encode_utf16 b → a = b.
Proof.
  remember (length a) as n eqn:En. revert a b En. induction n as [n IH] using lt_wf_ind. intros a b -> Ha Hb.
  assert (IH' : ∀ a' b', (length a' < length a)%nat → utf8_valid a' = true → utf8_valid b' = true →
    encode_utf16 a' = encode_utf16 b' → a' = b') by (intros; by eapply IH). clear IH.
  destruct (utf8_viewed a Ha) as [|a0 ra|a0 a1 ra|a0 a1 a2 ra|a0 a1 a2 a3 ra];
    destruct (utf8_viewed b Hb) as [|b0 rb|b0 b1 rb|b0 b1 b2 rb|b0 b1 b2 b3 rb];
    units; intros Hu; try discriminate Hu; try done; cbn [length] in IH'.
  all: injection Hu; clear Hu; intros; try (exfalso; lia).
  all: match goal with E : encode_utf16 ?x = encode_utf16 ?y |- _ => assert (x = y) as -> by (apply IH'; assumption || lia) end.
  - by subst.
  - destruct (digits64_inj (a0 - 0xc0) (b0 - 0xc0) (a1 - 0x80) (b1 - 0x80)); [lia..|].
    by replace b0 with a0 by lia; replace b1 with a1 by lia.
  - destruct (point_3_inj a0 a1 a2 b0 b1 b2) as (-> & -> & ->); [lia..|reflexivity].
  - destruct (point_4_inj a0 a1 a2 a3 b0 b1 b2 b3) as (-> & -> & -> & ->); [tauto..| |reflexivity].
    repeat match goal with H : _ ∧ _ |- _ => destruct H end. congruence.
Qed.

(** ** Escapes *)

Lemma encode_utf16_units bytes : utf8_valid bytes = true → Forall is_unit (encode_utf16 bytes).
Proof.
  remember (length bytes) as n eqn:En. revert bytes En. induction n as [n IH] using lt_wf_ind. intros bytes -> Hv.
  assert (IH' : ∀ r, (length r < length bytes)%nat → utf8_valid r = true → Forall is_unit (encode_utf16 r))
    by (intros; by eapply IH). clear IH.
  destruct (utf8_viewed bytes Hv) as [|b0 r|b0 b1 r|b0 b1 b2 r|b0 b1 b2 b3 r]; [exact (List.Forall_nil _)|..]; cbn [length] in IH'; units;
    repeat constructor; try (apply IH'; (assumption || lia)); unfold is_unit; lia.
Qed.

Lemma unescape_unit u r : is_unit u → unescape (escape_unit u ++ r) = Some (u, r).
Proof.
  intros Hu. unfold escape_unit.
  repeat match goal with
  | |- context [if (u =? ?c) then _ else _] => destruct (N.eqb_spec u c) as [->|?]; [reflexivity|]
  end.
  destruct (_ || _) eqn:E; [|by apply unescape_plain]. destruct (hex_digits u Hu) as [H1 H2]. cbn.
  rewrite !hex_value_byte by (done || by apply N.mod_lt). by rewrite <- H2.
Qed.

(** No escaped unit starts with the closing quote. *)
Lemma escape_unit_head u : is_unit u → ∃ b r, escape_unit u = b :: r ∧ b ≠ 34.
Proof.
  intros Hu. unfold escape_unit.
  repeat match goal with
  | |- context [if (u =? ?c) then _ else _] => destruct (N.eqb_spec u c) as [->|?]; [by do 2 eexists|]
  end.
  destruct (_ || _); by do 2 eexists.
Qed.

Lemma encode_text_inj a b r s :
  is_utf8 a → is_utf8 b → encode_text a ++ r = encode_text b ++ s → a = b ∧ r = s.
Proof.
  unfold is_utf8, encode_text. intros Ha Hb. rewrite <- !app_assoc. cbn [app]. intros [= E].
  apply (escaped_inj _ is_unit) in E as [E ->];
    [|by intros; apply unescape_unit|apply escape_unit_head|by apply encode_utf16_units..]. split; [|done].
  apply encode_utf16_inj in E; [|done..]. by rewrite <- (str_of_str_bytes a), <- (str_of_str_bytes b), E.
Qed.

(** ** Documents *)

Lemma encode_text_delimited : delimited encode_text.
Proof. split; [by eexists|]. intros. by apply encode_text_inj. Qed.

Lemma canonical_json_text v : canonical_v2_json v = json_text encode_text v.
Proof.
  induction v as [|b|t|t|items IH|fields IH] using value_ind_nested; try done; cbn; do 3 f_equal; apply map_ext_Forall;
    (eapply Forall_impl; [exact IH|]); cbn; congruence.
Qed.

Lemma canonical_inj v w : value_wf v → value_wf w → canonical_v2_json v = canonical_v2_json w → v = w.
Proof. rewrite !canonical_json_text. apply json_text_inj, encode_text_delimited. Qed.
