(* ===== verification/FeatureClaims.v ===== *)
(** * Properties of feature activation

    What an activation checked, what a closed lock gives every enabled feature,
    what an inspected lock says of effects, and that the canonical text of a lock
    determines it. The witnesses run the code on a small lock of each generation. *)

From Stdlib Require Import Sorting.Sorted.
From S2P Require Import Prelude RustStr UpdateAdmission UpdateFixture DepGraph FeatureLock FeatureTheorems JsonValue.
From S2P Require Import FeatureLockV2 FeatureV2Theorems.

Local Open Scope N_scope.

(** ** Two locks *)

Definition fl_receipt : WorkflowActivationReceipt :=
  mkActivationReceipt true "rusty.quest.neutral_adapter.receipt.v1" "rusty.quest.neutral_adapter.effective".

Definition fl_adapter : WorkflowFeature :=
  mkFeature "neutral-adapter" "neutral-adapter" true "conformance-profile:neutral-adapter"
    "morphospace/project.spec.json" ["neutral-base"] ["neutral-other"] [] [] [] [mkParameterAuthority "neutral.rate" "base"]
    fl_receipt.
Definition fl_base : WorkflowFeature :=
  mkFeature "neutral-base" "neutral-base" true "conformance-profile:neutral-base" "morphospace/base.json" [] [] [] [] [] []
    fl_receipt.
Definition fl_other : WorkflowFeature :=
  mkFeature "neutral-other" "neutral-other" false "" "" ["neutral-base"] [] [] [] [] [] fl_receipt.

Definition fl_lock : WorkflowFeatureLock :=
  mkLock None WORKFLOW_FEATURE_LOCK_SCHEMA_ID "neutral-project" 3 "disabled" [fl_adapter; fl_base; fl_other].

Definition fl_policy : LockBoundActivationPolicy :=
  mkPolicy "conformance-profile:neutral-adapter" "rusty.quest.neutral_adapter.receipt.v1"
    "rusty.quest.neutral_adapter.effective".

(** The toy digest is all zeros. *)
Definition fl_input : LockBoundActivationRuntimeInput :=
  mkRuntimeInput true "profile.neutral" "neutral-project" "neutral-adapter" 3 zeroed_fingerprint.

#[local] Instance fl_json : FeatureLockJson := {| lock_from_str := fun _ => Some fl_lock |}.

Definition no_effects : V2Effects := mkV2Effects [] [] [] [] [] [] [] [] [] [] [] [] [] [].

Definition v2_adapter_effects : V2Effects :=
  mkV2Effects ["camera"] [] [] [] [] [] [] [] [] [] [] ["input.adapter"] [] ["marker.adapter"].
Definition v2_base_effects : V2Effects :=
  mkV2Effects ["network"] [] [] [] [] [] [] [] [] [] [] ["input.base"] [] ["marker.base"].

Definition v2_descriptor : V2Descriptor :=
  mkV2Descriptor "morphospace/spec.json" zeroed_fingerprint "rusty-quest" "0000000000000000000000000000000000000000"
    "crates/spec.json" zeroed_fingerprint.

Definition v2_adapter : V2Feature :=
  mkV2Feature "adapter" "adapter-module" "1.0.0" "lane-a" true "disabled" v2_descriptor ["base"] [] (Some "group-a")
    v2_adapter_effects [] (mkV2Activation "selected-lock-and-runtime-input" ["input.adapter"] "receipt.v1" "marker.adapter")
    "profile-a" "rollback-a".
Definition v2_base : V2Feature :=
  mkV2Feature "base" "base-module" "1.0.0" "lane-a" true "disabled" v2_descriptor [] ["denied-one"] None
    v2_base_effects [] (mkV2Activation "selected-lock-and-runtime-input" ["input.base"] "receipt.v1" "marker.base")
    "profile-a" "rollback-a".

Definition v2_lock : V2Lock :=
  mkV2Lock V2_SCHEMA_URI "rusty.morphospace.workflow.feature_lock.v2" "neutral-project" 1 4 "2026-02-28T23:59:59.5+02:00"
    "rusty-morphospace-feature-resolver/2" zeroed_fingerprint "disabled" "selected-lock-and-runtime-input"
    ["adapter"; "base"] ["denied-one"] [v2_adapter; v2_base]
    (mkV2Effects ["camera"; "network"] [] [] [] [] [] [] [] [] [] [] ["input.adapter"; "input.base"] []
       ["marker.adapter"; "marker.base"]).

#[local] Instance v2_json : FeatureLockV2Json := {|
  v2_from_str := fun _ => Some v2_lock;
  v2_to_value := fun lock => Some (VObject [("project_id"%string, VString (vl_project_id lock))]);
  v2_to_string := fun lock => Some (vl_project_id lock);
|}.

Example fl_applied :
  marker_fields (resolve_lock_bound_activation "{}" zeroed_fingerprint "neutral-project" "neutral-adapter" "neutral-adapter"
    "profile.neutral" fl_policy fl_input) =
  ("lockBindingSchema=rusty.quest.lock_bound_activation.v1 activationState=applied projectId=neutral-project " ++
   "featureId=neutral-adapter conformanceLockRevision=3 conformanceLockSha256=" ++ zeroed_fingerprint ++
   " runtimeProfileId=profile.neutral activationRejectReason=none")%string.
Proof. vm_compute. reflexivity. Qed.

Example v2_leap_day :
  (valid_v2_timestamp "2024-02-29T00:00:00Z", valid_v2_timestamp "2023-02-29T00:00:00Z",
   valid_v2_timestamp "2100-02-29T00:00:00Z", valid_v2_timestamp "2000-02-29T00:00:00Z",
   valid_v2_timestamp "2024-02-29T00:00:00.Z", valid_v2_timestamp "2024-02-29T00:00:00.25-24:00") =
  (true, false, false, true, false, false).
Proof. vm_compute. reflexivity. Qed.

Example v2_canonical :
  str_of_bytes (canonical_v2_json (VObject [("a"%string, VArray [VNull; VBool true; VNumber "12"]);
    ("b"%string, VString (str_of_bytes [97; 9; 195; 169; 240; 159; 152; 128]))])) =
  str_of_bytes (str_bytes "{" ++ [34; 97; 34; 58] ++ str_bytes "[null,true,12]," ++ [34; 98; 34; 58; 34] ++
    str_bytes "a\t\u00e9\ud83d\ude00" ++ [34] ++ str_bytes "}").
Proof. vm_compute. reflexivity. Qed.

(** ** Activation *)

Section Activation.
Context {RC : ReleaseCrypto} {FJ : FeatureLockJson}.

(** C29: an activation is applied exactly when the expectations are well-formed
    and the lock parses, is closed, and agrees with the policy of the module and
    with the runtime input on project, feature, module, requester, receipt,
    revision, profile and digest. *)
Theorem activation_applied_iff lock_json accepted_lock_sha256 expected_project_id expected_feature_id
    expected_module_id accepted_profile_id policy runtime_input :
  is_applied (resolve_lock_bound_activation lock_json accepted_lock_sha256 expected_project_id expected_feature_id
    expected_module_id accepted_profile_id policy runtime_input) = true ↔
  expectation_invalid lock_json accepted_lock_sha256 expected_project_id expected_feature_id expected_module_id
    accepted_profile_id policy = false ∧
  ∃ lock f, lock_from_str lock_json = Some lock ∧
    activation_agrees accepted_lock_sha256 expected_project_id expected_feature_id expected_module_id
      accepted_profile_id policy runtime_input (sha256_hex (str_bytes lock_json)) lock f.
Proof. apply resolve_applied_iff. Qed.

(** When a feature is activated, everything it needs, directly or through
    other modules, is a feature of the lock and enabled, it is not needed by
    what it needs, and no enabled feature of the lock lists an enabled one as a
    conflict. *)
Theorem activated_feature_is_closed lock_json accepted_lock_sha256 expected_project_id expected_feature_id
    expected_module_id accepted_profile_id policy runtime_input :
  is_applied (resolve_lock_bound_activation lock_json accepted_lock_sha256 expected_project_id expected_feature_id
    expected_module_id accepted_profile_id policy runtime_input) = true →
  ∃ lock, lock_from_str lock_json = Some lock ∧
    let fs := wl_features lock in
    (∃ f, f ∈ fs ∧ wf_feature_id f = expected_feature_id ∧ wf_module_id f = expected_module_id ∧ wf_enabled f = true) ∧
    (∀ m, tc (needs wf_module_id wf_dependencies fs) expected_module_id m →
       m ≠ expected_module_id ∧ ∃ g, g ∈ fs ∧ wf_module_id g = m ∧ wf_enabled g = true) ∧
    ∀ a b, a ∈ fs → b ∈ fs → wf_enabled a = true → wf_enabled b = true → wf_feature_id b ∉ wf_conflicts a.
Proof.
  intros (_ & lock & f & E & Ha)%resolve_applied_iff. exists lock. split; [done|].
  pose proof (ag_closed _ _ _ _ _ _ _ _ _ _ Ha) as Hc. destruct Ha. subst. split; [by exists f|]. split.
  - intros m Ht. split; [|by apply (needs_enabled lock f)]. intros ->. by eapply (proj2 (lc_needs _ Hc)).
  - intros a b Hina Hinb Ea Eb Hin. pose proof (lc_conflicts _ Hc a b Hina Hinb Hin Ea). congruence.
Qed.
End Activation.

Lemma activated_feature_is_closed_witness :
  ∃ lock, lock_from_str (FeatureLockJson := fl_json) "{}" = Some lock ∧
    ∃ g, g ∈ wl_features lock ∧ wf_module_id g = "neutral-base"%string ∧ wf_enabled g = true.
Proof.
  destruct (activated_feature_is_closed (RC := fx_crypto) (FJ := fl_json) "{}" zeroed_fingerprint "neutral-project"
    "neutral-adapter" "neutral-adapter" "profile.neutral" fl_policy fl_input) as (lock & E & _ & Hn & _).
  { vm_compute. reflexivity. }
  exists lock. split; [exact E|]. injection E as <-. apply Hn, tc_once. exists fl_adapter.
  split; [left|]. split; [reflexivity|left].
Defined.

(** C32: the depth-first search over named dependencies always answers, with
    one unit of recursion more than there are features, and accepts exactly the
    lists in which every name resolves and no feature needs itself. *)
Theorem dependency_search_decides {F} (key : F → string) (dependencies : F → list string) (features : list F) :
  NoDup (key <$> features) →
  ∃ b, visit_all (dependency_targets dependencies features (index_positions key 0 features ∅)) (length features) = Some b ∧
    (b = true ↔ well_founded_needs key dependencies features).
Proof.
  intros Hnd%index_positions_indexes. destruct (visit_all_spec _ _ (indexes_bounded key dependencies _ _ Hnd)) as (b & E & _).
  exists b. split; [done|]. rewrite <- (visit_all_needs key dependencies _ _ Hnd), E. split; congruence.
Qed.

Lemma dependency_search_decides_witness :
  NoDup (wf_module_id <$> wl_features fl_lock) ∧ well_founded_needs wf_module_id wf_dependencies (wl_features fl_lock).
Proof.
  assert (Hnd : NoDup (wf_module_id <$> wl_features fl_lock)) by (apply (bool_decide_eq_true_1 _); vm_compute; reflexivity).
  split; [exact Hnd|]. destruct (dependency_search_decides wf_module_id wf_dependencies (wl_features fl_lock) Hnd) as (b & E & H).
  apply H. assert (Some b = Some true) as E' by (rewrite <- E; vm_compute; reflexivity). injection E'. auto.
Defined.

(** ** Inspection *)

Section Inspection.
Context {RC : ReleaseCrypto} {VJ : FeatureLockV2Json}.

(** C30: an inspection gives facts exactly when the raw bytes have the accepted
    digest, the lock parses with a valid header, its fingerprint is that of one
    of the two texts of the lock with the fingerprint zeroed, its closure holds
    and the feature is selected; the facts are those of that feature. *)
Theorem inspection_ok_iff lock_json accepted_raw_sha256 selected_feature_id i :
  inspect_feature_lock_v2 lock_json accepted_raw_sha256 selected_feature_id = Ok i ↔
  str_len lock_json <= MAX_LOCK_BYTES ∧ valid_sha256 accepted_raw_sha256 = true ∧
  valid_v2_id selected_feature_id = true ∧ accepted_raw_sha256 = sha256_hex (str_bytes lock_json) ∧
  ∃ lock f value ordered,
    v2_from_str lock_json = Some lock ∧ v2_header_invalid lock = false ∧
    v2_to_value (zeroed lock) = Some value ∧ v2_to_string (zeroed lock) = Some ordered ∧
    (vl_lock_fingerprint lock = sha256_hex (canonical_v2_json value) ∨
     vl_lock_fingerprint lock = sha256_hex (str_bytes ordered)) ∧
    v2_closed lock ∧ f ∈ vl_features lock ∧ vf_feature_id f = selected_feature_id ∧
    i = inspected accepted_raw_sha256 lock f.
Proof. apply inspect_ok_iff. Qed.

(** What an inspection says of effects: every effect of the selected feature
    is in the union, the union has an effect exactly when a feature of the lock
    has it, and the marker and the inputs of the feature are among its effects. *)
Theorem inspected_effects lock_json accepted_raw_sha256 selected_feature_id i :
  inspect_feature_lock_v2 lock_json accepted_raw_sha256 selected_feature_id = Ok i →
  (∀ family value, selected_has_effect i family value = true → union_has_effect i family value = true) ∧
  (∃ lock, v2_from_str lock_json = Some lock ∧ ∀ family value, union_has_effect i family value = true ↔
     ∃ f, f ∈ vl_features lock ∧ value ∈ members (vf_effects f) family) ∧
  selected_has_effect i Marker (if_effective_marker i) = true ∧
  if_runtime_inputs i ≠ [] ∧ ∀ input, input ∈ if_runtime_inputs i → selected_has_effect i Input input = true.
Proof.
  intros (_ & _ & _ & _ & lock & f & _ & _ & El & _ & _ & _ & _ & Hc & Hin & _ & ->)%inspect_ok_iff.
  pose proof (vc_features _ Hc f Hin) as Hw. unfold selected_has_effect, union_has_effect. cbn.
  setoid_rewrite contains_text_iff. split_and!.
  - intros family value Hv. apply (vc_union _ Hc). by exists f.
  - exists lock. split; [done|]. apply Hc.
  - apply Hw.
  - apply Hw.
  - apply Hw.
Qed.
End Inspection.

Lemma inspected_effects_witness :
  ∃ i, inspect_feature_lock_v2 (RC := fx_crypto) (VJ := v2_json) "{}" zeroed_fingerprint "adapter" = Ok i ∧
    union_has_effect i Permission "camera" = true ∧ selected_has_effect i Permission "network" = false ∧
    selected_has_effect i Input "input.adapter" = true.
Proof.
  eexists. split; [vm_compute; reflexivity|].
  destruct (inspected_effects (RC := fx_crypto) (VJ := v2_json) "{}" zeroed_fingerprint "adapter"
    (inspected zeroed_fingerprint v2_lock v2_adapter)) as (Hu & _ & _ & _ & Hi); [vm_compute; reflexivity|].
  split; [apply Hu; vm_compute; reflexivity|]. split; [vm_compute; reflexivity|]. apply Hi. left.
Defined.

(** C31: the canonical text determines the document: texts of Unicode, numbers
    in decimal, and objects and arrays of these that have one canonical text are
    equal. *)
Theorem canonical_text_determines v w :
  value_wf v → value_wf w → canonical_v2_json v = canonical_v2_json w → v = w.
Proof. apply canonical_inj. Qed.

Lemma canonical_text_determines_witness :
  VString (str_of_bytes [195; 169]) = VString (str_of_bytes [195; 169]) ∧
  canonical_v2_json (VString (str_of_bytes [195; 169])) ≠ canonical_v2_json (VString (str_of_bytes [195; 168])).
Proof.
  assert (Hw : ∀ b, b = 168 ∨ b = 169 → value_wf (VString (str_of_bytes [195; b]))).
  { intros b [->| ->]; constructor; vm_compute; reflexivity. }
  split.
  - apply canonical_text_determines; [apply Hw; right; reflexivity..|reflexivity].
  - intros E. apply canonical_text_determines in E; [|apply Hw; right; reflexivity|apply Hw; left; reflexivity].
    discriminate E.
Defined.
