(* ===== verification/BleRendezvous.v ===== *)
(** * BLE rendezvous

    crates/rusty-quest-device-link/src/ble_rendezvous.rs: the compact message two
    Quest peers exchange over GATT, the input its authentication tag is computed
    over, and the receipts of one sidecar and of a pair of devices. *)

From Stdlib Require Import ZArith.
From S2P Require Import Prelude RustStr MediaModel P2pRoute.

Local Open Scope string_scope.
Local Open Scope N_scope.

Local Notation "l +++ k" := (app l k) (at level 60, right associativity).

Definition BLE_RENDEZVOUS_MESSAGE_MAGIC : string := "rqrv".
Definition BLE_RENDEZVOUS_MESSAGE_VERSION : N := 1.
Definition BLE_RENDEZVOUS_MAX_WIRE_BYTES : N := 220.
Definition BLE_RENDEZVOUS_RECEIPT_SCHEMA : string := "rusty.quest.ble_rendezvous_sidecar_receipt.v1".
Definition BLE_RENDEZVOUS_PAIR_SCHEMA : string := "rusty.quest.peer_rendezvous_android_pair.v1".

Definition BLE_CAPABILITY_GATT : N := N.shiftl 1 0.
Definition BLE_CAPABILITY_WIFI_DIRECT : N := N.shiftl 1 1.
Definition BLE_CAPABILITY_RUSTY_DIRECT_P2P : N := N.shiftl 1 2.
Definition BLE_CAPABILITY_MANIFOLD_BROKER : N := N.shiftl 1 3.
Definition BLE_KNOWN_CAPABILITIES : N :=
  N.lor (N.lor (N.lor BLE_CAPABILITY_GATT BLE_CAPABILITY_WIFI_DIRECT) BLE_CAPABILITY_RUSTY_DIRECT_P2P)
    BLE_CAPABILITY_MANIFOLD_BROKER.

(** ** Messages *)

Inductive BleRendezvousMessageKind := KOffer | KProposal | KAccept | KStatus | KClose.
Inductive BleRendezvousRolePreference := RGroupOwner | RClient | REither.
Inductive BleRendezvousWifiState := WIdle | WDiscovering | WGrouped | WReady | WFailed.

Definition kind_token (k : BleRendezvousMessageKind) : string :=
  match k with
  | KOffer => "offer" | KProposal => "proposal" | KAccept => "accept" | KStatus => "status" | KClose => "close"
  end.
Definition role_preference_token (r : BleRendezvousRolePreference) : string :=
  match r with RGroupOwner => "group_owner" | RClient => "client" | REither => "either" end.
Definition wifi_state_token (w : BleRendezvousWifiState) : string :=
  match w with
  | WIdle => "idle" | WDiscovering => "discovering" | WGrouped => "grouped" | WReady => "ready" | WFailed => "failed"
  end.

Record BleRendezvousMessage := mkBleMessage {
  bm_magic : string;
  bm_version : N;
  bm_kind : BleRendezvousMessageKind;
  bm_session_tag : string;
  bm_peer_tag : string;
  bm_epoch : N;
  bm_sequence : N;
  bm_role_preference : BleRendezvousRolePreference;
  bm_capabilities : N;
  bm_wifi_state : BleRendezvousWifiState;
  bm_p2p_ipv4 : option Ipv4Addr;
  bm_broker_port : option N;
  bm_ttl_ms : N;
  bm_nonce : string;
  bm_auth_tag : string;
}.

(** [(min..=max).contains(&value.len())] and the bytes of a token. *)
Definition is_safe_tag (value : string) (min max : N) : bool :=
  (min <=? str_len value) && (str_len value <=? max) &&
  all_bytes (fun b => is_ascii_alphanumeric b || (b =? 46) || (b =? 95) || (b =? 45)) value.

Definition is_hex_token (value : string) (min max : N) : bool :=
  (min <=? str_len value) && (str_len value <=? max) && all_bytes is_ascii_hexdigit value.

Definition validate_ephemeral_tag (label value : string) : list ValidationError :=
  push_if (negb (is_safe_tag value 4 32))
    ("BLE rendezvous " ++ label ++ " must be a 4..=32 character ephemeral safe token").

Definition has_capability (capabilities bits : N) : bool := negb (N.land capabilities bits =? 0).

Definition is_some {A} (o : option A) : bool := match o with Some _ => true | None => false end.

Definition validate_wifi_hint (message : BleRendezvousMessage) : list ValidationError :=
  match bm_p2p_ipv4 message with
  | Some address =>
      push_if (negb (is_supported_direct_p2p_ipv4 address)) "BLE rendezvous p2p_ipv4 must be a supported P2P address"
  | None => []
  end +++
  push_if (bool_decide (bm_broker_port message = Some 0)) "BLE rendezvous broker_port must be nonzero" +++
  match bm_wifi_state message with
  | WIdle | WDiscovering | WFailed =>
      push_if (is_some (bm_p2p_ipv4 message) || is_some (bm_broker_port message))
        "non-grouped BLE rendezvous state must not publish endpoint hints"
  | WGrouped =>
      push_if (negb (is_some (bm_p2p_ipv4 message)) || is_some (bm_broker_port message))
        "grouped BLE rendezvous state requires only p2p_ipv4"
  | WReady =>
      let required := N.lor (N.lor BLE_CAPABILITY_WIFI_DIRECT BLE_CAPABILITY_RUSTY_DIRECT_P2P)
                        BLE_CAPABILITY_MANIFOLD_BROKER in
      push_if (negb (is_some (bm_p2p_ipv4 message)) || negb (is_some (bm_broker_port message)) ||
               negb (N.land (bm_capabilities message) required =? required))
        "ready BLE rendezvous state requires P2P address, broker port, and direct-P2P capabilities"
  end.

(** [serde_json::to_vec] on a message. *)
Class BleMessageJson := { ble_to_vec : BleRendezvousMessage → result string (list N) }.

Section Messages.
Context {BJ : BleMessageJson}.

Definition wire_size_errors (message : BleRendezvousMessage) : list ValidationError :=
  match ble_to_vec message with
  | Ok bytes =>
      push_if (BLE_RENDEZVOUS_MAX_WIRE_BYTES <? len bytes)
        ("BLE rendezvous message is " ++ fmt_decimal (len bytes) ++ " bytes, above " ++
         fmt_decimal BLE_RENDEZVOUS_MAX_WIRE_BYTES)
  | Err error => ["BLE rendezvous message serialization failed: " ++ error]
  end.

Definition ble_message_errors (message : BleRendezvousMessage) : list ValidationError :=
  push_if (negb (bm_magic message =? BLE_RENDEZVOUS_MESSAGE_MAGIC)%string) "BLE rendezvous message magic must be rqrv" +++
  push_if (negb (bm_version message =? BLE_RENDEZVOUS_MESSAGE_VERSION))
    "BLE rendezvous message version is unsupported" +++
  validate_ephemeral_tag "session_tag" (bm_session_tag message) +++
  validate_ephemeral_tag "peer_tag" (bm_peer_tag message) +++
  push_if (bm_epoch message =? 0) "BLE rendezvous epoch must be nonzero" +++
  push_if (bm_sequence message =? 0) "BLE rendezvous sequence must be nonzero" +++
  push_if (negb ((1000 <=? bm_ttl_ms message) && (bm_ttl_ms message <=? 120000)))
    "BLE rendezvous ttl_ms must be 1000..=120000" +++
  push_if (negb (has_capability (bm_capabilities message) BLE_CAPABILITY_GATT))
    "BLE rendezvous message must declare the GATT capability" +++
  push_if (negb (N.ldiff (bm_capabilities message) BLE_KNOWN_CAPABILITIES =? 0))
    "BLE rendezvous message contains unknown capability bits" +++
  push_if (has_capability (bm_capabilities message) BLE_CAPABILITY_RUSTY_DIRECT_P2P &&
           negb (has_capability (bm_capabilities message) BLE_CAPABILITY_WIFI_DIRECT))
    "Rusty direct-P2P capability requires Wi-Fi Direct capability" +++
  validate_wifi_hint message +++
  push_if (negb (is_hex_token (bm_nonce message) 16 32)) "BLE rendezvous nonce must be 16..=32 hexadecimal characters" +++
  push_if (negb (is_hex_token (bm_auth_tag message) 16 16)) "BLE rendezvous auth_tag must be 16 hexadecimal characters" +++
  wire_size_errors message.

Definition validate_ble_rendezvous_message (message : BleRendezvousMessage) : result (list ValidationError) unit :=
  match ble_message_errors message with [] => Ok tt | errors => Err errors end.
End Messages.

(** [Ipv4Addr]'s [Display]. *)
Definition fmt_ipv4 (a : Ipv4Addr) : string :=
  fmt_decimal (oct0 a) ++ "." ++ fmt_decimal (oct1 a) ++ "." ++ fmt_decimal (oct2 a) ++ "." ++ fmt_decimal (oct3 a).

Definition ble_rendezvous_signing_input (message : BleRendezvousMessage) : string :=
  "RQRV1|" ++ kind_token (bm_kind message) ++ "|" ++ bm_session_tag message ++ "|" ++ bm_peer_tag message ++ "|" ++
  fmt_decimal (bm_epoch message) ++ "|" ++ fmt_decimal (bm_sequence message) ++ "|" ++
  role_preference_token (bm_role_preference message) ++ "|" ++ fmt_decimal (bm_capabilities message) ++ "|" ++
  wifi_state_token (bm_wifi_state message) ++ "|" ++
  match bm_p2p_ipv4 message with None => "-" | Some address => fmt_ipv4 address end ++ "|" ++
  fmt_decimal (default 0 (bm_broker_port message)) ++ "|" ++ fmt_decimal (bm_ttl_ms message) ++ "|" ++ bm_nonce message.

(** ** Receipts of one sidecar *)

Inductive BleRendezvousSidecarRole := SServer | SClient.
Inductive BleRendezvousReceiptStatus := SReady | SPass | SBlocked | SFail.

#[global] Instance ble_role_eq_dec : EqDecision BleRendezvousSidecarRole.
Proof. solve_decision. Defined.
#[global] Instance ble_status_eq_dec : EqDecision BleRendezvousReceiptStatus.
Proof. solve_decision. Defined.

Record BleRendezvousSidecarReceipt := mkSidecarReceipt {
  br_schema : string;
  br_run_id : string;
  br_session_tag : string;
  br_peer_tag : string;
  br_role : BleRendezvousSidecarRole;
  br_status : BleRendezvousReceiptStatus;
  br_explicit_opt_in : bool;
  br_adapter_available : bool;
  br_bluetooth_enabled : bool;
  br_permissions_granted : bool;
  br_protocol_self_test_passed : bool;
  br_advertising_started : bool;
  br_advertising_stopped : bool;
  br_scan_started : bool;
  br_scan_stopped : bool;
  br_gatt_opened : bool;
  br_gatt_closed : bool;
  br_connected : bool;
  br_disconnected : bool;
  br_messages_sent : N;
  br_messages_received : N;
  br_authenticated_messages : N;
  br_authentication_failures : N;
  br_reconnects_completed : N;
  br_post_reconnect_message_authenticated : bool;
  br_raw_bluetooth_addresses_redacted : bool;
  br_media_payload_bytes : N;
  br_wifi_direct_mutations_executed : N;
  br_manifold_commands_executed : N;
  br_cleanup_complete : bool;
  br_issue_codes : list string;
}.

Definition status_is (status : BleRendezvousReceiptStatus) (s : BleRendezvousReceiptStatus) : bool :=
  bool_decide (status = s).

(** Ready and passing receipts show the resources of their role. *)
Definition ready_errors (r : BleRendezvousSidecarReceipt) : list ValidationError :=
  if status_is (br_status r) SReady || status_is (br_status r) SPass then
    push_if (negb (br_adapter_available r) || negb (br_bluetooth_enabled r) || negb (br_permissions_granted r) ||
             negb (br_protocol_self_test_passed r) || negb (br_gatt_opened r))
      "ready/pass BLE receipt requires adapter, Bluetooth, permissions, protocol self-test, and GATT" +++
    match br_role r with
    | SServer => push_if (negb (br_advertising_started r)) "ready/pass BLE server receipt requires advertising"
    | SClient => push_if (negb (br_scan_started r)) "ready/pass BLE client receipt requires scanning"
    end
  else [].

Definition sidecar_receipt_errors (r : BleRendezvousSidecarReceipt) : list ValidationError :=
  push_if (negb (br_schema r =? BLE_RENDEZVOUS_RECEIPT_SCHEMA)%string) "BLE rendezvous receipt schema is unsupported" +++
  validate_ephemeral_tag "run_id" (br_run_id r) +++
  validate_ephemeral_tag "session_tag" (br_session_tag r) +++
  validate_ephemeral_tag "peer_tag" (br_peer_tag r) +++
  push_if (negb (br_explicit_opt_in r)) "BLE rendezvous sidecar must be explicit opt-in" +++
  push_if (negb (br_raw_bluetooth_addresses_redacted r)) "BLE rendezvous receipt must redact raw Bluetooth addresses" +++
  push_if (negb (br_media_payload_bytes r =? 0)) "BLE rendezvous sidecar must not carry media payload bytes" +++
  push_if (negb (br_wifi_direct_mutations_executed r =? 0))
    "BLE rendezvous sidecar must not execute Wi-Fi Direct mutations" +++
  push_if (negb (br_manifold_commands_executed r =? 0)) "BLE rendezvous sidecar must not execute Manifold commands" +++
  push_if (negb (br_cleanup_complete r)) "BLE rendezvous terminal receipt requires cleanup_complete" +++
  push_if (br_advertising_started r && negb (br_advertising_stopped r))
    "started BLE advertising must be stopped before receipt emission" +++
  push_if (br_scan_started r && negb (br_scan_stopped r))
    "started BLE scanning must be stopped before receipt emission" +++
  push_if (br_gatt_opened r && negb (br_gatt_closed r))
    "opened GATT resources must be closed before receipt emission" +++
  push_if (br_connected r && negb (br_disconnected r))
    "connected BLE peers must be disconnected before receipt emission" +++
  push_if ((0 <? br_reconnects_completed r) && negb (br_post_reconnect_message_authenticated r))
    "completed BLE reconnect requires an authenticated post-reconnect message" +++
  flat_map (fun code => push_if (negb (is_safe_tag code 1 96)) "BLE rendezvous issue codes must be bounded safe tokens")
    (br_issue_codes r) +++
  ready_errors r +++
  push_if (status_is (br_status r) SPass &&
           (negb (br_connected r) || (br_messages_sent r =? 0) || (br_messages_received r =? 0) ||
            (br_authenticated_messages r =? 0) || negb (br_authentication_failures r =? 0) ||
            (br_reconnects_completed r =? 0) || negb (br_post_reconnect_message_authenticated r)))
    "pass BLE receipt requires a clean authenticated bidirectional exchange and reconnect".

Definition validate_ble_rendezvous_sidecar_receipt (r : BleRendezvousSidecarReceipt)
    : result (list ValidationError) unit :=
  match sidecar_receipt_errors r with [] => Ok tt | errors => Err errors end.

(** ** Receipts of a pair *)

Record BleRendezvousPairPhase := mkPairPhase {
  pp_name : string;
  pp_status : BleRendezvousReceiptStatus;
  pp_session_tag : string;
  pp_server_serial : string;
  pp_client_serial : string;
  pp_server_receipt : BleRendezvousSidecarReceipt;
  pp_client_receipt : BleRendezvousSidecarReceipt;
}.

Record BleRendezvousPairDeviceState := mkPairDeviceState {
  pds_serial : string;
  pds_bluetooth_on : string;
  pds_p2p0_ipv4 : string;
}.

Record BleRendezvousPairDeviceCleanup := mkPairDeviceCleanup {
  pdc_serial : string;
  pdc_force_stop_exit_code : Z;
  pdc_package_pid_absent : bool;
}.

Record BleRendezvousPairCleanup := mkPairCleanup {
  pc_devices : list BleRendezvousPairDeviceCleanup;
  pc_package_processes_absent : bool;
  pc_bluetooth_and_p2p0_state_stable : bool;
  pc_app_fatal_count : N;
  pc_complete : bool;
}.

Inductive BleRendezvousCoordinationMode := AgentBoardLeased | UserAuthorizedSerialScoped.

Record BleRendezvousPairReceipt := mkPairReceipt {
  pr_schema : string;
  pr_run_id : string;
  pr_status : BleRendezvousReceiptStatus;
  pr_primary_serial : string;
  pr_secondary_serial : string;
  pr_coordination_mode : BleRendezvousCoordinationMode;
  pr_primary_quest_lease_id : option string;
  pr_secondary_quest_lease_id : option string;
  pr_dry_run : bool;
  pr_role_swap_required : bool;
  pr_role_swap_completed : bool;
  pr_reconnect_required_each_phase : bool;
  pr_authenticated_phase_count : N;
  pr_shared_secret_recorded : bool;
  pr_raw_bluetooth_addresses_redacted : bool;
  pr_media_payload_bytes : N;
  pr_wifi_direct_mutations_executed : N;
  pr_manifold_commands_executed : N;
  pr_phases : list BleRendezvousPairPhase;
  pr_device_state_before : list BleRendezvousPairDeviceState;
  pr_device_state_after : list BleRendezvousPairDeviceState;
  pr_cleanup : BleRendezvousPairCleanup;
  pr_raw_bluetooth_address_pattern_found : bool;
  pr_shared_secret_pattern_found : bool;
}.

Definition lease_errors (pair : BleRendezvousPairReceipt) : list ValidationError :=
  match pr_coordination_mode pair with
  | AgentBoardLeased =>
      let primary := default "" (pr_primary_quest_lease_id pair) in
      let secondary := default "" (pr_secondary_quest_lease_id pair) in
      push_if (str_is_empty primary || str_is_empty secondary || (primary =? secondary)%string)
        "Agent Board coordinated BLE rendezvous requires two distinct Quest lease ids"
  | UserAuthorizedSerialScoped =>
      push_if (is_some (pr_primary_quest_lease_id pair) || is_some (pr_secondary_quest_lease_id pair))
        "user-authorized serial-scoped BLE rendezvous must not claim Agent Board leases"
  end.

(** One of the two receipts of a phase. *)
Definition phase_receipt_errors (phase : BleRendezvousPairPhase) (label : string) (r : BleRendezvousSidecarReceipt)
    (expected_role : BleRendezvousSidecarRole) : list ValidationError :=
  match validate_ble_rendezvous_sidecar_receipt r with
  | Err errors => (fun e => "BLE rendezvous phase " ++ pp_name phase ++ " " ++ label ++ ": " ++ e) <$> errors
  | Ok _ => []
  end +++
  push_if (bool_decide (br_role r ≠ expected_role) || negb (status_is (br_status r) SPass) ||
           negb (br_session_tag r =? pp_session_tag phase)%string || negb (bool_decide (br_issue_codes r = [])))
    ("BLE rendezvous phase " ++ pp_name phase ++ " " ++ label ++ " receipt correlation failed").

Definition phase_errors (phase : BleRendezvousPairPhase) : list ValidationError :=
  validate_ephemeral_tag "pair session_tag" (pp_session_tag phase) +++
  push_if (negb (status_is (pp_status phase) SPass) || (pp_server_serial phase =? pp_client_serial phase)%string)
    ("BLE rendezvous phase " ++ pp_name phase ++ " status or device correlation failed") +++
  phase_receipt_errors phase "server" (pp_server_receipt phase) SServer +++
  phase_receipt_errors phase "client" (pp_client_receipt phase) SClient +++
  push_if (br_peer_tag (pp_server_receipt phase) =? br_peer_tag (pp_client_receipt phase))%string
    ("BLE rendezvous phase " ++ pp_name phase ++ " peer tags must be distinct").

(** The phase had [server] as GATT server and [client] as client. *)
Definition layout (server client : string) (phase : BleRendezvousPairPhase) : bool :=
  (pp_server_serial phase =? server)%string && (pp_client_serial phase =? client)%string.

(** Two rows, one for each of the declared devices. *)
Definition rows_correlate {A} (serial : A → string) (expected : list string) (rows : list A) : bool :=
  (len rows =? 2) &&
  forallb (fun s => (length (filter (fun row => serial row = s) rows) =? 1)%nat) expected &&
  forallb (fun row => existsb (fun s => s =? serial row)%string expected) rows.

(** Bluetooth was on and nothing changed. *)
Definition state_errors (after : list BleRendezvousPairDeviceState) (before : BleRendezvousPairDeviceState)
    : list ValidationError :=
  let state_changed :=
    match List.find (fun c => pds_serial c =? pds_serial before)%string after with
    | Some a => negb (pds_bluetooth_on a =? pds_bluetooth_on before)%string ||
                negb (pds_p2p0_ipv4 a =? pds_p2p0_ipv4 before)%string
    | None => true
    end in
  push_if (negb (pds_bluetooth_on before =? "1")%string || state_changed)
    ("BLE rendezvous boundary state changed for " ++ pds_serial before).

Definition boundary_errors (pair : BleRendezvousPairReceipt) : list ValidationError :=
  let expected := [pr_primary_serial pair; pr_secondary_serial pair] in
  if negb (rows_correlate pds_serial expected (pr_device_state_before pair)) ||
     negb (rows_correlate pds_serial expected (pr_device_state_after pair))
  then ["BLE rendezvous pair requires one before/after state row for each declared device"]
  else flat_map (state_errors (pr_device_state_after pair)) (pr_device_state_before pair).

Definition cleanup_failed (pair : BleRendezvousPairReceipt) : bool :=
  let expected := [pr_primary_serial pair; pr_secondary_serial pair] in
  let c := pr_cleanup pair in
  negb (pc_complete c) || negb (pc_package_processes_absent c) || negb (pc_bluetooth_and_p2p0_state_stable c) ||
  negb (pc_app_fatal_count c =? 0) || negb (rows_correlate pdc_serial expected (pc_devices c)) ||
  existsb (fun d => negb (pdc_force_stop_exit_code d =? 0)%Z || negb (pdc_package_pid_absent d)) (pc_devices c).

(** [phases.len() == 2 && phases[0].session_tag == phases[1].session_tag]. *)
Definition sessions_repeat (phases : list BleRendezvousPairPhase) : bool :=
  match phases with [a; b] => (pp_session_tag a =? pp_session_tag b)%string | _ => false end.

Definition pair_receipt_errors (pair : BleRendezvousPairReceipt) : list ValidationError :=
  push_if (negb (pr_schema pair =? BLE_RENDEZVOUS_PAIR_SCHEMA)%string) "BLE rendezvous pair schema is unsupported" +++
  validate_ephemeral_tag "pair run_id" (pr_run_id pair) +++
  push_if (negb (status_is (pr_status pair) SPass) || pr_dry_run pair)
    "BLE rendezvous pair acceptance requires a live pass status" +++
  push_if (str_is_empty (pr_primary_serial pair) || str_is_empty (pr_secondary_serial pair) ||
           (pr_primary_serial pair =? pr_secondary_serial pair)%string)
    "BLE rendezvous pair requires two distinct devices" +++
  lease_errors pair +++
  push_if (negb (pr_role_swap_required pair) || negb (pr_role_swap_completed pair) ||
           negb (pr_reconnect_required_each_phase pair) || negb (pr_authenticated_phase_count pair =? 2) ||
           negb (len (pr_phases pair) =? 2))
    "BLE rendezvous pair requires two authenticated reconnect phases with role swap" +++
  push_if (pr_shared_secret_recorded pair || negb (pr_raw_bluetooth_addresses_redacted pair) ||
           pr_raw_bluetooth_address_pattern_found pair || pr_shared_secret_pattern_found pair ||
           negb (pr_media_payload_bytes pair =? 0) || negb (pr_wifi_direct_mutations_executed pair =? 0) ||
           negb (pr_manifold_commands_executed pair =? 0))
    "BLE rendezvous pair crossed a secret, address, media, Wi-Fi, or Manifold boundary" +++
  flat_map phase_errors (pr_phases pair) +++
  push_if (negb (existsb (layout (pr_primary_serial pair) (pr_secondary_serial pair)) (pr_phases pair)) ||
           negb (existsb (layout (pr_secondary_serial pair) (pr_primary_serial pair)) (pr_phases pair)))
    "BLE rendezvous pair did not prove both server/client role layouts" +++
  push_if (sessions_repeat (pr_phases pair)) "BLE rendezvous pair phases must use distinct authenticated sessions" +++
  boundary_errors pair +++
  push_if (cleanup_failed pair) "BLE rendezvous pair cleanup or fatal-window acceptance failed".

Definition validate_ble_rendezvous_pair_receipt (pair : BleRendezvousPairReceipt) : result (list ValidationError) unit :=
  match pair_receipt_errors pair with [] => Ok tt | errors => Err errors end.
