(* ===== verification/BleTheorems.v ===== *)
(** * What BLE rendezvous messages and receipts promise

    The signing input determines the message it is computed from, up to the
    authentication tag; [pair_accepted] says what an accepted role-swap artifact
    shows of its two devices. *)

From Stdlib Require Import ZArith Ascii.
From S2P Require Import Prelude RustStr SessionClock MediaModel MediaSpec P2pRoute BleRendezvous.

Local Open Scope string_scope.
Local Open Scope N_scope.

(** ** Joined fields *)

Lemma split_on_app c (a s : string) :
  contains_byte c a = false → ∀ d, byte_of d = c → split_on c (a ++ String d s) = a :: split_on c s.
Proof.
  unfold contains_byte. intros Ha d <-. induction a as [|x a IH]; cbn in *.
  - by rewrite N.eqb_refl.
  - apply orb_false_iff in Ha as [Hx Ha]. rewrite N.eqb_sym, Hx. by rewrite IH.
Qed.

Lemma split_on_one c a : contains_byte c a = false → split_on c a = [a].
Proof.
  unfold contains_byte. induction a as [|x a IH]; cbn; [done|]. intros [Hx Ha]%orb_false_iff.
  rewrite N.eqb_sym, Hx. by rewrite IH.
Qed.

(** [fields.join(c)]. *)
Fixpoint joined (c : Ascii.ascii) (fields : list string) : string :=
  match fields with
  | [] => ""
  | [a] => a
  | a :: rest => a ++ String c (joined c rest)
  end.

Lemma split_joined c fields :
  fields ≠ [] → Forall (fun f => contains_byte (byte_of c) f = false) fields →
  split_on (byte_of c) (joined c fields) = fields.
Proof.
  intros Hne Hf. induction Hf as [|a fields Ha Hf IH]; [done|]. destruct fields as [|b fields].
  - by apply split_on_one.
  - change (joined c (a :: b :: fields)) with (a ++ String c (joined c (b :: fields))).
    rewrite split_on_app by done. f_equal. by apply IH.
Qed.

Lemma joined_inj c fs gs :
  fs ≠ [] → gs ≠ [] → Forall (fun f => contains_byte (byte_of c) f = false) fs →
  Forall (fun f => contains_byte (byte_of c) f = false) gs → joined c fs = joined c gs → fs = gs.
Proof. intros. rewrite <- (split_joined c fs), <- (split_joined c gs) by done. congruence. Qed.

Lemma contains_byte_all (p : N → bool) c s : p c = false → all_bytes p s = true → contains_byte c s = false.
Proof.
  unfold contains_byte. intros Hp. induction s as [|a s IH]; cbn; [done|]. intros [Ha Hs]%andb_true_iff.
  apply orb_false_iff. split; [|by apply IH]. apply N.eqb_neq. intros ->. congruence.
Qed.

Lemma fmt_decimal_free c n : is_ascii_digit c = false → contains_byte c (fmt_decimal n) = false.
Proof. intros. eapply contains_byte_all; [done|]. apply fmt_decimal_digits. Qed.

(** ** Addresses *)

Definition ipv4_octets (a : Ipv4Addr) : Prop := oct0 a < 256 ∧ oct1 a < 256 ∧ oct2 a < 256 ∧ oct3 a < 256.

Lemma fmt_ipv4_joined a :
  fmt_ipv4 a = joined "."%char [fmt_decimal (oct0 a); fmt_decimal (oct1 a); fmt_decimal (oct2 a); fmt_decimal (oct3 a)].
Proof. reflexivity. Qed.

Lemma fmt_ipv4_inj a b : ipv4_octets a → ipv4_octets b → fmt_ipv4 a = fmt_ipv4 b → a = b.
Proof.
  intros (A0 & A1 & A2 & A3) (B0 & B1 & B2 & B3). rewrite !fmt_ipv4_joined. intros E.
  apply joined_inj in E; [|done|done|repeat constructor; by apply fmt_decimal_free..].
  injection E as E0 E1 E2 E3. destruct a, b. cbn in *.
  f_equal; apply fmt_decimal_inj; (done || unfold u64_max; lia).
Qed.

Lemma all_bytes_str_app p a b : all_bytes p (a ++ b) = all_bytes p a && all_bytes p b.
Proof. apply all_bytes_app. Qed.

Definition hint_text (hint : option Ipv4Addr) : string :=
  match hint with None => "-" | Some address => fmt_ipv4 address end.

Definition is_ipv4_byte (b : N) : bool := is_ascii_digit b || (b =? 46).

Lemma all_bytes_weaken (p q : N → bool) s : (∀ b, p b = true → q b = true) → all_bytes p s = true → all_bytes q s = true.
Proof. intros Hpq. induction s as [|a s IH]; cbn; [done|]. rewrite !andb_true_iff. naive_solver. Qed.

Lemma fmt_ipv4_bytes a : all_bytes is_ipv4_byte (fmt_ipv4 a) = true.
Proof.
  unfold fmt_ipv4. rewrite !all_bytes_app. cbn.
  rewrite !(all_bytes_weaken is_ascii_digit is_ipv4_byte) by (try apply fmt_decimal_digits; unfold is_ipv4_byte; by intros b ->).
  done.
Qed.

Lemma hint_text_inj a b :
  (∀ x, a = Some x → ipv4_octets x) → (∀ x, b = Some x → ipv4_octets x) → hint_text a = hint_text b → a = b.
Proof.
  destruct a as [x|], b as [y|]; cbn; intros Ha Hb E; [|exfalso|exfalso|done].
  - f_equal. apply fmt_ipv4_inj; auto.
  - pose proof (fmt_ipv4_bytes x) as Hx. by rewrite E in Hx.
  - pose proof (fmt_ipv4_bytes y) as Hy. by rewrite <- E in Hy.
Qed.

(** ** The signing input *)

(** The widths of the fields. *)
Record ble_widths (m : BleRendezvousMessage) : Prop := {
  bw_epoch : bm_epoch m <= u32_max;
  bw_sequence : bm_sequence m <= u32_max;
  bw_capabilities : bm_capabilities m < 65536;
  bw_address a : bm_p2p_ipv4 m = Some a → ipv4_octets a;
  bw_port p : bm_broker_port m = Some p → p < 65536;
  bw_ttl : bm_ttl_ms m <= u32_max;
}.

Definition signing_fields (m : BleRendezvousMessage) : list string :=
  ["RQRV1"; kind_token (bm_kind m); bm_session_tag m; bm_peer_tag m; fmt_decimal (bm_epoch m); fmt_decimal (bm_sequence m);
   role_preference_token (bm_role_preference m); fmt_decimal (bm_capabilities m); wifi_state_token (bm_wifi_state m);
   hint_text (bm_p2p_ipv4 m); fmt_decimal (default 0 (bm_broker_port m)); fmt_decimal (bm_ttl_ms m); bm_nonce m].

Lemma signing_input_joined m : ble_rendezvous_signing_input m = joined "|"%char (signing_fields m).
Proof. reflexivity. Qed.

Lemma kind_token_inj a b : kind_token a = kind_token b → a = b.
Proof. by destruct a, b. Qed.
Lemma role_token_inj a b : role_preference_token a = role_preference_token b → a = b.
Proof. by destruct a, b. Qed.
Lemma wifi_token_inj a b : wifi_state_token a = wifi_state_token b → a = b.
Proof. by destruct a, b. Qed.

Lemma safe_tag_free v lo hi : is_safe_tag v lo hi = true → contains_byte 124 v = false.
Proof. unfold is_safe_tag. intros [_ H]%andb_true_iff. by eapply contains_byte_all; [|exact H]. Qed.

Lemma hex_token_free v lo hi : is_hex_token v lo hi = true → contains_byte 124 v = false.
Proof. unfold is_hex_token. intros [_ H]%andb_true_iff. by eapply contains_byte_all; [|exact H]. Qed.

Lemma hint_free h : contains_byte 124 (hint_text h) = false.
Proof. destruct h as [a|]; [|done]. eapply contains_byte_all; [|apply fmt_ipv4_bytes]. done. Qed.

(** What of an accepted message the signing input relies on. *)
Record ble_identity (m : BleRendezvousMessage) : Prop := {
  bi_magic : bm_magic m = BLE_RENDEZVOUS_MESSAGE_MAGIC;
  bi_version : bm_version m = BLE_RENDEZVOUS_MESSAGE_VERSION;
  bi_session : is_safe_tag (bm_session_tag m) 4 32 = true;
  bi_peer : is_safe_tag (bm_peer_tag m) 4 32 = true;
  bi_port : bm_broker_port m ≠ Some 0;
  bi_nonce : is_hex_token (bm_nonce m) 16 32 = true;
}.

Lemma accepted_identity {BJ : BleMessageJson} m : ble_message_errors m = [] → ble_identity m.
Proof.
  unfold ble_message_errors, validate_ephemeral_tag, validate_wifi_hint.
  rewrite !app_nil_iff, !push_if_nil, !negb_false_iff, String.eqb_eq, N.eqb_eq, bool_decide_eq_false.
  intros (? & ? & ? & ? & _ & _ & _ & _ & _ & _ & (_ & ? & _) & ? & _). by constructor.
Qed.

Lemma signing_fields_free m : ble_identity m → Forall (fun f => contains_byte 124 f = false) (signing_fields m).
Proof.
  intros [_ _ Hs Hp _ Hn]. unfold signing_fields. rewrite !Forall_cons.
  split_and!; try done; try (by apply fmt_decimal_free); try (by eapply safe_tag_free).
  - by destruct (bm_kind m).
  - by destruct (bm_role_preference m).
  - by destruct (bm_wifi_state m).
  - apply hint_free.
  - by eapply hex_token_free.
Qed.

(** The same message with another tag. *)
Definition with_auth_tag (m : BleRendezvousMessage) (tag : string) : BleRendezvousMessage :=
  mkBleMessage (bm_magic m) (bm_version m) (bm_kind m) (bm_session_tag m) (bm_peer_tag m) (bm_epoch m) (bm_sequence m)
    (bm_role_preference m) (bm_capabilities m) (bm_wifi_state m) (bm_p2p_ipv4 m) (bm_broker_port m) (bm_ttl_ms m)
    (bm_nonce m) tag.

Lemma default_port_inj a b :
  a ≠ Some 0 → b ≠ Some 0 → default 0 a = default 0 b → a = b.
Proof. destruct a, b; cbn; congruence. Qed.

Lemma signing_input_inj a b :
  ble_identity a → ble_identity b → ble_widths a → ble_widths b →
  ble_rendezvous_signing_input a = ble_rendezvous_signing_input b → b = with_auth_tag a (bm_auth_tag b).
Proof.
  intros Ia Ib Wa Wb. rewrite !signing_input_joined. intros E.
  apply joined_inj in E; [|done|done|by apply signing_fields_free..]. destruct Ia, Ib, Wa, Wb.
  assert (Hport : ∀ m, (∀ p, bm_broker_port m = Some p → p < 65536) → default 0 (bm_broker_port m) <= u64_max).
  { intros m Hm. destruct (bm_broker_port m) as [p|]; cbn; [specialize (Hm p eq_refl)|]; unfold u64_max; lia. }
  injection E as Ek Es Ep Ee Eq Er Ec Ew Eh Eb Et En. unfold u32_max in *.
  apply kind_token_inj in Ek. apply role_token_inj in Er. apply wifi_token_inj in Ew.
  apply hint_text_inj in Eh; [|done..]. apply fmt_decimal_inj in Ee, Eq, Ec, Et; try (unfold u64_max; lia).
  apply fmt_decimal_inj in Eb; [|by apply Hport..]. apply default_port_inj in Eb; [|done..].
  destruct a, b. cbn in *. unfold with_auth_tag. cbn. clear -bi_magic0 bi_magic1 bi_version0 bi_version1 Ek Es Ep Ee Eq Er Ec Ew Eh Eb Et En.
  subst. reflexivity.
Qed.

(** ** Pairs *)

(** The rows are one for each of two devices. *)
Lemma rows_correlate_iff {A} (serial : A → string) p s rows :
  p ≠ s → rows_correlate serial [p; s] rows = true ↔ ∃ a b, rows ≡ₚ [a; b] ∧ serial a = p ∧ serial b = s.
Proof.
  intros Hne. unfold rows_correlate. rewrite !andb_true_iff, N.eqb_eq. unfold len.
  assert (Htwo : ∀ a b, (forallb (fun s0 => (length (filter (fun row => serial row = s0) [a; b]) =? 1)%nat) [p; s] = true ∧
      forallb (fun row => existsb (fun s0 => s0 =? serial row)%string [p; s]) [a; b] = true) ↔
    (serial a = p ∧ serial b = s) ∨ (serial a = s ∧ serial b = p)).
  { intros a b. cbn [forallb existsb]. rewrite !andb_true_iff, !orb_true_iff, !String.eqb_eq, !Nat.eqb_eq, !filter_cons.
    repeat case_decide; cbn; split; intros; subst; naive_solver. }
  split.
  - intros [[Hl Hc] Hall]. destruct rows as [|a [|b [|]]]; cbn [length] in Hl; try lia.
    destruct (proj1 (Htwo a b) (conj Hc Hall)) as [[Ha Hb]|[Ha Hb]]; [by exists a, b|].
    exists b, a. split; [apply Permutation_swap|done].
  - intros (a & b & Hp & Ha & Hb). apply Permutation_sym, Permutation_length_2_inv in Hp as [-> | ->].
    + destruct (proj2 (Htwo a b)); [by left|done].
    + destruct (proj2 (Htwo b a)); [by right|done].
Qed.

(** A receipt that validated as a passing one of [role] in the session of its phase. *)
Definition phase_receipt_ok (phase : BleRendezvousPairPhase) (role : BleRendezvousSidecarRole)
    (r : BleRendezvousSidecarReceipt) : Prop :=
  sidecar_receipt_errors r = [] ∧ br_role r = role ∧ br_status r = SPass ∧ br_session_tag r = pp_session_tag phase ∧
  br_issue_codes r = [].

Record phase_ok (phase : BleRendezvousPairPhase) : Prop := {
  pk_tag : is_safe_tag (pp_session_tag phase) 4 32 = true;
  pk_status : pp_status phase = SPass;
  pk_server : phase_receipt_ok phase SServer (pp_server_receipt phase);
  pk_client : phase_receipt_ok phase SClient (pp_client_receipt phase);
  pk_peers : br_peer_tag (pp_server_receipt phase) ≠ br_peer_tag (pp_client_receipt phase);
}.

Lemma phase_receipt_nil phase label role r :
  phase_receipt_errors phase label r role = [] ↔ phase_receipt_ok phase role r.
Proof.
  unfold phase_receipt_errors, phase_receipt_ok, validate_ble_rendezvous_sidecar_receipt, status_is.
  rewrite app_nil_iff, push_if_nil, !orb_false_iff, !negb_false_iff, bool_decide_eq_false, !bool_decide_eq_true, String.eqb_eq.
  destruct (sidecar_receipt_errors r) as [|e l]; [|split; [by intros [? _]|by intros [? _]]].
  split; [|tauto]. intros (_ & ((Hr & ?) & ?) & ?). split_and!; try done. by apply dec_stable.
Qed.

Lemma phase_nil phase :
  phase_errors phase = [] ↔ phase_ok phase ∧ pp_server_serial phase ≠ pp_client_serial phase.
Proof.
  unfold phase_errors, validate_ephemeral_tag, status_is.
  rewrite !app_nil_iff, !phase_receipt_nil, !push_if_nil, orb_false_iff, !negb_false_iff, bool_decide_eq_true, !String.eqb_neq.
  split.
  - intros (? & [? ?] & ? & ? & ?). split; [by constructor|done].
  - intros [[] ?]. by split_and!.
Qed.

(** What happened to a device: Bluetooth on before and after, its P2P address as it was. *)
Definition undisturbed (before after : BleRendezvousPairDeviceState) : Prop :=
  pds_serial before = pds_serial after ∧ pds_bluetooth_on before = "1" ∧ pds_bluetooth_on after = "1" ∧
  pds_p2p0_ipv4 after = pds_p2p0_ipv4 before.

Definition device_cleaned (d : BleRendezvousPairDeviceCleanup) : Prop :=
  pdc_force_stop_exit_code d = 0%Z ∧ pdc_package_pid_absent d = true.

Lemma state_nil before after a' :
  NoDup (pds_serial <$> after) → a' ∈ after → pds_serial before = pds_serial a' →
  state_errors after before = [] ↔ undisturbed before a'.
Proof.
  intros Hnd Hin Es. unfold state_errors, undisturbed. rewrite push_if_nil, orb_false_iff, negb_false_iff, String.eqb_eq.
  rewrite (proj2 (find_key_iff pds_serial (pds_serial before) after a' Hnd)) by done.
  rewrite orb_false_iff, !negb_false_iff, !String.eqb_eq. naive_solver congruence.
Qed.

(** Two rows for each device, before and after. *)
Lemma boundary_nil pair :
  pr_primary_serial pair ≠ pr_secondary_serial pair →
  boundary_errors pair = [] ↔
  ∃ a b a' b', pr_device_state_before pair ≡ₚ [a; b] ∧ pr_device_state_after pair ≡ₚ [a'; b'] ∧
    pds_serial a = pr_primary_serial pair ∧ pds_serial b = pr_secondary_serial pair ∧ undisturbed a a' ∧ undisturbed b b'.
Proof.
  intros Hne. unfold boundary_errors.
  destruct (rows_correlate _ _ (pr_device_state_before pair)) eqn:Eb, (rows_correlate _ _ (pr_device_state_after pair)) eqn:Ea;
    cbn [negb orb].
  - apply rows_correlate_iff in Eb as (a & b & Pb & Sa & Sb); [|done].
    apply rows_correlate_iff in Ea as (a' & b' & Pa & Sa' & Sb'); [|done].
    assert (Hnd : NoDup (pds_serial <$> pr_device_state_after pair)).
    { rewrite Pa. cbn. rewrite Sa', Sb'. repeat constructor; set_solver. }
    assert (Hflat : flat_map (state_errors (pr_device_state_after pair)) (pr_device_state_before pair) = [] ↔
      undisturbed a a' ∧ undisturbed b b').
    { rewrite <- (state_nil a _ a' Hnd), <- (state_nil b _ b' Hnd); [|rewrite Pa; set_solver|congruence|rewrite Pa; set_solver|congruence].
      apply Permutation_sym, Permutation_length_2_inv in Pb as [-> | ->]; cbn; rewrite app_nil_r, app_nil_iff; tauto. }
    rewrite Hflat. split; [naive_solver|]. intros (x & y & x' & y' & Px & Py & Sx & Sy & Ux & Uy).
    assert (Hnd' : NoDup (pds_serial <$> pr_device_state_before pair)).
    { rewrite Pb. cbn. rewrite Sa, Sb. repeat constructor; set_solver. }
    pose proof (proj1 Ux) as Ux1. pose proof (proj1 Uy) as Uy1.
    assert (x = a) as -> by (apply (fmap_NoDup_inj _ _ _ _ Hnd'); [rewrite Px; left|rewrite Pb; left|congruence]).
    assert (y = b) as -> by (apply (fmap_NoDup_inj _ _ _ _ Hnd'); [rewrite Px; right; left|rewrite Pb; right; left|congruence]).
    assert (x' = a') as -> by (apply (fmap_NoDup_inj _ _ _ _ Hnd); [rewrite Py; left|rewrite Pa; left|congruence]).
    assert (y' = b') as -> by (apply (fmap_NoDup_inj _ _ _ _ Hnd); [rewrite Py; right; left|rewrite Pa; right; left|congruence]).
    done.
  - split; [done|]. intros (a & b & a' & b' & _ & Pa & Sa & Sb & [Ua _] & [Ub _]).
    rewrite (proj2 (rows_correlate_iff pds_serial _ _ _ Hne)) in Ea; [done|]. exists a', b'. split_and!; congruence.
  - split; [done|]. intros (a & b & a' & b' & Pb & _ & Sa & Sb & _).
    rewrite (proj2 (rows_correlate_iff pds_serial _ _ _ Hne)) in Eb; [done|]. exists a, b. done.
  - split; [done|]. intros (a & b & a' & b' & Pb & _ & Sa & Sb & _).
    rewrite (proj2 (rows_correlate_iff pds_serial _ _ _ Hne)) in Eb; [done|]. exists a, b. done.
Qed.

Lemma flat_map_nil {A B} (f : A → list B) l : flat_map f l = [] ↔ ∀ x, x ∈ l → f x = [].
Proof. induction l as [|a l IH]; cbn; [set_solver|]. rewrite app_nil_iff, IH. set_solver. Qed.

(** ** The contract of a pair *)

Record pair_accepted (pair : BleRendezvousPairReceipt) : Prop := {
  pa_schema : pr_schema pair = BLE_RENDEZVOUS_PAIR_SCHEMA;
  pa_run_id : is_safe_tag (pr_run_id pair) 4 32 = true;
  pa_live : pr_status pair = SPass ∧ pr_dry_run pair = false;
  pa_devices : pr_primary_serial pair ≠ "" ∧ pr_secondary_serial pair ≠ "" ∧
    pr_primary_serial pair ≠ pr_secondary_serial pair;
  pa_leases : lease_errors pair = [];
  pa_claims : pr_role_swap_required pair = true ∧ pr_role_swap_completed pair = true ∧
    pr_reconnect_required_each_phase pair = true ∧ pr_authenticated_phase_count pair = 2;
  (** nothing secret, no media, no command of another owner *)
  pa_boundary : pr_shared_secret_recorded pair = false ∧ pr_raw_bluetooth_addresses_redacted pair = true ∧
    pr_raw_bluetooth_address_pattern_found pair = false ∧ pr_shared_secret_pattern_found pair = false ∧
    pr_media_payload_bytes pair = 0 ∧ pr_wifi_direct_mutations_executed pair = 0 ∧ pr_manifold_commands_executed pair = 0;
  (** two phases, one for each layout, in sessions of their own *)
  pa_phases : ∃ p q, pr_phases pair ≡ₚ [p; q] ∧ phase_ok p ∧ phase_ok q ∧
    pp_server_serial p = pr_primary_serial pair ∧ pp_client_serial p = pr_secondary_serial pair ∧
    pp_server_serial q = pr_secondary_serial pair ∧ pp_client_serial q = pr_primary_serial pair ∧
    pp_session_tag p ≠ pp_session_tag q;
  pa_states : ∃ a b a' b', pr_device_state_before pair ≡ₚ [a; b] ∧ pr_device_state_after pair ≡ₚ [a'; b'] ∧
    pds_serial a = pr_primary_serial pair ∧ pds_serial b = pr_secondary_serial pair ∧ undisturbed a a' ∧ undisturbed b b';
  pa_cleanup : pc_complete (pr_cleanup pair) = true ∧ pc_package_processes_absent (pr_cleanup pair) = true ∧
    pc_bluetooth_and_p2p0_state_stable (pr_cleanup pair) = true ∧ pc_app_fatal_count (pr_cleanup pair) = 0 ∧
    ∃ a b, pc_devices (pr_cleanup pair) ≡ₚ [a; b] ∧ pdc_serial a = pr_primary_serial pair ∧
      pdc_serial b = pr_secondary_serial pair ∧ device_cleaned a ∧ device_cleaned b;
}.

Lemma layout_iff server client phase :
  layout server client phase = true ↔ pp_server_serial phase = server ∧ pp_client_serial phase = client.
Proof. unfold layout. by rewrite andb_true_iff, !String.eqb_eq. Qed.

Lemma existsb_elem_of {A} (p : A → bool) l : existsb p l = true ↔ ∃ x, x ∈ l ∧ p x = true.
Proof. rewrite existsb_exists. by setoid_rewrite list_elem_of_In. Qed.

(** Two valid phases with both layouts: one of each. *)
Lemma phases_iff primary secondary phases :
  primary ≠ secondary →
  (len phases = 2 ∧ (∀ x, x ∈ phases → phase_errors x = []) ∧ existsb (layout primary secondary) phases = true ∧
   existsb (layout secondary primary) phases = true ∧ sessions_repeat phases = false) ↔
  ∃ p q, phases ≡ₚ [p; q] ∧ phase_ok p ∧ phase_ok q ∧
    pp_server_serial p = primary ∧ pp_client_serial p = secondary ∧
    pp_server_serial q = secondary ∧ pp_client_serial q = primary ∧ pp_session_tag p ≠ pp_session_tag q.
Proof.
  intros Hne. rewrite !existsb_elem_of. setoid_rewrite layout_iff. setoid_rewrite phase_nil. split.
  - intros (Hl & Hok & (p & Hp & Sp & Cp) & (q & Hq & Sq & Cq) & Hs).
    destruct phases as [|x [|y [|]]]; unfold len in Hl; cbn [length] in Hl; try lia. cbn in Hs. apply String.eqb_neq in Hs.
    exists p, q. apply Hok in Hp as Op. apply Hok in Hq as Oq.
    apply elem_of_cons in Hp as [->|Hp%list_elem_of_singleton], Hq as [->|Hq%list_elem_of_singleton]; subst; try congruence.
    + split_and!; naive_solver.
    + split; [apply Permutation_swap|]. split_and!; naive_solver.
  - intros (p & q & Hp & Op & Oq & Sp & Cp & Sq & Cq & Hs).
    assert (Hall : ∀ x, x ∈ phases → x = p ∨ x = q) by (intros x Hx; rewrite Hp in Hx; set_solver).
    split_and!.
    + unfold len. by rewrite Hp.
    + intros x [-> | ->]%Hall; split; congruence.
    + exists p. split; [rewrite Hp; left|done].
    + exists q. split; [rewrite Hp; right; left|done].
    + apply Permutation_sym, Permutation_length_2_inv in Hp as [-> | ->]; cbn; apply String.eqb_neq; congruence.
Qed.

Lemma cleanup_iff pair :
  pr_primary_serial pair ≠ pr_secondary_serial pair →
  cleanup_failed pair = false ↔
  pc_complete (pr_cleanup pair) = true ∧ pc_package_processes_absent (pr_cleanup pair) = true ∧
  pc_bluetooth_and_p2p0_state_stable (pr_cleanup pair) = true ∧ pc_app_fatal_count (pr_cleanup pair) = 0 ∧
  ∃ a b, pc_devices (pr_cleanup pair) ≡ₚ [a; b] ∧ pdc_serial a = pr_primary_serial pair ∧
    pdc_serial b = pr_secondary_serial pair ∧ device_cleaned a ∧ device_cleaned b.
Proof.
  intros Hne. unfold cleanup_failed, device_cleaned.
  rewrite !orb_false_iff, !negb_false_iff, N.eqb_eq, rows_correlate_iff by done.
  assert (Hex : existsb (λ d, negb (pdc_force_stop_exit_code d =? 0)%Z || negb (pdc_package_pid_absent d))
      (pc_devices (pr_cleanup pair)) = false ↔
    ∀ d, d ∈ pc_devices (pr_cleanup pair) → pdc_force_stop_exit_code d = 0%Z ∧ pdc_package_pid_absent d = true).
  { rewrite <- not_true_iff_false, existsb_elem_of. setoid_rewrite orb_true_iff. setoid_rewrite negb_true_iff.
    setoid_rewrite Z.eqb_neq. split.
    - intros H d Hd. split; [destruct (Z.eq_dec (pdc_force_stop_exit_code d) 0%Z); [done|]|destruct (pdc_package_pid_absent d) eqn:E; [done|]];
        destruct H; exists d; auto.
    - intros H (d & Hd & Hbad). destruct (H d Hd) as [Hz Hp]. destruct Hbad; congruence. }
  rewrite Hex. split.
  - intros (((((H1 & H2) & H3) & H4) & (a & b & Hp & Ha & Hb)) & Hall). split_and!; try done. exists a, b.
    split_and!; try done; apply Hall; rewrite Hp; set_solver.
  - intros (H1 & H2 & H3 & H4 & a & b & Hp & Ha & Hb & Ca & Cb). split_and!; try done; [by exists a, b|].
    intros d Hd. rewrite Hp in Hd. apply elem_of_cons in Hd as [->|Hd%list_elem_of_singleton]; [done|by subst].
Qed.

Lemma pair_receipt_nil pair : pair_receipt_errors pair = [] ↔ pair_accepted pair.
Proof.
  unfold pair_receipt_errors, validate_ephemeral_tag, status_is.
  rewrite !app_nil_iff, !push_if_nil, !orb_false_iff, !negb_false_iff, !bool_decide_eq_true, !String.eqb_eq, !String.eqb_neq,
    !N.eqb_eq, flat_map_nil.
  assert (Hemp : ∀ s, str_is_empty s = false ↔ s ≠ "") by (by destruct s). rewrite !Hemp. split.
  - intros (H1 & H2 & H3 & [[Hp Hs] Hne] & H5 & ((((R1 & R2) & R3) & R4) & Hlen) & Hb & Hph & [Hl1 Hl2] & Hrep & Hst & Hcl).
    rewrite boundary_nil in Hst by done. rewrite cleanup_iff in Hcl by done.
    constructor; try tauto. by apply phases_iff.
  - intros [H1 H2 H3 (Hp & Hs & Hne) H5 H6 H7 H8 H9 H10]. apply (phases_iff _ _ _ Hne) in H8.
    rewrite boundary_nil, cleanup_iff by done. tauto.
Qed.
