(* ===== verification/WifiDirect.v ===== *)
(** * Wi-Fi Direct evidence

    crates/rusty-quest-device-link/src/wifi_direct_lifecycle.rs (the source
    artifact of a harness run) and product_wifi_direct.rs (the receipt of a
    product run): every validator, with its messages in the order the code pushes
    them. *)

From S2P Require Import Prelude RustStr MediaModel MediaValidation P2pRoute BleRendezvous.

Local Open Scope string_scope.
Local Open Scope N_scope.

Local Notation "l +++ k" := (app l k) (at level 60, right associativity).

Definition STATUS_PASS : string := "pass".

(** ** The lifecycle artifact *)

Definition WIFI_DIRECT_LIFECYCLE_SCHEMA : string := "rusty.quest.connectivity_wifi_direct_lifecycle.v1".
Definition WIFI_DIRECT_PROBE_QCL_040 : string := "QCL-040".
Definition WIFI_DIRECT_PROBE_QCL_041 : string := "QCL-041".
Definition WIFI_DIRECT_PEER_ANDROID_PHONE : string := "android_phone".
Definition WIFI_DIRECT_PEER_WINDOWS : string := "windows".
Definition WIFI_DIRECT_AGENT_BOARD_MANAGER : string := "Agent Board".
Definition QUEST_LEASE_RESOURCE_PREFIX : string := "quest:".
Definition LIVE_EVIDENCE_TIERS : list string := ["quest_runtime"; "hostess_harness"; "product_harness"; "product_owned"].

Record WifiDirectLifecycleHarness := mkHarness {
  wh_harness_id : string;
  wh_owner : string;
  wh_route : option string;
  wh_hostess_runs_harness : bool;
  wh_writes_live_source_artifact : bool;
}.

Record WifiDirectLifecycleTopology := mkTopology {
  wt_owner : string;
  wt_network_provider : string;
  wt_endpoint_direction : string;
  wt_peer_class : string;
}.

Record WifiDirectLifecycleDevice := mkWifiDevice {
  wd_model : string;
  wd_serial : string;
  wd_adb_serial : option string;
  wd_wifi_direct_role : string;
}.

Record WifiDirectLifecycleHost := mkWifiHost {
  wo_os : string;
  wo_toolchain_profile : string;
}.

Record WifiDirectLifecycleLease := mkWifiLease {
  wls_manager : string;
  wls_resource : string;
  wls_lease_id : string;
  wls_reserved_before_live_steps : bool;
  wls_released_after_live_steps : bool;
  wls_adb_server_lifecycle_lease_used : bool;
  wls_reserve_command : option string;
  wls_release_command : option string;
  wls_adb_server_lifecycle_policy : option string;
}.

Record WifiDirectLifecyclePhase := mkWifiPhase {
  wp_status : string;
  wp_evidence : option string;
  wp_required : option bool;
  wp_peer_count : option N;
  wp_local_role : option string;
  wp_peer_role : option string;
  wp_protocol : option string;
  wp_payload_class : option string;
  wp_bounded : option bool;
  wp_messages_sent : option N;
  wp_messages_received : option N;
  wp_completed : option bool;
}.

Record WifiDirectLifecyclePhases := mkWifiPhases {
  wps_feature : WifiDirectLifecyclePhase;
  wps_windows_wifi_direct_api : option WifiDirectLifecyclePhase;
  wps_android_phone_peer : option WifiDirectLifecyclePhase;
  wps_permission_state : WifiDirectLifecyclePhase;
  wps_peer_discovery : WifiDirectLifecyclePhase;
  wps_group_formation : WifiDirectLifecyclePhase;
  wps_socket_exchange : WifiDirectLifecyclePhase;
  wps_cleanup : WifiDirectLifecyclePhase;
}.

Record WifiDirectLifecycleMeasurements := mkWifiMeasurements {
  wm_tcp_connect_ms : option N;
  wm_wifi_direct_peer_count : option N;
  wm_group_formation_ms : option N;
}.

Record WifiDirectLifecycleArtifact := mkWifiArtifact {
  wa_schema : string;
  wa_schema_version : N;
  wa_probe_id : string;
  wa_peer_class : string;
  wa_evidence_tier : string;
  wa_capture_kind : string;
  wa_live_evidence : bool;
  wa_observed_at_utc : string;
  wa_run_id : string;
  wa_harness : WifiDirectLifecycleHarness;
  wa_topology : WifiDirectLifecycleTopology;
  wa_device : WifiDirectLifecycleDevice;
  wa_host : WifiDirectLifecycleHost;
  wa_lease : WifiDirectLifecycleLease;
  wa_lifecycle : WifiDirectLifecyclePhases;
  wa_measurements : WifiDirectLifecycleMeasurements;
}.

(** ** Placeholders *)

Definition id_is_placeholder (value : string) : bool := let value := trim value in str_is_empty value || contains_byte 60 value.
Definition text_is_placeholder (value : string) : bool := let value := trim value in str_is_empty value || contains_byte 60 value.
Definition serial_is_placeholder (value : string) : bool :=
  let value := trim value in
  str_is_empty value || contains_byte 60 value || (value =? "QUEST_SERIAL_FROM_ADB_DEVICES")%string.

Definition quest_serial_from_resource (resource : string) : string :=
  trim (default "" (strip_prefix QUEST_LEASE_RESOURCE_PREFIX resource)).

Definition peer_phase_name (probe_id : string) : string :=
  if (probe_id =? WIFI_DIRECT_PROBE_QCL_041)%string then "windows_wifi_direct_api" else "android_phone_peer".

(** The error and the class the probe expects. *)
Definition expected_peer_class (probe_id : string) : list ValidationError * option string :=
  if (probe_id =? WIFI_DIRECT_PROBE_QCL_040)%string then ([], Some WIFI_DIRECT_PEER_ANDROID_PHONE)
  else if (probe_id =? WIFI_DIRECT_PROBE_QCL_041)%string then ([], Some WIFI_DIRECT_PEER_WINDOWS)
  else (["unsupported Wi-Fi Direct lifecycle probe_id " ++ probe_id], None).

(** ** Validators *)

Definition validate_harness (h : WifiDirectLifecycleHarness) : list ValidationError :=
  validate_required_text "wifi_direct_lifecycle.harness.harness_id" (wh_harness_id h) +++
  validate_required_text "wifi_direct_lifecycle.harness.owner" (wh_owner h) +++
  push_if (id_is_placeholder (wh_harness_id h)) "Wi-Fi Direct lifecycle requires a concrete harness_id" +++
  push_if (text_is_placeholder (wh_owner h)) "Wi-Fi Direct lifecycle requires a concrete harness owner" +++
  push_if (negb (wh_writes_live_source_artifact h)) "Wi-Fi Direct lifecycle harness must write the live source artifact".

Definition wifi_validate_topology (t : WifiDirectLifecycleTopology) (artifact_peer_class : string) : list ValidationError :=
  validate_required_text "wifi_direct_lifecycle.topology.owner" (wt_owner t) +++
  validate_required_text "wifi_direct_lifecycle.topology.network_provider" (wt_network_provider t) +++
  validate_required_text "wifi_direct_lifecycle.topology.endpoint_direction" (wt_endpoint_direction t) +++
  validate_required_text "wifi_direct_lifecycle.topology.peer_class" (wt_peer_class t) +++
  push_if (negb (wt_owner t =? "wifi_direct")%string) "Wi-Fi Direct lifecycle topology.owner must be wifi_direct" +++
  push_if (negb (wt_network_provider t =? "wifi_direct")%string)
    "Wi-Fi Direct lifecycle topology.network_provider must be wifi_direct" +++
  push_if (negb (wt_endpoint_direction t =? "peer_to_peer_group")%string)
    "Wi-Fi Direct lifecycle topology.endpoint_direction must be peer_to_peer_group" +++
  push_if (negb (wt_peer_class t =? artifact_peer_class)%string)
    "Wi-Fi Direct lifecycle topology.peer_class must match artifact peer_class".

Definition wifi_validate_device (d : WifiDirectLifecycleDevice) : list ValidationError :=
  validate_required_text "wifi_direct_lifecycle.device.model" (wd_model d) +++
  validate_required_text "wifi_direct_lifecycle.device.serial" (wd_serial d) +++
  validate_required_text "wifi_direct_lifecycle.device.wifi_direct_role" (wd_wifi_direct_role d) +++
  push_if (serial_is_placeholder (wd_serial d)) "Wi-Fi Direct lifecycle requires a concrete device serial".

Definition wifi_validate_host (h : WifiDirectLifecycleHost) (expected_peer_class : string) : list ValidationError :=
  let expected_os := if (expected_peer_class =? WIFI_DIRECT_PEER_WINDOWS)%string then WIFI_DIRECT_PEER_WINDOWS
                     else "android_phone_peer" in
  validate_required_text "wifi_direct_lifecycle.host.os" (wo_os h) +++
  validate_required_text "wifi_direct_lifecycle.host.toolchain_profile" (wo_toolchain_profile h) +++
  push_if (negb (wo_os h =? expected_os)%string &&
           negb ((expected_peer_class =? WIFI_DIRECT_PEER_ANDROID_PHONE)%string && (wo_os h =? "android_phone")%string))
    ("Wi-Fi Direct lifecycle host.os " ++ wo_os h ++ " does not match peer class " ++ expected_peer_class).

(** The serial the lease must name. *)
Definition leased_device_serial (d : WifiDirectLifecycleDevice) : string :=
  if serial_is_placeholder (wd_serial d) then default "" (wd_adb_serial d) else wd_serial d.

Definition wifi_validate_lease (l : WifiDirectLifecycleLease) (d : WifiDirectLifecycleDevice) : list ValidationError :=
  let lease_serial := quest_serial_from_resource (wls_resource l) in
  let device_serial := leased_device_serial d in
  validate_required_text "wifi_direct_lifecycle.lease.manager" (wls_manager l) +++
  validate_required_text "wifi_direct_lifecycle.lease.resource" (wls_resource l) +++
  validate_required_text "wifi_direct_lifecycle.lease.lease_id" (wls_lease_id l) +++
  push_if (negb (wls_manager l =? WIFI_DIRECT_AGENT_BOARD_MANAGER)%string)
    "Wi-Fi Direct lifecycle lease.manager must be Agent Board" +++
  push_if (negb (starts_with QUEST_LEASE_RESOURCE_PREFIX (wls_resource l)) || serial_is_placeholder lease_serial)
    "Wi-Fi Direct lifecycle lease.resource must be quest:<serial>" +++
  push_if (id_is_placeholder (wls_lease_id l) || (wls_lease_id l =? "LEASE_ID_FROM_RESERVE_OUTPUT")%string)
    "Wi-Fi Direct lifecycle requires a concrete Agent Board lease_id" +++
  push_if (negb (wls_reserved_before_live_steps l))
    "Wi-Fi Direct lifecycle quest lease must be reserved before live steps" +++
  push_if (negb (wls_released_after_live_steps l))
    "Wi-Fi Direct lifecycle quest lease must be released after live steps" +++
  push_if (negb (str_is_empty lease_serial) && negb (str_is_empty device_serial) &&
           negb (lease_serial =? device_serial)%string)
    ("Wi-Fi Direct lifecycle lease resource serial " ++ lease_serial ++ " must match device serial " ++ device_serial).

Definition validate_required_phase (label : string) (p : WifiDirectLifecyclePhase) : list ValidationError :=
  validate_required_text ("wifi_direct_lifecycle.lifecycle." ++ label ++ ".status") (wp_status p) +++
  push_if (negb (wp_status p =? STATUS_PASS)%string)
    ("Wi-Fi Direct lifecycle phase " ++ label ++ " must have status=pass") +++
  push_if (bool_decide (wp_required p = Some false)) ("Wi-Fi Direct lifecycle phase " ++ label ++ " must be required").

Definition validate_peer_discovery (p : WifiDirectLifecyclePhase) : list ValidationError :=
  validate_required_phase "peer_discovery" p +++
  push_if (default 0 (wp_peer_count p) =? 0) "Wi-Fi Direct lifecycle peer_discovery requires peer_count > 0".

Definition validate_group_formation (p : WifiDirectLifecyclePhase) : list ValidationError :=
  validate_required_phase "group_formation" p +++
  push_if (text_is_placeholder (default "" (wp_local_role p)) || text_is_placeholder (default "" (wp_peer_role p)))
    "Wi-Fi Direct lifecycle group_formation requires local_role and peer_role".

Definition validate_socket_exchange (p : WifiDirectLifecyclePhase) : list ValidationError :=
  let protocol := to_ascii_lowercase (default "" (wp_protocol p)) in
  let payload_class := default "" (wp_payload_class p) in
  let bounded := bool_decide (wp_bounded p = Some true) || (payload_class =? "bounded_tcp_probe")%string in
  let tcp := one_of protocol ["tcp"; "tcp_echo"; "bounded_tcp_probe"] in
  validate_required_phase "socket_exchange" p +++
  push_if (negb bounded || negb tcp) "Wi-Fi Direct lifecycle socket_exchange requires a bounded TCP probe" +++
  push_if ((default 0 (wp_messages_sent p) =? 0) || (default 0 (wp_messages_received p) =? 0))
    "Wi-Fi Direct lifecycle socket_exchange requires nonzero messages_sent and messages_received".

Definition wifi_validate_cleanup (p : WifiDirectLifecyclePhase) : list ValidationError :=
  validate_required_phase "cleanup" p +++
  push_if (negb (bool_decide (wp_completed p = Some true))) "Wi-Fi Direct lifecycle cleanup requires completed=true".

Definition validate_lifecycle_phases (l : WifiDirectLifecyclePhases) (probe_id : string) : list ValidationError :=
  let peer_phase := if (probe_id =? WIFI_DIRECT_PROBE_QCL_041)%string then wps_windows_wifi_direct_api l
                    else wps_android_phone_peer l in
  validate_required_phase "feature" (wps_feature l) +++
  match peer_phase with
  | Some phase => validate_required_phase (peer_phase_name probe_id) phase
  | None => ["Wi-Fi Direct lifecycle missing required " ++ peer_phase_name probe_id ++ " phase"]
  end +++
  validate_required_phase "permission_state" (wps_permission_state l) +++
  validate_peer_discovery (wps_peer_discovery l) +++
  validate_group_formation (wps_group_formation l) +++
  validate_socket_exchange (wps_socket_exchange l) +++
  wifi_validate_cleanup (wps_cleanup l).

Definition wifi_artifact_errors (a : WifiDirectLifecycleArtifact) : list ValidationError :=
  let '(probe_errors, expected_peer) := expected_peer_class (wa_probe_id a) in
  validate_required_text "wifi_direct_lifecycle.schema" (wa_schema a) +++
  validate_required_text "wifi_direct_lifecycle.probe_id" (wa_probe_id a) +++
  validate_required_text "wifi_direct_lifecycle.peer_class" (wa_peer_class a) +++
  validate_required_text "wifi_direct_lifecycle.evidence_tier" (wa_evidence_tier a) +++
  validate_required_text "wifi_direct_lifecycle.capture_kind" (wa_capture_kind a) +++
  validate_required_text "wifi_direct_lifecycle.observed_at_utc" (wa_observed_at_utc a) +++
  validate_required_text "wifi_direct_lifecycle.run_id" (wa_run_id a) +++
  push_if (negb (wa_schema a =? WIFI_DIRECT_LIFECYCLE_SCHEMA)%string)
    ("unsupported Wi-Fi Direct lifecycle schema " ++ wa_schema a) +++
  push_if (wa_schema_version a =? 0) "Wi-Fi Direct lifecycle schema_version must be nonzero" +++
  probe_errors +++
  match expected_peer with
  | Some expected =>
      push_if (negb (wa_peer_class a =? expected)%string)
        ("Wi-Fi Direct lifecycle " ++ wa_probe_id a ++ " requires peer_class " ++ expected)
  | None => []
  end +++
  push_if (negb (one_of (wa_evidence_tier a) LIVE_EVIDENCE_TIERS))
    ("Wi-Fi Direct lifecycle evidence_tier " ++ wa_evidence_tier a ++ " is not a live tier") +++
  push_if (negb (wa_live_evidence a)) "Wi-Fi Direct lifecycle requires live_evidence=true" +++
  push_if (id_is_placeholder (wa_run_id a)) "Wi-Fi Direct lifecycle requires a concrete run_id" +++
  validate_harness (wa_harness a) +++
  wifi_validate_topology (wa_topology a) (wa_peer_class a) +++
  wifi_validate_device (wa_device a) +++
  wifi_validate_host (wa_host a) (default (wa_peer_class a) expected_peer) +++
  wifi_validate_lease (wa_lease a) (wa_device a) +++
  validate_lifecycle_phases (wa_lifecycle a) (wa_probe_id a).

Definition validate_wifi_direct_lifecycle_artifact (a : WifiDirectLifecycleArtifact)
    : result (list ValidationError) unit :=
  match wifi_artifact_errors a with [] => Ok tt | errors => Err errors end.

(** ** The product run *)

Definition PRODUCT_WIFI_DIRECT_RUN_SCHEMA : string := "rusty.quest.product_wifi_direct_run.v1".
Definition ANDROID_WIFI_DIRECT_TOPOLOGY_AUTHORITY : string := "android_wifi_direct_topology_provider".
Definition ANDROID_NETWORK_BINDING_AUTHORITY : string := "android_network_binding_provider".
Definition RUST_DIRECT_SOCKET_PROVIDER : string := "rust_direct_socket_provider".
Definition BOUNDED_CONTROL_EXCHANGE : string := "bounded_control_exchange".

Record ProductTopologyReceipt := mkTopologyReceipt {
  pt_authority : string;
  pt_group_formed : bool;
  pt_local_role : string;
  pt_group_owner_host : string;
  pt_socket_creation_claimed : bool;
}.

Record AndroidNetworkBindingReceipt := mkNetworkBinding {
  nb_authority : string;
  nb_network_available : bool;
  nb_network_handle : N;
  nb_interface_name : string;
  nb_local_host : string;
  nb_route_matches_group_owner : bool;
  nb_socket_creation_claimed : bool;
}.

Record RustDirectSocketReceipt := mkSocketReceipt {
  sr_authority : string;
  sr_local_bind_host : string;
  sr_peer_host : string;
  sr_peer_port : N;
  sr_local_bind_applied : bool;
  sr_closed : bool;
  sr_observed_android_network_handle : N;
  sr_android_network_substituted_socket_authority : bool;
}.

Record BoundedExchangeReceipt := mkExchangeReceipt {
  ex_exchange_kind : string;
  ex_payload_class : string;
  ex_messages_sent : N;
  ex_messages_received : N;
  ex_bytes_sent : N;
  ex_bytes_received : N;
  ex_bounded : bool;
}.

Record ProductCleanupReceipt := mkCleanupReceipt {
  cr_discovery_stopped : bool;
  cr_group_removed : bool;
  cr_socket_closed : bool;
}.

Record ProductWifiDirectRunReceipt := mkRunReceipt {
  rr_schema : string;
  rr_run_id : string;
  rr_product_package : string;
  rr_role : string;
  rr_topology : ProductTopologyReceipt;
  rr_network_binding : AndroidNetworkBindingReceipt;
  rr_socket : RustDirectSocketReceipt;
  rr_exchange : BoundedExchangeReceipt;
  rr_cleanup : ProductCleanupReceipt;
}.

(** One of the four addresses of a run. *)
Definition run_host_errors (field value : string) : list ValidationError :=
  push_if (negb match parse_ipv4 value with Some address => is_supported_direct_p2p_ipv4 address | None => false end)
    ("product Wi-Fi Direct " ++ field ++ " must be a supported P2P IPv4 address").

Definition product_run_errors (r : ProductWifiDirectRunReceipt) : list ValidationError :=
  let lower_identity := to_ascii_lowercase (rr_run_id r ++ " " ++ rr_product_package r) in
  let t := rr_topology r in let n := rr_network_binding r in let s := rr_socket r in
  let e := rr_exchange r in let c := rr_cleanup r in
  push_if (negb (rr_schema r =? PRODUCT_WIFI_DIRECT_RUN_SCHEMA)%string) "product Wi-Fi Direct schema is unsupported" +++
  push_if (is_blank (rr_run_id r) || is_blank (rr_product_package r)) "product Wi-Fi Direct run identity is required" +++
  push_if (contains_str "qcl" lower_identity || contains_str "harness" lower_identity)
    "product Wi-Fi Direct receipts must not use QCL or harness identity" +++
  push_if (negb (one_of (rr_role r) ["group_owner"; "client"])) "product Wi-Fi Direct role is unsupported" +++
  push_if (negb (pt_authority t =? ANDROID_WIFI_DIRECT_TOPOLOGY_AUTHORITY)%string)
    "topology must use the Android Wi-Fi Direct authority" +++
  push_if (negb (pt_group_formed t) || pt_socket_creation_claimed t)
    "topology must prove group formation without claiming socket creation" +++
  push_if (negb (pt_local_role t =? rr_role r)%string) "topology role must match the run role" +++
  push_if (negb (nb_authority n =? ANDROID_NETWORK_BINDING_AUTHORITY)%string)
    "network binding must use the Android Network authority" +++
  push_if (negb (nb_interface_name n =? QUEST_DIRECT_P2P_INTERFACE)%string)
    "product network binding must select p2p0" +++
  push_if ((nb_network_available n && (nb_network_handle n =? 0)) ||
           (negb (nb_network_available n) && negb (nb_network_handle n =? 0)) ||
           negb (nb_route_matches_group_owner n) || nb_socket_creation_claimed n)
    "Android Network evidence must truthfully report availability without claiming socket creation" +++
  push_if (negb (sr_authority s =? RUST_DIRECT_SOCKET_PROVIDER)%string || negb (sr_local_bind_applied s) ||
           negb (sr_closed s) || sr_android_network_substituted_socket_authority s)
    "Rust must own local bind, socket close, and socket authority" +++
  push_if (negb (sr_observed_android_network_handle s =? nb_network_handle n))
    "Rust socket correlation handle must match Android Network evidence" +++
  run_host_errors "group_owner_host" (pt_group_owner_host t) +++
  run_host_errors "network local_host" (nb_local_host n) +++
  run_host_errors "socket local_bind_host" (sr_local_bind_host s) +++
  run_host_errors "socket peer_host" (sr_peer_host s) +++
  push_if (negb (nb_local_host n =? sr_local_bind_host s)%string)
    "Rust local bind must match the Android p2p0 local address" +++
  push_if (negb (ex_exchange_kind e =? BOUNDED_CONTROL_EXCHANGE)%string ||
           negb (ex_payload_class e =? "control_probe")%string || negb (ex_bounded e) ||
           (ex_messages_sent e =? 0) || (ex_messages_received e =? 0) || (ex_bytes_sent e =? 0) ||
           (ex_bytes_received e =? 0) || (4096 <? ex_bytes_sent e) || (4096 <? ex_bytes_received e))
    "product exchange must be a bounded non-media control probe" +++
  push_if (negb (cr_discovery_stopped c) || negb (cr_group_removed c) || negb (cr_socket_closed c))
    "product Wi-Fi Direct cleanup is incomplete".

Definition validate_product_wifi_direct_run (r : ProductWifiDirectRunReceipt) : result (list ValidationError) unit :=
  match product_run_errors r with [] => Ok tt | errors => Err errors end.
