(* ===== verification/DeviceLink.v ===== *)
(** * Device-link reports

    crates/rusty-quest-device-link/src/model.rs and validation.rs: what the host
    observed of a Quest (tools, tunnels, broker endpoints, subscribers, command
    results, stream capabilities), and every validator, with its messages in the
    order the code pushes them. *)

From S2P Require Import Prelude RustStr MediaModel MediaValidation WifiDirect.

Local Open Scope string_scope.
Local Open Scope N_scope.

Local Notation "l +++ k" := (app l k) (at level 60, right associativity).

Definition DEVICE_LINK_SCHEMA : string := "rusty.quest.device_link.v1".
Definition STATUS_WARN : string := "warn".
Definition STATUS_FAIL : string := "fail".
Definition STATUS_SKIPPED : string := "skipped".
Definition ADB_STATE_DEVICE : string := "device".
Definition TRANSPORT_ADB_USB : string := "adb_usb".
Definition TRANSPORT_ADB_WIFI : string := "adb_wifi".
Definition TRANSPORT_ADB_FORWARD : string := "adb_forward".
Definition TRANSPORT_MANIFOLD_WEBSOCKET : string := "manifold_websocket".
Definition TRANSPORT_APP_PRIVATE_JSON : string := "app_private_json".
Definition PROTOCOL_WEBSOCKET : string := "websocket".
Definition MANIFOLD_EVENTS_PATH : string := "/manifold/v1/events".
Definition PAYLOAD_PLANE_JSON_EVENT : string := "json_event".
Definition RATE_CLASS_CONTROL : string := "control".
Definition RATE_CLASS_LOW_RATE : string := "low_rate".
Definition RATE_CLASS_SAMPLE_CLOCKED : string := "sample_clocked".
Definition RATE_CLASS_HIGH_RATE : string := "high_rate".

(** ** Data *)

Record QuestDeviceIdentity := mkIdentity {
  qi_serial : string;
  qi_transport_kind : string;
  qi_adb_state : string;
  qi_model : string;
  qi_product : option string;
  qi_manufacturer : option string;
  qi_android_sdk : option N;
}.

Record HostToolState := mkHostTool {
  ht_tool_id : string;
  ht_kind : string;
  ht_status : string;
  ht_required : bool;
  ht_path : option string;
  ht_version : option string;
}.

Record TunnelState := mkTunnel {
  tn_tunnel_id : string;
  tn_transport_kind : string;
  tn_status : string;
  tn_required : bool;
  tn_host : string;
  tn_local_port : option N;
  tn_device_host : option string;
  tn_device_port : option N;
  tn_path : option string;
}.

Record BrokerEndpointState := mkBrokerEndpoint {
  be_endpoint_id : string;
  be_status : string;
  be_protocol : string;
  be_authority : string;
  be_host : string;
  be_port : N;
  be_path : string;
  be_routed_through_tunnel_id : option string;
  be_command_envelope_schema : string;
  be_high_rate_payload_allowed : bool;
}.

Record RuntimeSubscriberState := mkSubscriber {
  rsb_subscriber_id : string;
  rsb_runtime_app_id : string;
  rsb_request_stream_id : string;
  rsb_receipt_stream_id : string;
  rsb_status : string;
  rsb_receipt_required : bool;
  rsb_last_dispatch_delivered_count : option N;
}.

Record CommandStageObservation := mkStage {
  cso_stage : string;
  cso_status : string;
  cso_evidence_refs : list string;
  cso_issue_codes : list string;
}.

Record CommandResultReport := mkCommandResult {
  crr_result_id : string;
  crr_route_id : string;
  crr_request_id : string;
  crr_command : string;
  crr_transport_kind : string;
  crr_status : string;
  crr_required_stages : list string;
  crr_observed_stages : list CommandStageObservation;
  crr_runtime_receipt_stream : option string;
  crr_runtime_dispatch_delivered_count : option N;
  crr_applied : bool;
}.

Record StreamCapabilityDescriptor := mkCapability {
  scd_capability_id : string;
  scd_stream_id : string;
  scd_semantic_family : string;
  scd_transport_kind : string;
  scd_payload_plane : string;
  scd_rate_class : string;
  scd_reliability : string;
  scd_direction : string;
  scd_clock_policy : string;
  scd_queue_policy : string;
  scd_max_rate_hz : option N;
  scd_high_rate_json_payload : bool;
  scd_recommended_for : list string;
  scd_not_for : list string;
}.

Record DeviceLinkIssue := mkIssue {
  dli_issue_code : string;
  dli_severity : string;
  dli_message : string;
}.

Record DeviceLinkReport := mkReport {
  dl_schema : string;
  dl_link_id : string;
  dl_observed_at_ms : N;
  dl_status : string;
  dl_device_identity : QuestDeviceIdentity;
  dl_host_tools : list HostToolState;
  dl_tunnels : list TunnelState;
  dl_broker_endpoints : list BrokerEndpointState;
  dl_runtime_subscribers : list RuntimeSubscriberState;
  dl_command_results : list CommandResultReport;
  dl_stream_capabilities : list StreamCapabilityDescriptor;
  dl_issues : list DeviceLinkIssue;
}.

(** ** Validators *)

Definition validate_status (label value : string) : list ValidationError :=
  push_if (negb (one_of value [STATUS_PASS; STATUS_WARN; STATUS_FAIL; STATUS_SKIPPED]))
    (label ++ " has unsupported status " ++ value).

Definition validate_device_identity (i : QuestDeviceIdentity) : list ValidationError :=
  validate_required_text "device_identity.serial" (qi_serial i) +++
  validate_required_text "device_identity.transport_kind" (qi_transport_kind i) +++
  validate_required_text "device_identity.adb_state" (qi_adb_state i) +++
  validate_required_text "device_identity.model" (qi_model i) +++
  push_if (negb (one_of (qi_transport_kind i) [TRANSPORT_ADB_USB; TRANSPORT_ADB_WIFI]))
    ("unsupported device_identity transport_kind " ++ qi_transport_kind i).

Definition tool_evidence_errors (t : HostToolState) : list ValidationError :=
  push_if (ht_required t && (ht_status t =? STATUS_PASS)%string &&
           (is_blank (default "" (ht_path t)) && is_blank (default "" (ht_version t))))
    ("required host tool " ++ ht_tool_id t ++ " must include path or version evidence").

Definition validate_host_tools (tools : list HostToolState) : list ValidationError :=
  unique_by ht_tool_id
    (fun t => validate_required_text "host_tool.tool_id" (ht_tool_id t) +++
              validate_required_text "host_tool.kind" (ht_kind t) +++
              validate_status "host_tool.status" (ht_status t))
    (fun t => "duplicate host tool " ++ ht_tool_id t) tool_evidence_errors ∅ tools.

(** A forward that can be used: both ports are given and nonzero. *)
Definition forward_ports (t : TunnelState) : option N :=
  match tn_local_port t, tn_device_port t with
  | Some local, Some device => if (0 <? local) && (0 <? device) then Some local else None
  | _, _ => None
  end.

Definition binding_errors (local_bindings : gset (string * N)) (t : TunnelState)
    : list ValidationError * gset (string * N) :=
  if negb (tn_transport_kind t =? TRANSPORT_ADB_FORWARD)%string
  then (["unsupported tunnel transport_kind " ++ tn_transport_kind t], local_bindings)
  else match forward_ports t with
  | Some local =>
      (push_if (bool_decide ((tn_host t, local) ∈ local_bindings))
         ("duplicate local tunnel binding " ++ tn_host t ++ ":" ++ fmt_decimal local),
       {[(tn_host t, local)]} ∪ local_bindings)
  | None =>
      (["ADB forward tunnel " ++ tn_tunnel_id t ++ " requires nonzero local_port and device_port"], local_bindings)
  end.

(** The loop, and the identifiers it collected. *)
Fixpoint validate_tunnels (ids : gset string) (local_bindings : gset (string * N)) (tunnels : list TunnelState)
    : list ValidationError * gset string :=
  match tunnels with
  | [] => ([], ids)
  | t :: rest =>
      let '(errors, local_bindings) := binding_errors local_bindings t in
      let '(errors', ids') := validate_tunnels ({[tn_tunnel_id t]} ∪ ids) local_bindings rest in
      (validate_required_text "tunnel.tunnel_id" (tn_tunnel_id t) +++
       validate_required_text "tunnel.transport_kind" (tn_transport_kind t) +++
       validate_status "tunnel.status" (tn_status t) +++
       validate_required_text "tunnel.host" (tn_host t) +++
       push_if (bool_decide (tn_tunnel_id t ∈ ids)) ("duplicate tunnel_id " ++ tn_tunnel_id t) +++
       errors +++ errors', ids')
  end.

Definition endpoint_rule_errors (tunnel_ids : gset string) (e : BrokerEndpointState) : list ValidationError :=
  push_if (negb (be_protocol e =? PROTOCOL_WEBSOCKET)%string)
    ("broker endpoint " ++ be_endpoint_id e ++ " must use websocket protocol") +++
  push_if (negb (be_path e =? MANIFOLD_EVENTS_PATH)%string)
    ("broker endpoint " ++ be_endpoint_id e ++ " must use " ++ MANIFOLD_EVENTS_PATH) +++
  push_if (be_port e =? 0) ("broker endpoint " ++ be_endpoint_id e ++ " port must be nonzero") +++
  match be_routed_through_tunnel_id e with
  | Some tunnel_id =>
      push_if (bool_decide (tunnel_id ∉ tunnel_ids))
        ("broker endpoint " ++ be_endpoint_id e ++ " references unknown tunnel " ++ tunnel_id)
  | None => []
  end +++
  push_if (be_high_rate_payload_allowed e)
    ("broker endpoint " ++ be_endpoint_id e ++ " must not allow high-rate payloads").

Definition validate_broker_endpoints (endpoints : list BrokerEndpointState) (tunnel_ids : gset string)
    : list ValidationError :=
  unique_by be_endpoint_id
    (fun e => validate_required_text "broker_endpoint.endpoint_id" (be_endpoint_id e) +++
              validate_status "broker_endpoint.status" (be_status e) +++
              validate_required_text "broker_endpoint.protocol" (be_protocol e) +++
              validate_required_text "broker_endpoint.authority" (be_authority e) +++
              validate_required_text "broker_endpoint.host" (be_host e) +++
              validate_required_text "broker_endpoint.path" (be_path e) +++
              validate_required_text "broker_endpoint.command_envelope_schema" (be_command_envelope_schema e))
    (fun e => "duplicate broker endpoint " ++ be_endpoint_id e) (endpoint_rule_errors tunnel_ids) ∅ endpoints.

Definition validate_runtime_subscribers (subscribers : list RuntimeSubscriberState) : list ValidationError :=
  unique_by rsb_subscriber_id
    (fun s => validate_required_text "runtime_subscriber.subscriber_id" (rsb_subscriber_id s) +++
              validate_required_text "runtime_subscriber.runtime_app_id" (rsb_runtime_app_id s) +++
              validate_required_text "runtime_subscriber.request_stream_id" (rsb_request_stream_id s) +++
              validate_required_text "runtime_subscriber.receipt_stream_id" (rsb_receipt_stream_id s) +++
              push_if (negb (one_of (rsb_status s) ["connected"; "missing"; "unknown"; STATUS_SKIPPED]))
                ("runtime subscriber " ++ rsb_subscriber_id s ++ " has unsupported status " ++ rsb_status s))
    (fun s => "duplicate runtime subscriber " ++ rsb_subscriber_id s)
    (fun s => push_if (rsb_receipt_required s && (rsb_status s =? "connected")%string &&
                       (default 0 (rsb_last_dispatch_delivered_count s) =? 0))
       ("runtime subscriber " ++ rsb_subscriber_id s ++ " is connected but has no delivered dispatch evidence"))
    ∅ subscribers.

(** The stages observed with status pass. *)
Definition passed_stages (r : CommandResultReport) : gset string :=
  list_to_set (cso_stage <$> filter (fun s => cso_status s = STATUS_PASS) (crr_observed_stages r)).

Definition result_rule_errors (r : CommandResultReport) : list ValidationError :=
  let id := crr_result_id r in
  push_if (bool_decide (crr_required_stages r = [])) ("command result " ++ id ++ " required_stages must not be empty") +++
  push_if ((crr_transport_kind r =? TRANSPORT_APP_PRIVATE_JSON)%string &&
           existsb (fun s => s =? "authority_accepted")%string (crr_required_stages r))
    ("command result " ++ id ++ " cannot claim Manifold authority over app-private JSON") +++
  (if (crr_status r =? STATUS_PASS)%string || crr_applied r then
     flat_map (fun required => push_if (bool_decide (required ∉ passed_stages r))
       ("command result " ++ id ++ " missing passing required stage " ++ required)) (crr_required_stages r)
   else []) +++
  push_if (crr_applied r && bool_decide ("runtime_accepted" ∉ passed_stages r))
    ("command result " ++ id ++ " cannot be applied without runtime_accepted") +++
  push_if (crr_applied r && bool_decide ("applied" ∉ passed_stages r))
    ("command result " ++ id ++ " cannot be applied without applied stage evidence") +++
  push_if (crr_applied r && (default 0 (crr_runtime_dispatch_delivered_count r) =? 0))
    ("command result " ++ id ++ " requires nonzero runtime_dispatch_delivered_count") +++
  push_if ((crr_transport_kind r =? TRANSPORT_MANIFOLD_WEBSOCKET)%string &&
           existsb (fun s => s =? "runtime_accepted")%string (crr_required_stages r) &&
           is_blank (default "" (crr_runtime_receipt_stream r)))
    ("command result " ++ id ++ " requires runtime_receipt_stream").

Definition validate_command_results (results : list CommandResultReport) : list ValidationError :=
  unique_by crr_result_id
    (fun r => validate_required_text "command_result.result_id" (crr_result_id r) +++
              validate_required_text "command_result.route_id" (crr_route_id r) +++
              validate_required_text "command_result.request_id" (crr_request_id r) +++
              validate_required_text "command_result.command" (crr_command r) +++
              validate_required_text "command_result.transport_kind" (crr_transport_kind r) +++
              validate_status "command_result.status" (crr_status r))
    (fun r => "duplicate command result " ++ crr_result_id r) result_rule_errors ∅ results.

Definition capability_rule_errors (c : StreamCapabilityDescriptor) : list ValidationError :=
  let id := scd_capability_id c in
  push_if (negb (one_of (scd_rate_class c)
            [RATE_CLASS_CONTROL; RATE_CLASS_LOW_RATE; RATE_CLASS_SAMPLE_CLOCKED; RATE_CLASS_HIGH_RATE]))
    ("stream capability " ++ id ++ " has unsupported rate_class " ++ scd_rate_class c) +++
  push_if (one_of (scd_rate_class c) [RATE_CLASS_SAMPLE_CLOCKED; RATE_CLASS_HIGH_RATE] && scd_high_rate_json_payload c)
    ("stream capability " ++ id ++ " must not carry high-rate payloads as JSON") +++
  push_if ((scd_rate_class c =? RATE_CLASS_HIGH_RATE)%string && (scd_payload_plane c =? PAYLOAD_PLANE_JSON_EVENT)%string)
    ("stream capability " ++ id ++ " high-rate streams require a non-JSON payload plane") +++
  push_if ((scd_transport_kind c =? TRANSPORT_MANIFOLD_WEBSOCKET)%string &&
           negb (scd_rate_class c =? RATE_CLASS_CONTROL)%string && (scd_payload_plane c =? PAYLOAD_PLANE_JSON_EVENT)%string)
    ("stream capability " ++ id ++ " uses Manifold WebSocket JSON outside control-rate traffic").

Definition validate_stream_capabilities (capabilities : list StreamCapabilityDescriptor) : list ValidationError :=
  unique_by scd_capability_id
    (fun c => validate_required_text "stream_capability.capability_id" (scd_capability_id c) +++
              validate_required_text "stream_capability.stream_id" (scd_stream_id c) +++
              validate_required_text "stream_capability.semantic_family" (scd_semantic_family c) +++
              validate_required_text "stream_capability.transport_kind" (scd_transport_kind c) +++
              validate_required_text "stream_capability.payload_plane" (scd_payload_plane c) +++
              validate_required_text "stream_capability.rate_class" (scd_rate_class c) +++
              validate_required_text "stream_capability.reliability" (scd_reliability c) +++
              validate_required_text "stream_capability.direction" (scd_direction c) +++
              validate_required_text "stream_capability.clock_policy" (scd_clock_policy c) +++
              validate_required_text "stream_capability.queue_policy" (scd_queue_policy c))
    (fun c => "duplicate stream capability " ++ scd_capability_id c) capability_rule_errors ∅ capabilities.

Definition validate_issues (issues : list DeviceLinkIssue) : list ValidationError :=
  flat_map (fun i =>
    validate_required_text "issue.issue_code" (dli_issue_code i) +++
    validate_required_text "issue.message" (dli_message i) +++
    push_if (negb (one_of (dli_severity i) ["info"; "warning"; "error"]))
      ("issue " ++ dli_issue_code i ++ " has unsupported severity " ++ dli_severity i)) issues.

Definition required_fail_count {A} (required : A → bool) (status : A → string) (rows : list A) : nat :=
  length (filter (fun row => required row = true ∧ status row = STATUS_FAIL) rows).

Definition blocking_failures (r : DeviceLinkReport) : nat :=
  (required_fail_count ht_required ht_status (dl_host_tools r) +
   required_fail_count tn_required tn_status (dl_tunnels r) +
   length (filter (fun e => be_status e = STATUS_FAIL) (dl_broker_endpoints r)) +
   length (filter (fun c => crr_status c = STATUS_FAIL) (dl_command_results r)) +
   length (filter (fun i => dli_severity i = "error") (dl_issues r)))%nat.

Definition validate_report_status_coherence (r : DeviceLinkReport) : list ValidationError :=
  push_if ((dl_status r =? STATUS_PASS)%string && (0 <? blocking_failures r)%nat)
    "device-link report status pass conflicts with blocking failures" +++
  push_if ((dl_status r =? STATUS_PASS)%string && negb (qi_adb_state (dl_device_identity r) =? ADB_STATE_DEVICE)%string)
    "device-link report status pass requires adb_state=device".

Definition device_link_errors (r : DeviceLinkReport) : list ValidationError :=
  let '(tunnel_errors, tunnel_ids) := validate_tunnels ∅ ∅ (dl_tunnels r) in
  validate_required_text "schema" (dl_schema r) +++
  validate_required_text "link_id" (dl_link_id r) +++
  validate_status "status" (dl_status r) +++
  push_if (negb (dl_schema r =? DEVICE_LINK_SCHEMA)%string) ("unsupported device-link schema " ++ dl_schema r) +++
  push_if (dl_observed_at_ms r =? 0) "observed_at_ms must be nonzero" +++
  validate_device_identity (dl_device_identity r) +++
  validate_host_tools (dl_host_tools r) +++
  tunnel_errors +++
  validate_broker_endpoints (dl_broker_endpoints r) tunnel_ids +++
  validate_runtime_subscribers (dl_runtime_subscribers r) +++
  validate_command_results (dl_command_results r) +++
  validate_stream_capabilities (dl_stream_capabilities r) +++
  validate_issues (dl_issues r) +++
  validate_report_status_coherence r.

Definition validate_device_link_report (r : DeviceLinkReport) : result (list ValidationError) unit :=
  match device_link_errors r with [] => Ok tt | errors => Err errors end.
