(* ===== verification/DeviceLinkTheorems.v ===== *)
(** * What device-link evidence promises

    Declarative specifications of a device-link report, of a Wi-Fi Direct
    lifecycle artifact and of a product run, and that the validators decide
    them. *)

From Stdlib Require Import ZArith.
From S2P Require Import Prelude RustStr MediaModel MediaValidation MediaSpec P2pRoute BleRendezvous BleTheorems WifiDirect.
From S2P Require Import DeviceLink.

Local Open Scope string_scope.
Local Open Scope N_scope.

(** ** Reports *)

Definition link_status (s : string) : Prop := s ∈ [STATUS_PASS; STATUS_WARN; STATUS_FAIL; STATUS_SKIPPED].

Lemma status_nil label v : validate_status label v = [] ↔ link_status v.
Proof. unfold validate_status. by rewrite push_if_nil, not_one_of. Qed.

Definition identity_wf (i : QuestDeviceIdentity) : Prop :=
  nonblank (qi_serial i) ∧ nonblank (qi_adb_state i) ∧ nonblank (qi_model i) ∧
  qi_transport_kind i ∈ [TRANSPORT_ADB_USB; TRANSPORT_ADB_WIFI].

Definition tool_wf (t : HostToolState) : Prop :=
  nonblank (ht_tool_id t) ∧ nonblank (ht_kind t) ∧ link_status (ht_status t) ∧
  (ht_required t = true → ht_status t = STATUS_PASS →
   nonblank (default "" (ht_path t)) ∨ nonblank (default "" (ht_version t))).

Definition tunnel_wf (t : TunnelState) : Prop :=
  nonblank (tn_tunnel_id t) ∧ link_status (tn_status t) ∧ nonblank (tn_host t) ∧
  tn_transport_kind t = TRANSPORT_ADB_FORWARD ∧
  ∃ local device, tn_local_port t = Some local ∧ tn_device_port t = Some device ∧ 0 < local ∧ 0 < device.

(** Where the tunnel listens on the host. *)
Definition tunnel_binding (t : TunnelState) : string * N := (tn_host t, default 0 (tn_local_port t)).

Definition broker_endpoint_wf (tunnels : list TunnelState) (e : BrokerEndpointState) : Prop :=
  nonblank (be_endpoint_id e) ∧ link_status (be_status e) ∧ nonblank (be_authority e) ∧ nonblank (be_host e) ∧
  nonblank (be_command_envelope_schema e) ∧ be_protocol e = PROTOCOL_WEBSOCKET ∧ be_path e = MANIFOLD_EVENTS_PATH ∧
  be_port e ≠ 0 ∧ be_high_rate_payload_allowed e = false ∧
  ∀ id, be_routed_through_tunnel_id e = Some id → id ∈ tn_tunnel_id <$> tunnels.

Definition subscriber_wf (s : RuntimeSubscriberState) : Prop :=
  nonblank (rsb_subscriber_id s) ∧ nonblank (rsb_runtime_app_id s) ∧ nonblank (rsb_request_stream_id s) ∧
  nonblank (rsb_receipt_stream_id s) ∧ rsb_status s ∈ ["connected"; "missing"; "unknown"; STATUS_SKIPPED] ∧
  (rsb_receipt_required s = true → rsb_status s = "connected" → default 0 (rsb_last_dispatch_delivered_count s) ≠ 0).

(** A stage was observed to pass. *)
Definition stage_passed (r : CommandResultReport) (stage : string) : Prop :=
  ∃ o, o ∈ crr_observed_stages r ∧ cso_stage o = stage ∧ cso_status o = STATUS_PASS.

Record command_result_wf (r : CommandResultReport) : Prop := {
  cw_names : nonblank (crr_result_id r) ∧ nonblank (crr_route_id r) ∧ nonblank (crr_request_id r) ∧
    nonblank (crr_command r) ∧ nonblank (crr_transport_kind r) ∧ link_status (crr_status r);
  cw_required : crr_required_stages r ≠ [];
  cw_private : crr_transport_kind r = TRANSPORT_APP_PRIVATE_JSON → "authority_accepted" ∉ crr_required_stages r;
  cw_passed : crr_status r = STATUS_PASS ∨ crr_applied r = true →
    ∀ stage, stage ∈ crr_required_stages r → stage_passed r stage;
  cw_applied : crr_applied r = true →
    stage_passed r "runtime_accepted" ∧ stage_passed r "applied" ∧ default 0 (crr_runtime_dispatch_delivered_count r) ≠ 0;
  cw_receipt : crr_transport_kind r = TRANSPORT_MANIFOLD_WEBSOCKET → "runtime_accepted" ∈ crr_required_stages r →
    nonblank (default "" (crr_runtime_receipt_stream r));
}.

Record capability_wf (c : StreamCapabilityDescriptor) : Prop := {
  kw_names : nonblank (scd_capability_id c) ∧ nonblank (scd_stream_id c) ∧ nonblank (scd_semantic_family c) ∧
    nonblank (scd_transport_kind c) ∧ nonblank (scd_payload_plane c) ∧ nonblank (scd_reliability c) ∧
    nonblank (scd_direction c) ∧ nonblank (scd_clock_policy c) ∧ nonblank (scd_queue_policy c);
  kw_rate : scd_rate_class c ∈ [RATE_CLASS_CONTROL; RATE_CLASS_LOW_RATE; RATE_CLASS_SAMPLE_CLOCKED; RATE_CLASS_HIGH_RATE];
  (** no high rate in JSON *)
  kw_json : scd_rate_class c ∈ [RATE_CLASS_SAMPLE_CLOCKED; RATE_CLASS_HIGH_RATE] → scd_high_rate_json_payload c = false;
  kw_plane : scd_rate_class c = RATE_CLASS_HIGH_RATE → scd_payload_plane c ≠ PAYLOAD_PLANE_JSON_EVENT;
  kw_websocket : scd_transport_kind c = TRANSPORT_MANIFOLD_WEBSOCKET → scd_payload_plane c = PAYLOAD_PLANE_JSON_EVENT →
    scd_rate_class c = RATE_CLASS_CONTROL;
}.

Definition issue_wf (i : DeviceLinkIssue) : Prop :=
  nonblank (dli_issue_code i) ∧ nonblank (dli_message i) ∧ dli_severity i ∈ ["info"; "warning"; "error"].

(** Nothing that is required failed. *)
Definition nothing_failed (r : DeviceLinkReport) : Prop :=
  (∀ t, t ∈ dl_host_tools r → ht_required t = true → ht_status t ≠ STATUS_FAIL) ∧
  (∀ t, t ∈ dl_tunnels r → tn_required t = true → tn_status t ≠ STATUS_FAIL) ∧
  (∀ e, e ∈ dl_broker_endpoints r → be_status e ≠ STATUS_FAIL) ∧
  (∀ c, c ∈ dl_command_results r → crr_status c ≠ STATUS_FAIL) ∧
  (∀ i, i ∈ dl_issues r → dli_severity i ≠ "error").

Record report_wf (r : DeviceLinkReport) : Prop := {
  rw_header : dl_schema r = DEVICE_LINK_SCHEMA ∧ nonblank (dl_link_id r) ∧ link_status (dl_status r) ∧
    dl_observed_at_ms r ≠ 0;
  rw_identity : identity_wf (dl_device_identity r);
  rw_tools : NoDup (ht_tool_id <$> dl_host_tools r) ∧ Forall tool_wf (dl_host_tools r);
  rw_tunnels : NoDup (tn_tunnel_id <$> dl_tunnels r) ∧ NoDup (tunnel_binding <$> dl_tunnels r) ∧
    Forall tunnel_wf (dl_tunnels r);
  rw_endpoints : NoDup (be_endpoint_id <$> dl_broker_endpoints r) ∧
    Forall (broker_endpoint_wf (dl_tunnels r)) (dl_broker_endpoints r);
  rw_subscribers : NoDup (rsb_subscriber_id <$> dl_runtime_subscribers r) ∧
    Forall subscriber_wf (dl_runtime_subscribers r);
  rw_results : NoDup (crr_result_id <$> dl_command_results r) ∧ Forall command_result_wf (dl_command_results r);
  rw_capabilities : NoDup (scd_capability_id <$> dl_stream_capabilities r) ∧
    Forall capability_wf (dl_stream_capabilities r);
  rw_issues : Forall issue_wf (dl_issues r);
  rw_pass : dl_status r = STATUS_PASS → nothing_failed r ∧ qi_adb_state (dl_device_identity r) = ADB_STATE_DEVICE;
}.

(** ** The validators decide it *)

(** A guard that pushes when the premises hold and the conclusion fails. *)
Lemma guard_false (a b : bool) : a && b = false ↔ (a = true → b = false).
Proof. destruct a, b; naive_solver. Qed.

Lemma guard_eq_false (a c : string) (b : bool) : (a =? c)%string && b = false ↔ (a = c → b = false).
Proof. rewrite guard_false. by rewrite String.eqb_eq. Qed.

Lemma unique_nil {A} (key : A → string) before dup after (P : A → Prop) l :
  (∀ x, before x = [] ∧ after x = [] ↔ P x) →
  unique_by key before dup after ∅ l = [] ↔ NoDup (key <$> l) ∧ Forall P l.
Proof.
  intros HP. rewrite unique_by_nil.
  assert (Forall (λ x, before x = [] ∧ after x = []) l ↔ Forall P l) as -> by (apply Forall_iff; done).
  assert (Forall (λ x, key x ∉ (∅ : gset string)) l) by (apply Forall_true; set_solver). tauto.
Qed.

Lemma identity_nil i : validate_device_identity i = [] ↔ identity_wf i.
Proof.
  unfold validate_device_identity, identity_wf. errors_to_prop. note_nonblank (qi_transport_kind i). tauto.
Qed.

Lemma tools_nil l : validate_host_tools l = [] ↔ NoDup (ht_tool_id <$> l) ∧ Forall tool_wf l.
Proof.
  apply unique_nil. intros t. unfold tool_evidence_errors, tool_wf. rewrite !app_nil_iff, !required_nil, status_nil, push_if_nil.
  rewrite guard_false, andb_true_iff, String.eqb_eq, andb_false_iff. unfold nonblank. tauto.
Qed.

Lemma broker_endpoints_nil tunnels l :
  validate_broker_endpoints l (list_to_set (tn_tunnel_id <$> tunnels)) = [] ↔
  NoDup (be_endpoint_id <$> l) ∧ Forall (broker_endpoint_wf tunnels) l.
Proof.
  apply unique_nil. intros e. unfold endpoint_rule_errors, broker_endpoint_wf.
  rewrite !app_nil_iff, !required_nil, status_nil, !push_if_nil, !negb_false_iff, !String.eqb_eq, N.eqb_neq.
  assert (Hroute : match be_routed_through_tunnel_id e with
      | Some tunnel_id => push_if (bool_decide (tunnel_id ∉ (list_to_set (tn_tunnel_id <$> tunnels) : gset string)))
          ("broker endpoint " ++ be_endpoint_id e ++ " references unknown tunnel " ++ tunnel_id)
      | None => [] end = [] ↔ ∀ id, be_routed_through_tunnel_id e = Some id → id ∈ tn_tunnel_id <$> tunnels).
  { destruct (be_routed_through_tunnel_id e) as [id|]; [|naive_solver].
    rewrite push_if_nil, bool_decide_eq_false, elem_of_list_to_set. split.
    - intros H id' [= <-]. by apply dec_stable.
    - intros H Hn. by apply Hn, H. }
  rewrite Hroute. assert (be_protocol e = PROTOCOL_WEBSOCKET → nonblank (be_protocol e)) by (by intros ->).
  assert (be_path e = MANIFOLD_EVENTS_PATH → nonblank (be_path e)) by (by intros ->). tauto.
Qed.

Lemma subscribers_nil l :
  validate_runtime_subscribers l = [] ↔ NoDup (rsb_subscriber_id <$> l) ∧ Forall subscriber_wf l.
Proof.
  apply unique_nil. intros s. unfold subscriber_wf. errors_to_prop. rewrite guard_false, andb_true_iff, String.eqb_eq, N.eqb_neq.
  tauto.
Qed.

Lemma elem_of_passed r stage : stage ∈ passed_stages r ↔ stage_passed r stage.
Proof.
  unfold passed_stages, stage_passed. rewrite elem_of_list_to_set, list_elem_of_fmap.
  setoid_rewrite list_elem_of_filter. naive_solver.
Qed.

Lemma passed_dec r stage : bool_decide (stage ∉ passed_stages r) = false ↔ stage_passed r stage.
Proof. rewrite bool_decide_eq_false, elem_of_passed. split; [|tauto]. intros H. rewrite <- elem_of_passed in *. by apply dec_stable. Qed.

Lemma existsb_text s l : existsb (fun x => x =? s)%string l = false ↔ s ∉ l.
Proof.
  rewrite <- not_true_iff_false, existsb_elem_of. setoid_rewrite String.eqb_eq. naive_solver.
Qed.

Lemma existsb_text_true s l : existsb (fun x => x =? s)%string l = true ↔ s ∈ l.
Proof. rewrite existsb_elem_of. setoid_rewrite String.eqb_eq. naive_solver. Qed.

(** What the rules of a command result say. *)
Lemma result_rules_nil r :
  result_rule_errors r = [] ↔
  crr_required_stages r ≠ [] ∧
  (crr_transport_kind r = TRANSPORT_APP_PRIVATE_JSON → "authority_accepted" ∉ crr_required_stages r) ∧
  (crr_status r = STATUS_PASS ∨ crr_applied r = true → ∀ stage, stage ∈ crr_required_stages r → stage_passed r stage) ∧
  (crr_applied r = true →
     stage_passed r "runtime_accepted" ∧ stage_passed r "applied" ∧ default 0 (crr_runtime_dispatch_delivered_count r) ≠ 0) ∧
  (crr_transport_kind r = TRANSPORT_MANIFOLD_WEBSOCKET → "runtime_accepted" ∈ crr_required_stages r →
     nonblank (default "" (crr_runtime_receipt_stream r))).
Proof.
  unfold result_rule_errors.
  assert (Hstages : (if (crr_status r =? STATUS_PASS)%string || crr_applied r
      then flat_map (λ required, push_if (bool_decide (required ∉ passed_stages r))
             ("command result " ++ crr_result_id r ++ " missing passing required stage " ++ required)) (crr_required_stages r)
      else []) = [] ↔
    (crr_status r = STATUS_PASS ∨ crr_applied r = true → ∀ stage, stage ∈ crr_required_stages r → stage_passed r stage)).
  { rewrite <- String.eqb_eq, <- orb_true_iff. destruct (_ || _); [|naive_solver]. rewrite flat_map_nil.
    setoid_rewrite push_if_nil. setoid_rewrite passed_dec. naive_solver. }
  rewrite !app_nil_iff, Hstages, !push_if_nil, !guard_false, !passed_dec, bool_decide_eq_false, !andb_true_iff, !String.eqb_eq,
    N.eqb_neq, existsb_text, existsb_text_true. unfold nonblank. tauto.
Qed.

Lemma results_nil l :
  validate_command_results l = [] ↔ NoDup (crr_result_id <$> l) ∧ Forall command_result_wf l.
Proof.
  apply unique_nil. intros r. rewrite result_rules_nil, !app_nil_iff, !required_nil, status_nil. split.
  - intros [? (? & ? & ? & ? & ?)]. by constructor.
  - intros []. tauto.
Qed.

Lemma capability_rules_nil c :
  capability_rule_errors c = [] ↔
  scd_rate_class c ∈ [RATE_CLASS_CONTROL; RATE_CLASS_LOW_RATE; RATE_CLASS_SAMPLE_CLOCKED; RATE_CLASS_HIGH_RATE] ∧
  (scd_rate_class c ∈ [RATE_CLASS_SAMPLE_CLOCKED; RATE_CLASS_HIGH_RATE] → scd_high_rate_json_payload c = false) ∧
  (scd_rate_class c = RATE_CLASS_HIGH_RATE → scd_payload_plane c ≠ PAYLOAD_PLANE_JSON_EVENT) ∧
  (scd_transport_kind c = TRANSPORT_MANIFOLD_WEBSOCKET → scd_payload_plane c = PAYLOAD_PLANE_JSON_EVENT →
     scd_rate_class c = RATE_CLASS_CONTROL).
Proof.
  unfold capability_rule_errors. rewrite !app_nil_iff, !push_if_nil, not_one_of, !guard_false, one_of_true, !andb_true_iff,
    !negb_true_iff, !String.eqb_eq, !String.eqb_neq.
  destruct (String.eqb_spec (scd_rate_class c) RATE_CLASS_CONTROL); naive_solver.
Qed.

Lemma capabilities_nil l :
  validate_stream_capabilities l = [] ↔ NoDup (scd_capability_id <$> l) ∧ Forall capability_wf l.
Proof.
  apply unique_nil. intros c. rewrite capability_rules_nil, !app_nil_iff, !required_nil.
  note_nonblank (scd_rate_class c). split.
  - intros [? (? & ? & ? & ?)]. constructor; tauto.
  - intros []. tauto.
Qed.

Lemma issues_nil l : validate_issues l = [] ↔ Forall issue_wf l.
Proof.
  unfold validate_issues. rewrite flat_map_nil, Forall_forall. apply forall_proper. intros i. unfold issue_wf.
  by errors_to_prop.
Qed.

(** ** Tunnels *)

Lemma forward_ports_iff t local :
  forward_ports t = Some local ↔
  tn_local_port t = Some local ∧ 0 < local ∧ ∃ device, tn_device_port t = Some device ∧ 0 < device.
Proof.
  unfold forward_ports. destruct (tn_local_port t) as [l|], (tn_device_port t) as [d|]; try naive_solver.
  split.
  - destruct (_ && _) eqn:E; [|done]. intros [= <-]. bool_to_prop. naive_solver.
  - intros ([= ->] & Hl & d' & [= ->] & Hd). by rewrite (proj2 (N.ltb_lt 0 local)), (proj2 (N.ltb_lt 0 d')).
Qed.

Lemma forward_binding_nil bindings t errors bindings' :
  binding_errors bindings t = (errors, bindings') →
  errors = [] ↔ tn_transport_kind t = TRANSPORT_ADB_FORWARD ∧
    (∃ local device, tn_local_port t = Some local ∧ tn_device_port t = Some device ∧ 0 < local ∧ 0 < device) ∧
    tunnel_binding t ∉ bindings.
Proof.
  unfold binding_errors, tunnel_binding. destruct (String.eqb_spec (tn_transport_kind t) TRANSPORT_ADB_FORWARD) as [Hk|Hk];
    cbn [negb]; [|intros [= <- <-]; naive_solver].
  destruct (forward_ports t) as [local|] eqn:Ep; intros [= <- <-].
  - apply forward_ports_iff in Ep as (El & Hl & d & Ed & Hd). rewrite push_if_nil, bool_decide_eq_false, El. cbn. naive_solver.
  - split; [done|]. intros (_ & (l & d & El & Ed & Hl & Hd) & _).
    rewrite (proj2 (forward_ports_iff t l)) in Ep; [done|]. naive_solver.
Qed.

Lemma binding_recorded bindings t errors bindings' :
  binding_errors bindings t = (errors, bindings') → errors = [] → bindings' = {[tunnel_binding t]} ∪ bindings.
Proof.
  unfold binding_errors, tunnel_binding. destruct (negb _); [by intros [= <- <-]|].
  destruct (forward_ports t) as [local|] eqn:Ep; intros [= <- <-] E; [|done].
  by apply forward_ports_iff in Ep as (-> & _).
Qed.

Lemma forall_fresh {A K} `{Countable K} (f : A → K) (k : K) (seen : gset K) l :
  Forall (λ x, f x ∉ {[k]} ∪ seen) l ↔ k ∉ f <$> l ∧ Forall (λ x, f x ∉ seen) l.
Proof.
  rewrite !Forall_forall, list_elem_of_fmap. split.
  - intros Hl. split; [intros (x & -> & Hx)|intros x Hx]; specialize (Hl x Hx); set_solver.
  - intros [Hk Hl] x Hx. apply not_elem_of_union. split; [|by apply Hl]. apply not_elem_of_singleton. intros <-. apply Hk. by exists x.
Qed.

Lemma tunnels_nil ids bindings l :
  (validate_tunnels ids bindings l).1 = [] ↔
  Forall tunnel_wf l ∧ (NoDup (tn_tunnel_id <$> l) ∧ Forall (λ t, tn_tunnel_id t ∉ ids) l) ∧
  NoDup (tunnel_binding <$> l) ∧ Forall (λ t, tunnel_binding t ∉ bindings) l.
Proof.
  revert ids bindings. induction l as [|t l IH]; intros ids bindings; cbn [validate_tunnels].
  { split; [repeat constructor|done]. }
  destruct (binding_errors bindings t) as [errors bindings'] eqn:Eb.
  specialize (IH ({[tn_tunnel_id t]} ∪ ids) bindings').
  destruct (validate_tunnels _ bindings' l) as [errors' ids'] eqn:Et. cbn [fst] in *.
  rewrite !fmap_cons, !NoDup_cons, !Forall_cons, !app_nil_iff, !required_nil, status_nil, push_if_nil, bool_decide_eq_false.
  pose proof (forward_binding_nil _ _ _ _ Eb) as Hb. pose proof (binding_recorded _ _ _ _ Eb) as Hr.
  assert (Hk : tn_transport_kind t = TRANSPORT_ADB_FORWARD → nonblank (tn_transport_kind t)) by (by intros ->).
  assert (Hbs : errors = [] → Forall (λ t0, tunnel_binding t0 ∉ bindings') l ↔
    tunnel_binding t ∉ tunnel_binding <$> l ∧ Forall (λ t0, tunnel_binding t0 ∉ bindings) l).
  { intros E. rewrite (Hr E). apply forall_fresh. }
  unfold tunnel_wf at 1. rewrite forall_fresh in IH. tauto.
Qed.

Lemma tunnels_ids ids bindings l : (validate_tunnels ids bindings l).2 = list_to_set (tn_tunnel_id <$> l) ∪ ids.
Proof.
  revert ids bindings. induction l as [|t l IH]; intros ids bindings; cbn [validate_tunnels]; [set_solver|].
  destruct (binding_errors bindings t) as [errors bindings'].
  specialize (IH ({[tn_tunnel_id t]} ∪ ids) bindings'). destruct (validate_tunnels _ bindings' l) as [e i]. cbn in *.
  rewrite IH. set_solver.
Qed.

(** ** Status *)

Lemma filter_length_0 {A} (P : A → Prop) `{∀ x, Decision (P x)} l : length (filter P l) = 0%nat ↔ ∀ x, x ∈ l → ¬ P x.
Proof.
  rewrite length_zero_iff_nil. split.
  - intros E x Hx HP. assert (Hin : x ∈ filter P l) by (by apply list_elem_of_filter). rewrite E in Hin. set_solver.
  - intros Hl. induction l as [|x l IH]; [done|]. rewrite filter_cons, decide_False by (apply Hl; left). apply IH.
    intros y Hy. apply Hl. by right.
Qed.

Lemma blocking_zero r : blocking_failures r = 0%nat ↔ nothing_failed r.
Proof.
  unfold blocking_failures, nothing_failed, required_fail_count.
  assert (Hsum : ∀ a b c d e : nat, (a + b + c + d + e = 0 ↔ a = 0 ∧ b = 0 ∧ c = 0 ∧ d = 0 ∧ e = 0)%nat) by lia.
  rewrite Hsum, !filter_length_0. naive_solver.
Qed.

Lemma coherence_nil r :
  validate_report_status_coherence r = [] ↔
  (dl_status r = STATUS_PASS → nothing_failed r ∧ qi_adb_state (dl_device_identity r) = ADB_STATE_DEVICE).
Proof.
  unfold validate_report_status_coherence. rewrite app_nil_iff, !push_if_nil, !guard_eq_false, negb_false_iff, String.eqb_eq,
    <- blocking_zero.
  assert (((0 <? blocking_failures r)%nat = false) ↔ blocking_failures r = 0%nat) as -> by (rewrite Nat.ltb_ge; lia).
  tauto.
Qed.

Lemma device_link_nil r : device_link_errors r = [] ↔ report_wf r.
Proof.
  unfold device_link_errors.
  pose proof (tunnels_nil ∅ ∅ (dl_tunnels r)) as Ht. pose proof (tunnels_ids ∅ ∅ (dl_tunnels r)) as Hi.
  destruct (validate_tunnels ∅ ∅ (dl_tunnels r)) as [errors ids]. cbn [fst snd] in *. rewrite Hi, union_empty_r_L.
  rewrite !app_nil_iff, !required_nil, status_nil, !push_if_nil, negb_false_iff, String.eqb_eq, N.eqb_neq, identity_nil, tools_nil,
    Ht, broker_endpoints_nil, subscribers_nil, results_nil, capabilities_nil, issues_nil, coherence_nil.
  assert (Forall (λ t, tn_tunnel_id t ∉ (∅ : gset string)) (dl_tunnels r)) by (apply Forall_true; set_solver).
  assert (Forall (λ t, tunnel_binding t ∉ (∅ : gset (string * N))) (dl_tunnels r)) by (apply Forall_true; set_solver).
  assert (dl_schema r = DEVICE_LINK_SCHEMA → nonblank (dl_schema r)) by (by intros ->). split.
  - intros (? & ? & ? & ? & ? & ? & ? & ? & ? & ? & ? & ? & ? & ?). constructor; tauto.
  - intros []. tauto.
Qed.

(** ** Product runs *)

Definition p2p_host (host : string) : Prop :=
  ∃ a, parse_ipv4 host = Some a ∧ is_supported_direct_p2p_ipv4 a = true.

Record product_run_wf (r : ProductWifiDirectRunReceipt) : Prop := {
  xw_schema : rr_schema r = PRODUCT_WIFI_DIRECT_RUN_SCHEMA;
  xw_identity : nonblank (rr_run_id r) ∧ nonblank (rr_product_package r) ∧
    ∀ word, word ∈ ["qcl"; "harness"] →
      contains_str word (to_ascii_lowercase (rr_run_id r ++ " " ++ rr_product_package r)) = false;
  xw_role : rr_role r ∈ ["group_owner"; "client"];
  (** Android formed the group, and owns no socket *)
  xw_topology : pt_authority (rr_topology r) = ANDROID_WIFI_DIRECT_TOPOLOGY_AUTHORITY ∧
    pt_group_formed (rr_topology r) = true ∧ pt_local_role (rr_topology r) = rr_role r ∧
    pt_socket_creation_claimed (rr_topology r) = false;
  xw_binding : nb_authority (rr_network_binding r) = ANDROID_NETWORK_BINDING_AUTHORITY ∧
    nb_interface_name (rr_network_binding r) = QUEST_DIRECT_P2P_INTERFACE ∧
    (nb_network_available (rr_network_binding r) = true ↔ nb_network_handle (rr_network_binding r) ≠ 0) ∧
    nb_route_matches_group_owner (rr_network_binding r) = true ∧
    nb_socket_creation_claimed (rr_network_binding r) = false;
  (** Rust bound the socket to the address Android selected, and closed it *)
  xw_socket : sr_authority (rr_socket r) = RUST_DIRECT_SOCKET_PROVIDER ∧ sr_local_bind_applied (rr_socket r) = true ∧
    sr_closed (rr_socket r) = true ∧ sr_android_network_substituted_socket_authority (rr_socket r) = false ∧
    sr_observed_android_network_handle (rr_socket r) = nb_network_handle (rr_network_binding r) ∧
    sr_local_bind_host (rr_socket r) = nb_local_host (rr_network_binding r);
  xw_hosts : p2p_host (pt_group_owner_host (rr_topology r)) ∧ p2p_host (sr_local_bind_host (rr_socket r)) ∧
    p2p_host (sr_peer_host (rr_socket r));
  xw_exchange : ex_exchange_kind (rr_exchange r) = BOUNDED_CONTROL_EXCHANGE ∧
    ex_payload_class (rr_exchange r) = "control_probe" ∧ ex_bounded (rr_exchange r) = true ∧
    ex_messages_sent (rr_exchange r) ≠ 0 ∧ ex_messages_received (rr_exchange r) ≠ 0 ∧
    0 < ex_bytes_sent (rr_exchange r) <= 4096 ∧ 0 < ex_bytes_received (rr_exchange r) <= 4096;
  xw_cleanup : cr_discovery_stopped (rr_cleanup r) = true ∧ cr_group_removed (rr_cleanup r) = true ∧
    cr_socket_closed (rr_cleanup r) = true;
}.

Lemma run_host_nil field host : run_host_errors field host = [] ↔ p2p_host host.
Proof.
  unfold run_host_errors, p2p_host. rewrite push_if_nil, negb_false_iff. destruct (parse_ipv4 host); naive_solver.
Qed.

Lemma handle_truthful (available : bool) (handle : N) :
  available && (handle =? 0) = false ∧ negb available && negb (handle =? 0) = false ↔ (available = true ↔ handle ≠ 0).
Proof. destruct available, (N.eqb_spec handle 0); naive_solver. Qed.

Lemma product_run_nil r : product_run_errors r = [] ↔ product_run_wf r.
Proof.
  unfold product_run_errors.
  rewrite !app_nil_iff, !run_host_nil, !push_if_nil, not_one_of, !orb_false_iff, !negb_false_iff, !String.eqb_eq, !N.eqb_neq,
    !N.eqb_eq, !N.ltb_ge.
  pose proof (handle_truthful (nb_network_available (rr_network_binding r)) (nb_network_handle (rr_network_binding r))) as Hh.
  assert (Hpos : ∀ n, n ≠ 0 ↔ 0 < n) by lia. split.
  - intros (H1 & H2 & [H3a H3b] & H4 & H5 & H6 & H7 & H8 & H9 & H10 & H11 & H12 & H13 & H14 & H15 & H16 & H17 & H18 & H19).
    constructor; try tauto.
    + split; [apply H2|]. split; [apply H2|]. intros word Hw. apply elem_of_cons in Hw as [->|Hw%list_elem_of_singleton];
        [done|by subst].
    + split_and!; first [tauto|symmetry; tauto].
    + rewrite <- !Hpos. tauto.
  - intros [H1 (H2 & H3 & Hw) H4 H5 H6 H7 H8 H9 H10]. rewrite <- !Hpos in H9.
    assert (contains_str "qcl" (to_ascii_lowercase (rr_run_id r ++ " " ++ rr_product_package r)) = false) by (apply Hw; left).
    assert (contains_str "harness" (to_ascii_lowercase (rr_run_id r ++ " " ++ rr_product_package r)) = false)
      by (apply Hw; right; left).
    destruct H7 as (S1 & S2 & S3 & S4 & S5 & S6). rewrite <- S6. unfold nonblank in *. tauto.
Qed.

(** ** Lifecycle artifacts *)

(** Not blank and not a placeholder in angle brackets. *)
Definition concrete (s : string) : Prop := nonblank s ∧ contains_byte 60 (trim s) = false.
Definition concrete_serial (s : string) : Prop := concrete s ∧ trim s ≠ "QUEST_SERIAL_FROM_ADB_DEVICES".

Lemma id_concrete s : id_is_placeholder s = false ↔ concrete s.
Proof. unfold id_is_placeholder, concrete. cbn. by rewrite orb_false_iff. Qed.
Lemma text_concrete s : text_is_placeholder s = false ↔ concrete s.
Proof. apply id_concrete. Qed.
Lemma serial_concrete s : serial_is_placeholder s = false ↔ concrete_serial s.
Proof. unfold serial_is_placeholder, concrete_serial, concrete. cbn. by rewrite !orb_false_iff, String.eqb_neq. Qed.

(** A phase that passed and was not waived. *)
Definition phase_passed (p : WifiDirectLifecyclePhase) : Prop := wp_status p = STATUS_PASS ∧ wp_required p ≠ Some false.

Lemma required_phase_nil label p : validate_required_phase label p = [] ↔ phase_passed p.
Proof.
  unfold validate_required_phase, phase_passed. rewrite !app_nil_iff, required_nil, !push_if_nil, negb_false_iff, String.eqb_eq,
    bool_decide_eq_false.
  assert (wp_status p = STATUS_PASS → nonblank (wp_status p)) by (by intros ->). tauto.
Qed.

(** The probe, the class of its peer and the phase of that peer. *)
Definition probe_peer (a : WifiDirectLifecycleArtifact) (phase : WifiDirectLifecyclePhase) : Prop :=
  (wa_probe_id a = WIFI_DIRECT_PROBE_QCL_040 ∧ wa_peer_class a = WIFI_DIRECT_PEER_ANDROID_PHONE ∧
   wps_android_phone_peer (wa_lifecycle a) = Some phase ∧ wo_os (wa_host a) ∈ ["android_phone_peer"; "android_phone"]) ∨
  (wa_probe_id a = WIFI_DIRECT_PROBE_QCL_041 ∧ wa_peer_class a = WIFI_DIRECT_PEER_WINDOWS ∧
   wps_windows_wifi_direct_api (wa_lifecycle a) = Some phase ∧ wo_os (wa_host a) = WIFI_DIRECT_PEER_WINDOWS).

Record artifact_wf (a : WifiDirectLifecycleArtifact) : Prop := {
  aw_header : wa_schema a = WIFI_DIRECT_LIFECYCLE_SCHEMA ∧ wa_schema_version a ≠ 0 ∧ nonblank (wa_capture_kind a) ∧
    nonblank (wa_observed_at_utc a) ∧ concrete (wa_run_id a);
  aw_live : wa_evidence_tier a ∈ LIVE_EVIDENCE_TIERS ∧ wa_live_evidence a = true;
  aw_harness : concrete (wh_harness_id (wa_harness a)) ∧ concrete (wh_owner (wa_harness a)) ∧
    wh_writes_live_source_artifact (wa_harness a) = true;
  aw_topology : wa_topology a = mkTopology "wifi_direct" "wifi_direct" "peer_to_peer_group" (wa_peer_class a);
  aw_device : nonblank (wd_model (wa_device a)) ∧ concrete_serial (wd_serial (wa_device a)) ∧
    nonblank (wd_wifi_direct_role (wa_device a));
  aw_host : nonblank (wo_toolchain_profile (wa_host a));
  (** the lease names the device and covers the live steps *)
  aw_lease : wls_manager (wa_lease a) = WIFI_DIRECT_AGENT_BOARD_MANAGER ∧
    starts_with QUEST_LEASE_RESOURCE_PREFIX (wls_resource (wa_lease a)) = true ∧
    concrete_serial (quest_serial_from_resource (wls_resource (wa_lease a))) ∧
    quest_serial_from_resource (wls_resource (wa_lease a)) = wd_serial (wa_device a) ∧
    concrete (wls_lease_id (wa_lease a)) ∧ wls_lease_id (wa_lease a) ≠ "LEASE_ID_FROM_RESERVE_OUTPUT" ∧
    wls_reserved_before_live_steps (wa_lease a) = true ∧ wls_released_after_live_steps (wa_lease a) = true;
  aw_peer : ∃ phase, probe_peer a phase ∧ phase_passed phase;
  aw_phases : phase_passed (wps_feature (wa_lifecycle a)) ∧ phase_passed (wps_permission_state (wa_lifecycle a));
  aw_discovery : phase_passed (wps_peer_discovery (wa_lifecycle a)) ∧
    default 0 (wp_peer_count (wps_peer_discovery (wa_lifecycle a))) ≠ 0;
  aw_group : phase_passed (wps_group_formation (wa_lifecycle a)) ∧
    concrete (default "" (wp_local_role (wps_group_formation (wa_lifecycle a)))) ∧
    concrete (default "" (wp_peer_role (wps_group_formation (wa_lifecycle a))));
  aw_socket : let p := wps_socket_exchange (wa_lifecycle a) in
    phase_passed p ∧ (wp_bounded p = Some true ∨ default "" (wp_payload_class p) = "bounded_tcp_probe") ∧
    to_ascii_lowercase (default "" (wp_protocol p)) ∈ ["tcp"; "tcp_echo"; "bounded_tcp_probe"] ∧
    default 0 (wp_messages_sent p) ≠ 0 ∧ default 0 (wp_messages_received p) ≠ 0;
  aw_cleanup : phase_passed (wps_cleanup (wa_lifecycle a)) ∧ wp_completed (wps_cleanup (wa_lifecycle a)) = Some true;
}.

Lemma harness_nil h :
  validate_harness h = [] ↔
  concrete (wh_harness_id h) ∧ concrete (wh_owner h) ∧ wh_writes_live_source_artifact h = true.
Proof.
  unfold validate_harness. rewrite !app_nil_iff, !required_nil, !push_if_nil, id_concrete, text_concrete, negb_false_iff.
  unfold concrete. tauto.
Qed.

Lemma wifi_topology_nil t peer :
  wifi_validate_topology t peer = [] ∧ nonblank peer ↔
  t = mkTopology "wifi_direct" "wifi_direct" "peer_to_peer_group" peer ∧ nonblank peer.
Proof.
  unfold wifi_validate_topology. rewrite !app_nil_iff, !required_nil, !push_if_nil, !negb_false_iff, !String.eqb_eq.
  destruct t as [o n d p]. cbn. split.
  - intros [(_ & _ & _ & _ & -> & -> & -> & ->) ?]. done.
  - intros [[= -> -> -> ->] ?]. by split_and!.
Qed.

Lemma wifi_device_nil d :
  wifi_validate_device d = [] ↔
  nonblank (wd_model d) ∧ concrete_serial (wd_serial d) ∧ nonblank (wd_wifi_direct_role d).
Proof.
  unfold wifi_validate_device. rewrite !app_nil_iff, !required_nil, push_if_nil, serial_concrete.
  unfold concrete_serial, concrete. tauto.
Qed.

(** The lease and the device name the same serial. *)
Lemma wifi_lease_nil l d :
  concrete_serial (wd_serial d) →
  wifi_validate_lease l d = [] ↔
  wls_manager l = WIFI_DIRECT_AGENT_BOARD_MANAGER ∧ starts_with QUEST_LEASE_RESOURCE_PREFIX (wls_resource l) = true ∧
  concrete_serial (quest_serial_from_resource (wls_resource l)) ∧
  quest_serial_from_resource (wls_resource l) = wd_serial d ∧
  concrete (wls_lease_id l) ∧ wls_lease_id l ≠ "LEASE_ID_FROM_RESERVE_OUTPUT" ∧
  wls_reserved_before_live_steps l = true ∧ wls_released_after_live_steps l = true.
Proof.
  intros Hd. unfold wifi_validate_lease, leased_device_serial. rewrite (proj2 (serial_concrete _) Hd).
  rewrite !app_nil_iff, !required_nil, !push_if_nil, !orb_false_iff, !negb_false_iff, id_concrete, serial_concrete, String.eqb_neq,
    String.eqb_eq, guard_false, negb_false_iff, String.eqb_eq, andb_true_iff, !negb_true_iff.
  assert (Hne : ∀ s, concrete_serial s → str_is_empty s = false) by (intros [|] [[? _] _]; done).
  assert (Hm : wls_manager l = WIFI_DIRECT_AGENT_BOARD_MANAGER → nonblank (wls_manager l)) by (by intros ->).
  assert (Hr : starts_with QUEST_LEASE_RESOURCE_PREFIX (wls_resource l) = true → nonblank (wls_resource l)).
  { intros Hp. destruct (wls_resource l) as [|x s]; [done|]. apply graphic_first_nonblank.
    unfold starts_with, QUEST_LEASE_RESOURCE_PREFIX in Hp. cbn [String.prefix] in Hp.
    match type of Hp with context [Ascii.ascii_dec ?c x] => destruct (Ascii.ascii_dec c x) as [<-|] end; [done|discriminate Hp]. }
  assert (Hl : concrete (wls_lease_id l) → nonblank (wls_lease_id l)) by (by intros [? _]).
  specialize (Hne _ Hd) as Hd'. split.
  - intros (_ & _ & ? & ? & [? Hc] & [? ?] & ? & ? & Hs). split_and!; try done. apply Hs. split; [by apply Hne|done].
  - intros (? & ? & Hc & ? & ? & ? & ? & ?). split_and!; auto.
Qed.

Lemma option_phase_nil label (phase : option WifiDirectLifecyclePhase) (missing : string) :
  match phase with Some p => validate_required_phase label p | None => [missing] end = [] ↔
  ∃ p, phase = Some p ∧ phase_passed p.
Proof. destruct phase; [rewrite required_phase_nil|]; naive_solver. Qed.

Lemma phases_nil l probe :
  validate_lifecycle_phases l probe = [] ↔
  phase_passed (wps_feature l) ∧
  (∃ p, (if (probe =? WIFI_DIRECT_PROBE_QCL_041)%string then wps_windows_wifi_direct_api l else wps_android_phone_peer l) =
     Some p ∧ phase_passed p) ∧
  phase_passed (wps_permission_state l) ∧
  (phase_passed (wps_peer_discovery l) ∧ default 0 (wp_peer_count (wps_peer_discovery l)) ≠ 0) ∧
  (phase_passed (wps_group_formation l) ∧ concrete (default "" (wp_local_role (wps_group_formation l))) ∧
   concrete (default "" (wp_peer_role (wps_group_formation l)))) ∧
  (phase_passed (wps_socket_exchange l) ∧
   (wp_bounded (wps_socket_exchange l) = Some true ∨
    default "" (wp_payload_class (wps_socket_exchange l)) = "bounded_tcp_probe") ∧
   to_ascii_lowercase (default "" (wp_protocol (wps_socket_exchange l))) ∈ ["tcp"; "tcp_echo"; "bounded_tcp_probe"] ∧
   default 0 (wp_messages_sent (wps_socket_exchange l)) ≠ 0 ∧
   default 0 (wp_messages_received (wps_socket_exchange l)) ≠ 0) ∧
  phase_passed (wps_cleanup l) ∧ wp_completed (wps_cleanup l) = Some true.
Proof.
  unfold validate_lifecycle_phases, validate_peer_discovery, validate_group_formation, validate_socket_exchange,
    wifi_validate_cleanup.
  rewrite !app_nil_iff, option_phase_nil, !required_phase_nil, !push_if_nil, !orb_false_iff, !text_concrete, !negb_false_iff,
    !N.eqb_neq, one_of_true, orb_true_iff, String.eqb_eq, !bool_decide_eq_true. tauto.
Qed.

Lemma host_android_nil h :
  wifi_validate_host h WIFI_DIRECT_PEER_ANDROID_PHONE = [] ↔
  wo_os h ∈ ["android_phone_peer"; "android_phone"] ∧ nonblank (wo_toolchain_profile h).
Proof.
  unfold wifi_validate_host. change (WIFI_DIRECT_PEER_ANDROID_PHONE =? WIFI_DIRECT_PEER_WINDOWS)%string with false.
  change (WIFI_DIRECT_PEER_ANDROID_PHONE =? WIFI_DIRECT_PEER_ANDROID_PHONE)%string with true. cbn [andb].
  rewrite !app_nil_iff, !required_nil, push_if_nil, andb_false_iff, !negb_false_iff, !String.eqb_eq.
  note_nonblank (wo_os h). set_solver.
Qed.

Lemma host_windows_nil h :
  wifi_validate_host h WIFI_DIRECT_PEER_WINDOWS = [] ↔
  wo_os h = WIFI_DIRECT_PEER_WINDOWS ∧ nonblank (wo_toolchain_profile h).
Proof.
  unfold wifi_validate_host. change (WIFI_DIRECT_PEER_WINDOWS =? WIFI_DIRECT_PEER_WINDOWS)%string with true.
  change (WIFI_DIRECT_PEER_WINDOWS =? WIFI_DIRECT_PEER_ANDROID_PHONE)%string with false. cbn [andb negb].
  rewrite !app_nil_iff, !required_nil, push_if_nil, andb_true_r, negb_false_iff, String.eqb_eq.
  assert (wo_os h = WIFI_DIRECT_PEER_WINDOWS → nonblank (wo_os h)) by (by intros ->). tauto.
Qed.

(** The probe and everything the artifact says of its peer. *)
Lemma probe_nil a :
  (expected_peer_class (wa_probe_id a)).1 = [] ∧
  match (expected_peer_class (wa_probe_id a)).2 with
  | Some expected =>
      push_if (negb (wa_peer_class a =? expected)%string)
        ("Wi-Fi Direct lifecycle " ++ wa_probe_id a ++ " requires peer_class " ++ expected)
  | None => []
  end = [] ∧
  wifi_validate_host (wa_host a) (default (wa_peer_class a) (expected_peer_class (wa_probe_id a)).2) = [] ∧
  (∃ p, (if (wa_probe_id a =? WIFI_DIRECT_PROBE_QCL_041)%string then wps_windows_wifi_direct_api (wa_lifecycle a)
         else wps_android_phone_peer (wa_lifecycle a)) = Some p ∧ phase_passed p) ↔
  (∃ phase, probe_peer a phase ∧ phase_passed phase) ∧ nonblank (wo_toolchain_profile (wa_host a)).
Proof.
  unfold expected_peer_class, probe_peer.
  assert (H01 : WIFI_DIRECT_PROBE_QCL_040 ≠ WIFI_DIRECT_PROBE_QCL_041) by done.
  destruct (String.eqb_spec (wa_probe_id a) WIFI_DIRECT_PROBE_QCL_040) as [->|H0]; cbn [fst snd default];
    [|destruct (String.eqb_spec (wa_probe_id a) WIFI_DIRECT_PROBE_QCL_041) as [->|H1]; cbn [fst snd default]].
  - rewrite host_android_nil, push_if_nil, negb_false_iff, String.eqb_eq.
    change (WIFI_DIRECT_PROBE_QCL_040 =? WIFI_DIRECT_PROBE_QCL_041)%string with false. cbn iota. split.
    + intros (_ & Hc & [Ho Ht] & p & Hp & Hok). split; [|done]. exists p. split; [left|]; done.
    + intros [(p & [(_ & Hc & Hp & Ho)|(? & _)] & Hok) Ht]; [|done]. split_and!; try done. by exists p.
  - rewrite host_windows_nil, push_if_nil, negb_false_iff, String.eqb_eq. split.
    + intros (_ & Hc & [Ho Ht] & p & Hp & Hok). split; [|done]. exists p. split; [right|]; done.
    + intros [(p & [(? & _)|(_ & Hc & Hp & Ho)] & Hok) Ht]; [done|]. split_and!; try done. by exists p.
  - split; [by intros [? _]|]. intros [(p & [(? & _)|(? & _)] & _) _]; done.
Qed.

Lemma artifact_nil a : wifi_artifact_errors a = [] ↔ artifact_wf a.
Proof.
  unfold wifi_artifact_errors. pose proof (probe_nil a) as Hp.
  destruct (expected_peer_class (wa_probe_id a)) as [errors expected]. cbn [fst snd] in Hp.
  rewrite !app_nil_iff, !required_nil, !push_if_nil, not_one_of, !negb_false_iff, String.eqb_eq, N.eqb_neq, id_concrete, harness_nil,
    wifi_device_nil, phases_nil.
  assert (Hschema : wa_schema a = WIFI_DIRECT_LIFECYCLE_SCHEMA → nonblank (wa_schema a)) by (by intros ->).
  assert (Htier : wa_evidence_tier a ∈ LIVE_EVIDENCE_TIERS → nonblank (wa_evidence_tier a)) by (intros H; by eapply nonblank_in).
  assert (Hrun : concrete (wa_run_id a) → nonblank (wa_run_id a)) by (by intros [? _]).
  assert (Hpeer : ∀ phase, probe_peer a phase → nonblank (wa_probe_id a) ∧ nonblank (wa_peer_class a)).
  { intros phase [(-> & -> & _)|(-> & -> & _)]; done. }
  pose proof (wifi_topology_nil (wa_topology a) (wa_peer_class a)) as Ht.
  pose proof (wifi_lease_nil (wa_lease a) (wa_device a)) as Hl. split.
  - intros H. destruct_and!. constructor; cbn zeta; tauto.
  - intros [Hh Hlive Hha Hto Hd Hho Hle (phase & Hph & Hpass) Hphs Hdi Hgr Hso Hcl].
    destruct (Hpeer phase Hph) as [N1 N2]. assert (Hex : ∃ phase, probe_peer a phase ∧ phase_passed phase) by eauto.
    cbn zeta in Hso. split_and!; tauto.
Qed.

(** ** Properties *)

(** ** Fixtures *)

Definition dl_offer : BleRendezvousMessage :=
  mkBleMessage "rqrv" 1 KOffer "session-7f31" "peer-w-19ac" 4 1 RGroupOwner 15 WReady (Some (mkIpv4 192 168 49 1))
    (Some 8765) 30000 "0011223344556677" "89abcdef01234567".

(** The text of the message stands for its JSON. *)
#[local] Instance fx_ble_json : BleMessageJson := {|
  ble_to_vec m := Ok (str_bytes (ble_rendezvous_signing_input m ++ bm_auth_tag m)) |}.

Example dl_offer_input :
  ble_rendezvous_signing_input dl_offer =
  "RQRV1|offer|session-7f31|peer-w-19ac|4|1|group_owner|15|ready|192.168.49.1|8765|30000|0011223344556677".
Proof. vm_compute. reflexivity. Qed.

Definition dl_sidecar (run_id session peer : string) (role : BleRendezvousSidecarRole) : BleRendezvousSidecarReceipt :=
  let server := bool_decide (role = SServer) in
  mkSidecarReceipt BLE_RENDEZVOUS_RECEIPT_SCHEMA run_id session peer role SPass true true true true true server server
    (negb server) (negb server) true true true true (if server then 4 else 2) (if server then 2 else 4)
    (if server then 2 else 4) 0 1 true true 0 0 0 true [].

Definition dl_pair : BleRendezvousPairReceipt :=
  mkPairReceipt BLE_RENDEZVOUS_PAIR_SCHEMA "pair-fixture-001" SPass "quest-alpha" "quest-beta" AgentBoardLeased
    (Some "lease-alpha") (Some "lease-beta") false true true true 2 false true 0 0 0
    [mkPairPhase "primary-server" SPass "pair-fixture-a" "quest-alpha" "quest-beta"
       (dl_sidecar "pair-fixture-a-s" "pair-fixture-a" "peer-alpha" SServer)
       (dl_sidecar "pair-fixture-a-c" "pair-fixture-a" "peer-beta" SClient);
     mkPairPhase "secondary-server" SPass "pair-fixture-b" "quest-beta" "quest-alpha"
       (dl_sidecar "pair-fixture-b-s" "pair-fixture-b" "peer-beta" SServer)
       (dl_sidecar "pair-fixture-b-c" "pair-fixture-b" "peer-alpha" SClient)]
    [mkPairDeviceState "quest-alpha" "1" ""; mkPairDeviceState "quest-beta" "1" ""]
    [mkPairDeviceState "quest-alpha" "1" ""; mkPairDeviceState "quest-beta" "1" ""]
    (mkPairCleanup [mkPairDeviceCleanup "quest-alpha" 0%Z true; mkPairDeviceCleanup "quest-beta" 0%Z true] true true 0 true)
    false false.

Example dl_pair_accepted : validate_ble_rendezvous_pair_receipt dl_pair = Ok tt.
Proof. vm_compute. reflexivity. Qed.

Definition dl_run : ProductWifiDirectRunReceipt :=
  mkRunReceipt PRODUCT_WIFI_DIRECT_RUN_SCHEMA "net008-product-run" "io.github.mesmerprism.rustyquest.directp2p" "group_owner"
    (mkTopologyReceipt ANDROID_WIFI_DIRECT_TOPOLOGY_AUTHORITY true "group_owner" "192.168.49.1" false)
    (mkNetworkBinding ANDROID_NETWORK_BINDING_AUTHORITY false 0 "p2p0" "192.168.49.1" true false)
    (mkSocketReceipt RUST_DIRECT_SOCKET_PROVIDER "192.168.49.1" "192.168.49.2" 9079 true true 0 false)
    (mkExchangeReceipt BOUNDED_CONTROL_EXCHANGE "control_probe" 1 1 32 32 true) (mkCleanupReceipt true true true).

Example dl_run_accepted : validate_product_wifi_direct_run dl_run = Ok tt.
Proof. vm_compute. reflexivity. Qed.

Definition dl_phase : WifiDirectLifecyclePhase :=
  mkWifiPhase STATUS_PASS (Some "observed") (Some true) (Some 1) (Some "group_owner") (Some "client") (Some "tcp")
    (Some "bounded_tcp_probe") (Some true) (Some 3) (Some 3) (Some true).

Definition dl_artifact : WifiDirectLifecycleArtifact :=
  mkWifiArtifact WIFI_DIRECT_LIFECYCLE_SCHEMA 1 WIFI_DIRECT_PROBE_QCL_041 WIFI_DIRECT_PEER_WINDOWS "product_harness"
    "live_wifi_direct_lifecycle" true "2026-06-30T10:15:00Z" "qcl041-live-windows-synthetic-pass"
    (mkHarness "rusty-quest-wifi-direct-qcl041-harness" "Rusty Quest Wi-Fi Direct lifecycle harness"
       (Some "quest_windows_wifi_direct_lifecycle") false true)
    (mkTopology "wifi_direct" "wifi_direct" "peer_to_peer_group" "windows")
    (mkWifiDevice "Quest" "TESTQUESTSERIAL" None "group_owner")
    (mkWifiHost "windows" "rusty_quest_wifi_direct_qcl041_contract_fixture")
    (mkWifiLease "Agent Board" "quest:TESTQUESTSERIAL" "lease-qcl041-windows-001" true true false None None None)
    (mkWifiPhases dl_phase (Some dl_phase) None dl_phase dl_phase dl_phase dl_phase dl_phase)
    (mkWifiMeasurements (Some 24) (Some 1) (Some 812)).

Example dl_artifact_accepted : validate_wifi_direct_lifecycle_artifact dl_artifact = Ok tt.
Proof. vm_compute. reflexivity. Qed.

Definition dl_stage (stage : string) : CommandStageObservation := mkStage stage STATUS_PASS ["artifact"] [].

Definition dl_report : DeviceLinkReport :=
  mkReport DEVICE_LINK_SCHEMA "device_link.hostess.usb_broker_stream_probe" 1782647000958 STATUS_PASS
    (mkIdentity "quest-usb-authorized-1" "adb_usb" "device" "Quest 3S" (Some "eureka") (Some "Meta") (Some 32))
    [mkHostTool "tool.adb" "adb" STATUS_PASS true (Some "adb") (Some "Android Debug Bridge");
     mkHostTool "tool.hostessctl" "hostessctl" STATUS_PASS true (Some "tools/hostessctl/hostessctl.py") None]
    [mkTunnel "tunnel.adb_forward.manifold_broker" "adb_forward" STATUS_PASS true "127.0.0.1" (Some 18765)
       (Some "127.0.0.1") (Some 8765) (Some "/manifold/v1/events")]
    [mkBrokerEndpoint "broker.manifold.quest_forwarded" STATUS_PASS "websocket" "rusty.manifold.command" "127.0.0.1" 18765
       "/manifold/v1/events" (Some "tunnel.adb_forward.manifold_broker") "rusty.manifold.command.envelope.v1" false]
    [mkSubscriber "runtime.hostess_makepad.bridge_command" "app.hostess.makepad" "stream.hostess.makepad.bridge_command"
       "stream.hostess.makepad.bridge_command.receipt" "connected" true (Some 1)]
    [mkCommandResult "command_result.hostess.makepad.safe_probe" "bridge_route.command.websocket.applied"
       "request.hostess.bridge_command.broker_stream_probe.session" "hostess.makepad.bridge_probe.set_marker"
       "manifold_websocket" STATUS_PASS ["sent"; "transport_ok"; "authority_accepted"; "runtime_accepted"; "applied"]
       (dl_stage <$> ["sent"; "transport_ok"; "authority_accepted"; "runtime_accepted"; "applied"])
       (Some "stream.hostess.makepad.bridge_command.receipt") (Some 1) true]
    [mkCapability "capability.media.h264_tcp_binary" "stream.remote_camera.h264.left" "media" "tcp_binary" "binary_media"
       "high_rate" "ordered_bytes_backpressure_bounded" "quest_to_peer_or_host" "media_frame_timestamp"
       "drop_or_close_slow_peer" (Some 90) false ["H.264 camera frames"] ["operator command acknowledgement"]]
    [].

Example dl_report_accepted : validate_device_link_report dl_report = Ok tt.
Proof. vm_compute. reflexivity. Qed.

(** ** Messages *)

(** C33: two accepted messages with the same signing input are the same message,
    up to the authentication tag: the tag covers every field, and no two fields
    can be confused across their separators. *)
Theorem signing_input_determines {BJ : BleMessageJson} a b :
  validate_ble_rendezvous_message a = Ok tt → validate_ble_rendezvous_message b = Ok tt →
  ble_widths a → ble_widths b →
  ble_rendezvous_signing_input a = ble_rendezvous_signing_input b → b = with_auth_tag a (bm_auth_tag b).
Proof.
  unfold validate_ble_rendezvous_message. intros Ha Hb.
  destruct (ble_message_errors a) eqn:Ea; [|discriminate Ha]. destruct (ble_message_errors b) eqn:Eb; [|discriminate Hb].
  apply signing_input_inj; by apply accepted_identity.
Qed.

Lemma signing_input_determines_witness :
  validate_ble_rendezvous_message (BJ := fx_ble_json) dl_offer = Ok tt ∧
  with_auth_tag dl_offer "0000000000000000" =
    with_auth_tag dl_offer (bm_auth_tag (with_auth_tag dl_offer "0000000000000000")).
Proof.
  assert (Hw : ble_widths dl_offer).
  { constructor; try (intros x [= <-]); unfold u32_max, ipv4_octets; cbn; lia. }
  split; [vm_compute; reflexivity|].
  apply (signing_input_determines (BJ := fx_ble_json) dl_offer (with_auth_tag dl_offer "0000000000000000"));
    [vm_compute; reflexivity|vm_compute; reflexivity|exact Hw|destruct Hw; constructor; assumption|reflexivity].
Defined.

(** ** Receipts and reports *)

(** A pair artifact is accepted exactly when it shows two passing phases, one
    for each assignment of the two devices to server and client, in distinct
    authenticated sessions, with validated receipts of both roles; each device's
    Bluetooth and P2P state as it was before; complete cleanup on both; and no
    crossing of the boundary to secrets, media, Wi-Fi or Manifold. *)
Theorem pair_receipt_accepts pair : validate_ble_rendezvous_pair_receipt pair = Ok tt ↔ pair_accepted pair.
Proof.
  unfold validate_ble_rendezvous_pair_receipt. rewrite <- pair_receipt_nil.
  destruct (pair_receipt_errors pair); split; done.
Qed.

(** C34: a device-link report is accepted exactly when its identifiers and local
    bindings are distinct, every endpoint's tunnel exists, every applied command
    has its stages observed and a dispatch delivered, high rates avoid JSON, and a
    report that passes hides no failure. *)
Theorem device_link_report_accepts report : validate_device_link_report report = Ok tt ↔ report_wf report.
Proof.
  unfold validate_device_link_report. rewrite <- device_link_nil. destruct (device_link_errors report); split; done.
Qed.

(** A lifecycle artifact is accepted exactly when it is live evidence of the
    probe's peer class, whose lease names the device and covers the live steps,
    with every phase passed; a product run exactly when topology, network binding,
    socket, exchange and cleanup are shown by their own authorities. *)
Theorem wifi_direct_evidence_accepts :
  (∀ artifact, validate_wifi_direct_lifecycle_artifact artifact = Ok tt ↔ artifact_wf artifact) ∧
  (∀ run, validate_product_wifi_direct_run run = Ok tt ↔ product_run_wf run).
Proof.
  split.
  - intros a. unfold validate_wifi_direct_lifecycle_artifact. rewrite <- artifact_nil.
    destruct (wifi_artifact_errors a); split; done.
  - intros r. unfold validate_product_wifi_direct_run. rewrite <- product_run_nil. destruct (product_run_errors r); split; done.
Qed.
