(* ===== verification/PreparedStart.v ===== *)
(** * Prepared starts

    crates/rusty-quest-media-stream-android/src/prepared_start.rs: signed frames
    in which two peers exchange their preparations, the request that binds a
    preparation to its process, its readbacks, the owner that enters the SDK at
    most once per half, and the terminal readback of an abort. *)

From S2P Require Import Prelude RustStr OrdMap StateResult UpdateAdmission SessionClock JsonValue.

Local Open Scope N_scope.

(** ** Reading JSON values *)

(** The integer that the text of a number stands for: [Number::as_u64]. *)
Definition number_u64 (text : string) : option N :=
  match str_bytes text with
  | [] => None
  | d :: rest =>
      if (d =? 48) && negb (len rest =? 0) then None
      else if forallb is_ascii_digit (d :: rest) then parse_u64_bytes 0 (d :: rest) else None
  end.

(** [Number::as_i64().is_some()]. *)
Definition number_is_i64 (text : string) : bool :=
  match strip_prefix "-" text with
  | Some rest => match number_u64 rest with Some n => (0 <? n) && (n <=? 2 ^ 63) | None => false end
  | None => match number_u64 text with Some n => n <? 2 ^ 63 | None => false end
  end.

Definition as_u64 (v : Value) : option N := match v with VNumber t => number_u64 t | _ => None end.
Definition as_bool (v : Value) : option bool := match v with VBool b => Some b | _ => None end.
Definition as_array (v : Value) : option (list Value) := match v with VArray a => Some a | _ => None end.

(** [v[key]] on a shared value: [Null] where there is no such entry. *)
Definition value_index (v : Value) (key : string) : Value :=
  match as_object v with Some o => default VNull (bt_get key o) | None => VNull end.

(** [v == "text"] and [v == 5u64]. *)
Definition eq_text (v : Value) (text : string) : bool := match as_str v with Some s => (s =? text)%string | None => false end.
Definition eq_u64 (v : Value) (n : N) : bool := match as_u64 v with Some m => m =? n | None => false end.

(** [v == w]; objects are ordered maps. *)
Fixpoint value_eqb (v w : Value) : bool :=
  match v, w with
  | VNull, VNull => true
  | VBool a, VBool b => Bool.eqb a b
  | VNumber a, VNumber b => (a =? b)%string
  | VString a, VString b => (a =? b)%string
  | VArray a, VArray b =>
      (fix go a b := match a, b with
        | [], [] => true
        | x :: a, y :: b => value_eqb x y && go a b
        | _, _ => false
        end) a b
  | VObject a, VObject b =>
      (fix go a b := match a, b with
        | [], [] => true
        | (k, x) :: a, (l, y) :: b => (k =? l)%string && value_eqb x y && go a b
        | _, _ => false
        end) a b
  | _, _ => false
  end.

(** The object of a struct or of [json!]: a map filled in order. *)
Definition json_object (fields : list (string * Value)) : Value :=
  VObject (fold_left (fun m e => bt_insert (fst e) (snd e) m) fields []).

Definition json_u64 (n : N) : Value := VNumber (fmt_decimal n).
Definition json_option (o : option string) : Value := match o with Some s => VString s | None => VNull end.

(** ** The canonical text *)

(** [serde_json::to_vec] of a string. *)
Class JsonStrings := { str_to_vec : string → list N }.

Fixpoint canonical_valid (v : Value) : bool :=
  match v with
  | VNumber n => number_is_i64 n
  | VArray a => forallb canonical_valid a
  | VObject o =>
      forallb (fun e => negb (str_is_empty (fst e)) && all_bytes (fun b => (0x20 <=? b) && (b <=? 0x7e)) (fst e)) o &&
      forallb (fun e => canonical_valid (snd e)) o
  | _ => true
  end.

Definition compare_keys {A} (a b : string * A) : comparison := String.compare (fst a) (fst b).

Section Canonical.
Context {JS : JsonStrings}.

(** [emit]: the entries of an object by ascending key, whatever order they are
    kept in. *)
Fixpoint emit (v : Value) : list N :=
  match v with
  | VObject o =>
      [123] ++ comma_separated (map (fun e => str_to_vec (fst e) ++ [58] ++ snd e)
        (sort_by compare_keys (map (fun e => (fst e, emit (snd e))) o))) ++ [125]
  | VArray a => [91] ++ comma_separated (map emit a) ++ [93]
  | _ => json_text str_to_vec v
  end.

Definition prepared_start_canonical (value : Value) : result string (list N) :=
  fail_if (negb (canonical_valid value)) "prepared canonical signed64/ASCII keys" ;;
  Ok (emit value).
End Canonical.

Definition hex (s : string) (n : N) : bool := (str_len s =? n) && all_bytes is_lower_hex s.

Definition hash (s : string) : bool := match strip_prefix "sha256:" s with Some s => hex s 64 | None => false end.

Definition exact (v : Value) (keys : list string) : bool :=
  match as_object v with
  | Some o => (len o =? len keys) && forallb (fun k => bt_contains k o) keys
  | None => false
  end.

Definition prepared_start_digest {RC : ReleaseCrypto} {JS : JsonStrings} (domain : string) (value : Value)
    : result string string :=
  canonical ← prepared_start_canonical value;
  Ok (sha256_identity (str_bytes domain ++ [0] ++ canonical)).

(** ** Frames *)

Definition ANDROID_PREPARED_START_FRAME_MAGIC : list N := str_bytes "RQPS1".
Definition FRAME_DOMAIN : list N := str_bytes "rusty.quest.embedded_duplex.prepared_start_frame.v1" ++ [0].
Definition MAX_PREPARED_FRAME_BYTES : N := 128 * 1024.

Record AndroidPreparedStartFrameBody := mkFrameBody {
  fb_schema : string;
  fb_kind : string;
  fb_request_id : string;
  fb_sender_preparation_id : string;
  fb_receiver_preparation_id : option string;
  fb_sender_peer_id : string;
  fb_receiver_peer_id : string;
  fb_route_configuration_sha256 : string;
  fb_issued_at_ms : N;
  fb_payload : Value;
}.

Record PreparedFrameEnvelope := mkFrameEnvelope {
  fe_body : AndroidPreparedStartFrameBody;
  fe_signature_hex : string;
}.

(** [serde_json] at the envelope. *)
Class PreparedFrameJson := {
  envelope_to_vec : PreparedFrameEnvelope → option (list N);
  prepared_from_slice : list N → option PreparedFrameEnvelope;
}.

(** What [#[derive(Serialize)]] makes of a frame. *)
Definition frame_value (b : AndroidPreparedStartFrameBody) : Value :=
  json_object
    [("$schema", VString (fb_schema b)); ("kind", VString (fb_kind b)); ("request_id", VString (fb_request_id b));
     ("sender_preparation_id", VString (fb_sender_preparation_id b));
     ("receiver_preparation_id", json_option (fb_receiver_preparation_id b));
     ("sender_peer_id", VString (fb_sender_peer_id b)); ("receiver_peer_id", VString (fb_receiver_peer_id b));
     ("route_configuration_sha256", VString (fb_route_configuration_sha256 b));
     ("issued_at_ms", json_u64 (fb_issued_at_ms b)); ("payload", fb_payload b)].

Definition frame_keys (kind : string) : option (list string) :=
  if (kind =? "view")%string then Some ["view"]
  else if (kind =? "viewed")%string then Some ["initiator_view_sha256"; "view"]
  else if (kind =? "decoder_prepare")%string then Some ["initiator_view"; "responder_view"; "sender_receipt"]
  else if (kind =? "decoder_prepared")%string
  then Some ["initiator_view_sha256"; "responder_view_sha256"; "decoder_receipt"]
  else None.

Definition frame_shape_invalid (b : AndroidPreparedStartFrameBody) (keys : list string) : bool :=
  negb (hex (fb_request_id b) 32) ||
  negb (hex (fb_sender_preparation_id b) 32) ||
  match fb_receiver_preparation_id b with Some s => negb (hex s 32) | None => false end ||
  str_is_empty (fb_sender_peer_id b) ||
  str_is_empty (fb_receiver_peer_id b) ||
  (fb_sender_peer_id b =? fb_receiver_peer_id b)%string ||
  negb (hash (fb_route_configuration_sha256 b)) ||
  negb (fb_schema b =? "rusty.quest.embedded_duplex.prepared_start_frame.v1")%string ||
  negb (exact (fb_payload b) keys) ||
  negb (Bool.eqb (fb_kind b =? "view")%string (bool_decide (fb_receiver_preparation_id b = None))) ||
  ((fb_kind b =? "view")%string || (fb_kind b =? "decoder_prepare")%string) &&
    negb (fb_request_id b =? fb_sender_preparation_id b)%string ||
  ((fb_kind b =? "viewed")%string || (fb_kind b =? "decoder_prepared")%string) &&
    negb (bool_decide (fb_receiver_preparation_id b = Some (fb_request_id b))).

Definition validate_prepared_start_frame (b : AndroidPreparedStartFrameBody) : result string unit :=
  keys ← ok_or (frame_keys (fb_kind b)) "prepared frame kind"%string;
  fail_if (frame_shape_invalid b keys) "prepared closed frame shape/identity"%string.

(** [u8::from_str_radix] of each pair of digits. *)
Definition hex_digit_value (b : N) : option N :=
  if is_ascii_digit b then Some (b - 48)
  else if (97 <=? b) && (b <=? 102) then Some (b - 87)
  else if (65 <=? b) && (b <=? 70) then Some (b - 55) else None.

Fixpoint hex_pairs (bytes : list N) : option (list N) :=
  match bytes with
  | [] => Some []
  | a :: b :: rest =>
      x ← hex_digit_value a; y ← hex_digit_value b; bytes ← hex_pairs rest; Some (x * 16 + y :: bytes)
  | [_] => None
  end.

Section Frames.
Context {RC : ReleaseCrypto} {JS : JsonStrings} {FJ : PreparedFrameJson}.

Definition prepared_start_frame_signing_bytes (b : AndroidPreparedStartFrameBody) : result string (list N) :=
  validate_prepared_start_frame b ;;
  canonical ← prepared_start_canonical (frame_value b);
  Ok (FRAME_DOMAIN ++ canonical).

Definition encode_prepared_start_frame (body : AndroidPreparedStartFrameBody) (signature : list N)
    : result string (list N) :=
  validate_prepared_start_frame body ;;
  encoded ← ok_or (envelope_to_vec (mkFrameEnvelope body (hex_of_bytes signature))) "prepared wire serialization"%string;
  let raw := ANDROID_PREPARED_START_FRAME_MAGIC ++ encoded in
  fail_if (MAX_PREPARED_FRAME_BYTES <? len raw) "prepared metadata structural transport bound"%string ;;
  Ok raw.

Definition starts_with_magic (raw : list N) : bool :=
  bool_decide (take (length ANDROID_PREPARED_START_FRAME_MAGIC) raw = ANDROID_PREPARED_START_FRAME_MAGIC).

Definition decode_prepared_start_frame (raw peer_key : list N) (sender receiver route : string) (now : N)
    : result string AndroidPreparedStartFrameBody :=
  fail_if (negb (starts_with_magic raw) || (MAX_PREPARED_FRAME_BYTES <? len raw)) "prepared wire bounds"%string ;;
  e ← ok_or (prepared_from_slice (drop (length ANDROID_PREPARED_START_FRAME_MAGIC) raw)) "prepared closed wire JSON"%string;
  validate_prepared_start_frame (fe_body e) ;;
  fail_if (negb (fb_sender_peer_id (fe_body e) =? sender)%string ||
           negb (fb_receiver_peer_id (fe_body e) =? receiver)%string ||
           negb (fb_route_configuration_sha256 (fe_body e) =? route)%string ||
           (now <? fb_issued_at_ms (fe_body e)) ||
           negb (hex (fe_signature_hex e) 128)) "prepared signed peer/route/audit binding"%string ;;
  signature ← ok_or (hex_pairs (str_bytes (fe_signature_hex e))) "prepared signature hex"%string;
  key ← ok_or (vk_from_bytes peer_key) "prepared enrolled key"%string;
  signed ← prepared_start_frame_signing_bytes (fe_body e);
  fail_if (negb (verify_strict key signed signature)) "prepared metadata signature"%string ;;
  Ok (fe_body e).
End Frames.

(** ** The request *)

Record AndroidPreparedStartRequest := mkStartRequest {
  psr_schema_id : string;
  psr_preparation_id : string;
  psr_original_id : string;
  psr_app_process_generation : N;
  psr_app_record_sha256 : string;
  psr_native_executor_generation : N;
  psr_config_sha256 : string;
  psr_arm_binding : Value;
  psr_configuration_binding : Value;
  psr_resource_target : Value;
  psr_resource_target_sha256 : string;
}.

Definition request_value (r : AndroidPreparedStartRequest) : Value :=
  json_object
    [("$schema", VString (psr_schema_id r)); ("preparation_id", VString (psr_preparation_id r));
     ("original_id", VString (psr_original_id r)); ("app_process_generation", json_u64 (psr_app_process_generation r));
     ("app_record_sha256", VString (psr_app_record_sha256 r));
     ("native_executor_generation", json_u64 (psr_native_executor_generation r));
     ("config_sha256", VString (psr_config_sha256 r)); ("arm_binding", psr_arm_binding r);
     ("configuration_binding", psr_configuration_binding r); ("resource_target", psr_resource_target r);
     ("resource_target_sha256", VString (psr_resource_target_sha256 r))].

(** [v.as_u64().is_none_or(|n| n == 0)]. *)
Definition not_positive (v : Value) : bool := match as_u64 v with Some n => n =? 0 | None => true end.

Definition TARGET_SCHEMA : string := "rusty.quest.embedded_duplex.peer_start_resource_target.v1".
Definition REQUEST_SCHEMA : string := "rusty.quest.embedded_duplex.prepared_start_request.v1".

Definition target_keys : list string :=
  ["$schema"; "runtime_config_sha256"; "executor_generation"; "product_binding"; "source_dimensions";
   "own_capture_selected"; "max_pair_delta_ns"; "outgoing_runtime_spec_id"; "incoming_runtime_spec_id"].
Definition arm_keys : list string :=
  ["binding"; "challenge"; "arm_generation"; "native_process"; "process_epoch"; "runtime_config_sha256"].
Definition configuration_keys : list string :=
  ["$schema"; "config_sha256"; "app_process_generation"; "app_record_sha256"; "native_executor_generation";
   "local_peer_id"; "fresh_setup_build_policy"].
Definition policy_keys : list string :=
  ["$schema"; "selection"; "policy"; "policy_sha256"; "enrollment_selection_sha256"].
Definition shape_numbers : list string :=
  ["packed_width"; "packed_height"; "per_eye_width"; "per_eye_height"; "frame_rate_hz"; "bitrate_bps"].
Definition shape_keys : list string := shape_numbers ++ ["left_camera_id"; "right_camera_id"].
Definition provider_keys : list string := ["owner_kind"; "owner_id"; "provider_kind"; "resource_id"].

(** The tests before the digest of the target is computed. *)
Definition identity_differs (self : AndroidPreparedStartRequest) : bool :=
  let target := psr_resource_target self in
  negb (psr_schema_id self =? REQUEST_SCHEMA)%string ||
  negb (hex (psr_preparation_id self) 32) ||
  negb (hex (psr_original_id self) 32) ||
  (psr_app_process_generation self =? 0) ||
  (psr_native_executor_generation self =? 0) ||
  negb (hex (psr_app_record_sha256 self) 64) ||
  negb (hex (psr_config_sha256 self) 64) ||
  negb (exact target target_keys) ||
  negb (eq_text (value_index target "$schema") TARGET_SCHEMA) ||
  negb (eq_text (value_index target "runtime_config_sha256") (psr_config_sha256 self)) ||
  negb (eq_u64 (value_index target "executor_generation") (psr_native_executor_generation self)) ||
  bool_decide (as_bool (value_index target "own_capture_selected") = None) ||
  not_positive (value_index target "max_pair_delta_ns").

(** The tests after it. *)
Definition arm_differs (self : AndroidPreparedStartRequest) : bool :=
  let arm := psr_arm_binding self in
  negb (exact arm arm_keys) ||
  negb (eq_text (value_index arm "binding") "established") ||
  negb (eq_text (value_index arm "runtime_config_sha256") (psr_config_sha256 self)) ||
  not_positive (value_index arm "arm_generation") ||
  not_positive (value_index arm "native_process").

Definition configuration_differs (self : AndroidPreparedStartRequest) : bool :=
  let binding := psr_configuration_binding self in
  let policy := value_index binding "fresh_setup_build_policy" in
  negb (exact binding configuration_keys) ||
  negb (eq_text (value_index binding "$schema") "rusty.quest.embedded_duplex.runtime_configuration_binding.v1") ||
  negb (eq_text (value_index binding "config_sha256") (psr_config_sha256 self)) ||
  negb (eq_u64 (value_index binding "app_process_generation") (psr_app_process_generation self)) ||
  negb (eq_text (value_index binding "app_record_sha256") (psr_app_record_sha256 self)) ||
  negb (eq_u64 (value_index binding "native_executor_generation") (psr_native_executor_generation self)) ||
  negb (exact policy policy_keys) ||
  negb (eq_text (value_index policy "selection") "source-bound-v2").

(** [per_eye_width.as_u64().and_then(|w| w.checked_mul(2))]. *)
Definition doubled (v : Value) : option N :=
  w ← as_u64 v; if u64_max <? w * 2 then None else Some (w * 2).

Definition providers_of (target : Value) : Value := value_index (value_index target "product_binding") "providers".

Definition target_shape_invalid (target : Value) : bool :=
  let b := value_index target "product_binding" in
  let shape := value_index target "source_dimensions" in
  negb (exact b ["$schema"; "product_id"; "providers"]) ||
  negb (eq_text (value_index b "$schema") "rusty.quest.android.media.preparation_target.v1") ||
  negb (value_eqb (value_index b "product_id") (value_index target "outgoing_runtime_spec_id")) ||
  match as_array (value_index b "providers") with Some a => negb (len a =? 7) | None => true end ||
  negb (exact shape shape_keys) ||
  existsb (fun k => not_positive (value_index shape k)) shape_numbers ||
  negb (bool_decide (as_u64 (value_index shape "packed_width") = doubled (value_index shape "per_eye_width"))) ||
  negb (value_eqb (value_index shape "packed_height") (value_index shape "per_eye_height")).

(** [row[k].as_str().is_none_or(str::is_empty)]. *)
Definition no_text (v : Value) : bool := match as_str v with Some s => str_is_empty s | None => true end.

Definition provider_row_invalid (row : Value) : bool :=
  negb (exact row provider_keys) || existsb (fun k => no_text (value_index row k)) provider_keys.

Section Requests.
Context {RC : ReleaseCrypto} {JS : JsonStrings}.

(** The loop over the provider rows: a row is encoded only when its shape is
    right. *)
Fixpoint provider_rows (keys : gset (list N)) (rows : list Value) : result string unit :=
  match rows with
  | [] => Ok tt
  | row :: rest =>
      fail_if (provider_row_invalid row) "prepared duplicate/foreign provider row"%string ;;
      key ← prepared_start_canonical row;
      fail_if (bool_decide (key ∈ keys)) "prepared duplicate/foreign provider row"%string ;;
      provider_rows ({[ key ]} ∪ keys) rest
  end.

Definition request_validate (self : AndroidPreparedStartRequest) : result string unit :=
  let differs := "prepared actual constructor/ARM/actor/target differs"%string in
  fail_if (identity_differs self) differs ;;
  digest ← prepared_start_digest TARGET_SCHEMA (psr_resource_target self);
  fail_if (negb (psr_resource_target_sha256 self =? digest)%string || arm_differs self || configuration_differs self)
    differs ;;
  fail_if (target_shape_invalid (psr_resource_target self)) "prepared actual seven-owner/source shape"%string ;;
  rows ← ok_or (as_array (providers_of (psr_resource_target self))) "prepared provider rows"%string;
  provider_rows ∅ rows.

Definition request_digest (self : AndroidPreparedStartRequest) : result string string :=
  request_validate self ;;
  prepared_start_digest REQUEST_SCHEMA (request_value self).
End Requests.

(** ** Readbacks *)

Record AndroidPreparedEncodedFormat := mkEncodedFormat {
  pef_schema_id : string;
  pef_mime : string;
  pef_width : N;
  pef_height : N;
  pef_frame_rate_hz : N;
  pef_csd_0_hex : string;
  pef_csd_1_hex : option string;
  pef_profile : option Z;
  pef_level : option Z;
}.

#[global] Instance encoded_format_eq_dec : EqDecision AndroidPreparedEncodedFormat.
Proof. solve_decision. Defined.

Definition csd_invalid (s : string) : bool :=
  str_is_empty s || (65536 <? str_len s) || negb (str_len s mod 2 =? 0) || negb (hex s (str_len s)).

Definition format_validate (self : AndroidPreparedEncodedFormat) : result string unit :=
  fail_if (negb (pef_schema_id self =? "rusty.quest.android.media.prepared_encoded_format.v1")%string ||
           negb (pef_mime self =? "video/avc")%string ||
           (pef_width self =? 0) || (pef_height self =? 0) || (pef_frame_rate_hz self =? 0) ||
           csd_invalid (pef_csd_0_hex self) ||
           match pef_csd_1_hex self with Some s => csd_invalid s | None => false end)
    "prepared actual H264 output format/CSD absent"%string.

Record AndroidPreparedSenderReadback := mkSenderReadback {
  psn_schema_id : string;
  psn_preparation_id : string;
  psn_original_id : string;
  psn_executor_generation : N;
  psn_request_sha256 : string;
  psn_resource_target_sha256 : string;
  psn_provider_handle_id : string;
  psn_provider_state_revision : N;
  psn_stage : string;
  psn_outgoing_format : AndroidPreparedEncodedFormat;
  psn_delivery_gate_closed : bool;
  psn_peer_delivery_count : N;
}.

Record AndroidPreparedDecoderRequest := mkDecoderRequest {
  pdq_schema_id : string;
  pdq_preparation_id : string;
  pdq_request_sha256 : string;
  pdq_peer_preparation_id : string;
  pdq_peer_sender_receipt_sha256 : string;
  pdq_peer_format : AndroidPreparedEncodedFormat;
}.

Record AndroidPreparedDecoderReadback := mkDecoderReadback {
  pdr_schema_id : string;
  pdr_preparation_id : string;
  pdr_executor_generation : N;
  pdr_request_sha256 : string;
  pdr_resource_target_sha256 : string;
  pdr_provider_handle_id : string;
  pdr_provider_state_revision : N;
  pdr_stage : string;
  pdr_peer_sender_receipt_sha256 : string;
  pdr_delivery_gate_closed : bool;
  pdr_peer_delivery_count : N;
}.

#[global] Instance sender_readback_eq_dec : EqDecision AndroidPreparedSenderReadback.
Proof. solve_decision. Defined.
#[global] Instance decoder_request_eq_dec : EqDecision AndroidPreparedDecoderRequest.
Proof. solve_decision. Defined.
#[global] Instance decoder_readback_eq_dec : EqDecision AndroidPreparedDecoderReadback.
Proof. solve_decision. Defined.

Section Readbacks.
Context {RC : ReleaseCrypto} {JS : JsonStrings}.

Definition sender_validate (self : AndroidPreparedSenderReadback) (request : AndroidPreparedStartRequest)
    : result string unit :=
  format_validate (psn_outgoing_format self) ;;
  let shape := value_index (psr_resource_target request) "source_dimensions" in
  let differs := "prepared sender is not exact gated actual owner"%string in
  fail_if (negb (psn_schema_id self =? "rusty.quest.android.media.prepared_sender_readback.v1")%string ||
           negb (psn_preparation_id self =? psr_preparation_id request)%string ||
           negb (psn_original_id self =? psr_original_id request)%string ||
           negb (psn_executor_generation self =? psr_native_executor_generation request)) differs ;;
  digest ← request_digest request;
  fail_if (negb (psn_request_sha256 self =? digest)%string ||
           negb (psn_resource_target_sha256 self =? psr_resource_target_sha256 request)%string ||
           str_is_empty (psn_provider_handle_id self) ||
           (psn_provider_state_revision self =? 0) ||
           negb (psn_stage self =? "sender_ready")%string ||
           negb (psn_delivery_gate_closed self) ||
           negb (psn_peer_delivery_count self =? 0) ||
           negb (value_eqb (json_u64 (pef_width (psn_outgoing_format self))) (value_index shape "packed_width")) ||
           negb (value_eqb (json_u64 (pef_height (psn_outgoing_format self))) (value_index shape "packed_height")) ||
           negb (value_eqb (json_u64 (pef_frame_rate_hz (psn_outgoing_format self))) (value_index shape "frame_rate_hz")))
    differs.

Definition decoder_request_validate (self : AndroidPreparedDecoderRequest) (request : AndroidPreparedStartRequest)
    : result string unit :=
  format_validate (pdq_peer_format self) ;;
  let differs := "prepared decoder actual source binding differs"%string in
  fail_if (negb (pdq_schema_id self =? "rusty.quest.android.media.prepared_decoder_request.v1")%string ||
           negb (pdq_preparation_id self =? psr_preparation_id request)%string) differs ;;
  digest ← request_digest request;
  fail_if (negb (pdq_request_sha256 self =? digest)%string ||
           negb (hex (pdq_peer_preparation_id self) 32) ||
           negb (hash (pdq_peer_sender_receipt_sha256 self))) differs.

Definition decoder_validate (self : AndroidPreparedDecoderReadback) (request : AndroidPreparedStartRequest)
    (decoder : AndroidPreparedDecoderRequest) : result string unit :=
  decoder_request_validate decoder request ;;
  let differs := "prepared decoder is not exact gated actual owner"%string in
  fail_if (negb (pdr_schema_id self =? "rusty.quest.android.media.prepared_decoder_readback.v1")%string ||
           negb (pdr_preparation_id self =? psr_preparation_id request)%string ||
           negb (pdr_executor_generation self =? psr_native_executor_generation request)) differs ;;
  digest ← request_digest request;
  fail_if (negb (pdr_request_sha256 self =? digest)%string ||
           negb (pdr_resource_target_sha256 self =? psr_resource_target_sha256 request)%string ||
           str_is_empty (pdr_provider_handle_id self) ||
           (pdr_provider_state_revision self =? 0) ||
           negb (pdr_stage self =? "decoder_ready")%string ||
           negb (pdr_peer_sender_receipt_sha256 self =? pdq_peer_sender_receipt_sha256 decoder)%string ||
           negb (pdr_delivery_gate_closed self) ||
           negb (pdr_peer_delivery_count self =? 0)) differs.
End Readbacks.

(** ** The owner *)

(** The trait; [E] is the executor that [&mut self] updates. The identity of an
    executor is the address of its [Arc]. *)
Class AndroidPreparedResourceExecutor (E : Type) := {
  preparation_identity : E → N;
  sdk_prepare_sender : E → AndroidPreparedStartRequest → E * result string AndroidPreparedSenderReadback;
  sdk_verify_sender : E → AndroidPreparedStartRequest → AndroidPreparedSenderReadback → result string unit;
  sdk_prepare_decoder : E → AndroidPreparedStartRequest → AndroidPreparedDecoderRequest →
    E * result string AndroidPreparedDecoderReadback;
  sdk_verify_decoder : E → AndroidPreparedStartRequest → AndroidPreparedDecoderRequest →
    AndroidPreparedDecoderReadback → result string unit;
}.

Record AndroidPreparedStartOwner := mkStartOwner {
  pow_identity : N;
  pow_request : AndroidPreparedStartRequest;
  pow_sender_entered : bool;
  pow_decoder_entered : bool;
  pow_sender : option AndroidPreparedSenderReadback;
  pow_decoder_request : option AndroidPreparedDecoderRequest;
  pow_decoder : option AndroidPreparedDecoderReadback;
}.

Definition enter_sender (o : AndroidPreparedStartOwner) : AndroidPreparedStartOwner :=
  mkStartOwner (pow_identity o) (pow_request o) true (pow_decoder_entered o) (pow_sender o) (pow_decoder_request o)
    (pow_decoder o).

Definition set_sender (receipt : AndroidPreparedSenderReadback) (o : AndroidPreparedStartOwner)
    : AndroidPreparedStartOwner :=
  mkStartOwner (pow_identity o) (pow_request o) (pow_sender_entered o) (pow_decoder_entered o) (Some receipt)
    (pow_decoder_request o) (pow_decoder o).

Definition enter_decoder (decoder : AndroidPreparedDecoderRequest) (o : AndroidPreparedStartOwner)
    : AndroidPreparedStartOwner :=
  mkStartOwner (pow_identity o) (pow_request o) (pow_sender_entered o) true (pow_sender o) (Some decoder) (pow_decoder o).

Definition set_decoder (receipt : AndroidPreparedDecoderReadback) (o : AndroidPreparedStartOwner)
    : AndroidPreparedStartOwner :=
  mkStartOwner (pow_identity o) (pow_request o) (pow_sender_entered o) (pow_decoder_entered o) (pow_sender o)
    (pow_decoder_request o) (Some receipt).

Section Owner.
Context {RC : ReleaseCrypto} {JS : JsonStrings} {E : Type} {EX : AndroidPreparedResourceExecutor E}.

Definition prepared_reserve (executor : E) (request : AndroidPreparedStartRequest) : result string AndroidPreparedStartOwner :=
  request_validate request ;;
  Ok (mkStartOwner (preparation_identity executor) request false false None None None).

Definition same (self : AndroidPreparedStartOwner) (e : E) : result string unit :=
  fail_if (negb (pow_identity self =? preparation_identity e)) "foreign prepared registry owner"%string.

(** The methods take the owner and the executor and leave both. *)
Definition prepared (A : Type) : Type := state_result (AndroidPreparedStartOwner * E) string A.

Definition on_owner (f : AndroidPreparedStartOwner → AndroidPreparedStartOwner) : prepared unit :=
  modify (fun '(o, e) => (f o, e)).

(** A call of the executor on the request of the owner. *)
Definition call_sdk {A} (call : E → AndroidPreparedStartRequest → E * result string A) : prepared A :=
  fun '(o, e) => let '(e', r) := call e (pow_request o) in ((o, e'), r).

Definition prepare_sender : prepared AndroidPreparedSenderReadback :=
  asks (fun '(o, e) => same o e) ;;
  reject_if (fun '(o, _) => pow_sender_entered o) "sender entered; no SDK replay"%string ;;
  on_owner enter_sender ;;
  receipt ← call_sdk sdk_prepare_sender;
  asks (fun '(o, _) => sender_validate receipt (pow_request o)) ;;
  asks (fun '(o, e) => sdk_verify_sender e (pow_request o) receipt) ;;
  on_owner (set_sender receipt) ;;
  mret receipt.

(** What a repeated decoder request is answered with. *)
Definition repeated_decoder (decoder prior : AndroidPreparedDecoderRequest) (o : AndroidPreparedStartOwner) (e : E)
    : result string AndroidPreparedDecoderReadback :=
  let replay := Err "decoder entered/changed; no SDK replay"%string in
  if bool_decide (prior = decoder)
  then match pow_decoder o with
       | Some receipt => sdk_verify_decoder e (pow_request o) prior receipt ;; Ok receipt
       | None => replay
       end
  else replay.

Definition enter_new_decoder (decoder : AndroidPreparedDecoderRequest) : prepared AndroidPreparedDecoderReadback :=
  on_owner (enter_decoder decoder) ;;
  receipt ← call_sdk (fun e r => sdk_prepare_decoder e r decoder);
  asks (fun '(o, _) => decoder_validate receipt (pow_request o) decoder) ;;
  asks (fun '(o, e) => sdk_verify_decoder e (pow_request o) decoder receipt) ;;
  on_owner (set_decoder receipt) ;;
  mret receipt.

Definition prepare_decoder (decoder : AndroidPreparedDecoderRequest) : prepared AndroidPreparedDecoderReadback :=
  asks (fun '(o, e) => same o e) ;;
  asks (fun '(o, _) => decoder_request_validate decoder (pow_request o)) ;;
  prior ← gets (fun '(o, _) => pow_decoder_request o);
  match prior with
  | Some prior => asks (fun '(o, e) => repeated_decoder decoder prior o e)
  | None => enter_new_decoder decoder
  end.

Definition require_ready (self : AndroidPreparedStartOwner) (e : E) : result string unit :=
  same self e ;;
  sender ← ok_or (pow_sender self) "actual sender not ready"%string;
  request ← ok_or (pow_decoder_request self) "actual peer format absent"%string;
  decoder ← ok_or (pow_decoder self) "actual decoder not ready"%string;
  sdk_verify_sender e (pow_request self) sender ;;
  sdk_verify_decoder e (pow_request self) request decoder.
End Owner.

(** ** Aborts *)

Record AndroidPreparedAbortRequest := mkAbortRequest {
  par_schema_id : string;
  par_preparation_id : string;
  par_cleanup_original_id : string;
  par_app_process_generation : N;
  par_app_record_sha256 : string;
  par_native_executor_generation : N;
  par_config_sha256 : string;
  par_request_sha256 : string;
  par_resource_target_sha256 : string;
}.

Record AndroidPreparedOwnerTerminal := mkOwnerTerminal {
  pot_schema_id : string;
  pot_owner_kind : string;
  pot_owner_id : string;
  pot_provider_kind : string;
  pot_resource_id : string;
  pot_construction_state : string;
  pot_terminal_receipt : Value;
}.

Record AndroidPreparedAbortReadback := mkAbortReadback {
  pab_schema_id : string;
  pab_preparation_id : string;
  pab_original_id : string;
  pab_cleanup_original_id : string;
  pab_executor_generation : N;
  pab_request_sha256 : string;
  pab_resource_target_sha256 : string;
  pab_provider_handle_id : string;
  pab_provider_state_revision : N;
  pab_stage : string;
  pab_owner_receipts : list AndroidPreparedOwnerTerminal;
  pab_delivery_gate_closed : bool;
  pab_peer_delivery_count : N;
}.

Definition terminal_identity (row : AndroidPreparedOwnerTerminal) : Value :=
  json_object
    [("owner_kind", VString (pot_owner_kind row)); ("owner_id", VString (pot_owner_id row));
     ("provider_kind", VString (pot_provider_kind row)); ("resource_id", VString (pot_resource_id row))].

Definition cleanup_differs (r : AndroidPreparedStartRequest) (cleanup : AndroidPreparedAbortRequest) : bool :=
  negb (par_schema_id cleanup =? "rusty.quest.android.media.prepared_abort_request.v1")%string ||
  negb (par_preparation_id cleanup =? psr_preparation_id r)%string ||
  negb (hex (par_cleanup_original_id cleanup) 32) ||
  negb (par_app_process_generation cleanup =? psr_app_process_generation r) ||
  negb (par_app_record_sha256 cleanup =? psr_app_record_sha256 r)%string ||
  negb (par_native_executor_generation cleanup =? psr_native_executor_generation r) ||
  negb (par_config_sha256 cleanup =? psr_config_sha256 r)%string.

Definition abort_differs (self : AndroidPreparedAbortReadback) (r : AndroidPreparedStartRequest)
    (cleanup : AndroidPreparedAbortRequest) (digest : string) : bool :=
  negb (par_request_sha256 cleanup =? digest)%string ||
  negb (par_resource_target_sha256 cleanup =? psr_resource_target_sha256 r)%string ||
  negb (pab_schema_id self =? "rusty.quest.android.media.prepared_abort_readback.v1")%string ||
  negb (pab_preparation_id self =? psr_preparation_id r)%string ||
  negb (pab_original_id self =? psr_original_id r)%string ||
  negb (pab_cleanup_original_id self =? par_cleanup_original_id cleanup)%string ||
  negb (pab_executor_generation self =? psr_native_executor_generation r) ||
  negb (pab_request_sha256 self =? digest)%string ||
  negb (pab_resource_target_sha256 self =? psr_resource_target_sha256 r)%string ||
  str_is_empty (pab_provider_handle_id self) ||
  (pab_provider_state_revision self =? 0) ||
  negb (pab_stage self =? "terminal")%string ||
  negb (pab_delivery_gate_closed self) ||
  negb (pab_peer_delivery_count self =? 0) ||
  negb (len (pab_owner_receipts self) =? 7).

Definition terminal_row_invalid (providers : list Value) (row : AndroidPreparedOwnerTerminal) : bool :=
  negb (pot_schema_id row =? "rusty.quest.android.media.prepared_owner_terminal.v1")%string ||
  negb ((pot_construction_state row =? "never_entered")%string || (pot_construction_state row =? "closed_joined")%string) ||
  negb (existsb (value_eqb (terminal_identity row)) providers).

Section Aborts.
Context {RC : ReleaseCrypto} {JS : JsonStrings}.

Fixpoint terminal_rows (providers : list Value) (seen : gset (list N)) (rows : list AndroidPreparedOwnerTerminal)
    : result string unit :=
  let differs := "prepared actual terminal provider coverage differs"%string in
  match rows with
  | [] => Ok tt
  | row :: rest =>
      fail_if (terminal_row_invalid providers row) differs ;;
      key ← prepared_start_canonical (terminal_identity row);
      fail_if (bool_decide (key ∈ seen) || bool_decide (as_object (pot_terminal_receipt row) = None)) differs ;;
      terminal_rows providers ({[ key ]} ∪ seen) rest
  end.

Definition abort_validate (self : AndroidPreparedAbortReadback) (r : AndroidPreparedStartRequest)
    (cleanup : AndroidPreparedAbortRequest) : result string unit :=
  request_validate r ;;
  let differs := "prepared actual abort Original/source/owner differs"%string in
  fail_if (cleanup_differs r cleanup) differs ;;
  digest ← request_digest r;
  fail_if (abort_differs self r cleanup digest) differs ;;
  providers ← ok_or (as_array (providers_of (psr_resource_target r))) "prepared providers absent"%string;
  terminal_rows providers ∅ (pab_owner_receipts self).
End Aborts.
