(* ===== verification/PreparedTheorems.v ===== *)
(** * Prepared starts: theorems

    The canonical text determines the document, so signatures and digests bind
    frames and requests; the owner enters the SDK once per half; a terminal abort
    covers every provider. *)

From Stdlib Require Import Sorting.Sorted.
From S2P Require Import Prelude RustStr OrdMap StateResult UpdateAdmission SessionClock JsonValue PreparedStart.

Local Open Scope N_scope.

(** ** Ordered documents *)

(** The document with the entries of every object by ascending key. *)
Fixpoint sorted_value (v : Value) : Value :=
  match v with
  | VArray a => VArray (map sorted_value a)
  | VObject o => VObject (sort_by compare_keys (map (fun e => (fst e, sorted_value (snd e))) o))
  | v => v
  end.

(** Documents whose objects are ordered maps. *)
Inductive value_sorted : Value → Prop :=
  | sorted_null : value_sorted VNull
  | sorted_bool b : value_sorted (VBool b)
  | sorted_number t : value_sorted (VNumber t)
  | sorted_string t : value_sorted (VString t)
  | sorted_array a : Forall value_sorted a → value_sorted (VArray a)
  | sorted_object o : bt_sorted o → Forall (fun e => value_sorted (snd e)) o → value_sorted (VObject o).

Section SortMap.
Context {A B : Type} (f : A → B).
Local Notation on_snd := (fun e : string * A => (fst e, f (snd e))).

Lemma sorted_insert_map x l :
  sorted_insert compare_keys (on_snd x) (map on_snd l) = map on_snd (sorted_insert compare_keys x l).
Proof. induction l as [|y l IH]; cbn; [done|]. unfold compare_keys in *. cbn. destruct (String.compare _ _); cbn; congruence. Qed.

Lemma sort_by_map l : sort_by compare_keys (map on_snd l) = map on_snd (sort_by compare_keys l).
Proof.
  unfold sort_by. induction l as [|x l IH]; [done|]. cbn [map foldr]. rewrite IH. apply sorted_insert_map.
Qed.
End SortMap.

Lemma sorted_value_id v : value_sorted v → sorted_value v = v.
Proof.
  induction v as [|b|t|t|a IH|o IH] using value_ind_nested; intros Hv; try done; inversion_clear Hv; cbn; f_equal.
  - rewrite <- (map_id a) at 2. apply map_ext_Forall. rewrite Forall_forall in *. auto.
  - assert (map (fun e => (fst e, sorted_value (snd e))) o = o) as ->; [|by apply sort_by_sorted].
    rewrite <- (map_id o) at 2. apply map_ext_Forall. rewrite Forall_forall in *. intros [k v] Hin. cbn. f_equal.
    apply (IH _ Hin), (H0 _ Hin).
Qed.

Lemma sorted_value_wf v : value_wf v → value_wf (sorted_value v).
Proof.
  induction v as [|b|t|t|a IH|o IH] using value_ind_nested; intros Hv; try done; inversion_clear Hv; cbn; constructor.
  - rewrite Forall_forall in *. intros x Hx. apply list_elem_of_In, in_map_iff in Hx as (y & <- & Hy%list_elem_of_In). auto.
  - rewrite sort_by_perm. rewrite Forall_forall in *. intros x Hx.
    apply list_elem_of_In, in_map_iff in Hx as (y & <- & Hy%list_elem_of_In). cbn. split; [by apply H|].
    by apply IH, H.
Qed.

Lemma value_eqb_eq v w : value_eqb v w = true ↔ v = w.
Proof.
  revert w. induction v as [|b|t|t|a IH|o IH] using value_ind_nested; intros [|b'|t'|t'|a'|o']; try (split; (done || discriminate)).
  - cbn. rewrite Bool.eqb_true_iff. split; congruence.
  - cbn. rewrite String.eqb_eq. split; congruence.
  - cbn. rewrite String.eqb_eq. split; congruence.
  - revert a'. induction IH as [|x a Hx _ IHa]; intros [|y a']; try (split; (done || discriminate)).
    specialize (IHa a'). cbn in IHa |- *. rewrite andb_true_iff, Hx, IHa. split; [|by intros [= -> ->]].
    by intros [-> [= ->]].
  - revert o'. induction IH as [|[k x] o Hx _ IHo]; intros [|[l y] o']; try (split; (done || discriminate)).
    specialize (IHo o'). cbn in IHo, Hx |- *. rewrite !andb_true_iff, String.eqb_eq, Hx, IHo.
    split; [by intros [[-> ->] [= ->]]|by intros [= -> -> ->]].
Qed.

(** ** The canonical text *)

Section CanonicalText.
Context {JS : JsonStrings} (HJ : delimited str_to_vec).

Lemma emit_sorted v : emit v = json_text str_to_vec (sorted_value v).
Proof.
  induction v as [|b|t|t|a IH|o IH] using value_ind_nested; try done; cbn.
  - rewrite map_map. do 3 f_equal. by apply map_ext_Forall.
  - do 3 f_equal. rewrite !sort_by_map, !map_map. apply map_ext_Forall. rewrite sort_by_perm.
    eapply Forall_impl; [exact IH|]. cbn. by intros e ->.
Qed.

Lemma canonical_ok v x : prepared_start_canonical v = Ok x ↔ canonical_valid v = true ∧ x = emit v.
Proof.
  unfold prepared_start_canonical. rewrite fail_if_bind_ok, negb_false_iff. split; intros [? ?]; split; congruence.
Qed.

(** Documents with one canonical text differ at most in the order of entries. *)
Lemma canonical_determines v w x :
  value_wf v → value_wf w → prepared_start_canonical v = Ok x → prepared_start_canonical w = Ok x →
  sorted_value v = sorted_value w.
Proof.
  rewrite !canonical_ok, !emit_sorted. intros Hv Hw [_ ->] [_ E].
  apply (json_text_inj _ HJ) in E; [done|by apply sorted_value_wf..].
Qed.
End CanonicalText.

(** ** Frames *)

Lemma hex_digit_lower n : n < 16 →
  hex_digit_value (byte_of (Ascii.ascii_of_N (if n <? 10 then 48 + n else 87 + n))) = Some n.
Proof.
  intros Hn. rewrite byte_of_ascii_of_N by (unfold is_u8; destruct (n <? 10); lia).
  unfold hex_digit_value, is_ascii_digit. destruct (N.ltb_spec n 10).
  - rewrite (proj2 (N.leb_le 48 _)), (proj2 (N.leb_le _ 57)) by lia. cbn. f_equal. lia.
  - rewrite (proj2 (N.leb_gt _ 57)) by lia. rewrite andb_false_r.
    rewrite (proj2 (N.leb_le 97 _)), (proj2 (N.leb_le _ 102)) by lia. cbn. f_equal. lia.
Qed.

(** Hexadecimal text is read back as the bytes it was written from. *)
Lemma hex_pairs_of_bytes bs : Forall is_u8 bs → hex_pairs (str_bytes (hex_of_bytes bs)) = Some bs.
Proof.
  induction 1 as [|b bs Hb _ IH]; [done|]. unfold is_u8 in Hb. cbn [hex_of_bytes].
  rewrite !str_bytes_app. unfold lower_hex_digit. cbn [str_bytes app hex_pairs].
  rewrite !hex_digit_lower by (try apply N.Div0.div_lt_upper_bound; try apply N.mod_lt; lia). cbn. rewrite IH. cbn.
  f_equal. f_equal. pose proof (N.div_mod b 16 ltac:(done)). lia.
Qed.

Lemma hex_of_bytes_hex bs n : Forall is_u8 bs → 2 * len bs = n → hex (hex_of_bytes bs) n = true.
Proof.
  intros Hbs <-. destruct (hex_of_bytes_ok bs Hbs) as [Hl Hd]. unfold hex. rewrite Hd, andb_true_r.
  apply N.eqb_eq. unfold str_len, len. lia.
Qed.

(** What a frame is as a value of its type: Unicode texts, ordered objects, a
    64-bit time. *)
Record frame_wf (b : AndroidPreparedStartFrameBody) : Prop := {
  frame_wf_value : value_wf (frame_value b);
  frame_wf_payload : value_sorted (fb_payload b);
  frame_wf_time : fb_issued_at_ms b <= u64_max;
}.

Lemma json_object_sorted fields : Forall (fun e => value_sorted (snd e)) fields → value_sorted (json_object fields).
Proof.
  intros Hf. assert (∀ m, bt_sorted m → Forall (fun e => value_sorted (snd e)) m →
    let m' := fold_left (fun m e => bt_insert (fst e) (snd e) m) fields m in
    bt_sorted m' ∧ Forall (fun e => value_sorted (snd e)) m') as H.
  { induction Hf as [|[k v] fields Hv _ IH]; cbn; intros m Hm Hs; [done|]. apply IH; [by apply bt_insert_sorted|].
    rewrite Forall_forall in *. intros x [->|Hx]%bt_insert_keys; [done|auto]. }
  destruct (H []) as [? ?]; [by constructor..|]. by constructor.
Qed.

Lemma json_option_inj a b : json_option a = json_option b → a = b.
Proof. destruct a, b; cbn; congruence. Qed.

Lemma json_option_sorted o : value_sorted (json_option o).
Proof. destruct o; constructor. Qed.

Lemma frame_value_sorted b : value_sorted (fb_payload b) → value_sorted (frame_value b).
Proof. intros. apply json_object_sorted. repeat constructor; [apply json_option_sorted|done]. Qed.

Lemma frame_value_inj a b :
  fb_issued_at_ms a <= u64_max → fb_issued_at_ms b <= u64_max → frame_value a = frame_value b → a = b.
Proof.
  destruct a as [a1 a2 a3 a4 a5 a6 a7 a8 a9 a10], b as [b1 b2 b3 b4 b5 b6 b7 b8 b9 b10]. unfold frame_value, json_object.
  cbn. intros Ha Hb [= ? H9 ? ? ? H5 ? ? ? ?]. apply fmt_decimal_inj in H9; [|done..]. apply json_option_inj in H5.
  congruence.
Qed.

Section FrameSecurity.
Context {RC : ReleaseCrypto} {JS : JsonStrings} {FJ : PreparedFrameJson}.

Lemma signing_bytes_ok b x :
  prepared_start_frame_signing_bytes b = Ok x ↔
  validate_prepared_start_frame b = Ok tt ∧ canonical_valid (frame_value b) = true ∧ x = FRAME_DOMAIN ++ emit (frame_value b).
Proof.
  unfold prepared_start_frame_signing_bytes. rewrite then_ok, bind_ok. split.
  - intros (Hv & canonical & [? ->]%canonical_ok & [= <-]). done.
  - intros (Hv & Hc & ->). split; [done|]. eexists. by rewrite canonical_ok.
Qed.

(** The bytes that are signed determine the frame. *)
Lemma signing_bytes_determine (HJ : delimited str_to_vec) a b x :
  frame_wf a → frame_wf b → prepared_start_frame_signing_bytes a = Ok x →
  prepared_start_frame_signing_bytes b = Ok x → a = b.
Proof.
  intros [Wa Sa Ta] [Wb Sb Tb] (_ & Va & Ea)%signing_bytes_ok (_ & Vb & Eb)%signing_bytes_ok.
  rewrite Ea in Eb. apply app_inv_head in Eb. apply frame_value_inj; [done..|].
  rewrite <- (sorted_value_id (frame_value a)), <- (sorted_value_id (frame_value b)) by by apply frame_value_sorted.
  apply (canonical_determines HJ _ _ (emit (frame_value a))); [done..|by apply canonical_ok|by apply canonical_ok].
Qed.

(** What it takes to be decoded. *)
Definition frame_accepted (raw peer_key : list N) (sender receiver route : string) (now : N)
    (b : AndroidPreparedStartFrameBody) : Prop :=
  ∃ encoded text signature key signed,
    raw = ANDROID_PREPARED_START_FRAME_MAGIC ++ encoded ∧ len raw <= MAX_PREPARED_FRAME_BYTES ∧
    prepared_from_slice encoded = Some (mkFrameEnvelope b text) ∧
    fb_sender_peer_id b = sender ∧ fb_receiver_peer_id b = receiver ∧ fb_route_configuration_sha256 b = route ∧
    fb_issued_at_ms b <= now ∧ hex text 128 = true ∧ hex_pairs (str_bytes text) = Some signature ∧
    vk_from_bytes peer_key = Some key ∧ prepared_start_frame_signing_bytes b = Ok signed ∧
    verify_strict key signed signature = true.

Lemma starts_with_magic_iff raw :
  starts_with_magic raw = true ↔ raw = ANDROID_PREPARED_START_FRAME_MAGIC ++ drop (length ANDROID_PREPARED_START_FRAME_MAGIC) raw.
Proof.
  unfold starts_with_magic. rewrite bool_decide_eq_true. split.
  - intros E. rewrite <- E at 1. by rewrite take_drop.
  - intros E. rewrite E at 1. by rewrite take_app_length.
Qed.

Lemma decode_ok raw peer_key sender receiver route now b :
  decode_prepared_start_frame raw peer_key sender receiver route now = Ok b ↔
  frame_accepted raw peer_key sender receiver route now b.
Proof.
  unfold decode_prepared_start_frame, frame_accepted. split.
  - intros H. rewrite fail_if_bind_ok in H. destruct H as [E H]. rewrite ok_or_bind_ok in H.
    destruct H as ([body text] & Es & H). rewrite then_ok in H. destruct H as [_ H]. rewrite fail_if_bind_ok in H.
    destruct H as [Eb H]. rewrite ok_or_bind_ok in H. destruct H as (signature & Eh & H). rewrite ok_or_bind_ok in H.
    destruct H as (key & Ek & H). rewrite bind_ok in H. destruct H as (signed & Esg & H). rewrite fail_if_bind_ok in H.
    destruct H as [Ev [= <-]]. cbn [fe_body fe_signature_hex] in *.
    apply orb_false_iff in E as [Em%negb_false_iff%starts_with_magic_iff El%N.ltb_ge]. bool_to_prop.
    by eexists _, text, signature, key, signed.
  - intros (encoded & text & signature & key & signed & -> & Hl & Es & <- & <- & <- & Ht & Hx & Eh & Ek & Esg & Ev).
    rewrite fail_if_bind_ok. split.
    { rewrite orb_false_iff, negb_false_iff, starts_with_magic_iff, drop_app_length, N.ltb_ge. done. }
    rewrite drop_app_length, Es. cbn [ok_or mbind result_bind fe_body fe_signature_hex].
    pose proof (proj1 (signing_bytes_ok _ _) Esg) as (-> & _). cbn [mbind result_bind].
    rewrite !String.eqb_refl, Hx, (proj2 (N.ltb_ge _ _)) by done. cbn. rewrite Eh. cbn. rewrite Ek. cbn. rewrite Esg. cbn.
    by rewrite Ev.
Qed.
End FrameSecurity.

(** ** The owner over any calls *)

(** An effect that entered the SDK: the executor that was entered and what it was
    given. *)
Inductive sdk_call :=
  | SenderCall (identity : N) (request : AndroidPreparedStartRequest)
  | DecoderCall (identity : N) (request : AndroidPreparedStartRequest) (decoder : AndroidPreparedDecoderRequest).

Definition is_sender_call (c : sdk_call) : bool := match c with SenderCall _ _ => true | _ => false end.
Definition is_decoder_call (c : sdk_call) : bool := match c with DecoderCall _ _ _ => true | _ => false end.

(** An executor that records the effects it is asked for. *)
Record recording (E : Type) := mkLogged { inner : E; calls : list sdk_call }.
Arguments mkLogged {E}.
Arguments inner {E}.
Arguments calls {E}.

Section Owner.
Context {RC : ReleaseCrypto} {JS : JsonStrings} {E : Type} {EX : AndroidPreparedResourceExecutor E}.

#[export] Instance logged_executor : AndroidPreparedResourceExecutor (recording E) := {
  preparation_identity e := preparation_identity (inner e);
  sdk_prepare_sender e r :=
    let '(e', res) := sdk_prepare_sender (inner e) r in
    (mkLogged e' (calls e ++ [SenderCall (preparation_identity (inner e)) r]), res);
  sdk_verify_sender e r s := sdk_verify_sender (inner e) r s;
  sdk_prepare_decoder e r d :=
    let '(e', res) := sdk_prepare_decoder (inner e) r d in
    (mkLogged e' (calls e ++ [DecoderCall (preparation_identity (inner e)) r d]), res);
  sdk_verify_decoder e r d s := sdk_verify_decoder (inner e) r d s;
}.

(** A reservation and any calls of its methods, each with any executor. *)
Inductive prepared_run : AndroidPreparedStartOwner → list sdk_call → Prop :=
  | run_reserve (e : E) r o : prepared_reserve e r = Ok o → prepared_run o []
  | run_sender o log (e : E) o' e' res :
      prepared_run o log → prepare_sender (o, mkLogged e log) = ((o', e'), res) → prepared_run o' (calls e')
  | run_decoder o log (e : E) decoder o' e' res :
      prepared_run o log → prepare_decoder decoder (o, mkLogged e log) = ((o', e'), res) → prepared_run o' (calls e').

(** What the owner remembers is what happened. *)
Record owner_inv (o : AndroidPreparedStartOwner) (log : list sdk_call) : Prop := {
  inv_sender_calls : filter is_sender_call log =
    if pow_sender_entered o then [SenderCall (pow_identity o) (pow_request o)] else [];
  inv_decoder_calls : filter is_decoder_call log =
    match pow_decoder_request o with Some d => [DecoderCall (pow_identity o) (pow_request o) d] | None => [] end;
  inv_decoder_entered : pow_decoder_entered o = bool_decide (is_Some (pow_decoder_request o));
  inv_request : request_validate (pow_request o) = Ok tt;
  inv_sender s : pow_sender o = Some s → pow_sender_entered o = true ∧ sender_validate s (pow_request o) = Ok tt;
  inv_decoder d : pow_decoder o = Some d →
    ∃ dr, pow_decoder_request o = Some dr ∧ decoder_validate d (pow_request o) dr = Ok tt;
}.

Lemma reserve_inv (e : E) r o : prepared_reserve e r = Ok o → owner_inv o [].
Proof. unfold prepared_reserve. intros [Hv [= <-]]%then_ok. by split. Qed.

Lemma same_ok o (e : E) : same o e = Ok tt ↔ pow_identity o = preparation_identity e.
Proof. unfold same. rewrite fail_if_ok, negb_false_iff, N.eqb_eq. done. Qed.

(** The owner after a call: the same reservation. *)
Definition same_reservation (o o' : AndroidPreparedStartOwner) : Prop :=
  pow_identity o' = pow_identity o ∧ pow_request o' = pow_request o.

Lemma enter_sender_inv o log :
  owner_inv o log → pow_sender_entered o = false →
  owner_inv (enter_sender o) (log ++ [SenderCall (pow_identity o) (pow_request o)]).
Proof.
  intros [Hs Hd He Hr Hsv Hdv] Hf. rewrite Hf in *. split; cbn; try done.
  - by rewrite filter_app, Hs.
  - by rewrite filter_app, Hd, app_nil_r.
  - intros s E0. by destruct (Hsv s E0).
Qed.

Lemma set_sender_inv o log s :
  owner_inv o log → pow_sender_entered o = true → sender_validate s (pow_request o) = Ok tt →
  owner_inv (set_sender s o) log.
Proof. intros [Hs Hd He Hr Hsv Hdv] Ht Hv. split; cbn; try done. by intros ? [= <-]. Qed.

Lemma enter_decoder_inv o log d :
  owner_inv o log → pow_decoder_request o = None →
  owner_inv (enter_decoder d o) (log ++ [DecoderCall (pow_identity o) (pow_request o) d]).
Proof.
  intros [Hs Hd He Hr Hsv Hdv] Hn. split; cbn; try done.
  - by rewrite filter_app, Hs, app_nil_r.
  - by rewrite filter_app, Hd, Hn.
  - intros s E0. destruct (Hdv s E0) as (dr & ? & _). congruence.
Qed.

Lemma set_decoder_inv o log d dr :
  owner_inv o log → pow_decoder_request o = Some dr → decoder_validate d (pow_request o) dr = Ok tt →
  owner_inv (set_decoder d o) log.
Proof. intros [Hs Hd He Hr Hsv Hdv] Ht Hv. split; cbn; try done. intros ? [= <-]. by exists dr. Qed.

(** The outcome of a call, whatever it is. *)
Definition call_post {A} (o : AndroidPreparedStartOwner) (s' : AndroidPreparedStartOwner * recording E) (r : result string A)
    : Prop :=
  let '(o', e') := s' in owner_inv o' (calls e') ∧ same_reservation o o'.

Lemma prepare_sender_inv o log (e : E) :
  owner_inv o log → wp prepare_sender (call_post o) (o, mkLogged e log).
Proof.
  intros HI. unfold prepare_sender, on_owner. wp_step. wp_step. destruct (same _ _) as [[]|] eqn:Es; [|done].
  apply same_ok in Es. cbn in Es. wp_step. wp_step; [done|]. cbn in Hok. wp_step. wp_step. cbn.
  unfold wp, mbind, state_result_bind, call_sdk. cbn. destruct (sdk_prepare_sender e _) as [e' [receipt|]]; cbn.
  2: { split; [|done]. rewrite <- Es. by apply enter_sender_inv. }
  rewrite <- Es. pose proof (enter_sender_inv o log HI Hok) as HI'. unfold asks.
  destruct (sender_validate receipt _) as [[]|] eqn:Ev; [|done]. destruct (sdk_verify_sender e' _ _) as [[]|]; [|done].
  cbn. split; [|done]. by apply set_sender_inv.
Qed.

Lemma prepare_decoder_inv o log (e : E) d :
  owner_inv o log → wp (prepare_decoder d) (call_post o) (o, mkLogged e log).
Proof.
  intros HI. unfold prepare_decoder. wp_step. wp_step. destruct (same _ _) as [[]|] eqn:Es; [|done].
  apply same_ok in Es. cbn in Es. wp_step. wp_step. destruct (decoder_request_validate d _) as [[]|] eqn:Ed; [|done].
  wp_step. wp_step. destruct (pow_decoder_request o) as [prior|] eqn:Ep; [wp_step; done|].
  unfold enter_new_decoder, on_owner. wp_step. wp_step. cbn.
  unfold wp, mbind, state_result_bind, call_sdk. cbn. destruct (sdk_prepare_decoder e _ _) as [e' [receipt|]]; cbn.
  2: { split; [|done]. rewrite <- Es. by apply enter_decoder_inv. }
  rewrite <- Es. pose proof (enter_decoder_inv o log d HI Ep) as HI'. unfold asks.
  destruct (decoder_validate receipt _ _) as [[]|] eqn:Ev; [|done]. destruct (sdk_verify_decoder e' _ _ _) as [[]|]; [|done].
  cbn. split; [|done]. by eapply set_decoder_inv.
Qed.

Lemma prepared_run_inv o log : prepared_run o log → owner_inv o log.
Proof.
  induction 1 as [e r o H|o log e o' e' res _ IH H|o log e decoder o' e' res _ IH H].
  - by eapply reserve_inv.
  - by apply (wp_run _ (call_post o) _ _ _ H), prepare_sender_inv.
  - by apply (wp_run _ (call_post o) _ _ _ H), prepare_decoder_inv.
Qed.

Lemma require_ready_ok o (e : E) :
  require_ready o e = Ok tt ↔
  pow_identity o = preparation_identity e ∧
  ∃ s dr d, pow_sender o = Some s ∧ pow_decoder_request o = Some dr ∧ pow_decoder o = Some d ∧
    sdk_verify_sender e (pow_request o) s = Ok tt ∧ sdk_verify_decoder e (pow_request o) dr d = Ok tt.
Proof.
  unfold require_ready. rewrite then_ok, same_ok, ok_or_bind_ok. setoid_rewrite ok_or_bind_ok.
  setoid_rewrite ok_or_bind_ok. setoid_rewrite then_ok. naive_solver.
Qed.
End Owner.

(** ** Digests *)

(** Two different byte strings with one digest. *)
Definition sha256_collision {RC : ReleaseCrypto} : Prop := ∃ a b, a ≠ b ∧ sha256_digest a = sha256_digest b.

Lemma hex_of_bytes_inj a b : Forall is_u8 a → Forall is_u8 b → hex_of_bytes a = hex_of_bytes b → a = b.
Proof. intros Ha Hb E. apply (f_equal (fun t => hex_pairs (str_bytes t))) in E. rewrite !hex_pairs_of_bytes in E by done. congruence. Qed.

Record request_wf (r : AndroidPreparedStartRequest) : Prop := {
  request_wf_value : value_wf (request_value r);
  request_wf_arm : value_sorted (psr_arm_binding r);
  request_wf_configuration : value_sorted (psr_configuration_binding r);
  request_wf_target : value_sorted (psr_resource_target r);
  request_wf_app : psr_app_process_generation r <= u64_max;
  request_wf_native : psr_native_executor_generation r <= u64_max;
}.

Lemma request_value_sorted r : request_wf r → value_sorted (request_value r).
Proof. intros []. apply json_object_sorted. by repeat constructor. Qed.

Lemma request_value_inj a b : request_wf a → request_wf b → request_value a = request_value b → a = b.
Proof.
  intros [_ _ _ _ Ha1 Ha2] [_ _ _ _ Hb1 Hb2].
  destruct a as [a1 a2 a3 a4 a5 a6 a7 a8 a9 a10 a11], b as [b1 b2 b3 b4 b5 b6 b7 b8 b9 b10 b11].
  unfold request_value, json_object. cbn in *. intros [= ? H4 ? ? ? ? H6 ? ? ? ?].
  apply fmt_decimal_inj in H4; [|done..]. apply fmt_decimal_inj in H6; [|done..]. congruence.
Qed.

Section Digests.
Context {RC : ReleaseCrypto} {RL : ReleaseCryptoLaws} {JS : JsonStrings} (HJ : delimited str_to_vec).

Lemma digest_determines domain v w d :
  value_wf v → value_wf w → value_sorted v → value_sorted w →
  prepared_start_digest domain v = Ok d → prepared_start_digest domain w = Ok d → v = w ∨ sha256_collision.
Proof.
  unfold prepared_start_digest. intros Wv Ww Sv Sw. rewrite !bind_ok. intros (x & Ex & [= <-]) (y & Ey & [= E]).
  apply hex_of_bytes_inj in E; [|apply sha256_bytes..].
  destruct (decide (x = y)) as [->|Hne].
  - left. rewrite <- (sorted_value_id v), <- (sorted_value_id w) by done. by eapply (canonical_determines HJ).
  - right. do 2 eexists. split; [|exact E]. intros Eq. apply app_inv_head in Eq. injection Eq as Eq. congruence.
Qed.

(** A digest names one request. *)
Lemma request_digest_determines a b d :
  request_wf a → request_wf b → request_digest a = Ok d → request_digest b = Ok d → a = b ∨ sha256_collision.
Proof.
  unfold request_digest. intros Wa Wb [_ Ea]%then_ok [_ Eb]%then_ok.
  destruct (digest_determines _ _ _ _ (request_wf_value _ Wa) (request_wf_value _ Wb) (request_value_sorted _ Wa)
    (request_value_sorted _ Wb) Ea Eb) as [E|]; [|by right]. left. by apply request_value_inj.
Qed.
End Digests.

(** ** Readbacks *)

(** Tests of the code as propositions. *)
Ltac reflect_tests :=
  rewrite ?orb_false_iff, ?negb_false_iff, ?String.eqb_eq, ?N.eqb_eq, ?N.eqb_neq, ?str_is_empty_false, ?value_eqb_eq.

Record sender_contract (r : AndroidPreparedStartRequest) (s : AndroidPreparedSenderReadback) : Prop := {
  sc_format : format_validate (psn_outgoing_format s) = Ok tt;
  sc_schema : psn_schema_id s = "rusty.quest.android.media.prepared_sender_readback.v1";
  sc_preparation : psn_preparation_id s = psr_preparation_id r;
  sc_original : psn_original_id s = psr_original_id r;
  sc_executor : psn_executor_generation s = psr_native_executor_generation r;
  sc_target : psn_resource_target_sha256 s = psr_resource_target_sha256 r;
  sc_handle : psn_provider_handle_id s ≠ EmptyString;
  sc_revision : psn_provider_state_revision s ≠ 0;
  sc_stage : psn_stage s = "sender_ready";
  sc_gate : psn_delivery_gate_closed s = true;
  sc_undelivered : psn_peer_delivery_count s = 0;
  sc_width : json_u64 (pef_width (psn_outgoing_format s)) =
    value_index (value_index (psr_resource_target r) "source_dimensions") "packed_width";
  sc_height : json_u64 (pef_height (psn_outgoing_format s)) =
    value_index (value_index (psr_resource_target r) "source_dimensions") "packed_height";
  sc_rate : json_u64 (pef_frame_rate_hz (psn_outgoing_format s)) =
    value_index (value_index (psr_resource_target r) "source_dimensions") "frame_rate_hz";
}.

Record decoder_request_contract (r : AndroidPreparedStartRequest) (d : AndroidPreparedDecoderRequest) : Prop := {
  dqc_format : format_validate (pdq_peer_format d) = Ok tt;
  dqc_schema : pdq_schema_id d = "rusty.quest.android.media.prepared_decoder_request.v1";
  dqc_preparation : pdq_preparation_id d = psr_preparation_id r;
  dqc_peer : hex (pdq_peer_preparation_id d) 32 = true;
  dqc_receipt : hash (pdq_peer_sender_receipt_sha256 d) = true;
}.

Record decoder_contract (r : AndroidPreparedStartRequest) (d : AndroidPreparedDecoderRequest)
    (b : AndroidPreparedDecoderReadback) : Prop := {
  dc_request : decoder_request_contract r d;
  dc_schema : pdr_schema_id b = "rusty.quest.android.media.prepared_decoder_readback.v1";
  dc_preparation : pdr_preparation_id b = psr_preparation_id r;
  dc_executor : pdr_executor_generation b = psr_native_executor_generation r;
  dc_digest : pdr_request_sha256 b = pdq_request_sha256 d;
  dc_target : pdr_resource_target_sha256 b = psr_resource_target_sha256 r;
  dc_handle : pdr_provider_handle_id b ≠ EmptyString;
  dc_revision : pdr_provider_state_revision b ≠ 0;
  dc_stage : pdr_stage b = "decoder_ready";
  dc_peer_sender : pdr_peer_sender_receipt_sha256 b = pdq_peer_sender_receipt_sha256 d;
  dc_gate : pdr_delivery_gate_closed b = true;
  dc_undelivered : pdr_peer_delivery_count b = 0;
}.

Section Contracts.
Context {RC : ReleaseCrypto} {JS : JsonStrings}.

Lemma sender_validate_ok s r :
  sender_validate s r = Ok tt ↔ sender_contract r s ∧ request_digest r = Ok (psn_request_sha256 s).
Proof.
  unfold sender_validate. cbv zeta. rewrite then_ok, fail_if_bind_ok, bind_ok. split.
  - intros (Hf & H1 & digest & Hd & H2%fail_if_ok). revert H1 H2. reflect_tests. intros. destruct_and!. subst digest. by split.
  - intros [[] Hd]. split; [done|]. split; [reflect_tests; done|]. eexists. split; [exact Hd|]. apply fail_if_ok.
    reflect_tests. done.
Qed.

Lemma decoder_request_validate_ok d r :
  decoder_request_validate d r = Ok tt ↔ decoder_request_contract r d ∧ request_digest r = Ok (pdq_request_sha256 d).
Proof.
  unfold decoder_request_validate. cbv zeta. rewrite then_ok, fail_if_bind_ok, bind_ok. split.
  - intros (Hf & H1 & digest & Hd & H2%fail_if_ok). revert H1 H2. reflect_tests. intros. destruct_and!. subst digest. by split.
  - intros [[] Hd]. split; [done|]. split; [reflect_tests; done|]. eexists. split; [exact Hd|]. apply fail_if_ok.
    reflect_tests. done.
Qed.

Lemma decoder_validate_ok b r d :
  decoder_validate b r d = Ok tt ↔ decoder_contract r d b ∧ request_digest r = Ok (pdr_request_sha256 b).
Proof.
  unfold decoder_validate. cbv zeta. rewrite then_ok, fail_if_bind_ok, bind_ok, decoder_request_validate_ok. split.
  - intros ([Hq Hqd] & H1 & digest & Hd & H2%fail_if_ok). revert H1 H2. reflect_tests. intros. destruct_and!.
    subst digest. rewrite Hqd in Hd. injection Hd as Hd. rewrite <- Hd. by split.
  - intros [[] Hd]. rewrite dc_digest0 in Hd. split; [done|]. split; [reflect_tests; done|]. eexists. split; [exact Hd|].
    apply fail_if_ok. reflect_tests. by rewrite dc_digest0.
Qed.

(** ** Aborts *)

(** A loop that inserts the canonical text of every row rejects repetitions. *)
Lemma provider_rows_ok keys rows :
  provider_rows keys rows = Ok tt →
  Forall (fun row => provider_row_invalid row = false ∧ canonical_valid row = true ∧ emit row ∉ keys) rows ∧
  NoDup (emit <$> rows).
Proof.
  revert keys. induction rows as [|row rows IH]; intros keys; [by repeat constructor|]. cbn [provider_rows].
  rewrite fail_if_bind_ok, bind_ok. intros (Hi & key & [Hv ->]%canonical_ok & H).
  apply fail_if_bind_ok in H as [Hk%bool_decide_eq_false_1 H]. destruct (IH _ H) as [IH1 IH2].
  split.
  - constructor; [done|]. eapply Forall_impl; [exact IH1|]. intros x (? & ? & Hx). split_and!; [done..|]. set_solver.
  - rewrite fmap_cons. constructor; [|done]. intros (x & Ex & Hx)%list_elem_of_fmap. rewrite Forall_forall in IH1.
    destruct (IH1 x Hx) as (_ & _ & Hn). clear -Hn Ex. set_solver.
Qed.

Lemma terminal_rows_ok providers seen rows :
  terminal_rows providers seen rows = Ok tt →
  Forall (fun row => terminal_identity row ∈ providers ∧ emit (terminal_identity row) ∉ seen ∧
    (pot_construction_state row = "never_entered"%string ∨ pot_construction_state row = "closed_joined"%string) ∧
    is_Some (as_object (pot_terminal_receipt row))) rows ∧
  NoDup ((fun row => emit (terminal_identity row)) <$> rows).
Proof.
  revert seen. induction rows as [|row rows IH]; intros seen; [by repeat constructor|]. cbn [terminal_rows].
  rewrite fail_if_bind_ok, bind_ok. intros (Hi & key & [Hv ->]%canonical_ok & H).
  apply fail_if_bind_ok in H as [[Hk%bool_decide_eq_false_1 Ho%bool_decide_eq_false_1]%orb_false_iff H].
  destruct (IH _ H) as [IH1 IH2]. unfold terminal_row_invalid in Hi.
  apply orb_false_iff in Hi as [Hi Hp%negb_false_iff]. apply orb_false_iff in Hi as [_ Hc%negb_false_iff].
  apply existsb_exists in Hp as (x & Hx%list_elem_of_In & <-%value_eqb_eq).
  apply orb_true_iff in Hc. rewrite !String.eqb_eq in Hc.
  split.
  - constructor; [split_and!; [done..|by destruct (as_object _)]|]. eapply Forall_impl; [exact IH1|]. intros x (? & Hn & ?).
    split_and!; [done| |tauto..]. clear -Hn. set_solver.
  - rewrite fmap_cons. constructor; [|done]. intros (y & Ey & Hy)%list_elem_of_fmap. rewrite Forall_forall in IH1.
    destruct (IH1 y Hy) as (_ & Hn & _). apply Hn. rewrite <- Ey. by apply elem_of_union_l, elem_of_singleton.
Qed.

Lemma NoDup_of_fmap {A B} (f : A → B) l : NoDup (f <$> l) → NoDup l.
Proof.
  induction l as [|x l IH]; cbn; [constructor|]. intros [Hx Hl]%NoDup_cons. constructor; [|auto]. intros ?. destruct Hx.
  apply list_elem_of_fmap. eauto.
Qed.

Lemma request_providers r :
  request_validate r = Ok tt →
  ∃ rows, as_array (providers_of (psr_resource_target r)) = Some rows ∧ length rows = 7%nat ∧ NoDup rows ∧
    Forall (fun row => provider_row_invalid row = false) rows.
Proof.
  unfold request_validate. cbv zeta. rewrite fail_if_bind_ok, bind_ok. intros (_ & digest & _ & H).
  rewrite !fail_if_bind_ok, ok_or_bind_ok in H. destruct H as (_ & Hs & rows & Er & [Hr Hn]%provider_rows_ok).
  exists rows. split; [done|]. split; [|split; [by eapply NoDup_of_fmap|eapply Forall_impl; [exact Hr|]; by intros ? []]].
  unfold target_shape_invalid in Hs. fold (providers_of (psr_resource_target r)) in Hs. rewrite Er in Hs.
  revert Hs. reflect_tests. unfold len. intros. destruct_and!. lia.
Qed.

End Contracts.
