(* ===== verification/PreparedClaims.v ===== *)
(** * Prepared starts: properties

    The request, the executor and the frame of the crate's tests
    (prepared_start_tests.rs), and the properties. *)

From S2P Require Import Prelude RustStr OrdMap StateResult UpdateModel UpdateAdmission SessionClock JsonValue.
From S2P Require Import PreparedStart PreparedTheorems.

Local Open Scope N_scope.

(** ** Fixtures *)

#[local] Instance ps_strings : JsonStrings := {| str_to_vec := json_string |}.

Definition repeat_text (c : string) (n : nat) : string := String.concat EmptyString (repeat c n).

Definition ps_frame : AndroidPreparedStartFrameBody :=
  mkFrameBody "rusty.quest.embedded_duplex.prepared_start_frame.v1" "view" (repeat_text "1" 32) (repeat_text "1" 32) None
    "peer.q" "peer.w" ("sha256:" ++ repeat_text "5" 64) 1
    (VObject [("view", VObject [("actual", VString "modeled source metadata")])]).

Definition ps_signed : list N := FRAME_DOMAIN ++ emit (frame_value ps_frame).
Definition ps_signature : list N := repeat 9 64.
Definition ps_envelope : PreparedFrameEnvelope := mkFrameEnvelope ps_frame (hex_of_bytes ps_signature).
Definition ps_wire : list N := str_bytes "frame".

#[local] Instance ps_crypto : ReleaseCrypto := {|
  VerifyingKey := list N;
  vk_from_bytes bs := if bool_decide (length bs = 32%nat) then Some bs else None;
  vk_to_bytes bs := bs;
  verify_strict _ bytes signature := bool_decide (bytes = ps_signed) && bool_decide (signature = ps_signature);
  sha256_digest bytes := take 32 ((fun b => b mod 256) <$> rev bytes ++ repeat 0 32);
  jcs_to_vec _ := None;
  envelope_from_slice _ := None;
|}.

#[local] Instance ps_crypto_laws : ReleaseCryptoLaws (RC := ps_crypto).
Proof.
  split; cbn.
  - intros bs k. by case_bool_decide; intros [= <-].
  - intros bs. rewrite length_take, length_fmap, length_app. cbn [length]. lia.
  - intros bs. apply Forall_take, Forall_fmap, Forall_true. intros b. by apply N.mod_lt.
Qed.

#[local] Instance ps_frame_json : PreparedFrameJson := {|
  envelope_to_vec e := if bool_decide (fe_signature_hex e = fe_signature_hex ps_envelope) then Some ps_wire else None;
  prepared_from_slice bytes := if bool_decide (bytes = ps_wire) then Some ps_envelope else None;
|}.

Definition provider (i : string) : Value :=
  json_object [("owner_kind", VString ("kind" ++ i)); ("owner_id", VString ("owner" ++ i));
    ("provider_kind", VString "modeled.sdk"); ("resource_id", VString ("resource" ++ i))].
Definition indices : list string := ["0"; "1"; "2"; "3"; "4"; "5"; "6"]%string.

Definition ps_target : Value :=
  json_object
    [("$schema", VString TARGET_SCHEMA); ("runtime_config_sha256", VString (repeat_text "c" 64));
     ("executor_generation", json_u64 5);
     ("product_binding", json_object
        [("$schema", VString "rusty.quest.android.media.preparation_target.v1"); ("product_id", VString "product.q");
         ("providers", VArray (provider <$> indices))]);
     ("source_dimensions", json_object
        [("packed_width", json_u64 200); ("packed_height", json_u64 100); ("per_eye_width", json_u64 100);
         ("per_eye_height", json_u64 100); ("frame_rate_hz", json_u64 30); ("bitrate_bps", json_u64 1000000);
         ("left_camera_id", VString "left"); ("right_camera_id", VString "right")]);
     ("own_capture_selected", VBool true); ("max_pair_delta_ns", json_u64 30000000);
     ("outgoing_runtime_spec_id", VString "product.q"); ("incoming_runtime_spec_id", VString "product.w")].

Definition ps_policy : Value :=
  json_object
    [("$schema", VString "rusty.quest.embedded_duplex.fresh_setup_build_policy.v1"); ("selection", VString "source-bound-v2");
     ("policy", VObject []); ("policy_sha256", VString ("sha256:" ++ repeat_text "d" 64));
     ("enrollment_selection_sha256", VString ("sha256:" ++ repeat_text "e" 64))].

Definition ok_text (r : result string string) : string := match r with Ok t => t | Err _ => EmptyString end.

Definition ps_request : AndroidPreparedStartRequest :=
  mkStartRequest REQUEST_SCHEMA (repeat_text "1" 32) (repeat_text "b" 32) 3 (repeat_text "a" 64) 5 (repeat_text "c" 64)
    (json_object
       [("binding", VString "established"); ("challenge", VString (repeat_text "f" 32)); ("arm_generation", json_u64 1);
        ("native_process", json_u64 27); ("process_epoch", VString (repeat_text "1" 32));
        ("runtime_config_sha256", VString (repeat_text "c" 64))])
    (json_object
       [("$schema", VString "rusty.quest.embedded_duplex.runtime_configuration_binding.v1");
        ("config_sha256", VString (repeat_text "c" 64)); ("app_process_generation", json_u64 3);
        ("app_record_sha256", VString (repeat_text "a" 64)); ("native_executor_generation", json_u64 5);
        ("local_peer_id", VString "peer.q"); ("fresh_setup_build_policy", ps_policy)])
    ps_target (ok_text (prepared_start_digest TARGET_SCHEMA ps_target)).

Definition ps_digest : string := ok_text (request_digest ps_request).

Definition ps_format : AndroidPreparedEncodedFormat :=
  mkEncodedFormat "rusty.quest.android.media.prepared_encoded_format.v1" "video/avc" 200 100 30 "00000167" (Some "00000168")
    None None.

Definition ps_sender : AndroidPreparedSenderReadback :=
  mkSenderReadback "rusty.quest.android.media.prepared_sender_readback.v1" (repeat_text "1" 32) (repeat_text "b" 32) 5
    ps_digest (psr_resource_target_sha256 ps_request) "actual.modeled.sender" 1 "sender_ready" ps_format true 0.

Definition ps_decoder_request : AndroidPreparedDecoderRequest :=
  mkDecoderRequest "rusty.quest.android.media.prepared_decoder_request.v1" (repeat_text "1" 32) ps_digest
    (repeat_text "2" 32) ("sha256:" ++ repeat_text "3" 64) ps_format.

Definition ps_decoder : AndroidPreparedDecoderReadback :=
  mkDecoderReadback "rusty.quest.android.media.prepared_decoder_readback.v1" (repeat_text "1" 32) 5 ps_digest
    (psr_resource_target_sha256 ps_request) "actual.modeled.decoder" 1 "decoder_ready" ("sha256:" ++ repeat_text "3" 64)
    true 0.

(** The executor of the tests: what it holds is what it verifies. *)
Record Sdk := mkSdk {
  sdk_identity : N;
  sdk_sender : option AndroidPreparedSenderReadback;
  sdk_decoder : option AndroidPreparedDecoderReadback;
  sdk_fail_after_sender : bool;
}.

#[local] Instance sdk_executor : AndroidPreparedResourceExecutor Sdk := {|
  preparation_identity := sdk_identity;
  sdk_prepare_sender e _ :=
    (mkSdk (sdk_identity e) (Some ps_sender) (sdk_decoder e) (sdk_fail_after_sender e),
     if sdk_fail_after_sender e then Err "modeled actual effect returned error"%string else Ok ps_sender);
  sdk_verify_sender e _ s := fail_if (negb (bool_decide (sdk_sender e = Some s))) "actual sender changed"%string;
  sdk_prepare_decoder e _ _ :=
    (mkSdk (sdk_identity e) (sdk_sender e) (Some ps_decoder) (sdk_fail_after_sender e), Ok ps_decoder);
  sdk_verify_decoder e _ _ d := fail_if (negb (bool_decide (sdk_decoder e = Some d))) "actual decoder changed"%string;
|}.

Definition sdk_new : Sdk := mkSdk 7 None None false.

Definition ps_terminal (i : string) : AndroidPreparedOwnerTerminal :=
  mkOwnerTerminal "rusty.quest.android.media.prepared_owner_terminal.v1" ("kind" ++ i) ("owner" ++ i) "modeled.sdk"
    ("resource" ++ i) "closed_joined" (VObject []).

Definition ps_cleanup : AndroidPreparedAbortRequest :=
  mkAbortRequest "rusty.quest.android.media.prepared_abort_request.v1" (repeat_text "1" 32) (repeat_text "d" 32) 3
    (repeat_text "a" 64) 5 (repeat_text "c" 64) ps_digest (psr_resource_target_sha256 ps_request).

Definition ps_abort : AndroidPreparedAbortReadback :=
  mkAbortReadback "rusty.quest.android.media.prepared_abort_readback.v1" (repeat_text "1" 32) (repeat_text "b" 32)
    (repeat_text "d" 32) 5 ps_digest (psr_resource_target_sha256 ps_request) "actual.modeled.abort" 1 "terminal"
    (ps_terminal <$> rev indices) true 0.

Example ps_request_valid : request_validate ps_request = Ok tt.
Proof. vm_compute. reflexivity. Qed.

Example ps_abort_valid : abort_validate ps_abort ps_request ps_cleanup = Ok tt.
Proof. vm_compute. reflexivity. Qed.

(** A provider without a terminal, however often another one has one. *)
Example ps_abort_repeats :
  abort_validate
    (mkAbortReadback "rusty.quest.android.media.prepared_abort_readback.v1" (repeat_text "1" 32) (repeat_text "b" 32)
      (repeat_text "d" 32) 5 ps_digest (psr_resource_target_sha256 ps_request) "actual.modeled.abort" 1 "terminal"
      (repeat (ps_terminal "0") 7) true 0) ps_request ps_cleanup =
  Err "prepared actual terminal provider coverage differs"%string.
Proof. vm_compute. reflexivity. Qed.

(** The canonical text of the crate's test, from entries in another order. *)
Example ps_canonical :
  prepared_start_canonical (VObject [("z", VObject [("z", json_u64 1); ("a", json_u64 2)]);
    ("a", VArray [json_u64 3; json_u64 2; json_u64 1])]) = Ok (str_bytes "{'a':[3,2,1],'z':{'a':2,'z':1}}" |> map (fun b => if b =? 39 then 34 else b))%quest.
Proof. vm_compute. reflexivity. Qed.

Example ps_canonical_unsigned : is_ok (prepared_start_canonical (json_u64 u64_max)) = false.
Proof. vm_compute. reflexivity. Qed.


(** ** Properties *)

(** Both halves of the log make up the log. *)
Lemma log_halves log : log ≡ₚ filter is_sender_call log ++ filter is_decoder_call log.
Proof.
  induction log as [|[id r|id r d] log IH]; [done|..].
  - rewrite filter_cons_True, filter_cons_False by (cbn; auto). cbn. by f_equiv.
  - rewrite filter_cons_False, filter_cons_True by (cbn; auto). rewrite IH at 1. by rewrite Permutation_middle.
Qed.

(** C23: The SDK is entered at most once per half of a preparation. Over any calls
    with any executors, whatever they answer, the effects are exactly the sender
    call the owner remembers entering and the decoder call it remembers, both
    into the executor it was reserved with and for its own request; once a half
    has been entered, a further call for it leaves the owner as it is and enters
    nothing. *)
Theorem prepared_effects_once {RC : ReleaseCrypto} {JS : JsonStrings} {E : Type} {EX : AndroidPreparedResourceExecutor E}
    (o : AndroidPreparedStartOwner) (log : list sdk_call) :
  prepared_run (E := E) o log →
  log ≡ₚ (if pow_sender_entered o then [SenderCall (pow_identity o) (pow_request o)] else []) ++
    match pow_decoder_request o with Some d => [DecoderCall (pow_identity o) (pow_request o) d] | None => [] end ∧
  (pow_sender_entered o = true → ∀ e : E, ∃ message,
    prepare_sender (o, mkLogged e log) = ((o, mkLogged e log), Err message)) ∧
  (is_Some (pow_decoder_request o) → ∀ (e : E) d, ∃ res,
    prepare_decoder d (o, mkLogged e log) = ((o, mkLogged e log), res)).
Proof.
  intros [Hs Hd _ _ _ _]%prepared_run_inv. split; [|split].
  - rewrite (log_halves log). by rewrite Hs, Hd.
  - intros Ht e. unfold prepare_sender, mbind, state_result_bind, asks. destruct (same _ _) as [[]|m]; [|by eexists].
    unfold reject_if. rewrite Ht. by eexists.
  - intros [d0 Hd0] e d. unfold prepare_decoder, mbind, state_result_bind, asks, gets.
    destruct (same _ _) as [[]|m]; [|by eexists].
    destruct (decoder_request_validate d _) as [[]|m]; [|by eexists]. rewrite Hd0. by eexists.
Qed.

(** The owner of the tests after both halves. *)
Definition ps_owner : AndroidPreparedStartOwner :=
  mkStartOwner 7 ps_request true true (Some ps_sender) (Some ps_decoder_request) (Some ps_decoder).
Definition ps_log : list sdk_call := [SenderCall 7 ps_request; DecoderCall 7 ps_request ps_decoder_request].

Lemma ps_owner_run : prepared_run (E := Sdk) ps_owner ps_log.
Proof.
  pose (o0 := mkStartOwner 7 ps_request false false None None None).
  pose (o1 := mkStartOwner 7 ps_request true false (Some ps_sender) None None).
  pose (e1 := mkLogged (mkSdk 7 (Some ps_sender) None false) [SenderCall 7 ps_request]).
  pose (e2 := mkLogged (mkSdk 7 (Some ps_sender) (Some ps_decoder) false) ps_log).
  change ps_log with (calls e2). apply (run_decoder o1 (calls e1) (inner e1) ps_decoder_request ps_owner e2 (Ok ps_decoder)).
  - apply (run_sender o0 [] sdk_new o1 e1 (Ok ps_sender)); [|vm_compute; reflexivity].
    apply (run_reserve sdk_new ps_request). vm_compute. reflexivity.
  - vm_compute. reflexivity.
Qed.

Lemma prepared_effects_once_witness :
  ps_log ≡ₚ [SenderCall 7 ps_request] ++ [DecoderCall 7 ps_request ps_decoder_request] ∧
  ∃ message, prepare_sender (ps_owner, mkLogged sdk_new ps_log) = ((ps_owner, mkLogged sdk_new ps_log), Err message).
Proof.
  destruct (prepared_effects_once (E := Sdk) ps_owner ps_log ps_owner_run) as (Hl & Hs & _).
  split; [exact Hl|]. apply Hs. reflexivity.
Defined.

(** C24: An owner that is ready has both halves behind a closed gate. When
    require_ready accepts, the executor is the one that was reserved and now
    vouches for both receipts, it was entered exactly once for each half, both
    receipts meet their contracts for this very request, whose digest all three
    documents carry, and nothing has been delivered to the peer. *)
Theorem ready_is_gated {RC : ReleaseCrypto} {JS : JsonStrings} {E : Type} {EX : AndroidPreparedResourceExecutor E}
    (o : AndroidPreparedStartOwner) (log : list sdk_call) (e : E) :
  prepared_run (E := E) o log → require_ready o e = Ok tt →
  ∃ s dr d digest,
    pow_sender o = Some s ∧ pow_decoder_request o = Some dr ∧ pow_decoder o = Some d ∧
    sdk_verify_sender e (pow_request o) s = Ok tt ∧ sdk_verify_decoder e (pow_request o) dr d = Ok tt ∧
    log ≡ₚ [SenderCall (preparation_identity e) (pow_request o); DecoderCall (preparation_identity e) (pow_request o) dr] ∧
    sender_contract (pow_request o) s ∧ decoder_contract (pow_request o) dr d ∧
    request_digest (pow_request o) = Ok digest ∧ psn_request_sha256 s = digest ∧ pdq_request_sha256 dr = digest ∧
    pdr_request_sha256 d = digest ∧
    psn_delivery_gate_closed s = true ∧ psn_peer_delivery_count s = 0 ∧
    pdr_delivery_gate_closed d = true ∧ pdr_peer_delivery_count d = 0.
Proof.
  intros [Hs Hd _ _ Hsv Hdv]%prepared_run_inv (Hid & s & dr & d & Es & Er & Ed & Vs & Vd)%require_ready_ok.
  destruct (Hsv s Es) as [Ht [Cs Gs]%sender_validate_ok]. destruct (Hdv d Ed) as (dr' & Er' & [Cd Gd]%decoder_validate_ok).
  rewrite Er in Er'. injection Er' as <-. exists s, dr, d, (psn_request_sha256 s).
  assert (pdr_request_sha256 d = psn_request_sha256 s) by congruence.
  pose proof (dc_digest _ _ _ Cd). split_and!; try done; try congruence; try apply Cs; try apply Cd.
  rewrite (log_halves log), Hs, Hd, Ht, Er, Hid. done.
Qed.

Lemma ready_is_gated_witness :
  psn_peer_delivery_count ps_sender = 0 ∧
  require_ready ps_owner (mkSdk 7 (Some ps_sender) (Some ps_decoder) false) = Ok tt.
Proof.
  assert (H : require_ready ps_owner (mkSdk 7 (Some ps_sender) (Some ps_decoder) false) = Ok tt) by (vm_compute; reflexivity).
  split; [|exact H].
  destruct (ready_is_gated (E := Sdk) ps_owner ps_log (mkSdk 7 (Some ps_sender) (Some ps_decoder) false) ps_owner_run H)
    as (s & dr & d & digest & Es & _ & _ & _ & _ & _ & _ & _ & _ & _ & _ & _ & _ & Hc & _).
  injection Es as <-. exact Hc.
Defined.


Definition ps_raw : list N := ANDROID_PREPARED_START_FRAME_MAGIC ++ ps_wire.
Definition ps_route : string := "sha256:" ++ repeat_text "5" 64.


(** C26: An encoded frame arrives as it was sent. A frame encoded with a signature
    of its signing bytes that the peer's key verifies is decoded, by the receiver
    it is addressed to, on its route and not before it was issued, to exactly
    itself, where serde_json reads back the envelope that it wrote. *)
Theorem frame_roundtrip {RC : ReleaseCrypto} {JS : JsonStrings} {FJ : PreparedFrameJson}
    (b : AndroidPreparedStartFrameBody) (signature raw peer_key bytes : list N) (key : VerifyingKey) (now : N) :
  Forall is_u8 signature → length signature = 64%nat →
  (∀ encoded e, envelope_to_vec e = Some encoded → fe_body e = b → prepared_from_slice encoded = Some e) →
  vk_from_bytes peer_key = Some key →
  prepared_start_frame_signing_bytes b = Ok bytes → verify_strict key bytes signature = true →
  fb_issued_at_ms b <= now →
  encode_prepared_start_frame b signature = Ok raw →
  decode_prepared_start_frame raw peer_key (fb_sender_peer_id b) (fb_receiver_peer_id b)
    (fb_route_configuration_sha256 b) now = Ok b.
Proof.
  intros Hu Hl Hj Hk Hb Hv Ht He. unfold encode_prepared_start_frame in He. rewrite then_ok, ok_or_bind_ok in He.
  destruct He as (_ & encoded & Ee & He). apply fail_if_bind_ok in He as [Hs%N.ltb_ge [= <-]]. apply decode_ok.
  exists encoded, (hex_of_bytes signature), signature, key, bytes. split_and!; try done.
  - by apply (Hj _ _ Ee).
  - apply hex_of_bytes_hex; [done|]. unfold len. lia.
  - by apply hex_pairs_of_bytes.
Qed.

Lemma frame_roundtrip_witness :
  decode_prepared_start_frame ps_raw (repeat 1 32) "peer.q" "peer.w" ps_route 1 = Ok ps_frame.
Proof.
  apply (frame_roundtrip (RC := ps_crypto) ps_frame ps_signature ps_raw (repeat 1 32) ps_signed
    (repeat 1 32 : @VerifyingKey ps_crypto) 1); try (vm_compute; reflexivity).
  - repeat constructor.
  - intros encoded [body text] He Hb. cbn in He, Hb. subst body. revert He. case_bool_decide as Ht; [|done].
    intros [= <-]. rewrite Ht. reflexivity.
  - vm_compute. discriminate.
Defined.

(** A receipt belongs to one request. Two requests for which the same sender
    readback or the same decoder request is valid are equal in every field, or
    they exhibit a collision of SHA-256. *)
Theorem receipt_binds_request {RC : ReleaseCrypto} {RL : ReleaseCryptoLaws} {JS : JsonStrings}
    (r1 r2 : AndroidPreparedStartRequest) :
  delimited str_to_vec → request_wf r1 → request_wf r2 →
  (∃ s, sender_validate s r1 = Ok tt ∧ sender_validate s r2 = Ok tt) ∨
  (∃ d, decoder_request_validate d r1 = Ok tt ∧ decoder_request_validate d r2 = Ok tt) →
  r1 = r2 ∨ sha256_collision.
Proof.
  intros HJ W1 W2 [(s & [_ H1]%sender_validate_ok & [_ H2]%sender_validate_ok)|
    (d & [_ H1]%decoder_request_validate_ok & [_ H2]%decoder_request_validate_ok)];
    by eapply request_digest_determines.
Qed.

Lemma ps_request_wf : request_wf ps_request.
Proof. split; vm_compute; try done; repeat (constructor || done). Qed.

Lemma receipt_binds_request_witness : sender_validate ps_sender ps_request = Ok tt ∧ (ps_request = ps_request ∨ sha256_collision).
Proof.
  assert (H : sender_validate ps_sender ps_request = Ok tt) by (vm_compute; reflexivity).
  split; [exact H|]. apply (receipt_binds_request (RC := ps_crypto) (JS := ps_strings) ps_request ps_request json_string_delimited ps_request_wf ps_request_wf).
  left. exists ps_sender. split; exact H.
Defined.

(** C27: An abort that is accepted as terminal accounts for every provider. The
    seven owner receipts are, up to order, exactly the seven provider rows of the
    request, each of them never entered or closed and joined with a receipt; the
    gate is closed, nothing was delivered, and the readback carries the digest of
    the request and the Original of the cleanup. *)
Theorem abort_covers_providers {RC : ReleaseCrypto} {JS : JsonStrings}
    (a : AndroidPreparedAbortReadback) (r : AndroidPreparedStartRequest) (c : AndroidPreparedAbortRequest) :
  abort_validate a r c = Ok tt →
  ∃ rows, as_array (providers_of (psr_resource_target r)) = Some rows ∧
    terminal_identity <$> pab_owner_receipts a ≡ₚ rows ∧
    Forall (fun row => (pot_construction_state row = "never_entered"%string ∨
      pot_construction_state row = "closed_joined"%string) ∧
      is_Some (as_object (pot_terminal_receipt row))) (pab_owner_receipts a) ∧
    pab_delivery_gate_closed a = true ∧ pab_peer_delivery_count a = 0 ∧ request_digest r = Ok (pab_request_sha256 a) ∧
    pab_cleanup_original_id a = par_cleanup_original_id c.
Proof.
  unfold abort_validate. cbv zeta. rewrite then_ok, fail_if_bind_ok, bind_ok.
  intros (Hr & _ & digest & Hd & H). rewrite fail_if_bind_ok, ok_or_bind_ok in H.
  destruct H as (Ha & rows & Er & [Hrows Hnd]%terminal_rows_ok).
  destruct (request_providers r Hr) as (rows' & Er' & Hl & Hn & _). rewrite Er in Er'. injection Er' as <-.
  exists rows. split; [done|]. unfold abort_differs in Ha. revert Ha. reflect_tests. unfold len. intros. destruct_and!.
  subst digest. split_and!; try done.
  - apply submseteq_length_Permutation; [|rewrite length_fmap; lia]. apply NoDup_submseteq.
    + eapply (NoDup_of_fmap emit). rewrite <- list_fmap_compose. exact Hnd.
    + intros x (row & -> & Hrow)%list_elem_of_fmap. rewrite Forall_forall in Hrows. by apply Hrows.
  - eapply Forall_impl; [exact Hrows|]. cbn. tauto.
  - congruence.
Qed.

Lemma abort_covers_providers_witness :
  abort_validate ps_abort ps_request ps_cleanup = Ok tt ∧
  terminal_identity <$> pab_owner_receipts ps_abort ≡ₚ provider <$> indices.
Proof.
  assert (H : abort_validate ps_abort ps_request ps_cleanup = Ok tt) by (vm_compute; reflexivity).
  split; [exact H|]. destruct (abort_covers_providers ps_abort ps_request ps_cleanup H) as (rows & Er & Hp & _).
  injection Er as <-. exact Hp.
Defined.
