(* ===== verification/RemoteCamera.v ===== *)
(** * Remote camera sessions

    crates/rusty-quest-remote-camera: the plan (model.rs), its validation
    (validation.rs, every message in the order the code pushes it) and the
    projection onto the generic media stream (media_stream.rs). Constants that the
    crate re-exports from the media stream and the device link are theirs. *)

From S2P Require Import Prelude RustStr OrdMap MediaModel MediaValidation P2pRoute MediaRuntime PackedStream.

Local Open Scope N_scope.
Local Open Scope string_scope.
Local Notation "l +++ k" := (app l k) (at level 60, right associativity).

(** ** The plan *)

Definition REMOTE_CAMERA_SESSION_SCHEMA : string := "rusty.quest.remote_camera_session.v1".
Definition MEDIA_LAYOUT_SEPARATE_EYE_STREAMS : string := "separate-eye-streams".
Definition MEDIA_LAYOUT_SIDE_BY_SIDE_LEFT_RIGHT : string := "side-by-side-left-right".
Definition PACKED_FRAME_LAYOUT_SCHEMA : string := "rusty.quest.remote_camera.frame_layout.v1".
Definition ROUTE_KIND_RELAY_TLS_CLIENT : string := "relay_tls_client".
Definition ROUTE_KIND_DIRECT_TCP_CONNECT : string := "direct_tcp_connect".
Definition SOCKET_AUTHORITY_PLATFORM_DEFAULT : string := "platform_default_socket_authority".
Definition QUEST_OUTSIDE_LEFT_CAMERA_ID : string := "50".
Definition QUEST_OUTSIDE_RIGHT_CAMERA_ID : string := "51".

Record RemoteCameraDevice := mkRemoteDevice {
  rcd_device_id : string;
  rcd_device_kind : string;
  rcd_role : string;
}.

Record RemoteCameraFrameLayout := mkFrameLayout {
  rcf_schema : string;
  rcf_kind : string;
  rcf_eye_order : list string;
  rcf_packed_width : N;
  rcf_packed_height : N;
  rcf_per_eye_width : N;
  rcf_per_eye_height : N;
  rcf_pair_timestamp_authority : string;
  rcf_pairing_policy : string;
  rcf_max_pair_delta_ns : N;
  rcf_stale_eye_reuse_allowed : bool;
  rcf_cpu_pixel_copy : bool;
}.

Record RemoteCameraMediaConfig := mkRemoteMedia {
  rcm_track_id : string;
  rcm_eye : string;
  rcm_track_kind : string;
  rcm_codec : string;
  rcm_stream_framing : string;
  rcm_width : N;
  rcm_height : N;
  rcm_frame_rate_hz : N;
  rcm_bitrate_bps : N;
  rcm_metadata_transport : string;
  rcm_timestamp_domain : string;
  rcm_high_rate_payload_plane : string;
  rcm_frame_layout : option RemoteCameraFrameLayout;
}.

Record RemoteCameraTransportConfig := mkRemoteTransport {
  rct_transport_kind : string;
  rct_relay_required : bool;
  rct_encryption_required : bool;
  rct_relay_session_id : option string;
}.

Record RemoteCameraQueuePolicy := mkRemoteQueue {
  rcq_max_buffered_packets : N;
  rcq_max_buffered_bytes : N;
  rcq_drop_policy : string;
  rcq_slow_peer_close : bool;
}.

Record RemoteCameraLane := mkRemoteLane {
  rcl_lane_id : string;
  rcl_direction : string;
  rcl_source_device_id : string;
  rcl_sink_device_id : string;
  rcl_source_family : string;
  rcl_media : RemoteCameraMediaConfig;
  rcl_transport : RemoteCameraTransportConfig;
  rcl_queue : RemoteCameraQueuePolicy;
  rcl_receiver_first_required : bool;
}.

Record RemoteCameraPortBinding := mkRemotePort {
  rcb_eye : string;
  rcb_port : N;
}.

Record RemoteCameraCameraBinding := mkRemoteCamera {
  rcc_eye : string;
  rcc_camera_id : string;
}.

Record RemoteCameraRuntimeEndpoint := mkRemoteEndpoint {
  rce_device_id : string;
  rce_adapter_kind : string;
  rce_sender_source_kind : string;
  rce_sender_source_host : string;
  rce_sender_source_ports : list RemoteCameraPortBinding;
  rce_sender_camera_id : option string;
  rce_sender_camera_ids : list RemoteCameraCameraBinding;
  rce_sender_camera_facing : option string;
  rce_sender_quality_profile : option string;
  rce_camera_permission_policy : string;
  rce_receiver_bind_host : string;
  rce_receiver_ports : list RemoteCameraPortBinding;
  rce_transport_bind_host : string;
  rce_transport_receive_ports : list RemoteCameraPortBinding;
}.

Record RemoteCameraTransportRoute := mkRemoteRoute {
  rcr_lane_id : string;
  rcr_source_device_id : string;
  rcr_sink_device_id : string;
  rcr_eye : string;
  rcr_route_kind : string;
  rcr_connect_host : string;
  rcr_connect_port : N;
  rcr_socket_authority : option string;
  rcr_local_bind_host : option string;
  rcr_relay_channel : option string;
  rcr_relay_token_ref : option string;
  rcr_tls_server_name : option string;
}.

Record RemoteCameraSecurityPolicy := mkRemoteSecurity {
  rcs_visible_streaming_indicator : bool;
  rcs_explicit_pairing_required : bool;
  rcs_immediate_stop_command : string;
  rcs_raw_media_logging : bool;
}.

Record RemoteCameraObservabilityPolicy := mkRemoteObservability {
  rco_required_markers : list string;
  rco_required_counters : list string;
}.

Record RemoteCameraSessionPlan := mkRemotePlan {
  rcp_schema : string;
  rcp_session_id : string;
  rcp_topology_id : string;
  rcp_privacy_tier : string;
  rcp_media_layout : string;
  rcp_devices : list RemoteCameraDevice;
  rcp_lanes : list RemoteCameraLane;
  rcp_runtime_endpoints : list RemoteCameraRuntimeEndpoint;
  rcp_transport_routes : list RemoteCameraTransportRoute;
  rcp_security : RemoteCameraSecurityPolicy;
  rcp_observability : RemoteCameraObservabilityPolicy;
}.

(** ** Devices *)

Definition rc_validate_device (device : RemoteCameraDevice) : list ValidationError :=
  validate_required_text "device_id" (rcd_device_id device) +++
  validate_required_text "device_kind" (rcd_device_kind device) +++
  validate_required_text "role" (rcd_role device) +++
  push_if (negb (one_of (rcd_device_kind device) ["quest"; "android_phone"; "relay"]))
    ("unsupported device_kind " ++ rcd_device_kind device).

Definition rc_validate_devices (devices : list RemoteCameraDevice)
    : list ValidationError * btree RemoteCameraDevice :=
  let '(errors, seen) :=
    index_by rcd_device_id rc_validate_device
      (fun device => "duplicate device_id " ++ rcd_device_id device) (fun _ => []) [] devices in
  (push_if (bool_decide (devices = [])) "devices must not be empty" +++ errors, seen).

(** ** Lanes *)

Definition rc_validate_frame_layout (lane_id : string) (media : RemoteCameraMediaConfig)
    (layout : RemoteCameraFrameLayout) : list ValidationError :=
  push_if (negb (rcf_schema layout =? PACKED_FRAME_LAYOUT_SCHEMA))
    ("lane " ++ lane_id ++ " has unsupported frame_layout schema " ++ rcf_schema layout) +++
  push_if (negb (rcf_kind layout =? FRAME_LAYOUT_SIDE_BY_SIDE_LEFT_RIGHT))
    ("lane " ++ lane_id ++ " has unsupported packed frame_layout kind " ++ rcf_kind layout) +++
  push_if (negb (bool_decide (rcf_eye_order layout = ["left"; "right"])))
    ("lane " ++ lane_id ++ " packed eye_order must be exactly left then right") +++
  push_if ((rcf_per_eye_width layout =? 0)%N || (rcf_per_eye_height layout =? 0)%N)
    ("lane " ++ lane_id ++ " packed per-eye dimensions must be nonzero") +++
  push_if ((1920 <? rcf_per_eye_width layout)%N || (1920 <? rcf_per_eye_height layout)%N)
    ("lane " ++ lane_id ++ " packed per-eye dimensions must stay at or below 1920x1920") +++
  push_if (negb (rcf_packed_width layout =? saturating_mul32 (rcf_per_eye_width layout) 2)%N ||
           negb (rcf_packed_height layout =? rcf_per_eye_height layout)%N ||
           negb (rcm_width media =? rcf_packed_width layout)%N ||
           negb (rcm_height media =? rcf_packed_height layout)%N)
    ("lane " ++ lane_id ++ " packed dimensions must equal two per-eye widths by one per-eye height and match media dimensions") +++
  push_if (negb (rcf_pair_timestamp_authority layout =? PAIR_TIMESTAMP_CAMERA2_SENSOR))
    ("lane " ++ lane_id ++ " packed pairing requires camera2_sensor_timestamp authority") +++
  push_if (negb (rcf_pairing_policy layout =? PAIRING_POLICY_NEAREST_TIMESTAMP_BOUNDED))
    ("lane " ++ lane_id ++ " packed pairing requires nearest_timestamp_bounded policy") +++
  push_if ((rcf_max_pair_delta_ns layout =? 0)%N || (1000000000 <? rcf_max_pair_delta_ns layout)%N)
    ("lane " ++ lane_id ++ " max_pair_delta_ns must be 1..=1000000000") +++
  push_if (rcf_stale_eye_reuse_allowed layout)
    ("lane " ++ lane_id ++ " packed promotion layout must disable stale-eye reuse") +++
  push_if (rcf_cpu_pixel_copy layout)
    ("lane " ++ lane_id ++ " packed promotion layout must require cpu_pixel_copy=false").

Definition packed_sbs (media : RemoteCameraMediaConfig) : bool :=
  match rcm_frame_layout media with
  | Some layout => rcf_kind layout =? FRAME_LAYOUT_SIDE_BY_SIDE_LEFT_RIGHT
  | None => false
  end.

Definition rc_eyes : list string := ["left"; "right"; "mono"; "stereo"].

Definition rc_validate_media (lane_id : string) (media : RemoteCameraMediaConfig) : list ValidationError :=
  validate_required_text "track_id" (rcm_track_id media) +++
  validate_required_text "eye" (rcm_eye media) +++
  validate_required_text "track_kind" (rcm_track_kind media) +++
  validate_required_text "codec" (rcm_codec media) +++
  validate_required_text "stream_framing" (rcm_stream_framing media) +++
  validate_required_text "metadata_transport" (rcm_metadata_transport media) +++
  validate_required_text "timestamp_domain" (rcm_timestamp_domain media) +++
  validate_required_text "high_rate_payload_plane" (rcm_high_rate_payload_plane media) +++
  validate_route_token "media.eye" (rcm_eye media) +++
  validate_route_token "media.stream_framing" (rcm_stream_framing media) +++
  push_if (negb (one_of (rcm_eye media) rc_eyes)) ("lane " ++ lane_id ++ " has unsupported eye " ++ rcm_eye media) +++
  push_if (negb (rcm_track_kind media =? "video")) ("lane " ++ lane_id ++ " must use video track_kind") +++
  push_if (negb (rcm_codec media =? VIDEO_CODEC_H264))
    ("lane " ++ lane_id ++ " must use H.264 as the first Morphospace remote camera codec") +++
  push_if (negb (rcm_high_rate_payload_plane media =? PAYLOAD_PLANE_BINARY_MEDIA))
    ("lane " ++ lane_id ++ " high-rate media must use binary-media payload plane") +++
  push_if (rcm_metadata_transport media =? "inline-json-frame-payload")
    ("lane " ++ lane_id ++ " must not carry high-rate metadata inside JSON frame payloads") +++
  push_if ((rcm_width media =? 0)%N || (rcm_height media =? 0)%N)
    ("lane " ++ lane_id ++ " media dimensions must be nonzero") +++
  (let max_width := if packed_sbs media then 4096 else 1920 in
   push_if ((max_width <? rcm_width media)%N || (1920 <? rcm_height media)%N)
     ("lane " ++ lane_id ++ " first remote-camera slice must stay at or below " ++ fmt_decimal max_width ++ "x1920 pixels")) +++
  push_if ((rcm_frame_rate_hz media =? 0)%N || (90 <? rcm_frame_rate_hz media)%N)
    ("lane " ++ lane_id ++ " frame_rate_hz must be 1..=90") +++
  push_if (rcm_bitrate_bps media =? 0)%N ("lane " ++ lane_id ++ " bitrate_bps must be nonzero") +++
  match rcm_frame_layout media with
  | Some layout => rc_validate_frame_layout lane_id media layout
  | None =>
      push_if (rcm_eye media =? "stereo") ("lane " ++ lane_id ++ " stereo media requires a validated frame_layout")
  end.

Definition rc_validate_transport (lane_id : string) (transport : RemoteCameraTransportConfig)
    : list ValidationError :=
  validate_required_text "transport_kind" (rct_transport_kind transport) +++
  push_if (negb (one_of (rct_transport_kind transport) ["lan_tcp"; "relay_tls"]))
    ("lane " ++ lane_id ++ " unsupported transport_kind " ++ rct_transport_kind transport) +++
  push_if (rct_relay_required transport && str_is_empty (default EmptyString (rct_relay_session_id transport)))
    ("lane " ++ lane_id ++ " relay lanes must declare relay_session_id") +++
  push_if ((rct_transport_kind transport =? "relay_tls") && negb (rct_encryption_required transport))
    ("lane " ++ lane_id ++ " relay_tls requires encryption_required=true").

Definition rc_validate_queue (lane_id : string) (queue : RemoteCameraQueuePolicy) : list ValidationError :=
  validate_required_text "drop_policy" (rcq_drop_policy queue) +++
  push_if ((rcq_max_buffered_packets queue =? 0)%N || (256 <? rcq_max_buffered_packets queue)%N)
    ("lane " ++ lane_id ++ " max_buffered_packets must be 1..=256") +++
  push_if ((rcq_max_buffered_bytes queue =? 0)%N || (16 * 1024 * 1024 <? rcq_max_buffered_bytes queue)%N)
    ("lane " ++ lane_id ++ " max_buffered_bytes must be 1..=16777216") +++
  push_if (negb (rcq_slow_peer_close queue))
    ("lane " ++ lane_id ++ " must close slow peers instead of buffering forever").

(** The lane loop before and after the duplicate test. *)
Definition rc_validate_lane_text (lane : RemoteCameraLane) : list ValidationError :=
  validate_required_text "lane_id" (rcl_lane_id lane) +++
  validate_required_text "direction" (rcl_direction lane) +++
  validate_required_text "source_device_id" (rcl_source_device_id lane) +++
  validate_required_text "sink_device_id" (rcl_sink_device_id lane) +++
  validate_required_text "source_family" (rcl_source_family lane).

Definition rc_validate_lane (devices : btree RemoteCameraDevice) (lane : RemoteCameraLane) : list ValidationError :=
  let lane_id := rcl_lane_id lane in
  push_if (negb (one_of (rcl_direction lane) ["outgoing"; "incoming"; "bidirectional"]))
    ("unsupported lane direction " ++ rcl_direction lane) +++
  push_if (negb (bt_contains (rcl_source_device_id lane) devices))
    ("lane " ++ lane_id ++ " references unknown source_device_id " ++ rcl_source_device_id lane) +++
  push_if (negb (bt_contains (rcl_sink_device_id lane) devices))
    ("lane " ++ lane_id ++ " references unknown sink_device_id " ++ rcl_sink_device_id lane) +++
  push_if (rcl_source_device_id lane =? rcl_sink_device_id lane)
    ("lane " ++ lane_id ++ " source and sink must differ") +++
  validate_route_token "lane.lane_id" lane_id +++
  validate_route_token "lane.source_family" (rcl_source_family lane) +++
  push_if (negb (rcl_receiver_first_required lane)) ("lane " ++ lane_id ++ " must require receiver-first start") +++
  rc_validate_media lane_id (rcl_media lane) +++
  rc_validate_transport lane_id (rcl_transport lane) +++
  rc_validate_queue lane_id (rcl_queue lane).

Definition rc_validate_lanes (lanes : list RemoteCameraLane) (devices : btree RemoteCameraDevice)
    : list ValidationError :=
  push_if (bool_decide (lanes = [])) "lanes must not be empty" +++
  unique_by rcl_lane_id rc_validate_lane_text (fun lane => "duplicate lane_id " ++ rcl_lane_id lane)
    (rc_validate_lane devices) ∅ lanes.

(** ** Runtime endpoints *)

Fixpoint rc_ports_loop (device_id field : string) (seen_eyes : gset string) (seen_ports : gset N)
    (bindings : list RemoteCameraPortBinding) : list ValidationError :=
  match bindings with
  | [] => []
  | binding :: rest =>
      validate_required_text "runtime_endpoint.port.eye" (rcb_eye binding) +++
      push_if (negb (one_of (rcb_eye binding) rc_eyes))
        ("runtime endpoint " ++ device_id ++ " " ++ field ++ " has unsupported eye " ++ rcb_eye binding) +++
      push_if (rcb_port binding =? 0)%N
        ("runtime endpoint " ++ device_id ++ " " ++ field ++ " port for " ++ rcb_eye binding ++ " must be nonzero") +++
      push_if (bool_decide (rcb_eye binding ∈ seen_eyes))
        ("runtime endpoint " ++ device_id ++ " " ++ field ++ " repeats eye " ++ rcb_eye binding) +++
      push_if (bool_decide (rcb_port binding ∈ seen_ports))
        ("runtime endpoint " ++ device_id ++ " " ++ field ++ " repeats port " ++ fmt_decimal (rcb_port binding)) +++
      rc_ports_loop device_id field ({[ rcb_eye binding ]} ∪ seen_eyes) ({[ rcb_port binding ]} ∪ seen_ports) rest
  end.

Definition rc_validate_port_bindings (device_id field : string) (bindings : list RemoteCameraPortBinding)
    : list ValidationError :=
  push_if (bool_decide (bindings = [])) ("runtime endpoint " ++ device_id ++ " " ++ field ++ " must not be empty") +++
  rc_ports_loop device_id field ∅ ∅ bindings.

Definition rc_validate_camera_binding (device_id : string) (binding : RemoteCameraCameraBinding)
    : list ValidationError :=
  validate_required_text "runtime_endpoint.camera.eye" (rcc_eye binding) +++
  validate_required_text "runtime_endpoint.camera.camera_id" (rcc_camera_id binding) +++
  validate_route_token "runtime_endpoint.camera.eye" (rcc_eye binding) +++
  validate_route_token "runtime_endpoint.camera.camera_id" (rcc_camera_id binding) +++
  push_if (negb (one_of (rcc_eye binding) ["left"; "right"; "mono"]))
    ("runtime endpoint " ++ device_id ++ " sender_camera_ids has unsupported eye " ++ rcc_eye binding).

Definition rc_validate_camera_bindings (device_id : string) (bindings : list RemoteCameraCameraBinding)
    : list ValidationError * btree RemoteCameraCameraBinding :=
  index_by rcc_eye (rc_validate_camera_binding device_id)
    (fun binding => "runtime endpoint " ++ device_id ++ " sender_camera_ids repeats eye " ++ rcc_eye binding)
    (fun _ => []) [] bindings.

(** [collect::<BTreeSet<_>>()] in iteration order. *)
Definition text_set (texts : list string) : list string := bt_values (bt_collect (fun text => text) texts).

(** [if let Some(text) = option { validate_route_token(label, text) }]. *)
Definition option_token (label : string) (text : option string) : list ValidationError :=
  match text with Some text => validate_route_token label text | None => [] end.

(** The eyes of a Quest's Camera2 lanes need cameras, the outside ones for
    stereo. *)
Definition quest_camera_errors (endpoint : RemoteCameraRuntimeEndpoint) (cameras : btree RemoteCameraCameraBinding)
    (outgoing_lanes : list RemoteCameraLane) : list ValidationError :=
  mjoin ((fun eye =>
    push_if (one_of eye ["left"; "right"] && negb (bt_contains eye cameras))
      ("runtime endpoint " ++ rce_device_id endpoint ++
       " quest camera2 sender requires sender_camera_ids binding for " ++ eye)) <$>
    text_set ((fun lane => rcm_eye (rcl_media lane)) <$> outgoing_lanes)) +++
  match rcc_camera_id <$> bt_get "left" cameras, rcc_camera_id <$> bt_get "right" cameras with
  | Some left_id, Some right_id =>
      push_if (left_id =? right_id)
        ("runtime endpoint " ++ rce_device_id endpoint ++ " quest left/right sender_camera_ids must differ") +++
      push_if (negb (left_id =? QUEST_OUTSIDE_LEFT_CAMERA_ID) || negb (right_id =? QUEST_OUTSIDE_RIGHT_CAMERA_ID))
        ("runtime endpoint " ++ rce_device_id endpoint ++ " quest outside stereo camera ids must be left=" ++
         QUEST_OUTSIDE_LEFT_CAMERA_ID ++ ", right=" ++ QUEST_OUTSIDE_RIGHT_CAMERA_ID)
  | _, _ => []
  end.

Definition camera2_lane_errors (lane : RemoteCameraLane) : list ValidationError :=
  push_if (negb (one_of (rcl_source_family lane) ["quest-camera2"; "android-phone-camera2"]))
    ("lane " ++ rcl_lane_id lane ++ " camera2 sender endpoint requires a camera2 source_family") +++
  validate_route_token "lane.source_family" (rcl_source_family lane) +++
  validate_route_token "media.stream_framing" (rcm_stream_framing (rcl_media lane)).

(** What a Camera2 endpoint on a known device must have. *)
Definition camera2_endpoint_errors (endpoint : RemoteCameraRuntimeEndpoint) (device : RemoteCameraDevice)
    (cameras : btree RemoteCameraCameraBinding) (lanes : list RemoteCameraLane) : list ValidationError :=
  let outgoing_lanes := List.filter (fun lane => rcl_source_device_id lane =? rce_device_id endpoint) lanes in
  push_if (negb (one_of (rcd_device_kind device) ["quest"; "android_phone"]))
    ("runtime endpoint " ++ rce_device_id endpoint ++ " camera2_mediacodec_surface requires a camera-capable endpoint") +++
  mjoin (camera2_lane_errors <$> outgoing_lanes) +++
  (if rcd_device_kind device =? "quest" then quest_camera_errors endpoint cameras outgoing_lanes else []).

Definition rc_validate_sender_source_policy (endpoint : RemoteCameraRuntimeEndpoint)
    (devices : btree RemoteCameraDevice) (lanes : list RemoteCameraLane) : list ValidationError :=
  let id := rce_device_id endpoint in
  let '(camera_errors, cameras) := rc_validate_camera_bindings id (rce_sender_camera_ids endpoint) in
  push_if (negb (one_of (rce_sender_source_kind endpoint)
             [SOURCE_KIND_EXTERNAL_H264_SOCKET; SOURCE_KIND_CAMERA2_MEDIACODEC_SURFACE;
              SOURCE_KIND_DIAGNOSTIC_SYNTHETIC_SURFACE]))
    ("runtime endpoint " ++ id ++ " has unsupported sender_source_kind " ++ rce_sender_source_kind endpoint) +++
  push_if (negb (one_of (rce_camera_permission_policy endpoint)
             [CAMERA_PERMISSION_NOT_REQUIRED; CAMERA_PERMISSION_REQUIRED]))
    ("runtime endpoint " ++ id ++ " has unsupported camera_permission_policy " ++ rce_camera_permission_policy endpoint) +++
  validate_route_token "runtime_endpoint.sender_source_kind" (rce_sender_source_kind endpoint) +++
  validate_route_token "runtime_endpoint.camera_permission_policy" (rce_camera_permission_policy endpoint) +++
  option_token "runtime_endpoint.sender_camera_id" (rce_sender_camera_id endpoint) +++
  camera_errors +++
  option_token "runtime_endpoint.sender_camera_facing" (rce_sender_camera_facing endpoint) +++
  option_token "runtime_endpoint.sender_quality_profile" (rce_sender_quality_profile endpoint) +++
  push_if ((rce_sender_source_kind endpoint =? SOURCE_KIND_CAMERA2_MEDIACODEC_SURFACE) &&
           negb (rce_camera_permission_policy endpoint =? CAMERA_PERMISSION_REQUIRED))
    ("runtime endpoint " ++ id ++ " camera2_mediacodec_surface requires camera_permission_required") +++
  push_if (negb (rce_sender_source_kind endpoint =? SOURCE_KIND_CAMERA2_MEDIACODEC_SURFACE) &&
           (rce_camera_permission_policy endpoint =? CAMERA_PERMISSION_REQUIRED))
    ("runtime endpoint " ++ id ++ " camera permissions are allowed only for camera2_mediacodec_surface") +++
  match bt_get id devices with
  | None => []
  | Some device =>
      if rce_sender_source_kind endpoint =? SOURCE_KIND_CAMERA2_MEDIACODEC_SURFACE
      then camera2_endpoint_errors endpoint device cameras lanes else []
  end.

(** The endpoint loop before and after the duplicate test. *)
Definition rc_validate_endpoint_text (devices : btree RemoteCameraDevice) (lanes : list RemoteCameraLane)
    (endpoint : RemoteCameraRuntimeEndpoint) : list ValidationError :=
  validate_required_text "runtime_endpoint.device_id" (rce_device_id endpoint) +++
  validate_required_text "runtime_endpoint.adapter_kind" (rce_adapter_kind endpoint) +++
  validate_required_text "runtime_endpoint.sender_source_kind" (rce_sender_source_kind endpoint) +++
  validate_required_text "runtime_endpoint.sender_source_host" (rce_sender_source_host endpoint) +++
  validate_required_text "runtime_endpoint.camera_permission_policy" (rce_camera_permission_policy endpoint) +++
  validate_required_text "runtime_endpoint.receiver_bind_host" (rce_receiver_bind_host endpoint) +++
  validate_required_text "runtime_endpoint.transport_bind_host" (rce_transport_bind_host endpoint) +++
  push_if (negb (one_of (rce_adapter_kind endpoint) ["quest_manifold_broker_android"; "android_companion"]))
    ("runtime endpoint " ++ rce_device_id endpoint ++ " has unsupported adapter_kind " ++ rce_adapter_kind endpoint) +++
  rc_validate_sender_source_policy endpoint devices lanes +++
  match bt_get (rce_device_id endpoint) devices with
  | Some device =>
      push_if (rcd_device_kind device =? "relay")
        ("runtime endpoint " ++ rce_device_id endpoint ++ " must target a media endpoint, not a relay")
  | None => ["runtime endpoint references unknown device_id " ++ rce_device_id endpoint]
  end.

Definition rc_validate_endpoint_ports (endpoint : RemoteCameraRuntimeEndpoint) : list ValidationError :=
  rc_validate_port_bindings (rce_device_id endpoint) "sender_source_ports" (rce_sender_source_ports endpoint) +++
  rc_validate_port_bindings (rce_device_id endpoint) "receiver_ports" (rce_receiver_ports endpoint) +++
  rc_validate_port_bindings (rce_device_id endpoint) "transport_receive_ports" (rce_transport_receive_ports endpoint).

Definition rc_validate_runtime_endpoints (runtime_endpoints : list RemoteCameraRuntimeEndpoint)
    (devices : btree RemoteCameraDevice) (lanes : list RemoteCameraLane)
    : list ValidationError * btree RemoteCameraRuntimeEndpoint :=
  index_by rce_device_id (rc_validate_endpoint_text devices lanes)
    (fun endpoint => "duplicate runtime endpoint for device_id " ++ rce_device_id endpoint)
    rc_validate_endpoint_ports [] runtime_endpoints.

Definition rc_validate_runtime_endpoint_coverage (devices : btree RemoteCameraDevice)
    (runtime_endpoints : btree RemoteCameraRuntimeEndpoint) : list ValidationError :=
  mjoin ((fun device =>
    push_if (negb (rcd_device_kind device =? "relay") && negb (bt_contains (rcd_device_id device) runtime_endpoints))
      ("device " ++ rcd_device_id device ++ " requires a runtime endpoint")) <$> bt_values devices).

(** ** Transport routes *)

(** [if let Some(text) = option { required; token }]. *)
Definition option_text (label : string) (text : option string) : list ValidationError :=
  match text with
  | Some text => validate_required_text label text +++ validate_route_token label text
  | None => []
  end.

Definition rc_validate_route_text (route : RemoteCameraTransportRoute) : list ValidationError :=
  validate_required_text "transport_route.lane_id" (rcr_lane_id route) +++
  validate_required_text "transport_route.source_device_id" (rcr_source_device_id route) +++
  validate_required_text "transport_route.sink_device_id" (rcr_sink_device_id route) +++
  validate_required_text "transport_route.eye" (rcr_eye route) +++
  validate_required_text "transport_route.route_kind" (rcr_route_kind route) +++
  validate_required_text "transport_route.connect_host" (rcr_connect_host route) +++
  validate_route_token "transport_route.lane_id" (rcr_lane_id route) +++
  validate_route_token "transport_route.eye" (rcr_eye route) +++
  validate_route_token "transport_route.route_kind" (rcr_route_kind route) +++
  validate_route_token "transport_route.connect_host" (rcr_connect_host route) +++
  option_text "transport_route.socket_authority" (rcr_socket_authority route) +++
  option_text "transport_route.local_bind_host" (rcr_local_bind_host route) +++
  push_if (rcr_connect_port route =? 0)%N
    ("transport route " ++ rcr_lane_id route ++ " connect_port must be nonzero").

Definition is_direct_p2p_route (route : RemoteCameraTransportRoute) : bool :=
  rcr_route_kind route =? DIRECT_P2P_ROUTE_KIND.

(** The shared route contract that a direct P2P route stands for. *)
Definition shared_route (route : RemoteCameraTransportRoute) : DirectP2pSocketRoute :=
  mkP2pRoute DIRECT_P2P_SOCKET_ROUTE_SCHEMA (rcr_lane_id route) (rcr_route_kind route)
    (default EmptyString (rcr_socket_authority route)) RUSTY_OWNED_SOCKET_SCOPE QUEST_DIRECT_P2P_INTERFACE
    (default EmptyString (rcr_local_bind_host route)) (rcr_connect_host route) (rcr_connect_port route) false.

(** The local address that a source is bound to, so far. *)
Definition local_binds : Type := gmap string string.

Definition rc_validate_direct_p2p_route (route : RemoteCameraTransportRoute)
    (runtime_endpoints : btree RemoteCameraRuntimeEndpoint) (binds : local_binds)
    : list ValidationError * local_binds :=
  let shared := match validate_direct_p2p_socket_route (shared_route route) with Err errors => errors | Ok _ => [] end in
  match rcr_local_bind_host route with
  | Some local_bind_host =>
      if is_blank local_bind_host
      then (shared +++ ["transport route " ++ rcr_lane_id route ++ " direct_p2p_tcp requires local_bind_host"], binds)
      else
        (shared +++
         match binds !! rcr_source_device_id route with
         | Some previous =>
             push_if (negb (previous =? local_bind_host))
               ("transport routes for source " ++ rcr_source_device_id route ++ " must use one direct P2P local_bind_host")
         | None => []
         end +++
         match bt_get (rcr_source_device_id route) runtime_endpoints with
         | Some endpoint =>
             push_if (negb (rce_transport_bind_host endpoint =? local_bind_host))
               ("transport route " ++ rcr_lane_id route ++ " local_bind_host must match source transport_bind_host")
         | None =>
             ["transport route " ++ rcr_lane_id route ++ " source " ++ rcr_source_device_id route ++
              " has no runtime endpoint"]
         end,
         <[ rcr_source_device_id route := local_bind_host ]> binds)
  | None =>
      (shared +++ ["transport route " ++ rcr_lane_id route ++ " direct_p2p_tcp requires local_bind_host"], binds)
  end.

Definition rc_validate_platform_route (route : RemoteCameraTransportRoute) : list ValidationError :=
  push_if (match rcr_socket_authority route with
           | Some authority => negb (authority =? SOCKET_AUTHORITY_PLATFORM_DEFAULT) | None => false end)
    ("transport route " ++ rcr_lane_id route ++ " direct_tcp_connect has unsupported socket_authority") +++
  push_if (bool_decide (is_Some (rcr_local_bind_host route)))
    ("transport route " ++ rcr_lane_id route ++ " local_bind_host is reserved for direct_p2p_tcp").

(** The arm [direct_tcp_connect | direct_p2p_tcp] up to the authority of the
    socket. *)
Definition rc_direct_route_errors (route : RemoteCameraTransportRoute) (lane : RemoteCameraLane)
    (runtime_endpoints : btree RemoteCameraRuntimeEndpoint) : list ValidationError :=
  push_if (negb (rct_transport_kind (rcl_transport lane) =? "lan_tcp") || rct_relay_required (rcl_transport lane))
    ("transport route " ++ rcr_lane_id route ++ " direct TCP requires a non-relay lan_tcp lane") +++
  match bt_get (rcr_sink_device_id route) runtime_endpoints with
  | Some endpoint =>
      push_if (negb (existsb (fun binding =>
                 (rcb_eye binding =? rcr_eye route) && (rcb_port binding =? rcr_connect_port route)%N)
                 (rce_transport_receive_ports endpoint)))
        ("transport route " ++ rcr_lane_id route ++ " connect_port must match sink transport_receive_ports for " ++
         rcr_eye route)
  | None =>
      ["transport route " ++ rcr_lane_id route ++ " sink " ++ rcr_sink_device_id route ++ " has no runtime endpoint"]
  end.

Definition rc_relay_route_errors (route : RemoteCameraTransportRoute) (lane : RemoteCameraLane) : list ValidationError :=
  push_if (negb (rct_transport_kind (rcl_transport lane) =? "relay_tls") ||
           negb (rct_relay_required (rcl_transport lane)) || negb (rct_encryption_required (rcl_transport lane)))
    ("transport route " ++ rcr_lane_id route ++ " relay_tls_client requires relay_tls with encryption") +++
  push_if (blank_option (rcr_relay_channel route))
    ("transport route " ++ rcr_lane_id route ++ " relay_tls_client requires relay_channel") +++
  push_if (blank_option (rcr_relay_token_ref route))
    ("transport route " ++ rcr_lane_id route ++ " relay_tls_client requires relay_token_ref").

(** The route loop after the duplicate test. *)
Definition rc_validate_route (lanes_by_id : btree RemoteCameraLane)
    (runtime_endpoints : btree RemoteCameraRuntimeEndpoint) (route : RemoteCameraTransportRoute) (binds : local_binds)
    : list ValidationError * local_binds :=
  let kind_errors :=
    push_if (negb (one_of (rcr_route_kind route)
               [ROUTE_KIND_DIRECT_TCP_CONNECT; DIRECT_P2P_ROUTE_KIND; ROUTE_KIND_RELAY_TLS_CLIENT]))
      ("transport route " ++ rcr_lane_id route ++ " has unsupported route_kind " ++ rcr_route_kind route) in
  match bt_get (rcr_lane_id route) lanes_by_id with
  | None => (kind_errors +++ ["transport route references unknown lane " ++ rcr_lane_id route], binds)
  | Some lane =>
      let match_errors :=
        push_if (negb (rcr_source_device_id route =? rcl_source_device_id lane) ||
                 negb (rcr_sink_device_id route =? rcl_sink_device_id lane) ||
                 negb (rcr_eye route =? rcm_eye (rcl_media lane)))
          ("transport route " ++ rcr_lane_id route ++ " must match lane source, sink, and eye") in
      if one_of (rcr_route_kind route) [ROUTE_KIND_DIRECT_TCP_CONNECT; DIRECT_P2P_ROUTE_KIND]
      then
        let direct := rc_direct_route_errors route lane runtime_endpoints in
        if is_direct_p2p_route route
        then
          let '(p2p, binds') := rc_validate_direct_p2p_route route runtime_endpoints binds in
          (kind_errors +++ match_errors +++ direct +++ p2p, binds')
        else (kind_errors +++ match_errors +++ direct +++ rc_validate_platform_route route, binds)
      else if rcr_route_kind route =? ROUTE_KIND_RELAY_TLS_CLIENT
      then (kind_errors +++ match_errors +++ rc_relay_route_errors route lane, binds)
      else (kind_errors +++ match_errors, binds)
  end.

Fixpoint rc_routes_loop (lanes_by_id : btree RemoteCameraLane) (runtime_endpoints : btree RemoteCameraRuntimeEndpoint)
    (seen : gset string) (binds : local_binds) (routes : list RemoteCameraTransportRoute) : list ValidationError :=
  match routes with
  | [] => []
  | route :: rest =>
      let '(errors, binds') := rc_validate_route lanes_by_id runtime_endpoints route binds in
      rc_validate_route_text route +++
      push_if (bool_decide (rcr_lane_id route ∈ seen)) ("duplicate transport route for lane " ++ rcr_lane_id route) +++
      errors +++
      rc_routes_loop lanes_by_id runtime_endpoints ({[ rcr_lane_id route ]} ∪ seen) binds' rest
  end.

Definition rc_validate_transport_routes (routes : list RemoteCameraTransportRoute) (lanes : list RemoteCameraLane)
    (runtime_endpoints : btree RemoteCameraRuntimeEndpoint) : list ValidationError :=
  let seen : gset string := list_to_set (rcr_lane_id <$> routes) in
  push_if (bool_decide (routes = []) && negb (bool_decide (lanes = []))) "transport_routes must not be empty" +++
  rc_routes_loop (bt_collect rcl_lane_id lanes) runtime_endpoints ∅ ∅ routes +++
  mjoin ((fun lane =>
    push_if (negb (bool_decide (rcl_lane_id lane ∈ seen)))
      ("lane " ++ rcl_lane_id lane ++ " requires a transport route")) <$> lanes).

(** ** Media layout *)

Definition rc_validate_single_packed_port (device_id field : string) (bindings : list RemoteCameraPortBinding)
    : list ValidationError :=
  push_if (negb (len bindings =? 1)%N ||
           match head bindings with Some binding => negb (rcb_eye binding =? "stereo") | None => true end)
    ("runtime endpoint " ++ device_id ++ " packed " ++ field ++ " must contain exactly one stereo port").

(** What a sender of packed frames must have. *)
Definition packed_sender_errors (endpoint : RemoteCameraRuntimeEndpoint) : list ValidationError :=
  let bindings := bt_collect rcc_eye (rce_sender_camera_ids endpoint) in
  let id := rce_device_id endpoint in
  rc_validate_single_packed_port id "sender_source_ports" (rce_sender_source_ports endpoint) +++
  push_if (negb (rce_sender_source_kind endpoint =? SOURCE_KIND_CAMERA2_MEDIACODEC_SURFACE) &&
           negb (rce_sender_source_kind endpoint =? SOURCE_KIND_DIAGNOSTIC_SYNTHETIC_SURFACE))
    ("runtime endpoint " ++ id ++ " packed sender requires a GPU surface source") +++
  push_if (negb (len bindings =? 2)%N ||
           negb (bool_decide (rcc_camera_id <$> bt_get "left" bindings = Some QUEST_OUTSIDE_LEFT_CAMERA_ID)) ||
           negb (bool_decide (rcc_camera_id <$> bt_get "right" bindings = Some QUEST_OUTSIDE_RIGHT_CAMERA_ID)))
    ("runtime endpoint " ++ id ++ " packed Quest sender requires exactly left=" ++ QUEST_OUTSIDE_LEFT_CAMERA_ID ++
     " and right=" ++ QUEST_OUTSIDE_RIGHT_CAMERA_ID ++ " camera bindings") +++
  push_if (bool_decide (is_Some (bt_get "left" bindings)) &&
           bool_decide (rcc_camera_id <$> bt_get "left" bindings = rcc_camera_id <$> bt_get "right" bindings))
    ("runtime endpoint " ++ id ++ " packed camera bindings must use distinct camera ids").

Definition packed_receiver_errors (endpoint : RemoteCameraRuntimeEndpoint) : list ValidationError :=
  rc_validate_single_packed_port (rce_device_id endpoint) "receiver_ports" (rce_receiver_ports endpoint) +++
  rc_validate_single_packed_port (rce_device_id endpoint) "transport_receive_ports" (rce_transport_receive_ports endpoint).

Definition packed_endpoint_errors (lanes : list RemoteCameraLane) (endpoint : RemoteCameraRuntimeEndpoint)
    : list ValidationError :=
  (if existsb (fun lane => rcl_source_device_id lane =? rce_device_id endpoint) lanes
   then packed_sender_errors endpoint else []) +++
  (if existsb (fun lane => rcl_sink_device_id lane =? rce_device_id endpoint) lanes
   then packed_receiver_errors endpoint else []).

(** The loop that looks for a second lane in a direction. *)
Fixpoint packed_directions (directions : gset (string * string)) (lanes : list RemoteCameraLane) : list ValidationError :=
  match lanes with
  | [] => []
  | lane :: rest =>
      let direction := (rcl_source_device_id lane, rcl_sink_device_id lane) in
      push_if (bool_decide (direction ∈ directions))
        ("packed direction " ++ rcl_source_device_id lane ++ " -> " ++ rcl_sink_device_id lane ++
         " must contain exactly one stereo lane") +++
      packed_directions ({[ direction ]} ∪ directions) rest
  end.

Definition packed_counters : list string :=
  ["pairs_accepted"; "pair_delta_p95_ns"; "left_frames_dropped_unmatched"; "right_frames_dropped_unmatched";
   "stale_eye_reuse_count"; "gpu_compositor_active"; "cpu_pixel_copy"].

Definition requires_counter (observability : RemoteCameraObservabilityPolicy) (required : string) : bool :=
  existsb (fun counter => counter =? required) (rco_required_counters observability).

Definition rc_validate_packed_sbs_plan (plan : RemoteCameraSessionPlan) : list ValidationError :=
  push_if (existsb (fun lane => negb (rcm_eye (rcl_media lane) =? "stereo")) (rcp_lanes plan))
    "side-by-side-left-right requires every direction to use one stereo lane" +++
  packed_directions ∅ (rcp_lanes plan) +++
  mjoin (packed_endpoint_errors (rcp_lanes plan) <$> rcp_runtime_endpoints plan) +++
  mjoin ((fun required =>
    push_if (negb (requires_counter (rcp_observability plan) required))
      ("packed observability must require counter " ++ required)) <$> packed_counters).

Definition rc_validate_media_layout (plan : RemoteCameraSessionPlan) : list ValidationError :=
  if rcp_media_layout plan =? MEDIA_LAYOUT_SEPARATE_EYE_STREAMS
  then mjoin ((fun lane =>
    push_if ((rcm_eye (rcl_media lane) =? "stereo") || bool_decide (is_Some (rcm_frame_layout (rcl_media lane))))
      ("lane " ++ rcl_lane_id lane ++ " packed stereo fields require media_layout=" ++
       MEDIA_LAYOUT_SIDE_BY_SIDE_LEFT_RIGHT)) <$> rcp_lanes plan)
  else if rcp_media_layout plan =? MEDIA_LAYOUT_SIDE_BY_SIDE_LEFT_RIGHT then rc_validate_packed_sbs_plan plan
  else ["unsupported media_layout " ++ rcp_media_layout plan].

(** ** Privacy, security, topology, observability *)

Definition rc_validate_privacy_tier (plan : RemoteCameraSessionPlan) : list ValidationError :=
  push_if (negb (one_of (rcp_privacy_tier plan)
             [PRIVACY_LOCAL_LAN_DIAGNOSTIC; PRIVACY_TRUSTED_RELAY_ENCRYPTED; PRIVACY_E2EE_CANDIDATE]))
    ("unsupported privacy_tier " ++ rcp_privacy_tier plan) +++
  push_if (negb (rcp_privacy_tier plan =? PRIVACY_LOCAL_LAN_DIAGNOSTIC) &&
           existsb (fun lane => negb (rct_encryption_required (rcl_transport lane))) (rcp_lanes plan))
    "non-local remote camera sessions require encrypted transport on every lane".

Definition rc_validate_security (security : RemoteCameraSecurityPolicy) (privacy_tier : string) : list ValidationError :=
  push_if (negb (rcs_visible_streaming_indicator security))
    "remote camera sessions require visible_streaming_indicator=true" +++
  push_if (negb (rcs_explicit_pairing_required security))
    "remote camera sessions require explicit_pairing_required=true" +++
  validate_required_text "immediate_stop_command" (rcs_immediate_stop_command security) +++
  push_if (negb (privacy_tier =? PRIVACY_LOCAL_LAN_DIAGNOSTIC) && rcs_raw_media_logging security)
    "raw media logging is allowed only for local diagnostic sessions".

Definition rc_has_lane_between (plan : RemoteCameraSessionPlan) (source sink : string) : bool :=
  existsb (fun lane =>
    (rcl_source_device_id lane =? source) && (rcl_sink_device_id lane =? sink) &&
    (rcm_high_rate_payload_plane (rcl_media lane) =? PAYLOAD_PLANE_BINARY_MEDIA)) (rcp_lanes plan).

Definition rc_ids_of_kind (kind : string) (devices : btree RemoteCameraDevice) : list string :=
  rcd_device_id <$> List.filter (fun device => rcd_device_kind device =? kind) (bt_values devices).

Definition rc_validate_q2q_topology (plan : RemoteCameraSessionPlan) (devices : btree RemoteCameraDevice)
    : list ValidationError :=
  match rc_ids_of_kind "quest" devices with
  | first :: second :: _ =>
      push_if (negb (rc_has_lane_between plan first second) || negb (rc_has_lane_between plan second first))
        "quest_to_quest_two_way requires lanes in both Quest directions"
  | _ => ["quest_to_quest_two_way requires at least two Quest devices"]
  end.

Definition rc_validate_quest_phone_topology (plan : RemoteCameraSessionPlan) (devices : btree RemoteCameraDevice)
    : list ValidationError :=
  match rc_ids_of_kind "quest" devices, rc_ids_of_kind "android_phone" devices with
  | quest :: _, phone :: _ =>
      push_if (negb (rc_has_lane_between plan quest phone))
        "quest_android_phone_duplex requires a Quest-to-phone media lane" +++
      push_if (negb (rc_has_lane_between plan phone quest))
        "quest_android_phone_duplex requires a phone-to-Quest media lane"
  | _, _ => ["quest_android_phone_duplex requires a Quest and an Android phone"]
  end.

Definition rc_validate_topology (plan : RemoteCameraSessionPlan) (devices : btree RemoteCameraDevice)
    : list ValidationError :=
  if rcp_topology_id plan =? "quest_to_quest_two_way" then rc_validate_q2q_topology plan devices
  else if rcp_topology_id plan =? "quest_android_phone_duplex" then rc_validate_quest_phone_topology plan devices
  else ["unsupported topology_id " ++ rcp_topology_id plan].

Definition rc_counters : list string :=
  ["bytes_sent"; "bytes_received"; "media_packets"; "codec_config_packets"; "keyframes"; "queue_drops"; "close_reason"].

Definition rc_validate_observability (observability : RemoteCameraObservabilityPolicy) : list ValidationError :=
  mjoin ((fun required =>
    push_if (negb (requires_counter observability required))
      ("observability must require counter " ++ required)) <$> rc_counters).

(** ** The plan *)

Definition remote_camera_errors (plan : RemoteCameraSessionPlan) : list ValidationError :=
  let '(device_errors, devices) := rc_validate_devices (rcp_devices plan) in
  let '(endpoint_errors, runtime_endpoints) :=
    rc_validate_runtime_endpoints (rcp_runtime_endpoints plan) devices (rcp_lanes plan) in
  validate_required_text "schema" (rcp_schema plan) +++
  validate_required_text "session_id" (rcp_session_id plan) +++
  validate_required_text "topology_id" (rcp_topology_id plan) +++
  push_if (negb (rcp_schema plan =? REMOTE_CAMERA_SESSION_SCHEMA))
    ("unsupported remote camera session schema " ++ rcp_schema plan) +++
  rc_validate_privacy_tier plan +++
  rc_validate_security (rcp_security plan) (rcp_privacy_tier plan) +++
  device_errors +++
  rc_validate_lanes (rcp_lanes plan) devices +++
  endpoint_errors +++
  rc_validate_runtime_endpoint_coverage devices runtime_endpoints +++
  rc_validate_transport_routes (rcp_transport_routes plan) (rcp_lanes plan) runtime_endpoints +++
  rc_validate_media_layout plan +++
  rc_validate_topology plan devices +++
  rc_validate_observability (rcp_observability plan).

Definition validate_remote_camera_session (plan : RemoteCameraSessionPlan) : result (list ValidationError) unit :=
  match remote_camera_errors plan with [] => Ok tt | errors => Err errors end.

(** ** The media stream plan *)

Definition MEDIA_STREAM_COMPAT_MAX_PACKET_BYTES : N := 1048576.

(** The key of [source_ids_by_device_role], in the order of its fields. *)
Definition source_key : Type := string * string * string.

Definition compare_source_key (a b : source_key) : comparison :=
  match String.compare a.1.1 b.1.1 with
  | Eq => match String.compare a.1.2 b.1.2 with Eq => String.compare a.2 b.2 | c => c end
  | c => c
  end.

Definition source_ids : Type := list (source_key * string).

Definition lane_source_key (lane : RemoteCameraLane) : source_key :=
  (rcl_source_device_id lane, rcm_eye (rcl_media lane), rcl_source_family lane).

(** [format!("{}.{}.remote_camera_source", source_device_id, eye)]. *)
Definition remote_source_id (lane : RemoteCameraLane) : string :=
  rcl_source_device_id lane ++ "." ++ rcm_eye (rcl_media lane) ++ ".remote_camera_source".

(** Every named kind is mapped to the media stream's name for it, which is the
    same text. *)
Definition map_source_kind (source_kind : string) : string :=
  if source_kind =? SOURCE_KIND_EXTERNAL_H264_SOCKET then SOURCE_KIND_EXTERNAL_H264_SOCKET
  else if source_kind =? SOURCE_KIND_CAMERA2_MEDIACODEC_SURFACE then SOURCE_KIND_CAMERA2_MEDIACODEC_SURFACE
  else if source_kind =? SOURCE_KIND_DIAGNOSTIC_SYNTHETIC_SURFACE then SOURCE_KIND_DIAGNOSTIC_SYNTHETIC_SURFACE
  else source_kind.

Definition capture_route_for_source_kind (source_kind : string) : string :=
  if source_kind =? SOURCE_KIND_EXTERNAL_H264_SOCKET then "external-h264-socket"
  else if source_kind =? SOURCE_KIND_CAMERA2_MEDIACODEC_SURFACE then "camera2-mediacodec-surface"
  else if source_kind =? SOURCE_KIND_DIAGNOSTIC_SYNTHETIC_SURFACE then "diagnostic-synthetic-mediacodec-surface"
  else "unknown-remote-camera-source".

Definition capture_authority_for_source_kind (source_kind : string) : string :=
  if source_kind =? SOURCE_KIND_EXTERNAL_H264_SOCKET then CAPTURE_AUTHORITY_EXTERNAL_H264_ADAPTER
  else if source_kind =? SOURCE_KIND_CAMERA2_MEDIACODEC_SURFACE then CAPTURE_AUTHORITY_ANDROID_CAMERA_PERMISSION
  else if source_kind =? SOURCE_KIND_DIAGNOSTIC_SYNTHETIC_SURFACE then CAPTURE_AUTHORITY_DIAGNOSTIC_SYNTHETIC
  else CAPTURE_AUTHORITY_EXTERNAL_H264_ADAPTER.

Definition camera_id_for_eye (endpoint : RemoteCameraRuntimeEndpoint) (eye : string) : string :=
  match List.find (fun binding => rcc_eye binding =? eye) (rce_sender_camera_ids endpoint) with
  | Some binding => rcc_camera_id binding
  | None => default "default" (rce_sender_camera_id endpoint)
  end.

Definition build_camera (lane : RemoteCameraLane) (endpoint : RemoteCameraRuntimeEndpoint) : CameraCaptureDescriptor :=
  mkCameraCaptureDescriptor (camera_id_for_eye endpoint (rcm_eye (rcl_media lane)))
    ((fun binding => mkCameraTrackBinding (rcc_eye binding) (rcc_camera_id binding)) <$> rce_sender_camera_ids endpoint)
    (default "unspecified" (rce_sender_camera_facing endpoint)) (rce_camera_permission_policy endpoint).

Definition build_source (source_id : string) (lane : RemoteCameraLane) (endpoint : RemoteCameraRuntimeEndpoint)
    : MediaStreamSource :=
  let source_kind := map_source_kind (rce_sender_source_kind endpoint) in
  mkSource source_id (rcl_source_device_id lane) (rcl_source_family lane) source_kind
    (capture_route_for_source_kind source_kind) (capture_authority_for_source_kind source_kind)
    DEPLOYMENT_DIAGNOSTIC_ONLY (rcm_eye (rcl_media lane)) false false None
    (if source_kind =? SOURCE_KIND_CAMERA2_MEDIACODEC_SURFACE then Some (build_camera lane endpoint) else None).

(** The loop over the lanes: one source for every key, and the map of their
    ids. *)
Fixpoint build_sources (endpoints : btree RemoteCameraRuntimeEndpoint) (ids : source_ids) (lanes : list RemoteCameraLane)
    : list MediaStreamSource * source_ids :=
  match lanes with
  | [] => ([], ids)
  | lane :: rest =>
      match om_get compare_source_key (lane_source_key lane) ids with
      | Some _ => build_sources endpoints ids rest
      | None =>
          match bt_get (rcl_source_device_id lane) endpoints with
          | None => build_sources endpoints ids rest
          | Some endpoint =>
              let '(sources, ids') :=
                build_sources endpoints
                  (om_insert compare_source_key (lane_source_key lane) (remote_source_id lane) ids) rest in
              (build_source (remote_source_id lane) lane endpoint :: sources, ids')
          end
      end
  end.

Definition build_device (device : RemoteCameraDevice) : MediaStreamDevice :=
  mkDevice (rcd_device_id device) (rcd_device_kind device) (rcd_role device).

Definition build_media (media : RemoteCameraMediaConfig) : MediaStreamMediaConfig :=
  mkMediaConfig (rcm_track_id media) (rcm_eye media) (rcm_track_kind media) (rcm_codec media)
    (rcm_stream_framing media) (rcm_width media) (rcm_height media) (rcm_frame_rate_hz media)
    (rcm_bitrate_bps media) MEDIA_STREAM_COMPAT_MAX_PACKET_BYTES (rcm_metadata_transport media)
    (rcm_timestamp_domain media) (rcm_high_rate_payload_plane media).

Definition build_lane (ids : source_ids) (lane : RemoteCameraLane) : MediaStreamLane :=
  let transport := rcl_transport lane in
  let queue := rcl_queue lane in
  mkLane (rcl_lane_id lane) (rcl_direction lane)
    (default (remote_source_id lane) (om_get compare_source_key (lane_source_key lane) ids))
    (rcl_source_device_id lane) (rcl_sink_device_id lane) (build_media (rcl_media lane))
    (mkTransportConfig (rct_transport_kind transport) (rct_relay_required transport)
       (rct_encryption_required transport) (rct_relay_session_id transport))
    (mkQueuePolicy (rcq_max_buffered_packets queue) (rcq_max_buffered_bytes queue) (rcq_drop_policy queue)
       (rcq_slow_peer_close queue))
    (rcl_receiver_first_required lane).

Definition source_id_for_endpoint_role (endpoint : RemoteCameraRuntimeEndpoint) (eye : string) (ids : source_ids)
    : option string :=
  snd <$> List.find (fun entry => (entry.1.1.1 =? rce_device_id endpoint) && (entry.1.1.2 =? eye)) ids.

Definition build_port (binding : RemoteCameraPortBinding) : MediaStreamPortBinding :=
  mkPortBinding (rcb_eye binding) (rcb_port binding).

Definition build_binding (endpoint : RemoteCameraRuntimeEndpoint) (ids : source_ids) (binding : RemoteCameraPortBinding)
    : option MediaStreamSourceBinding :=
  (fun source_id =>
     mkSourceBinding source_id (rcb_eye binding) (rce_sender_source_host endpoint) (rcb_port binding)) <$>
  source_id_for_endpoint_role endpoint (rcb_eye binding) ids.

Definition build_runtime_endpoint (ids : source_ids) (endpoint : RemoteCameraRuntimeEndpoint)
    : MediaStreamRuntimeEndpoint :=
  mkRuntimeEndpoint (rce_device_id endpoint) (rce_adapter_kind endpoint)
    (omap (build_binding endpoint ids) (rce_sender_source_ports endpoint))
    (rce_receiver_bind_host endpoint) (build_port <$> rce_receiver_ports endpoint)
    (rce_transport_bind_host endpoint) (build_port <$> rce_transport_receive_ports endpoint).

Definition build_route (route : RemoteCameraTransportRoute) : MediaStreamTransportRoute :=
  mkTransportRoute (rcr_lane_id route) (rcr_source_device_id route) (rcr_sink_device_id route) (rcr_eye route)
    (rcr_route_kind route) (rcr_connect_host route) (rcr_connect_port route) (rcr_relay_channel route)
    (rcr_relay_token_ref route) (rcr_tls_server_name route).

Definition build_security (security : RemoteCameraSecurityPolicy) : MediaStreamSecurityPolicy :=
  mkSecurityPolicy (rcs_visible_streaming_indicator security) (rcs_explicit_pairing_required security)
    (rcs_immediate_stop_command security) (rcs_raw_media_logging security).

Definition build_observability (observability : RemoteCameraObservabilityPolicy) : MediaStreamObservabilityPolicy :=
  mkObservabilityPolicy (rco_required_markers observability)
    (fold_left (fun counters required =>
       if existsb (fun counter => counter =? required) counters then counters else counters +++ [required])
       ["capture_to_encode_ms"; "encode_to_receive_ms"] (rco_required_counters observability)).

(** The plan that is built, before it is validated. *)
Definition media_stream_plan (plan : RemoteCameraSessionPlan) : MediaStreamSessionPlan :=
  let endpoints := bt_collect rce_device_id (rcp_runtime_endpoints plan) in
  let '(sources, ids) := build_sources endpoints [] (rcp_lanes plan) in
  mkSessionPlan MEDIA_STREAM_SESSION_SCHEMA (rcp_session_id plan ++ ".media_stream_compat") (rcp_topology_id plan)
    (rcp_privacy_tier plan) (build_device <$> rcp_devices plan) sources (build_lane ids <$> rcp_lanes plan)
    (build_runtime_endpoint ids <$> rcp_runtime_endpoints plan) (build_route <$> rcp_transport_routes plan)
    (build_security (rcp_security plan)) (build_observability (rcp_observability plan)).

(** [map_err(|errors| prefixed errors)]. *)
Definition compat_errors {A} (prefix : string) (r : result (list ValidationError) A) : result (list ValidationError) A :=
  match r with
  | Ok a => Ok a
  | Err errors => Err ((fun error => prefix ++ error) <$> errors)
  end.

Definition build_media_stream_session_plan (plan : RemoteCameraSessionPlan)
    : result (list ValidationError) MediaStreamSessionPlan :=
  validate_remote_camera_session plan ;;
  let media_plan := media_stream_plan plan in
  compat_errors "media stream compatibility: " (validate_media_stream_session media_plan) ;;
  Ok media_plan.

(** ** The runtime specification *)

Definition lane_eyes (plan : RemoteCameraSessionPlan) : list string :=
  text_set ((fun lane => rcm_eye (rcl_media lane)) <$> rcp_lanes plan).

Definition compat_processor (roles : list string) : MediaStreamProcessorDescriptor :=
  if bool_decide ("stereo" ∈ roles)
  then mkProcessor "processor.remote-camera-compat.packed-sbs" "packed_sbs_left_right"
         ["left"; "right"] ["stereo"] false false []
  else if bool_decide ("left" ∈ roles) && bool_decide ("right" ∈ roles)
  then mkProcessor "processor.remote-camera-compat.dual-lane" "dual_lane_independent"
         ["left"; "right"] ["left"; "right"] false false []
  else
    let role := default "mono" (head roles) in
    mkProcessor "processor.remote-camera-compat.passthrough" "passthrough_h264" [role] [role] false false [].

Definition compat_sink_id (device_id : string) : string := "sink.remote-camera-compat." ++ device_id.

Definition compat_sinks (plan : RemoteCameraSessionPlan) : list MediaStreamSinkDescriptor :=
  (fun device_id => mkSink (compat_sink_id device_id) device_id "remote_camera_compat_h264_receiver" [] []) <$>
  text_set (rcl_sink_device_id <$> rcp_lanes plan).

Definition compat_lane_binding (processor_id : string) (lane : RemoteCameraLane) : MediaStreamLaneRuntimeBinding :=
  mkLaneBinding (rcl_lane_id lane) [processor_id] (compat_sink_id (rcl_sink_device_id lane)).

Definition compat_p2p_route (route : RemoteCameraTransportRoute) : MediaStreamDirectP2pRouteBinding :=
  mkP2pBinding (rcr_lane_id route)
    (mkP2pRoute DIRECT_P2P_SOCKET_ROUTE_SCHEMA (rcr_lane_id route) DIRECT_P2P_ROUTE_KIND
       (default RUSTY_DIRECT_P2P_SOCKET_AUTHORITY (rcr_socket_authority route)) RUSTY_OWNED_SOCKET_SCOPE
       QUEST_DIRECT_P2P_INTERFACE (default EmptyString (rcr_local_bind_host route)) (rcr_connect_host route)
       (rcr_connect_port route) false).

Definition source_owner (lanes : list MediaStreamLane) (source : MediaStreamSource) : MediaStreamOwnerSelection :=
  mkOwner OwnSource ("owner.remote_camera.compat.source." ++ src_source_id source) (src_source_id source)
    (lane_lane_id <$> List.find (fun lane => lane_source_id lane =? src_source_id source) lanes)
    "remote_camera_compat_source".

Definition route_owners (route : MediaStreamTransportRoute) : list MediaStreamOwnerSelection :=
  [mkOwner OwnRoute ("owner.remote_camera.compat.route." ++ rt_lane_id route) (rt_lane_id route)
     (Some (rt_lane_id route)) "remote_camera_compat_route";
   mkOwner OwnSocket ("owner.remote_camera.compat.socket." ++ rt_lane_id route) (rt_lane_id route)
     (Some (rt_lane_id route)) "remote_camera_compat_socket"].

Definition codec_owner (lane : MediaStreamLane) : MediaStreamOwnerSelection :=
  mkOwner OwnCodec ("owner.remote_camera.compat.codec." ++ lane_lane_id lane) (lane_lane_id lane)
    (Some (lane_lane_id lane)) "remote_camera_compat_h264_codec".

Definition sink_owner (sink : MediaStreamSinkDescriptor) : MediaStreamOwnerSelection :=
  mkOwner OwnSink ("owner.remote_camera.compat.sink." ++ snk_sink_id sink) (snk_sink_id sink) None
    "remote_camera_compat_h264_receiver".

(** The selections in the order in which they are pushed. *)
Definition compat_owners (media_plan : MediaStreamSessionPlan) (processor_id : string)
    (sinks : list MediaStreamSinkDescriptor) : list MediaStreamOwnerSelection :=
  (source_owner (pl_lanes media_plan) <$> pl_sources media_plan) +++
  [mkOwner OwnProcessor "owner.remote_camera.compat.processor" processor_id None "remote_camera_compat_processor"] +++
  mjoin (route_owners <$> pl_transport_routes media_plan) +++
  (codec_owner <$> pl_lanes media_plan) +++
  (sink_owner <$> sinks) +++
  [mkOwner OwnCleanup "owner.remote_camera.compat.cleanup" ("runtime." ++ pl_session_id media_plan) None
     "remote_camera_compat_cleanup"].

(** The specification that is built, before it is validated. *)
Definition media_stream_spec (plan : RemoteCameraSessionPlan) (media_plan : MediaStreamSessionPlan)
    (manifold_session_revision : N) : MediaStreamRuntimeSpec :=
  let processor := compat_processor (lane_eyes plan) in
  let sinks := compat_sinks plan in
  mkRuntimeSpec MEDIA_STREAM_RUNTIME_SPEC_SCHEMA ("runtime." ++ pl_session_id media_plan) manifold_session_revision
    media_plan [processor] sinks (compat_lane_binding (prc_processor_id processor) <$> rcp_lanes plan)
    (compat_p2p_route <$> List.filter is_direct_p2p_route (rcp_transport_routes plan))
    (sort_by compare_selection (compat_owners media_plan (prc_processor_id processor) sinks))
    (Some REMOTE_CAMERA_COMPATIBILITY_ADAPTER).

Definition build_media_stream_runtime_spec (plan : RemoteCameraSessionPlan) (manifold_session_revision : N)
    : result (list ValidationError) MediaStreamRuntimeSpec :=
  media_plan ← build_media_stream_session_plan plan ;
  let spec := media_stream_spec plan media_plan manifold_session_revision in
  compat_errors "media runtime compatibility: " (validate_media_stream_runtime_spec spec) ;;
  Ok spec.
