(* ===== verification/RemoteSpec.v ===== *)
(** * Remote camera sessions: what a validated plan is

    A declarative well-formedness predicate on remote camera plans, and the proof
    that the validator accepts exactly the plans that satisfy it. The local
    addresses that the route loop remembers do not appear: a route that is bound to
    its source's endpoint agrees with the others of that source. *)

From S2P Require Import Prelude RustStr OrdMap MediaModel MediaValidation MediaSpec MediaRefinement MediaPlan P2pRoute MediaRuntime PackedStream RemoteCamera.
From Stdlib Require Import Sorting.Sorted.

Local Open Scope N_scope.

(** ** Well-formedness *)

Definition rc_device_wf (d : RemoteCameraDevice) : Prop :=
  nonblank (rcd_device_id d) ∧ nonblank (rcd_role d) ∧
  rcd_device_kind d ∈ ["quest"; "android_phone"; "relay"]%string.

(** Two eyes of one size, side by side, paired by sensor time, on the GPU. *)
Definition frame_layout_wf (m : RemoteCameraMediaConfig) (layout : RemoteCameraFrameLayout) : Prop :=
  rcf_schema layout = PACKED_FRAME_LAYOUT_SCHEMA ∧ rcf_kind layout = FRAME_LAYOUT_SIDE_BY_SIDE_LEFT_RIGHT ∧
  rcf_eye_order layout = ["left"; "right"]%string ∧
  1 <= rcf_per_eye_width layout <= 1920 ∧ 1 <= rcf_per_eye_height layout <= 1920 ∧
  rcf_packed_width layout = 2 * rcf_per_eye_width layout ∧
  rcf_packed_height layout = rcf_per_eye_height layout ∧
  rcm_width m = rcf_packed_width layout ∧ rcm_height m = rcf_packed_height layout ∧
  rcf_pair_timestamp_authority layout = PAIR_TIMESTAMP_CAMERA2_SENSOR ∧
  rcf_pairing_policy layout = PAIRING_POLICY_NEAREST_TIMESTAMP_BOUNDED ∧
  1 <= rcf_max_pair_delta_ns layout <= 1000000000 ∧
  rcf_stale_eye_reuse_allowed layout = false ∧ rcf_cpu_pixel_copy layout = false.

Definition rc_media_wf (m : RemoteCameraMediaConfig) : Prop :=
  nonblank (rcm_track_id m) ∧ nonblank (rcm_stream_framing m) ∧ nonblank (rcm_metadata_transport m) ∧
  nonblank (rcm_timestamp_domain m) ∧ route_token (rcm_stream_framing m) ∧ rcm_eye m ∈ rc_eyes ∧
  rcm_track_kind m = "video"%string ∧ rcm_codec m = VIDEO_CODEC_H264 ∧
  rcm_high_rate_payload_plane m = PAYLOAD_PLANE_BINARY_MEDIA ∧
  rcm_metadata_transport m ≠ "inline-json-frame-payload"%string ∧
  1 <= rcm_width m ∧ 1 <= rcm_height m <= 1920 ∧ 1 <= rcm_frame_rate_hz m <= 90 ∧ rcm_bitrate_bps m ≠ 0 ∧
  match rcm_frame_layout m with
  | Some layout => frame_layout_wf m layout
  | None => rcm_width m <= 1920 ∧ rcm_eye m ≠ "stereo"%string
  end.

Definition rc_transport_wf (t : RemoteCameraTransportConfig) : Prop :=
  rct_transport_kind t ∈ ["lan_tcp"; "relay_tls"]%string ∧
  (rct_relay_required t = true → default EmptyString (rct_relay_session_id t) ≠ EmptyString) ∧
  (rct_transport_kind t = "relay_tls"%string → rct_encryption_required t = true).

Definition rc_queue_wf (q : RemoteCameraQueuePolicy) : Prop :=
  nonblank (rcq_drop_policy q) ∧ 1 <= rcq_max_buffered_packets q <= 256 ∧
  1 <= rcq_max_buffered_bytes q <= 16777216 ∧ rcq_slow_peer_close q = true.

Definition rc_lane_wf (devices : list RemoteCameraDevice) (l : RemoteCameraLane) : Prop :=
  nonblank (rcl_lane_id l) ∧ nonblank (rcl_source_device_id l) ∧ nonblank (rcl_sink_device_id l) ∧
  nonblank (rcl_source_family l) ∧ route_token (rcl_lane_id l) ∧ route_token (rcl_source_family l) ∧
  rcl_direction l ∈ ["outgoing"; "incoming"; "bidirectional"]%string ∧
  rcl_source_device_id l ∈ rcd_device_id <$> devices ∧ rcl_sink_device_id l ∈ rcd_device_id <$> devices ∧
  rcl_source_device_id l ≠ rcl_sink_device_id l ∧ rcl_receiver_first_required l = true ∧
  rc_media_wf (rcl_media l) ∧ rc_transport_wf (rcl_transport l) ∧ rc_queue_wf (rcl_queue l).

Definition rc_ports_wf (l : list RemoteCameraPortBinding) : Prop :=
  l ≠ [] ∧ Forall (fun b => rcb_eye b ∈ rc_eyes ∧ rcb_port b ≠ 0) l ∧
  NoDup (rcb_eye <$> l) ∧ NoDup (rcb_port <$> l).

Definition optional (P : string → Prop) (o : option string) : Prop :=
  match o with Some s => P s | None => True end.

Definition camera_binding_wf (b : RemoteCameraCameraBinding) : Prop :=
  rcc_eye b ∈ ["left"; "right"; "mono"]%string ∧ nonblank (rcc_camera_id b) ∧ route_token (rcc_camera_id b).

(** The endpoint captures an eye with a camera. *)
Definition captures (e : RemoteCameraRuntimeEndpoint) (eye camera : string) : Prop :=
  mkRemoteCamera eye camera ∈ rce_sender_camera_ids e.

(** The lanes that the endpoint's device sends. *)
Definition sends (e : RemoteCameraRuntimeEndpoint) (lanes : list RemoteCameraLane) (l : RemoteCameraLane) : Prop :=
  l ∈ lanes ∧ rcl_source_device_id l = rce_device_id e.

(** Outside cameras only, one for every eye that is sent. *)
Definition quest_cameras_wf (lanes : list RemoteCameraLane) (e : RemoteCameraRuntimeEndpoint) : Prop :=
  (∀ l, sends e lanes l → rcm_eye (rcl_media l) ∈ ["left"; "right"]%string →
     ∃ camera, captures e (rcm_eye (rcl_media l)) camera) ∧
  (∀ left right, captures e "left" left → captures e "right" right →
     left = QUEST_OUTSIDE_LEFT_CAMERA_ID ∧ right = QUEST_OUTSIDE_RIGHT_CAMERA_ID).

Definition camera2_wf (lanes : list RemoteCameraLane) (e : RemoteCameraRuntimeEndpoint) (d : RemoteCameraDevice) : Prop :=
  rcd_device_kind d ∈ ["quest"; "android_phone"]%string ∧
  (∀ l, sends e lanes l → rcl_source_family l ∈ ["quest-camera2"; "android-phone-camera2"]%string ∧
     route_token (rcm_stream_framing (rcl_media l))) ∧
  (rcd_device_kind d = "quest"%string → quest_cameras_wf lanes e).

(** Camera permission goes with Camera2 capture, and with nothing else. *)
Definition sender_wf (e : RemoteCameraRuntimeEndpoint) : Prop :=
  rce_sender_source_kind e ∈ [SOURCE_KIND_EXTERNAL_H264_SOCKET; SOURCE_KIND_CAMERA2_MEDIACODEC_SURFACE;
    SOURCE_KIND_DIAGNOSTIC_SYNTHETIC_SURFACE] ∧
  rce_camera_permission_policy e ∈ [CAMERA_PERMISSION_NOT_REQUIRED; CAMERA_PERMISSION_REQUIRED] ∧
  (rce_camera_permission_policy e = CAMERA_PERMISSION_REQUIRED ↔
   rce_sender_source_kind e = SOURCE_KIND_CAMERA2_MEDIACODEC_SURFACE) ∧
  optional route_token (rce_sender_camera_id e) ∧ optional route_token (rce_sender_camera_facing e) ∧
  optional route_token (rce_sender_quality_profile e) ∧
  Forall camera_binding_wf (rce_sender_camera_ids e) ∧ NoDup (rcc_eye <$> rce_sender_camera_ids e).

Definition rc_endpoint_wf (devices : list RemoteCameraDevice) (lanes : list RemoteCameraLane)
    (e : RemoteCameraRuntimeEndpoint) : Prop :=
  nonblank (rce_device_id e) ∧ nonblank (rce_sender_source_host e) ∧ nonblank (rce_receiver_bind_host e) ∧
  nonblank (rce_transport_bind_host e) ∧
  rce_adapter_kind e ∈ ["quest_manifold_broker_android"; "android_companion"]%string ∧ sender_wf e ∧
  (∃ d, d ∈ devices ∧ rcd_device_id d = rce_device_id e ∧ rcd_device_kind d ≠ "relay"%string ∧
     (rce_sender_source_kind e = SOURCE_KIND_CAMERA2_MEDIACODEC_SURFACE → camera2_wf lanes e d)) ∧
  rc_ports_wf (rce_sender_source_ports e) ∧ rc_ports_wf (rce_receiver_ports e) ∧
  rc_ports_wf (rce_transport_receive_ports e).

Definition rc_direct_ok (endpoints : list RemoteCameraRuntimeEndpoint) (r : RemoteCameraTransportRoute)
    (l : RemoteCameraLane) : Prop :=
  rct_transport_kind (rcl_transport l) = "lan_tcp"%string ∧ rct_relay_required (rcl_transport l) = false ∧
  ∃ e b, e ∈ endpoints ∧ rce_device_id e = rcr_sink_device_id r ∧ b ∈ rce_transport_receive_ports e ∧
    rcb_eye b = rcr_eye r ∧ rcb_port b = rcr_connect_port r.

Definition rc_relay_ok (r : RemoteCameraTransportRoute) (l : RemoteCameraLane) : Prop :=
  rct_transport_kind (rcl_transport l) = "relay_tls"%string ∧ rct_relay_required (rcl_transport l) = true ∧
  rct_encryption_required (rcl_transport l) = true ∧ nonblank (default EmptyString (rcr_relay_channel r)) ∧
  nonblank (default EmptyString (rcr_relay_token_ref r)).

(** A direct P2P route satisfies the shared contract from the address that its
    source's endpoint is bound to. *)
Definition rc_p2p_ok (endpoints : list RemoteCameraRuntimeEndpoint) (r : RemoteCameraTransportRoute) : Prop :=
  (∃ v, p2p_route_valid (shared_route r) v) ∧
  ∃ host e, rcr_local_bind_host r = Some host ∧ nonblank host ∧ e ∈ endpoints ∧
    rce_device_id e = rcr_source_device_id r ∧ rce_transport_bind_host e = host.

(** How a lane is carried, by the kind of its route. *)
Definition carried (endpoints : list RemoteCameraRuntimeEndpoint) (r : RemoteCameraTransportRoute)
    (l : RemoteCameraLane) : Prop :=
  (rcr_route_kind r = ROUTE_KIND_DIRECT_TCP_CONNECT ∧ rc_direct_ok endpoints r l ∧
     optional (eq SOCKET_AUTHORITY_PLATFORM_DEFAULT) (rcr_socket_authority r) ∧ rcr_local_bind_host r = None) ∨
  (rcr_route_kind r = DIRECT_P2P_ROUTE_KIND ∧ rc_direct_ok endpoints r l ∧ rc_p2p_ok endpoints r) ∨
  (rcr_route_kind r = ROUTE_KIND_RELAY_TLS_CLIENT ∧ rc_relay_ok r l).

Definition route_text_wf (r : RemoteCameraTransportRoute) : Prop :=
  nonblank (rcr_lane_id r) ∧ nonblank (rcr_source_device_id r) ∧ nonblank (rcr_sink_device_id r) ∧
  nonblank (rcr_eye r) ∧ nonblank (rcr_connect_host r) ∧ route_token (rcr_lane_id r) ∧ route_token (rcr_eye r) ∧
  route_token (rcr_connect_host r) ∧ optional (fun s => nonblank s ∧ route_token s) (rcr_socket_authority r) ∧
  optional (fun s => nonblank s ∧ route_token s) (rcr_local_bind_host r) ∧ rcr_connect_port r ≠ 0.

Definition rc_route_wf (lanes : list RemoteCameraLane) (endpoints : list RemoteCameraRuntimeEndpoint)
    (r : RemoteCameraTransportRoute) : Prop :=
  route_text_wf r ∧
  ∃ l, l ∈ lanes ∧ rcl_lane_id l = rcr_lane_id r ∧ rcr_source_device_id r = rcl_source_device_id l ∧
    rcr_sink_device_id r = rcl_sink_device_id l ∧ rcr_eye r = rcm_eye (rcl_media l) ∧ carried endpoints r l.

(** ** Layouts *)

Definition one_stereo_port (l : list RemoteCameraPortBinding) : Prop := ∃ port, l = [mkRemotePort "stereo" port].

(** A device that sends packed frames composes them on the GPU from the two
    outside cameras. *)
Definition packed_endpoint_wf (lanes : list RemoteCameraLane) (e : RemoteCameraRuntimeEndpoint) : Prop :=
  (rce_device_id e ∈ rcl_source_device_id <$> lanes →
     one_stereo_port (rce_sender_source_ports e) ∧
     rce_sender_source_kind e ∈ [SOURCE_KIND_CAMERA2_MEDIACODEC_SURFACE; SOURCE_KIND_DIAGNOSTIC_SYNTHETIC_SURFACE] ∧
     rce_sender_camera_ids e ≡ₚ [mkRemoteCamera "left" QUEST_OUTSIDE_LEFT_CAMERA_ID;
       mkRemoteCamera "right" QUEST_OUTSIDE_RIGHT_CAMERA_ID]) ∧
  (rce_device_id e ∈ rcl_sink_device_id <$> lanes →
     one_stereo_port (rce_receiver_ports e) ∧ one_stereo_port (rce_transport_receive_ports e)).

(** From which device to which. *)
Definition lane_ends (l : RemoteCameraLane) : string * string := (rcl_source_device_id l, rcl_sink_device_id l).

(** One stereo lane for every direction, or one eye for every lane. *)
Definition layout_wf (plan : RemoteCameraSessionPlan) : Prop :=
  (rcp_media_layout plan = MEDIA_LAYOUT_SEPARATE_EYE_STREAMS ∧
     Forall (fun l => rcm_eye (rcl_media l) ≠ "stereo"%string ∧ rcm_frame_layout (rcl_media l) = None) (rcp_lanes plan)) ∨
  (rcp_media_layout plan = MEDIA_LAYOUT_SIDE_BY_SIDE_LEFT_RIGHT ∧
     Forall (fun l => rcm_eye (rcl_media l) = "stereo"%string) (rcp_lanes plan) ∧
     NoDup (lane_ends <$> rcp_lanes plan) ∧
     Forall (packed_endpoint_wf (rcp_lanes plan)) (rcp_runtime_endpoints plan) ∧
     Forall (fun c => c ∈ rco_required_counters (rcp_observability plan)) packed_counters).

(** ** Topologies *)

Definition rc_kind_of (plan : RemoteCameraSessionPlan) (id kind : string) : Prop :=
  ∃ d, d ∈ rcp_devices plan ∧ rcd_device_id d = id ∧ rcd_device_kind d = kind.

Definition rc_lane_between (plan : RemoteCameraSessionPlan) (source sink : string) : Prop :=
  ∃ l, l ∈ rcp_lanes plan ∧ rcl_source_device_id l = source ∧ rcl_sink_device_id l = sink ∧
    rcm_high_rate_payload_plane (rcl_media l) = PAYLOAD_PLANE_BINARY_MEDIA.

Definition rc_lowest (plan : RemoteCameraSessionPlan) (kind a : string) : Prop :=
  rc_kind_of plan a kind ∧ ∀ x, rc_kind_of plan x kind → x = a ∨ str_lt a x.

Definition rc_lowest_two (plan : RemoteCameraSessionPlan) (kind a b : string) : Prop :=
  rc_kind_of plan a kind ∧ rc_kind_of plan b kind ∧ str_lt a b ∧
  ∀ x, rc_kind_of plan x kind → x = a ∨ x = b ∨ str_lt b x.

Definition rc_topology_wf (plan : RemoteCameraSessionPlan) : Prop :=
  (rcp_topology_id plan = "quest_to_quest_two_way"%string ∧
     ∃ a b, rc_lowest_two plan "quest" a b ∧ rc_lane_between plan a b ∧ rc_lane_between plan b a) ∨
  (rcp_topology_id plan = "quest_android_phone_duplex"%string ∧
     ∃ q p, rc_lowest plan "quest" q ∧ rc_lowest plan "android_phone" p ∧
       rc_lane_between plan q p ∧ rc_lane_between plan p q).

(** ** A well-formed plan *)

Definition rc_security_wf (s : RemoteCameraSecurityPolicy) (tier : string) : Prop :=
  rcs_visible_streaming_indicator s = true ∧ rcs_explicit_pairing_required s = true ∧
  nonblank (rcs_immediate_stop_command s) ∧
  (rcs_raw_media_logging s = true → tier = PRIVACY_LOCAL_LAN_DIAGNOSTIC).

Record remote_plan_wf (plan : RemoteCameraSessionPlan) : Prop := {
  rp_schema : rcp_schema plan = REMOTE_CAMERA_SESSION_SCHEMA ∧ nonblank (rcp_session_id plan);
  rp_privacy : rcp_privacy_tier plan ∈
      [PRIVACY_LOCAL_LAN_DIAGNOSTIC; PRIVACY_TRUSTED_RELAY_ENCRYPTED; PRIVACY_E2EE_CANDIDATE] ∧
    (rcp_privacy_tier plan ≠ PRIVACY_LOCAL_LAN_DIAGNOSTIC →
       Forall (fun l => rct_encryption_required (rcl_transport l) = true) (rcp_lanes plan));
  rp_security : rc_security_wf (rcp_security plan) (rcp_privacy_tier plan);
  rp_devices : rcp_devices plan ≠ [] ∧ NoDup (rcd_device_id <$> rcp_devices plan) ∧
    Forall rc_device_wf (rcp_devices plan);
  rp_lanes : rcp_lanes plan ≠ [] ∧ NoDup (rcl_lane_id <$> rcp_lanes plan) ∧
    Forall (rc_lane_wf (rcp_devices plan)) (rcp_lanes plan);
  rp_endpoints : NoDup (rce_device_id <$> rcp_runtime_endpoints plan) ∧
    Forall (rc_endpoint_wf (rcp_devices plan) (rcp_lanes plan)) (rcp_runtime_endpoints plan);
  rp_coverage : Forall (fun d => rcd_device_kind d ≠ "relay"%string →
      rcd_device_id d ∈ rce_device_id <$> rcp_runtime_endpoints plan) (rcp_devices plan);
  rp_routes : NoDup (rcr_lane_id <$> rcp_transport_routes plan) ∧
    Forall (rc_route_wf (rcp_lanes plan) (rcp_runtime_endpoints plan)) (rcp_transport_routes plan) ∧
    (∀ l, l ∈ rcp_lanes plan → rcl_lane_id l ∈ rcr_lane_id <$> rcp_transport_routes plan);
  rp_layout : layout_wf plan;
  rp_topology : rc_topology_wf plan;
  rp_observability : Forall (fun c => c ∈ rco_required_counters (rcp_observability plan)) rc_counters;
}.

(** ** Records without references *)

Lemma rc_device_nil d : rc_validate_device d = [] ↔ rc_device_wf d.
Proof.
  unfold rc_validate_device, rc_device_wf. errors_to_prop. note_nonblank (rcd_device_kind d). tauto.
Qed.

Lemma frame_layout_nil id m layout : rc_validate_frame_layout id m layout = [] ↔ frame_layout_wf m layout.
Proof.
  unfold rc_validate_frame_layout, frame_layout_wf, saturating_mul32, u32_max. errors_to_prop.
  rewrite !N.eqb_eq. split; intros ?; destruct_and!; split_and!; auto; lia.
Qed.

Lemma rc_eye_text v : v ∈ rc_eyes → nonblank v ∧ route_token v.
Proof. unfold rc_eyes. set_unfold. intros [->|[->|[->|[->|[]]]]]; done. Qed.

Lemma rc_media_nil id m : rc_validate_media id m = [] ↔ rc_media_wf m.
Proof.
  unfold rc_validate_media, rc_media_wf. errors_to_prop.
  pose proof (rc_eye_text (rcm_eye m)) as He.
  assert (rcm_track_kind m = "video"%string → nonblank (rcm_track_kind m)) as H1 by (by intros ->).
  assert (rcm_codec m = VIDEO_CODEC_H264 → nonblank (rcm_codec m)) as H2 by (by intros ->).
  assert (rcm_high_rate_payload_plane m = PAYLOAD_PLANE_BINARY_MEDIA →
          nonblank (rcm_high_rate_payload_plane m)) as H3 by (by intros ->).
  unfold packed_sbs. destruct (rcm_frame_layout m) as [layout|].
  - rewrite frame_layout_nil. destruct (String.eqb_spec (rcf_kind layout) FRAME_LAYOUT_SIDE_BY_SIDE_LEFT_RIGHT) as [E|E].
    + split; intros ?; destruct_and!; split_and!; try tauto; try lia.
      match goal with H : frame_layout_wf _ _ |- _ => unfold frame_layout_wf in H end. destruct_and!. lia.
    + assert (¬ frame_layout_wf m layout) by (unfold frame_layout_wf; tauto). tauto.
  - errors_to_prop. split; intros ?; destruct_and!; split_and!; try tauto; lia.
Qed.

Lemma rc_transport_nil id t : rc_validate_transport id t = [] ↔ rc_transport_wf t.
Proof.
  unfold rc_validate_transport, rc_transport_wf. errors_to_prop.
  note_nonblank (rct_transport_kind t). rewrite !andb_false_iff, negb_false_iff, String.eqb_neq.
  assert (∀ s, str_is_empty s = false ↔ s ≠ EmptyString) as E by (by intros []).
  rewrite E. destruct (rct_relay_required t), (rct_encryption_required t); intuition congruence.
Qed.

Lemma rc_queue_nil id q : rc_validate_queue id q = [] ↔ rc_queue_wf q.
Proof. unfold rc_validate_queue, rc_queue_wf. errors_to_prop. intuition lia. Qed.

Lemma rc_security_nil s tier : rc_validate_security s tier = [] ↔ rc_security_wf s tier.
Proof.
  unfold rc_validate_security, rc_security_wf. errors_to_prop. rewrite andb_false_iff, negb_false_iff, String.eqb_eq.
  destruct (rcs_raw_media_logging s); intuition congruence.
Qed.

Lemma counters_nil o (message : string → string) required :
  mjoin ((fun c => push_if (negb (requires_counter o c)) (message c)) <$> required) = [] ↔
  Forall (fun c => c ∈ rco_required_counters o) required.
Proof.
  rewrite concat_nil. apply Forall_iff. intros c. unfold requires_counter.
  rewrite push_if_nil, negb_false_iff, existsb_exists. setoid_rewrite String.eqb_eq.
  rewrite list_elem_of_In. naive_solver.
Qed.

Lemma rc_privacy_nil plan : rc_validate_privacy_tier plan = [] ↔
  rcp_privacy_tier plan ∈ [PRIVACY_LOCAL_LAN_DIAGNOSTIC; PRIVACY_TRUSTED_RELAY_ENCRYPTED; PRIVACY_E2EE_CANDIDATE] ∧
  (rcp_privacy_tier plan ≠ PRIVACY_LOCAL_LAN_DIAGNOSTIC →
     Forall (fun l => rct_encryption_required (rcl_transport l) = true) (rcp_lanes plan)).
Proof.
  unfold rc_validate_privacy_tier. errors_to_prop. rewrite andb_false_iff, negb_false_iff, String.eqb_eq.
  rewrite <- not_true_iff_false, existsb_exists, Forall_forall. setoid_rewrite negb_true_iff.
  setoid_rewrite <- list_elem_of_In.
  split; intros [H1 H2]; (split; [done|]).
  - intros Ht l Hl. destruct H2 as [|H2]; [done|]. destruct (rct_encryption_required (rcl_transport l)) eqn:E; [done|].
    destruct H2; eauto.
  - destruct (decide (rcp_privacy_tier plan = PRIVACY_LOCAL_LAN_DIAGNOSTIC)); [auto|]. right.
    intros (l & Hl & E). rewrite H2 in E by done. done.
Qed.

Lemma rc_ports_loop_nil device field eyes ports l :
  rc_ports_loop device field eyes ports l = [] ↔
  Forall (fun b => rcb_eye b ∈ rc_eyes ∧ rcb_port b ≠ 0) l ∧ NoDup (rcb_eye <$> l) ∧ NoDup (rcb_port <$> l) ∧
  Forall (fun b => rcb_eye b ∉ eyes ∧ rcb_port b ∉ ports) l.
Proof.
  revert eyes ports. induction l as [|b l IH]; intros eyes ports; cbn [rc_ports_loop].
  { split; [repeat constructor|done]. }
  rewrite !app_nil_iff, required_nil, !push_if_nil, IH, !fmap_cons, !Forall_cons, !NoDup_cons, !bool_decide_eq_false,
    not_one_of, N.eqb_neq.
  setoid_rewrite not_elem_of_union. setoid_rewrite not_elem_of_singleton.
  pose proof (rc_eye_text (rcb_eye b)) as He.
  rewrite !list_elem_of_fmap, !Forall_forall. naive_solver.
Qed.

Lemma rc_ports_nil device field l : rc_validate_port_bindings device field l = [] ↔ rc_ports_wf l.
Proof.
  unfold rc_validate_port_bindings, rc_ports_wf. rewrite app_nil_iff, push_if_nil, rc_ports_loop_nil, bool_decide_eq_false.
  assert (Forall (fun b => rcb_eye b ∉ (∅ : gset string) ∧ rcb_port b ∉ (∅ : gset N)) l).
  { apply Forall_true. intros b. set_solver. }
  tauto.
Qed.

Lemma option_token_nil label o : option_token label o = [] ↔ optional route_token o.
Proof. destruct o; cbn; [apply token_nil|done]. Qed.

Lemma option_text_nil label o : option_text label o = [] ↔ optional (fun s => nonblank s ∧ route_token s) o.
Proof. destruct o; cbn; [|done]. by rewrite app_nil_iff, required_nil, token_nil. Qed.

(** ** Sets of texts *)

Lemma collect_get_from l m k :
  bt_get k (fold_left (fun m x => bt_insert x x m) l m) = if bool_decide (k ∈ l) then Some k else bt_get k m.
Proof.
  revert m. induction l as [|x l IH]; intros m; cbn; [done|]. rewrite IH, bt_get_insert.
  destruct (String.eqb_spec k x) as [->|E].
  - rewrite (bool_decide_true (x ∈ x :: l)) by set_solver. by destruct (bool_decide (x ∈ l)).
  - by rewrite (bool_decide_ext (k ∈ x :: l) (k ∈ l)) by set_solver.
Qed.

Lemma text_set_elem l x : x ∈ text_set l ↔ x ∈ l.
Proof.
  unfold text_set, bt_values, bt_collect. rewrite list_elem_of_fmap. split.
  - intros ([k v] & -> & Hin). apply bt_elem_get in Hin; [|apply (bt_collect_sorted (fun t => t))].
    rewrite collect_get_from in Hin. case_bool_decide; [by simplify_eq|done].
  - intros Hx. exists (x, x). split; [done|]. apply bt_get_elem. rewrite collect_get_from.
    by rewrite bool_decide_true.
Qed.

Lemma str_sorted_NoDup l : StronglySorted str_lt l → NoDup l.
Proof.
  induction 1 as [|x k Hk IH Hx]; constructor; [|done]. intros Hin. rewrite Forall_forall in Hx.
  by apply (str_lt_irrefl x), Hx.
Qed.

Lemma text_set_NoDup l : NoDup (text_set l).
Proof.
  apply str_sorted_NoDup, (values_sorted (fun t : string => t)); [apply bt_collect_sorted|].
  apply (bt_collect_keyed (fun t : string => t)).
Qed.

(** ** Endpoints *)

Lemma filter_sends e lanes l :
  l ∈ List.filter (fun lane => (rcl_source_device_id lane =? rce_device_id e)%string) lanes ↔ sends e lanes l.
Proof. rewrite list_elem_of_In, List.filter_In, <- list_elem_of_In, String.eqb_eq. done. Qed.

Section Cameras.
Context (e : RemoteCameraRuntimeEndpoint) (Heyes : NoDup (rcc_eye <$> rce_sender_camera_ids e)).
Let cameras := bt_collect rcc_eye (rce_sender_camera_ids e).

Lemma captures_get eye c : rcc_camera_id <$> bt_get eye cameras = Some c ↔ captures e eye c.
Proof.
  unfold captures, cameras. rewrite fmap_Some. setoid_rewrite (bt_collect_get rcc_eye _ eye _ Heyes). split.
  - intros ([x y] & [Hx <-] & ->). done.
  - intros H. eexists. split; [split; [exact H|done]|done].
Qed.

Lemma captures_contains eye : bt_contains eye cameras = true ↔ ∃ c, captures e eye c.
Proof.
  setoid_rewrite <- captures_get. unfold bt_contains.
  destruct (bt_get eye cameras); cbn; split; [eauto|done|done|by intros [? [=]]].
Qed.

Lemma quest_cameras_nil lanes :
  quest_camera_errors e cameras
    (List.filter (fun lane => (rcl_source_device_id lane =? rce_device_id e)%string) lanes) = [] ↔
  quest_cameras_wf lanes e.
Proof.
  unfold quest_camera_errors, quest_cameras_wf. rewrite app_nil_iff, concat_nil, Forall_forall.
  apply Morphisms_Prop.and_iff_morphism.
  - setoid_rewrite text_set_elem. setoid_rewrite push_if_nil. setoid_rewrite list_elem_of_fmap.
    setoid_rewrite andb_false_iff. setoid_rewrite negb_false_iff. setoid_rewrite captures_contains.
    setoid_rewrite filter_sends. split.
    + intros H l Hl Heye. destruct (H (rcm_eye (rcl_media l))) as [Hn|Hc]; [eauto| |done].
      apply one_of_true in Heye. congruence.
    + intros H x (l & -> & Hl). destruct (one_of (rcm_eye (rcl_media l)) ["left"; "right"]) eqn:E; [|auto].
      right. apply H; [done|]. by apply one_of_true.
  - setoid_rewrite <- captures_get.
    destruct (rcc_camera_id <$> bt_get "left" cameras) as [left|], (rcc_camera_id <$> bt_get "right" cameras) as [right|];
      [|by (split; [intros _ ? ? ?|done])..].
    errors_to_prop. split; [naive_solver|]. intros H. destruct (H left right) as [-> ->]; done.
Qed.

Lemma camera2_lane_nil l : camera2_lane_errors l = [] ↔
  rcl_source_family l ∈ ["quest-camera2"; "android-phone-camera2"]%string ∧
  route_token (rcm_stream_framing (rcl_media l)).
Proof.
  unfold camera2_lane_errors. errors_to_prop.
  assert (rcl_source_family l ∈ ["quest-camera2"; "android-phone-camera2"]%string →
    route_token (rcl_source_family l)) as Hf.
  { set_unfold. intros [->|[->|[]]]; done. }
  tauto.
Qed.

Lemma camera2_nil lanes d :
  camera2_endpoint_errors e d cameras lanes = [] ↔ camera2_wf lanes e d.
Proof.
  unfold camera2_endpoint_errors, camera2_wf. cbv zeta. rewrite !app_nil_iff, concat_nil, Forall_forall.
  setoid_rewrite filter_sends. setoid_rewrite camera2_lane_nil. rewrite push_if_nil, not_one_of.
  destruct (String.eqb_spec (rcd_device_kind d) "quest") as [E|E].
  - rewrite quest_cameras_nil. naive_solver.
  - naive_solver.
Qed.
End Cameras.

Lemma camera_binding_nil id b : rc_validate_camera_binding id b = [] ↔ camera_binding_wf b.
Proof.
  unfold rc_validate_camera_binding, camera_binding_wf. errors_to_prop. note_nonblank (rcc_eye b).
  assert (rcc_eye b ∈ ["left"; "right"; "mono"]%string → route_token (rcc_eye b)).
  { set_unfold. intros [->|[->|[->|[]]]]; done. }
  tauto.
Qed.

Lemma camera_bindings_nil id l :
  (rc_validate_camera_bindings id l).2 = bt_collect rcc_eye l ∧
  ((rc_validate_camera_bindings id l).1 = [] ↔ Forall camera_binding_wf l ∧ NoDup (rcc_eye <$> l)).
Proof.
  unfold rc_validate_camera_bindings. split; [apply index_by_index|]. rewrite index_by_nil.
  pose proof (no_contains rcc_eye l) as Hn.
  assert (Forall (fun b => rc_validate_camera_binding id b = [] ∧ @nil ValidationError = []) l ↔
    Forall camera_binding_wf l) as ->.
  { apply Forall_iff. intros b. rewrite camera_binding_nil. tauto. }
  tauto.
Qed.

Section References.
Context (devices : list RemoteCameraDevice) (Hdev : NoDup (rcd_device_id <$> devices)).
Let device_map := bt_collect rcd_device_id devices.

(** The camera policy of the endpoint without the device that it is on. *)
Lemma sender_policy_nil lanes e :
  rc_validate_sender_source_policy e device_map lanes = [] ↔
  sender_wf e ∧
  match bt_get (rce_device_id e) device_map with
  | Some d => rce_sender_source_kind e = SOURCE_KIND_CAMERA2_MEDIACODEC_SURFACE → camera2_wf lanes e d
  | None => True
  end.
Proof.
  unfold rc_validate_sender_source_policy, sender_wf. cbv zeta.
  destruct (camera_bindings_nil (rce_device_id e) (rce_sender_camera_ids e)) as [Em He].
  destruct (rc_validate_camera_bindings _ _) as [es m]. cbn in Em, He. subst m.
  rewrite !app_nil_iff, !push_if_nil, !not_one_of, He, !token_nil, !option_token_nil, !andb_false_iff, !negb_false_iff,
    !String.eqb_eq, !String.eqb_neq.
  assert (rce_sender_source_kind e ∈ [SOURCE_KIND_EXTERNAL_H264_SOCKET; SOURCE_KIND_CAMERA2_MEDIACODEC_SURFACE;
    SOURCE_KIND_DIAGNOSTIC_SYNTHETIC_SURFACE] → route_token (rce_sender_source_kind e)) as T1.
  { set_unfold. intros [->|[->|[->|[]]]]; done. }
  assert (rce_camera_permission_policy e ∈ [CAMERA_PERMISSION_NOT_REQUIRED; CAMERA_PERMISSION_REQUIRED] →
    route_token (rce_camera_permission_policy e)) as T2.
  { set_unfold. intros [->|[->|[]]]; done. }
  set (K := rce_sender_source_kind e ∈ _) in *. set (P := rce_camera_permission_policy e ∈ _) in *.
  assert (NoDup (rcc_eye <$> rce_sender_camera_ids e) →
    (match bt_get (rce_device_id e) device_map with
     | None => []
     | Some device => if (rce_sender_source_kind e =? SOURCE_KIND_CAMERA2_MEDIACODEC_SURFACE)%string
         then camera2_endpoint_errors e device (bt_collect rcc_eye (rce_sender_camera_ids e)) lanes else []
     end = [] ↔
     match bt_get (rce_device_id e) device_map with
     | Some d => rce_sender_source_kind e = SOURCE_KIND_CAMERA2_MEDIACODEC_SURFACE → camera2_wf lanes e d
     | None => True
     end)) as Hc.
  { intros Hn. destruct (bt_get (rce_device_id e) device_map) as [d|]; [|done].
    destruct (String.eqb_spec (rce_sender_source_kind e) SOURCE_KIND_CAMERA2_MEDIACODEC_SURFACE); [|tauto].
    rewrite camera2_nil by done. tauto. }
  destruct (decide (rce_camera_permission_policy e = CAMERA_PERMISSION_REQUIRED)),
    (decide (rce_sender_source_kind e = SOURCE_KIND_CAMERA2_MEDIACODEC_SURFACE)); clearbody K P; tauto.
Qed.

Lemma rc_endpoint_nil lanes e :
  rc_validate_endpoint_text device_map lanes e = [] ∧ rc_validate_endpoint_ports e = [] ↔
  rc_endpoint_wf devices lanes e.
Proof.
  unfold rc_validate_endpoint_text, rc_validate_endpoint_ports, rc_endpoint_wf.
  rewrite !app_nil_iff, !required_nil, push_if_nil, not_one_of, sender_policy_nil, !rc_ports_nil.
  note_nonblank (rce_adapter_kind e).
  assert (sender_wf e → nonblank (rce_sender_source_kind e) ∧ nonblank (rce_camera_permission_policy e)) as Hb.
  { unfold sender_wf. intros (H1 & H2 & _). split; [by eapply nonblank_in|by eapply nonblank_in]. }
  assert (match bt_get (rce_device_id e) device_map with
    | Some d => rce_sender_source_kind e = SOURCE_KIND_CAMERA2_MEDIACODEC_SURFACE → camera2_wf lanes e d
    | None => True end ∧
    match bt_get (rce_device_id e) device_map with
    | Some d => push_if (rcd_device_kind d =? "relay")%string
        ("runtime endpoint " ++ rce_device_id e ++ " must target a media endpoint, not a relay")%string
    | None => [("runtime endpoint references unknown device_id " ++ rce_device_id e)%string]
    end = [] ↔
    ∃ d, d ∈ devices ∧ rcd_device_id d = rce_device_id e ∧ rcd_device_kind d ≠ "relay"%string ∧
     (rce_sender_source_kind e = SOURCE_KIND_CAMERA2_MEDIACODEC_SURFACE → camera2_wf lanes e d)) as Hd.
  { destruct (bt_get (rce_device_id e) device_map) as [d|] eqn:E.
    - pose proof E as [Hin Hid]%bt_collect_get; [|done]. rewrite push_if_nil, String.eqb_neq. split; [naive_solver|].
      intros (d' & Hin' & Hid' & H1 & H2).
      assert (bt_get (rce_device_id e) device_map = Some d') as E' by (by apply bt_collect_get). naive_solver.
    - split; [by intros []|]. intros (d' & Hin' & Hid' & H1 & H2).
      assert (bt_get (rce_device_id e) device_map = Some d') as E' by (by apply bt_collect_get). congruence. }
  rewrite <- Hd. tauto.
Qed.

Lemma rc_lane_nil l :
  rc_validate_lane_text l = [] ∧ rc_validate_lane device_map l = [] ↔ rc_lane_wf devices l.
Proof.
  unfold rc_validate_lane_text, rc_validate_lane, rc_lane_wf, device_map. cbv zeta.
  rewrite !app_nil_iff, rc_media_nil, rc_transport_nil, rc_queue_nil, !token_nil, !required_nil, !push_if_nil, not_one_of,
    !negb_false_iff, String.eqb_neq, !(bt_collect_contains rcd_device_id devices _ Hdev).
  note_nonblank (rcl_direction l). tauto.
Qed.

End References.

Lemma rc_devices_nil devices :
  (rc_validate_devices devices).2 = bt_collect rcd_device_id devices ∧
  ((rc_validate_devices devices).1 = [] ↔
   devices ≠ [] ∧ NoDup (rcd_device_id <$> devices) ∧ Forall rc_device_wf devices).
Proof.
  unfold rc_validate_devices.
  pose proof (index_by_index rcd_device_id rc_validate_device
    (fun device => "duplicate device_id " ++ rcd_device_id device)%string (fun _ => []) [] devices) as Hm.
  pose proof (index_by_nil rcd_device_id rc_validate_device
    (fun device => "duplicate device_id " ++ rcd_device_id device)%string (fun _ => []) [] devices) as He.
  destruct (index_by _ _ _ _ _ devices) as [es m]. cbn in *. split; [done|].
  rewrite app_nil_iff, push_if_nil, bool_decide_eq_false, He.
  pose proof (no_contains rcd_device_id devices).
  assert (Forall (fun x => rc_validate_device x = [] ∧ @nil ValidationError = []) devices ↔
          Forall rc_device_wf devices) as ->.
  { apply Forall_iff. intros d. rewrite rc_device_nil. tauto. }
  tauto.
Qed.

Lemma rc_lanes_nil devices lanes : NoDup (rcd_device_id <$> devices) →
  rc_validate_lanes lanes (bt_collect rcd_device_id devices) = [] ↔
  lanes ≠ [] ∧ NoDup (rcl_lane_id <$> lanes) ∧ Forall (rc_lane_wf devices) lanes.
Proof.
  intros Hd. unfold rc_validate_lanes. rewrite app_nil_iff, push_if_nil, bool_decide_eq_false, unique_by_nil.
  assert (Forall (fun l => rcl_lane_id l ∉ (∅ : gset string)) lanes) by (apply Forall_true; set_solver).
  rewrite <- (Forall_iff _ _ _ (rc_lane_nil devices Hd)). tauto.
Qed.

Lemma rc_endpoints_nil devices lanes endpoints : NoDup (rcd_device_id <$> devices) →
  (rc_validate_runtime_endpoints endpoints (bt_collect rcd_device_id devices) lanes).2 =
    bt_collect rce_device_id endpoints ∧
  ((rc_validate_runtime_endpoints endpoints (bt_collect rcd_device_id devices) lanes).1 = [] ↔
   NoDup (rce_device_id <$> endpoints) ∧ Forall (rc_endpoint_wf devices lanes) endpoints).
Proof.
  intros Hd. unfold rc_validate_runtime_endpoints. split; [apply index_by_index|].
  rewrite index_by_nil. pose proof (no_contains rce_device_id endpoints).
  rewrite <- (Forall_iff _ _ _ (rc_endpoint_nil devices Hd lanes)). tauto.
Qed.

Lemma rc_coverage_nil devices endpoints :
  NoDup (rcd_device_id <$> devices) → NoDup (rce_device_id <$> endpoints) →
  rc_validate_runtime_endpoint_coverage (bt_collect rcd_device_id devices) (bt_collect rce_device_id endpoints) = [] ↔
  Forall (fun d => rcd_device_kind d ≠ "relay"%string → rcd_device_id d ∈ rce_device_id <$> endpoints) devices.
Proof.
  intros Hd He. unfold rc_validate_runtime_endpoint_coverage. rewrite concat_nil, !Forall_forall.
  setoid_rewrite (bt_collect_values rcd_device_id _ _ Hd). setoid_rewrite push_if_nil.
  setoid_rewrite andb_false_iff. setoid_rewrite negb_false_iff. setoid_rewrite String.eqb_eq.
  setoid_rewrite (bt_collect_contains rce_device_id _ _ He).
  split; intros H d Hin; specialize (H d Hin); [tauto|].
  destruct (decide (rcd_device_kind d = "relay"%string)); auto.
Qed.

(** ** Routes *)

Section Routes.
Context (lanes : list RemoteCameraLane) (Hlane : NoDup (rcl_lane_id <$> lanes)).
Context (endpoints : list RemoteCameraRuntimeEndpoint) (Hep : NoDup (rce_device_id <$> endpoints)).
Let lane_map := bt_collect rcl_lane_id lanes.
Let endpoint_map := bt_collect rce_device_id endpoints.

Lemma rc_direct_nil r l : rc_direct_route_errors r l endpoint_map = [] ↔ rc_direct_ok endpoints r l.
Proof.
  unfold rc_direct_route_errors, rc_direct_ok, endpoint_map. rewrite app_nil_iff.
  rewrite (find_collect rce_device_id endpoints (rcr_sink_device_id r)
    (fun e => ∃ b, b ∈ rce_transport_receive_ports e ∧ rcb_eye b = rcr_eye r ∧ rcb_port b = rcr_connect_port r)); [|done..|].
  - errors_to_prop. naive_solver.
  - intros e. rewrite push_if_nil, negb_false_iff, existsb_exists.
    setoid_rewrite andb_true_iff. setoid_rewrite String.eqb_eq. setoid_rewrite N.eqb_eq.
    setoid_rewrite list_elem_of_In. naive_solver.
Qed.

Lemma rc_relay_nil r l : rc_relay_route_errors r l = [] ↔ rc_relay_ok r l.
Proof.
  unfold rc_relay_route_errors, rc_relay_ok, blank_option, nonblank. rewrite !app_nil_iff, !push_if_nil,
    !orb_false_iff, !negb_false_iff, String.eqb_eq. tauto.
Qed.

Lemma platform_nil r : rc_validate_platform_route r = [] ↔
  optional (eq SOCKET_AUTHORITY_PLATFORM_DEFAULT) (rcr_socket_authority r) ∧ rcr_local_bind_host r = None.
Proof.
  unfold rc_validate_platform_route. rewrite app_nil_iff, !push_if_nil, bool_decide_eq_false, not_is_Some.
  destruct (rcr_socket_authority r) as [a|]; cbn; [|tauto]. rewrite negb_false_iff, String.eqb_eq. intuition congruence.
Qed.

(** The remembered addresses are those of the endpoints. *)
Definition binds_agree (binds : local_binds) : Prop :=
  ∀ source host e, binds !! source = Some host → e ∈ endpoints → rce_device_id e = source →
    rce_transport_bind_host e = host.

Lemma shared_nil r :
  match validate_direct_p2p_socket_route (shared_route r) with Err errors => errors | Ok _ => [] end = [] ↔
  ∃ v, p2p_route_valid (shared_route r) v.
Proof.
  setoid_rewrite <- p2p_route_iff. destruct (validate_direct_p2p_socket_route (shared_route r)) as [v|es] eqn:E.
  - split; eauto.
  - split; [intros ->; by apply p2p_err_nonempty in E|by intros [v [=]]].
Qed.

Lemma p2p_nil r binds : binds_agree binds →
  ((rc_validate_direct_p2p_route r endpoint_map binds).1 = [] ↔ rc_p2p_ok endpoints r) ∧
  (rc_p2p_ok endpoints r → binds_agree (rc_validate_direct_p2p_route r endpoint_map binds).2).
Proof.
  intros Hb. unfold rc_validate_direct_p2p_route, rc_p2p_ok. cbv zeta.
  destruct (rcr_local_bind_host r) as [host|]; [|split; [|naive_solver]; cbn; rewrite app_nil_iff; naive_solver].
  destruct (is_blank host) eqn:Eb; cbn [fst snd].
  { split; [|intros (_ & ? & ? & [= <-] & ? & _); unfold nonblank in *; congruence].
    rewrite app_nil_iff. split; [naive_solver|]. intros (_ & ? & ? & [= <-] & ? & _). unfold nonblank in *. congruence. }
  rewrite !app_nil_iff, shared_nil. unfold endpoint_map.
  rewrite (find_collect rce_device_id endpoints (rcr_source_device_id r)
    (fun e => rce_transport_bind_host e = host)); [|done..|].
  2: { intros e. by rewrite push_if_nil, negb_false_iff, String.eqb_eq. }
  assert (∀ e, e ∈ endpoints → rce_device_id e = rcr_source_device_id r → rce_transport_bind_host e = host →
    ∀ previous, binds !! rcr_source_device_id r = Some previous → previous = host) as Hp.
  { intros e H1 H2 H3 previous H4. rewrite <- H3. symmetry. by eapply Hb. }
  split.
  - split.
    + intros (H1 & _ & e & He & Hid & Ht). eauto 10.
    + intros (H1 & host' & e & [= <-] & Hn & He & Hid & Ht). split_and!; [done| |eauto].
      destruct (binds !! rcr_source_device_id r) as [previous|] eqn:E; [|done].
      rewrite push_if_nil, negb_false_iff, String.eqb_eq. eauto.
  - intros (_ & host' & e & [= <-] & Hn & He & Hid & Ht) source h e' Hl He' Hid'. unfold local_binds in *.
    destruct (decide (source = rcr_source_device_id r)) as [->|Hne].
    + rewrite lookup_insert_eq in Hl. simplify_eq.
      assert (bt_get (rce_device_id e) endpoint_map = Some e) as E1 by (by apply bt_collect_get).
      assert (bt_get (rce_device_id e) endpoint_map = Some e') as E2 by (apply bt_collect_get; [done|]; split; congruence).
      congruence.
    + rewrite lookup_insert_ne in Hl by done. by eapply Hb.
Qed.

(** The tests after the lookup of the lane: what carries it. *)
Lemma carried_cases r l :
  rcr_route_kind r ∈ [ROUTE_KIND_DIRECT_TCP_CONNECT; DIRECT_P2P_ROUTE_KIND; ROUTE_KIND_RELAY_TLS_CLIENT] →
  (if one_of (rcr_route_kind r) [ROUTE_KIND_DIRECT_TCP_CONNECT; DIRECT_P2P_ROUTE_KIND]
   then if is_direct_p2p_route r then rc_direct_ok endpoints r l ∧ rc_p2p_ok endpoints r
        else rc_direct_ok endpoints r l ∧
          optional (eq SOCKET_AUTHORITY_PLATFORM_DEFAULT) (rcr_socket_authority r) ∧ rcr_local_bind_host r = None
   else rc_relay_ok r l) ↔ carried endpoints r l.
Proof.
  unfold carried, is_direct_p2p_route. set_unfold.
  intros [E|[E|[E|[]]]]; rewrite E; cbn [one_of existsb]; vm_compute (String.eqb _ _); cbn [orb]; intuition discriminate.
Qed.

Lemma route_text_nil r :
  rcr_route_kind r ∈ [ROUTE_KIND_DIRECT_TCP_CONNECT; DIRECT_P2P_ROUTE_KIND; ROUTE_KIND_RELAY_TLS_CLIENT] →
  rc_validate_route_text r = [] ↔ route_text_wf r.
Proof.
  intros Hk. unfold rc_validate_route_text, route_text_wf. rewrite !app_nil_iff, !option_text_nil. errors_to_prop.
  assert (nonblank (rcr_route_kind r) ∧ route_token (rcr_route_kind r)).
  { set_unfold in Hk. destruct Hk as [->|[->|[->|[]]]]; done. }
  tauto.
Qed.

(** The tests of a route whose lane is known. *)
Lemma known_route_nil r l binds : binds_agree binds → bt_get (rcr_lane_id r) lane_map = Some l →
  ((rc_validate_route lane_map endpoint_map r binds).1 = [] ↔
   rcr_route_kind r ∈ [ROUTE_KIND_DIRECT_TCP_CONNECT; DIRECT_P2P_ROUTE_KIND; ROUTE_KIND_RELAY_TLS_CLIENT] ∧
   rcr_source_device_id r = rcl_source_device_id l ∧ rcr_sink_device_id r = rcl_sink_device_id l ∧
   rcr_eye r = rcm_eye (rcl_media l) ∧ carried endpoints r l) ∧
  (carried endpoints r l → binds_agree (rc_validate_route lane_map endpoint_map r binds).2).
Proof.
  intros Hb Hl. unfold rc_validate_route. cbv zeta. rewrite Hl. destruct (p2p_nil r binds Hb) as [Hp Hp'].
  destruct (decide (rcr_route_kind r ∈
    [ROUTE_KIND_DIRECT_TCP_CONNECT; DIRECT_P2P_ROUTE_KIND; ROUTE_KIND_RELAY_TLS_CLIENT])) as [Hk|Hk].
  2: { assert (¬ carried endpoints r l) by (unfold carried; intros [[E _]|[[E _]|[E _]]]; rewrite E in Hk; set_solver).
       assert (one_of (rcr_route_kind r)
         [ROUTE_KIND_DIRECT_TCP_CONNECT; DIRECT_P2P_ROUTE_KIND; ROUTE_KIND_RELAY_TLS_CLIENT] = false) as ->
         by (apply not_true_iff_false; by rewrite one_of_true).
       split; [|tauto]. repeat case_match; cbn; split; (done || tauto). }
  rewrite <- (carried_cases r l Hk).
  assert (rcr_route_kind r ∉ [ROUTE_KIND_DIRECT_TCP_CONNECT; DIRECT_P2P_ROUTE_KIND] →
    (rcr_route_kind r =? ROUTE_KIND_RELAY_TLS_CLIENT)%string = true) as Hrelay.
  { intros Hn. apply String.eqb_eq. set_solver. }
  destruct (one_of (rcr_route_kind r) [ROUTE_KIND_DIRECT_TCP_CONNECT; DIRECT_P2P_ROUTE_KIND]) eqn:E1.
  - destruct (is_direct_p2p_route r).
    + destruct (rc_validate_direct_p2p_route r endpoint_map binds) as [es binds']. cbn [fst snd] in *.
      rewrite !app_nil_iff, rc_direct_nil, Hp. errors_to_prop. tauto.
    + cbn [fst snd]. rewrite !app_nil_iff, rc_direct_nil, platform_nil. errors_to_prop. tauto.
  - rewrite Hrelay by (rewrite <- one_of_true; congruence). cbn [fst snd].
    rewrite !app_nil_iff, rc_relay_nil. errors_to_prop. tauto.
Qed.

Lemma rc_route_nil r binds : binds_agree binds →
  (rc_validate_route_text r = [] ∧ (rc_validate_route lane_map endpoint_map r binds).1 = [] ↔
   rc_route_wf lanes endpoints r) ∧
  (rc_route_wf lanes endpoints r → binds_agree (rc_validate_route lane_map endpoint_map r binds).2).
Proof.
  intros Hb. destruct (bt_get (rcr_lane_id r) lane_map) as [l|] eqn:E.
  - destruct (known_route_nil r l binds Hb E) as [H1 H2]. pose proof E as [Hin Hid]%bt_collect_get; [|done].
    assert (rc_route_wf lanes endpoints r ↔ route_text_wf r ∧ rcr_source_device_id r = rcl_source_device_id l ∧
      rcr_sink_device_id r = rcl_sink_device_id l ∧ rcr_eye r = rcm_eye (rcl_media l) ∧ carried endpoints r l) as ->.
    { unfold rc_route_wf. split; [|naive_solver]. intros (H & l' & Hin' & Hid' & Hr).
      assert (bt_get (rcr_lane_id r) lane_map = Some l') as E' by (by apply bt_collect_get). naive_solver. }
    split; [|tauto]. rewrite H1.
    assert (carried endpoints r l → rcr_route_kind r ∈
      [ROUTE_KIND_DIRECT_TCP_CONNECT; DIRECT_P2P_ROUTE_KIND; ROUTE_KIND_RELAY_TLS_CLIENT]) as Hk.
    { intros [[-> _]|[[-> _]|[-> _]]]; set_solver. }
    split; [|intros ?; destruct_and!]; intros; destruct_and?; split_and?; auto; by apply route_text_nil; auto.
  - assert (¬ rc_route_wf lanes endpoints r) as Hn.
    { intros (_ & l & Hin & Hid & _).
      assert (bt_get (rcr_lane_id r) lane_map = Some l) as E' by (by apply bt_collect_get). congruence. }
    split; [|tauto]. split; [|tauto]. unfold rc_validate_route. cbv zeta. rewrite E. cbn [fst].
    rewrite app_nil_iff. intros (_ & _ & [=]).
Qed.

Lemma rc_routes_loop_nil routes seen binds : binds_agree binds →
  rc_routes_loop lane_map endpoint_map seen binds routes = [] ↔
  Forall (rc_route_wf lanes endpoints) routes ∧ NoDup (rcr_lane_id <$> routes) ∧
  Forall (fun r => rcr_lane_id r ∉ seen) routes.
Proof.
  revert seen binds. induction routes as [|r routes IH]; intros seen binds Hb; cbn [rc_routes_loop].
  { split; [repeat constructor|done]. }
  destruct (rc_route_nil r binds Hb) as [H1 H2]. specialize (IH ({[ rcr_lane_id r ]} ∪ seen)).
  destruct (rc_validate_route lane_map endpoint_map r binds) as [es binds']. cbn [fst snd] in *.
  rewrite !app_nil_iff, push_if_nil, bool_decide_eq_false, !Forall_cons, fmap_cons, NoDup_cons, <- H1.
  assert (rc_route_wf lanes endpoints r → rc_routes_loop lane_map endpoint_map ({[ rcr_lane_id r ]} ∪ seen) binds' routes = [] ↔
    Forall (rc_route_wf lanes endpoints) routes ∧ NoDup (rcr_lane_id <$> routes) ∧
    rcr_lane_id r ∉ rcr_lane_id <$> routes ∧ Forall (fun r => rcr_lane_id r ∉ seen) routes) as H3.
  { intros Hr. rewrite (IH binds') by auto. setoid_rewrite not_elem_of_union. setoid_rewrite not_elem_of_singleton.
    rewrite list_elem_of_fmap, !Forall_forall. naive_solver. }
  clear IH. tauto.
Qed.

Lemma rc_routes_nil routes : lanes ≠ [] →
  rc_validate_transport_routes routes lanes endpoint_map = [] ↔
  NoDup (rcr_lane_id <$> routes) ∧ Forall (rc_route_wf lanes endpoints) routes ∧
  (∀ l, l ∈ lanes → rcl_lane_id l ∈ rcr_lane_id <$> routes).
Proof.
  intros Hne. unfold rc_validate_transport_routes. cbv zeta. fold lane_map.
  rewrite !app_nil_iff, push_if_nil, rc_routes_loop_nil, concat_nil, andb_false_iff, bool_decide_eq_false,
    negb_false_iff, bool_decide_eq_true by (intros s h e Hs; unfold local_binds in Hs; by rewrite lookup_empty in Hs).
  assert (Forall (fun r => rcr_lane_id r ∉ (∅ : gset string)) routes) as He by (apply Forall_true; set_solver).
  setoid_rewrite push_if_nil. setoid_rewrite negb_false_iff. setoid_rewrite bool_decide_eq_true.
  setoid_rewrite elem_of_list_to_set. rewrite (Forall_forall _ lanes).
  split; [tauto|]. intros (H1 & H2 & H3). split_and!; auto. left. intros ->.
  destruct lanes as [|l ls]; [done|]. specialize (H3 l ltac:(set_solver)). set_solver.
Qed.

End Routes.

(** ** Layouts *)

(** With distinct keys a map holds the values once each. *)
Lemma collect_perm {A} (key : A → string) l : NoDup (key <$> l) → bt_values (bt_collect key l) ≡ₚ l.
Proof.
  intros Hd. apply NoDup_Permutation.
  - apply (NoDup_fmap_1 key), str_sorted_NoDup, fmap_sorted, values_sorted;
      [apply bt_collect_sorted|apply bt_collect_keyed].
  - by apply NoDup_fmap_1 in Hd.
  - intros x. by apply bt_collect_values.
Qed.

Lemma single_port_nil id field l : rc_validate_single_packed_port id field l = [] ↔ one_stereo_port l.
Proof.
  unfold rc_validate_single_packed_port, one_stereo_port. errors_to_prop. rewrite N.eqb_eq.
  destruct l as [|[eye port] [|b l]]; cbn [head].
  - split; [by intros [? ?]|by intros [? [=]]].
  - rewrite negb_false_iff, String.eqb_eq. cbn. naive_solver.
  - split; [intros [E _]; unfold len in E; cbn in E; lia|by intros [? [=]]].
Qed.

Lemma packed_sender_nil e : NoDup (rcc_eye <$> rce_sender_camera_ids e) →
  packed_sender_errors e = [] ↔
  one_stereo_port (rce_sender_source_ports e) ∧
  rce_sender_source_kind e ∈ [SOURCE_KIND_CAMERA2_MEDIACODEC_SURFACE; SOURCE_KIND_DIAGNOSTIC_SYNTHETIC_SURFACE] ∧
  rce_sender_camera_ids e ≡ₚ [mkRemoteCamera "left" QUEST_OUTSIDE_LEFT_CAMERA_ID;
    mkRemoteCamera "right" QUEST_OUTSIDE_RIGHT_CAMERA_ID].
Proof.
  intros Hn. unfold packed_sender_errors. cbv zeta. rewrite !app_nil_iff, single_port_nil. errors_to_prop.
  rewrite !andb_false_iff, !negb_false_iff, !String.eqb_eq, !bool_decide_eq_false, N.eqb_eq, !captures_get by done.
  assert (rce_sender_source_kind e ∈ [SOURCE_KIND_CAMERA2_MEDIACODEC_SURFACE; SOURCE_KIND_DIAGNOSTIC_SYNTHETIC_SURFACE] ↔
    rce_sender_source_kind e = SOURCE_KIND_CAMERA2_MEDIACODEC_SURFACE ∨
    rce_sender_source_kind e = SOURCE_KIND_DIAGNOSTIC_SYNTHETIC_SURFACE) as -> by (set_unfold; tauto).
  assert (len (bt_collect rcc_eye (rce_sender_camera_ids e)) = len (rce_sender_camera_ids e)) as ->.
  { unfold len. rewrite <- (collect_perm rcc_eye _ Hn) at 2. unfold bt_values. by rewrite length_fmap. }
  pose proof (captures_get e Hn "left") as Hleft. pose proof (captures_get e Hn "right") as Hright.
  unfold captures in *.
  split.
  - intros (H1 & H2 & ((H3 & H4) & H5) & _). split_and!; [done..|].
    symmetry. apply submseteq_length_Permutation; [|unfold len in H3; cbn; lia].
    apply NoDup_submseteq; [by repeat constructor; set_solver|]. set_unfold. intros x [->|[->|[]]]; done.
  - intros (H1 & H2 & H3).
    assert (∀ x, x ∈ rce_sender_camera_ids e ↔ x = mkRemoteCamera "left" QUEST_OUTSIDE_LEFT_CAMERA_ID ∨
      x = mkRemoteCamera "right" QUEST_OUTSIDE_RIGHT_CAMERA_ID) as Hin by (intros x; rewrite H3; set_solver).
    split_and!; [done|done|..].
    + unfold len. by rewrite H3.
    + apply Hin. auto.
    + apply Hin. auto.
    + right. intros E. specialize (Hleft QUEST_OUTSIDE_LEFT_CAMERA_ID) as [_ Hl]. rewrite E in Hl.
      rewrite Hright, !Hin in Hl. destruct Hl as [[=]|[=]]. auto.
Qed.

Lemma packed_directions_nil seen lanes : packed_directions seen lanes = [] ↔
  NoDup (lane_ends <$> lanes) ∧
  Forall (fun l => lane_ends l ∉ seen) lanes.
Proof.
  revert seen. induction lanes as [|l lanes IH]; intros seen; cbn [packed_directions].
  { split; [repeat constructor|done]. }
  cbv zeta. change (rcl_source_device_id l, rcl_sink_device_id l) with (lane_ends l).
  rewrite app_nil_iff, push_if_nil, IH, fmap_cons, Forall_cons, NoDup_cons, bool_decide_eq_false.
  setoid_rewrite not_elem_of_union. setoid_rewrite not_elem_of_singleton.
  rewrite list_elem_of_fmap, !Forall_forall. clear IH. generalize lane_ends. naive_solver.
Qed.

Lemma packed_endpoint_nil lanes e : NoDup (rcc_eye <$> rce_sender_camera_ids e) →
  packed_endpoint_errors lanes e = [] ↔ packed_endpoint_wf lanes e.
Proof.
  intros Hn. unfold packed_endpoint_errors, packed_endpoint_wf. rewrite app_nil_iff, !existsb_fmap.
  do 2 case_bool_decide; rewrite ?packed_sender_nil by done; unfold packed_receiver_errors;
    rewrite ?app_nil_iff, ?single_port_nil; tauto.
Qed.

Lemma layout_nil plan : Forall (fun e => NoDup (rcc_eye <$> rce_sender_camera_ids e)) (rcp_runtime_endpoints plan) →
  rc_validate_media_layout plan = [] ↔ layout_wf plan.
Proof.
  intros Hn. unfold rc_validate_media_layout, layout_wf.
  destruct (String.eqb_spec (rcp_media_layout plan) MEDIA_LAYOUT_SEPARATE_EYE_STREAMS) as [->|E1].
  { rewrite concat_nil. setoid_rewrite push_if_nil. setoid_rewrite orb_false_iff. setoid_rewrite String.eqb_neq.
    setoid_rewrite bool_decide_eq_false. setoid_rewrite not_is_Some. intuition discriminate. }
  destruct (String.eqb_spec (rcp_media_layout plan) MEDIA_LAYOUT_SIDE_BY_SIDE_LEFT_RIGHT) as [->|E2];
    [|split; [done|intuition congruence]].
  unfold rc_validate_packed_sbs_plan. rewrite !app_nil_iff, push_if_nil, packed_directions_nil, concat_nil, counters_nil.
  assert (Forall (fun l => lane_ends l ∉ (∅ : gset (string * string))) (rcp_lanes plan))
    by (apply Forall_true; set_solver).
  assert (Forall (fun e => packed_endpoint_errors (rcp_lanes plan) e = []) (rcp_runtime_endpoints plan) ↔
    Forall (packed_endpoint_wf (rcp_lanes plan)) (rcp_runtime_endpoints plan)) as ->.
  { rewrite !Forall_forall in *. split; intros H' e He; apply packed_endpoint_nil; eauto. }
  assert (existsb (fun lane => negb (rcm_eye (rcl_media lane) =? "stereo")%string) (rcp_lanes plan) = false ↔
    Forall (fun l => rcm_eye (rcl_media l) = "stereo"%string) (rcp_lanes plan)) as ->.
  { rewrite <- not_true_iff_false, existsb_exists, Forall_forall. setoid_rewrite negb_true_iff.
    setoid_rewrite String.eqb_neq. setoid_rewrite <- list_elem_of_In. split; [|naive_solver].
    intros H' l Hl. destruct (decide (rcm_eye (rcl_media l) = "stereo"%string)); [done|]. destruct H'; eauto. }
  intuition discriminate.
Qed.

(** ** Topologies *)

Lemma plan_devices plan : pl_devices (media_stream_plan plan) = build_device <$> rcp_devices plan.
Proof. unfold media_stream_plan. by destruct (build_sources _ _ _). Qed.

Lemma plan_between plan a b : has_lane_between (media_stream_plan plan) a b = rc_has_lane_between plan a b.
Proof.
  unfold has_lane_between, rc_has_lane_between, media_stream_plan. destruct (build_sources _ _ _) as [sources ids].
  cbn [pl_lanes]. induction (rcp_lanes plan) as [|l ls IH]; [done|]. cbn. by rewrite IH.
Qed.

Lemma collect_map {A B} (f : A → B) (key : A → string) (key' : B → string) l : (∀ x, key' (f x) = key x) →
  bt_collect key' (f <$> l) = prod_map id f <$> bt_collect key l.
Proof.
  intros Hk. unfold bt_collect. change (@nil (string * B)) with (prod_map id f <$> @nil (string * A)).
  generalize (@nil (string * A)). induction l as [|x l IH]; intros m; [done|]. cbn [fold_left fmap list_fmap].
  rewrite <- IH. f_equal. rewrite Hk. clear. induction m as [|[k v] m IH]; [done|]. cbn.
  destruct (String.compare (key x) k); [done..|]. cbn. by rewrite <- IH.
Qed.

Lemma plan_ids plan kind :
  device_ids_of_kind kind (bt_collect dev_device_id (pl_devices (media_stream_plan plan))) =
  rc_ids_of_kind kind (bt_collect rcd_device_id (rcp_devices plan)).
Proof.
  rewrite plan_devices, (collect_map build_device rcd_device_id) by done.
  unfold device_ids_of_kind, rc_ids_of_kind, bt_values.
  induction (bt_collect rcd_device_id (rcp_devices plan)) as [|[k d] m IH]; [done|]. cbn.
  destruct (rcd_device_kind d =? kind)%string; cbn; by rewrite IH.
Qed.

Lemma plan_kind_of plan id kind : device_kind_of (media_stream_plan plan) id kind ↔ rc_kind_of plan id kind.
Proof.
  unfold device_kind_of, rc_kind_of. rewrite plan_devices. setoid_rewrite list_elem_of_fmap. split.
  - intros (d & (d' & -> & Hd) & H1 & H2). eauto.
  - intros (d & Hd & H1 & H2). exists (build_device d). eauto.
Qed.

Lemma plan_lane_between plan a b : lane_between (media_stream_plan plan) a b ↔ rc_lane_between plan a b.
Proof.
  rewrite <- lane_between_iff, plan_between. unfold rc_has_lane_between, rc_lane_between. rewrite existsb_exists.
  setoid_rewrite andb_true_iff. setoid_rewrite andb_true_iff. setoid_rewrite String.eqb_eq.
  setoid_rewrite list_elem_of_In. naive_solver.
Qed.

(** The two topologies are those of the media stream. *)
Lemma topology_projects plan : rc_topology_wf plan ↔
  rcp_topology_id plan ∈ ["quest_to_quest_two_way"; "quest_android_phone_duplex"]%string ∧
  topology_wf (media_stream_plan plan).
Proof.
  unfold rc_topology_wf, topology_wf, lowest, lowest_two, rc_lowest, rc_lowest_two.
  assert (pl_topology_id (media_stream_plan plan) = rcp_topology_id plan) as ->.
  { unfold media_stream_plan. by destruct (build_sources _ _ _). }
  setoid_rewrite plan_kind_of. setoid_rewrite plan_lane_between. split.
  - intros [[-> H]|[-> H]]; (split; [set_solver|]); tauto.
  - intros [Hid H]. set_unfold in Hid. destruct Hid as [E|[E|[]]]; rewrite E in *; [left|right];
      (split; [done|]); repeat destruct H as [H|H]; try (by destruct H as [[=] _]); try tauto; try done.
    all: destruct H as [H _]; set_unfold in H; intuition discriminate.
Qed.

(** The validators are the media stream's, on the projected plan. *)
Lemma q2q_projects plan :
  rc_validate_q2q_topology plan (bt_collect rcd_device_id (rcp_devices plan)) =
  validate_quest_to_quest_two_way (media_stream_plan plan)
    (bt_collect dev_device_id (pl_devices (media_stream_plan plan))).
Proof.
  unfold rc_validate_q2q_topology, validate_quest_to_quest_two_way. rewrite plan_ids.
  destruct (rc_ids_of_kind _ _) as [|a [|b ?]]; [done..|]. by rewrite !plan_between.
Qed.

Lemma duplex_projects plan :
  rc_validate_quest_phone_topology plan (bt_collect rcd_device_id (rcp_devices plan)) =
  validate_quest_android_phone_duplex (media_stream_plan plan)
    (bt_collect dev_device_id (pl_devices (media_stream_plan plan))).
Proof.
  unfold rc_validate_quest_phone_topology, validate_quest_android_phone_duplex. rewrite !plan_ids.
  set (devices := bt_collect rcd_device_id (rcp_devices plan)).
  destruct (rc_ids_of_kind "quest" devices), (rc_ids_of_kind "android_phone" devices); [done..|]. by rewrite !plan_between.
Qed.

Lemma rc_topology_nil plan : NoDup (rcd_device_id <$> rcp_devices plan) →
  rc_validate_topology plan (bt_collect rcd_device_id (rcp_devices plan)) = [] ↔ rc_topology_wf plan.
Proof.
  intros Hd.
  assert (NoDup (dev_device_id <$> pl_devices (media_stream_plan plan))) as Hd'.
  { rewrite plan_devices, <- list_fmap_compose. done. }
  unfold rc_validate_topology, rc_topology_wf, rc_lowest, rc_lowest_two.
  setoid_rewrite <- plan_kind_of. setoid_rewrite <- plan_lane_between.
  destruct (String.eqb_spec (rcp_topology_id plan) "quest_to_quest_two_way") as [->|E1].
  { rewrite q2q_projects, two_way_nil by done. intuition discriminate. }
  destruct (String.eqb_spec (rcp_topology_id plan) "quest_android_phone_duplex") as [->|E2]; [|split; [done|tauto]].
  rewrite duplex_projects, duplex_nil by done. intuition discriminate.
Qed.

(** ** The whole plan *)

Lemma remote_errors_nil plan : remote_camera_errors plan = [] ↔ remote_plan_wf plan.
Proof.
  unfold remote_camera_errors.
  destruct (rc_devices_nil (rcp_devices plan)) as [Edev Hdev].
  destruct (rc_validate_devices (rcp_devices plan)) as [des dm]. cbn in Edev, Hdev. subst dm.
  destruct (decide (NoDup (rcd_device_id <$> rcp_devices plan))) as [Nd|Nd].
  2: { destruct (rc_validate_runtime_endpoints _ _ _). rewrite !app_nil_iff. split; [tauto|].
       intros W. destruct (rp_devices _ W) as (_ & ? & _). done. }
  destruct (rc_endpoints_nil (rcp_devices plan) (rcp_lanes plan) (rcp_runtime_endpoints plan) Nd) as [Eep Hep].
  destruct (rc_validate_runtime_endpoints _ _ _) as [ees em]. cbn in Eep, Hep. subst em.
  unfold rc_validate_observability.
  rewrite !app_nil_iff, !required_nil, push_if_nil, negb_false_iff, String.eqb_eq, rc_privacy_nil, rc_security_nil,
    Hdev, Hep, (rc_lanes_nil _ _ Nd), counters_nil, (rc_topology_nil plan Nd).
  assert (Forall (rc_endpoint_wf (rcp_devices plan) (rcp_lanes plan)) (rcp_runtime_endpoints plan) →
    Forall (fun e => NoDup (rcc_eye <$> rce_sender_camera_ids e)) (rcp_runtime_endpoints plan)) as Hc.
  { intros H. eapply Forall_impl; [exact H|]. intros e (_ & _ & _ & _ & _ & Hs & _). apply Hs. }
  split.
  - intros (_ & Hsid & _ & Hsch & Hpr & Hsec & Hd & Hl & [Ne He] & Hcov & Hr & Hlay & Ht & Ho).
    pose proof Hl as (Hne & Nl & _). rewrite rc_coverage_nil in Hcov by done. rewrite rc_routes_nil in Hr by done.
    rewrite layout_nil in Hlay by auto. by constructor.
  - intros [[Hsch Hsid] Hpr Hsec Hd Hl [Ne He] Hcov Hr Hlay Ht Ho]. pose proof Hl as (Hne & Nl & _).
    rewrite rc_coverage_nil, rc_routes_nil, layout_nil by auto.
    assert (nonblank (rcp_topology_id plan)) by (by destruct Ht as [[-> _]|[-> _]]).
    assert (nonblank (rcp_schema plan)) by (by rewrite Hsch). tauto.
Qed.

Lemma remote_session_ok plan : validate_remote_camera_session plan = Ok tt ↔ remote_plan_wf plan.
Proof.
  rewrite <- remote_errors_nil. unfold validate_remote_camera_session. destruct (remote_camera_errors plan); [done|].
  split; intros [=].
Qed.
