(* ===== verification/RemoteTheorems.v ===== *)
(** * Remote camera sessions: the projection onto media streams

    A source of the projected plan stands for the lanes of one device and eye. The
    projection of an accepted plan is an accepted media stream exactly under the
    conditions of [compat_wf], and then so is the runtime specification that is
    composed around it. *)

From S2P Require Import Prelude RustStr OrdMap MediaModel MediaValidation MediaSpec MediaRefinement MediaPlan P2pRoute MediaRuntime MediaComposition ProductOrder PackedStream RemoteCamera RemoteSpec.
From Stdlib Require Import Sorting.Sorted.

Local Open Scope N_scope.

(** ** The map of source ids *)

Lemma compare_source_key_lex a b :
  compare_source_key a b = lex_compare [a.1.1; a.1.2; a.2] [b.1.1; b.1.2; b.2].
Proof.
  unfold compare_source_key. cbn.
  destruct (String.compare a.1.1 b.1.1), (String.compare a.1.2 b.1.2), (String.compare a.2 b.2); done.
Qed.

#[global] Instance source_key_total_ord : TotalOrd compare_source_key.
Proof.
  split.
  - intros [[a1 a2] a3] [[b1 b2] b3]. rewrite compare_source_key_lex, lex_compare_eq. cbn. split; [by intros [= -> -> ->]|].
    by intros [= -> -> ->].
  - intros a b. rewrite !compare_source_key_lex. apply lex_compare_antisym.
  - intros a b c. rewrite !compare_source_key_lex. apply lex_compare_lt_trans.
Qed.

(** The id of the source of a device and eye, and the key of a source. *)
Definition eye_source_id (device eye : string) : string := device +:+ "." +:+ eye +:+ ".remote_camera_source".
#[global] Arguments eye_source_id : simpl never.

Definition source_key_of (s : MediaStreamSource) : source_key :=
  (src_device_id s, src_track_role s, src_source_family s).

(** What the map holds: for each of its keys the id of its device and eye. *)
Definition ids_ok (ids : source_ids) : Prop :=
  om_sorted compare_source_key ids ∧ Forall (fun entry => entry.2 = eye_source_id entry.1.1.1 entry.1.1.2) ids.

Lemma ids_ok_insert ids l : ids_ok ids →
  ids_ok (om_insert compare_source_key (lane_source_key l) (remote_source_id l) ids).
Proof.
  intros [Hs Hf]. split; [by apply (om_insert_sorted compare_source_key)|]. induction Hf as [|[k v] ids Hv Hf IH]; cbn; [by repeat constructor|].
  apply StronglySorted_inv in Hs as [Hs _]. destruct (compare_source_key _ k); repeat constructor; auto.
Qed.

Lemma ids_insert_keys ids l k :
  k ∈ (om_insert compare_source_key (lane_source_key l) (remote_source_id l) ids).*1 ↔
  k = lane_source_key l ∨ k ∈ ids.*1.
Proof. apply (om_insert_keys compare_source_key). Qed.

(** The source of a lane depends on its key only. *)
Lemma build_source_key l l' e : lane_source_key l = lane_source_key l' →
  build_source (remote_source_id l) l e = build_source (remote_source_id l') l' e.
Proof.
  intros [= H1 H2 H3]. unfold build_source, build_camera, remote_source_id. by rewrite H1, H2, H3.
Qed.

Section Sources.
Context (endpoints : btree RemoteCameraRuntimeEndpoint).

(** A lane whose device has an endpoint. *)
Definition placed (l : RemoteCameraLane) (e : RemoteCameraRuntimeEndpoint) : Prop :=
  bt_get (rcl_source_device_id l) endpoints = Some e.

Lemma build_sources_keys lanes ids k :
  k ∈ (build_sources endpoints ids lanes).2.*1 ↔
  k ∈ ids.*1 ∨ ∃ l e, l ∈ lanes ∧ placed l e ∧ lane_source_key l = k.
Proof.
  revert ids. induction lanes as [|l lanes IH]; intros ids; cbn [build_sources]; [set_solver|].
  destruct (om_get compare_source_key (lane_source_key l) ids) as [x|] eqn:Eg.
  { apply om_get_key in Eg; [|apply _]. rewrite IH. split; [set_solver|].
    intros [?|(l' & e & Hl' & He & <-)]; [auto|]. apply elem_of_cons in Hl' as [->|?]; [auto|]. right. eauto. }
  destruct (bt_get (rcl_source_device_id l) endpoints) as [e|] eqn:Ee.
  - specialize (IH (om_insert compare_source_key (lane_source_key l) (remote_source_id l) ids)).
    destruct (build_sources endpoints _ lanes) as [ss ids']. cbn [snd] in *. rewrite IH, ids_insert_keys.
    split; [|set_solver]. intros [[->|?]|?]; [right|auto|set_solver]. exists l, e. split; [set_solver|done].
  - rewrite IH. split; [set_solver|]. intros [?|(l' & e & Hl' & He & <-)]; [auto|].
    apply elem_of_cons in Hl' as [->|?]; [unfold placed in He; congruence|]. right. eauto.
Qed.

Lemma build_sources_ids lanes ids : ids_ok ids → ids_ok (build_sources endpoints ids lanes).2.
Proof.
  revert ids. induction lanes as [|l lanes IH]; intros ids Hi; cbn [build_sources]; [done|].
  destruct (om_get compare_source_key (lane_source_key l) ids); [auto|].
  destruct (bt_get (rcl_source_device_id l) endpoints) as [e|]; [|auto].
  specialize (IH _ (ids_ok_insert ids l Hi)). by destruct (build_sources endpoints _ lanes).
Qed.

Lemma build_sources_elem lanes ids s :
  s ∈ (build_sources endpoints ids lanes).1 ↔
  ∃ l e, l ∈ lanes ∧ placed l e ∧ lane_source_key l ∉ ids.*1 ∧ s = build_source (remote_source_id l) l e.
Proof.
  revert ids. induction lanes as [|l lanes IH]; intros ids; cbn [build_sources]; [set_solver|].
  destruct (om_get compare_source_key (lane_source_key l) ids) as [x|] eqn:Eg.
  { apply om_get_key in Eg; [|apply _]. rewrite IH. set_solver. }
  destruct (bt_get (rcl_source_device_id l) endpoints) as [e|] eqn:Ee.
  - apply om_get_None in Eg; [|apply _].
    specialize (IH (om_insert compare_source_key (lane_source_key l) (remote_source_id l) ids)).
    destruct (build_sources endpoints _ lanes) as [ss ids']. cbn [fst] in *. rewrite elem_of_cons, IH.
    setoid_rewrite ids_insert_keys. split.
    + intros [->|(l' & e' & Hl' & He' & Hk & ->)]; [exists l, e|exists l', e']; set_solver.
    + intros (l' & e' & Hl' & He' & Hk & ->). apply elem_of_cons in Hl'.
      destruct (decide (lane_source_key l' = lane_source_key l)) as [Hkk|Hkk].
      * left. pose proof Hkk as [= H1 _ _]. unfold placed in He'. rewrite H1 in He'.
        assert (e' = e) as -> by congruence.
        by apply build_source_key.
      * right. destruct Hl' as [->|Hl']; [done|]. exists l', e'. set_solver.
  - rewrite IH. split; [set_solver|]. intros (l' & e & Hl' & He & H).
    apply elem_of_cons in Hl' as [->|?]; [unfold placed in He; congruence|]. eauto 10.
Qed.

Lemma build_sources_NoDup lanes ids : NoDup (source_key_of <$> (build_sources endpoints ids lanes).1).
Proof.
  revert ids. induction lanes as [|l lanes IH]; intros ids; cbn [build_sources]; [constructor|].
  destruct (om_get compare_source_key (lane_source_key l) ids); [auto|].
  destruct (bt_get (rcl_source_device_id l) endpoints) as [e|] eqn:Ee; [|auto].
  pose proof (build_sources_elem lanes (om_insert compare_source_key (lane_source_key l) (remote_source_id l) ids)) as Hel.
  specialize (IH (om_insert compare_source_key (lane_source_key l) (remote_source_id l) ids)).
  destruct (build_sources endpoints _ lanes) as [ss ids']. cbn [fst] in *. rewrite fmap_cons. constructor; [|done].
  rewrite list_elem_of_fmap. intros (s & Hk & Hs). apply Hel in Hs as (l' & e' & _ & _ & Hn & ->).
  rewrite ids_insert_keys in Hn. apply Hn. left. by symmetry in Hk.
Qed.
End Sources.

(** ** Source ids *)

Lemma last_separator {A} (c : A) l1 l2 t1 t2 : c ∉ t1 → c ∉ t2 → l1 ++ c :: t1 = l2 ++ c :: t2 → l1 = l2 ∧ t1 = t2.
Proof.
  intros H1 H2. revert l2. induction l1 as [|x l1 IH]; intros [|y l2]; cbn; intros [=]; subst; try done.
  - destruct H1. set_solver.
  - destruct H2. set_solver.
  - split; [f_equal|]; by eapply IH.
Qed.

(** The id of a source tells its device and eye: eyes have no dots. *)
Lemma eye_source_id_inj d eye d' eye' : eye ∈ rc_eyes → eye' ∈ rc_eyes →
  eye_source_id d eye = eye_source_id d' eye' → d = d' ∧ eye = eye'.
Proof.
  intros He He' E. apply (f_equal str_bytes) in E. unfold eye_source_id in E. rewrite !str_bytes_app, !app_assoc in E.
  apply app_inj_2 in E as [E _]; [|done]. rewrite <- !app_assoc in E. cbn in E.
  assert (∀ s, s ∈ rc_eyes → 46 ∉ str_bytes s) as Hdot.
  { unfold rc_eyes. intros s Hs. set_unfold in Hs. destruct Hs as [->|[->|[->|[->|[]]]]]; cbn; set_solver. }
  apply last_separator in E as [E1 E2]; [|by apply Hdot..]. by apply str_bytes_inj in E1, E2.
Qed.

Lemma eye_source_id_text d eye : route_token d → eye ∈ rc_eyes →
  nonblank (eye_source_id d eye) ∧ route_token (eye_source_id d eye).
Proof.
  unfold eye_source_id. intros [H1 H2] He. destruct (rc_eye_text eye He) as [_ [H3 H4]]. split.
  - rewrite <- !str_app_assoc. by eapply graphic_last_nonblank.
  - split; unfold contains_byte in *; rewrite !any_byte_app, ?H1, ?H2, ?H3, ?H4; done.
Qed.

(** ** The projected plan *)

Definition plan_sources (plan : RemoteCameraSessionPlan) : list MediaStreamSource :=
  (build_sources (bt_collect rce_device_id (rcp_runtime_endpoints plan)) [] (rcp_lanes plan)).1.

Definition plan_source_ids (plan : RemoteCameraSessionPlan) : source_ids :=
  (build_sources (bt_collect rce_device_id (rcp_runtime_endpoints plan)) [] (rcp_lanes plan)).2.

Lemma plan_ids_ok plan : ids_ok (plan_source_ids plan).
Proof. apply build_sources_ids. split; constructor. Qed.

(** Whether or not the map has its key, a lane is bound to the source of its
    device and eye. *)
Lemma build_lane_ids ids l : ids_ok ids → build_lane ids l = build_lane [] l.
Proof.
  intros [Hs Hf]. unfold build_lane. cbv zeta. f_equal. cbn [om_get default].
  destruct (om_get compare_source_key (lane_source_key l) ids) as [x|] eqn:E; [|done].
  apply (om_get_Some compare_source_key) in E; [|done]. rewrite Forall_forall in Hf. by apply Hf in E.
Qed.

Lemma media_stream_plan_eq plan :
  media_stream_plan plan =
  mkSessionPlan MEDIA_STREAM_SESSION_SCHEMA (rcp_session_id plan +:+ ".media_stream_compat") (rcp_topology_id plan)
    (rcp_privacy_tier plan) (build_device <$> rcp_devices plan) (plan_sources plan) (build_lane [] <$> rcp_lanes plan)
    (build_runtime_endpoint (plan_source_ids plan) <$> rcp_runtime_endpoints plan)
    (build_route <$> rcp_transport_routes plan) (build_security (rcp_security plan))
    (build_observability (rcp_observability plan)).
Proof.
  pose proof (plan_ids_ok plan) as Hok.
  unfold media_stream_plan, plan_sources, plan_source_ids in *. destruct (build_sources _ _ _) as [ss ids]. cbn in *.
  f_equal. apply list_fmap_ext. intros i l _. by apply build_lane_ids.
Qed.

Section Plan.
Context (plan : RemoteCameraSessionPlan).
Context (Nep : NoDup (rce_device_id <$> rcp_runtime_endpoints plan)).

Lemma plan_sources_elem s : s ∈ plan_sources plan ↔
  ∃ l e, sends e (rcp_lanes plan) l ∧ e ∈ rcp_runtime_endpoints plan ∧ s = build_source (remote_source_id l) l e.
Proof.
  unfold plan_sources, sends. rewrite build_sources_elem. unfold placed.
  setoid_rewrite (bt_collect_get rce_device_id _ _ _ Nep). set_solver.
Qed.

Lemma plan_keys k : k ∈ (plan_source_ids plan).*1 ↔
  ∃ l e, sends e (rcp_lanes plan) l ∧ e ∈ rcp_runtime_endpoints plan ∧ lane_source_key l = k.
Proof.
  unfold plan_source_ids, sends. rewrite build_sources_keys. unfold placed.
  setoid_rewrite (bt_collect_get rce_device_id _ _ _ Nep). set_solver.
Qed.

(** A port of an endpoint serves a source when a lane of its device has that
    eye. *)
Lemma endpoint_role_id e eye x : e ∈ rcp_runtime_endpoints plan →
  source_id_for_endpoint_role e eye (plan_source_ids plan) = Some x ↔
  x = eye_source_id (rce_device_id e) eye ∧ ∃ l, sends e (rcp_lanes plan) l ∧ rcm_eye (rcl_media l) = eye.
Proof.
  intros He. unfold source_id_for_endpoint_role. destruct (plan_ids_ok plan) as [_ Hok]. rewrite Forall_forall in Hok.
  destruct (List.find _ _) as [[k y]|] eqn:F; cbn.
  - apply List.find_some in F as [Hin Ht]. apply list_elem_of_In in Hin. bool_to_prop. cbn in *.
    assert (k ∈ (plan_source_ids plan).*1) as Hk by (apply list_elem_of_fmap; by exists (k, y)).
    apply plan_keys in Hk as (l & e' & Hl & He' & <-). apply Hok in Hin. cbn in *. subst.
    split; [intros [= <-]|intros [-> _]; congruence]. split; [congruence|]. exists l. split; [|done].
    destruct Hl as [Hl _]. by split.
  - split; [done|]. intros (-> & l & Hl & <-).
    assert (lane_source_key l ∈ (plan_source_ids plan).*1) as Hk by (apply plan_keys; eauto).
    apply list_elem_of_fmap in Hk as ([k y] & Hk & Hin). cbn in Hk. subst k. apply list_elem_of_In in Hin.
    pose proof (List.find_none _ _ F _ Hin) as Hn. cbn in Hn. destruct Hl as [_ Hl]. rewrite Hl in Hn.
    by rewrite !String.eqb_refl in Hn.
Qed.

Lemma endpoint_bindings e b : e ∈ rcp_runtime_endpoints plan →
  b ∈ ep_source_bindings (build_runtime_endpoint (plan_source_ids plan) e) ↔
  ∃ p l, p ∈ rce_sender_source_ports e ∧ sends e (rcp_lanes plan) l ∧ rcm_eye (rcl_media l) = rcb_eye p ∧
    b = mkSourceBinding (eye_source_id (rce_device_id e) (rcb_eye p)) (rcb_eye p) (rce_sender_source_host e) (rcb_port p).
Proof.
  intros He. cbn. rewrite list_elem_of_omap. unfold build_binding. setoid_rewrite fmap_Some.
  setoid_rewrite (endpoint_role_id e _ _ He). naive_solver.
Qed.
End Plan.

Lemma NoDup_omap_key {A B K K'} (key : A → K) (f : A → option B) (g : B → K') l : NoDup (key <$> l) →
  (∀ x y b b', x ∈ l → y ∈ l → f x = Some b → f y = Some b' → g b = g b' → key x = key y) →
  NoDup (g <$> omap f l).
Proof.
  induction l as [|x l IH]; intros Hn Hf; cbn; [constructor|]. rewrite fmap_cons in Hn. apply NoDup_cons in Hn as [Hx Hn].
  assert (NoDup (g <$> omap f l)) as Hl by (apply IH; [done|]; intros; eapply Hf; eauto; set_solver).
  destruct (f x) as [b|] eqn:E; [|done]. cbn. constructor; [|done].
  intros (b' & Eg & (y & Hy & Ey)%list_elem_of_omap)%list_elem_of_fmap. apply Hx, list_elem_of_fmap.
  exists y. split; [|done]. eapply Hf; eauto; set_solver.
Qed.

(** The two latency counters are added where they are missing. *)
Lemma observability_project o : Forall (fun c => c ∈ rco_required_counters o) rc_counters →
  Forall (fun c => c ∈ obsv_required_counters (build_observability o)) observability_counters.
Proof.
  intros H. rewrite Forall_forall in *. unfold build_observability. cbn [obsv_required_counters fold_left].
  assert (∀ l r c, c ∈ (if existsb (fun counter => counter =? r)%string l then l else l ++ [r]) ↔ c ∈ l ∨ c = r) as E.
  { intros l r c. destruct (existsb _ l) eqn:Ex; [|set_solver]. apply existsb_exists in Ex as (x & Hx & Ex).
    apply String.eqb_eq in Ex as ->. apply list_elem_of_In in Hx. naive_solver. }
  intros c Hc. rewrite !E. destruct (decide (c ∈ rc_counters)) as [Hin|Hin]; [left; left; auto|].
  unfold observability_counters, rc_counters in *. set_solver.
Qed.

(** ** What the projection needs *)

(** A sender that serves a lane: it has a port for the lane's eye, and the camera
    that the source names is one. *)
Definition serves (e : RemoteCameraRuntimeEndpoint) (l : RemoteCameraLane) : Prop :=
  rce_device_id e = rcl_source_device_id l ∧ rcm_eye (rcl_media l) ∈ rcb_eye <$> rce_sender_source_ports e ∧
  (rce_sender_source_kind e = SOURCE_KIND_CAMERA2_MEDIACODEC_SURFACE →
     nonblank (camera_id_for_eye e (rcm_eye (rcl_media l))) ∧
     nonblank (default "unspecified"%string (rce_sender_camera_facing e))).

(** What the media stream asks of a plan beyond the remote camera contract. *)
Record compat_wf (plan : RemoteCameraSessionPlan) : Prop := {
  cw_devices : Forall (fun d => route_token (rcd_device_id d)) (rcp_devices plan);
  cw_framing : Forall (fun l =>
    rcm_stream_framing (rcl_media l) ∈ [STREAM_FRAMING_DIAGNOSTIC_H264; STREAM_FRAMING_RMANVID_V4_PACKED_STEREO] ∧
    (rcm_stream_framing (rcl_media l) = STREAM_FRAMING_RMANVID_V4_PACKED_STEREO ↔
     rcm_eye (rcl_media l) = "stereo"%string)) (rcp_lanes plan);
  cw_senders : Forall (fun l => ∃ e, e ∈ rcp_runtime_endpoints plan ∧ serves e l) (rcp_lanes plan);
  (** One family for the lanes of a device and eye. *)
  cw_families : ∀ l l', l ∈ rcp_lanes plan → l' ∈ rcp_lanes plan → rcl_source_device_id l = rcl_source_device_id l' →
    rcm_eye (rcl_media l) = rcm_eye (rcl_media l') → rcl_source_family l = rcl_source_family l';
}.

(** Only Camera2 capture puts a condition on the source. *)
Lemma build_source_policy id l e : sender_wf e →
  source_policy_wf (build_source id l e) ↔
  (rce_sender_source_kind e = SOURCE_KIND_CAMERA2_MEDIACODEC_SURFACE →
   camera_wf (rcm_eye (rcl_media l) =? "stereo")%string (build_camera l e)).
Proof.
  intros (Hk & _). unfold source_policy_wf, build_source. cbv zeta.
  set_unfold in Hk. destruct Hk as [E|[E|[E|[]]]]; rewrite E.
  - change (map_source_kind SOURCE_KIND_EXTERNAL_H264_SOCKET) with SOURCE_KIND_EXTERNAL_H264_SOCKET.
    cbn [src_source_kind src_capture_authority]. split; [intros _ [=]|]. intros _. by left.
  - change (map_source_kind SOURCE_KIND_CAMERA2_MEDIACODEC_SURFACE) with SOURCE_KIND_CAMERA2_MEDIACODEC_SURFACE.
    cbn [src_source_kind src_capture_authority src_developer_shell_required src_consent_required src_display src_camera
      src_track_role src_deployment_classification]. rewrite String.eqb_refl. split.
    + intros H _. repeat destruct H as [H|H]; try (by destruct H as [[=] _]).
      destruct H as (_ & _ & _ & _ & _ & c & [= <-] & Hc). done.
    + intros H. right. left. split_and!; [done..|]. eauto.
  - change (map_source_kind SOURCE_KIND_DIAGNOSTIC_SYNTHETIC_SURFACE) with SOURCE_KIND_DIAGNOSTIC_SYNTHETIC_SURFACE.
    cbn [src_source_kind src_capture_authority]. split; [intros _ [=]|]. intros _. do 4 right. done.
Qed.

Section Projection.
Context (plan : RemoteCameraSessionPlan) (W : remote_plan_wf plan).
Let lanes := rcp_lanes plan.
Let endpoints := rcp_runtime_endpoints plan.
Let devices := rcp_devices plan.

Lemma lane_of l : l ∈ lanes → rc_lane_wf devices l.
Proof. destruct (rp_lanes _ W) as (_ & _ & H). rewrite Forall_forall in H. apply H. Qed.

Lemma endpoint_of e : e ∈ endpoints → rc_endpoint_wf devices lanes e.
Proof. destruct (rp_endpoints _ W) as (_ & H). rewrite Forall_forall in H. apply H. Qed.

Lemma eye_of l : l ∈ lanes → rcm_eye (rcl_media l) ∈ rc_eyes.
Proof. intros H. apply lane_of in H as (_ & _ & _ & _ & _ & _ & _ & _ & _ & _ & _ & Hm & _). apply Hm. Qed.

Lemma sender_of e : e ∈ endpoints → sender_wf e.
Proof. intros H. by apply endpoint_of in H as (_ & _ & _ & _ & _ & ? & _). Qed.

Lemma port_eye e p : e ∈ endpoints → p ∈ rce_sender_source_ports e → rcb_eye p ∈ rc_eyes ∧ rcb_port p ≠ 0.
Proof.
  intros H Hp. apply endpoint_of in H as (_ & _ & _ & _ & _ & _ & _ & (_ & Hf & _) & _).
  rewrite Forall_forall in Hf. by apply Hf.
Qed.

Lemma eye_track v : v ∈ rc_eyes → track_role v.
Proof. unfold rc_eyes, track_role. set_solver. Qed.

Lemma unique_endpoint e e' : e ∈ endpoints → e' ∈ endpoints → rce_device_id e = rce_device_id e' → e = e'.
Proof.
  intros He He' Hid. destruct (rp_endpoints _ W) as (Hn & _).
  assert (bt_get (rce_device_id e) (bt_collect rce_device_id endpoints) = Some e) as E1 by (by apply bt_collect_get).
  assert (bt_get (rce_device_id e) (bt_collect rce_device_id endpoints) = Some e') as E2 by (by apply bt_collect_get).
  congruence.
Qed.

(** Stereo is captured with the two outside cameras. *)
Lemma stereo_cameras e l : e ∈ endpoints → sends e lanes l → rcm_eye (rcl_media l) = "stereo"%string →
  (list_to_set (ctb_track_role <$> cam_camera_ids (build_camera l e)) : gset string) = {[ "left"; "right" ]}%string ∧
  size (list_to_set (ctb_camera_id <$> cam_camera_ids (build_camera l e)) : gset string) = 2%nat.
Proof.
  intros He [Hl Hs] Heye. destruct (rp_layout _ W) as [[_ H]|(_ & _ & _ & H & _)]; rewrite Forall_forall in H.
  { by destruct (H l Hl). }
  destruct (H e He) as [Hsend _]. destruct Hsend as (_ & _ & Hp); [rewrite <- Hs; apply list_elem_of_fmap; eauto|].
  cbn. rewrite <- !list_fmap_compose. split.
  - rewrite Hp. vm_compute. reflexivity.
  - rewrite Hp. vm_compute. reflexivity.
Qed.

Lemma ports_project required l : rc_ports_wf l → ports_wf required (build_port <$> l).
Proof.
  intros (Hne & Hf & He & Hp). unfold ports_wf. rewrite <- !list_fmap_compose. split_and!; [|..|done|done].
  - intros _. by destruct l.
  - rewrite Forall_fmap. eapply Forall_impl; [exact Hf|]. intros b [? ?]. split; [by apply eye_track|done].
Qed.

Lemma route_project r : r ∈ rcp_transport_routes plan →
  route_wf (build_lane [] <$> lanes) (build_runtime_endpoint (plan_source_ids plan) <$> endpoints) (build_route r).
Proof.
  intros Hr. destruct (rp_routes _ W) as (_ & H & _). rewrite Forall_forall in H. specialize (H r Hr).
  destruct H as (Ht & l & Hl & Hid & Hsrc & Hsink & Heye & Hc). unfold route_text_wf in Ht. unfold route_wf.
  split_and!; [apply Ht..| |apply Ht|].
  { apply eye_track. cbn. rewrite Heye. by apply eye_of. }
  exists (build_lane [] l). split_and!; [by apply list_elem_of_fmap_2|done..|].
  assert (rc_direct_ok endpoints r l → tr_transport_kind (lane_transport (build_lane [] l)) = "lan_tcp"%string ∧
    tr_relay_required (lane_transport (build_lane [] l)) = false ∧
    ∃ e b, e ∈ build_runtime_endpoint (plan_source_ids plan) <$> endpoints ∧
      ep_device_id e = rt_sink_device_id (build_route r) ∧ b ∈ ep_transport_receive_ports e ∧
      pb_track_role b = rt_track_role (build_route r) ∧ pb_port b = rt_connect_port (build_route r)) as Hd.
  { intros (H1 & H2 & e & b & He & Hide & Hb & H3 & H4). split_and!; [done..|].
    exists (build_runtime_endpoint (plan_source_ids plan) e), (build_port b).
    split_and!; [by apply list_elem_of_fmap_2|done|by apply list_elem_of_fmap_2|done|done]. }
  destruct Hc as [(Hk & Hc & _)|[(Hk & Hc & _)|(Hk & Hc)]]; cbn [rt_route_kind build_route]; rewrite Hk.
  - left. split; [set_solver|]. by apply Hd.
  - left. split; [set_solver|]. by apply Hd.
  - right. split; [done|]. destruct Hc as (H1 & H2 & H3 & H4 & H5). by split_and!.
Qed.

(** *** Under the conditions *)

Section Compatible.
Context (C : compat_wf plan).

Lemma sender_for e l : e ∈ endpoints → sends e lanes l → serves e l.
Proof.
  intros He [Hl Hs]. pose proof (cw_senders _ C) as H. rewrite Forall_forall in H.
  destruct (H l Hl) as (e' & He' & Hserves). rewrite (unique_endpoint e e'); [done..|]. rewrite <- Hs. by destruct Hserves.
Qed.

Lemma device_token l : l ∈ lanes → route_token (rcl_source_device_id l).
Proof.
  intros Hl. apply lane_of in Hl as (_ & _ & _ & _ & _ & _ & _ & Hd & _). apply list_elem_of_fmap in Hd as (d & -> & Hd).
  pose proof (cw_devices _ C) as H. rewrite Forall_forall in H. by apply H.
Qed.

Lemma remote_id_text l : l ∈ lanes → nonblank (remote_source_id l) ∧ route_token (remote_source_id l).
Proof. intros Hl. apply eye_source_id_text; [by apply device_token|by apply eye_of]. Qed.

Lemma built_source_wf e l : e ∈ endpoints → sends e lanes l →
  source_wf (build_device <$> devices) (build_source (remote_source_id l) l e).
Proof.
  intros He Hs. pose proof (sender_for e l He Hs) as (_ & _ & Hcam). pose proof (stereo_cameras e l He Hs) as Hst.
  destruct Hs as [Hl Hs]. destruct (remote_id_text l Hl) as [T1 T2]. pose proof (lane_of l Hl) as Lw.
  destruct Lw as (_ & Hsrc & _ & Hfam & _ & Tfam & _). pose proof (endpoint_of e He) as Ew.
  destruct Ew as (_ & _ & _ & _ & _ & Hsw & (d & Hd & Hid & Hrelay & _) & _).
  unfold source_wf. split_and!; [done..| |done|done|by apply eye_track, eye_of|set_solver| |].
  - unfold nonblank, build_source. cbn [src_capture_route]. destruct Hsw as (Hk & _). set_unfold in Hk.
    destruct Hk as [->|[->|[->|[]]]]; done.
  - exists (build_device d). split_and!; [by apply list_elem_of_fmap_2|cbn; congruence|done].
  - apply build_source_policy; [done|]. intros E. destruct (Hcam E) as [H1 H2].
    destruct Hsw as (_ & _ & [_ Hp] & _). unfold camera_wf. split_and!; [done|done|by apply Hp|].
    intros Heye. apply Hst. by apply String.eqb_eq.
Qed.

Lemma sources_project : plan_sources plan ≠ [] ∧ NoDup (src_source_id <$> plan_sources plan) ∧
  Forall (source_wf (build_device <$> devices)) (plan_sources plan).
Proof.
  destruct (rp_endpoints _ W) as (Nep & _). split_and!.
  - destruct (rp_lanes _ W) as (Hne & _). assert (∃ l, l ∈ lanes) as [l Hl].
    { unfold lanes. destruct (rcp_lanes plan) as [|l ls]; [done|]. exists l. set_solver. }
    pose proof (cw_senders _ C) as H. rewrite Forall_forall in H. destruct (H l Hl) as (e & He & Hserves & _).
    intros En. assert (build_source (remote_source_id l) l e ∈ plan_sources plan) as Hin.
    { apply plan_sources_elem; [done|]. exists l, e. by repeat split. }
    rewrite En in Hin. set_solver.
  - apply NoDup_fmap_2_strong; [|eapply NoDup_fmap_1, build_sources_NoDup].
    intros s s' (l & e & Hs & He & ->)%plan_sources_elem (l' & e' & Hs' & He' & ->)%plan_sources_elem; [|done..].
    cbn. intros E. destruct Hs as [Hl Hs], Hs' as [Hl' Hs'].
    apply eye_source_id_inj in E as [E1 E2]; [|by apply eye_of..].
    rewrite (unique_endpoint e e') by (done || congruence). apply build_source_key. unfold lane_source_key.
    rewrite E1, E2. f_equal. by eapply (cw_families _ C).
  - apply Forall_forall. intros s (l & e & Hs & He & ->)%plan_sources_elem; [|done]. by apply built_source_wf.
Qed.

Lemma media_project l : l ∈ lanes → media_wf (build_media (rcl_media l)).
Proof.
  intros Hl. pose proof (cw_framing _ C) as H. rewrite Forall_forall in H. destruct (H l Hl) as [F1 F2].
  pose proof (eye_track _ (eye_of l Hl)) as Heye.
  pose proof (lane_of l Hl) as (_ & _ & _ & _ & _ & _ & _ & _ & _ & _ & _ & M & _).
  destruct M as (M1 & M2 & M3 & M4 & M5 & M6 & M7 & M8 & M9 & M10 & M11 & M12 & M13 & M14 & M15).
  assert (rcm_width (rcl_media l) <= 4096) as Hw.
  { destruct (rcm_frame_layout (rcl_media l)) as [layout|]; [|lia].
    destruct M15 as (_ & _ & _ & L1 & _ & L2 & _ & L3 & _). lia. }
  unfold media_wf, MEDIA_STREAM_COMPAT_MAX_PACKET_BYTES. cbn. split_and!; done || lia.
Qed.

Lemma lane_project l : l ∈ lanes → lane_wf (build_device <$> devices) (plan_sources plan) (build_lane [] l).
Proof.
  intros Hl. destruct (remote_id_text l Hl) as [T1 T2]. pose proof (media_project l Hl) as Hm.
  pose proof (lane_of l Hl) as (L1 & L2 & L3 & _ & L5 & _ & L7 & L8 & L9 & L10 & L11 & _ & L12 & L13).
  destruct L13 as (Q1 & Q2 & Q3 & Q4). unfold lane_wf. rewrite <- !list_fmap_compose.
  split_and!; try done.
  - pose proof (cw_senders _ C) as H. rewrite Forall_forall in H. destruct (H l Hl) as (e & He & Hserves & _).
    exists (build_source (remote_source_id l) l e). split_and!; [|done..].
    apply plan_sources_elem; [by destruct (rp_endpoints _ W)|]. exists l, e. by repeat split.
  - unfold queue_wf. cbn. split_and!; done || lia.
Qed.

Lemma serving_port e l : e ∈ endpoints → sends e lanes l →
  remote_source_id l ∈ sb_source_id <$> ep_source_bindings (build_runtime_endpoint (plan_source_ids plan) e).
Proof.
  intros He Hs. destruct (sender_for e l He Hs) as (_ & Hp & _). apply list_elem_of_fmap in Hp as (p & Hp & Hin).
  destruct (rp_endpoints _ W) as [Nep _]. apply list_elem_of_fmap.
  eexists. split; [|apply (endpoint_bindings plan Nep e); [done|]; by exists p, l].
  cbn. destruct Hs as [_ <-]. by rewrite <- Hp.
Qed.

Lemma binding_project e b : e ∈ endpoints →
  b ∈ ep_source_bindings (build_runtime_endpoint (plan_source_ids plan) e) →
  binding_wf (build_runtime_endpoint (plan_source_ids plan) e) (plan_sources plan) b.
Proof.
  intros He Hb. destruct (rp_endpoints _ W) as [Nep _].
  apply (endpoint_bindings plan Nep e b He) in Hb as (p & l & Hp & Hs & Heye & ->).
  destruct (port_eye e p He Hp) as [P1 P2]. pose proof (endpoint_of e He) as (_ & E2 & _).
  destruct Hs as [Hl Hs]. destruct (remote_id_text l Hl) as [T1 T2].
  assert (remote_source_id l = eye_source_id (rce_device_id e) (rcb_eye p)) as Hid.
  { unfold remote_source_id. by rewrite Hs, Heye. }
  rewrite Hid in T1, T2. unfold binding_wf. cbn. split_and!; try done; [by apply eye_track|].
  exists (build_source (remote_source_id l) l e). split_and!; [|done..].
  apply plan_sources_elem; [done|]. exists l, e. by repeat split.
Qed.

Lemma endpoint_project e : e ∈ endpoints →
  endpoint_wf (build_device <$> devices) (plan_sources plan) (build_lane [] <$> lanes)
    (build_runtime_endpoint (plan_source_ids plan) e).
Proof.
  intros He. destruct (rp_endpoints _ W) as [Nep _].
  pose proof (endpoint_of e He) as (E1 & E2 & E3 & E4 & E5 & _ & (d & Hd & Hid & Hrelay & _) & P1 & P2 & P3).
  unfold endpoint_wf. rewrite <- !list_fmap_compose. split_and!; try done.
  - cbn. set_solver.
  - exists (build_device d). split_and!; [by apply list_elem_of_fmap_2|done|done].
  - apply Forall_forall. intros b. by apply binding_project.
  - cbn. destruct P1 as (_ & _ & Hn & _). apply (NoDup_omap_key rcb_eye); [done|].
    intros p p' b b' Hp Hp' (x & Hx & ->)%fmap_Some (y & Hy & ->)%fmap_Some. cbn. intros ->.
    apply (endpoint_role_id plan Nep e) in Hx as [-> _]; [|done].
    apply (endpoint_role_id plan Nep e) in Hy as [E _]; [|done].
    apply eye_source_id_inj in E as [_ E]; [done|by eapply port_eye..].
  - intros Hin. apply list_elem_of_fmap in Hin as (l & Hs & Hl).
    assert (sends e lanes l) as Hsend by done. apply (serving_port e l He) in Hsend.
    intros En. rewrite En in Hsend. set_solver.
  - by apply ports_project.
  - by apply ports_project.
Qed.

Lemma projection_compatible : plan_wf (media_stream_plan plan).
Proof.
  pose proof (topology_projects plan) as [Ht _]. specialize (Ht (rp_topology _ W)) as [_ Ht].
  revert Ht. rewrite media_stream_plan_eq. intros Ht. destruct (rp_endpoints _ W) as [Nep _].
  constructor; cbn [pl_schema pl_session_id pl_privacy_tier pl_lanes pl_security pl_devices pl_sources pl_runtime_endpoints
    pl_transport_routes pl_observability]; [..|exact Ht|].
  - split; [done|]. by eapply graphic_last_nonblank.
  - destruct (rp_privacy _ W) as [H1 H2]. split; [done|]. rewrite Forall_fmap. apply H2.
  - apply (rp_security _ W).
  - destruct (rp_devices _ W) as (H1 & H2 & H3). split_and!; [by destruct (rcp_devices plan)|by rewrite <- list_fmap_compose|].
    rewrite Forall_fmap. pose proof (cw_devices _ C) as H4. rewrite Forall_forall in *. intros d Hd.
    destruct (H3 d Hd) as (D1 & D2 & D3). unfold device_wf. cbn. split_and!; [done|done|set_solver|auto].
  - apply sources_project.
  - destruct (rp_lanes _ W) as (H1 & H2 & _). split_and!; [by destruct (rcp_lanes plan)|by rewrite <- list_fmap_compose|].
    rewrite Forall_fmap. apply Forall_forall. apply lane_project.
  - rewrite <- list_fmap_compose. split; [done|]. rewrite Forall_fmap. apply Forall_forall. apply endpoint_project.
  - rewrite <- list_fmap_compose. split.
    + intros id (d & (d' & -> & Hd)%list_elem_of_fmap & <- & Hk). pose proof (rp_coverage _ W) as H.
      rewrite Forall_forall in H. by apply H.
    + intros s e' (l & e & Hs & He & ->)%plan_sources_elem (e'' & -> & He'')%list_elem_of_fmap; [|done].
      cbn [ep_device_id build_runtime_endpoint src_device_id src_source_id build_source]. intros E. destruct Hs as [Hl Hs].
      apply serving_port; [done|]. by split.
  - destruct (rp_routes _ W) as (H1 & _ & H3). rewrite <- list_fmap_compose. split_and!; [done| |].
    + rewrite Forall_fmap. apply Forall_forall. apply route_project.
    + intros l (l' & -> & Hl)%list_elem_of_fmap. by apply H3.
  - apply observability_project, (rp_observability _ W).
Qed.

End Compatible.

(** *** The conditions are necessary *)

Section Accepted.
Context (V : plan_wf (media_stream_plan plan)).

(** A lane of an accepted projection has a sender that serves it. *)
Lemma accepted_sender l : l ∈ lanes →
  ∃ e, e ∈ endpoints ∧ serves e l ∧ build_source (remote_source_id l) l e ∈ plan_sources plan.
Proof.
  intros Hl. pose proof V as V'. rewrite media_stream_plan_eq in V'. destruct (rp_endpoints _ W) as [Nep _].
  destruct (pw_lanes _ V') as (_ & _ & H). cbn in H. rewrite Forall_fmap, Forall_forall in H.
  destruct (H l Hl) as (_ & _ & _ & _ & _ & _ & _ & (s & Hin & Hid & _) & _). cbn in Hid.
  pose proof Hin as (l' & e & [Hl' Hs] & He & ->)%plan_sources_elem; [|done]. cbn in Hid.
  apply eye_source_id_inj in Hid as [E1 E2]; [|by apply eye_of..].
  assert (sends e lanes l) as Hsend by (split; [done|congruence]).
  exists e. split; [done|]. split; [|apply plan_sources_elem; eauto].
  split; [by rewrite <- Hs|]. destruct (pw_coverage _ V') as [_ Hcov]. cbn in Hcov. split.
  - specialize (Hcov _ (build_runtime_endpoint (plan_source_ids plan) e) Hin).
    destruct (proj1 (list_elem_of_fmap _ _ _) (Hcov ltac:(by apply list_elem_of_fmap_2) ltac:(by symmetry)))
      as (b & Eb & (p & l'' & Hp & _ & _ & ->)%(endpoint_bindings plan Nep e)); [|done]. cbn in Eb.
    apply eye_source_id_inj in Eb as [_ Eb]; [|by apply eye_of|by eapply port_eye].
    apply list_elem_of_fmap. exists p. split; [congruence|done].
  - intros Hk. destruct (pw_sources _ V') as (_ & _ & Hsw). cbn in Hsw. rewrite Forall_forall in Hsw.
    specialize (Hsw _ Hin) as (_ & _ & _ & _ & _ & _ & _ & _ & _ & Hpol).
    apply (build_source_policy _ _ _ (sender_of e He)) in Hpol as (H1 & H2 & _); [|done].
    cbn in H1. rewrite E2 in H1. done.
Qed.

Lemma accepted_compatible : compat_wf plan.
Proof.
  pose proof V as V'. rewrite media_stream_plan_eq in V'. constructor.
  - destruct (pw_devices _ V') as (_ & _ & H). cbn in H. rewrite Forall_fmap in H. eapply Forall_impl; [exact H|].
    intros d (_ & _ & _ & Hd). done.
  - destruct (pw_lanes _ V') as (_ & _ & H). cbn in H. rewrite Forall_fmap in H. eapply Forall_impl; [exact H|].
    intros l (_ & _ & _ & _ & _ & _ & _ & _ & _ & _ & _ & _ & (_ & _ & _ & _ & _ & _ & M1 & M2 & _) & _). by split.
  - apply Forall_forall. intros l Hl. destruct (accepted_sender l Hl) as (e & He & Hs & _). eauto.
  - intros l l' Hl Hl' H1 H2. destruct (accepted_sender l Hl) as (e & _ & _ & Hin).
    destruct (accepted_sender l' Hl') as (e' & _ & _ & Hin'). destruct (pw_sources _ V') as (_ & Hn & _). cbn in Hn.
    assert (build_source (remote_source_id l) l e = build_source (remote_source_id l') l' e') as E.
    { assert (bt_get (remote_source_id l) (bt_collect src_source_id (plan_sources plan)) =
        Some (build_source (remote_source_id l) l e)) as G1 by (by apply bt_collect_get).
      assert (bt_get (remote_source_id l) (bt_collect src_source_id (plan_sources plan)) =
        Some (build_source (remote_source_id l') l' e')) as G2.
      { apply bt_collect_get; [done|]. split; [done|]. cbn. unfold remote_source_id. by rewrite H1, H2. }
      congruence. }
    by apply (f_equal src_source_family) in E.
Qed.
End Accepted.
End Projection.

Lemma projection_wf plan : remote_plan_wf plan → plan_wf (media_stream_plan plan) ↔ compat_wf plan.
Proof. intros W. split; [by apply accepted_compatible|by apply projection_compatible]. Qed.

Lemma compat_errors_ok {A} prefix (r : result (list ValidationError) A) a :
  compat_errors prefix r = Ok a ↔ r = Ok a.
Proof. destruct r; cbn; [done|]. split; intros [=]. Qed.

Lemma session_plan_built plan m :
  build_media_stream_session_plan plan = Ok m ↔ remote_plan_wf plan ∧ compat_wf plan ∧ m = media_stream_plan plan.
Proof.
  unfold build_media_stream_session_plan. cbv zeta.
  assert (∀ u : unit, u = tt) as U by (by intros []).
  split.
  - intros H. destruct (validate_remote_camera_session plan) as [u|] eqn:E1; [|done]. rewrite (U u) in E1.
    apply remote_session_ok in E1 as W. cbn in H.
    destruct (compat_errors _ _) as [u'|] eqn:E2; [|done]. rewrite (U u') in E2.
    rewrite compat_errors_ok, session_ok, projection_wf in E2 by done. by injection H as <-.
  - intros (W & C & ->). apply remote_session_ok in W as E1. rewrite E1. cbn.
    assert (compat_errors "media stream compatibility: " (validate_media_stream_session (media_stream_plan plan)) = Ok tt) as ->;
      [|done].
    by rewrite compat_errors_ok, session_ok, projection_wf.
Qed.
