(* ===== verification/RemoteClaims.v ===== *)
(** * Remote camera sessions: the runtime specification and the properties

    What is composed around the projection of an accepted plan is a well-formed
    runtime specification: one owner for every resource, one sink for every
    receiving device. *)

From S2P Require Import Prelude RustStr OrdMap MediaModel MediaValidation MediaSpec MediaRefinement MediaPlan P2pRoute MediaRuntime MediaComposition ProductOrder PackedStream RemoteCamera RemoteSpec RemoteTheorems.
From Stdlib Require Import Sorting.Sorted.

Local Open Scope N_scope.

(** ** Sorting *)

Section Sort.
Context {A : Type} (cmp : A → A → comparison) {TO : TotalOrd cmp}.


End Sort.

(** ** Owners *)






(** ** The specification *)



Section Spec.
Context (plan : RemoteCameraSessionPlan) (W : remote_plan_wf plan) (C : compat_wf plan).
Let m := media_stream_plan plan.







End Spec.


(** ** Fixtures *)

Section Fixtures.
Local Open Scope string_scope.

(** fixtures/remote-camera-sessions/q2q-direct-p2p-packed-sbs.plan.json. *)
Definition packed_sbs_plan : RemoteCameraSessionPlan :=
  mkRemotePlan "rusty.quest.remote_camera_session.v1" "session.remote_camera.q2q_direct_p2p_packed_sbs" "quest_to_quest_two_way" "local_lan_diagnostic"
   "side-by-side-left-right"
   [mkRemoteDevice "quest-a" "quest" "sender_receiver";
    mkRemoteDevice "quest-b" "quest" "sender_receiver"]
   [mkRemoteLane "quest-a-stereo-to-quest-b" "outgoing" "quest-a" "quest-b" "quest-camera2"
      (mkRemoteMedia "quest-a.stereo.h264" "stereo" "video" "h264" "rmanvid-v4-packed-stereo" 2560 1280 15 12000000
         "stream-header-and-binary-pair-extension" "android-camera-sensor-time" "binary-media"
         (Some (mkFrameLayout "rusty.quest.remote_camera.frame_layout.v1" "side_by_side_left_right" ["left"; "right"] 2560 1280 1280 1280 "camera2_sensor_timestamp" "nearest_timestamp_bounded" 20000000 false false)))
      (mkRemoteTransport "lan_tcp" false false None) (mkRemoteQueue 32 4194304 "drop-oldest-complete-frame" true) true;
    mkRemoteLane "quest-b-stereo-to-quest-a" "outgoing" "quest-b" "quest-a" "quest-camera2"
      (mkRemoteMedia "quest-b.stereo.h264" "stereo" "video" "h264" "rmanvid-v4-packed-stereo" 2560 1280 15 12000000
         "stream-header-and-binary-pair-extension" "android-camera-sensor-time" "binary-media"
         (Some (mkFrameLayout "rusty.quest.remote_camera.frame_layout.v1" "side_by_side_left_right" ["left"; "right"] 2560 1280 1280 1280 "camera2_sensor_timestamp" "nearest_timestamp_bounded" 20000000 false false)))
      (mkRemoteTransport "lan_tcp" false false None) (mkRemoteQueue 32 4194304 "drop-oldest-complete-frame" true) true]
   [mkRemoteEndpoint "quest-a" "quest_manifold_broker_android" "camera2_mediacodec_surface" "127.0.0.1" [mkRemotePort "stereo" 8879]
      None [mkRemoteCamera "left" "50"; mkRemoteCamera "right" "51"]
      (Some "external") (Some "qcl100-packed-sbs") "camera_permission_required" "127.0.0.1"
      [mkRemotePort "stereo" 8979] "192.168.49.1" [mkRemotePort "stereo" 9079];
    mkRemoteEndpoint "quest-b" "quest_manifold_broker_android" "camera2_mediacodec_surface" "127.0.0.1" [mkRemotePort "stereo" 8879]
      None [mkRemoteCamera "left" "50"; mkRemoteCamera "right" "51"]
      (Some "external") (Some "qcl100-packed-sbs") "camera_permission_required" "127.0.0.1"
      [mkRemotePort "stereo" 8979] "192.168.49.2" [mkRemotePort "stereo" 9079]]
   [mkRemoteRoute "quest-a-stereo-to-quest-b" "quest-a" "quest-b" "stereo" "direct_p2p_tcp" "192.168.49.2" 9079
      (Some "rusty_direct_p2p_socket_authority") (Some "192.168.49.1") None None None;
    mkRemoteRoute "quest-b-stereo-to-quest-a" "quest-b" "quest-a" "stereo" "direct_p2p_tcp" "192.168.49.1" 9079
      (Some "rusty_direct_p2p_socket_authority") (Some "192.168.49.2") None None None]
   (mkRemoteSecurity true true "remote_camera.stop" false)
   (mkRemoteObservability ["remote-camera-session-started"; "receiver-armed"; "sender-started"; "projection-active"; "lane-closed"]
      ["bytes_sent"; "bytes_received"; "media_packets"; "codec_config_packets"; "keyframes"; "queue_drops"; "close_reason"; "pairs_accepted"; "pair_delta_p95_ns"; "left_frames_dropped_unmatched"; "right_frames_dropped_unmatched"; "stale_eye_reuse_count"; "gpu_compositor_active"; "cpu_pixel_copy"]).

(** fixtures/remote-camera-sessions/q2q-two-way-lan.plan.json. *)
Definition two_way_lan_plan : RemoteCameraSessionPlan :=
  mkRemotePlan "rusty.quest.remote_camera_session.v1" "session.remote_camera.q2q_two_way_lan_smoke" "quest_to_quest_two_way" "local_lan_diagnostic"
   "separate-eye-streams"
   [mkRemoteDevice "quest-a" "quest" "sender_receiver";
    mkRemoteDevice "quest-b" "quest" "sender_receiver"]
   [mkRemoteLane "quest-a-left-to-quest-b" "outgoing" "quest-a" "quest-b" "quest-camera2"
      (mkRemoteMedia "quest-a.left.h264" "left" "video" "h264" "diagnostic-h264-packet-stream" 720 720 30 2500000
         "stream-header" "android-camera-sensor-time" "binary-media"
         None)
      (mkRemoteTransport "lan_tcp" false false None) (mkRemoteQueue 32 4194304 "drop-oldest-complete-frame" true) true;
    mkRemoteLane "quest-a-right-to-quest-b" "outgoing" "quest-a" "quest-b" "quest-camera2"
      (mkRemoteMedia "quest-a.right.h264" "right" "video" "h264" "diagnostic-h264-packet-stream" 720 720 30 2500000
         "stream-header" "android-camera-sensor-time" "binary-media"
         None)
      (mkRemoteTransport "lan_tcp" false false None) (mkRemoteQueue 32 4194304 "drop-oldest-complete-frame" true) true;
    mkRemoteLane "quest-b-left-to-quest-a" "outgoing" "quest-b" "quest-a" "quest-camera2"
      (mkRemoteMedia "quest-b.left.h264" "left" "video" "h264" "diagnostic-h264-packet-stream" 720 720 30 2500000
         "stream-header" "android-camera-sensor-time" "binary-media"
         None)
      (mkRemoteTransport "lan_tcp" false false None) (mkRemoteQueue 32 4194304 "drop-oldest-complete-frame" true) true;
    mkRemoteLane "quest-b-right-to-quest-a" "outgoing" "quest-b" "quest-a" "quest-camera2"
      (mkRemoteMedia "quest-b.right.h264" "right" "video" "h264" "diagnostic-h264-packet-stream" 720 720 30 2500000
         "stream-header" "android-camera-sensor-time" "binary-media"
         None)
      (mkRemoteTransport "lan_tcp" false false None) (mkRemoteQueue 32 4194304 "drop-oldest-complete-frame" true) true]
   [mkRemoteEndpoint "quest-a" "quest_manifold_broker_android" "camera2_mediacodec_surface" "127.0.0.1" [mkRemotePort "left" 8879; mkRemotePort "right" 8880]
      None [mkRemoteCamera "left" "50"; mkRemoteCamera "right" "51"]
      (Some "external") (Some "camera-native-max") "camera_permission_required" "127.0.0.1"
      [mkRemotePort "left" 8979; mkRemotePort "right" 8980] "0.0.0.0" [mkRemotePort "left" 9079; mkRemotePort "right" 9080];
    mkRemoteEndpoint "quest-b" "quest_manifold_broker_android" "camera2_mediacodec_surface" "127.0.0.1" [mkRemotePort "left" 8879; mkRemotePort "right" 8880]
      None [mkRemoteCamera "left" "50"; mkRemoteCamera "right" "51"]
      (Some "external") (Some "camera-native-max") "camera_permission_required" "127.0.0.1"
      [mkRemotePort "left" 8979; mkRemotePort "right" 8980] "0.0.0.0" [mkRemotePort "left" 9079; mkRemotePort "right" 9080]]
   [mkRemoteRoute "quest-a-left-to-quest-b" "quest-a" "quest-b" "left" "direct_tcp_connect" "quest-b.local" 9079
      None None None None None;
    mkRemoteRoute "quest-a-right-to-quest-b" "quest-a" "quest-b" "right" "direct_tcp_connect" "quest-b.local" 9080
      None None None None None;
    mkRemoteRoute "quest-b-left-to-quest-a" "quest-b" "quest-a" "left" "direct_tcp_connect" "quest-a.local" 9079
      None None None None None;
    mkRemoteRoute "quest-b-right-to-quest-a" "quest-b" "quest-a" "right" "direct_tcp_connect" "quest-a.local" 9080
      None None None None None]
   (mkRemoteSecurity true true "remote_camera.stop" false)
   (mkRemoteObservability ["remote-camera-session-started"; "receiver-armed"; "sender-started"; "projection-active"; "lane-closed"]
      ["bytes_sent"; "bytes_received"; "media_packets"; "codec_config_packets"; "keyframes"; "queue_drops"; "close_reason"]).

End Fixtures.

Example packed_sbs_accepted : validate_remote_camera_session packed_sbs_plan = Ok tt.
Proof. vm_compute. reflexivity. Qed.

Example packed_sbs_processor :
  match build_media_stream_runtime_spec packed_sbs_plan 9 with
  | Ok spec => prc_processor_kind <$> rsp_processors spec = ["packed_sbs_left_right"%string]
  | Err _ => False
  end.
Proof. vm_compute. reflexivity. Qed.

(** A plan without a direct P2P route has a runtime specification too: nothing
    restricts the adapter to direct P2P. *)
Example lan_plan_without_p2p :
  match build_media_stream_runtime_spec two_way_lan_plan 8 with
  | Ok spec => rsp_direct_p2p_routes spec = []
  | Err _ => False
  end.
Proof. vm_compute. reflexivity. Qed.

(** ** Properties *)

(** C28: [validate_remote_camera_session] accepts exactly the declaratively
    well-formed plans: known, distinct devices with endpoints, lanes between them
    within the bounds of their media, queues and transports, one route for every
    lane that reaches a port of its sink, camera permission with Camera2 capture
    only, Quest stereo from the two outside cameras, and a layout that is packed
    for all lanes or for none. *)
Theorem remote_session_accepts (plan : RemoteCameraSessionPlan) :
  validate_remote_camera_session plan = Ok tt ↔ remote_plan_wf plan.
Proof. apply remote_session_ok. Qed.

(** C21: The projection onto a media stream succeeds exactly for the accepted
    plans whose device ids are route tokens, whose framing is the media stream's
    own for the lane's eye, whose lanes have a sender with a port and a camera for
    their eye, and whose lanes of one device and eye are of one family; the result
    is the plan with its devices, lanes and routes in order and one source for
    every device and eye. *)
Theorem media_projection_exact (plan : RemoteCameraSessionPlan) (m : MediaStreamSessionPlan) :
  build_media_stream_session_plan plan = Ok m ↔
  remote_plan_wf plan ∧ compat_wf plan ∧ m = media_stream_plan plan ∧
  pl_lanes m = build_lane [] <$> rcp_lanes plan ∧ pl_transport_routes m = build_route <$> rcp_transport_routes plan ∧
  (∀ s, s ∈ pl_sources m ↔ ∃ l e, sends e (rcp_lanes plan) l ∧ e ∈ rcp_runtime_endpoints plan ∧
     s = build_source (remote_source_id l) l e).
Proof.
  rewrite session_plan_built. split; [|tauto]. intros (W & C & ->). split_and!; [done..| | |].
  - by rewrite media_stream_plan_eq.
  - by rewrite media_stream_plan_eq.
  - intros s. rewrite media_stream_plan_eq. apply plan_sources_elem. by destruct (rp_endpoints _ W).
Qed.

